(* ===== verification/_CoqProject ===== *)
-Q . S2P
Prelude.v
GoStd.v
World.v
Base64.v
Sha.v
KeyWrap.v
Json.v
JsonValue.v
Http.v
Marketplace.v
StatusList.v
Schema.v
CoreSchemas.v
Validate.v
Consent.v
StoreTypes.v
Store.v
StoreAuth.v
Logic.v
StoreInv.v
Totp.v
Lockout.v
Events.v
AuditLog.v
Jwt.v
GoTime.v
Binary64.v
Crypto.v
Canonical.v
Provider.v
ProviderProofs.v
Did.v
GoNet.v
Vc.v
VcJson.v
DidJson.v
VcProofs.v
StatusVc.v
Trust.v
TrustProofs.v
SdJwt.v
SdJwtProofs.v
Watermark.v
Bridge.v
BridgeProofs.v
BridgeApi.v
BridgeApiProofs.v
Didcomm.v
DidcommProofs.v
Keystore.v
Pe.v
PeProofs.v
Consents.v
ConsentsProofs.v
Zkp.v
Credentials.v
CredentialsProofs.v
WebhooksProofs.v
Accounts.v
AccountsProofs.v
Endpoints.v
EndpointsProofs.v
ApiServer.v
ApiServerProofs.v
Discovery.v
DiscoveryProofs.v
Oid4vp.v
Oid4vpProofs.v
WebAuthn.v
WebAuthnProofs.v
Migrations.v
OidcRp.v
OidcRpProofs.v
Gf256.v
Interpolation.v
Shamir.v
RecoveryApi.v
RecoveryApiProofs.v
Providers.v
ProvidersProofs.v
