(* ===== verification/Prelude.v ===== *)
(** * tpt-identity: a verification development

    The program (src/) is an identity platform in Go: an OpenID provider (oidc/),
    an HTTP API (api/), a SQLite store with its migrations (internal/store), sign-in
    bridges (internal/bridge), second factors and lockout (internal/authn), an event
    bus with a hash-chained audit log (internal/events, internal/auditlog), and
    libraries for decentralised identifiers (pkg/did), encrypted messages
    (pkg/didcomm), verifiable credentials, selective-disclosure tokens, derived
    proofs and watermarks (pkg/vc, pkg/crypto, pkg/keystore), presentation exchange
    (pkg/pe), credential schemas (pkg/schema, pkg/marketplace), trust permits and
    reputation (pkg/trust), consent (pkg/consent) and guardian recovery
    (pkg/recovery).

    A request passes the server's middleware and router (ApiServer.v) to a handler
    of api/ or oidc/, which calls the store, the libraries and the event bus; a bus
    hands each event to its subscribers and to the webhooks.  The bridge handlers call
    a sign-in provider for an external identity and the mapper for the identifier it
    is linked to.

    ** How it is modelled

    Go functions become Rocq functions of the same name.  A computation with
    effects is a function of the type [M S A] (World.v): it reads a clock, a
    random source and a database through oracles that answer the n-th call, and
    threads the state [S]; theorems hold for every oracle unless they say
    otherwise, so every read of the clock, every failure of the random source and
    every driver error is covered.  Errors are values of [result] (below); where the
    code can panic the outcome is an [option].  Handlers map a [Request] to a
    [Response] (Http.v).  Instants are nanoseconds in [Z] and seconds are
    [t / 10^9]; bytes are [Byte.byte]; strings are byte strings.  Packages outside
    src/ are type classes or arguments: Ed25519, X25519, RSA, ECDSA, Argon2, the AES
    block, the authenticated ciphers, gzip, multibase, the JSON Schema validator, the
    WebAuthn, LDAP and SAML libraries, the HTTP client and DNS.  SHA-1, SHA-256,
    SHA-384, SHA-512, HMAC, base64url, hexadecimal, encoding/json, package strings,
    times, durations, addresses and URLs are defined, with the standard test vectors.

    The handlers of api/ publish on the bus the server makes for itself
    ([BridgeApi.server_bus]), which has webhooks but no in-process subscriber; the
    audit log is subscribed to another bus, the one of cmd/serve.go.

    ** Files

    Foundations.  Prelude (errors, tactics, list lemmas), GoStd (bytes, strings,
    strconv), World (effects and weakest preconditions), Base64, Sha, Json (strings:
    escaping and UTF-8), JsonValue (JSON values, reader and writer), Http, GoTime (RFC 3339
    and duration texts, decoding of struct fields), Binary64 (float64: the operations
    with their rounding, and error bounds), GoNet (addresses, networks and URLs).

    Libraries.  StatusList and StatusVc (pkg/vc/status.go: the bit string and the
    credential that carries it), Schema, CoreSchemas, Validate and Marketplace
    (pkg/schema, its built-in data, pkg/marketplace), Consent (pkg/consent), Crypto
    and Canonical (pkg/crypto: canonical JSON and signatures, and the proof that
    canonical bytes determine the document), Keystore (pkg/keystore and encryption
    at rest), Did and DidJson (pkg/did, internal/resolver), KeyWrap, Didcomm
    and DidcommProofs (pkg/didcomm and its endpoints), Vc, VcJson and VcProofs
    (credentials and presentations), SdJwt and SdJwtProofs (pkg/vc/sdjwt.go), Zkp
    (age proofs, pkg/vc/zkp.go and api/zkp.go), Watermark (pkg/vc/watermark.go), Pe
    and PeProofs (pkg/pe, api/presentations.go), Trust and TrustProofs (pkg/trust),
    Gf256, Interpolation and Shamir (pkg/recovery).

    Store.  StoreTypes (one record per table), Store and StoreAuth (one definition
    per method of internal/store/sqlite.go, upsert and filter semantics of its SQL
    statements), Logic (proof rules for store calls), StoreInv (the invariant),
    Migrations (internal/store/migrations).

    Provider.  Jwt (oidc/jwt.go), Provider and ProviderProofs (authorization, pushed
    requests, code and refresh grants, client authentication), Endpoints and
    EndpointsProofs (device flow, revocation, introspection, token exchange, logout,
    step-up, pre-authorised codes), Discovery and DiscoveryProofs (client
    registration, discovery, keys, webfinger, back-channel logout, health), Oid4vp
    and Oid4vpProofs (presentation requests, credential offers and metadata).

    Sign-in.  Totp and Lockout (internal/authn), Bridge and BridgeProofs (password
    and magic-link sign-in, duress, the identity mapper), OidcRp and OidcRpProofs
    (upstream OpenID provider), Providers and ProvidersProofs (ACC, Te Whatu Ora,
    LDAP, SAML, RealMe), WebAuthn and WebAuthnProofs (passkeys).

    Services and API.  Events (internal/events), AuditLog (internal/auditlog,
    api/auditlog.go), ApiServer and ApiServerProofs (api/server.go: routes,
    middleware, rate limiter), BridgeApi and BridgeApiProofs (api/bridge.go,
    password.go, mfa.go, duress.go), Credentials and CredentialsProofs (issuing,
    verifying, batches, status, identities), Consents and ConsentsProofs
    (api/consents.go), WebhooksProofs (api/webhooks.go), Accounts and
    AccountsProofs (sessions, profile, administration, privacy), RecoveryApi and
    RecoveryApiProofs (api/recovery.go).

    ** What is shown

    - Authorization: codes and refresh tokens are issued only to the right client
      with the right PKCE verifier, work once, rotate, and the flow completes;
      device tokens need an approval; token exchange never widens a scope;
      revocation takes effect; tokens verify exactly when signed; a registered client
      authenticates with the secret it was given; an offer is redeemed once.
    - Credentials: an issued credential verifies until it expires, through the
      library and through the endpoints; a credential that verifies is one the issuer
      signed, in all its content, unless SHA-256 collides or a signature of the issuer's
      key was made by somebody else; selective disclosure
      reveals exactly the chosen claims and never anything the issuer did not sign;
      the status list implements a set and revocation takes effect end to end; an age
      proof is right and reveals one bit; a submission satisfies a definition exactly
      when its descriptors' required fields are reached and accepted, as those parts of
      a filter that the code reads say; requests and responses over OpenID refine one
      slot per identifier, with its instants.
    - Messages: every recipient of a packed message reads exactly it, and key wrapping
      is inverted by unwrapping.
    - Store and log: every sequence of store writes keeps the invariant; migrations
      leave a recorded prefix under any failure; the audit chain is complete and
      tamper evident, and each entry is rooted under any interleaving of handlers.
    - Server: without the key no documented path is reached but those of recovery; the
      rate limiter admits at most its burst and rate, up to the rounding of float64;
      webhooks that are registered are called, signed and at most three times; every
      grant that the API stores was created by a request and is explicit.
    - Recovery: any threshold of shares reconstructs the secret and fewer reveal
      nothing about it.
    - Sign-in: one-time passwords, magic links, lockout, password verification and
      signed bridge state behave as specified; an upstream identity is backed by a
      signature, a directory identity by its password, a verified RealMe identity by
      its stated assurance, a passkey sign-in by a stored passkey.
    - Flaws the model exposes are theorems too: key-bound presentations never verify,
      the recovery handler sends every share to the webhooks, the lockout is not
      consulted at login, the authorization endpoint believes a header, published
      status lists are never served, upstream tokens for other clients are accepted,
      and others listed in the theorems' comments.

    ** Bounds and fuel

    Readers take fuel from the length of their input, which bounds the recursion
    ([JsonValue.parse] allows two steps per byte; [Json.quote] one); the round-trip
    theorems show that it suffices for everything the program writes.  [uvarint]
    has ten groups because numbers have 64 bits.  Deliveries make three attempts,
    as the code does.  Strings in round trips are UTF-8, since json.Marshal replaces
    other bytes; integers in canonical JSON are at most 2^53, above which float64
    rounds; the rates of the limiter are at most 2^40 a second, so that no sum
    overflows; instants lie in the years 0 to 9999, outside of which time values do
    not marshal.

    ** Not modelled

    Wiring and I/O: cmd/ (command line), the listener, metrics, opening the database
    file, rendering of the SAML metadata page.  Code that does not type-check, so has
    no behaviour: CredentialHandler of oidc/oid4vci.go and handleCredentialFreshness
    of api/batch.go.  The cryptography and protocol libraries named above are
    parameters with their laws as hypotheses.  Parts left out of otherwise modelled
    files are listed in the manifest. *)

From Stdlib Require Export ZArith Lia Strings.Byte.
From stdpp Require Export base tactics numbers strings gmap list.
#[export] Set Default Goal Selector "!".
#[export] Set Warnings "-clear-no-such-hyp".

Declare Scope go_scope.
Delimit Scope go_scope with go.

(** ** Errors and results

    A Go error is a value with a message; [fmt.Errorf("...: %w", err)] keeps the
    error it wraps.  The database driver's sentinel [sql.ErrNoRows] is a
    constructor of its own because the code tests for it. *)
Inductive error :=
| ErrNoRows
| ErrConstraint (msg : string)
| ErrDriver (msg : string)
| ErrMsg (msg : string)
| ErrWrap (prefix : string) (e : error).

Inductive result (A : Type) :=
| Ok (a : A)
| Err (e : error).
Arguments Ok {A} a.
Arguments Err {A} e.

#[export] Instance error_eq_dec : EqDecision error.
Proof. solve_decision. Defined.
#[export] Instance result_eq_dec `{EqDecision A} : EqDecision (result A).
Proof. solve_decision. Defined.

#[export] Instance result_ret : MRet result := @Ok.
#[export] Instance result_bind : MBind result := λ A B f m,
  match m with Ok a => f a | Err e => Err e end.
#[export] Instance result_fmap : FMap result := λ A B f m,
  match m with Ok a => Ok (f a) | Err e => Err e end.

Definition is_ok {A} (r : result A) : bool :=
  match r with Ok _ => true | Err _ => false end.
Definition wrap_err {A} (prefix : string) (r : result A) : result A :=
  match r with Ok a => Ok a | Err e => Err (ErrWrap prefix e) end.
Definition of_option {A} (e : error) (o : option A) : result A :=
  match o with Some a => Ok a | None => Err e end.

(** The message [err.Error()] gives: the wrapped message follows its prefix. *)
Fixpoint error_string (e : error) : string :=
  match e with
  | ErrNoRows => "sql: no rows in result set"
  | ErrConstraint m | ErrDriver m | ErrMsg m => m
  | ErrWrap p e' => String.append p (String.append ": " (error_string e'))
  end.

(** [errors.Is(err, sql.ErrNoRows)]: unwrap until the sentinel is found. *)
Fixpoint is_no_rows (e : error) : bool :=
  match e with
  | ErrNoRows => true
  | ErrWrap _ e' => is_no_rows e'
  | _ => false
  end.

(** ** Tactics *)

(** Case analysis on every [match] and [if] of a hypothesis. *)
Ltac break_in H :=
  repeat (case_match; simplify_eq/=; try discriminate H; try done).

(** Introduce, split conjunctions and destruct existentials in hypotheses. *)
Ltac split_all :=
  repeat match goal with
  | H : _ ∧ _ |- _ => destruct H
  | H : ∃ _, _ |- _ => destruct H
  | |- _ ∧ _ => split
  end.

Create HintDb go discriminated.
Create Rewrite HintDb go_rw.

(** ** Generic lemmas *)

Section ListLemmas.
Context {A B : Type}.
Implicit Types (l : list A).

Lemma foldl_snoc (f : B → A → B) b l x :
  foldl f b (l ++ [x]) = f (foldl f b l) x.
Proof. by rewrite foldl_app. Qed.

Lemma foldl_map {C} (f : B → A → B) (g : C → A) b (l : list C) :
  foldl f b (g <$> l) = foldl (λ acc x, f acc (g x)) b l.
Proof. revert b. induction l as [|x l IH]; intros b; [done|]. apply IH. Qed.

Lemma existsb_elem_of (f : A → bool) l :
  existsb f l = true ↔ ∃ x, x ∈ l ∧ f x = true.
Proof.
  rewrite existsb_exists. by setoid_rewrite list_elem_of_In.
Qed.

Lemma forallb_elem_of (f : A → bool) l :
  forallb f l = true ↔ ∀ x, x ∈ l → f x = true.
Proof.
  rewrite forallb_forall. by setoid_rewrite list_elem_of_In.
Qed.

Lemma NoDup_delete l i : NoDup l → NoDup (delete i l).
Proof. intros H. by apply (sublist_NoDup _ l); [|apply sublist_delete]. Qed.

Lemma filter_all (P : A → Prop) `{!∀ x, Decision (P x)} l : Forall P l → filter P l = l.
Proof.
  induction 1 as [|x l Hx _ IH]; [done|]. by rewrite filter_cons, decide_True, IH.
Qed.
End ListLemmas.
