(* ===== verification/GoStd.v ===== *)
(** * The parts of Go and its standard library the program uses

    Bytes with their bitwise operations at width 8, [encoding/hex], the
    [strings] functions, and [crypto/subtle.ConstantTimeCompare].  A Go string
    is a sequence of bytes: [string]; a [[]byte] is a [list byte]. *)

From S2P Require Import Prelude.

(** ** Bytes *)

Definition bval (b : byte) : N := Byte.to_N b.
Definition byte_of_N (n : N) : byte :=
  match Byte.of_N (n mod 256) with Some b => b | None => x00 end.
Definition bxor (a b : byte) : byte := byte_of_N (N.lxor (bval a) (bval b)).
Definition band (a b : byte) : byte := byte_of_N (N.land (bval a) (bval b)).
Definition bor (a b : byte) : byte := byte_of_N (N.lor (bval a) (bval b)).
Definition bandnot (a b : byte) : byte := byte_of_N (N.ldiff (bval a) (bval b)).
Definition bshl (a : byte) (n : N) : byte := byte_of_N (N.shiftl (bval a) n).
Definition bshr (a : byte) (n : N) : byte := byte_of_N (N.shiftr (bval a) n).
Definition beqb (a b : byte) : bool := N.eqb (bval a) (bval b).

#[export] Instance byte_eq_dec : EqDecision byte.
Proof. intros a b. destruct (Byte.byte_eq_dec a b); [left|right]; done. Defined.

(** Every byte, for checks that enumerate the type. *)
Definition all_bytes : list byte := byte_of_N ∘ N.of_nat <$> seq 0 256.

Lemma bval_inj a b : bval a = bval b → a = b.
Proof.
  intros H. pose proof (Byte.of_to_N a) as Ha. pose proof (Byte.of_to_N b) as Hb.
  unfold bval in H. rewrite H in Ha. congruence.
Qed.

Lemma bval_lt b : (bval b < 256)%N.
Proof. pose proof (Byte.to_N_bounded b). unfold bval. lia. Qed.

Lemma byte_of_bval b : byte_of_N (bval b) = b.
Proof.
  unfold byte_of_N. rewrite N.mod_small by apply bval_lt.
  unfold bval. by rewrite Byte.of_to_N.
Qed.

Lemma bval_byte_of_N n : bval (byte_of_N n) = (n mod 256)%N.
Proof.
  unfold byte_of_N. destruct (Byte.of_N (n mod 256)) as [b|] eqn:E.
  - by apply Byte.to_of_N.
  - apply Byte.of_N_None_iff in E. pose proof (N.mod_lt n 256). lia.
Qed.

Lemma elem_of_all_bytes b : b ∈ all_bytes.
Proof.
  unfold all_bytes. apply list_elem_of_fmap. exists (N.to_nat (bval b)). split.
  - simpl. by rewrite N2Nat.id, byte_of_bval.
  - apply elem_of_seq. pose proof (bval_lt b). lia.
Qed.

Lemma beqb_spec a b : reflect (a = b) (beqb a b).
Proof.
  unfold beqb. destruct (N.eqb_spec (bval a) (bval b)) as [H|H]; constructor.
  - by apply bval_inj.
  - congruence.
Qed.

Lemma beqb_eq a b : beqb a b = true → a = b.
Proof. by destruct (beqb_spec a b). Qed.

Lemma beqb_refl a : beqb a a = true.
Proof. by destruct (beqb_spec a a). Qed.

(** A boolean property of bytes holds everywhere once the enumeration says so. *)
Lemma forall_bytes (P : byte → bool) :
  forallb P all_bytes = true → ∀ a, P a = true.
Proof. rewrite forallb_elem_of. intros H a. apply H, elem_of_all_bytes. Qed.

Lemma forall_bytes2 (P : byte → byte → bool) :
  forallb (λ a, forallb (P a) all_bytes) all_bytes = true → ∀ a b, P a b = true.
Proof. intros H a b. by apply (forall_bytes (P a)), (forall_bytes (λ a, forallb (P a) all_bytes)). Qed.

(** Equations between functions of one and of two bytes. *)
Lemma eq_bytes (f g : byte → byte) :
  forallb (λ a, beqb (f a) (g a)) all_bytes = true → ∀ a, f a = g a.
Proof.
  intros H a. apply beqb_eq. revert a.
  by apply (forall_bytes (λ a, beqb (f a) (g a))).
Qed.

Lemma eq_bytes2 (f g : byte → byte → byte) :
  forallb (λ a, forallb (λ b, beqb (f a b) (g a b)) all_bytes) all_bytes = true →
  ∀ a b, f a b = g a b.
Proof.
  intros H a b. apply beqb_eq. revert a b.
  by apply (forall_bytes2 (λ a b, beqb (f a b) (g a b))).
Qed.

Lemma bval_bxor a b : bval (bxor a b) = N.lxor (bval a) (bval b).
Proof.
  apply (N.eqb_eq (bval (bxor a b))).
  revert a b. apply (forall_bytes2 (λ a b, N.eqb (bval (bxor a b)) (N.lxor (bval a) (bval b)))).
  vm_compute. reflexivity.
Qed.

Lemma bxor_assoc a b c : bxor a (bxor b c) = bxor (bxor a b) c.
Proof. apply bval_inj. by rewrite !bval_bxor, N.lxor_assoc. Qed.
Lemma bxor_comm a b : bxor a b = bxor b a.
Proof. apply bval_inj. by rewrite !bval_bxor, N.lxor_comm. Qed.
Lemma bxor_nilp a : bxor a a = x00.
Proof. apply bval_inj. by rewrite bval_bxor, N.lxor_nilpotent. Qed.
Lemma bxor_0_l a : bxor x00 a = a.
Proof. apply bval_inj. by rewrite bval_bxor, N.lxor_0_l. Qed.
Lemma bxor_0_r a : bxor a x00 = a.
Proof. by rewrite bxor_comm, bxor_0_l. Qed.
Lemma bxor_eq_0 a b : bxor a b = x00 → a = b.
Proof.
  intros H. apply bval_inj, N.lxor_eq. by rewrite <-bval_bxor, H.
Qed.
#[export] Hint Rewrite bxor_nilp bxor_0_l bxor_0_r : go_rw.

Definition bsub (a b : byte) : byte := byte_of_N (bval a + 256 - bval b).

(** ** Strings as byte sequences *)

Definition bytes_of (s : string) : list byte := String.list_byte_of_string s.
Definition str_of (bs : list byte) : string := String.string_of_list_byte bs.

Lemma bytes_of_str_of bs : bytes_of (str_of bs) = bs.
Proof. apply String.list_byte_of_string_of_list_byte. Qed.
Lemma str_of_bytes_of s : str_of (bytes_of s) = s.
Proof. apply String.string_of_list_byte_of_string. Qed.
#[export] Hint Rewrite bytes_of_str_of str_of_bytes_of : go_rw.

(** ** encoding/hex *)

(** The lower-case alphabet of [EncodeToString]. *)
Definition hexdigit (n : N) : byte :=
  byte_of_N (if (n <? 10)%N then 48 + n else 87 + n).
(** [fromHexChar]: both cases are accepted when decoding. *)
Definition fromHexChar (c : byte) : option N :=
  let v := bval c in
  if ((48 <=? v) && (v <=? 57))%N then Some (v - 48)%N
  else if ((97 <=? v) && (v <=? 102))%N then Some (v - 87)%N
  else if ((65 <=? v) && (v <=? 70))%N then Some (v - 55)%N
  else None.

Definition hex_byte (b : byte) : list byte :=
  [hexdigit (bval b / 16); hexdigit (bval b mod 16)].
Definition hex_encode (bs : list byte) : list byte := concat (hex_byte <$> bs).
Fixpoint hex_decode (cs : list byte) : option (list byte) :=
  match cs with
  | [] => Some []
  | [_] => None
  | a :: b :: cs' =>
      match fromHexChar a, fromHexChar b with
      | Some h, Some l => cons (byte_of_N (16 * h + l)) <$> hex_decode cs'
      | _, _ => None
      end
  end.

Lemma hex_byte_decode b :
  fromHexChar (hexdigit (bval b / 16)) = Some (bval b / 16)%N ∧
  fromHexChar (hexdigit (bval b mod 16)) = Some (bval b mod 16)%N.
Proof.
  revert b.
  assert (∀ b, bool_decide (fromHexChar (hexdigit (bval b / 16)) = Some (bval b / 16)%N ∧
    fromHexChar (hexdigit (bval b mod 16)) = Some (bval b mod 16)%N) = true) as H.
  { apply forall_bytes. vm_compute. reflexivity. }
  intros b. specialize (H b). by apply bool_decide_eq_true in H.
Qed.

Lemma hex_decode_encode_app bs cs :
  hex_decode (hex_encode bs ++ cs) = app bs <$> hex_decode cs.
Proof.
  unfold hex_encode. induction bs as [|b bs IH]; simpl.
  { by destruct (hex_decode cs). }
  destruct (hex_byte_decode b) as [Hh Hl]. rewrite Hh, Hl.
  change (concat (list_fmap byte (list byte) hex_byte bs)) with (concat (hex_byte <$> bs)).
  rewrite IH, <-N.div_mod', byte_of_bval. by destruct (hex_decode cs).
Qed.

Lemma hex_decode_encode bs : hex_decode (hex_encode bs) = Some bs.
Proof.
  rewrite <-(app_nil_r (hex_encode bs)), hex_decode_encode_app. simpl. by rewrite app_nil_r.
Qed.
#[export] Hint Rewrite hex_decode_encode : go_rw.

Lemma length_hex_encode bs : length (hex_encode bs) = 2 * length bs.
Proof.
  induction bs as [|b bs IH]; [done|].
  change (hex_encode (b :: bs)) with (hex_byte b ++ hex_encode bs).
  rewrite length_app, IH. simpl. lia.
Qed.

(** The output is over the alphabet, hence free of every other character. *)
Lemma hex_encode_chars bs : Forall (λ c, is_Some (fromHexChar c)) (hex_encode bs).
Proof.
  induction bs as [|b bs IH]; [constructor|].
  change (hex_encode (b :: bs)) with (hex_byte b ++ hex_encode bs).
  apply Forall_app. split; [|done]. destruct (hex_byte_decode b) as [Hh Hl].
  repeat constructor; rewrite ?Hh, ?Hl; eauto.
Qed.
Lemma hex_encode_avoids x bs : fromHexChar x = None → Forall (λ c, c ≠ x) (hex_encode bs).
Proof.
  intros Hx. eapply Forall_impl; [apply hex_encode_chars|]. intros c [v Hc] ->. congruence.
Qed.
Lemma hex_encode_inj a b : hex_encode a = hex_encode b → a = b.
Proof. intros E. apply (f_equal hex_decode) in E. rewrite !hex_decode_encode in E. congruence. Qed.

(** ** package strings, on byte sequences

    Case mapping and white space are those of ASCII; bytes above 0x7f are left
    as they are. *)

Definition str_append (a b : string) : string := String.append a b.
Infix "+s" := str_append (at level 45, right associativity) : go_scope.
Notation "a =s b" := (String.eqb a b) (at level 70) : go_scope.
#[global] Open Scope go_scope.

Lemma bytes_of_append a b : bytes_of (a +s b) = bytes_of a ++ bytes_of b.
Proof.
  unfold str_append. induction a as [|c a IH]; [done|].
  change (bytes_of (String c a +:+ b)) with (Ascii.byte_of_ascii c :: bytes_of (a +:+ b)).
  by rewrite IH.
Qed.
#[export] Hint Rewrite bytes_of_append : go_rw.
Lemma append_inj_r p a b : p +s a = p +s b → a = b.
Proof.
  intros E. apply (f_equal bytes_of) in E. rewrite !bytes_of_append in E. apply app_inv_head in E.
  rewrite <-(str_of_bytes_of a), <-(str_of_bytes_of b). by rewrite E.
Qed.
Lemma bytes_of_inj a b : bytes_of a = bytes_of b → a = b.
Proof. intros H. by rewrite <-(str_of_bytes_of a), H, str_of_bytes_of. Qed.

Fixpoint bprefix (p s : list byte) : bool :=
  match p, s with
  | [], _ => true
  | a :: p', b :: s' => beqb a b && bprefix p' s'
  | _ :: _, [] => false
  end.
Lemma bprefix_app p s : bprefix p (p ++ s) = true.
Proof. induction p as [|c p IH]; simpl; [done|]. by rewrite beqb_refl, IH. Qed.
Definition HasPrefix (s p : string) : bool := bprefix (bytes_of p) (bytes_of s).
Definition TrimPrefix (s p : string) : string :=
  if HasPrefix s p then str_of (drop (length (bytes_of p)) (bytes_of s)) else s.

(** The positions at which [sub] occurs. *)
Fixpoint bindex (sub s : list byte) : option nat :=
  if bprefix sub s then Some 0 else
  match s with [] => None | _ :: s' => S <$> bindex sub s' end.
Fixpoint blast_index (sub s : list byte) : option nat :=
  match s with
  | [] => if bprefix sub [] then Some 0 else None
  | _ :: s' =>
      match blast_index sub s' with
      | Some i => Some (S i)
      | None => if bprefix sub s then Some 0 else None
      end
  end.
Definition Contains (s sub : string) : bool :=
  match bindex (bytes_of sub) (bytes_of s) with Some _ => true | None => false end.
Definition LastIndex (s sub : string) : option nat :=
  blast_index (bytes_of sub) (bytes_of s).

(** [Split] and [SplitN] on a one-byte separator; [n > 0] bounds the parts. *)
Fixpoint bsplit_n (sep : byte) (n : nat) (cur s : list byte) : list (list byte) :=
  match s with
  | [] => [rev cur]
  | c :: s' =>
      if beqb c sep then
        match n with
        | S (S n') => rev cur :: bsplit_n sep (S n') [] s'
        | _ => [rev cur ++ s]
        end
      else bsplit_n sep n (c :: cur) s'
  end.
Definition SplitN (s : string) (sep : byte) (n : nat) : list string :=
  str_of <$> bsplit_n sep n [] (bytes_of s).
Definition Split (s : string) (sep : byte) : list string :=
  SplitN s sep (S (length (bytes_of s))).

Definition is_space (c : byte) : bool :=
  let v := bval c in ((v =? 32) || ((9 <=? v) && (v <=? 13)))%N.
Fixpoint bfields (cur s : list byte) : list (list byte) :=
  match s with
  | [] => match cur with [] => [] | _ => [rev cur] end
  | c :: s' =>
      if is_space c then
        match cur with [] => bfields [] s' | _ => rev cur :: bfields [] s' end
      else bfields (c :: cur) s'
  end.
Definition Fields (s : string) : list string := str_of <$> bfields [] (bytes_of s).

Definition upper_byte (c : byte) : byte :=
  if ((97 <=? bval c) && (bval c <=? 122))%N then byte_of_N (bval c - 32) else c.
Definition lower_byte (c : byte) : byte :=
  if ((65 <=? bval c) && (bval c <=? 90))%N then byte_of_N (bval c + 32) else c.
Definition ToUpper (s : string) : string := str_of (upper_byte <$> bytes_of s).
Definition ToLower (s : string) : string := str_of (lower_byte <$> bytes_of s).
Fixpoint btrim_left (s : list byte) : list byte :=
  match s with c :: s' => if is_space c then btrim_left s' else s | [] => [] end.
Definition TrimSpace (s : string) : string :=
  str_of (rev (btrim_left (rev (btrim_left (bytes_of s))))).

(** ** package strconv *)

Definition digit_val (c : byte) : option Z :=
  if ((48 <=? bval c) && (bval c <=? 57))%N then Some (Z.of_N (bval c) - 48)%Z else None.
Fixpoint digits_val (acc : Z) (s : list byte) : option Z :=
  match s with
  | [] => Some acc
  | c :: s' => match digit_val c with Some d => digits_val (10 * acc + d) s' | None => None end
  end.
Definition atoi_sign (s : list byte) : bool * list byte :=
  match s with
  | c :: r => if beqb c x2d then (true, r) else if beqb c x2b then (false, r) else (false, s)
  | [] => (false, [])
  end.
(** [Atoi] at 64 bits: an optional sign, at least one digit, in range. *)
Definition Atoi (s : string) : option Z :=
  let '(neg, ds) := atoi_sign (bytes_of s) in
  match ds with
  | [] => None
  | _ =>
      match digits_val 0 ds with
      | Some v =>
          let z := if neg then (- v)%Z else v in
          if ((- 2 ^ 63 <=? z) && (z <? 2 ^ 63))%Z then Some z else None
      | None => None
      end
  end.
Fixpoint nat_digits (fuel : nat) (n : N) (acc : list byte) : list byte :=
  match fuel with
  | O => acc
  | S fuel' =>
      let acc' := byte_of_N (48 + n mod 10) :: acc in
      if (n <? 10)%N then acc' else nat_digits fuel' (n / 10) acc'
  end.
(** [Itoa]: twenty digits hold every 64-bit integer. *)
Definition Itoa (z : Z) : string :=
  let ds := nat_digits 20 (Z.abs_N z) [] in
  str_of (if (z <? 0)%Z then x2d :: ds else ds).

(** [subtle.ConstantTimeCompare(x, y) == 1]. *)
Definition ConstantTimeCompare (a b : list byte) : bool := bool_decide (a = b).

(** ** Lemmas on decimal numerals *)

Lemma digits_val_app acc l1 l2 :
  digits_val acc (l1 ++ l2) = match digits_val acc l1 with Some a => digits_val a l2 | None => None end.
Proof.
  revert acc. induction l1 as [|c l1 IH]; intros acc; simpl; [done|].
  destruct (digit_val c); [apply IH|done].
Qed.

Lemma nat_digits_acc fuel n acc : nat_digits fuel n acc = nat_digits fuel n [] ++ acc.
Proof.
  revert n acc. induction fuel as [|fuel IH]; intros n acc; simpl; [done|].
  destruct (n <? 10)%N; [done|]. by rewrite IH, (IH _ [_]), <-app_assoc.
Qed.

Lemma digit_val_digit n : (n < 10)%N → digit_val (byte_of_N (48 + n)) = Some (Z.of_N n).
Proof.
  intros Hn. unfold digit_val. rewrite bval_byte_of_N, N.mod_small by lia.
  rewrite (proj2 (N.leb_le _ _)), (proj2 (N.leb_le _ 57)) by lia. simpl. f_equal. lia.
Qed.

Lemma digits_val_nat_digits fuel n :
  (n < 10 ^ N.of_nat (S fuel))%N → digits_val 0 (nat_digits (S fuel) n []) = Some (Z.of_N n).
Proof.
  revert n. induction fuel as [|fuel IH]; intros n Hn.
  - change (10 ^ N.of_nat 1)%N with 10%N in Hn. cbn [nat_digits].
    rewrite (proj2 (N.ltb_lt n 10)) by lia. cbn [digits_val].
    rewrite digit_val_digit, N.mod_small by (rewrite ?N.mod_small; lia). f_equal; lia.
  - remember (S fuel) as f eqn:Hf. cbn [nat_digits]. destruct (N.ltb_spec n 10) as [Hlt|Hge].
    + cbn [digits_val]. rewrite digit_val_digit, N.mod_small by (rewrite ?N.mod_small; lia).
      f_equal; lia.
    + rewrite nat_digits_acc, digits_val_app, IH.
      2: { rewrite Nat2N.inj_succ, N.pow_succ_r' in Hn. apply N.Div0.div_lt_upper_bound. lia. }
      cbn [digits_val]. pose proof (N.mod_lt n 10 ltac:(lia)).
      rewrite digit_val_digit by done. f_equal.
      rewrite (N.div_mod' n 10) at 3. lia.
Qed.

Lemma nat_digits_digit fuel n acc :
  Forall (λ c, is_Some (digit_val c)) acc → Forall (λ c, is_Some (digit_val c)) (nat_digits fuel n acc).
Proof.
  revert n acc. induction fuel as [|fuel IH]; intros n acc Hacc; simpl; [done|].
  assert (is_Some (digit_val (byte_of_N (48 + n mod 10)))) as Hd.
  { rewrite digit_val_digit by (apply N.mod_lt; lia). eauto. }
  destruct (n <? 10)%N; [by constructor|]. apply IH. by constructor.
Qed.

Lemma nat_digits_nonempty fuel n acc : nat_digits (S fuel) n acc ≠ [].
Proof.
  revert n acc. induction fuel as [|fuel IH]; intros n acc.
  - simpl. by destruct (n <? 10)%N.
  - remember (S fuel). simpl. destruct (n <? 10)%N; [done|apply IH].
Qed.

Lemma Atoi_Itoa z : (0 ≤ z < 2 ^ 63)%Z → Atoi (Itoa z) = Some z.
Proof.
  intros Hz. unfold Atoi, Itoa. rewrite bytes_of_str_of, (proj2 (Z.ltb_ge z 0)) by lia.
  pose proof (digits_val_nat_digits 19 (Z.abs_N z)) as Hv.
  pose proof (nat_digits_digit 20 (Z.abs_N z) [] ltac:(constructor)) as Hd.
  pose proof (nat_digits_nonempty 19 (Z.abs_N z) []) as Hne.
  specialize (Hv ltac:(change (10 ^ N.of_nat 20)%N with 100000000000000000000%N; lia)).
  revert Hv Hd Hne. generalize (nat_digits 20 (Z.abs_N z) []). intros ds Hv Hd Hne.
  destruct ds as [|c ds]; [done|]. inversion Hd as [|?? [d Hc] _]; subst.
  assert (atoi_sign (c :: ds) = (false, c :: ds)) as ->.
  { simpl. destruct (beqb_spec c x2d) as [->|]; [done|]. by destruct (beqb_spec c x2b) as [->|]. }
  rewrite Hv. replace (Z.of_N (Z.abs_N z)) with z by lia.
  rewrite (proj2 (Z.leb_le _ _)), (proj2 (Z.ltb_lt _ _)) by lia. done.
Qed.

Lemma digit_not_dash c : is_Some (digit_val c) → c ≠ x2d.
Proof. intros [d Hd] ->. vm_compute in Hd. done. Qed.

Lemma blast_index_none sub s :
  sub ≠ [] → Forall (λ c, ∀ r, bprefix sub (c :: r) = false) s → blast_index sub s = None.
Proof.
  intros Hne. induction 1 as [|c s Hc _ IH]; simpl; [by destruct sub|]. by rewrite IH, Hc.
Qed.
Lemma blast_index_app sub a s i :
  blast_index sub s = Some i → blast_index sub (a ++ s) = Some (length a + i).
Proof. intros H. induction a as [|c a IH]; simpl; [done|]. by rewrite IH. Qed.

(** ** Splitting a joined text *)

Lemma bsplit_n_plain sep n cur l r :
  Forall (λ c, beqb c sep = false) l →
  bsplit_n sep (S (S n)) cur (l ++ sep :: r) = (rev cur ++ l) :: bsplit_n sep (S n) [] r.
Proof.
  intros Hl. revert cur. induction Hl as [|c l Hc _ IH]; intros cur; simpl.
  - by rewrite beqb_refl, app_nil_r.
  - rewrite Hc, IH. simpl. by rewrite <-app_assoc.
Qed.
Lemma bsplit_n_last sep n cur l :
  Forall (λ c, beqb c sep = false) l → bsplit_n sep n cur l = [rev cur ++ l].
Proof.
  intros Hl. revert cur. induction Hl as [|c l Hc _ IH]; intros cur; simpl.
  - by rewrite app_nil_r.
  - rewrite Hc, IH. simpl. by rewrite <-app_assoc.
Qed.
