(* ===== verification/World.v ===== *)
(** * The effects of a request: clock, randomness, database faults, state

    A computation reads the wall clock ([time.Now]), the system's random source
    ([rand.Read]) and a store whose calls may fail.  The outside world is given
    by oracles that answer the n-th call; a theorem about a computation holds
    for every answer. *)

From S2P Require Import Prelude GoStd.

(** Durations and instants are nanoseconds, as in package [time]. *)
Definition nanosecond : Z := 1.
Definition second : Z := 1000000000.
Definition minute : Z := 60 * second.
Definition hour : Z := 60 * minute.
(** [t.Unix()]: whole seconds, rounded towards minus infinity. *)
Definition unix (t : Z) : Z := t / second.

Record World (S : Type) := mkWorld {
  w_clock : nat → Z;                    (* the n-th reading of the clock *)
  w_nclock : nat;
  w_rand : nat → option (nat → byte);   (* the n-th read of randomness, if it succeeds *)
  w_nrand : nat;
  w_fault : nat → option string;        (* the n-th database call's I/O error, if any *)
  w_nfault : nat;
  w_state : S;
}.
Arguments mkWorld {S} _ _ _ _ _ _ _.
Arguments w_clock {S} _ _.
Arguments w_nclock {S} _.
Arguments w_rand {S} _ _.
Arguments w_nrand {S} _.
Arguments w_fault {S} _ _.
Arguments w_nfault {S} _.
Arguments w_state {S} _.

Definition M (S A : Type) : Type := World S → A * World S.

Section Effects.
Context {S : Type}.

#[global] Instance M_ret : MRet (M S) := λ A a w, (a, w).
#[global] Instance M_bind : MBind (M S) := λ A B f m w, let '(a, w') := m w in f a w'.

Definition time_now : M S Z := λ w,
  (w_clock w (w_nclock w),
   mkWorld (w_clock w) (Datatypes.S (w_nclock w)) (w_rand w) (w_nrand w)
     (w_fault w) (w_nfault w) (w_state w)).

(** [rand.Read] of [n] bytes. *)
Definition rand_read (n : nat) : M S (result (list byte)) := λ w,
  (match w_rand w (w_nrand w) with
   | Some f => Ok (f <$> seq 0 n)
   | None => Err (ErrMsg "crypto/rand: read failed")
   end,
   mkWorld (w_clock w) (w_nclock w) (w_rand w) (Datatypes.S (w_nrand w))
     (w_fault w) (w_nfault w) (w_state w)).

Definition get_state : M S S := λ w, (w_state w, w).
Definition put_state (s : S) : M S unit := λ w,
  (tt, mkWorld (w_clock w) (w_nclock w) (w_rand w) (w_nrand w)
         (w_fault w) (w_nfault w) s).
Definition modify (f : S → S) : M S unit := λ w, put_state (f (w_state w)) w.

(** A database call: an I/O fault leaves the state alone and returns the
    driver's error; otherwise [f] runs on the state. *)
Definition db_call {A} (f : S → result A * S) : M S (result A) := λ w,
  let w1 st := mkWorld (w_clock w) (w_nclock w) (w_rand w) (w_nrand w)
                 (w_fault w) (Datatypes.S (w_nfault w)) st in
  match w_fault w (w_nfault w) with
  | Some msg => (Err (ErrDriver msg), w1 (w_state w))
  | None => let '(r, s') := f (w_state w) in (r, w1 s')
  end.

(** ** Weakest preconditions

    [wp m Q w]: running [m] in [w] ends in a result and a world that satisfy
    [Q].  Computations are total functions, so this is total correctness. *)
Definition wp {A} (m : M S A) (Q : A → World S → Prop) (w : World S) : Prop :=
  Q (fst (m w)) (snd (m w)).

Lemma wp_ret {A} (a : A) Q w : Q a w → wp (mret a) Q w.
Proof. done. Qed.
Lemma wp_bind {A B} (m : M S A) (f : A → M S B) Q w :
  wp m (λ a w', wp (f a) Q w') w → wp (m ≫= f) Q w.
Proof. unfold wp, mbind, M_bind. by destruct (m w). Qed.
Lemma wp_mono {A} (m : M S A) (Q Q' : A → World S → Prop) w :
  wp m Q w → (∀ a w', Q a w' → Q' a w') → wp m Q' w.
Proof. intros H HQ. by apply HQ. Qed.
Lemma wp_run {A} (m : M S A) Q w a w' : m w = (a, w') → wp m Q w → Q a w'.
Proof. unfold wp. by intros ->. Qed.
Lemma wp_elim {A} (m : M S A) (Q : A → World S → Prop) w a w' : wp m Q w → m w = (a, w') → Q a w'.
Proof. unfold wp. intros H E. by rewrite E in H. Qed.
Lemma wp_intro {A} (m : M S A) (Q : A → World S → Prop) w :
  (∀ a w', m w = (a, w') → Q a w') → wp m Q w.
Proof. intros H. apply H. by destruct (m w). Qed.

(** Two worlds with the same oracles, the second reached from the first. *)
Definition same_oracles (w w' : World S) : Prop :=
  w_clock w' = w_clock w ∧ w_rand w' = w_rand w ∧ w_fault w' = w_fault w.

(** The database never fails in this world. *)
Definition no_faults (w : World S) : Prop := ∀ n, w_fault w n = None.
(** The random source never fails in this world. *)
Definition rand_ok (w : World S) : Prop := ∀ n, is_Some (w_rand w n).
End Effects.
