(* ===== verification/Base64.v ===== *)
(** * encoding/base64: RawURLEncoding

    The unpadded URL alphabet.  Decoding skips carriage returns and newlines and
    does not insist on zero trailing bits, as the Go decoder does by default. *)

From S2P Require Import Prelude GoStd.

#[local] Ltac Zify.zify_post_hook ::= Z.to_euclidean_division_equations.

Module Base64.

(** The 64 characters "A-Z a-z 0-9 - _". *)
Definition b64char (n : N) : byte :=
  byte_of_N (if (n <? 26)%N then 65 + n else if (n <? 52)%N then 71 + n
             else if (n <? 62)%N then n - 4 else if (n =? 62)%N then 45 else 95).
Definition b64val (c : byte) : option N :=
  let v := bval c in
  if ((65 <=? v) && (v <=? 90))%N then Some (v - 65)%N
  else if ((97 <=? v) && (v <=? 122))%N then Some (v - 71)%N
  else if ((48 <=? v) && (v <=? 57))%N then Some (v + 4)%N
  else if (v =? 45)%N then Some 62%N
  else if (v =? 95)%N then Some 63%N
  else None.

Fixpoint encode (bs : list byte) : list byte :=
  match bs with
  | [] => []
  | [a] => [b64char (bval a / 4); b64char (bval a mod 4 * 16)]
  | [a; b] => [b64char (bval a / 4); b64char (bval a mod 4 * 16 + bval b / 16);
               b64char (bval b mod 16 * 4)]
  | a :: b :: c :: bs' =>
      b64char (bval a / 4) :: b64char (bval a mod 4 * 16 + bval b / 16) ::
      b64char (bval b mod 16 * 4 + bval c / 64) :: b64char (bval c mod 64) :: encode bs'
  end.

Fixpoint decode_vals (cs : list N) : option (list byte) :=
  match cs with
  | [] => Some []
  | [_] => None
  | [w; x] => Some [byte_of_N (w * 4 + x / 16)]
  | [w; x; y] => Some [byte_of_N (w * 4 + x / 16); byte_of_N (x mod 16 * 16 + y / 4)]
  | w :: x :: y :: z :: cs' =>
      app [byte_of_N (w * 4 + x / 16); byte_of_N (x mod 16 * 16 + y / 4);
           byte_of_N (y mod 4 * 64 + z)] <$> decode_vals cs'
  end.
Definition is_newline (c : byte) : bool := beqb c x0a || beqb c x0d.
Definition decode (cs : list byte) : option (list byte) :=
  vals ← mapM b64val (filter (λ c, is_newline c = false) cs); decode_vals vals.

Definition EncodeToString (bs : list byte) : string := str_of (encode bs).
Definition DecodeString (s : string) : option (list byte) := decode (bytes_of s).

Lemma b64val_char n : (n < 64)%N → b64val (b64char n) = Some n ∧ is_newline (b64char n) = false.
Proof.
  intros Hn.
  assert (forallb (λ k, let n := N.of_nat k in
    bool_decide (b64val (b64char n) = Some n) && negb (is_newline (b64char n))) (seq 0 64) = true) as H
    by (vm_compute; reflexivity).
  rewrite forallb_elem_of in H. specialize (H (N.to_nat n) ltac:(apply elem_of_seq; lia)).
  cbv zeta in H. rewrite N2Nat.id in H. apply andb_true_iff in H as [H1 H2].
  apply bool_decide_eq_true in H1. by apply negb_true_iff in H2.
Qed.

(** The six-bit digits [encode] writes. *)
Fixpoint sextets (bs : list byte) : list N :=
  match bs with
  | [] => []
  | [a] => [bval a / 4; bval a mod 4 * 16]
  | [a; b] => [bval a / 4; bval a mod 4 * 16 + bval b / 16; bval b mod 16 * 4]
  | a :: b :: c :: bs' =>
      bval a / 4 :: bval a mod 4 * 16 + bval b / 16 ::
      bval b mod 16 * 4 + bval c / 64 :: bval c mod 64 :: sextets bs'
  end%N.

(** Induction in steps of three. *)
Lemma list_ind3 {A} (P : list A → Prop) :
  P [] → (∀ a, P [a]) → (∀ a b, P [a; b]) → (∀ a b c l, P l → P (a :: b :: c :: l)) → ∀ l, P l.
Proof.
  intros H0 H1 H2 H3. fix IH 1. intros [|a [|b [|c l]]]; [done|apply H1|apply H2|].
  apply H3, IH.
Qed.

Lemma encode_sextets bs : encode bs = b64char <$> sextets bs.
Proof.
  induction bs as [|a|a b|a b c bs IH] using list_ind3; [done..|].
  cbn [encode sextets]. rewrite !fmap_cons, IH. done.
Qed.

Lemma sextets_lt bs : Forall (λ n, (n < 64)%N) (sextets bs).
Proof.
  induction bs as [|a|a b|a b c bs IH] using list_ind3; cbn [sextets].
  - constructor.
  - pose proof (bval_lt a). repeat apply Forall_cons_2; [lia..|constructor].
  - pose proof (bval_lt a). pose proof (bval_lt b).
    repeat apply Forall_cons_2; [lia..|constructor].
  - pose proof (bval_lt a). pose proof (bval_lt b). pose proof (bval_lt c).
    repeat apply Forall_cons_2; [lia..|done].
Qed.

Lemma byte_of_N_eq n b : n = bval b → byte_of_N n = b.
Proof. intros ->. apply byte_of_bval. Qed.

Lemma decode_vals_sextets bs : decode_vals (sextets bs) = Some bs.
Proof.
  induction bs as [|a|a b|a b c bs IH] using list_ind3; [done|..]; simpl.
  - f_equal. f_equal. apply byte_of_N_eq. lia.
  - pose proof (bval_lt b). do 2 f_equal; [|f_equal]; apply byte_of_N_eq; lia.
  - rewrite IH. simpl. pose proof (bval_lt b). pose proof (bval_lt c).
    do 2 f_equal; [|f_equal; [|f_equal]]; apply byte_of_N_eq; lia.
Qed.

Lemma decode_encode bs : decode (encode bs) = Some bs.
Proof.
  unfold decode. rewrite encode_sextets. pose proof (sextets_lt bs) as Hlt.
  assert (filter (λ c, is_newline c = false) (b64char <$> sextets bs) = b64char <$> sextets bs) as ->.
  { apply filter_all, Forall_fmap. eapply Forall_impl; [exact Hlt|].
    intros n Hn. by apply b64val_char. }
  assert (mapM b64val (b64char <$> sextets bs) = Some (sextets bs)) as ->.
  { apply mapM_Some. induction Hlt as [|n l Hn _ IH]; [constructor|]. rewrite fmap_cons.
    constructor; [by apply b64val_char|done]. }
  apply decode_vals_sextets.
Qed.

Lemma DecodeString_EncodeToString bs : DecodeString (EncodeToString bs) = Some bs.
Proof. unfold DecodeString, EncodeToString. rewrite bytes_of_str_of. apply decode_encode. Qed.
#[export] Hint Rewrite DecodeString_EncodeToString : go_rw.

End Base64.
