(* ===== verification/Sha.v ===== *)
(** * crypto/sha256, crypto/sha1 and crypto/hmac

    The hash functions the tokens, the audit log and the one-time passwords use,
    on 32-bit words kept in [N] with their wrap-around written out.  The test
    vectors at the end are those of FIPS 180 and RFC 2202. *)

From S2P Require Import Prelude GoStd.

Module Sha.
Local Open Scope N_scope.

Definition w32 (x : N) : N := N.land x 4294967295.
Definition add32 (a b : N) : N := w32 (a + b).
Definition not32 (a : N) : N := N.lxor a 4294967295.
Definition rotl (k x : N) : N := w32 (N.lor (N.shiftl x k) (N.shiftr x (32 - k))).
Definition rotr (k x : N) : N := rotl (32 - k) x.

Definition word_of (a b c d : byte) : N :=
  N.lor (N.shiftl (bval a) 24) (N.lor (N.shiftl (bval b) 16) (N.lor (N.shiftl (bval c) 8) (bval d))).
Definition bytes_of_word (x : N) : list byte :=
  [byte_of_N (N.land (N.shiftr x 24) 255); byte_of_N (N.land (N.shiftr x 16) 255);
   byte_of_N (N.land (N.shiftr x 8) 255); byte_of_N (N.land x 255)].
Fixpoint words_of (l : list byte) : list N :=
  match l with
  | a :: b :: c :: d :: l' => word_of a b c d :: words_of l'
  | _ => []
  end.

(** Merkle-Damgard padding: 0x80, zeros, the bit length in eight bytes. *)
Definition be64 (n : N) : list byte :=
  bytes_of_word (N.shiftr n 32) ++ bytes_of_word (w32 n).
Definition pad (l : list byte) : list byte :=
  let n := length l in
  l ++ x80 :: replicate ((119 - n mod 64) mod 64)%nat x00 ++ be64 (8 * N.of_nat n).
Fixpoint blocks (fuel : nat) (l : list byte) : list (list N) :=
  match fuel, l with
  | S fuel', _ :: _ => words_of (take 64 l) :: blocks fuel' (drop 64 l)
  | _, _ => []
  end.
Definition message_blocks (l : list byte) : list (list N) :=
  let p := pad l in blocks (length p) p.

(** ** SHA-256 *)

(** The constants are the first 32 bits of the fractional parts of the cube roots of
    the first 64 primes, and of the square roots of the first eight. *)
Definition small_primes : list N :=
  filter (λ n, forallb (λ d, negb (n mod N.of_nat d =? 0)) (seq 2 (N.to_nat n - 2)) = true)
    (N.of_nat <$> seq 2 310).
(** The largest [r] below [2 ^ bits] with [r ^ e <= n], bit by bit. *)
Fixpoint iroot (bits : nat) (e n acc : N) : N :=
  match bits with
  | O => acc
  | S bits' =>
      let acc' := acc + 2 ^ N.of_nat bits' in
      iroot bits' e n (if acc' ^ e <=? n then acc' else acc)
  end.
Definition frac_bits (e prime : N) : N := w32 (iroot 40 e (prime * 2 ^ (32 * e)) 0).
Definition K256 : list N := Eval vm_compute in frac_bits 3 <$> small_primes.
Definition H256 : list N := Eval vm_compute in frac_bits 2 <$> take 8 small_primes.

Definition sigma0 x := N.lxor (rotr 7 x) (N.lxor (rotr 18 x) (N.shiftr x 3)).
Definition sigma1 x := N.lxor (rotr 17 x) (N.lxor (rotr 19 x) (N.shiftr x 10)).
Definition Sigma0 x := N.lxor (rotr 2 x) (N.lxor (rotr 13 x) (rotr 22 x)).
Definition Sigma1 x := N.lxor (rotr 6 x) (N.lxor (rotr 11 x) (rotr 25 x)).
Definition ch x y z := N.lxor (N.land x y) (N.land (not32 x) z).
Definition maj x y z := N.lxor (N.land x y) (N.lxor (N.land x z) (N.land y z)).

(** The schedule, a window of the last 16 words, newest last. *)
Fixpoint schedule256 (n : nat) (win : list N) : list N :=
  match n, win with
  | S n', w0 :: rest =>
      let w16 := add32 (add32 (sigma1 (nth 13 rest 0)) (nth 8 rest 0)) (add32 (sigma0 (nth 0 rest 0)) w0) in
      w0 :: schedule256 n' (rest ++ [w16])
  | _, _ => []
  end.
Definition round256 (st : list N) (kw : N * N) : list N :=
  match st with
  | [a; b; c; d; e; f; g; h] =>
      let t1 := add32 h (add32 (Sigma1 e) (add32 (ch e f g) (add32 kw.1 kw.2))) in
      let t2 := add32 (Sigma0 a) (maj a b c) in
      [add32 t1 t2; a; b; c; add32 d t1; e; f; g]
  | _ => st
  end.
Definition compress256 (st blk : list N) : list N :=
  zip_with add32 st (foldl round256 st (zip K256 (schedule256 64 blk))).
Definition Sum256 (l : list byte) : list byte :=
  mjoin (bytes_of_word <$> foldl compress256 H256 (message_blocks l)).

(** ** SHA-1 *)

Fixpoint schedule1 (n : nat) (win : list N) : list N :=
  match n, win with
  | S n', w0 :: rest =>
      let w16 := rotl 1 (N.lxor (nth 12 rest 0) (N.lxor (nth 7 rest 0) (N.lxor (nth 1 rest 0) w0))) in
      w0 :: schedule1 n' (rest ++ [w16])
  | _, _ => []
  end.
Definition fk1 (t : nat) (b c d : N) : N * N :=
  if (t <? 20)%nat then (N.lor (N.land b c) (N.land (not32 b) d), 0x5a827999)
  else if (t <? 40)%nat then (N.lxor b (N.lxor c d), 0x6ed9eba1)
  else if (t <? 60)%nat then (maj b c d, 0x8f1bbcdc)
  else (N.lxor b (N.lxor c d), 0xca62c1d6).
Definition round1 (st : list N) (tw : nat * N) : list N :=
  match st with
  | [a; b; c; d; e] =>
      let '(f, k) := fk1 tw.1 b c d in
      [add32 (rotl 5 a) (add32 f (add32 e (add32 k tw.2))); a; rotl 30 b; c; d]
  | _ => st
  end.
Definition compress1 (st blk : list N) : list N :=
  zip_with add32 st (foldl round1 st (zip (seq 0 80) (schedule1 80 blk))).
Definition Sum1 (l : list byte) : list byte :=
  mjoin (bytes_of_word <$>
    foldl compress1 [0x67452301; 0xefcdab89; 0x98badcfe; 0x10325476; 0xc3d2e1f0] (message_blocks l)).

(** ** HMAC with a 64-byte block *)

Definition hmac (H : list byte → list byte) (key msg : list byte) : list byte :=
  let k := if (64 <? length key)%nat then H key else key in
  let k := k ++ replicate (64 - length k) x00 in
  H ((bxor x5c <$> k) ++ H ((bxor x36 <$> k) ++ msg)).

(** ** The digest sizes *)

Lemma length_compress256 st blk : length st = 8%nat → length (compress256 st blk) = 8%nat.
Proof.
  intros H. unfold compress256. rewrite length_zip_with.
  assert (∀ l st', length st' = 8%nat → length (foldl round256 st' l) = 8%nat) as Hr.
  { induction l as [|kw l IH]; intros st' Hst; [done|]. apply IH.
    do 9 (destruct st' as [|? st']; try done). }
  rewrite Hr by done. lia.
Qed.

Lemma length_mjoin_words l : length (mjoin (bytes_of_word <$> l)) = (4 * length l)%nat.
Proof.
  induction l as [|x l IH]; [done|].
  change (length (bytes_of_word x ++ mjoin (bytes_of_word <$> l)) = (4 * S (length l))%nat).
  rewrite length_app, IH. simpl. lia.
Qed.

Lemma length_Sum256 l : length (Sum256 l) = 32%nat.
Proof.
  unfold Sum256. rewrite length_mjoin_words.
  assert (∀ bs st, length st = 8%nat → length (foldl compress256 st bs) = 8%nat) as ->; [|done..].
  induction bs as [|b bs IH]; intros st H; [done|]. by apply IH, length_compress256.
Qed.

Lemma length_compress1 st blk : length st = 5%nat → length (compress1 st blk) = 5%nat.
Proof.
  intros H. unfold compress1. rewrite length_zip_with.
  assert (∀ l st', length st' = 5%nat → length (foldl round1 st' l) = 5%nat) as Hr.
  { induction l as [|[t w] l IH]; intros st' Hst; [done|]. apply IH.
    do 6 (destruct st' as [|? st']; try done). simpl. by destruct (fk1 _ _ _ _). }
  rewrite Hr by done. lia.
Qed.

Lemma length_Sum1 l : length (Sum1 l) = 20%nat.
Proof.
  unfold Sum1. rewrite length_mjoin_words.
  assert (∀ bs st, length st = 5%nat → length (foldl compress1 st bs) = 5%nat) as ->; [|done..].
  induction bs as [|b bs IH]; intros st H; [done|]. by apply IH, length_compress1.
Qed.

(** ** Test vectors *)

Definition hex (l : list byte) : string := str_of (hex_encode l).

Lemma hex_nonempty (f : nat → byte) n : hex (f <$> seq 0 (S n)) ≠ ""%string.
Proof.
  intros E%(f_equal (λ s, length (bytes_of s))). unfold hex in E.
  rewrite bytes_of_str_of, length_hex_encode, length_fmap, length_seq in E. simpl in E. lia.
Qed.

Lemma hex_inj a b : hex a = hex b → a = b.
Proof.
  intros E. apply (f_equal bytes_of) in E. unfold hex in E. rewrite !bytes_of_str_of in E.
  by apply hex_encode_inj.
Qed.
Lemma hex_digest_nonempty l : hex (Sum256 l) ≠ ""%string.
Proof.
  intros E%(f_equal (λ s, length (bytes_of s))). unfold hex in E.
  rewrite bytes_of_str_of, length_hex_encode, length_Sum256 in E. done.
Qed.
Lemma hex_avoids x l : fromHexChar x = None → Forall (λ c, c ≠ x) (bytes_of (hex l)).
Proof. intros Hx. unfold hex. rewrite bytes_of_str_of. by apply hex_encode_avoids. Qed.

Example sha256_abc :
  hex (Sum256 (bytes_of "abc")) = "ba7816bf8f01cfea414140de5dae2223b00361a396177a9cb410ff61f20015ad".
Proof. vm_compute. reflexivity. Qed.
Example sha256_two_blocks :
  hex (Sum256 (bytes_of "abcdbcdecdefdefgefghfghighijhijkijkljklmklmnlmnomnopnopq")) =
  "248d6a61d20638b8e5c026930c3e6039a33ce45964ff2167f6ecedd419db06c1".
Proof. vm_compute. reflexivity. Qed.
Example sha1_abc : hex (Sum1 (bytes_of "abc")) = "a9993e364706816aba3e25717850c26c9cd0d89d".
Proof. vm_compute. reflexivity. Qed.
Example hmac_sha1_rfc2202 :
  hex (hmac Sum1 (bytes_of "Jefe") (bytes_of "what do ya want for nothing?")) =
  "effcdf6ae5eb2fa2d27416d5f184df9c259a7c79".
Proof. vm_compute. reflexivity. Qed.
End Sha.
