(* ===== verification/KeyWrap.v ===== *)
(** * AES key wrap (pkg/didcomm/didcomm.go, RFC 3394)

    The six passes over 64-bit blocks, forwards and backwards, and the proof that
    unwrapping returns what was wrapped. *)

From S2P Require Import Prelude GoStd World Sha.

(** crypto/aes: one block with a key of 16, 24 or 32 bytes. *)
Class AesBlock := {
  aes_encrypt : list byte → list byte → list byte;
  aes_decrypt : list byte → list byte → list byte }.
(** The documented law of a block cipher. *)
Class AesBlockOk `{AesBlock} : Prop := {
  aes_length k b : length b = 16 → length (aes_encrypt k b) = 16;
  aes_inverse k b : length b = 16 → aes_decrypt k (aes_encrypt k b) = b }.

Module KeyWrap.

(** binary.BigEndian: [Uint64] of eight bytes, [PutUint64]. *)
Definition uint64 (l : list byte) : N := foldl (λ acc b, acc * 256 + bval b)%N 0%N l.
Definition xor_t (A : list byte) (t : N) : list byte := Sha.be64 (N.lxor (uint64 A) t).

Definition aesKWDefaultIV : list byte := replicate 8 xa6.
Definition key_size_ok (kek : list byte) : bool := bool_decide (length kek ∈ [16; 24; 32]).

(** [R] as its blocks of eight bytes. *)
Fixpoint blocks (n : nat) (l : list byte) : list (list byte) :=
  match n with O => [] | S n' => take 8 l :: blocks n' (drop 8 l) end.

Section Wrap.
Context `{AesBlock} (kek : list byte).

(** The step of the passes for the block [i] of the pass [j]: [n*j + i + 1] is below 2^64. *)
Definition step_t (n j i : nat) : N := N.of_nat (n * j + i + 1).
Definition wrap_step (n j : nat) (s : list byte * list (list byte)) (i : nat) : list byte * list (list byte) :=
  let '(A, R) := s in
  let buf := aes_encrypt kek (A ++ default [] (R !! i)) in
  (xor_t (take 8 buf) (step_t n j i), <[i := drop 8 buf]> R).
Definition unwrap_step (n j : nat) (s : list byte * list (list byte)) (i : nat) : list byte * list (list byte) :=
  let '(A, R) := s in
  let buf := aes_decrypt kek (xor_t A (step_t n j i) ++ default [] (R !! i)) in
  (take 8 buf, <[i := drop 8 buf]> R).
Definition wrap_passes (n : nat) (s : list byte * list (list byte)) : list byte * list (list byte) :=
  foldl (λ s j, foldl (wrap_step n j) s (seq 0 n)) s (seq 0 6).
Definition unwrap_passes (n : nat) (s : list byte * list (list byte)) : list byte * list (list byte) :=
  foldl (λ s j, foldl (unwrap_step n j) s (rev (seq 0 n))) s (rev (seq 0 6)).

Definition aesKeyWrap (plaintext : list byte) : result (list byte) :=
  let len := length plaintext in
  if Nat.ltb len 16 || negb (Nat.eqb (len mod 8) 0)
  then Err (ErrMsg "aes-kw: plaintext must be ≥16 bytes and a multiple of 8")
  else if negb (key_size_ok kek) then Err (ErrMsg "crypto/aes: invalid key size")
  else let n := len / 8 in
       let '(A, R) := wrap_passes n (aesKWDefaultIV, blocks n plaintext) in
       Ok (A ++ concat R).

Definition aesKeyUnwrap (ciphertext : list byte) : result (list byte) :=
  let len := length ciphertext in
  if Nat.ltb len 24 || negb (Nat.eqb (len mod 8) 0)
  then Err (ErrMsg "aes-kw: ciphertext must be ≥24 bytes and a multiple of 8")
  else if negb (key_size_ok kek) then Err (ErrMsg "crypto/aes: invalid key size")
  else let n := len / 8 - 1 in
       let '(A, R) := unwrap_passes n (take 8 ciphertext, blocks n (drop 8 ciphertext)) in
       if bool_decide (A = aesKWDefaultIV) then Ok (concat R)
       else Err (ErrMsg "aes-kw: integrity check failed — wrong key or corrupted ciphertext").
End Wrap.

(** ** Big-endian words *)

Lemma uint64_app l b : uint64 (l ++ [b]) = (uint64 l * 256 + bval b)%N.
Proof. unfold uint64. by rewrite foldl_app. Qed.
Lemma uint64_bound l : (uint64 l < 256 ^ N.of_nat (length l))%N.
Proof.
  induction l as [|b l IH] using rev_ind; [done|]. rewrite uint64_app, length_app. cbn [length].
  replace (N.of_nat (length l + 1)) with (N.succ (N.of_nat (length l))) by lia. rewrite N.pow_succ_r'.
  pose proof (bval_lt b). lia.
Qed.
Fixpoint put (n : nat) (x : N) : list byte :=
  match n with O => [] | S n' => put n' (x / 256) ++ [byte_of_N x] end.
Lemma length_put n x : length (put n x) = n.
Proof. revert x. induction n as [|n IH]; intros x; [done|]. cbn [put]. rewrite length_app, IH. cbn. lia. Qed.
Lemma put_uint64 l : put (length l) (uint64 l) = l.
Proof.
  induction l as [|b l IH] using rev_ind; [done|]. rewrite uint64_app, length_app. cbn [length].
  replace (length l + 1) with (S (length l)) by lia. cbn [put].
  pose proof (bval_lt b). rewrite N.add_comm, N.div_add, N.div_small, N.add_0_l, IH by lia. f_equal. f_equal.
  apply bval_inj. rewrite bval_byte_of_N, N.Div0.mod_add. by apply N.mod_small.
Qed.
Lemma uint64_be64 x : (x < 2 ^ 64)%N → uint64 (Sha.be64 x) = x.
Proof.
  intros Hx. unfold Sha.be64, Sha.bytes_of_word, Sha.w32, uint64. cbn [app foldl].
  change 255%N with (N.ones 8). change 4294967295%N with (N.ones 32).
  rewrite !N.land_ones, !N.shiftr_div_pow2, !bval_byte_of_N.
  change (2 ^ 8)%N with 256%N. rewrite !N.Div0.mod_mod.
  assert (∀ y, y < 2 ^ 32 → ((y / 2 ^ 24) mod 256 * 256 + (y / 2 ^ 16) mod 256) * 256 * 256 + ((y / 2 ^ 8) mod 256 * 256 + y mod 256) = y)%N as Hw.
  { intros y Hy. change (2 ^ 24)%N with 16777216%N. change (2 ^ 16)%N with 65536%N. change (2 ^ 8)%N with 256%N.
    change (2 ^ 32)%N with 4294967296%N in Hy. zify. Z.to_euclidean_division_equations. lia. }
  pose proof (Hw (x / 2 ^ 32)%N ltac:(apply N.Div0.div_lt_upper_bound; lia)) as H1.
  pose proof (Hw (x mod 2 ^ 32)%N ltac:(apply N.mod_lt; lia)) as H2.
  pose proof (N.div_mod' x (2 ^ 32)) as Hd.
  revert H1 H2 Hd. change (2 ^ 32)%N with 4294967296%N. generalize (x / 4294967296)%N (x mod 4294967296)%N. intros q r H1 H2 Hd.
  change (2 ^ 8)%N with 256%N in H1, H2. lia.
Qed.
Lemma uint64_inj l l' : length l = length l' → uint64 l = uint64 l' → l = l'.
Proof. intros Hl E. rewrite <-(put_uint64 l), <-(put_uint64 l'). by rewrite Hl, E. Qed.
Lemma be64_uint64 l : length l = 8 → Sha.be64 (uint64 l) = l.
Proof.
  intros Hl. apply uint64_inj; [done|]. apply uint64_be64. pose proof (uint64_bound l) as Hb. rewrite Hl in Hb. done.
Qed.
Lemma xor_t_involutive A t : length A = 8 → (t < 2 ^ 64)%N → xor_t (xor_t A t) t = A.
Proof.
  intros HA Ht. unfold xor_t. rewrite uint64_be64.
  - rewrite N.lxor_assoc, N.lxor_nilpotent, N.lxor_0_r. by apply be64_uint64.
  - pose proof (uint64_bound A) as Hb. rewrite HA in Hb. change (256 ^ N.of_nat 8)%N with (2 ^ 64)%N in Hb.
    destruct (decide (N.lxor (uint64 A) t = 0%N)) as [->|Hn]; [lia|].
    apply N.log2_lt_pow2; [lia|]. eapply N.le_lt_trans; [apply N.log2_lxor|].
    apply N.max_lub_lt.
    + destruct (decide (uint64 A = 0%N)) as [->|]; [done|]. apply N.log2_lt_pow2; lia.
    + destruct (decide (t = 0%N)) as [->|]; [done|]. apply N.log2_lt_pow2; lia.
Qed.

(** ** Unwrapping undoes wrapping *)

(** Steps that are undone one by one are undone in reverse order. *)
Lemma foldl_undo {S I} (f g : S → I → S) (P : S → Prop) (l : list I) s :
  P s → (∀ i s, i ∈ l → P s → P (f s i) ∧ g (f s i) i = s) →
  P (foldl f s l) ∧ foldl g (foldl f s l) (rev l) = s.
Proof.
  revert s. induction l as [|i l IH]; intros s Hs Hstep; [done|]. cbn [foldl rev].
  destruct (Hstep i s ltac:(left) Hs) as [HP Hg].
  destruct (IH (f s i) HP) as [HP' Hr]; [intros; apply Hstep; [by right|done]|].
  split; [done|]. by rewrite foldl_app, Hr.
Qed.

Lemma length_blocks n l : length (blocks n l) = n.
Proof. revert l. induction n as [|n IH]; intros l; [done|]. cbn. by rewrite IH. Qed.
Lemma blocks_lengths n l : length l = 8 * n → Forall (λ b, length b = 8) (blocks n l).
Proof.
  revert l. induction n as [|n IH]; intros l Hl; [constructor|]. cbn [blocks]. constructor.
  - rewrite length_take. lia.
  - apply IH. rewrite length_drop. lia.
Qed.
Lemma concat_blocks n l : length l = 8 * n → concat (blocks n l) = l.
Proof.
  revert l. induction n as [|n IH]; intros l Hl; [by destruct l|]. cbn [blocks concat].
  rewrite IH by (rewrite length_drop; lia). apply take_drop.
Qed.
Lemma blocks_concat R : Forall (λ b, length b = 8) R → blocks (length R) (concat R) = R.
Proof.
  induction 1 as [|b R Hb _ IH]; [done|]. cbn [length blocks concat].
  rewrite take_app_length', drop_app_length' by done. by rewrite IH.
Qed.
Lemma length_concat_blocks R : Forall (λ b : list byte, length b = 8) R → length (concat R) = 8 * length R.
Proof. induction 1 as [|b R Hb _ IH]; [done|]. cbn [concat]. rewrite length_app, IH, Hb. cbn. lia. Qed.

Section RoundTrip.
Context `{AesBlockOk} (kek : list byte).

Definition state_ok (n : nat) (s : list byte * list (list byte)) : Prop :=
  length s.1 = 8 ∧ length s.2 = n ∧ Forall (λ b, length b = 8) s.2.

Lemma wrap_step_undo n j i s :
  i < n → (step_t n j i < 2 ^ 64)%N → state_ok n s →
  state_ok n (wrap_step kek n j s i) ∧ unwrap_step kek n j (wrap_step kek n j s i) i = s.
Proof.
  intros Hi Ht (HA & HR & Hb). destruct s as [A R]. cbn [fst snd] in *. unfold wrap_step, unwrap_step.
  destruct (lookup_lt_is_Some_2 R i ltac:(lia)) as [b Eb]. rewrite Eb. cbn [default from_option id].
  pose proof (proj1 (Forall_lookup _ _) Hb i b Eb) as Hlb. cbn in Hlb.
  assert (length (A ++ b) = 16) as Hl by (rewrite length_app; lia).
  pose proof (aes_length kek _ Hl) as He. set (buf := aes_encrypt kek (A ++ b)) in *.
  assert (length (take 8 buf) = 8) as Ht8 by (rewrite length_take; lia).
  assert (length (drop 8 buf) = 8) as Hd8 by (rewrite length_drop; lia).
  rewrite list_lookup_insert_eq by lia. cbn [default from_option id]. rewrite xor_t_involutive, take_drop by done.
  subst buf. rewrite aes_inverse by done. split; [split_and!; cbn [fst snd]|].
  - done.
  - by rewrite length_insert.
  - by apply Forall_insert.
  - rewrite take_app_length', drop_app_length' by done. by rewrite list_insert_insert_eq, list_insert_id.
Qed.
Lemma wrap_passes_undo n s :
  (N.of_nat n < 2 ^ 60)%N → state_ok n s →
  state_ok n (wrap_passes kek n s) ∧ unwrap_passes kek n (wrap_passes kek n s) = s.
Proof.
  intros Hn Hs. apply (foldl_undo (λ s j, foldl (wrap_step kek n j) s (seq 0 n))
    (λ s j, foldl (unwrap_step kek n j) s (rev (seq 0 n))) (state_ok n)); [done|].
  intros j s' Hj Hs'. apply elem_of_seq in Hj. apply foldl_undo; [done|]. intros i s'' Hi Hs''. apply elem_of_seq in Hi.
  apply wrap_step_undo; [lia| |done]. unfold step_t. nia.
Qed.

(** Unwrapping with the same key-encryption key returns the key that was wrapped. *)
Theorem unwrap_wrap plaintext wrapped :
  (N.of_nat (length plaintext) < 2 ^ 60)%N →
  aesKeyWrap kek plaintext = Ok wrapped → aesKeyUnwrap kek wrapped = Ok plaintext.
Proof.
  intros Hlen. unfold aesKeyWrap. case_match eqn:Ec; [done|]. apply orb_false_iff in Ec as [E1 E2].
  apply Nat.ltb_ge in E1. apply negb_false_iff, Nat.eqb_eq in E2. case_match eqn:Ek; [done|]. cbv zeta.
  set (n := length plaintext / 8) in *.
  assert (length plaintext = 8 * n) as Hn by (subst n; pose proof (Nat.div_mod_eq (length plaintext) 8); lia).
  destruct (wrap_passes_undo n (aesKWDefaultIV, blocks n plaintext)) as [(HA & HR & Hb) Hu];
    [lia|split_and!; [done|apply length_blocks|by apply blocks_lengths]|].
  destruct (wrap_passes kek n _) as [A R]. cbn [fst snd] in *. intros [= <-]. unfold aesKeyUnwrap.
  rewrite length_app, HA, length_concat_blocks, HR by done.
  replace (8 + 8 * n <? 24) with false by (symmetry; apply Nat.ltb_ge; lia).
  replace (8 + 8 * n) with (S n * 8) by lia. rewrite Nat.Div0.mod_mul, Ek. cbn [orb negb Nat.eqb]. cbv zeta.
  rewrite Nat.div_mul by lia. replace (S n - 1) with n by lia.
  rewrite take_app_length', drop_app_length' by done. rewrite <-HR at 2. rewrite blocks_concat, Hu by done.
  rewrite bool_decide_true by done. by rewrite concat_blocks.
Qed.
End RoundTrip.

(** A stand-in cipher: each byte exclusive-or the first byte of the key. *)
Definition xor_cipher : AesBlock := {|
  aes_encrypt k b := (λ x, bxor (default x00 (head k)) x) <$> b; aes_decrypt k b := (λ x, bxor (default x00 (head k)) x) <$> b |}.
Definition xor_cipher_ok : @AesBlockOk xor_cipher.
Proof.
  split; intros k b Hb; cbn; [by rewrite length_fmap|].
  rewrite <-list_fmap_compose. rewrite <-(list_fmap_id b) at 2. apply list_fmap_ext. intros i x _. unfold compose, id.
  by rewrite bxor_assoc, bxor_nilp, bxor_0_l.
Qed.
Lemma unwrap_wrap_witness :
  let wrapped := match @aesKeyWrap xor_cipher (replicate 32 x5a) (replicate 16 x01) with Ok w => w | Err _ => [] end in
  length wrapped = 24 ∧ @aesKeyUnwrap xor_cipher (replicate 32 x5a) wrapped = Ok (replicate 16 x01).
Proof.
  split; [vm_compute; reflexivity|].
  apply (@unwrap_wrap xor_cipher xor_cipher_ok (replicate 32 x5a) (replicate 16 x01)); [done|vm_compute; reflexivity].
Defined.
End KeyWrap.
