(* ===== verification/Json.v ===== *)
(** * encoding/json for strings and lists of strings

    [Marshal] quotes a string as Go does with HTML escaping on: control
    characters, the quote, the backslash and the characters <, >, & are escaped,
    U+2028 and U+2029 too, and bytes that are not valid UTF-8 become the
    replacement character.  A reader for the quoted form shows that valid
    strings survive, and that the quoted form determines the string. *)

From S2P Require Import Prelude GoStd.

Module Json.

Definition b (n : N) : byte := byte_of_N n.
Definition in_range (lo hi : N) (c : byte) : bool := ((lo <=? bval c) && (bval c <=? hi))%N.
Definition cont (c : byte) : bool := in_range 128 191 c.

(** The width of the well-formed multi-byte sequence at the front, if any
    (package unicode/utf8). *)
Definition utf8_width (s : list byte) : option nat :=
  match s with
  | c0 :: c1 :: r =>
      if in_range 194 223 c0 && cont c1 then Some 2 else
      match r with
      | c2 :: r' =>
          if cont c2 &&
             ((in_range 224 224 c0 && in_range 160 191 c1) || (in_range 225 236 c0 && cont c1) ||
              (in_range 237 237 c0 && in_range 128 159 c1) || (in_range 238 239 c0 && cont c1))
          then Some 3 else
          match r' with
          | c3 :: _ =>
              if cont c2 && cont c3 &&
                 ((in_range 240 240 c0 && in_range 144 191 c1) || (in_range 241 243 c0 && cont c1) ||
                  (in_range 244 244 c0 && in_range 128 143 c1))
              then Some 4 else None
          | [] => None
          end
      | [] => None
      end
  | _ => None
  end.

#[global] Arguments utf8_width : simpl never.

Fixpoint valid_utf8_go (fuel : nat) (s : list byte) : bool :=
  match fuel, s with
  | _, [] => true
  | O, _ :: _ => false
  | S fuel', c :: s' =>
      if (bval c <? 128)%N then valid_utf8_go fuel' s'
      else match utf8_width s with
           | Some n => valid_utf8_go fuel' (drop n s)
           | None => false
           end
  end.
Definition valid_utf8 (s : string) : Prop :=
  valid_utf8_go (length (bytes_of s)) (bytes_of s) = true.

(** The escape of one ASCII byte. *)
Definition u00 (c : byte) : list byte := [x5c; x75; x30; x30] ++ hex_byte c.
Definition quote_ascii (c : byte) : list byte :=
  if beqb c x22 || beqb c x5c then [x5c; c]
  else if beqb c x08 then [x5c; x62] else if beqb c x0c then [x5c; x66]
  else if beqb c x0a then [x5c; x6e] else if beqb c x0d then [x5c; x72]
  else if beqb c x09 then [x5c; x74]
  else if (bval c <? 32)%N || beqb c x3c || beqb c x3e || beqb c x26 then u00 c
  else [c].

Definition ls_seq : list byte := [xe2; x80; xa8].
Definition ps_seq : list byte := [xe2; x80; xa9].
Fixpoint quote_go (fuel : nat) (s : list byte) : list byte :=
  match fuel, s with
  | O, _ | _, [] => []
  | S fuel', c :: s' =>
      if (bval c <? 128)%N then quote_ascii c ++ quote_go fuel' s'
      else match utf8_width s with
           | Some n =>
               (if decide (take n s = ls_seq) then [x5c; x75; x32; x30; x32; x38]
                else if decide (take n s = ps_seq) then [x5c; x75; x32; x30; x32; x39]
                else take n s) ++ quote_go fuel' (drop n s)
           | None => [x5c; x75; x66; x66; x66; x64] ++ quote_go fuel' s'
           end
  end.
(** The contents between the quotes. *)
Definition quote_body (s : string) : list byte := quote_go (length (bytes_of s)) (bytes_of s).
Definition quote (s : string) : list byte := x22 :: quote_body s ++ [x22].

(** ** Reading a quoted string back *)

(** The UTF-8 form of a code point that is not a surrogate. *)
Definition utf8_encode (cp : N) : list byte :=
  if (cp <? 128)%N then [b cp]
  else if (cp <? 2048)%N then [b (192 + cp / 64); b (128 + cp mod 64)]
  else if (cp <? 65536)%N then [b (224 + cp / 4096); b (128 + (cp / 64) mod 64); b (128 + cp mod 64)]
  else [b (240 + cp / 262144); b (128 + (cp / 4096) mod 64); b (128 + (cp / 64) mod 64); b (128 + cp mod 64)].
(** The replacement character U+FFFD. *)
Definition fffd : list byte := [xef; xbf; xbd].
(** The UTF-16 code unit of four hexadecimal digits; the two kinds of surrogates. *)
Definition code_unit (a0 a1 a2 a3 : byte) : option N :=
  match hex_decode [a0; a1; a2; a3] with
  | Some [h; l] => Some (256 * bval h + bval l)%N
  | _ => None
  end.
Definition high_surrogate (u : N) : bool := ((55296 <=? u) && (u <? 56320))%N.
Definition low_surrogate (u : N) : bool := ((56320 <=? u) && (u <? 57344))%N.
Definition unescape_short (e : byte) : option byte :=
  if beqb e x22 || beqb e x5c || beqb e x2f then Some e
  else if beqb e x62 then Some x08 else if beqb e x66 then Some x0c
  else if beqb e x6e then Some x0a else if beqb e x72 then Some x0d
  else if beqb e x74 then Some x09 else None.

Definition prepend (l : list byte) (o : option (list byte * list byte)) : option (list byte * list byte) :=
  match o with Some (t, rest) => Some (l ++ t, rest) | None => None end.

(** After the opening quote: the contents and what follows the closing quote.
    Bytes that are not UTF-8 and unpaired surrogates become U+FFFD; control
    characters and unknown escapes are errors. *)
Fixpoint unquote (s : list byte) : option (list byte * list byte) :=
  match s with
  | [] => None
  | c :: r =>
      if beqb c x22 then Some ([], r)
      else if beqb c x5c then
        match r with
        | [] => None
        | e :: r1 =>
            if beqb e x75 then
              match r1 with
              | a0 :: a1 :: a2 :: a3 :: r2 =>
                  match code_unit a0 a1 a2 a3 with
                  | None => None
                  | Some u =>
                      if high_surrogate u then
                        match r2 with
                        | b1 :: b2 :: d0 :: d1 :: d2 :: d3 :: r3 =>
                            match (if beqb b1 x5c && beqb b2 x75 then code_unit d0 d1 d2 d3 else None) with
                            | Some v =>
                                if low_surrogate v then
                                  prepend (utf8_encode (65536 + (u - 55296) * 1024 + (v - 56320))) (unquote r3)
                                else prepend fffd (unquote r2)
                            | None => prepend fffd (unquote r2)
                            end
                        | _ => prepend fffd (unquote r2)
                        end
                      else if low_surrogate u then prepend fffd (unquote r2)
                      else prepend (utf8_encode u) (unquote r2)
                  end
              | _ => None
              end
            else match unescape_short e with
                 | Some c' => prepend [c'] (unquote r1)
                 | None => None
                 end
        end
      else if (bval c <? 32)%N then None
      else if (bval c <? 128)%N then prepend [c] (unquote r)
      else match utf8_width s, r with
           | Some 2, _ :: r1 => prepend (take 2 s) (unquote r1)
           | Some 3, _ :: _ :: r2 => prepend (take 3 s) (unquote r2)
           | Some 4, _ :: _ :: _ :: r3 => prepend (take 4 s) (unquote r3)
           | _, _ => prepend fffd (unquote r)
           end
  end.

Lemma unquote_plain c r :
  beqb c x22 = false → beqb c x5c = false → (32 ≤ bval c < 128)%N →
  unquote (c :: r) = prepend [c] (unquote r).
Proof.
  intros H1 H2 [H3 H4]. cbn [unquote]. rewrite H1, H2.
  apply N.ltb_ge in H3. apply N.ltb_lt in H4. by rewrite H3, H4.
Qed.

Lemma quote_ascii_cases c :
  quote_ascii c = [c] ∧ beqb c x22 = false ∧ beqb c x5c = false ∧ (32 ≤ bval c)%N ∨
  (∃ e, quote_ascii c = [x5c; e] ∧ beqb e x75 = false ∧ unescape_short e = Some c) ∨
  (∃ h l, quote_ascii c = [x5c; x75; x30; x30; h; l] ∧ hex_decode [x30; x30; h; l] = Some [x00; c]).
Proof.
  unfold quote_ascii.
  destruct (beqb_spec c x22) as [->|]; [right; left; by eexists|].
  destruct (beqb_spec c x5c) as [->|]; [right; left; by eexists|].
  destruct (beqb_spec c x08) as [->|]; [right; left; by eexists|].
  destruct (beqb_spec c x0c) as [->|]; [right; left; by eexists|].
  destruct (beqb_spec c x0a) as [->|]; [right; left; by eexists|].
  destruct (beqb_spec c x0d) as [->|]; [right; left; by eexists|].
  destruct (beqb_spec c x09) as [->|]; [right; left; by eexists|].
  simpl. destruct (N.ltb_spec (bval c) 32); simpl; [|destruct (_ || _ || _); [|by left]].
  all: right; right; unfold u00, hex_byte; eexists _, _; split; [done|].
  all: apply (hex_decode_encode [x00; c]).
Qed.

Lemma unquote_short e c r :
  beqb e x75 = false → unescape_short e = Some c → unquote (x5c :: e :: r) = prepend [c] (unquote r).
Proof.
  intros H1 H2. etransitivity; [lazy beta iota zeta delta [unquote beqb bval Byte.to_N N.eqb Pos.eqb]; reflexivity|].
  lazy beta iota zeta delta [beqb bval Byte.to_N N.eqb Pos.eqb] in H1. by rewrite H1, H2.
Qed.
Lemma unquote_u a0 a1 a2 a3 u r :
  code_unit a0 a1 a2 a3 = Some u → high_surrogate u = false → low_surrogate u = false →
  unquote (x5c :: x75 :: a0 :: a1 :: a2 :: a3 :: r) = prepend (utf8_encode u) (unquote r).
Proof.
  intros H1 H2 H3.
  etransitivity; [lazy beta iota zeta delta [unquote beqb bval Byte.to_N N.eqb Pos.eqb]; reflexivity|].
  by rewrite H1, H2, H3.
Qed.

Lemma unquote_ascii c r :
  (bval c < 128)%N → unquote (quote_ascii c ++ r) = prepend [c] (unquote r).
Proof.
  intros Hc. destruct (quote_ascii_cases c) as [(-> & H1 & H2 & H3)|[(e & -> & H1 & H2)|(h & l & -> & H)]].
  - by apply unquote_plain.
  - by apply unquote_short.
  - cbn [app]. rewrite (unquote_u _ _ _ _ (bval c)).
    + unfold utf8_encode, b. by rewrite (proj2 (N.ltb_lt _ _) Hc), byte_of_bval.
    + unfold code_unit. by rewrite H.
    + unfold high_surrogate. destruct (N.leb_spec 55296 (bval c)); [lia|done].
    + unfold low_surrogate. destruct (N.leb_spec 56320 (bval c)); [lia|done].
Qed.

(** The bytes of a multi-byte sequence, which does not depend on what follows. *)
Lemma in_range_high lo hi c : in_range lo hi c = true → (128 ≤ lo)%N → (128 ≤ bval c)%N.
Proof. intros [H _]%andb_true_iff Hlo. apply N.leb_le in H. lia. Qed.
Lemma high_plain c : (128 ≤ bval c)%N → beqb c x22 = false ∧ beqb c x5c = false.
Proof.
  intros H. split; [destruct (beqb_spec c x22) as [->|]|destruct (beqb_spec c x5c) as [->|]]; try done.
Qed.

Lemma utf8_width_cases s n :
  utf8_width s = Some n →
  (∃ c l, s = c :: l ∧ (128 ≤ bval c)%N) ∧ n ∈ [2; 3; 4] ∧ n ≤ length s ∧
  (∀ r, utf8_width (take n s ++ r) = Some n).
Proof.
  unfold utf8_width. intros H.
  destruct s as [|c0 [|c1 r]]; [done..|].
  destruct (in_range 194 223 c0 && cont c1) eqn:E2; simplify_eq/=.
  { apply andb_true_iff in E2 as [Hc Hd]. split_and!; [|set_solver|lia|by rewrite Hc, Hd].
    eexists _, _; split; [done|]. eapply in_range_high; [eassumption|lia]. }
  destruct r as [|c2 r']; [done|].
  destruct (cont c2 && _) eqn:E3 in H; simplify_eq/=.
  { split_and!; [|set_solver|lia|by rewrite E2, E3].
    eexists _, _; split; [done|]. apply andb_true_iff in E3 as [_ E3]. rewrite !orb_true_iff, !andb_true_iff in E3.
    destruct_or? E3; destruct E3 as [? _]; (eapply in_range_high; [eassumption|lia]). }
  destruct r' as [|c3 r'']; [done|].
  destruct (cont c2 && cont c3 && _) eqn:E4 in H; simplify_eq/=.
  split_and!; [|set_solver|lia|by rewrite E2, E3, E4].
  eexists _, _; split; [done|]. apply andb_true_iff in E4 as [_ E4]. rewrite !orb_true_iff, !andb_true_iff in E4.
  destruct_or? E4; destruct E4 as [? _]; (eapply in_range_high; [eassumption|lia]).
Qed.

Lemma unquote_seq n s r :
  utf8_width s = Some n →
  unquote ((if decide (take n s = ls_seq) then [x5c; x75; x32; x30; x32; x38]
            else if decide (take n s = ps_seq) then [x5c; x75; x32; x30; x32; x39]
            else take n s) ++ r) = prepend (take n s) (unquote r).
Proof.
  intros H. destruct (decide _) as [->|]; [by apply (unquote_u _ _ _ _ 8232)|].
  destruct (decide _) as [->|]; [by apply (unquote_u _ _ _ _ 8233)|].
  apply utf8_width_cases in H as ((c & l & -> & Hc) & Hn & Hl & Hw). specialize (Hw r).
  destruct (high_plain c Hc) as [H1 H2]. simpl in Hl.
  assert (length (take n (c :: l)) = n) as Hlen by (rewrite length_take; simpl; lia).
  assert (∃ tl, take n (c :: l) = c :: tl) as [tl Htl].
  { destruct n; [set_solver|]. by eexists. }
  rewrite Htl in *. cbn [app] in *. cbn [unquote]. rewrite H1, H2, Hw.
  destruct (N.ltb_spec (bval c) 32); [lia|]. destruct (N.ltb_spec (bval c) 128); [lia|].
  rewrite !elem_of_cons, elem_of_nil in Hn.
  destruct Hn as [->|[->|[->|[]]]]; simpl in Hlen;
    repeat (destruct tl as [|? tl]; simpl in Hlen; try lia); done.
Qed.

Lemma unquote_quote_go fuel s r :
  valid_utf8_go fuel s = true → unquote (quote_go fuel s ++ x22 :: r) = Some (s, r).
Proof.
  revert s. induction fuel as [|fuel IH]; intros [|c s] H; simplify_eq/=; try done.
  destruct (N.ltb_spec (bval c) 128).
  - rewrite <-(assoc_L (++)), unquote_ascii, IH by done. done.
  - destruct (utf8_width (c :: s)) as [n|] eqn:E; [|done].
    rewrite <-(assoc_L (++)), (unquote_seq n) by done. rewrite IH by done. simpl.
    by rewrite take_drop.
Qed.

Lemma unquote_quote s r :
  valid_utf8 s → unquote (quote_body s ++ x22 :: r) = Some (bytes_of s, r).
Proof. apply unquote_quote_go. Qed.

(** The quoted form determines a valid string and where it ends. *)
Lemma quote_app_inj s1 s2 r1 r2 :
  valid_utf8 s1 → valid_utf8 s2 → quote s1 ++ r1 = quote s2 ++ r2 → s1 = s2 ∧ r1 = r2.
Proof.
  intros H1 H2 [= E]. rewrite <-!(assoc_L (++)) in E. simpl in E.
  pose proof (unquote_quote s1 r1 H1) as E1. rewrite E, unquote_quote in E1 by done.
  simplify_eq. by split; [apply bytes_of_inj|].
Qed.

(** ** What is read is UTF-8 *)

Lemma valid_fuel fuel s : valid_utf8_go fuel s = true → ∀ fuel', fuel ≤ fuel' → valid_utf8_go fuel' s = true.
Proof.
  revert s. induction fuel as [|fuel IH]; intros [|c s] H [|fuel'] Hf; simpl in *; try done; try lia.
  destruct (bval c <? 128)%N; [apply IH; [done|lia]|].
  destruct (utf8_width (c :: s)); [apply IH; [done|lia]|done].
Qed.
Definition valid_bytes (s : list byte) : Prop := valid_utf8_go (length s) s = true.
Lemma valid_ascii c s : (bval c < 128)%N → valid_bytes s → valid_bytes (c :: s).
Proof. intros Hc Hs. unfold valid_bytes. simpl. by rewrite (proj2 (N.ltb_lt _ _) Hc). Qed.
Lemma valid_multi l s :
  (∀ r, utf8_width (l ++ r) = Some (length l)) → valid_bytes s → valid_bytes (l ++ s).
Proof.
  intros Hl Hs. destruct (utf8_width_cases _ _ (Hl s)) as ((c & l' & E & Hc) & Hn & _ & _).
  unfold valid_bytes. rewrite E. cbn [length valid_utf8_go].
  destruct (N.ltb_spec (bval c) 128); [lia|]. rewrite <-E, Hl, drop_app_length.
  apply (valid_fuel (length s)); [done|]. apply (f_equal length) in E. rewrite length_app in E. simpl in E.
  rewrite !elem_of_cons in Hn. destruct_or? Hn; [lia..|by apply elem_of_nil in Hn].
Qed.

Lemma bval_b n : (n < 256)%N → bval (b n) = n.
Proof. intros Hn. unfold b. rewrite bval_byte_of_N. by apply N.mod_small. Qed.
Lemma in_range_yes lo hi n : (lo ≤ n ≤ hi)%N → (n < 256)%N → in_range lo hi (b n) = true.
Proof. intros [H1 H2] Hn. unfold in_range. rewrite bval_b by done. by rewrite !(proj2 (N.leb_le _ _)). Qed.
Lemma in_range_no lo hi n : (hi < n)%N → (n < 256)%N → in_range lo hi (b n) = false.
Proof.
  intros H1 Hn. unfold in_range. rewrite bval_b by done. apply andb_false_iff. right. by apply N.leb_gt.
Qed.
Lemma cont_low n : (n < 64)%N → cont (b (128 + n)) = true.
Proof. intros Hn. apply in_range_yes; lia. Qed.

(** The well-formed sequences of two, three and four bytes, by their six-bit groups. *)
Lemma width2 a l r : (2 ≤ a < 32)%N → (l < 64)%N → utf8_width ([b (192 + a); b (128 + l)] ++ r) = Some 2.
Proof.
  intros Ha Hl. unfold utf8_width. cbn [app]. rewrite cont_low by done.
  by rewrite in_range_yes by lia.
Qed.
Lemma width3 a m l r :
  (a < 16)%N → (m < 64)%N → (l < 64)%N → (a = 0 → 32 ≤ m)%N → (a = 13 → m < 32)%N →
  utf8_width ([b (224 + a); b (128 + m); b (128 + l)] ++ r) = Some 3.
Proof.
  intros Ha Hm Hl H0 H13. unfold utf8_width. cbn [app]. rewrite (in_range_no 194 223) by lia.
  rewrite !cont_low by done. cbn [andb]. rewrite !andb_true_r.
  assert (∀ p q u v : bool, p || q || u || v = true → (if p || q || u || v then Some 3 else None) = Some 3)
    as Hif by (by intros ???? ->).
  assert ((a = 0 ∨ 1 ≤ a ≤ 12 ∨ a = 13 ∨ 14 ≤ a)%N) as [->|[Hr|[->|Hr]]] by lia.
  - rewrite (in_range_yes 224 224), (in_range_yes 160 191) by lia. done.
  - rewrite (in_range_yes 225 236) by lia. by rewrite orb_true_r.
  - rewrite (in_range_yes 237 237), (in_range_yes 128 159) by lia. by rewrite !orb_true_r.
  - rewrite (in_range_yes 238 239) by lia. by rewrite !orb_true_r.
Qed.
Lemma width4 a m k l r :
  (a < 5)%N → (m < 64)%N → (k < 64)%N → (l < 64)%N → (a = 0 → 16 ≤ m)%N → (a = 4 → m < 16)%N →
  utf8_width ([b (240 + a); b (128 + m); b (128 + k); b (128 + l)] ++ r) = Some 4.
Proof.
  intros Ha Hm Hk Hl H0 H4. unfold utf8_width. cbn [app]. rewrite (in_range_no 194 223) by lia.
  rewrite !cont_low by done. cbn [andb]. rewrite !andb_true_r.
  rewrite (in_range_no 224 224), (in_range_no 225 236), (in_range_no 237 237), (in_range_no 238 239) by lia.
  cbn [andb orb].
  assert ((a = 0 ∨ 1 ≤ a ≤ 3 ∨ a = 4)%N) as [->|[Hr| ->]] by lia.
  - rewrite (in_range_yes 240 240), (in_range_yes 144 191) by lia. done.
  - rewrite (in_range_yes 241 243) by lia. by rewrite orb_true_r.
  - rewrite (in_range_yes 244 244), (in_range_yes 128 143) by lia. by rewrite !orb_true_r.
Qed.

Lemma valid_utf8_encode cp s :
  (cp < 55296 ∨ 57344 ≤ cp < 1114112)%N → valid_bytes s → valid_bytes (utf8_encode cp ++ s).
Proof.
  intros Hcp Hs. unfold utf8_encode. pose proof (N.mod_lt cp 64 ltac:(done)) as Hl.
  pose proof (N.mod_lt (cp / 64) 64 ltac:(done)) as Hm. pose proof (N.mod_lt (cp / 4096) 64 ltac:(done)) as Hk.
  pose proof (N.div_mod cp 64 ltac:(done)) as E1. pose proof (N.div_mod (cp / 64) 64 ltac:(done)) as E2.
  rewrite N.Div0.div_div in E2. change (64 * 64)%N with 4096%N in E2.
  pose proof (N.div_mod (cp / 4096) 64 ltac:(done)) as E3.
  rewrite N.Div0.div_div in E3. change (4096 * 64)%N with 262144%N in E3.
  revert Hl Hm Hk E1 E2 E3. generalize (cp mod 64)%N, ((cp / 64) mod 64)%N, ((cp / 4096) mod 64)%N.
  generalize (cp / 64)%N, (cp / 4096)%N, (cp / 262144)%N. intros q1 q2 q3 l m k Hl Hm Hk E1 E2 E3.
  destruct (N.ltb_spec cp 128); [|destruct (N.ltb_spec cp 2048); [|destruct (N.ltb_spec cp 65536)]].
  - apply valid_ascii; [|done]. rewrite bval_b by lia. done.
  - apply valid_multi; [|done]. intros r. apply width2; lia.
  - apply valid_multi; [|done]. intros r. apply width3; lia.
  - apply valid_multi; [|done]. intros r. apply width4; lia.
Qed.

Lemma code_unit_lt a0 a1 a2 a3 u : code_unit a0 a1 a2 a3 = Some u → (u < 65536)%N.
Proof.
  unfold code_unit. destruct (hex_decode [a0; a1; a2; a3]) as [[|h [|l []]]|]; try done. intros [= <-].
  pose proof (bval_lt h). pose proof (bval_lt l). lia.
Qed.
Lemma valid_fffd s : valid_bytes s → valid_bytes (fffd ++ s).
Proof. by apply valid_multi. Qed.
Lemma unescape_short_ascii e c : unescape_short e = Some c → (bval c < 128)%N.
Proof.
  revert e c. assert (∀ e, match unescape_short e with Some c => (bval c <? 128)%N | None => true end = true) as Hall.
  { apply forall_bytes. vm_compute. reflexivity. }
  intros e c H. specialize (Hall e). rewrite H in Hall. by apply N.ltb_lt.
Qed.

Lemma unquote_valid s t rest : unquote s = Some (t, rest) → valid_bytes t.
Proof.
  remember (length s) as n eqn:Hn. revert s t rest Hn. induction (lt_wf n) as [n _ IH]. intros s t rest ->.
  assert (∀ (chunk s' : list byte), length s' < length s → (∀ x, valid_bytes x → valid_bytes (chunk ++ x)) →
    prepend chunk (unquote s') = Some (t, rest) → valid_bytes t) as Hp.
  { intros chunk s' Hlen Hc Hu. unfold prepend in Hu. destruct (unquote s') as [[x rest']|] eqn:E; [|done].
    injection Hu as <- _. by apply Hc, (IH (length s') Hlen s' x rest' eq_refl). }
  destruct s as [|c r]; [done|]. cbn [unquote].
  destruct (beqb c x22); [by intros [= <- _]|].
  destruct (beqb c x5c).
  - destruct r as [|e r1]; [done|]. destruct (beqb e x75).
    + destruct r1 as [|a0 [|a1 [|a2 [|a3 r2]]]]; try done.
      destruct (code_unit a0 a1 a2 a3) as [u|] eqn:Eu; [|done]. apply code_unit_lt in Eu.
      destruct (high_surrogate u) eqn:Ehi.
      * unfold high_surrogate in Ehi. apply andb_true_iff in Ehi as [H1%N.leb_le H2%N.ltb_lt].
        destruct r2 as [|b1 [|b2 [|d0 [|d1 [|d2 [|d3 r3]]]]]];
          try (apply Hp; [simpl; lia|apply valid_fffd]).
        destruct (if beqb b1 x5c && beqb b2 x75 then code_unit d0 d1 d2 d3 else None) as [v|];
          [|apply Hp; [simpl; lia|apply valid_fffd]].
        destruct (low_surrogate v) eqn:Elo; [|apply Hp; [simpl; lia|apply valid_fffd]].
        unfold low_surrogate in Elo. apply andb_true_iff in Elo as [H3%N.leb_le H4%N.ltb_lt].
        apply Hp; [simpl; lia|]. intros x. apply valid_utf8_encode. right. lia.
      * destruct (low_surrogate u) eqn:Elo; [apply Hp; [simpl; lia|apply valid_fffd]|].
        apply Hp; [simpl; lia|]. intros x. apply valid_utf8_encode.
        unfold high_surrogate, low_surrogate in *. rewrite andb_false_iff, N.leb_gt, N.ltb_ge in Ehi, Elo. lia.
    + destruct (unescape_short e) as [c'|] eqn:Ee; [|done]. apply Hp; [simpl; lia|].
      intros x. apply valid_ascii. by eapply unescape_short_ascii.
  - destruct (bval c <? 32)%N; [done|]. destruct (N.ltb_spec (bval c) 128).
    { apply Hp; [simpl; lia|]. intros x. by apply valid_ascii. }
    destruct (utf8_width (c :: r)) as [n|] eqn:Ew; [|apply Hp; [simpl; lia|apply valid_fffd]].
    destruct (utf8_width_cases _ _ Ew) as (_ & Hn & Hlen & Htake).
    assert (∀ x, valid_bytes x → valid_bytes (take n (c :: r) ++ x)) as Hv.
    { intros x. apply valid_multi. intros y. rewrite Htake. f_equal. rewrite length_take. lia. }
    rewrite !elem_of_cons, elem_of_nil in Hn. destruct Hn as [->|[->|[->|[]]]].
    + destruct r as [|c1 r]; [simpl in Hlen; lia|]. apply Hp; [simpl; lia|exact Hv].
    + destruct r as [|c1 [|c2 r]]; [simpl in Hlen; lia..|]. apply Hp; [simpl; lia|exact Hv].
    + destruct r as [|c1 [|c2 [|c3 r]]]; [simpl in Hlen; lia..|]. apply Hp; [simpl; lia|exact Hv].
Qed.

#[global] Arguments unquote : simpl never.

(** ** Lists of strings: [json.Marshal([]string)] and the reader *)

Fixpoint marshal_items (l : list string) : list byte :=
  match l with
  | [] => [x5d]
  | s :: l' => x2c :: quote s ++ marshal_items l'
  end.
Definition marshal_strings (l : list string) : list byte :=
  match l with
  | [] => [x5b; x5d]
  | s :: l' => x5b :: quote s ++ marshal_items l'
  end.

Fixpoint parse_items (fuel : nat) (s : list byte) : option (list string) :=
  match fuel with
  | O => None
  | S fuel' =>
      match s with
      | [c] => if beqb c x5d then Some [] else None
      | c :: q :: r =>
          if beqb c x2c && beqb q x22 then
            '(t, rest) ← unquote r; (cons (str_of t)) <$> parse_items fuel' rest
          else None
      | [] => None
      end
  end.
Definition parse_strings (s : list byte) : option (list string) :=
  match s with
  | [o; c] => if beqb o x5b && beqb c x5d then Some [] else None
  | o :: q :: r =>
      if beqb o x5b && beqb q x22 then
        '(t, rest) ← unquote r; (cons (str_of t)) <$> parse_items (length rest) rest
      else None
  | _ => None
  end.

Lemma length_marshal_items l : length l < length (marshal_items l).
Proof. induction l; simpl; rewrite ?length_app; simpl; lia. Qed.

Lemma parse_marshal_items l fuel :
  Forall valid_utf8 l → length l < fuel → parse_items fuel (marshal_items l) = Some l.
Proof.
  intros H. revert fuel. induction H as [|s l Hs _ IH]; intros [|fuel] Hf; simpl in *; try lia; [done|].
  rewrite <-(assoc_L (++)). cbn [app].
  rewrite unquote_quote by done. simpl. rewrite IH, str_of_bytes_of by lia. done.
Qed.

Lemma parse_marshal_strings l :
  Forall valid_utf8 l → parse_strings (marshal_strings l) = Some l.
Proof.
  destruct 1 as [|s l Hs Hl]; [done|].
  unfold marshal_strings, quote. cbn [app]. rewrite <-(assoc_L (++)). cbn [app].
  unfold parse_strings. destruct (quote_body s ++ _) as [|c0 r] eqn:E.
  { by destruct (quote_body s). }
  rewrite <-E, unquote_quote by done. simpl.
  rewrite parse_marshal_items, str_of_bytes_of by (try done; apply length_marshal_items).
  done.
Qed.

(** ** ASCII texts are UTF-8 *)

Definition ascii (l : list byte) : Prop := Forall (λ c, (bval c < 128)%N) l.
Lemma ascii_utf8_go fuel l : ascii l → length l ≤ fuel → valid_utf8_go fuel l = true.
Proof.
  intros Hl. revert fuel. induction Hl as [|c l Hc _ IH]; intros [|fuel] Hf; simpl in *; try done; [lia|].
  destruct (N.ltb_spec (bval c) 128); [|lia]. apply IH. lia.
Qed.
Lemma ascii_utf8 l : ascii l → valid_utf8 (str_of l).
Proof. intros Hl. unfold valid_utf8. rewrite bytes_of_str_of. by apply ascii_utf8_go. Qed.
Lemma utf8_prefix p s : ascii (bytes_of p) → valid_utf8 s → valid_utf8 (p +s s).
Proof.
  unfold valid_utf8. rewrite bytes_of_append. intros Hp Hs. induction Hp as [|c l Hc _ IH]; [done|].
  by apply valid_ascii.
Qed.
Lemma hexchar_ascii c : is_Some (fromHexChar c) → (bval c < 128)%N.
Proof.
  intros [v Hv]. unfold fromHexChar in Hv. generalize dependent (bval c). intros n Hn.
  repeat match type of Hn with
  | context [if ?b then _ else _] =>
      destruct b eqn:E; [apply andb_true_iff in E as [_ E%N.leb_le]; lia|clear E]
  end. done.
Qed.
Lemma hex_ascii l : ascii (hex_encode l).
Proof. eapply Forall_impl; [apply hex_encode_chars|]. intros c. apply hexchar_ascii. Qed.
End Json.
