(* ===== verification/JsonValue.v ===== *)
(** * encoding/json for values: numbers, strings, arrays and objects

    [marshal] writes compact JSON, as [json.Marshal] does; [parse] reads JSON
    texts, white space between tokens included.  Numbers that are not plain
    64-bit integers are kept as their text: the program never writes them, and
    decoding one into an integer or string field is an error.  Object members keep
    their order; a map is marshalled with its keys sorted, so the program's maps
    are association lists in key order. *)

From S2P Require Import Prelude GoStd Json.

#[local] Set Warnings "-register-all".

Module JsonValue.
Import Json.

Inductive json :=
| JNull
| JBool (b : bool)
| JInt (z : Z)
| JNumber (text : list byte)
| JStr (s : string)
| JArr (l : list json)
| JObj (l : list (string * json)).

(** ** Writing *)

Definition num (z : Z) : list byte := bytes_of (Itoa z).

Section Sep.
Context {A : Type} (f : A → list byte).
(** The elements between commas. *)
Definition commas (l : list A) : list byte :=
  match l with
  | [] => []
  | x :: l' => f x ++ foldr (λ y acc, x2c :: f y ++ acc) [] l'
  end.
End Sep.

Fixpoint marshal (v : json) : list byte :=
  match v with
  | JNull => bytes_of "null"
  | JBool true => bytes_of "true"
  | JBool false => bytes_of "false"
  | JInt z => num z
  | JNumber t => t
  | JStr s => quote s
  | JArr l => x5b :: commas marshal l ++ [x5d]
  | JObj l => x7b :: commas (λ kv, quote kv.1 ++ x3a :: marshal kv.2) l ++ [x7d]
  end.

(** ** Maps, in key order *)

Definition key_lt (a b : string) : bool := String.ltb a b.
Section Fields.
Context {A : Type}.
Fixpoint aset (k : string) (v : A) (l : list (string * A)) : list (string * A) :=
  match l with
  | [] => [(k, v)]
  | (k', v') :: l' =>
      if k =s k' then (k, v) :: l'
      else if key_lt k k' then (k, v) :: l
      else (k', v') :: aset k v l'
  end.
Definition of_pairs (l : list (string * A)) : list (string * A) :=
  foldl (λ acc kv, aset kv.1 kv.2 acc) [] l.
(** The member a decoder stores in a field: names match up to (ASCII) case and
    the last one wins. *)
Definition field (k : string) (l : list (string * A)) : option A :=
  snd <$> last (filter (λ kv, ToLower kv.1 = k) l).
(** Lookup in a map: exact names. *)
Fixpoint aget (k : string) (l : list (string * A)) : option A :=
  match l with
  | [] => None
  | (k', v) :: l' => if k =s k' then Some v else aget k l'
  end.
End Fields.

Section FieldLemmas.
Context {A : Type}.
Lemma aget_aset_eq k (v : A) l : aget k (aset k v l) = Some v.
Proof.
  induction l as [|[k' v'] l IH]; simpl; [by rewrite String.eqb_refl|].
  destruct (k =s k') eqn:E; simpl; [by rewrite String.eqb_refl|].
  destruct (key_lt k k'); simpl; [by rewrite String.eqb_refl|]. by rewrite E.
Qed.
Lemma aget_aset_ne k k' (v : A) l : k ≠ k' → aget k (aset k' v l) = aget k l.
Proof.
  intros Hne. apply String.eqb_neq in Hne.
  induction l as [|[k2 v2] l IH]; simpl; [by rewrite Hne|].
  destruct (String.eqb_spec k' k2) as [->|]; simpl; [by rewrite Hne|].
  destruct (key_lt k' k2); simpl; [by rewrite Hne|]. by rewrite IH.
Qed.
(** Merging extras keeps every field the extras do not name. *)
Lemma aget_merge_other k (extra l : list (string * A)) :
  Forall (λ kv, k ≠ kv.1) extra → aget k (foldl (λ acc kv, aset kv.1 kv.2 acc) l extra) = aget k l.
Proof.
  intros Hx. revert l. induction Hx as [|[k' v] extra Hne _ IH]; intros l; [done|].
  simpl. rewrite IH. by apply aget_aset_ne.
Qed.
End FieldLemmas.

(** ** Reading *)

Definition is_ws (c : byte) : bool := beqb c x20 || beqb c x09 || beqb c x0a || beqb c x0d.
Fixpoint skip_ws (s : list byte) : list byte :=
  match s with
  | c :: r => if is_ws c then skip_ws r else s
  | [] => []
  end.
Definition is_num_char (c : byte) : bool :=
  match digit_val c with Some _ => true | None => false end
  || beqb c x2d || beqb c x2b || beqb c x2e || beqb c x45 || beqb c x65.
Fixpoint take_num (s : list byte) : list byte * list byte :=
  match s with
  | c :: r => if is_num_char c then let '(n, rest) := take_num r in (c :: n, rest) else ([], s)
  | [] => ([], [])
  end.
(** The number grammar: no leading zeros, no leading plus. *)
Definition int_text (t : list byte) : bool :=
  let ds := match t with c :: r => if beqb c x2d then r else t | [] => [] end in
  match ds with
  | [] => false
  | [c] => match digit_val c with Some _ => true | None => false end
  | c :: _ => negb (beqb c x30) && forallb (λ c, match digit_val c with Some _ => true | None => false end) ds
  end.
Fixpoint span_digits (t : list byte) : list byte * list byte :=
  match t with
  | c :: r => match digit_val c with
              | Some _ => let '(ds, rest) := span_digits r in (c :: ds, rest)
              | None => ([], t)
              end
  | [] => ([], [])
  end.
(** A fraction, an exponent, or both, after the integer part. *)
Definition exponent_text (t : list byte) : bool :=
  match t with
  | [] => true
  | e :: r =>
      (beqb e x45 || beqb e x65) &&
      let r := match r with c :: r' => if beqb c x2b || beqb c x2d then r' else r | [] => [] end in
      match span_digits r with (_ :: _, []) => true | _ => false end
  end.
Definition fraction_text (t : list byte) : bool :=
  match t with
  | c :: r => if beqb c x2e then match span_digits r with (_ :: _, rest) => exponent_text rest | _ => false end
              else exponent_text t
  | [] => true
  end.
Definition float_text (t : list byte) : bool :=
  let ds := match t with c :: r => if beqb c x2d then r else t | [] => [] end in
  match span_digits ds with
  | (int, rest) => int_text int && fraction_text rest
  end.
Definition read_num (t : list byte) : option json :=
  match t with
  | [] => None
  | _ => if int_text t then match Atoi (str_of t) with Some z => Some (JInt z) | None => Some (JNumber t) end
         else if float_text t then Some (JNumber t)
         else None
  end.

Fixpoint parse_value (fuel : nat) (s : list byte) : option (json * list byte) :=
  match fuel with
  | O => None
  | S fuel' =>
      let s := skip_ws s in
      if bprefix (bytes_of "null") s then Some (JNull, drop 4 s)
      else if bprefix (bytes_of "true") s then Some (JBool true, drop 4 s)
      else if bprefix (bytes_of "false") s then Some (JBool false, drop 5 s)
      else match s with
           | [] => None
           | c :: r =>
               if beqb c x22 then '(t, rest) ← unquote r; Some (JStr (str_of t), rest)
               else if beqb c x5b then
                 match skip_ws r with
                 | c' :: r' =>
                     if beqb c' x5d then Some (JArr [], r')
                     else '(l, rest) ← parse_elems fuel' r; Some (JArr l, rest)
                 | [] => None
                 end
               else if beqb c x7b then
                 match skip_ws r with
                 | c' :: r' =>
                     if beqb c' x7d then Some (JObj [], r')
                     else '(l, rest) ← parse_members fuel' r; Some (JObj l, rest)
                 | [] => None
                 end
               else let '(t, rest) := take_num s in v ← read_num t; Some (v, rest)
           end
  end
with parse_elems (fuel : nat) (s : list byte) : option (list json * list byte) :=
  match fuel with
  | O => None
  | S fuel' =>
      '(v, r) ← parse_value fuel' s;
      match skip_ws r with
      | c :: r' =>
          if beqb c x5d then Some ([v], r')
          else if beqb c x2c then '(l, rest) ← parse_elems fuel' r'; Some (v :: l, rest)
          else None
      | [] => None
      end
  end
with parse_members (fuel : nat) (s : list byte) : option (list (string * json) * list byte) :=
  match fuel with
  | O => None
  | S fuel' =>
      match skip_ws s with
      | q :: r0 =>
          if beqb q x22 then
            '(k, r1) ← unquote r0;
            match skip_ws r1 with
            | c0 :: r2 =>
                if beqb c0 x3a then
                  '(v, r) ← parse_value fuel' r2;
                  match skip_ws r with
                  | c :: r' =>
                      if beqb c x7d then Some ([(str_of k, v)], r')
                      else if beqb c x2c then
                        '(l, rest) ← parse_members fuel' r'; Some ((str_of k, v) :: l, rest)
                      else None
                  | [] => None
                  end
                else None
            | [] => None
            end
          else None
      | [] => None
      end
  end.

(** A whole text; the depth of nesting and the number of elements are below its
    length. *)
Definition parse (s : list byte) : option json :=
  '(v, r) ← parse_value (2 * length s + 2) s;
  match skip_ws r with [] => Some v | _ :: _ => None end.

(** ** What [Marshal] wrote is read back *)

(** Integers are 64-bit and not negative, strings are UTF-8, no raw numbers. *)
Fixpoint wf (v : json) : Prop :=
  match v with
  | JNull | JBool _ => True
  | JInt z => (0 ≤ z < 2 ^ 63)%Z
  | JNumber _ => False
  | JStr s => valid_utf8 s
  | JArr l => foldr (λ x P, wf x ∧ P) True l
  | JObj l => foldr (λ kv P, (valid_utf8 kv.1 ∧ wf kv.2) ∧ P) True l
  end.
Fixpoint size (v : json) : nat :=
  match v with
  | JArr l => S (foldr (λ x n, S (size x) + n) 0 l)
  | JObj l => S (foldr (λ kv n, S (size kv.2) + n) 0 l)
  | _ => 1
  end.
(** What may follow a value: nothing that continues a number. *)
Definition stops (r : list byte) : Prop :=
  match r with c :: _ => is_num_char c = false | [] => True end.

(** The first byte of a value tells its kind. *)
Lemma nat_digits_head_nonzero fuel n :
  (0 < n)%N → (n < 10 ^ N.of_nat (S fuel))%N →
  ∃ d ds, nat_digits (S fuel) n [] = byte_of_N (48 + d) :: ds ∧ (0 < d < 10)%N.
Proof.
  revert n. induction fuel as [|fuel IH]; intros n H0 Hn.
  - change (10 ^ N.of_nat 1)%N with 10%N in Hn. cbn [nat_digits].
    rewrite (proj2 (N.ltb_lt n 10)) by lia. rewrite N.mod_small by lia. eauto.
  - remember (S fuel) as f eqn:Hf. cbn [nat_digits]. destruct (N.ltb_spec n 10).
    + rewrite N.mod_small by lia. eauto.
    + rewrite nat_digits_acc. rewrite Nat2N.inj_succ, N.pow_succ_r' in Hn.
      destruct (IH (n / 10)%N) as (d & ds & -> & Hd).
      * apply N.div_str_pos. lia.
      * apply N.Div0.div_lt_upper_bound. lia.
      * exists d. eexists. split; [reflexivity|done].
Qed.

Lemma num_digits z :
  (0 ≤ z < 2 ^ 63)%Z →
  ∃ c ds, num z = c :: ds ∧ Forall (λ c, is_Some (digit_val c)) (c :: ds) ∧ (ds = [] ∨ c ≠ x30).
Proof.
  intros Hz. unfold num, Itoa. rewrite bytes_of_str_of, (proj2 (Z.ltb_ge z 0)) by lia.
  pose proof (nat_digits_digit 20 (Z.abs_N z) [] ltac:(constructor)) as Hd.
  destruct (decide (z = 0)%Z) as [->|Hz0]; [by eexists _, []; split; [reflexivity|]; auto|].
  destruct (nat_digits_head_nonzero 19 (Z.abs_N z)) as (d & ds & E & Hr); [lia| |].
  { change (10 ^ N.of_nat 20)%N with 100000000000000000000%N. lia. }
  rewrite E in *. eexists _, _. split; [done|]. split; [done|]. right.
  intros E2%(f_equal bval). rewrite bval_byte_of_N, N.mod_small in E2 by lia.
  change (bval x30) with 48%N in E2. lia.
Qed.

Lemma digit_num_char c : is_Some (digit_val c) → is_num_char c = true.
Proof. intros [d Hd]. unfold is_num_char. by rewrite Hd. Qed.

Lemma take_num_app l r : Forall (λ c, is_num_char c = true) l → stops r → take_num (l ++ r) = (l, r).
Proof.
  induction 1 as [|c l Hc _ IH]; simpl; intros Hr.
  - destruct r as [|c r]; [done|]. simpl in *. by rewrite Hr.
  - rewrite Hc. by rewrite IH.
Qed.

Lemma read_num_num z : (0 ≤ z < 2 ^ 63)%Z → read_num (num z) = Some (JInt z).
Proof.
  intros Hz. destruct (num_digits z Hz) as (c & ds & E & Hd & Hz0).
  pose proof (Atoi_Itoa z Hz) as HA.
  assert (int_text (num z) = true) as Hi.
  { rewrite E. unfold int_text. inversion Hd as [|?? Hc Hds]; subst.
    destruct (beqb_spec c x2d) as [->|]; [by destruct Hc|].
    destruct ds as [|c' ds]; [by destruct Hc as [? ->]|].
    destruct Hz0 as [|Hz0]; [done|]. destruct (beqb_spec c x30); [done|]. simpl.
    apply andb_true_iff. split; [by destruct Hc as [? ->]|].
    change (forallb (λ c, match digit_val c with Some _ => true | None => false end) (c' :: ds) = true).
    apply forallb_elem_of. intros x Hx. by destruct (proj1 (Forall_forall _ _) Hds x Hx) as [? ->]. }
  unfold read_num. rewrite E. rewrite E in Hi. rewrite Hi, <-E. unfold num.
  by rewrite str_of_bytes_of, HA.
Qed.

(** What a marshalled value starts with. *)
Definition starts (c : byte) : Prop :=
  is_ws c = false ∧ beqb c x5d = false ∧ beqb c x7d = false.
Lemma starts_digit c : is_Some (digit_val c) → starts c.
Proof.
  intros [d Hd]. unfold starts, is_ws.
  repeat match goal with |- context [beqb c ?x] => destruct (beqb_spec c x) as [->|]; [done|] end.
  done.
Qed.
Lemma marshal_starts v : wf v → ∃ c r, marshal v = c :: r ∧ starts c.
Proof.
  destruct v as [|[]|z|t|s|l|l]; simpl; intros H; try done; try by eexists _, _.
  destruct (num_digits z H) as (c & ds & -> & Hd & _). inversion Hd; subst.
  eexists _, _. split; [done|by apply starts_digit].
Qed.

Lemma skip_ws_starts c r : is_ws c = false → skip_ws (c :: r) = c :: r.
Proof. simpl. by intros ->. Qed.

Lemma digit_prefix c r k : is_Some (digit_val c) →
  k ∈ [bytes_of "null"; bytes_of "true"; bytes_of "false"] → bprefix k (c :: r) = false.
Proof.
  intros Hc Hk. assert (∀ x, digit_val x = None → beqb x c = false) as Hne.
  { intros x Hx. destruct (beqb_spec x c) as [->|]; [|done]. destruct Hc as [? Hc]. congruence. }
  rewrite !elem_of_cons in Hk. destruct Hk as [->|[->|[->|[]%elem_of_nil]]]; simpl; by rewrite Hne.
Qed.

(** The round trip, by the fuel of the reader. *)
Definition reads (fuel : nat) : Prop := ∀ v r,
  2 * size v ≤ fuel → wf v → stops r → parse_value fuel (marshal v ++ r) = Some (v, r).

Abbreviation elems_size l := (foldr (λ x n, S (size x) + n) 0 l).
Abbreviation members_size l := (foldr (λ kv n, S (size kv.2) + n) 0 l).

Lemma reads_elems fuel :
  (∀ f, f < fuel → reads f) → ∀ v l r,
  2 * elems_size (v :: l) ≤ fuel → wf v → wf (JArr l) →
  parse_elems fuel (commas marshal (v :: l) ++ x5d :: r) = Some (v :: l, r).
Proof.
  induction fuel as [|fuel IH]; intros HR v l r Hs Hv Hl; [simpl in Hs; lia|].
  simpl in Hs. cbn [parse_elems commas].
  assert (∀ r', stops r' → parse_value fuel (marshal v ++ r') = Some (v, r')) as Hp.
  { intros r' Hr'. apply HR; [lia|lia|done|done]. }
  destruct l as [|v' l].
  { cbn [foldr]. rewrite app_nil_r, Hp by done. done. }
  destruct Hl as [Hv' Hl]. cbn [foldr]. rewrite <-(assoc_L (++)). cbn [app].
  rewrite Hp by done. simpl mbind. cbn [skip_ws]. simpl beqb. cbn iota.
  rewrite <-(assoc_L (++)).
  assert (∀ w, marshal v' ++ foldr (λ y acc, x2c :: marshal y ++ acc) [] l ++ w
               = commas marshal (v' :: l) ++ w) as Hc.
  { intros w. cbn [commas]. by rewrite <-(assoc_L (++)). }
  rewrite Hc, IH; [done|intros f Hf; apply HR; lia|simpl in *; lia|done|done].
Qed.

Lemma reads_members fuel :
  (∀ f, f < fuel → reads f) → ∀ k v l r,
  2 * members_size ((k, v) :: l) ≤ fuel → valid_utf8 k → wf v → wf (JObj l) →
  parse_members fuel (commas (λ kv, quote kv.1 ++ x3a :: marshal kv.2) ((k, v) :: l) ++ x7d :: r)
    = Some ((k, v) :: l, r).
Proof.
  induction fuel as [|fuel IH]; intros HR k v l r Hs Hk Hv Hl; [simpl in Hs; lia|].
  simpl in Hs. cbn [parse_members commas fst snd].
  change (quote k) with (x22 :: quote_body k ++ [x22]).
  repeat (rewrite <-(assoc_L (++)) || cbn [app]). cbn [skip_ws]. simpl beqb. cbn iota.
  change (is_ws x22) with false. cbn iota. simpl beqb. cbn iota.
  rewrite unquote_quote by done. simpl mbind. cbn [skip_ws]. simpl beqb. cbn iota.
  assert (∀ r', stops r' → parse_value fuel (marshal v ++ r') = Some (v, r')) as Hp.
  { intros r' Hr'. apply HR; [lia|lia|done|done]. }
  destruct l as [|[k' v'] l].
  { cbn [foldr app]. rewrite Hp by done. simpl. by rewrite str_of_bytes_of. }
  destruct Hl as [[Hk' Hv'] Hl]. cbn [foldr fst snd app].
  rewrite Hp by done. simpl mbind. cbn [skip_ws]. simpl beqb. cbn iota.
  rewrite <-(assoc_L (++)).
  match goal with |- context [parse_members fuel ?x] =>
    assert (x = commas (λ kv, quote kv.1 ++ x3a :: marshal kv.2) ((k', v') :: l) ++ x7d :: r) as ->
  end.
  { cbn [commas fst snd]. change (quote k') with (x22 :: quote_body k' ++ [x22]). repeat (rewrite <-(assoc_L (++)) || cbn [app]). done. }
  rewrite IH; [|intros f Hf; apply HR; lia|simpl in *; lia|done|done|done].
  simpl. by rewrite str_of_bytes_of.
Qed.

Lemma reads_all fuel : reads fuel.
Proof.
  induction (lt_wf fuel) as [fuel _ IH]. intros v r Hs Hv Hr.
  destruct fuel as [|fuel]; [destruct v; simpl in Hs; lia|].
  assert (∀ f, f < fuel → reads f) as HR by (intros f Hf; apply IH; lia).
  destruct v as [|[]|z|t|s|[|v l]|[|[k v] l]]; try done.
  - destruct (num_digits z Hv) as (c & ds & E & Hd & _).
    inversion Hd as [|?? Hc Hds]; subst. pose proof (starts_digit c Hc) as (Hws & _).
    cbn [parse_value marshal]. rewrite E. cbn [app]. rewrite skip_ws_starts by done.
    rewrite !digit_prefix by (try done; set_solver).
    assert (∀ x, digit_val x = None → beqb c x = false) as Hne.
    { intros x Hx. destruct (beqb_spec c x) as [->|]; [|done]. destruct Hc as [? Hc]. congruence. }
    rewrite !Hne by done. change (c :: ds ++ r) with ((c :: ds) ++ r).
    rewrite take_num_app; [|by eapply Forall_impl; [exact Hd|]; apply digit_num_char|done].
    rewrite <-E, read_num_num by done. done.
  - cbn [parse_value marshal]. unfold quote. repeat (rewrite <-(assoc_L (++)) || cbn [app]).
    cbn [skip_ws]. change (is_ws x22) with false. cbn iota. simpl bprefix. cbn iota. simpl beqb.
    cbn iota. rewrite unquote_quote by done. simpl. by rewrite str_of_bytes_of.
  - cbn [parse_value marshal]. repeat (rewrite <-(assoc_L (++)) || cbn [app]).
    cbn [skip_ws]. change (is_ws x5b) with false. cbn iota. simpl bprefix. cbn iota. simpl beqb.
    cbn iota. destruct Hv as [Hv Hl].
    destruct (marshal_starts v Hv) as (c & r' & E & (Hc1 & Hc2 & _)).
    assert (∃ r'', commas marshal (v :: l) ++ x5d :: r = c :: r'') as [r'' E'].
    { cbn [commas]. rewrite E. cbn [app]. eauto. }
    rewrite E'. rewrite skip_ws_starts by done. rewrite Hc2, <-E'.
    rewrite reads_elems; [done|done| |done|done]. simpl in Hs |- *. lia.
  - cbn [parse_value marshal].
    cbn [app skip_ws]. change (is_ws x7b) with false. cbn iota. simpl bprefix. cbn iota. simpl beqb.
    cbn iota. destruct Hv as [[Hk Hv] Hl]. rewrite <-(assoc_L (++)). cbn [app].
    assert (∃ r'', commas (λ kv, quote kv.1 ++ x3a :: marshal kv.2) ((k, v) :: l) ++ x7d :: r = x22 :: r'')
      as [r'' E'].
    { cbn [commas fst]. change (quote k) with (x22 :: quote_body k ++ [x22]). cbn [app]. eauto. }
    rewrite E'. rewrite skip_ws_starts by done. simpl beqb. cbn iota. rewrite <-E'.
    rewrite reads_members; [done|done| |done|done|done]. simpl in Hs |- *. lia.
Qed.

Lemma length_commas {A} (f : A → list byte) (g : A → nat) l :
  (∀ x, x ∈ l → g x ≤ length (f x)) →
  foldr (λ x n, S (g x) + n) 0 l ≤ S (length (commas f l)).
Proof.
  intros H. destruct l as [|x l]; simpl; [lia|]. rewrite length_app.
  assert (foldr (λ x n, S (g x) + n) 0 l ≤ length (foldr (λ y acc, x2c :: f y ++ acc) [] l)) as Hl.
  { assert (∀ y, y ∈ l → g y ≤ length (f y)) as H' by set_solver. clear H.
    induction l as [|y l IH]; simpl; [lia|]. rewrite length_app.
    specialize (H' y ltac:(set_solver)) as Hy. specialize (IH ltac:(set_solver)). simpl in IH. lia. }
  specialize (H x ltac:(set_solver)). simpl in Hl. lia.
Qed.

Lemma elems_size_elem x l : x ∈ l → size x < elems_size l.
Proof. induction 1; simpl in *; lia. Qed.
Lemma members_size_elem (kv : string * json) l : kv ∈ l → size kv.2 < members_size l.
Proof. induction 1; simpl in *; lia. Qed.
Lemma wf_elem x l : x ∈ l → wf (JArr l) → wf x.
Proof. induction 1; simpl in *; naive_solver. Qed.
Lemma wf_member (kv : string * json) l : kv ∈ l → wf (JObj l) → wf kv.2.
Proof. induction 1; simpl in *; naive_solver. Qed.

Lemma size_marshal v : wf v → size v ≤ length (marshal v).
Proof.
  remember (size v) as n eqn:Hn. revert v Hn.
  induction (lt_wf n) as [n _ IH]. intros v -> Hv.
  destruct v as [|[]|z|t|s|l|l]; simpl; try lia.
  - destruct (num_digits z Hv) as (c & ds & -> & _). simpl. lia.
  - by destruct Hv.
  - rewrite length_app. simpl.
    pose proof (length_commas marshal size l) as H. apply le_n_S.
    etrans; [apply H|lia]. intros x Hx. eapply IH; [|done|by eapply wf_elem].
    apply Nat.lt_lt_succ_r, (elems_size_elem x l Hx).
  - rewrite length_app. simpl.
    pose proof (length_commas (λ kv, quote kv.1 ++ x3a :: marshal kv.2) (λ kv, size kv.2) l) as H.
    apply le_n_S. etrans; [apply H|simpl; lia]. intros kv Hx. rewrite length_app. simpl.
    assert (size kv.2 ≤ length (marshal kv.2)); [|lia].
    eapply IH; [|done|by eapply wf_member]. apply Nat.lt_lt_succ_r, (members_size_elem kv l Hx).
Qed.

Lemma wf_JObj l : Forall (λ kv, valid_utf8 kv.1 ∧ wf kv.2) l → wf (JObj l).
Proof. by induction 1. Qed.
Lemma wf_JArr l : Forall wf l → wf (JArr l).
Proof. by induction 1. Qed.

Lemma parse_marshal v : wf v → parse (marshal v) = Some v.
Proof.
  intros Hv. unfold parse. pose proof (size_marshal v Hv).
  rewrite <-(app_nil_r (marshal v)) at 2. rewrite reads_all; [done|lia|done|done].
Qed.

End JsonValue.
