(* ===== verification/Http.v ===== *)
(** * net/http: what the handlers read of a request and write as a response *)

From S2P Require Import Prelude GoStd JsonValue.
Import JsonValue.

Module Http.

(** [rq_form] is [r.Form] once [ParseForm] succeeded (the body's values before
    the query's), or nothing when it fails; [rq_basic] is what [r.BasicAuth]
    returns; [rq_body] is the JSON body when it decodes. *)
Record Request := mkRequest {
  rq_query : list (string * string);
  rq_form : option (list (string * string));
  rq_header : list (string * string);
  rq_basic : option (string * string);
  rq_path : list (string * string);
  rq_remote : string;
  rq_body : option json }.

(** [Get] of url.Values and http.Header: the first value, or "". *)
Definition Get (l : list (string * string)) (k : string) : string := default "" (aget k l).
Definition FormValue (r : Request) (k : string) : string := Get (default [] (rq_form r)) k.
Definition Query (r : Request) (k : string) : string := Get (rq_query r) k.
Definition Header (r : Request) (k : string) : string := Get (rq_header r) k.
Definition PathValue (r : Request) (k : string) : string := Get (rq_path r) k.
(** [Set] of url.Values: one value replaces those there. *)
Definition vset (k v : string) (l : list (string * string)) : list (string * string) :=
  (k, v) :: filter (λ kv, kv.1 ≠ k) l.

(** [JsonResp] is an object; [JsonBody] any value, of which nothing is sent when it
    does not encode. *)
Inductive Response :=
| HttpError (status : Z) (msg : string)
| JsonResp (status : Z) (body : list (string * json))
| JsonBody (status : Z) (body : option json)
| NoContent
| Redirect (location : string).

Definition StatusOK : Z := 200.
Definition StatusCreated : Z := 201.
Definition StatusBadRequest : Z := 400.
Definition StatusUnauthorized : Z := 401.
Definition StatusForbidden : Z := 403.
Definition StatusNotFound : Z := 404.
Definition StatusConflict : Z := 409.
Definition StatusTooManyRequests : Z := 429.
Definition StatusInternalServerError : Z := 500.

Definition status_of (r : Response) : Z :=
  match r with
  | HttpError s _ | JsonResp s _ | JsonBody s _ => s
  | NoContent => 204
  | Redirect _ => 302
  end.

(** The rows of a query: a slice that was never appended to is nil, sent as null. *)
Definition rows_json {A} (f : A → json) (l : list A) : json :=
  match l with [] => JNull | _ => JArr (f <$> l) end.

(** [int(d.Seconds())]. *)
Definition seconds_of (d : Z) : Z := d / 1000000000.

Lemma aget_vset_same k v l : aget k (vset k v l) = Some v.
Proof. simpl. by rewrite String.eqb_refl. Qed.
End Http.
