(* ===== verification/Marketplace.v ===== *)
(** * The credential marketplace (pkg/marketplace/registry.go, api/marketplace.go)

    A registry of issuer and schema pairs with a count of issued credentials, kept in
    a map under the text "issuer:schema", and the proof that it counts pairs. *)

From S2P Require Import Prelude GoStd World JsonValue Http.
Import JsonValue Http.

Module Marketplace.

Record Entry := mkEntry { en_IssuerDID : string; en_SchemaID : string; en_SchemaName : string; en_IssuedCount : Z }.
#[export] Instance Entry_eq_dec : EqDecision Entry.
Proof. solve_decision. Defined.

(** The mutex makes every operation atomic. *)
Definition Registry : Type := gmap string Entry.
Definition New : Registry := ∅.
Definition key (issuerDID schemaID : string) : string := issuerDID +s ":" +s schemaID.

Definition Register (r : Registry) (issuerDID schemaID schemaName : string) : Registry :=
  match r !! key issuerDID schemaID with
  | Some _ => r
  | None => <[key issuerDID schemaID := mkEntry issuerDID schemaID schemaName 0]> r
  end.
(** A 64-bit counter. *)
Definition int64 (z : Z) : Z := ((z + 2 ^ 63) mod 2 ^ 64 - 2 ^ 63)%Z.
Definition RecordIssuance (r : Registry) (issuerDID schemaID : string) : Registry :=
  let k := key issuerDID schemaID in
  let e := match r !! k with Some e => e | None => mkEntry issuerDID schemaID "" 0 end in
  <[k := mkEntry (en_IssuerDID e) (en_SchemaID e) (en_SchemaName e) (int64 (en_IssuedCount e + 1))]> r.
(** In the order of the iteration over the map. *)
Definition List (r : Registry) : list Entry := snd <$> map_to_list r.

Definition entry_json (e : Entry) : json :=
  JObj ([("issuer_did", JStr (en_IssuerDID e)); ("schema_id", JStr (en_SchemaID e))] ++
        (if en_SchemaName e =s "" then [] else [("schema_name", JStr (en_SchemaName e))]) ++
        [("issued_count", JInt (en_IssuedCount e))]).
Definition handleListMarketplace (marketplace : option Registry) : Response :=
  match marketplace with
  | None => JsonBody StatusOK (Some (JArr []))
  | Some r => JsonBody StatusOK (Some (JArr (entry_json <$> List r)))
  end.

(** ** Counting pairs *)

Inductive Op := OpRegister (issuerDID schemaID schemaName : string) | OpRecord (issuerDID schemaID : string).
#[export] Instance Op_eq_dec : EqDecision Op.
Proof. solve_decision. Defined.
Definition step (r : Registry) (o : Op) : Registry :=
  match o with OpRegister i s n => Register r i s n | OpRecord i s => RecordIssuance r i s end.
Definition op_pair (o : Op) : string * string := match o with OpRegister i s _ | OpRecord i s => (i, s) end.
Definition issuances (i s : string) (ops : list Op) : nat :=
  length (filter (λ o, o = OpRecord i s) ops).

(** What the registry promises of a pair: the name of its first registration, if that
    came before any issuance, and the number of issuances. *)
Definition spec_name (i s : string) (ops : list Op) : string :=
  match filter (λ o, op_pair o = (i, s)) ops with OpRegister _ _ n :: _ => n | _ => "" end.
Definition spec_entry (i s : string) (ops : list Op) : option Entry :=
  if bool_decide ((i, s) ∈ op_pair <$> ops) then
    Some (mkEntry i s (spec_name i s ops) (Z.of_nat (issuances i s ops)))
  else None.
Definition no_colon (s : string) : Prop := x3a ∉ bytes_of s.

Lemma app_split_inj (x : byte) a b a' b' : x ∉ b → x ∉ b' → a ++ x :: b = a' ++ x :: b' → a = a' ∧ b = b'.
Proof.
  intros Hb Hb' E. apply app_eq_inv in E as [[[|y k] [Ea El]]|[[|y k] [Ea El]]]; cbn [app] in El.
  - injection El as ->. by rewrite app_nil_r in Ea.
  - injection El as <- ->. set_solver.
  - injection El as ->. by rewrite app_nil_r in Ea.
  - injection El as <- ->. set_solver.
Qed.
Lemma key_inj i s i' s' : no_colon s → no_colon s' → key i s = key i' s' → (i, s) = (i', s').
Proof.
  intros Hs Hs' E. apply (f_equal bytes_of) in E. unfold key in E. rewrite !bytes_of_append in E.
  change (bytes_of ":") with [x3a] in E. cbn [app] in E. apply app_split_inj in E as [E1 E2]; [|done..].
  apply bytes_of_inj in E1, E2. by subst.
Qed.

Lemma issuances_snoc i s ops o : issuances i s (ops ++ [o]) = issuances i s ops + (if decide (o = OpRecord i s) then 1 else 0).
Proof. unfold issuances. rewrite filter_app, length_app, filter_cons. by destruct (decide _). Qed.
Lemma spec_name_snoc i s ops o :
  spec_name i s (ops ++ [o]) =
    if bool_decide ((i, s) ∈ op_pair <$> ops) then spec_name i s ops
    else match o with OpRegister i' s' n => if decide ((i', s') = (i, s)) then n else "" | _ => "" end.
Proof.
  unfold spec_name. rewrite filter_app. case_bool_decide as Hin.
  - apply list_elem_of_fmap in Hin as (o' & Ho' & Hin).
    destruct (filter _ ops) as [|o1 l] eqn:E; [|done].
    exfalso. apply (not_elem_of_nil o'). rewrite <-E. by apply list_elem_of_filter.
  - destruct (filter _ ops) as [|o1 l] eqn:E.
    + cbn [app]. rewrite filter_cons. destruct o; cbn [op_pair]; case_decide; done.
    + exfalso. apply Hin, list_elem_of_fmap. exists o1.
      assert (o1 ∈ filter (λ o, op_pair o = (i, s)) ops) as [Hp Ho]%list_elem_of_filter by (rewrite E; left). done.
Qed.
Lemma spec_entry_snoc i s ops o :
  spec_entry i s (ops ++ [o]) =
    if decide (op_pair o = (i, s)) then
      let e := match spec_entry i s ops with
               | Some e => e
               | None => mkEntry i s (match o with OpRegister _ _ n => n | _ => "" end) 0
               end in
      Some (match o with
            | OpRegister _ _ _ => e
            | OpRecord _ _ => mkEntry (en_IssuerDID e) (en_SchemaID e) (en_SchemaName e) (en_IssuedCount e + 1)
            end)
    else spec_entry i s ops.
Proof.
  unfold spec_entry. rewrite fmap_app, issuances_snoc, spec_name_snoc.
  assert ((i, s) ∉ op_pair <$> ops → issuances i s ops = 0) as H0.
  { intros Hn. unfold issuances. destruct (filter _ ops) as [|o1 l] eqn:E; [done|]. exfalso. apply Hn.
    assert (o1 ∈ filter (λ o, o = OpRecord i s) ops) as [-> Ho]%list_elem_of_filter by (rewrite E; left).
    apply list_elem_of_fmap. by exists (OpRecord i s). }
  destruct (decide (op_pair o = (i, s))) as [Ho|Ho].
  - rewrite (bool_decide_eq_true_2 ((i, s) ∈ _)) by set_solver.
    destruct o as [i' s' n|i' s']; cbn in Ho; injection Ho as -> ->; cbn [op_pair].
    + rewrite (decide_False (P := OpRegister i s n = OpRecord i s)) by done.
      case_bool_decide as Hin; cbn [en_IssuerDID]; [by rewrite Nat.add_0_r|]. rewrite decide_True by done. by rewrite (H0 Hin).
    + rewrite (decide_True (P := OpRecord i s = OpRecord i s)) by done.
      case_bool_decide as Hin; cbn [en_IssuerDID en_SchemaID en_SchemaName en_IssuedCount]; [by rewrite Nat2Z.inj_add|by rewrite (H0 Hin)].
  - assert (o ≠ OpRecord i s) as Hr by (by intros ->). rewrite (decide_False (P := o = OpRecord i s)) by done.
    rewrite !(bool_decide_ext ((i, s) ∈ (op_pair <$> ops) ++ [op_pair o]) ((i, s) ∈ op_pair <$> ops)) by set_solver.
    case_bool_decide as Hin; [|done]. by rewrite Nat.add_0_r.
Qed.

Definition run (ops : list Op) : Registry := foldl step New ops.
Definition op_ok (o : Op) : Prop := no_colon (op_pair o).2.

Lemma issuances_le i s ops : issuances i s ops ≤ length ops.
Proof. apply length_filter. Qed.
Lemma run_snoc ops o : run (ops ++ [o]) = step (run ops) o.
Proof. unfold run. by rewrite foldl_app. Qed.

Lemma run_lookup ops i s :
  Forall op_ok ops → (Z.of_nat (length ops) < 2 ^ 63)%Z → no_colon s → run ops !! key i s = spec_entry i s ops.
Proof.
  intros Hok Hlen Hs. induction ops as [|o ops IH] using rev_ind; [done|].
  apply Forall_app in Hok as [Hok [Ho _]%Forall_cons]. rewrite length_app in Hlen. cbn in Hlen.
  specialize (IH Hok ltac:(lia)). rewrite run_snoc, spec_entry_snoc.
  pose proof (issuances_le i s ops) as Hle.
  destruct (decide (op_pair o = (i, s))) as [Hp|Hp].
  - destruct o as [i' s' n|i' s']; cbn in Hp; injection Hp as -> ->; cbn [step].
    + unfold Register. rewrite IH. destruct (spec_entry i s ops); [done|]. apply lookup_insert_eq.
    + unfold RecordIssuance. cbv zeta. etrans; [apply lookup_insert_eq|]. rewrite IH. unfold spec_entry. f_equal.
      case_bool_decide; cbn [en_IssuerDID en_SchemaID en_SchemaName en_IssuedCount]; f_equal;
        unfold int64; rewrite Z.mod_small; lia.
  - assert (key i s ≠ key (op_pair o).1 (op_pair o).2) as Hk.
    { intros E. apply key_inj in E; [|done..]. apply Hp. by destruct (op_pair o). }
    rewrite <-IH. destruct o as [i' s' n|i' s']; cbn [step op_pair fst snd] in *.
    + unfold Register. destruct (run ops !! key i' s'); [done|]. by apply lookup_insert_ne.
    + unfold RecordIssuance. cbv zeta. by apply lookup_insert_ne.
Qed.

(** Every entry sits under the key of its pair, which some operation named. *)
Definition keyed (ops : list Op) (r : Registry) : Prop :=
  ∀ k e, r !! k = Some e → k = key (en_IssuerDID e) (en_SchemaID e) ∧ (en_IssuerDID e, en_SchemaID e) ∈ op_pair <$> ops.
Lemma run_keyed ops : keyed ops (run ops).
Proof.
  induction ops as [|o ops IH] using rev_ind; [intros k e; unfold run, New; cbn [foldl]; intros He; by apply lookup_empty_Some in He|].
  rewrite run_snoc. intros k e He. rewrite fmap_app, elem_of_app.
  destruct o as [i s n|i s]; cbn [step] in He.
  - unfold Register in He. destruct (run ops !! key i s) as [e'|] eqn:E; [destruct (IH _ _ He); by auto|].
    apply lookup_insert_Some in He as [[<- <-]|[_ He]]; [|destruct (IH _ _ He); by auto].
    split; [done|right; by left].
  - unfold RecordIssuance in He. cbv zeta in He. apply lookup_insert_Some in He as [[<- <-]|[_ He]]; [|destruct (IH _ _ He); by auto].
    destruct (run ops !! key i s) as [e'|] eqn:E; cbn; [destruct (IH _ _ E); by auto|split; [done|right; by left]].
Qed.

(** The registry refines a table of pairs: when no schema identifier contains a colon,
    what it lists after any operations is one entry for each issuer and schema that an
    operation named, with its first registered name and the number of its issuances. *)
Theorem marketplace_refines_table ops :
  Forall op_ok ops → (Z.of_nat (length ops) < 2 ^ 63)%Z →
  List (run ops) ≡ₚ omap (λ p, spec_entry p.1 p.2 ops) (remove_dups (op_pair <$> ops)).
Proof.
  intros Hok Hlen. pose proof (run_keyed ops) as Hkey.
  assert (∀ p, p ∈ op_pair <$> ops → no_colon p.2) as Hcol.
  { intros p (o & -> & Ho)%list_elem_of_fmap. rewrite Forall_forall in Hok. by apply Hok. }
  apply NoDup_Permutation.
  - unfold List. apply NoDup_fmap_2_strong; [|apply NoDup_map_to_list].
    intros [k e] [k' e'] H1%elem_of_map_to_list H2%elem_of_map_to_list. cbn. intros <-.
    destruct (Hkey _ _ H1) as [-> _], (Hkey _ _ H2) as [-> _]. done.
  - assert (∀ p q e, spec_entry p.1 p.2 ops = Some e → spec_entry q.1 q.2 ops = Some e → p = q) as Hinj.
    { intros [i s] [i' s'] e. unfold spec_entry. cbn. do 2 case_bool_decide; try done. congruence. }
    generalize (NoDup_remove_dups (op_pair <$> ops)). generalize (remove_dups (op_pair <$> ops)). intros l Hl.
    induction Hl as [|p l Hp Hl IHl]; cbn [omap list_omap]; [constructor|].
    destruct (spec_entry p.1 p.2 ops) as [e|] eqn:E; [|done]. constructor; [|done].
    intros (q & Hq & Eq)%list_elem_of_omap. by rewrite (Hinj p q e E Eq) in Hp.
  - intros e. unfold List. rewrite list_elem_of_fmap, list_elem_of_omap. split.
    + intros ([k e'] & -> & He%elem_of_map_to_list). destruct (Hkey _ _ He) as [-> Hin].
      exists (en_IssuerDID e', en_SchemaID e'). rewrite elem_of_remove_dups. split; [done|]. cbn.
      rewrite <-run_lookup; try done. by apply (Hcol _ Hin).
    + intros ([i s] & Hin & He). apply (proj1 (elem_of_remove_dups _ _)) in Hin. exists (key i s, e). split; [done|].
      apply elem_of_map_to_list. rewrite run_lookup; try done. by apply (Hcol _ Hin).
Qed.
Lemma marketplace_refines_table_witness :
  let ops := [OpRecord "did:web:a" "identity.name"; OpRegister "did:web:a" "identity.name" "Name"; OpRecord "did:web:a" "identity.name"] in
  List (run ops) ≡ₚ [mkEntry "did:web:a" "identity.name" "" 2].
Proof.
  intros ops. change [mkEntry "did:web:a" "identity.name" "" 2] with
    (omap (λ p, spec_entry p.1 p.2 ops) (remove_dups (op_pair <$> ops))).
  apply (marketplace_refines_table ops); [|vm_compute; done].
  repeat constructor; unfold op_ok, no_colon; cbn; set_solver.
Defined.

(** Identifiers with colons collide: two pairs with one text share one entry. *)
Lemma colliding_pairs : List (run [OpRecord "did:web:a" "b:c"; OpRecord "did:web:a:b" "c"]) = [mkEntry "did:web:a" "b:c" "" 2].
Proof. vm_compute. reflexivity. Qed.
End Marketplace.
