(* ===== verification/StatusList.v ===== *)
(** * Credential revocation: the bitstring status list (pkg/vc/status.go)

    One bit per credential.  The list is refined by a finite set of revoked
    indices: every sequence of [Revoke] and [Unrevoke] calls keeps the bits equal
    to the set the calls describe, and a verifier that reads the published
    bitstring sees the same set.  gzip is a parameter of the development. *)

From S2P Require Import Prelude GoStd Base64.

(** compress/gzip, as the code uses it: [gz_read] reads a whole stream. *)
Class Gzip := {
  gz_write : list byte → list byte;
  gz_read : list byte → option (list byte);
}.
(** Its documented behaviour: reading back what was written. *)
Class GzipOk `{Gzip} : Prop := { gz_read_write bs : gz_read (gz_write bs) = Some bs }.

Module StatusList.
Local Open Scope Z_scope.

Definition StatusListMinSize : Z := 131072.

Record StatusList := mkStatusList { sl_id : string; sl_bits : list byte; sl_size : Z }.

(** Signed 64-bit arithmetic wraps. *)
Definition int64 (z : Z) : Z := (z + 2 ^ 63) mod 2 ^ 64 - 2 ^ 63.
(** The largest allocation of the runtime on a 64-bit system, in bytes. *)
Definition maxAlloc : Z := 2 ^ 48.
(** [None]: [make] panics, the length being negative or over what the runtime allocates. *)
Definition NewStatusList (id : string) (size : Z) : option StatusList :=
  let size := if size <? StatusListMinSize then StatusListMinSize else size in
  let byteLen := Z.quot (int64 (size + 7)) 8 in
  if (byteLen <? 0) || (maxAlloc <? byteLen) then None
  else Some (mkStatusList id (replicate (Z.to_nat byteLen) x00) (byteLen * 8)).

Definition checkIndex (s : StatusList) (index : Z) : result unit :=
  if (index <? 0) || (sl_size s <=? index) then Err (ErrMsg "status list: index out of range")
  else Ok tt.

(** [1 << (uint(index) % 8)] and the byte it selects. *)
Definition mask (index : Z) : byte := bshl x01 (Z.to_N (index mod 8)).
Definition byte_pos (index : Z) : nat := Z.to_nat (index / 8).

Definition Revoke (s : StatusList) (index : Z) : result StatusList :=
  _ ← checkIndex s index;
  Ok (mkStatusList (sl_id s)
        (alter (λ b, bor b (mask index)) (byte_pos index) (sl_bits s)) (sl_size s)).

Definition Unrevoke (s : StatusList) (index : Z) : result StatusList :=
  _ ← checkIndex s index;
  Ok (mkStatusList (sl_id s)
        (alter (λ b, bandnot b (mask index)) (byte_pos index) (sl_bits s)) (sl_size s)).

Definition IsRevoked (s : StatusList) (index : Z) : result bool :=
  _ ← checkIndex s index;
  Ok (negb (beqb (band (nth (byte_pos index) (sl_bits s) x00) (mask index)) x00)).

Record CredentialStatus := mkCredentialStatus {
  cs_ID : string; cs_Type : string; cs_StatusPurpose : string;
  cs_StatusListIndex : Z; cs_StatusListCredential : string }.

(** [CheckStatus] divides the index as a signed integer, rounding to zero, and
    tests only the upper bound: [None] is the run-time panic of a negative
    subscript. *)
Definition CheckStatus (bits : list byte) (status : option CredentialStatus) : option (result unit) :=
  match status with
  | None => Some (Ok tt)
  | Some st =>
      let idx := cs_StatusListIndex st in
      let byteIdx := Z.quot idx 8 in
      let bitIdx := Z.to_N (idx mod 8) in
      if Z.of_nat (length bits) <=? byteIdx then
        Some (Err (ErrMsg "status list: index out of range"))
      else if byteIdx <? 0 then None
      else if beqb (band (nth (Z.to_nat byteIdx) bits x00) (bshl x01 bitIdx)) x00 then Some (Ok tt)
      else Some (Err (ErrMsg "credential is revoked"))
  end.

Section Publication.
Context `{Gzip}.
Definition EncodedList (s : StatusList) : string :=
  Base64.EncodeToString (gz_write (sl_bits s)).
(** The reader is limited to 16 MiB; what is beyond is dropped. *)
Definition ParseEncodedList (encoded : string) : result (list byte) :=
  match Base64.DecodeString encoded with
  | None => Err (ErrMsg "status list: base64 decode")
  | Some compressed =>
      match gz_read compressed with
      | None => Err (ErrMsg "status list: gzip read")
      | Some bits => Ok (take (Z.to_nat (16 * 2 ^ 20)) bits)
      end
  end.
End Publication.

(** ** The bit of an index *)

Definition bit (bits : list byte) (i : Z) : bool :=
  N.testbit (bval (nth (byte_pos i) bits x00)) (Z.to_N (i mod 8)).

Lemma mod8_lt i : (Z.to_N (i mod 8) < 8)%N.
Proof. pose proof (Z.mod_pos_bound i 8). lia. Qed.

Lemma byte_testbit n k : (k < 8)%N → N.testbit (bval (byte_of_N n)) k = N.testbit n k.
Proof. intros Hk. rewrite bval_byte_of_N. by apply (N.mod_pow2_bits_low n 8). Qed.

Lemma mask_testbit i k : (k < 8)%N →
  N.testbit (bval (mask i)) k = bool_decide (k = Z.to_N (i mod 8)).
Proof.
  intros Hk. unfold mask, bshl. rewrite byte_testbit by done.
  change (bval x01) with 1%N. rewrite N.shiftl_1_l, N.pow2_bits_eqb.
  destruct (N.eqb_spec (Z.to_N (i mod 8)) k); case_bool_decide; congruence.
Qed.

Lemma band_mask_zero b i :
  beqb (band b (mask i)) x00 = negb (N.testbit (bval b) (Z.to_N (i mod 8))).
Proof.
  assert (∀ k, (k < 8)%N → N.testbit (bval (band b (mask i))) k =
    N.testbit (bval b) k && bool_decide (k = Z.to_N (i mod 8))) as Hk.
  { intros k Hk. unfold band. by rewrite byte_testbit, N.land_spec, mask_testbit. }
  pose proof (mod8_lt i) as Hm. destruct (N.testbit (bval b) (Z.to_N (i mod 8))) eqn:Hb; simpl.
  - specialize (Hk _ Hm). rewrite Hb, bool_decide_true in Hk by done.
    destruct (beqb_spec (band b (mask i)) x00) as [E|]; [|done]. by rewrite E in Hk.
  - destruct (beqb_spec (band b (mask i)) x00) as [|E]; [done|]. destruct E.
    apply bval_inj, N.bits_inj. intros k. change (bval x00) with 0%N. rewrite N.bits_0.
    destruct (N.lt_ge_cases k 8) as [Hlt|Hge].
    + rewrite Hk by done. case_bool_decide; [subst; by rewrite Hb|by rewrite andb_false_r].
    + apply N.bits_above_log2. destruct (N.eq_dec (bval (band b (mask i))) 0%N) as [->|Hnz]; [simpl; lia|].
      pose proof (bval_lt (band b (mask i))). apply N.log2_lt_pow2; [lia|].
      eapply N.lt_le_trans; [done|]. change 256%N with (2 ^ 8)%N. by apply N.pow_le_mono_r.
Qed.

Lemma IsRevoked_bit s i : 0 ≤ i < sl_size s → IsRevoked s i = Ok (bit (sl_bits s) i).
Proof.
  intros Hi. unfold IsRevoked, checkIndex.
  replace ((i <? 0) || (sl_size s <=? i)) with false by lia. simpl.
  by rewrite band_mask_zero, negb_involutive.
Qed.

(** Distinct indices differ in their byte or in their bit. *)
Lemma index_split i j : 0 ≤ i → 0 ≤ j → byte_pos i = byte_pos j → i mod 8 = j mod 8 → i = j.
Proof.
  unfold byte_pos. intros Hi Hj Hp Hm.
  assert (i / 8 = j / 8) as Hq.
  { apply Z2Nat.inj; [by apply Z.div_pos|by apply Z.div_pos|done]. }
  rewrite (Z.div_mod i 8), (Z.div_mod j 8) by lia. congruence.
Qed.

(** A byte operation that touches only the bits of its mask. *)
Lemma bit_alter (f : byte → byte → byte) (upd : bool → bool) bits i j :
  (∀ b m k, (k < 8)%N → N.testbit (bval (f b m)) k =
     if N.testbit (bval m) k then upd (N.testbit (bval b) k) else N.testbit (bval b) k) →
  0 ≤ i → 0 ≤ j → (byte_pos i < length bits)%nat →
  bit (alter (λ b, f b (mask i)) (byte_pos i) bits) j =
  if bool_decide (j = i) then upd (bit bits j) else bit bits j.
Proof.
  intros Hf Hi Hj Hlen. unfold bit. rewrite !nth_lookup.
  destruct (decide (byte_pos j = byte_pos i)) as [Hp|Hp].
  - rewrite Hp, list_lookup_alter_eq. destruct (lookup_lt_is_Some_2 bits (byte_pos i)) as [b Hb]; [done|].
    rewrite Hb. simpl. rewrite Hf, mask_testbit by apply mod8_lt.
    case_bool_decide as H1; case_bool_decide as H2; try done.
    + destruct H2. apply index_split; [done..|].
      pose proof (Z.mod_pos_bound i 8). pose proof (Z.mod_pos_bound j 8). lia.
    + destruct H1. by subst.
  - rewrite list_lookup_alter_ne by done. case_bool_decide; [congruence|done].
Qed.

Lemma bor_bits b m k : (k < 8)%N → N.testbit (bval (bor b m)) k =
  if N.testbit (bval m) k then true else N.testbit (bval b) k.
Proof.
  intros Hk. unfold bor. rewrite byte_testbit, N.lor_spec by done.
  destruct (N.testbit (bval m) k); [by rewrite orb_true_r|by rewrite orb_false_r].
Qed.
Lemma bandnot_bits b m k : (k < 8)%N → N.testbit (bval (bandnot b m)) k =
  if N.testbit (bval m) k then false else N.testbit (bval b) k.
Proof.
  intros Hk. unfold bandnot. rewrite byte_testbit, N.ldiff_spec by done.
  destruct (N.testbit (bval m) k); [by rewrite andb_false_r|by rewrite andb_true_r].
Qed.

(** ** Refinement of a finite set *)

(** The declared size is what the bits hold. *)
Definition wf (s : StatusList) : Prop := sl_size s = 8 * Z.of_nat (length (sl_bits s)).
(** The bits are the characteristic function of [R]. *)
Definition represents (s : StatusList) (R : gset Z) : Prop :=
  wf s ∧ ∀ i, 0 ≤ i < sl_size s → bit (sl_bits s) i = bool_decide (i ∈ R).

Inductive op := OpRevoke (index : Z) | OpUnrevoke (index : Z).
Definition run_op (s : StatusList) (o : op) : StatusList :=
  match o with
  | OpRevoke i => match Revoke s i with Ok s' => s' | Err _ => s end
  | OpUnrevoke i => match Unrevoke s i with Ok s' => s' | Err _ => s end
  end.
Definition spec_op (size : Z) (R : gset Z) (o : op) : gset Z :=
  match o with
  | OpRevoke i => if bool_decide (0 ≤ i < size) then {[i]} ∪ R else R
  | OpUnrevoke i => if bool_decide (0 ≤ i < size) then R ∖ {[i]} else R
  end.

Lemma byte_pos_lt s i : wf s → 0 ≤ i < sl_size s → (byte_pos i < length (sl_bits s))%nat.
Proof.
  unfold wf, byte_pos. intros -> Hi.
  assert (i / 8 < Z.of_nat (length (sl_bits s))) by (apply Z.div_lt_upper_bound; lia).
  pose proof (Z.div_pos i 8). lia.
Qed.

Lemma checkIndex_spec s i :
  checkIndex s i = if bool_decide (0 ≤ i < sl_size s) then Ok tt
                   else Err (ErrMsg "status list: index out of range").
Proof.
  unfold checkIndex. case_bool_decide as H.
  - by replace ((i <? 0) || (sl_size s <=? i)) with false by lia.
  - by replace ((i <? 0) || (sl_size s <=? i)) with true by lia.
Qed.

Lemma alter_represents (f : byte → byte → byte) (b : bool) s i (R R' : gset Z) :
  (∀ x m k, (k < 8)%N → N.testbit (bval (f x m)) k =
     if N.testbit (bval m) k then b else N.testbit (bval x) k) →
  (∀ j, bool_decide (j ∈ R') = if bool_decide (j = i) then b else bool_decide (j ∈ R)) →
  represents s R → 0 ≤ i < sl_size s →
  represents (mkStatusList (sl_id s) (alter (λ x, f x (mask i)) (byte_pos i) (sl_bits s)) (sl_size s)) R'.
Proof.
  intros Hf HR [Hwf Hb] Hi. split; [unfold wf in *; simpl; by rewrite length_alter|].
  simpl. intros j Hj.
  rewrite (bit_alter f (λ _, b)); [|done|lia|lia|by apply byte_pos_lt].
  by rewrite HR, Hb.
Qed.

Lemma run_op_represents s R o :
  represents s R → represents (run_op s o) (spec_op (sl_size s) R o).
Proof.
  intros HR. destruct o as [i|i]; simpl; unfold Revoke, Unrevoke;
    rewrite checkIndex_spec; (case_bool_decide as Hi; [|done]); simpl.
  - apply (alter_represents _ true _ _ R); [apply bor_bits| |done..].
    intros j. repeat case_bool_decide; set_solver.
  - apply (alter_represents _ false _ _ R); [apply bandnot_bits| |done..].
    intros j. repeat case_bool_decide; set_solver.
Qed.

Lemma run_op_size s o : sl_size (run_op s o) = sl_size s.
Proof.
  destruct o; simpl; unfold Revoke, Unrevoke; by destruct (checkIndex s index).
Qed.

Lemma NewStatusList_represents id size s :
  NewStatusList id size = Some s → represents s ∅.
Proof.
  unfold NewStatusList. set (n := Z.quot _ 8). destruct (Z.ltb_spec n 0); [done|].
  destruct (Z.ltb_spec maxAlloc n); [done|]. cbn [orb]. intros [= <-]. split.
  - unfold wf. cbn [sl_bits sl_size]. rewrite length_replicate. lia.
  - cbn [sl_bits sl_size]. intros i _. rewrite bool_decide_false by set_solver. unfold bit.
    assert (nth (byte_pos i) (replicate (Z.to_nat n) x00) x00 = x00) as ->.
    { rewrite nth_lookup. destruct (replicate _ x00 !! byte_pos i) as [b|] eqn:Hb; [|done].
      by apply lookup_replicate in Hb as [-> _]. }
    apply N.bits_0.
Qed.

Lemma int64_id z : - 2 ^ 63 ≤ z < 2 ^ 63 → int64 z = z.
Proof. intros Hz. unfold int64. rewrite Z.mod_small by lia. lia. Qed.
Lemma int64_over z : 2 ^ 63 ≤ z < 2 ^ 64 → int64 z = z - 2 ^ 64.
Proof.
  intros Hz. unfold int64. replace (z + 2 ^ 63) with (z - 2 ^ 63 + 1 * 2 ^ 64) by lia.
  rewrite Z.mod_add by lia. rewrite Z.mod_small; lia.
Qed.

Lemma NewStatusList_size id size :
  - 2 ^ 63 ≤ size < 2 ^ 63 →
  match NewStatusList id size with
  | None => 8 * maxAlloc < size
  | Some s => size ≤ sl_size s ∧ StatusListMinSize ≤ sl_size s
  end.
Proof.
  intros Hr. unfold NewStatusList. set (sz := if size <? StatusListMinSize then _ else size).
  assert (size ≤ sz ∧ StatusListMinSize ≤ sz < 2 ^ 63 ∧ (StatusListMinSize < sz → sz = size)) as (? & ? & Hsz)
    by (unfold sz, StatusListMinSize; destruct (Z.ltb_spec size 131072); lia).
  unfold StatusListMinSize, maxAlloc in *. destruct (Z.le_gt_cases (2 ^ 63) (sz + 7)).
  - rewrite int64_over by lia.
    assert (Z.quot (sz + 7 - 2 ^ 64) 8 < 0) as ->%Z.ltb_lt; [|cbn [orb]; lia].
    replace (sz + 7 - 2 ^ 64) with (- (2 ^ 64 - sz - 7)) by lia. rewrite Z.quot_opp_l by lia.
    rewrite Z.quot_div_nonneg by lia. pose proof (Z.div_le_mono 8 (2 ^ 64 - sz - 7) 8 ltac:(lia) ltac:(lia)).
    change (8 / 8) with 1 in *. lia.
  - rewrite int64_id by lia. rewrite Z.quot_div_nonneg by lia.
    pose proof (Z.div_mod (sz + 7) 8 ltac:(lia)). pose proof (Z.mod_pos_bound (sz + 7) 8 ltac:(lia)).
    destruct (Z.ltb_spec ((sz + 7) / 8) 0); [lia|]. cbn [orb].
    destruct (Z.ltb_spec (2 ^ 48) ((sz + 7) / 8)); cbn [sl_size]; lia.
Qed.

Lemma run_ops_represents ops s R :
  represents s R →
  represents (foldl run_op s ops) (foldl (spec_op (sl_size s)) R ops) ∧
  sl_size (foldl run_op s ops) = sl_size s.
Proof.
  revert s R. induction ops as [|o ops IH]; intros s R HR; [done|]. simpl.
  rewrite <-(run_op_size s o). apply IH. rewrite run_op_size. by apply run_op_represents.
Qed.

(** C15: Refinement: after any sequence of [Revoke] and [Unrevoke] calls on a
    fresh list, [IsRevoked] answers membership in the set those calls describe,
    for every index of the list, and an error for every other index.  The list has
    at least the size asked for; only a size beyond what the runtime can allocate
    makes the constructor panic. *)
Theorem status_list_refines_set (id : string) (size : Z) (ops : list op) (i : Z) :
  - 2 ^ 63 ≤ size < 2 ^ 63 →
  match NewStatusList id size with
  | None => 8 * maxAlloc < size
  | Some s0 =>
      let s := foldl run_op s0 ops in
      let n := sl_size s0 in
      let R := foldl (spec_op n) ∅ ops in
      size ≤ n ∧ StatusListMinSize ≤ n ∧
      IsRevoked s i =
        if bool_decide (0 ≤ i < n) then Ok (bool_decide (i ∈ R))
        else Err (ErrMsg "status list: index out of range")
  end.
Proof.
  intros Hr. pose proof (NewStatusList_size id size Hr) as Hn.
  destruct (NewStatusList id size) as [s0|] eqn:E; [|done]. destruct Hn as [Hs Hm].
  cbv zeta. split; [done|]. split; [done|].
  destruct (run_ops_represents ops _ _ (NewStatusList_represents id size s0 E)) as [[_ HR] Hsz].
  destruct (decide (0 ≤ i < sl_size s0)) as [Hi|Hi].
  - rewrite bool_decide_true by done. rewrite IsRevoked_bit by (by rewrite Hsz).
    rewrite HR by (by rewrite Hsz). done.
  - rewrite bool_decide_false by done. unfold IsRevoked. rewrite checkIndex_spec.
    rewrite bool_decide_false by (by rewrite Hsz). done.
Qed.

(** A verifier that decodes the published list and runs [CheckStatus] on a
    credential's entry rejects exactly the revoked credentials, for a list of
    any size up to the reader's 16 MiB limit. *)
Theorem published_status_agrees `{GzipOk} (s : StatusList) (R : gset Z) (st : CredentialStatus) :
  represents s R → Z.of_nat (length (sl_bits s)) ≤ 16 * 2 ^ 20 →
  0 ≤ cs_StatusListIndex st < sl_size s →
  ∃ bits, ParseEncodedList (EncodedList s) = Ok bits ∧
    CheckStatus bits (Some st) =
      Some (if bool_decide (cs_StatusListIndex st ∈ R) then Err (ErrMsg "credential is revoked") else Ok tt).
Proof.
  intros [Hwf HR] Hlen Hi. exists (sl_bits s). split.
  - unfold ParseEncodedList, EncodedList.
    rewrite Base64.DecodeString_EncodeToString, gz_read_write, take_ge by lia. done.
  - pose proof (byte_pos_lt s _ Hwf Hi) as Hp. unfold byte_pos in Hp. unfold CheckStatus.
    rewrite Z.quot_div_nonneg by lia. pose proof (Z.div_pos (cs_StatusListIndex st) 8).
    replace (Z.of_nat (length (sl_bits s)) <=? _) with false by lia.
    replace (_ <? 0) with false by lia. rewrite <-HR by done.
    change (bshl x01 (Z.to_N (cs_StatusListIndex st mod 8))) with (mask (cs_StatusListIndex st)).
    rewrite band_mask_zero. unfold bit, byte_pos. by destruct (N.testbit _ _).
Qed.

(** A credential whose status entry carries an index below -7 makes
    [CheckStatus] panic, whatever the bitstring; indices -7..-1 are looked up in
    the first byte although the list itself rejects them. *)
Theorem CheckStatus_negative (bits : list byte) (st : CredentialStatus) :
  cs_StatusListIndex st < 0 → bits ≠ [] →
  (CheckStatus bits (Some st) = None ↔ cs_StatusListIndex st ≤ -8) ∧
  (∀ s, IsRevoked s (cs_StatusListIndex st) = Err (ErrMsg "status list: index out of range")).
Proof.
  intros Hneg Hne. split.
  - unfold CheckStatus. set (i := cs_StatusListIndex st) in *.
    assert (0 < length bits)%nat by (destruct bits; [done|simpl; lia]).
    pose proof (Z.quot_rem' i 8) as Hq. pose proof (Z.rem_bound_abs i 8 ltac:(lia)) as Hr. pose proof (Z.rem_nonpos i 8 ltac:(lia) ltac:(lia)) as Hn.
    replace (Z.of_nat (length bits) <=? i ÷ 8) with false by lia.
    destruct (Z.ltb_spec (i ÷ 8) 0); [split; [lia|done]|].
    split; [by destruct (beqb _ _)|lia].
  - intros s. unfold IsRevoked. rewrite checkIndex_spec, bool_decide_false by lia. done.
Qed.

(** ** Witnesses *)

(** A stand-in stream format: the identity. *)
Definition id_gzip : Gzip := {| gz_write := id; gz_read := Some |}.
Lemma id_gzip_ok : @GzipOk id_gzip.
Proof. by constructor. Qed.

Definition small_list : StatusList := mkStatusList "urn:list" [x00; x04] 16.
Definition entry (i : Z) : CredentialStatus :=
  mkCredentialStatus "urn:entry" "BitstringStatusListEntry" "revocation" i "urn:list".

Lemma status_list_refines_set_witness :
  match NewStatusList "urn:list" 20 with
  | None => 8 * maxAlloc < 20
  | Some s0 =>
      let s := foldl run_op s0 [OpRevoke 5; OpRevoke 6; OpUnrevoke 5] in
      let n := sl_size s0 in
      let R := foldl (spec_op n) ∅ [OpRevoke 5; OpRevoke 6; OpUnrevoke 5] in
      20 ≤ n ∧ StatusListMinSize ≤ n ∧
      IsRevoked s 6 =
        if bool_decide (0 ≤ 6 < n) then Ok (bool_decide (6 ∈ R))
        else Err (ErrMsg "status list: index out of range")
  end.
Proof. apply (status_list_refines_set "urn:list" 20 [OpRevoke 5; OpRevoke 6; OpUnrevoke 5] 6). lia. Defined.

Lemma published_status_agrees_witness :
  ∃ bits, @ParseEncodedList id_gzip (@EncodedList id_gzip small_list) = Ok bits ∧
    CheckStatus bits (Some (entry 10)) = Some (Err (ErrMsg "credential is revoked")).
Proof.
  destruct (@published_status_agrees id_gzip id_gzip_ok small_list {[10]} (entry 10))
    as (bits & Hp & Hc).
  - split; [reflexivity|]. intros i Hi. simpl in Hi.
    assert (forallb (λ k, Bool.eqb (bit (sl_bits small_list) (Z.of_nat k))
      (bool_decide (Z.of_nat k ∈ ({[10]} : gset Z)))) (seq 0 16) = true) as H by (vm_compute; reflexivity).
    rewrite forallb_elem_of in H. specialize (H (Z.to_nat i) ltac:(apply elem_of_seq; lia)).
    cbv beta in H. rewrite Z2Nat.id in H by lia. by apply Bool.eqb_prop in H.
  - vm_compute. discriminate.
  - simpl. lia.
  - exists bits. split; [exact Hp|]. rewrite bool_decide_true in Hc by (simpl; set_solver). exact Hc.
Defined.

Lemma CheckStatus_negative_witness :
  (CheckStatus [x00] (Some (entry (-9))) = None ↔ -9 ≤ -8) ∧
  (∀ s, IsRevoked s (-9) = Err (ErrMsg "status list: index out of range")).
Proof. apply (CheckStatus_negative [x00] (entry (-9))); [simpl; lia|done]. Defined.

End StatusList.
