(* ===== verification/Schema.v ===== *)
(** * The credential schema registry (pkg/schema/registry.go)

    Two maps guarded by a mutex: categories and schemas.  A schema is found by
    its identifier or by its versioned identifier "<id>-v<n>". *)

From S2P Require Import Prelude GoStd.

Module Schema.

Inductive Source := SourceCore | SourceCommunity | SourceThirdParty.
Record ClaimDefinition := mkClaimDefinition {
  cd_Name : string; cd_Type : string; cd_Required : bool; cd_Description : string }.
Record Category := mkCategory {
  cat_ID : string; cat_Name : string; cat_Description : string; cat_Icon : string }.
Record Schema := mkSchema {
  sch_ID : string;
  sch_CategoryID : string;
  sch_Name : string;
  sch_Description : string;
  sch_Version : Z;
  sch_ExtraSensitive : bool;
  sch_Claims : list ClaimDefinition;
  sch_Source : Source }.

(** The package's global state. *)
Record Registry := mkRegistry {
  categories : gmap string Category;
  schemas : gmap string Schema }.
Definition empty_registry : Registry := mkRegistry ∅ ∅.

Definition VersionedID (s : Schema) : string :=
  let v := if (sch_Version s <=? 0)%Z then 1%Z else sch_Version s in
  sch_ID s +s "-v" +s Itoa v.

(** [BaseID] and its unexported twin [baseID]. *)
Definition BaseID (id : string) : string :=
  match LastIndex id "-v" with
  | Some (S idx) =>
      let b := bytes_of id in
      match Atoi (str_of (drop (S idx + 2) b)) with
      | Some _ => str_of (take (S idx) b)
      | None => id
      end
  | _ => id
  end.

Definition RegisterCategory (c : Category) (r : Registry) : Registry :=
  mkRegistry (<[cat_ID c := c]> (categories r)) (schemas r).
(** [None]: the Go function panics on a duplicate identifier. *)
Definition RegisterSchema (s : Schema) (r : Registry) : option Registry :=
  match schemas r !! sch_ID s with
  | Some _ => None
  | None => Some (mkRegistry (categories r) (<[sch_ID s := s]> (schemas r)))
  end.

Definition GetSchema (r : Registry) (id : string) : result Schema :=
  match schemas r !! id with
  | Some s => Ok s
  | None =>
      let base := BaseID id in
      match (if base =s id then None else schemas r !! base) with
      | Some s => Ok s
      | None => Err (ErrMsg ("schema: not found: " +s id))
      end
  end.

Definition GetCategory (r : Registry) (id : string) : result Category :=
  of_option (ErrMsg ("schema: category not found: " +s id)) (categories r !! id).
Definition SchemasForCategory (r : Registry) (categoryID : string) : list Schema :=
  filter (λ s, sch_CategoryID s = categoryID) (snd <$> map_to_list (schemas r)).
Definition AllCategories (r : Registry) : list Category := snd <$> map_to_list (categories r).
Definition AllSchemas (r : Registry) : list Schema := snd <$> map_to_list (schemas r).
Definition IsExtraSensitive (r : Registry) (id : string) : bool :=
  match schemas r !! id with Some s => sch_ExtraSensitive s | None => false end.

(** Every schema is stored under its own identifier. *)
Definition registry_wf (r : Registry) : Prop :=
  (∀ id s, schemas r !! id = Some s → sch_ID s = id) ∧
  (∀ id c, categories r !! id = Some c → cat_ID c = id).

Lemma empty_registry_wf : registry_wf empty_registry.
Proof. split; intros ?? H; simpl in H; by rewrite lookup_empty in H. Qed.
Lemma RegisterSchema_wf s r r' : registry_wf r → RegisterSchema s r = Some r' → registry_wf r'.
Proof.
  intros [Hs Hc] H. unfold RegisterSchema in H. case_match; [done|]. injection H as <-.
  split; [|done]. simpl. intros id s' Hl. apply lookup_insert_Some in Hl as [[<- <-]|[_ ?]]; eauto.
Qed.
Lemma RegisterCategory_wf c r : registry_wf r → registry_wf (RegisterCategory c r).
Proof.
  intros [Hs Hc]. split; [done|]. simpl. intros id c' Hl.
  apply lookup_insert_Some in Hl as [[<- <-]|[_ ?]]; eauto.
Qed.

(** What [GetSchema] returns is registered under the identifier asked for or
    under its base. *)
Lemma GetSchema_ok r id s : registry_wf r → GetSchema r id = Ok s →
  schemas r !! sch_ID s = Some s ∧ (sch_ID s = id ∨ sch_ID s = BaseID id).
Proof.
  intros [Hs _] H. unfold GetSchema in H.
  destruct (schemas r !! id) as [s'|] eqn:E; simplify_eq.
  { pose proof (Hs _ _ E) as Hid. rewrite Hid. auto. }
  destruct (BaseID id =s id)%go; [done|].
  destruct (schemas r !! BaseID id) as [s'|] eqn:E'; simplify_eq.
  pose proof (Hs _ _ E') as Hid. rewrite Hid. auto.
Qed.

(** ** Versioned identifiers *)

Lemma BaseID_VersionedID s :
  sch_ID s ≠ "" → (sch_Version s < 2 ^ 63)%Z → BaseID (VersionedID s) = sch_ID s.
Proof.
  intros Hne Hv. unfold BaseID, VersionedID, LastIndex.
  set (v := if (sch_Version s <=? 0)%Z then 1%Z else sch_Version s).
  assert (0 ≤ v < 2 ^ 63)%Z as Hrange by (unfold v; destruct (Z.leb_spec (sch_Version s) 0); lia).
  rewrite !bytes_of_append. change (bytes_of "-v") with [x2d; x76].
  assert (blast_index [x2d; x76] ([x2d; x76] ++ bytes_of (Itoa v)) = Some 0) as Hl.
  { simpl. assert (blast_index [x2d; x76] (bytes_of (Itoa v)) = None) as ->; [|done].
    apply blast_index_none; [done|]. unfold Itoa. rewrite bytes_of_str_of, (proj2 (Z.ltb_ge v 0)) by lia.
    eapply Forall_impl; [apply nat_digits_digit; constructor|]. intros c Hc r. simpl.
    destruct (beqb_spec x2d c) as [<-|]; [|done]. by apply digit_not_dash in Hc. }
  apply (blast_index_app _ (bytes_of (sch_ID s))) in Hl. rewrite Hl, Nat.add_0_r.
  destruct (length (bytes_of (sch_ID s))) as [|n] eqn:Hlen.
  { destruct (bytes_of (sch_ID s)) eqn:Hb; [|done]. destruct Hne.
    by apply bytes_of_inj. }
  rewrite drop_app_ge by lia. rewrite Hlen. replace (S n + 2 - S n) with 2 by lia.
  change (drop 2 ([x2d; x76] ++ bytes_of (Itoa v))) with (drop 0 (bytes_of (Itoa v))).
  rewrite drop_0, str_of_bytes_of, Atoi_Itoa by done.
  by rewrite <-Hlen, take_app_length, str_of_bytes_of.
Qed.

(** A credential refers to its schema by the versioned identifier; looking
    that identifier up returns the registered schema, unless another schema was
    registered under the versioned identifier itself. *)
Theorem GetSchema_versioned (r : Registry) (s : Schema) :
  schemas r !! sch_ID s = Some s → sch_ID s ≠ "" → (sch_Version s < 2 ^ 63)%Z →
  schemas r !! VersionedID s = None →
  GetSchema r (VersionedID s) = Ok s ∧ GetSchema r (sch_ID s) = Ok s.
Proof.
  intros Hs Hne Hv Hnone. unfold GetSchema. rewrite Hnone, BaseID_VersionedID, Hs by done.
  split; [|done]. destruct (String.eqb_spec (sch_ID s) (VersionedID s)) as [Heq|]; [|done].
  congruence.
Qed.

Definition gp_records : Schema :=
  mkSchema "healthcare.gp-records" "healthcare" "GP records" "" 3 false [] SourceCore.
Lemma GetSchema_versioned_witness :
  VersionedID gp_records = "healthcare.gp-records-v3" ∧
  GetSchema (mkRegistry ∅ {["healthcare.gp-records" := gp_records]}) (VersionedID gp_records) = Ok gp_records ∧
  GetSchema (mkRegistry ∅ {["healthcare.gp-records" := gp_records]}) (sch_ID gp_records) = Ok gp_records.
Proof.
  split; [vm_compute; reflexivity|].
  apply (GetSchema_versioned (mkRegistry ∅ {["healthcare.gp-records" := gp_records]}) gp_records);
    [reflexivity|done|done|vm_compute; reflexivity].
Defined.

End Schema.
