(* ===== verification/CoreSchemas.v ===== *)
(** * The built-in schemas (pkg/schema/core)

    The categories and schemas the package's init functions register, one list per
    file, and what the registry answers once they have run.  The descriptors leave the
    version out: it is zero, which [VersionedID] reads as one. *)

From S2P Require Import Prelude GoStd Schema.
Import Schema.

Module CoreSchemas.

(** ** civic *)
Definition civic_category : Category :=
  mkCategory "civic" "Civic & Government"
    "Electoral, taxation, government benefits, and business registration" "landmark".
Definition civic_schemas : list Schema := [
  mkSchema "civic.electoral-roll" "civic" "Electoral Roll"
    "" 0 false
      [mkClaimDefinition "electoralDistrict" "string" false "";
       mkClaimDefinition "maoriRollElector" "boolean" false "";
       mkClaimDefinition "enrolledDate" "date" false ""] SourceCore;
  mkSchema "civic.benefits-entitlements" "civic" "Government Benefit Entitlements"
    "" 0 false
      [mkClaimDefinition "benefitType" "string" true "";
       mkClaimDefinition "issuingAgency" "string" false "";
       mkClaimDefinition "validFrom" "date" false "";
       mkClaimDefinition "validTo" "date" false ""] SourceCore;
  mkSchema "civic.tax-filing" "civic" "Tax Filing Status"
    "" 0 false
      [mkClaimDefinition "taxYear" "string" true "";
       mkClaimDefinition "filingStatus" "string" false "";
       mkClaimDefinition "jurisdiction" "string" false ""] SourceCore;
  mkSchema "civic.business-registration" "civic" "Business Registration"
    "Companies Office (NZ) and equivalent registries" 0 false
      [mkClaimDefinition "companyNumber" "string" true "";
       mkClaimDefinition "companyName" "string" true "";
       mkClaimDefinition "registrationDate" "date" false "";
       mkClaimDefinition "companyStatus" "string" false "";
       mkClaimDefinition "nzbn" "string" false "New Zealand Business Number"] SourceCore].

(** ** education *)
Definition education_category : Category :=
  mkCategory "education" "Education"
    "Academic enrolments, transcripts, and qualifications" "graduation-cap".
Definition education_schemas : list Schema := [
  mkSchema "education.enrolments" "education" "Enrolments"
    "" 0 false
      [mkClaimDefinition "institution" "string" true "";
       mkClaimDefinition "programme" "string" false "";
       mkClaimDefinition "startDate" "date" false "";
       mkClaimDefinition "endDate" "date" false "";
       mkClaimDefinition "fullTime" "boolean" false ""] SourceCore;
  mkSchema "education.transcripts" "education" "Academic Transcripts"
    "" 0 false
      [mkClaimDefinition "institution" "string" true "";
       mkClaimDefinition "programme" "string" true "";
       mkClaimDefinition "gpa" "number" false "";
       mkClaimDefinition "completionDate" "date" false ""] SourceCore;
  mkSchema "education.qualifications" "education" "Academic Qualifications"
    "" 0 false
      [mkClaimDefinition "qualification" "string" true "";
       mkClaimDefinition "awardingInstitution" "string" true "";
       mkClaimDefinition "awardDate" "date" false ""] SourceCore;
  mkSchema "education.nzqa" "education" "NZQA Records (NZ)"
    "New Zealand Qualifications Authority records" 0 false
      [mkClaimDefinition "nzqaId" "string" true "";
       mkClaimDefinition "nzqfLevel" "number" false "";
       mkClaimDefinition "credits" "number" false ""] SourceCore].

(** ** finance *)
Definition finance_category : Category :=
  mkCategory "finance" "Finance"
    "Banking, income, tax, credit, and financial account credentials" "banknote".
Definition finance_schemas : list Schema := [
  mkSchema "finance.bank-account" "finance" "Bank Account"
    "" 0 false
      [mkClaimDefinition "bankName" "string" true "";
       mkClaimDefinition "accountNumber" "string" true "";
       mkClaimDefinition "accountType" "string" false "";
       mkClaimDefinition "currency" "string" false ""] SourceCore;
  mkSchema "finance.income" "finance" "Income Verification"
    "" 0 false
      [mkClaimDefinition "employerName" "string" false "";
       mkClaimDefinition "annualIncome" "number" false "";
       mkClaimDefinition "currency" "string" false "";
       mkClaimDefinition "periodEndDate" "date" false ""] SourceCore;
  mkSchema "finance.tax-records" "finance" "Tax Records"
    "" 0 false
      [mkClaimDefinition "taxYear" "string" true "";
       mkClaimDefinition "filingStatus" "string" false "";
       mkClaimDefinition "jurisdiction" "string" false ""] SourceCore;
  mkSchema "finance.credit-history" "finance" "Credit History"
    "" 0 false
      [mkClaimDefinition "creditScore" "number" false "";
       mkClaimDefinition "bureau" "string" false "";
       mkClaimDefinition "reportDate" "date" false ""] SourceCore;
  mkSchema "finance.benefits" "finance" "Benefit Entitlements"
    "" 0 false
      [mkClaimDefinition "benefitType" "string" true "";
       mkClaimDefinition "issuingAuthority" "string" false "";
       mkClaimDefinition "validFrom" "date" false "";
       mkClaimDefinition "validTo" "date" false ""] SourceCore;
  mkSchema "finance.insurance-policies" "finance" "Insurance Policies"
    "" 0 false
      [mkClaimDefinition "insurerName" "string" true "";
       mkClaimDefinition "policyNumber" "string" true "";
       mkClaimDefinition "policyType" "string" false "";
       mkClaimDefinition "expiryDate" "date" false ""] SourceCore;
  mkSchema "finance.investments" "finance" "Investment Accounts"
    "" 0 false
      [mkClaimDefinition "providerName" "string" true "";
       mkClaimDefinition "accountType" "string" false "";
       mkClaimDefinition "currency" "string" false ""] SourceCore;
  mkSchema "finance.property-ownership" "finance" "Property Ownership"
    "" 0 false
      [mkClaimDefinition "titleReference" "string" false "";
       mkClaimDefinition "legalDescription" "string" false "";
       mkClaimDefinition "registeredDate" "date" false ""] SourceCore].

(** ** healthcare *)
Definition healthcare_category : Category :=
  mkCategory "healthcare" "Healthcare"
    "Medical records, clinical history, and health credentials" "heart-pulse".
Definition healthcare_schemas : list Schema := [
  mkSchema "healthcare.gp-records" "healthcare" "GP / Primary Care Records"
    "" 0 false
      [mkClaimDefinition "practiceId" "string" true "";
       mkClaimDefinition "practiceName" "string" false "";
       mkClaimDefinition "enrolledSince" "date" false ""] SourceCore;
  mkSchema "healthcare.specialist" "healthcare" "Specialist Visits"
    "" 0 false
      [mkClaimDefinition "specialty" "string" true "";
       mkClaimDefinition "providerName" "string" false "";
       mkClaimDefinition "visitDate" "date" false ""] SourceCore;
  mkSchema "healthcare.pharmacy" "healthcare" "Pharmacy / Dispensing Records"
    "" 0 false
      [mkClaimDefinition "pharmacyId" "string" false "";
       mkClaimDefinition "pharmacyName" "string" false ""] SourceCore;
  mkSchema "healthcare.allergies" "healthcare" "Allergies & Adverse Reactions"
    "" 0 false
      [mkClaimDefinition "allergen" "string" true "";
       mkClaimDefinition "reactionType" "string" false "";
       mkClaimDefinition "severity" "string" false "";
       mkClaimDefinition "recordedDate" "date" false ""] SourceCore;
  mkSchema "healthcare.immunisation" "healthcare" "Immunisation History"
    "" 0 false
      [mkClaimDefinition "vaccine" "string" true "";
       mkClaimDefinition "administeredDate" "date" true "";
       mkClaimDefinition "batchNumber" "string" false "";
       mkClaimDefinition "administeringProvider" "string" false ""] SourceCore;
  mkSchema "healthcare.radiology" "healthcare" "Radiology / Imaging"
    "" 0 false
      [mkClaimDefinition "modality" "string" true "e.g. X-ray, MRI, CT";
       mkClaimDefinition "bodyPart" "string" false "";
       mkClaimDefinition "studyDate" "date" false "";
       mkClaimDefinition "reportingRadiologist" "string" false ""] SourceCore;
  mkSchema "healthcare.pathology" "healthcare" "Pathology / Lab Results"
    "" 0 false
      [mkClaimDefinition "testName" "string" true "";
       mkClaimDefinition "collectionDate" "date" false "";
       mkClaimDefinition "laboratory" "string" false ""] SourceCore;
  mkSchema "healthcare.dental" "healthcare" "Dental Records"
    "" 0 false
      [mkClaimDefinition "practiceId" "string" false "";
       mkClaimDefinition "practiceName" "string" false ""] SourceCore;
  mkSchema "healthcare.acc-injury" "healthcare" "ACC Injury Records (NZ)"
    "Accident Compensation Corporation injury claims" 0 false
      [mkClaimDefinition "accClaimNumber" "string" true "";
       mkClaimDefinition "injuryDate" "date" false "";
       mkClaimDefinition "injuryType" "string" false "";
       mkClaimDefinition "status" "string" false ""] SourceCore;
  mkSchema "healthcare.acc-authorisation" "healthcare" "ACC Treatment Authorisation (NZ)"
    "Accident Compensation Corporation authorisation for a specific treatment or service" 0 false
      [mkClaimDefinition "accClaimNumber" "string" true "";
       mkClaimDefinition "authorisationNumber" "string" true "";
       mkClaimDefinition "serviceType" "string" true "Authorised service, e.g. physiotherapy, specialist consultation";
       mkClaimDefinition "provider" "string" false "Authorised healthcare provider name or HPI number";
       mkClaimDefinition "maxSessions" "string" false "Maximum number of authorised sessions";
       mkClaimDefinition "validFrom" "date" false "";
       mkClaimDefinition "validUntil" "date" false "";
       mkClaimDefinition "status" "string" false "active, expired, or cancelled"] SourceCore;
  mkSchema "healthcare.nhi-patient" "healthcare" "NHI Patient Record (NZ)"
    "National Health Index patient identity credential linking DID to FHIR Patient resource" 0 false
      [mkClaimDefinition "nhiNumber" "string" true "NHI number, e.g. ZCX7823";
       mkClaimDefinition "fhirResourceId" "string" false "FHIR Patient resource ID from the NZ NHI FHIR API";
       mkClaimDefinition "givenNames" "string" false "";
       mkClaimDefinition "familyName" "string" false "";
       mkClaimDefinition "dateOfBirth" "date" false ""] SourceCore;
  mkSchema "healthcare.disability" "healthcare" "Disability Assessments"
    "" 0 false
      [mkClaimDefinition "assessmentType" "string" false "";
       mkClaimDefinition "assessmentDate" "date" false "";
       mkClaimDefinition "fundingAuthority" "string" false ""] SourceCore;
  mkSchema "healthcare.mental-health" "healthcare" "Mental Health Records"
    "" 0 true
      [mkClaimDefinition "providerName" "string" false "";
       mkClaimDefinition "serviceType" "string" false ""] SourceCore;
  mkSchema "healthcare.sexual-health" "healthcare" "Sexual Health Records"
    "" 0 true
      [] SourceCore;
  mkSchema "healthcare.reproductive-health" "healthcare" "Reproductive Health Records"
    "" 0 true
      [] SourceCore;
  mkSchema "healthcare.addiction" "healthcare" "Addiction & Substance Use"
    "" 0 true
      [mkClaimDefinition "programmeType" "string" false "";
       mkClaimDefinition "providerName" "string" false ""] SourceCore].

(** ** identity *)
Definition identity_category : Category :=
  mkCategory "identity" "Identity"
    "Core personal identity documents and government identifiers" "id-card".
Definition identity_schemas : list Schema := [
  mkSchema "identity.legal-name" "identity" "Legal Name"
    "" 0 false
      [mkClaimDefinition "givenNames" "string" true "";
       mkClaimDefinition "familyName" "string" true "";
       mkClaimDefinition "preferredName" "string" false ""] SourceCore;
  mkSchema "identity.dob" "identity" "Date of Birth"
    "" 0 false
      [mkClaimDefinition "dateOfBirth" "date" true ""] SourceCore;
  mkSchema "identity.address" "identity" "Address"
    "" 0 false
      [mkClaimDefinition "streetAddress" "string" true "";
       mkClaimDefinition "suburb" "string" false "";
       mkClaimDefinition "city" "string" true "";
       mkClaimDefinition "postcode" "string" false "";
       mkClaimDefinition "country" "string" true ""] SourceCore;
  mkSchema "identity.passport" "identity" "Passport"
    "" 0 false
      [mkClaimDefinition "passportNumber" "string" true "";
       mkClaimDefinition "issuingCountry" "string" true "";
       mkClaimDefinition "expiryDate" "date" true ""] SourceCore;
  mkSchema "identity.drivers-licence" "identity" "Driver's Licence"
    "" 0 false
      [mkClaimDefinition "licenceNumber" "string" true "";
       mkClaimDefinition "issuingAuthority" "string" true "";
       mkClaimDefinition "licenceClass" "string" false "";
       mkClaimDefinition "expiryDate" "date" true ""] SourceCore;
  mkSchema "identity.nhi" "identity" "NHI Number (NZ)"
    "New Zealand National Health Index number" 0 false
      [mkClaimDefinition "nhiNumber" "string" true ""] SourceCore;
  mkSchema "identity.ird-number" "identity" "IRD Number (NZ)"
    "New Zealand Inland Revenue Department tax number" 0 false
      [mkClaimDefinition "irdNumber" "string" true ""] SourceCore;
  mkSchema "identity.realme-verified" "identity" "RealMe Verified Identity (NZ)"
    "Identity verified via the New Zealand Department of Internal Affairs RealMe service" 0 false
      [mkClaimDefinition "flt" "string" true "RealMe Federated Login Token — pseudonymous per-service stable identifier";
       mkClaimDefinition "loaLevel" "string" true "Level of Assurance achieved: 1, 2, or 3";
       mkClaimDefinition "givenNames" "string" false "";
       mkClaimDefinition "familyName" "string" false "";
       mkClaimDefinition "dateOfBirth" "date" false "";
       mkClaimDefinition "addressLine1" "string" false "";
       mkClaimDefinition "addressCity" "string" false "";
       mkClaimDefinition "addressPostcode" "string" false "";
       mkClaimDefinition "verifiedOn" "date" false "Date the identity was verified with DIA"] SourceCore;
  mkSchema "identity.hpi-practitioner" "identity" "HPI Practitioner Identity (NZ)"
    "Health Practitioner Index (HPI) identity credential for NZ registered health professionals" 0 false
      [mkClaimDefinition "hpiNumber" "string" true "HPI Person ID (Common Person Number)";
       mkClaimDefinition "fhirResourceId" "string" false "FHIR Practitioner resource ID from the NZ HPI FHIR API";
       mkClaimDefinition "givenNames" "string" false "";
       mkClaimDefinition "familyName" "string" false ""] SourceCore;
  mkSchema "identity.age-over-proof" "identity" "Age Over Proof"
    "Cryptographically signed assertion that the subject is at least N years old, without revealing the actual date of birth" 0 false
      [mkClaimDefinition "age_over" "number" true "The minimum age threshold being proved";
       mkClaimDefinition "result" "boolean" true "true if the subject's age >= age_over";
       mkClaimDefinition "verifier" "string" false "DID of the intended verifier (audience binding)";
       mkClaimDefinition "proof_type" "string" false "Always 'derived'";
       mkClaimDefinition "method" "string" false "Computation method: 'issuer-computed'"] SourceCore].

(** ** insurance *)
Definition insurance_category : Category :=
  mkCategory "insurance" "Insurance"
    "Health, life, vehicle, home, and business insurance policies" "shield".
Definition insurance_schemas : list Schema := [
  mkSchema "insurance.health" "insurance" "Health Insurance"
    "" 0 false
      [mkClaimDefinition "insurerName" "string" true "";
       mkClaimDefinition "policyNumber" "string" true "";
       mkClaimDefinition "coverageType" "string" false "";
       mkClaimDefinition "expiryDate" "date" false ""] SourceCore;
  mkSchema "insurance.life" "insurance" "Life Insurance"
    "" 0 false
      [mkClaimDefinition "insurerName" "string" true "";
       mkClaimDefinition "policyNumber" "string" true "";
       mkClaimDefinition "sumInsured" "number" false "";
       mkClaimDefinition "currency" "string" false "";
       mkClaimDefinition "expiryDate" "date" false ""] SourceCore;
  mkSchema "insurance.vehicle" "insurance" "Vehicle Insurance"
    "" 0 false
      [mkClaimDefinition "insurerName" "string" true "";
       mkClaimDefinition "policyNumber" "string" true "";
       mkClaimDefinition "vehicleRegistration" "string" false "";
       mkClaimDefinition "coverageType" "string" false "e.g. comprehensive, third-party";
       mkClaimDefinition "expiryDate" "date" false ""] SourceCore;
  mkSchema "insurance.home" "insurance" "Home Insurance"
    "" 0 false
      [mkClaimDefinition "insurerName" "string" true "";
       mkClaimDefinition "policyNumber" "string" true "";
       mkClaimDefinition "propertyAddress" "string" false "";
       mkClaimDefinition "coverageType" "string" false "";
       mkClaimDefinition "expiryDate" "date" false ""] SourceCore;
  mkSchema "insurance.business" "insurance" "Business Insurance"
    "" 0 false
      [mkClaimDefinition "insurerName" "string" true "";
       mkClaimDefinition "policyNumber" "string" true "";
       mkClaimDefinition "coverageType" "string" false "";
       mkClaimDefinition "expiryDate" "date" false ""] SourceCore].

(** ** legal *)
Definition legal_category : Category :=
  mkCategory "legal" "Legal"
    "Court orders, legal authority documents, and immigration status" "scale".
Definition legal_schemas : list Schema := [
  mkSchema "legal.court-orders" "legal" "Court Orders"
    "" 0 false
      [mkClaimDefinition "orderType" "string" true "";
       mkClaimDefinition "court" "string" false "";
       mkClaimDefinition "orderDate" "date" false "";
       mkClaimDefinition "caseNumber" "string" false ""] SourceCore;
  mkSchema "legal.poa" "legal" "Power of Attorney"
    "" 0 false
      [mkClaimDefinition "poaType" "string" true "e.g. Enduring, General";
       mkClaimDefinition "grantor" "string" false "";
       mkClaimDefinition "attorney" "string" false "";
       mkClaimDefinition "executionDate" "date" false ""] SourceCore;
  mkSchema "legal.will-estate" "legal" "Will & Estate Documents"
    "" 0 false
      [mkClaimDefinition "documentType" "string" true "";
       mkClaimDefinition "executionDate" "date" false "";
       mkClaimDefinition "notarisedBy" "string" false ""] SourceCore;
  mkSchema "legal.immigration-status" "legal" "Immigration Status"
    "" 0 false
      [mkClaimDefinition "visaType" "string" false "";
       mkClaimDefinition "visaNumber" "string" false "";
       mkClaimDefinition "expiryDate" "date" false "";
       mkClaimDefinition "conditions" "string" false ""] SourceCore;
  mkSchema "legal.criminal-record" "legal" "Criminal Record"
    "" 0 true
      [mkClaimDefinition "recordType" "string" false "e.g. clean, spent, conviction";
       mkClaimDefinition "issuingAuthority" "string" false "";
       mkClaimDefinition "issuedDate" "date" false ""] SourceCore].

(** ** professional *)
Definition professional_category : Category :=
  mkCategory "professional" "Professional"
    "Qualifications, professional registrations, and employment credentials" "briefcase".
Definition professional_schemas : list Schema := [
  mkSchema "professional.qualifications" "professional" "Qualifications"
    "" 0 false
      [mkClaimDefinition "qualification" "string" true "";
       mkClaimDefinition "awardingBody" "string" true "";
       mkClaimDefinition "awardDate" "date" false "";
       mkClaimDefinition "level" "string" false "e.g. NZQF Level 7"] SourceCore;
  mkSchema "professional.registrations" "professional" "Professional Registrations"
    "HPCA, NZLS, NZIA, IPENZ and similar regulatory body registrations" 0 false
      [mkClaimDefinition "registrationBody" "string" true "";
       mkClaimDefinition "registrationNumber" "string" true "";
       mkClaimDefinition "registrationClass" "string" false "";
       mkClaimDefinition "expiryDate" "date" false "";
       mkClaimDefinition "scope" "string" false ""] SourceCore;
  mkSchema "professional.employment" "professional" "Employment History"
    "" 0 false
      [mkClaimDefinition "employerName" "string" true "";
       mkClaimDefinition "jobTitle" "string" false "";
       mkClaimDefinition "startDate" "date" false "";
       mkClaimDefinition "endDate" "date" false ""] SourceCore;
  mkSchema "professional.practising-certificates" "professional" "Practising Certificates"
    "" 0 false
      [mkClaimDefinition "issuingBody" "string" true "";
       mkClaimDefinition "certificateNumber" "string" true "";
       mkClaimDefinition "validFrom" "date" true "";
       mkClaimDefinition "validTo" "date" true ""] SourceCore].

(** ** property *)
Definition property_category : Category :=
  mkCategory "property" "Property & Assets"
    "Real estate, vehicles, and other asset ownership records" "home".
Definition property_schemas : list Schema := [
  mkSchema "property.real-estate" "property" "Real Estate"
    "Land and property ownership (LINZ in NZ)" 0 false
      [mkClaimDefinition "titleReference" "string" true "";
       mkClaimDefinition "legalDescription" "string" false "";
       mkClaimDefinition "address" "string" false "";
       mkClaimDefinition "registeredDate" "date" false "";
       mkClaimDefinition "ownershipType" "string" false "e.g. freehold, leasehold, cross-lease"] SourceCore;
  mkSchema "property.vehicles" "property" "Vehicles"
    "" 0 false
      [mkClaimDefinition "registration" "string" true "";
       mkClaimDefinition "make" "string" false "";
       mkClaimDefinition "model" "string" false "";
       mkClaimDefinition "year" "number" false "";
       mkClaimDefinition "vin" "string" false ""] SourceCore;
  mkSchema "property.assets" "property" "Other Assets"
    "" 0 false
      [mkClaimDefinition "assetType" "string" true "";
       mkClaimDefinition "description" "string" false "";
       mkClaimDefinition "estimatedValue" "number" false "";
       mkClaimDefinition "currency" "string" false ""] SourceCore].

(** ** social *)
Definition social_category : Category :=
  mkCategory "social" "Social & Contact"
    "Verified contact addresses, social graph, and reputation" "users".
Definition social_schemas : list Schema := [
  mkSchema "social.verified-contacts" "social" "Verified Contact Addresses"
    "" 0 false
      [mkClaimDefinition "contactType" "string" true "e.g. email, did, phone";
       mkClaimDefinition "value" "string" true "";
       mkClaimDefinition "verifiedDate" "date" false ""] SourceCore;
  mkSchema "social.social-graph" "social" "Social Graph Connections"
    "" 0 false
      [mkClaimDefinition "platform" "string" false "";
       mkClaimDefinition "profileUrl" "string" false "";
       mkClaimDefinition "verifiedDate" "date" false ""] SourceCore;
  mkSchema "social.reputation" "social" "Platform Reputation"
    "" 0 false
      [mkClaimDefinition "platform" "string" true "";
       mkClaimDefinition "reputationScore" "number" false "";
       mkClaimDefinition "tier" "string" false "";
       mkClaimDefinition "evaluatedDate" "date" false ""] SourceCore].

(** ** travel *)
Definition travel_category : Category :=
  mkCategory "travel" "Travel"
    "Passports, visas, vaccination certificates, and travel insurance" "plane".
Definition travel_schemas : list Schema := [
  mkSchema "travel.passport" "travel" "Passport"
    "" 0 false
      [mkClaimDefinition "passportNumber" "string" true "";
       mkClaimDefinition "issuingCountry" "string" true "";
       mkClaimDefinition "issueDate" "date" false "";
       mkClaimDefinition "expiryDate" "date" true ""] SourceCore;
  mkSchema "travel.visas" "travel" "Visas"
    "" 0 false
      [mkClaimDefinition "visaType" "string" true "";
       mkClaimDefinition "issuingCountry" "string" true "";
       mkClaimDefinition "visaNumber" "string" false "";
       mkClaimDefinition "validFrom" "date" false "";
       mkClaimDefinition "validTo" "date" false "";
       mkClaimDefinition "conditions" "string" false ""] SourceCore;
  mkSchema "travel.vaccination-certs" "travel" "International Vaccination Certificates"
    "" 0 false
      [mkClaimDefinition "vaccine" "string" true "";
       mkClaimDefinition "administeredDate" "date" true "";
       mkClaimDefinition "issuingAuthority" "string" false "";
       mkClaimDefinition "certificateNumber" "string" false ""] SourceCore;
  mkSchema "travel.travel-insurance" "travel" "Travel Insurance"
    "" 0 false
      [mkClaimDefinition "insurerName" "string" true "";
       mkClaimDefinition "policyNumber" "string" true "";
       mkClaimDefinition "coverageStart" "date" false "";
       mkClaimDefinition "coverageEnd" "date" false "";
       mkClaimDefinition "coverageRegions" "string" false ""] SourceCore].
(** ** The init functions *)

(** One file: its category, then its schemas; [None] when a registration panics. *)
Definition register_all (l : list Schema) (r : Registry) : option Registry :=
  foldl (λ acc s, r ← acc; RegisterSchema s r) (Some r) l.
Definition init_file (f : Category * list Schema) (r : Registry) : option Registry :=
  register_all f.2 (RegisterCategory f.1 r).
(** The files of a package are initialised in the order of their names. *)
Definition core_files : list (Category * list Schema) :=
  [(civic_category, civic_schemas); (education_category, education_schemas); (finance_category, finance_schemas);
   (healthcare_category, healthcare_schemas); (identity_category, identity_schemas);
   (insurance_category, insurance_schemas); (legal_category, legal_schemas);
   (professional_category, professional_schemas); (property_category, property_schemas);
   (social_category, social_schemas); (travel_category, travel_schemas)].
Definition init (files : list (Category * list Schema)) (r : Registry) : option Registry :=
  foldl (λ acc f, r ← acc; init_file f r) (Some r) files.
Definition core_registry : Registry := default empty_registry (init core_files empty_registry).

(** ** Registering lists *)

Lemma register_all_None l : foldl (λ acc s, r ← acc; RegisterSchema s r) None l = None.
Proof. by induction l. Qed.
Lemma register_all_spec l r :
  NoDup (sch_ID <$> l) → Forall (λ s, schemas r !! sch_ID s = None) l →
  ∃ m, register_all l r = Some (mkRegistry (categories r) m) ∧
    (∀ s, s ∈ l → m !! sch_ID s = Some s) ∧ (∀ id, id ∉ (sch_ID <$> l) → m !! id = schemas r !! id).
Proof.
  unfold register_all. revert r. induction l as [|s l IH]; intros [cats m] Hnd Hnew; cbn [schemas categories].
  - exists m. split; [done|]. split; [by intros ? ?%not_elem_of_nil|done].
  - apply NoDup_cons in Hnd as [Hs Hnd]. apply Forall_cons in Hnew as [Hn Hnew]. cbn [schemas] in Hn, Hnew.
    cbn [foldl]. unfold RegisterSchema at 2. cbn [mbind option_bind schemas categories]. rewrite Hn.
    destruct (IH (mkRegistry cats (<[sch_ID s := s]> m)) Hnd) as (m' & -> & Hin & Hout).
    { rewrite Forall_forall in *. intros s' Hs'. cbn [schemas]. rewrite lookup_insert_ne; [by apply Hnew|].
      intros E. apply Hs. rewrite E. by apply list_elem_of_fmap_2. }
    exists m'. split; [done|]. split.
    + intros s' [->|Hs']%elem_of_cons; [|by apply Hin]. rewrite Hout by done. etrans; [apply lookup_insert_eq|done].
    + intros id Hid. cbn [fmap list_fmap] in Hid. apply not_elem_of_cons in Hid as [Hne Hid].
      rewrite Hout by done. cbn [schemas]. by rewrite lookup_insert_ne.
Qed.

Definition all_of (files : list (Category * list Schema)) : list Schema := concat (snd <$> files).
Lemma init_spec files r :
  NoDup (sch_ID <$> all_of files) → Forall (λ s, schemas r !! sch_ID s = None) (all_of files) →
  ∃ m, init files r = Some (mkRegistry (foldl (λ cs f, <[cat_ID f.1 := f.1]> cs) (categories r) files) m) ∧
    (∀ s, s ∈ all_of files → m !! sch_ID s = Some s) ∧
    (∀ id, id ∉ (sch_ID <$> all_of files) → m !! id = schemas r !! id).
Proof.
  unfold init. revert r. induction files as [|[c l] files IH]; intros [cats m] Hnd Hnew.
  - exists m. split; [done|]. split; [by intros ? ?%not_elem_of_nil|done].
  - unfold all_of in Hnd, Hnew |- *. cbn [fmap list_fmap concat snd] in Hnd, Hnew |- *. rewrite fmap_app in Hnd |- *.
    apply NoDup_app in Hnd as (Hl & Hdis & Hrest). apply Forall_app in Hnew as [Hnl Hnr].
    cbn [foldl mbind option_bind]. unfold init_file at 2. cbn [fst snd].
    destruct (register_all_spec l (RegisterCategory c (mkRegistry cats m)) Hl Hnl) as (m1 & -> & Hin1 & Hout1).
    cbn [categories schemas RegisterCategory] in *.
    destruct (IH (mkRegistry (<[cat_ID c := c]> cats) m1) Hrest) as (m2 & -> & Hin2 & Hout2).
    { rewrite Forall_forall in *. intros s Hs. cbn [schemas]. rewrite Hout1; [by apply Hnr|].
      intros Hx. apply (Hdis _ Hx). by apply list_elem_of_fmap_2. }
    exists m2. split; [done|]. cbn [schemas categories] in *. split.
    + intros s [Hs|Hs]%elem_of_app; [|by apply Hin2]. rewrite Hout2; [by apply Hin1|].
      apply Hdis. by apply list_elem_of_fmap_2.
    + intros id [Hn1 Hn2]%not_elem_of_app. by rewrite Hout2, Hout1.
Qed.

(** ** The built-in registry *)

(** The text of an identifier before its first dot. *)
Definition category_part (id : string) : string :=
  match Split id x2e with c :: _ => c | [] => "" end.
Definition claim_types : list string := ["string"; "date"; "number"; "boolean"].
(** What the descriptors promise, checked one by one. *)
Definition well_described (s : Schema) : bool :=
  (category_part (sch_ID s) =s sch_CategoryID s) && bool_decide (sch_CategoryID s ∈ (cat_ID ∘ fst <$> core_files)) &&
  negb (sch_ID s =s "") && (sch_Version s =? 0)%Z && bool_decide (NoDup (cd_Name <$> sch_Claims s)) &&
  forallb (λ c, bool_decide (cd_Type c ∈ claim_types)) (sch_Claims s).
Lemma core_checks :
  bool_decide (NoDup (sch_ID <$> all_of core_files)) &&
  forallb well_described (all_of core_files) &&
  forallb (λ s, negb (bool_decide (VersionedID s ∈ (sch_ID <$> all_of core_files)))) (all_of core_files) = true.
Proof. vm_compute. reflexivity. Qed.

Lemma core_categories c :
  c ∈ (cat_ID ∘ fst <$> core_files) →
  is_Some ((foldl (λ cs f, <[cat_ID f.1 := f.1]> cs) (∅ : gmap string Category) core_files) !! c).
Proof.
  intros Hc. unfold core_files in Hc. cbn [fmap list_fmap compose fst] in Hc.
  repeat (apply elem_of_cons in Hc as [->|Hc]; [eexists; vm_compute; reflexivity|]). by apply not_elem_of_nil in Hc.
Qed.

(** Initialisation does not panic, and the registry it leaves holds every built-in schema
    and no other: each is found by its identifier and by the versioned identifier its
    credentials carry, under a category that is registered and that its identifier
    starts with; the claims of a schema have distinct names and one of the four
    documented types. *)
Theorem core_registry_complete :
  init core_files empty_registry = Some core_registry ∧
  (∀ s, s ∈ all_of core_files →
     GetSchema core_registry (sch_ID s) = Ok s ∧ GetSchema core_registry (VersionedID s) = Ok s ∧
     is_ok (GetCategory core_registry (sch_CategoryID s)) = true ∧
     category_part (sch_ID s) = sch_CategoryID s ∧ NoDup (cd_Name <$> sch_Claims s) ∧
     Forall (λ c, cd_Type c ∈ claim_types) (sch_Claims s)) ∧
  (∀ id s, schemas core_registry !! id = Some s → s ∈ all_of core_files).
Proof.
  pose proof core_checks as Hc. rewrite !andb_true_iff, !forallb_elem_of in Hc. destruct Hc as [[Hnd Hwell] Hver].
  apply bool_decide_eq_true in Hnd.
  destruct (init_spec core_files empty_registry Hnd) as (m & E & Hin & Hout).
  { apply Forall_true. intros s. apply lookup_empty. }
  unfold core_registry. rewrite E. cbn [default]. split; [done|]. split.
  - intros s Hs. specialize (Hwell s Hs). specialize (Hver s Hs). unfold well_described in Hwell.
    rewrite !andb_true_iff in Hwell. destruct Hwell as [[[[[Hcat Hreg] Hne] Hv] Hclaims] Htypes].
    apply negb_true_iff, bool_decide_eq_false in Hver. apply negb_true_iff, String.eqb_neq in Hne.
    apply Z.eqb_eq in Hv. apply bool_decide_eq_true in Hreg, Hclaims. apply String.eqb_eq in Hcat.
    destruct (GetSchema_versioned (mkRegistry (foldl (λ cs f, <[cat_ID f.1 := f.1]> cs) ∅ core_files) m) s) as [H1 H2];
      [by apply Hin|done|lia|cbn [schemas]; rewrite Hout by done; apply lookup_empty|].
    split_and!; [done|done| |done|done|].
    + unfold GetCategory. cbn [categories]. destruct (core_categories _ Hreg) as [c Hc].
      etrans; [apply (f_equal (λ o, is_ok (of_option _ o))), Hc|done].
    + rewrite forallb_elem_of in Htypes. apply Forall_forall. intros cd Hcd. by apply (bool_decide_unpack _), Is_true_true, Htypes.
  - cbn [schemas]. intros id s Hs. destruct (decide (id ∈ (sch_ID <$> all_of core_files))) as [Hid|Hid].
    + apply list_elem_of_fmap in Hid as (s' & -> & Hs'). rewrite Hin in Hs by done. by injection Hs as <-.
    + pose proof (eq_trans (eq_sym Hs) (eq_trans (Hout id Hid) (lookup_empty id))) as Hn. discriminate Hn.
Qed.
Lemma core_schema id s : schemas core_registry !! id = Some s → GetSchema core_registry id = Ok s.
Proof. unfold GetSchema. by intros ->. Qed.
End CoreSchemas.
