(* ===== verification/Validate.v ===== *)
(** * Validation of claims against a schema (pkg/schema/validate.go)

    A schema becomes a JSON Schema document, which the jsonschema package
    compiles; the compiled form is kept per schema identifier.  The package is a
    parameter: what it compiles a document to, and how that judges a value. *)

From S2P Require Import Prelude GoStd Json JsonValue Schema.
Import JsonValue Schema.

(** github.com/santhosh-tekuri/jsonschema: [AddResource] and [Compile] of one
    document with format assertions on, and [Schema.Validate]. *)
Class JsonSchema := {
  js_schema : Type;
  js_compile : string → json → result js_schema;
  js_validate : js_schema → json → result unit }.

(** strconv.FormatFloat(v, 'f', -1, 64) of a number that is not a plain integer, and the
    %v form of values that are neither strings, numbers nor booleans. *)
Class GoFormat := { format_float : list byte → string; sprint_v : json → string }.

Module Validate.

Definition claimProp (typ : string) : json :=
  if typ =s "date" then JObj [("format", JStr "date"); ("type", JStr "string")]
  else if typ =s "number" then
    JObj [("pattern", JStr "^-?[0-9]+(\.[0-9]+)?$"); ("type", JStr "string")]
  else if typ =s "boolean" then JObj [("enum", JArr [JStr "true"; JStr "false"])]
  else JObj [("minLength", JInt 1); ("type", JStr "string")].

Definition schemaDoc (s : Schema) : json :=
  let props := of_pairs ((λ def, (cd_Name def, claimProp (cd_Type def))) <$> sch_Claims s) in
  let required := (λ def, JStr (cd_Name def)) <$> filter (λ def, cd_Required def = true) (sch_Claims s) in
  let doc := of_pairs [("$schema", JStr "https://json-schema.org/draft/2020-12/schema");
                       ("type", JStr "object"); ("properties", JObj props);
                       ("additionalProperties", JBool true)] in
  JObj (match required with [] => doc | _ => aset "required" (JArr required) doc end).

Section Compiled.
Context `{JsonSchema}.

(** The cache [compiled], by the schema's own identifier. *)
Definition Cache : Type := gmap string js_schema.

Definition compileSchema (s : Schema) : result js_schema :=
  js_compile ("tpt://" +s sch_ID s +s ".json") (schemaDoc s).

Definition compiledFor (reg : Registry) (schemaID : string) (compiled : Cache)
    : result js_schema * Cache :=
  match GetSchema reg schemaID with
  | Err e => (Err e, compiled)
  | Ok s =>
      match compiled !! sch_ID s with
      | Some v => (Ok v, compiled)
      | None =>
          match compileSchema s with
          | Err e => (Err (ErrWrap ("compile schema " +s sch_ID s) e), compiled)
          | Ok sch => (Ok sch, <[sch_ID s := sch]> compiled)
          end
      end
  end.

(** The claims as the object the validator sees. *)
Definition claims_data (claims : list (string * string)) : json :=
  JObj (of_pairs ((λ kv, (kv.1, JStr kv.2)) <$> claims)).

Definition Validate (reg : Registry) (schemaID : string) (claims : list (string * string))
    (compiled : Cache) : result unit * Cache :=
  let '(r, compiled') := compiledFor reg schemaID compiled in
  (match r with
   | Err e => Err e
   | Ok sch => wrap_err ("schema " +s schemaID) (js_validate sch (claims_data claims))
   end, compiled').

Section Any.
Context `{GoFormat}.
Definition stringify (v : json) : string :=
  match v with
  | JStr s => s
  | JInt z => Itoa z
  | JNumber t => format_float t
  | JBool true => "true"
  | JBool false => "false"
  | v => sprint_v v
  end.
Definition ValidateAny (reg : Registry) (schemaID : string) (claims : list (string * json))
    (compiled : Cache) : result unit * Cache :=
  Validate reg schemaID ((λ kv, (kv.1, stringify kv.2)) <$> claims) compiled.
End Any.

(** ** The cache is invisible *)

(** What [Validate] means: compile the schema registered now and judge the claims. *)
Definition validate_spec (reg : Registry) (schemaID : string) (claims : list (string * string)) : result unit :=
  match GetSchema reg schemaID with
  | Err e => Err e
  | Ok s =>
      match compileSchema s with
      | Err e => Err (ErrWrap ("compile schema " +s sch_ID s) e)
      | Ok sch => wrap_err ("schema " +s schemaID) (js_validate sch (claims_data claims))
      end
  end.

(** A process registers schemas (a duplicate panics, which leaves the registry
    alone) and validates claims, in any order. *)
Inductive Op := OpRegister (s : Schema) | OpValidate (id : string) (claims : list (string * string)).
Definition run_op (st : Registry * Cache) (op : Op) : Registry * Cache :=
  match op with
  | OpRegister s => (default st.1 (RegisterSchema s st.1), st.2)
  | OpValidate id claims => (st.1, snd (Validate st.1 id claims st.2))
  end.
Definition run_ops (ops : list Op) : Registry * Cache := foldl run_op (empty_registry, ∅) ops.

Definition cache_ok (st : Registry * Cache) : Prop :=
  registry_wf st.1 ∧
  ∀ id sch, st.2 !! id = Some sch → ∃ s, schemas st.1 !! id = Some s ∧ compileSchema s = Ok sch.

Lemma GetSchema_stored reg id s : registry_wf reg → GetSchema reg id = Ok s → schemas reg !! sch_ID s = Some s.
Proof.
  intros [Hs _]. unfold GetSchema. destruct (schemas reg !! id) as [s0|] eqn:E.
  - intros [= <-]. by rewrite (Hs _ _ E).
  - destruct (BaseID id =s id); [done|].
    destruct (schemas reg !! BaseID id) as [s0|] eqn:E2; [|done]. intros [= <-]. by rewrite (Hs _ _ E2).
Qed.

Lemma Validate_agrees st id claims :
  cache_ok st → fst (Validate st.1 id claims st.2) = validate_spec st.1 id claims.
Proof.
  intros [Hwf Hc]. unfold Validate, compiledFor, validate_spec.
  destruct (GetSchema st.1 id) as [s|e] eqn:E; [|done].
  destruct (st.2 !! sch_ID s) as [sch|] eqn:Es.
  - destruct (Hc _ _ Es) as (s' & Hs' & Hcomp).
    rewrite (GetSchema_stored _ _ _ Hwf E) in Hs'. injection Hs' as ->. by rewrite Hcomp.
  - by destruct (compileSchema s).
Qed.

Lemma run_op_ok st op : cache_ok st → cache_ok (run_op st op).
Proof.
  destruct st as [reg compiled]. intros [Hwf Hc]. simpl in *. destruct op as [s|id claims]; simpl.
  - destruct (RegisterSchema s reg) as [reg'|] eqn:E; [|done]. simpl.
    split; [by eapply RegisterSchema_wf|]. simpl. intros id sch Hl.
    destruct (Hc _ _ Hl) as (s' & Hs' & Hcomp). exists s'. split; [|done].
    unfold RegisterSchema in E. case_match; [done|]. injection E as <-. simpl.
    rewrite lookup_insert_ne; [done|]. congruence.
  - split; [done|]. simpl. unfold Validate, compiledFor. intros id' sch.
    destruct (GetSchema reg id) as [s|e] eqn:E; simpl; [|apply Hc].
    destruct (compiled !! sch_ID s); simpl; [apply Hc|].
    destruct (compileSchema s) as [sch'|] eqn:Es; simpl; [|apply Hc].
    intros [[<- <-]|[_ ?]]%lookup_insert_Some; [|by apply Hc].
    exists s. split; [by eapply GetSchema_stored|done].
Qed.

Lemma run_ops_ok ops : cache_ok (run_ops ops).
Proof.
  unfold run_ops. induction ops as [|op ops IH] using rev_ind.
  - split; [apply empty_registry_wf|]. intros id sch H'. done.
  - rewrite foldl_snoc. by apply run_op_ok.
Qed.

(** C34: the cache of compiled schemas never shows: after any history of
    registrations and validations, a validation gives what compiling the
    schema registered now would give. *)
Theorem validate_cache_equiv ops id claims :
  let st := run_ops ops in
  fst (Validate st.1 id claims st.2) = validate_spec st.1 id claims.
Proof. apply Validate_agrees, run_ops_ok. Qed.
End Compiled.
End Validate.
