(* ===== verification/Consent.v ===== *)
(** * Consent grants and the access policy (pkg/consent/policy.go, receipt.go)

    A grant lets a relying party read one schema, or every ordinary schema of a
    category.  The policy holds the grants in a slice; [CanAccess] scans it,
    [AddGrant] validates and appends, [RevokeGrant] stamps a grant.  The schema
    registry is the one component the policy calls; it is fixed in a section. *)

From S2P Require Import Prelude GoStd Schema.
Import Schema.

Module Consent.

(** A string type in the source, with two named values. *)
Inductive GrantLevel := GrantSchema | GrantCategory | GrantOther (level : string).
#[export] Instance GrantLevel_eq_dec : EqDecision GrantLevel.
Proof. solve_decision. Defined.

Record Grant := mkGrant {
  g_ID : string;
  g_SubjectDID : string;
  g_RelyingDID : string;
  g_Level : GrantLevel;
  g_ScopeID : string;
  g_GrantedAt : Z;
  g_ExpiresAt : option Z;
  g_RevokedAt : option Z;
  g_ExplicitlyConfirmed : bool }.
#[export] Instance Grant_eq_dec : EqDecision Grant.
Proof. solve_decision. Defined.

Record Receipt := mkReceipt {
  r_ID : string;
  r_SubjectDID : string;
  r_RelyingDID : string;
  r_SchemaID : string;
  r_AccessedAt : Z;
  r_LegalBasis : string;
  r_Purpose : string;
  r_ExpiresAt : option Z;
  r_RevokedAt : option Z;
  r_Signature : string;
  r_SignedBy : string }.

Definition set_RevokedAt (t : Z) (g : Grant) : Grant :=
  mkGrant (g_ID g) (g_SubjectDID g) (g_RelyingDID g) (g_Level g) (g_ScopeID g)
    (g_GrantedAt g) (g_ExpiresAt g) (Some t) (g_ExplicitlyConfirmed g).

(** [Withdraw] marks a receipt; nothing else of it changes. *)
Definition Withdraw (now : Z) (r : Receipt) : Receipt :=
  mkReceipt (r_ID r) (r_SubjectDID r) (r_RelyingDID r) (r_SchemaID r) (r_AccessedAt r)
    (r_LegalBasis r) (r_Purpose r) (r_ExpiresAt r) (Some now) (r_Signature r) (r_SignedBy r).

(** The signed fields of a receipt: everything but the signature and the
    withdrawal; [fmt] stands for [time.Time.Format(time.RFC3339)]. *)
Definition receiptPayload (fmt : Z → string) (r : Receipt) : gmap string string :=
  let p := list_to_map [("id", r_ID r); ("subjectDid", r_SubjectDID r);
    ("relyingDid", r_RelyingDID r); ("schemaId", r_SchemaID r);
    ("accessedAt", fmt (r_AccessedAt r)); ("legalBasis", r_LegalBasis r);
    ("purpose", r_Purpose r); ("signedBy", r_SignedBy r)] in
  match r_ExpiresAt r with
  | Some t => <["expiresAt" := fmt t]> p
  | None => p
  end.

(** The policy's state is its slice of grants. *)
Abbreviation Policy := (list Grant).

Section WithRegistry.
Context (reg : Registry).

Definition NewPolicy (grants : list Grant) : Policy := grants.

(** One turn of [CanAccess]'s loop: does this grant open the schema? *)
Definition grant_allows (now : Z) (subjectDID relyingDID schemaID : string)
    (s : Schema) (g : Grant) : bool :=
  if negb (g_SubjectDID g =s subjectDID) || negb (g_RelyingDID g =s relyingDID) then false
  else match g_RevokedAt g with Some _ => false | None =>
  if match g_ExpiresAt g with Some e => (e <? now)%Z | None => false end then false
  else match g_Level g with
  | GrantSchema => g_ScopeID g =s schemaID
  | GrantCategory =>
      (g_ScopeID g =s sch_CategoryID s) &&
      negb (sch_ExtraSensitive s) && g_ExplicitlyConfirmed g
  | GrantOther _ => false
  end end.

Definition CanAccess (now : Z) (p : Policy) (subjectDID relyingDID schemaID : string) : result unit :=
  match GetSchema reg schemaID with
  | Err _ => Err (ErrMsg ("policy: unknown schema " +s schemaID))
  | Ok s =>
      if existsb (grant_allows now subjectDID relyingDID schemaID s) p then Ok tt
      else if sch_ExtraSensitive s then
        Err (ErrMsg ("policy: extra-sensitive, requires an individual explicit grant: " +s schemaID))
      else Err (ErrMsg ("policy: access not granted: " +s schemaID))
  end.

Definition validateGrant (g : Grant) : result unit :=
  if (g_SubjectDID g =s "") || (g_RelyingDID g =s "") || (g_ScopeID g =s "") then
    Err (ErrMsg "policy: grant missing required fields")
  else match g_Level g with
  | GrantSchema =>
      match GetSchema reg (g_ScopeID g) with
      | Err e => Err (ErrWrap "policy" e)
      | Ok s =>
          if sch_ExtraSensitive s && negb (g_ExplicitlyConfirmed g) then
            Err (ErrMsg "policy: schema is extra-sensitive; ExplicitlyConfirmed must be true")
          else Ok tt
      end
  | GrantCategory =>
      match GetCategory reg (g_ScopeID g) with
      | Err e => Err (ErrWrap "policy" e)
      | Ok _ =>
          if negb (g_ExplicitlyConfirmed g) then
            Err (ErrMsg "policy: category grants require ExplicitlyConfirmed=true")
          else Ok tt
      end
  | GrantOther l => Err (ErrMsg ("policy: unknown grant level " +s l))
  end.

Definition AddGrant (g : Grant) (p : Policy) : result Policy :=
  match validateGrant g with
  | Err e => Err e
  | Ok _ => Ok (p ++ [g])
  end.

(** The loop stops at the first grant with the identifier. *)
Fixpoint RevokeGrant (now : Z) (grantID : string) (p : Policy) : result Policy :=
  match p with
  | [] => Err (ErrMsg ("policy: grant not found: " +s grantID))
  | g :: p' =>
      if g_ID g =s grantID then
        match g_RevokedAt g with
        | Some _ => Err (ErrMsg ("policy: grant already revoked: " +s grantID))
        | None => Ok (set_RevokedAt now g :: p')
        end
      else match RevokeGrant now grantID p' with
           | Ok p'' => Ok (g :: p'')
           | Err e => Err e
           end
  end.

(** ** The abstract reading of a grant *)

Definition active (now : Z) (g : Grant) : Prop :=
  g_RevokedAt g = None ∧ ∀ e, g_ExpiresAt g = Some e → (now ≤ e)%Z.
(** The grant covers the schema: individually, or through its category when the
    schema is ordinary and the subject confirmed the category.  An individual
    grant needs no confirmation here, not even for an extra-sensitive schema:
    [CanAccess] does not read [ExplicitlyConfirmed] of it, only [AddGrant] does
    (see [extra_sensitive_needs_explicit]). *)
Definition covers (schemaID : string) (s : Schema) (g : Grant) : Prop :=
  (g_Level g = GrantSchema ∧ g_ScopeID g = schemaID) ∨
  (g_Level g = GrantCategory ∧ g_ScopeID g = sch_CategoryID s ∧
   sch_ExtraSensitive s = false ∧ g_ExplicitlyConfirmed g = true).

Lemma grant_allows_spec now sub rel sid s g :
  grant_allows now sub rel sid s g = true ↔
  g_SubjectDID g = sub ∧ g_RelyingDID g = rel ∧ active now g ∧ covers sid s g.
Proof.
  unfold grant_allows, active, covers.
  destruct (String.eqb_spec (g_SubjectDID g) sub) as [Hs|Hs]; simpl; [|naive_solver].
  destruct (String.eqb_spec (g_RelyingDID g) rel) as [Hr|Hr]; simpl; [|naive_solver].
  destruct (g_RevokedAt g); [naive_solver|].
  assert ((match g_ExpiresAt g with Some e => (e <? now)%Z | None => false end = false) ↔
    (∀ e, g_ExpiresAt g = Some e → (now ≤ e)%Z)) as Hexp.
  { destruct (g_ExpiresAt g) as [e|]; [|naive_solver]. rewrite Z.ltb_ge. naive_solver. }
  destruct (match g_ExpiresAt g with Some e => (e <? now)%Z | None => false end).
  { split; [done|]. intros (_ & _ & [_ H] & _). by apply Hexp in H. }
  destruct Hexp as [Hexp _]. specialize (Hexp eq_refl).
  destruct (g_Level g); [destruct (String.eqb_spec (g_ScopeID g) sid)| |]; try naive_solver.
  rewrite !andb_true_iff, negb_true_iff, String.eqb_eq. naive_solver.
Qed.

(** C8: [CanAccess] decides exactly this rule: the schema is known, and some grant
    of the policy from this subject to this relying party is neither revoked nor
    expired and is either a schema-level grant for exactly that schema, explicitly
    confirmed or not, or an explicitly confirmed category grant for the category
    of the schema, when the schema is not extra-sensitive. *)
Theorem CanAccess_iff (now : Z) (p : Policy) (sub rel sid : string) :
  CanAccess now p sub rel sid = Ok tt ↔
  ∃ s g, GetSchema reg sid = Ok s ∧ g ∈ p ∧ g_SubjectDID g = sub ∧ g_RelyingDID g = rel ∧
    active now g ∧ covers sid s g.
Proof.
  unfold CanAccess. destruct (GetSchema reg sid) as [s|e]; [|naive_solver].
  destruct (existsb _ p) eqn:Hex.
  - apply existsb_elem_of in Hex as (g & Hg & Ha). apply grant_allows_spec in Ha. naive_solver.
  - split; [by destruct (sch_ExtraSensitive s)|]. intros (s' & g & [= <-] & Hg & H).
    apply grant_allows_spec in H. assert (existsb (grant_allows now sub rel sid s) p = true); [|congruence].
    apply existsb_elem_of. eauto.
Qed.

(** ** Policies built by the API: a step relation *)

Inductive policy_step : Policy → Policy → Prop :=
| step_add g p p' : AddGrant g p = Ok p' → policy_step p p'
| step_revoke now id p p' : RevokeGrant now id p = Ok p' → policy_step p p'.
Definition reachable (p : Policy) : Prop := rtc policy_step (NewPolicy []) p.

(** The part of [validateGrant] that access depends on survives revocation. *)
Definition grant_valid (g : Grant) : Prop :=
  match g_Level g with
  | GrantSchema => ∃ s, GetSchema reg (g_ScopeID g) = Ok s ∧
      (sch_ExtraSensitive s = true → g_ExplicitlyConfirmed g = true)
  | GrantCategory => g_ExplicitlyConfirmed g = true
  | GrantOther _ => False
  end.

Lemma validateGrant_valid g : validateGrant g = Ok tt → grant_valid g.
Proof.
  unfold validateGrant, grant_valid. intros H. case_match; [done|].
  destruct (g_Level g); [| |done].
  - destruct (GetSchema reg (g_ScopeID g)) as [s|]; [|done]. exists s. split; [done|].
    intros Hx. rewrite Hx in H. by destruct (g_ExplicitlyConfirmed g).
  - destruct (GetCategory _ _); [|done]. by destruct (g_ExplicitlyConfirmed g).
Qed.

Lemma RevokeGrant_spec now id p p' :
  RevokeGrant now id p = Ok p' →
  ∃ l g r, p = l ++ g :: r ∧ g_ID g = id ∧ g_RevokedAt g = None ∧
    Forall (λ x, g_ID x ≠ id) l ∧ p' = l ++ set_RevokedAt now g :: r.
Proof.
  revert p'. induction p as [|g p IH]; intros p' H; simpl in H; [done|].
  destruct (String.eqb_spec (g_ID g) id) as [Hid|Hid].
  - destruct (g_RevokedAt g) eqn:Hr; simplify_eq. by exists [], g, p.
  - destruct (RevokeGrant now id p) as [p''|]; simplify_eq.
    destruct (IH p'' eq_refl) as (l & g' & r & -> & ? & ? & Hl & ->).
    exists (g :: l), g', r. repeat split; auto.
Qed.

Lemma reachable_valid p : reachable p → Forall grant_valid p.
Proof.
  unfold reachable, NewPolicy. intros Hr.
  cut (∀ p0, rtc policy_step p0 p → Forall grant_valid p0 → Forall grant_valid p).
  { intros H. by apply (H []). }
  clear. intros p0. induction 1 as [|p0 p1 p2 Hstep _ IH]; [done|]. intros H0. apply IH.
  destruct Hstep as [g p p' Ha|now id p p' Hrv].
  - unfold AddGrant in Ha. destruct (validateGrant g) as [[]|] eqn:Hv; [|done].
    injection Ha as <-. apply Forall_app. split; [done|].
    constructor; [by apply validateGrant_valid|constructor].
  - apply RevokeGrant_spec in Hrv as (l & g & r & -> & _ & _ & _ & ->).
    apply Forall_app in H0 as [Hl Hr]. inversion Hr; subst.
    apply Forall_app. split; [done|]. by constructor.
Qed.

(** Least privilege for extra-sensitive schemas: in every policy built
    through [AddGrant] and [RevokeGrant], access to an extra-sensitive schema
    comes from an individual grant for that schema which the subject explicitly
    confirmed; no category grant gives it. *)
Theorem extra_sensitive_needs_explicit (now : Z) (p : Policy) (sub rel sid : string) (s : Schema) :
  reachable p → GetSchema reg sid = Ok s → sch_ExtraSensitive s = true →
  CanAccess now p sub rel sid = Ok tt →
  ∃ g, g ∈ p ∧ g_SubjectDID g = sub ∧ g_RelyingDID g = rel ∧ active now g ∧
    g_Level g = GrantSchema ∧ g_ScopeID g = sid ∧ g_ExplicitlyConfirmed g = true.
Proof.
  intros Hreach Hs Hx Hacc. unfold CanAccess in Hacc. rewrite Hs, Hx in Hacc.
  destruct (existsb _ p) eqn:Hex; [|done].
  apply existsb_elem_of in Hex as (g & Hg & (Hsub & Hrel & Hact & Hcov)%grant_allows_spec).
  destruct Hcov as [[Hl Hsc]|(_ & _ & Hne & _)]; [|congruence].
  apply reachable_valid in Hreach. rewrite Forall_forall in Hreach.
  specialize (Hreach g Hg). unfold grant_valid in Hreach. rewrite Hl in Hreach.
  destruct Hreach as (s' & Hs' & Hconf). exists g.
  assert (s' = s) as -> by congruence. repeat split; auto; apply Hact.
Qed.

(** Revocation: a successful [RevokeGrant] keeps every record (only the
    first grant with the identifier gets a revocation time, all else is
    unchanged), removes that grant's power, and never adds access. *)
Theorem RevokeGrant_effect (now later : Z) (id : string) (p p' : Policy) :
  RevokeGrant now id p = Ok p' →
  length p' = length p ∧
  (∃ i g, p !! i = Some g ∧ g_ID g = id ∧ g_RevokedAt g = None ∧
     p' = <[i := set_RevokedAt now g]> p ∧
     (∀ sub rel sid s, grant_allows later sub rel sid s (set_RevokedAt now g) = false)) ∧
  (∀ sub rel sid, CanAccess later p' sub rel sid = Ok tt → CanAccess later p sub rel sid = Ok tt).
Proof.
  intros H. apply RevokeGrant_spec in H as (l & g & r & -> & Hid & Hnone & _ & ->).
  assert (∀ sub rel sid s, grant_allows later sub rel sid s (set_RevokedAt now g) = false) as Hoff.
  { intros. unfold grant_allows. simpl. by destruct (_ || _). }
  split; [by rewrite !length_app|]. split.
  - exists (length l), g. repeat split; auto.
    + by rewrite lookup_app_r, Nat.sub_diag.
    + by rewrite insert_app_r_alt, Nat.sub_diag.
  - intros sub rel sid. unfold CanAccess. destruct (GetSchema reg sid) as [s|]; [|done].
    rewrite !existsb_app. simpl. rewrite Hoff. simpl.
    destruct (existsb _ l); [done|]. simpl. destruct (existsb _ r); [by rewrite orb_true_r|].
    by destruct (sch_ExtraSensitive s).
Qed.
End WithRegistry.

(** ** Witnesses *)

Definition demo_schema : Schema :=
  mkSchema "healthcare.mental-health" "healthcare" "Mental health" "" 1 true [] SourceCore.
Definition demo_registry : Registry :=
  mkRegistry {["healthcare" := mkCategory "healthcare" "Healthcare" "" ""]}
    {["healthcare.mental-health" := demo_schema]}.
Definition demo_grant : Grant :=
  mkGrant "g1" "did:key:alice" "did:web:clinic" GrantSchema "healthcare.mental-health" 0 (Some 100%Z) None true.

Lemma demo_reachable : reachable demo_registry [demo_grant].
Proof.
  eapply rtc_once. apply (step_add demo_registry demo_grant []). vm_compute. reflexivity.
Qed.

Lemma extra_sensitive_needs_explicit_witness :
  ∃ g, g ∈ [demo_grant] ∧ g_SubjectDID g = "did:key:alice" ∧ g_RelyingDID g = "did:web:clinic" ∧
    active 50 g ∧ g_Level g = GrantSchema ∧ g_ScopeID g = "healthcare.mental-health" ∧
    g_ExplicitlyConfirmed g = true.
Proof.
  apply (extra_sensitive_needs_explicit demo_registry 50 [demo_grant] "did:key:alice"
    "did:web:clinic" "healthcare.mental-health" demo_schema);
    [apply demo_reachable|vm_compute; reflexivity|reflexivity|vm_compute; reflexivity].
Defined.

Lemma RevokeGrant_effect_witness :
  RevokeGrant 60 "g1" [demo_grant] = Ok [set_RevokedAt 60 demo_grant] ∧
  length [set_RevokedAt 60 demo_grant] = length [demo_grant] ∧
  CanAccess demo_registry 70 [set_RevokedAt 60 demo_grant] "did:key:alice" "did:web:clinic"
    "healthcare.mental-health" ≠ Ok tt.
Proof.
  pose proof (RevokeGrant_effect demo_registry 60 70 "g1" [demo_grant] [set_RevokedAt 60 demo_grant]
    ltac:(vm_compute; reflexivity)) as (Hlen & _ & _).
  split; [reflexivity|]. split; [exact Hlen|]. vm_compute. discriminate.
Defined.

End Consent.
