(* ===== verification/StoreTypes.v ===== *)
(** * The data the platform stores (internal/store/store.go, pkg/did, pkg/vc)

    One record per Go struct, with the struct's fields; instants are
    nanoseconds ([Z]), pointers are options.  [DB] has one finite map per table
    of the SQLite schema, keyed by the table's primary key; the audit log is a
    list because its key is the insertion order.  Columns that hold JSON text
    hold a string here too. *)

From S2P Require Import Prelude GoStd World Consent.
Import Consent.

Module Types.

Record VerificationMethod := mkVerificationMethod {
  vm_ID : string; vm_Type : string; vm_Controller : string;
  vm_PublicKeyMultibase : option string; vm_Revoked : bool; vm_NotBefore : option string }.

Record Service := mkService {
  svc_ID : string; svc_Type : string; svc_ServiceEndpoint : string }.

Record Document := mkDocument {
  doc_Context : list string; doc_ID : string; doc_Controller : string;
  doc_VerificationMethod : list VerificationMethod; doc_Authentication : list string;
  doc_KeyAgreement : list string; doc_AssertionMethod : list string;
  doc_Service : list Service; doc_Created : option Z; doc_Updated : option Z }.

Record CredentialSubject := mkCredentialSubject {
  sub_ID : string; sub_Claims : gmap string string }.

Record CredentialSchema := mkCredentialSchema {
  csch_ID : string; csch_Type : string }.

Record CredStatus := mkCredStatus {
  cst_ID : string; cst_Type : string; cst_StatusPurpose : string; cst_StatusListIndex : Z;
  cst_StatusListCredential : string }.

Record Credential := mkCredential {
  cred_Context : list string; cred_ID : string; cred_Type : list string;
  cred_Issuer : string; cred_ValidFrom : Z; cred_ValidUntil : option Z;
  cred_CredentialSubject : CredentialSubject;
  cred_CredentialSchema : option CredentialSchema; cred_CredentialStatus : option CredStatus }.

Record Proof := mkProof {
  prf_Type : string; prf_Cryptosuite : string; prf_Created : string;
  prf_VerificationMethod : string; prf_ProofPurpose : string; prf_ProofValue : string }.

Record VerifiableCredential := mkVerifiableCredential {
  vc_Credential : Credential; vc_Proof : option Proof }.

Record Identity := mkIdentity {
  i_DID : string; i_Method : string; i_SigningKeyPath : string; i_EncKeyPath : string;
  i_Role : string; i_TenantID : string; i_CreatedAt : Z; i_UpdatedAt : Z }.

Record OIDCSession := mkOIDCSession {
  s_ID : string; s_SubjectDID : string; s_ClientID : string; s_RedirectURI : string;
  s_Scope : string; s_Nonce : string; s_State : string; s_Code : string;
  s_CodeChallenge : string; s_CodeChallengeMethod : string; s_AccessToken : string;
  s_RefreshTokenHash : string; s_UserAgent : string; s_IPAddress : string;
  s_LastUsedAt : option Z; s_CreatedAt : Z; s_ExpiresAt : Z }.

Record OIDCClient := mkOIDCClient {
  c_ClientID : string; c_ClientSecretHash : string; c_ClientName : string;
  c_RedirectURIs : list string; c_TokenEndpointAuthMethod : string;
  c_GrantTypes : list string; c_ResponseTypes : list string; c_Scope : string;
  c_TenantID : string; c_BackchannelLogoutURI : string;
  c_PostLogoutRedirectURIs : list string; c_CreatedAt : Z }.

Record RefreshToken := mkRefreshToken {
  rt_Hash : string; rt_SubjectDID : string; rt_ClientID : string; rt_Scope : string;
  rt_IssuedAt : Z; rt_ExpiresAt : Z; rt_UsedAt : option Z }.

Record ExternalProviderLink := mkExternalProviderLink {
  l_SubjectDID : string; l_Provider : string; l_ExternalID : string; l_LinkedAt : Z;
  l_LastUsedAt : Z }.

Record MagicLinkToken := mkMagicLinkToken {
  ml_Hash : string; ml_Email : string; ml_ExpiresAt : Z; ml_CreatedAt : Z }.

Record WebAuthnCredential := mkWebAuthnCredential {
  wa_CredentialID : string; wa_SubjectDID : string; wa_PublicKeyCBOR : list byte;
  wa_AttestationType : string; wa_AAGUID : string; wa_SignCount : Z; wa_Name : string;
  wa_Transports : list string; wa_CreatedAt : Z; wa_LastUsedAt : option Z }.

Record TOTPCredential := mkTOTPCredential {
  tc_SubjectDID : string; tc_EncryptedSecret : string; tc_AccountName : string;
  tc_CreatedAt : Z }.

Record WebhookSubscription := mkWebhookSubscription {
  wh_ID : string; wh_URL : string; wh_EventTypes : list string; wh_SecretHash : string;
  wh_TenantID : string; wh_CreatedAt : Z }.

Record AuditEvent := mkAuditEvent {
  ae_Seq : Z; ae_Timestamp : Z; ae_EventType : string; ae_Payload : string; ae_Hash : string;
  ae_PrevHash : string }.

Record RecoveryConfig := mkRecoveryConfig {
  rc_SubjectDID : string; rc_Threshold : Z; rc_GuardianDIDs : list string; rc_CreatedAt : Z }.

Record RecoveryRequest := mkRecoveryRequest {
  rr_ID : string; rr_SubjectDID : string; rr_StartedAt : Z; rr_SharesCollected : Z;
  rr_Completed : bool }.

Record RecoveryShare := mkRecoveryShare {
  rs_RequestID : string; rs_GuardianDID : string; rs_ShareHash : string; rs_CollectedAt : Z }.

Record PARRequest := mkPARRequest {
  par_RequestURI : string; par_ClientID : string; par_Params : string; par_ExpiresAt : Z;
  par_CreatedAt : Z }.

Record DeviceCode := mkDeviceCode {
  dc_DeviceCode : string; dc_UserCode : string; dc_ClientID : string; dc_Scope : string;
  dc_SubjectDID : string; dc_Approved : bool; dc_Denied : bool; dc_ExpiresAt : Z;
  dc_IntervalSecs : Z; dc_CreatedAt : Z }.

Record PasswordResetToken := mkPasswordResetToken {
  pr_Hash : string; pr_Identifier : string; pr_ExpiresAt : Z; pr_CreatedAt : Z }.

Record PrivacyDisclosure := mkPrivacyDisclosure {
  pd_ID : string; pd_SubjectDID : string; pd_SchemaID : string; pd_VerifierDID : string;
  pd_FieldNames : list string; pd_DisclosedAt : Z }.

Record CredentialOffer := mkCredentialOffer {
  co_ID : string; co_ClientID : string; co_SchemaIDs : list string; co_IssuerDID : string;
  co_SubjectDID : string; co_ExpiresAt : Z; co_Used : bool; co_CreatedAt : Z }.

(** Rows of the tables with columns that differ from the struct: JSON text, and
    the columns the statements leave to their defaults. *)
Record ClientRow := mkClientRow {
  cr_ClientID : string; cr_ClientSecretHash : string; cr_ClientName : string;
  cr_RedirectURIs : string; cr_TokenEndpointAuthMethod : string; cr_GrantTypes : string;
  cr_ResponseTypes : string; cr_Scope : string; cr_TenantID : string;
  cr_BackchannelLogoutURI : string; cr_PostLogoutRedirectURIs : string; cr_CreatedAt : Z }.
Record CredentialRow := mkCredentialRow {
  crd_id : string; crd_subject_did : string; crd_issuer_did : string; crd_schema_id : string;
  crd_valid_from : Z; crd_valid_until : option Z; crd_credential : string; crd_created_at : Z }.
Record WebAuthnRow := mkWebAuthnRow {
  war_CredentialID : string; war_SubjectDID : string; war_PublicKeyCBOR : list byte;
  war_AttestationType : string; war_AAGUID : string; war_SignCount : Z; war_Name : string;
  war_Transports : string; war_CreatedAt : Z; war_LastUsedAt : option Z }.
Record WebhookRow := mkWebhookRow {
  whr_ID : string; whr_URL : string; whr_EventTypes : string; whr_SecretHash : string;
  whr_TenantID : string; whr_CreatedAt : Z }.
Record AuthFailureRow := mkAuthFailureRow {
  af_subject_or_email : string; af_count : Z; af_last_failure_at : Z; af_locked_until : option Z }.
Record RecoveryConfigRow := mkRecoveryConfigRow {
  rcr_subject_did : string; rcr_threshold : Z; rcr_guardian_dids : string; rcr_created_at : Z }.
Record DisclosureRow := mkDisclosureRow {
  pdr_id : string; pdr_subject_did : string; pdr_schema_id : string; pdr_verifier_did : string;
  pdr_field_names : string; pdr_disclosed_at : Z }.
Record OfferRow := mkOfferRow {
  cor_id : string; cor_client_id : string; cor_schema_ids : string; cor_issuer_did : string;
  cor_subject_did : string; cor_expires_at : Z; cor_used : bool; cor_created_at : Z }.
(** consent_receipts has no column for the expiry or the withdrawal of a receipt. *)
Record ReceiptRow := mkReceiptRow {
  rcp_id : string; rcp_subject_did : string; rcp_relying_did : string; rcp_schema_id : string;
  rcp_accessed_at : Z; rcp_legal_basis : string; rcp_purpose : string; rcp_signed_by : string;
  rcp_signature : string }.

(** The database.  [has_revoked_at] says whether consent_grants has the column
    revoked_at: the table [migrate] creates lacks it, the one the migration
    scripts create has it. *)
Record DB := mkDB {
  identities : gmap string Identity;
  did_documents : gmap string (string * Z);
  credentials : gmap string CredentialRow;
  consent_grants : gmap string Grant;
  consent_receipts : gmap string ReceiptRow;
  oidc_sessions : gmap string OIDCSession;
  oidc_clients : gmap string ClientRow;
  refresh_tokens : gmap string RefreshToken;
  external_provider_links : gmap (string * string) ExternalProviderLink;
  magic_link_tokens : gmap string MagicLinkToken;
  webauthn_credentials : gmap string WebAuthnRow;
  totp_credentials : gmap string TOTPCredential;
  webhook_subscriptions : gmap string WebhookRow;
  auth_failures : gmap string AuthFailureRow;
  passwords : gmap string (string * Z);
  duress_configs : gmap string (string * Z);
  audit_log : list AuditEvent;
  recovery_configs : gmap string RecoveryConfigRow;
  recovery_requests : gmap string RecoveryRequest;
  recovery_shares : gmap (string * string) RecoveryShare;
  par_requests : gmap string PARRequest;
  device_codes : gmap string DeviceCode;
  password_reset_tokens : gmap string PasswordResetToken;
  privacy_disclosures : gmap string DisclosureRow;
  credential_offers : gmap string OfferRow;
  has_revoked_at : bool }.

Definition empty_db (migrated : bool) : DB :=
  mkDB ∅ ∅ ∅ ∅ ∅ ∅ ∅ ∅ ∅ ∅ ∅ ∅ ∅ ∅ ∅ ∅ [] ∅ ∅ ∅ ∅ ∅ ∅ ∅ ∅ migrated.

(** Setters. *)
Definition set_identities (x : gmap string Identity) (d : DB) : DB :=
  mkDB x (did_documents d) (credentials d) (consent_grants d) (consent_receipts d)
    (oidc_sessions d) (oidc_clients d) (refresh_tokens d) (external_provider_links d)
    (magic_link_tokens d) (webauthn_credentials d) (totp_credentials d)
    (webhook_subscriptions d) (auth_failures d) (passwords d) (duress_configs d) (audit_log
    d) (recovery_configs d) (recovery_requests d) (recovery_shares d) (par_requests d)
    (device_codes d) (password_reset_tokens d) (privacy_disclosures d) (credential_offers d)
    (has_revoked_at d).
Definition set_did_documents (x : gmap string (string * Z)) (d : DB) : DB :=
  mkDB (identities d) x (credentials d) (consent_grants d) (consent_receipts d)
    (oidc_sessions d) (oidc_clients d) (refresh_tokens d) (external_provider_links d)
    (magic_link_tokens d) (webauthn_credentials d) (totp_credentials d)
    (webhook_subscriptions d) (auth_failures d) (passwords d) (duress_configs d) (audit_log
    d) (recovery_configs d) (recovery_requests d) (recovery_shares d) (par_requests d)
    (device_codes d) (password_reset_tokens d) (privacy_disclosures d) (credential_offers d)
    (has_revoked_at d).
Definition set_credentials (x : gmap string CredentialRow) (d : DB) : DB :=
  mkDB (identities d) (did_documents d) x (consent_grants d) (consent_receipts d)
    (oidc_sessions d) (oidc_clients d) (refresh_tokens d) (external_provider_links d)
    (magic_link_tokens d) (webauthn_credentials d) (totp_credentials d)
    (webhook_subscriptions d) (auth_failures d) (passwords d) (duress_configs d) (audit_log
    d) (recovery_configs d) (recovery_requests d) (recovery_shares d) (par_requests d)
    (device_codes d) (password_reset_tokens d) (privacy_disclosures d) (credential_offers d)
    (has_revoked_at d).
Definition set_consent_grants (x : gmap string Grant) (d : DB) : DB :=
  mkDB (identities d) (did_documents d) (credentials d) x (consent_receipts d)
    (oidc_sessions d) (oidc_clients d) (refresh_tokens d) (external_provider_links d)
    (magic_link_tokens d) (webauthn_credentials d) (totp_credentials d)
    (webhook_subscriptions d) (auth_failures d) (passwords d) (duress_configs d) (audit_log
    d) (recovery_configs d) (recovery_requests d) (recovery_shares d) (par_requests d)
    (device_codes d) (password_reset_tokens d) (privacy_disclosures d) (credential_offers d)
    (has_revoked_at d).
Definition set_consent_receipts (x : gmap string ReceiptRow) (d : DB) : DB :=
  mkDB (identities d) (did_documents d) (credentials d) (consent_grants d) x (oidc_sessions
    d) (oidc_clients d) (refresh_tokens d) (external_provider_links d) (magic_link_tokens d)
    (webauthn_credentials d) (totp_credentials d) (webhook_subscriptions d) (auth_failures
    d) (passwords d) (duress_configs d) (audit_log d) (recovery_configs d)
    (recovery_requests d) (recovery_shares d) (par_requests d) (device_codes d)
    (password_reset_tokens d) (privacy_disclosures d) (credential_offers d) (has_revoked_at
    d).
Definition set_oidc_sessions (x : gmap string OIDCSession) (d : DB) : DB :=
  mkDB (identities d) (did_documents d) (credentials d) (consent_grants d) (consent_receipts
    d) x (oidc_clients d) (refresh_tokens d) (external_provider_links d) (magic_link_tokens
    d) (webauthn_credentials d) (totp_credentials d) (webhook_subscriptions d)
    (auth_failures d) (passwords d) (duress_configs d) (audit_log d) (recovery_configs d)
    (recovery_requests d) (recovery_shares d) (par_requests d) (device_codes d)
    (password_reset_tokens d) (privacy_disclosures d) (credential_offers d) (has_revoked_at
    d).
Definition set_oidc_clients (x : gmap string ClientRow) (d : DB) : DB :=
  mkDB (identities d) (did_documents d) (credentials d) (consent_grants d) (consent_receipts
    d) (oidc_sessions d) x (refresh_tokens d) (external_provider_links d) (magic_link_tokens
    d) (webauthn_credentials d) (totp_credentials d) (webhook_subscriptions d)
    (auth_failures d) (passwords d) (duress_configs d) (audit_log d) (recovery_configs d)
    (recovery_requests d) (recovery_shares d) (par_requests d) (device_codes d)
    (password_reset_tokens d) (privacy_disclosures d) (credential_offers d) (has_revoked_at
    d).
Definition set_refresh_tokens (x : gmap string RefreshToken) (d : DB) : DB :=
  mkDB (identities d) (did_documents d) (credentials d) (consent_grants d) (consent_receipts
    d) (oidc_sessions d) (oidc_clients d) x (external_provider_links d) (magic_link_tokens
    d) (webauthn_credentials d) (totp_credentials d) (webhook_subscriptions d)
    (auth_failures d) (passwords d) (duress_configs d) (audit_log d) (recovery_configs d)
    (recovery_requests d) (recovery_shares d) (par_requests d) (device_codes d)
    (password_reset_tokens d) (privacy_disclosures d) (credential_offers d) (has_revoked_at
    d).
Definition set_external_provider_links (x : gmap (string * string) ExternalProviderLink) (d : DB) : DB :=
  mkDB (identities d) (did_documents d) (credentials d) (consent_grants d) (consent_receipts
    d) (oidc_sessions d) (oidc_clients d) (refresh_tokens d) x (magic_link_tokens d)
    (webauthn_credentials d) (totp_credentials d) (webhook_subscriptions d) (auth_failures
    d) (passwords d) (duress_configs d) (audit_log d) (recovery_configs d)
    (recovery_requests d) (recovery_shares d) (par_requests d) (device_codes d)
    (password_reset_tokens d) (privacy_disclosures d) (credential_offers d) (has_revoked_at
    d).
Definition set_magic_link_tokens (x : gmap string MagicLinkToken) (d : DB) : DB :=
  mkDB (identities d) (did_documents d) (credentials d) (consent_grants d) (consent_receipts
    d) (oidc_sessions d) (oidc_clients d) (refresh_tokens d) (external_provider_links d) x
    (webauthn_credentials d) (totp_credentials d) (webhook_subscriptions d) (auth_failures
    d) (passwords d) (duress_configs d) (audit_log d) (recovery_configs d)
    (recovery_requests d) (recovery_shares d) (par_requests d) (device_codes d)
    (password_reset_tokens d) (privacy_disclosures d) (credential_offers d) (has_revoked_at
    d).
Definition set_webauthn_credentials (x : gmap string WebAuthnRow) (d : DB) : DB :=
  mkDB (identities d) (did_documents d) (credentials d) (consent_grants d) (consent_receipts
    d) (oidc_sessions d) (oidc_clients d) (refresh_tokens d) (external_provider_links d)
    (magic_link_tokens d) x (totp_credentials d) (webhook_subscriptions d) (auth_failures d)
    (passwords d) (duress_configs d) (audit_log d) (recovery_configs d) (recovery_requests
    d) (recovery_shares d) (par_requests d) (device_codes d) (password_reset_tokens d)
    (privacy_disclosures d) (credential_offers d) (has_revoked_at d).
Definition set_totp_credentials (x : gmap string TOTPCredential) (d : DB) : DB :=
  mkDB (identities d) (did_documents d) (credentials d) (consent_grants d) (consent_receipts
    d) (oidc_sessions d) (oidc_clients d) (refresh_tokens d) (external_provider_links d)
    (magic_link_tokens d) (webauthn_credentials d) x (webhook_subscriptions d)
    (auth_failures d) (passwords d) (duress_configs d) (audit_log d) (recovery_configs d)
    (recovery_requests d) (recovery_shares d) (par_requests d) (device_codes d)
    (password_reset_tokens d) (privacy_disclosures d) (credential_offers d) (has_revoked_at
    d).
Definition set_webhook_subscriptions (x : gmap string WebhookRow) (d : DB) : DB :=
  mkDB (identities d) (did_documents d) (credentials d) (consent_grants d) (consent_receipts
    d) (oidc_sessions d) (oidc_clients d) (refresh_tokens d) (external_provider_links d)
    (magic_link_tokens d) (webauthn_credentials d) (totp_credentials d) x (auth_failures d)
    (passwords d) (duress_configs d) (audit_log d) (recovery_configs d) (recovery_requests
    d) (recovery_shares d) (par_requests d) (device_codes d) (password_reset_tokens d)
    (privacy_disclosures d) (credential_offers d) (has_revoked_at d).
Definition set_auth_failures (x : gmap string AuthFailureRow) (d : DB) : DB :=
  mkDB (identities d) (did_documents d) (credentials d) (consent_grants d) (consent_receipts
    d) (oidc_sessions d) (oidc_clients d) (refresh_tokens d) (external_provider_links d)
    (magic_link_tokens d) (webauthn_credentials d) (totp_credentials d)
    (webhook_subscriptions d) x (passwords d) (duress_configs d) (audit_log d)
    (recovery_configs d) (recovery_requests d) (recovery_shares d) (par_requests d)
    (device_codes d) (password_reset_tokens d) (privacy_disclosures d) (credential_offers d)
    (has_revoked_at d).
Definition set_passwords (x : gmap string (string * Z)) (d : DB) : DB :=
  mkDB (identities d) (did_documents d) (credentials d) (consent_grants d) (consent_receipts
    d) (oidc_sessions d) (oidc_clients d) (refresh_tokens d) (external_provider_links d)
    (magic_link_tokens d) (webauthn_credentials d) (totp_credentials d)
    (webhook_subscriptions d) (auth_failures d) x (duress_configs d) (audit_log d)
    (recovery_configs d) (recovery_requests d) (recovery_shares d) (par_requests d)
    (device_codes d) (password_reset_tokens d) (privacy_disclosures d) (credential_offers d)
    (has_revoked_at d).
Definition set_duress_configs (x : gmap string (string * Z)) (d : DB) : DB :=
  mkDB (identities d) (did_documents d) (credentials d) (consent_grants d) (consent_receipts
    d) (oidc_sessions d) (oidc_clients d) (refresh_tokens d) (external_provider_links d)
    (magic_link_tokens d) (webauthn_credentials d) (totp_credentials d)
    (webhook_subscriptions d) (auth_failures d) (passwords d) x (audit_log d)
    (recovery_configs d) (recovery_requests d) (recovery_shares d) (par_requests d)
    (device_codes d) (password_reset_tokens d) (privacy_disclosures d) (credential_offers d)
    (has_revoked_at d).
Definition set_audit_log (x : list AuditEvent) (d : DB) : DB :=
  mkDB (identities d) (did_documents d) (credentials d) (consent_grants d) (consent_receipts
    d) (oidc_sessions d) (oidc_clients d) (refresh_tokens d) (external_provider_links d)
    (magic_link_tokens d) (webauthn_credentials d) (totp_credentials d)
    (webhook_subscriptions d) (auth_failures d) (passwords d) (duress_configs d) x
    (recovery_configs d) (recovery_requests d) (recovery_shares d) (par_requests d)
    (device_codes d) (password_reset_tokens d) (privacy_disclosures d) (credential_offers d)
    (has_revoked_at d).
Definition set_recovery_configs (x : gmap string RecoveryConfigRow) (d : DB) : DB :=
  mkDB (identities d) (did_documents d) (credentials d) (consent_grants d) (consent_receipts
    d) (oidc_sessions d) (oidc_clients d) (refresh_tokens d) (external_provider_links d)
    (magic_link_tokens d) (webauthn_credentials d) (totp_credentials d)
    (webhook_subscriptions d) (auth_failures d) (passwords d) (duress_configs d) (audit_log
    d) x (recovery_requests d) (recovery_shares d) (par_requests d) (device_codes d)
    (password_reset_tokens d) (privacy_disclosures d) (credential_offers d) (has_revoked_at
    d).
Definition set_recovery_requests (x : gmap string RecoveryRequest) (d : DB) : DB :=
  mkDB (identities d) (did_documents d) (credentials d) (consent_grants d) (consent_receipts
    d) (oidc_sessions d) (oidc_clients d) (refresh_tokens d) (external_provider_links d)
    (magic_link_tokens d) (webauthn_credentials d) (totp_credentials d)
    (webhook_subscriptions d) (auth_failures d) (passwords d) (duress_configs d) (audit_log
    d) (recovery_configs d) x (recovery_shares d) (par_requests d) (device_codes d)
    (password_reset_tokens d) (privacy_disclosures d) (credential_offers d) (has_revoked_at
    d).
Definition set_recovery_shares (x : gmap (string * string) RecoveryShare) (d : DB) : DB :=
  mkDB (identities d) (did_documents d) (credentials d) (consent_grants d) (consent_receipts
    d) (oidc_sessions d) (oidc_clients d) (refresh_tokens d) (external_provider_links d)
    (magic_link_tokens d) (webauthn_credentials d) (totp_credentials d)
    (webhook_subscriptions d) (auth_failures d) (passwords d) (duress_configs d) (audit_log
    d) (recovery_configs d) (recovery_requests d) x (par_requests d) (device_codes d)
    (password_reset_tokens d) (privacy_disclosures d) (credential_offers d) (has_revoked_at
    d).
Definition set_par_requests (x : gmap string PARRequest) (d : DB) : DB :=
  mkDB (identities d) (did_documents d) (credentials d) (consent_grants d) (consent_receipts
    d) (oidc_sessions d) (oidc_clients d) (refresh_tokens d) (external_provider_links d)
    (magic_link_tokens d) (webauthn_credentials d) (totp_credentials d)
    (webhook_subscriptions d) (auth_failures d) (passwords d) (duress_configs d) (audit_log
    d) (recovery_configs d) (recovery_requests d) (recovery_shares d) x (device_codes d)
    (password_reset_tokens d) (privacy_disclosures d) (credential_offers d) (has_revoked_at
    d).
Definition set_device_codes (x : gmap string DeviceCode) (d : DB) : DB :=
  mkDB (identities d) (did_documents d) (credentials d) (consent_grants d) (consent_receipts
    d) (oidc_sessions d) (oidc_clients d) (refresh_tokens d) (external_provider_links d)
    (magic_link_tokens d) (webauthn_credentials d) (totp_credentials d)
    (webhook_subscriptions d) (auth_failures d) (passwords d) (duress_configs d) (audit_log
    d) (recovery_configs d) (recovery_requests d) (recovery_shares d) (par_requests d) x
    (password_reset_tokens d) (privacy_disclosures d) (credential_offers d) (has_revoked_at
    d).
Definition set_password_reset_tokens (x : gmap string PasswordResetToken) (d : DB) : DB :=
  mkDB (identities d) (did_documents d) (credentials d) (consent_grants d) (consent_receipts
    d) (oidc_sessions d) (oidc_clients d) (refresh_tokens d) (external_provider_links d)
    (magic_link_tokens d) (webauthn_credentials d) (totp_credentials d)
    (webhook_subscriptions d) (auth_failures d) (passwords d) (duress_configs d) (audit_log
    d) (recovery_configs d) (recovery_requests d) (recovery_shares d) (par_requests d)
    (device_codes d) x (privacy_disclosures d) (credential_offers d) (has_revoked_at d).
Definition set_privacy_disclosures (x : gmap string DisclosureRow) (d : DB) : DB :=
  mkDB (identities d) (did_documents d) (credentials d) (consent_grants d) (consent_receipts
    d) (oidc_sessions d) (oidc_clients d) (refresh_tokens d) (external_provider_links d)
    (magic_link_tokens d) (webauthn_credentials d) (totp_credentials d)
    (webhook_subscriptions d) (auth_failures d) (passwords d) (duress_configs d) (audit_log
    d) (recovery_configs d) (recovery_requests d) (recovery_shares d) (par_requests d)
    (device_codes d) (password_reset_tokens d) x (credential_offers d) (has_revoked_at d).
Definition set_credential_offers (x : gmap string OfferRow) (d : DB) : DB :=
  mkDB (identities d) (did_documents d) (credentials d) (consent_grants d) (consent_receipts
    d) (oidc_sessions d) (oidc_clients d) (refresh_tokens d) (external_provider_links d)
    (magic_link_tokens d) (webauthn_credentials d) (totp_credentials d)
    (webhook_subscriptions d) (auth_failures d) (passwords d) (duress_configs d) (audit_log
    d) (recovery_configs d) (recovery_requests d) (recovery_shares d) (par_requests d)
    (device_codes d) (password_reset_tokens d) (privacy_disclosures d) x (has_revoked_at d).

(** ** The server's state *)

(** The database, the in-memory set of revoked access tokens (with their
    expiry), and the webhook deliveries started so far (subscription and body). *)
Record Srv := mkSrv {
  srv_db : DB;
  srv_revoked : gmap string Z;
  srv_outbox : list (WebhookSubscription * string) }.
Definition init_srv : Srv := mkSrv (empty_db true) ∅ [].

(** A statement run against the database. *)
Definition on_db {A} (f : DB → result A * DB) : M Srv (result A) :=
  db_call (λ s, let '(r, d) := f (srv_db s) in (r, mkSrv d (srv_revoked s) (srv_outbox s))).

(** Read-only statement. *)
Definition query {A} (f : DB → result A) : M Srv (result A) := on_db (λ d, (f d, d)).
(** A write that cannot violate a constraint. *)
Definition exec (f : DB → DB) : M Srv (result unit) := on_db (λ d, (Ok tt, f d)).

Lemma wp_on_db {A} (f : DB → result A * DB) Q w :
  (∀ msg, w_fault w (w_nfault w) = Some msg →
    Q (Err (ErrDriver msg)) (snd (on_db f w))) →
  (w_fault w (w_nfault w) = None →
    Q (fst (f (srv_db (w_state w)))) (snd (on_db f w))) →
  wp (on_db f) Q w.
Proof.
  intros Hf Hok. unfold wp, on_db, db_call in *.
  destruct (w_fault w (w_nfault w)) as [msg|]; [by apply Hf|]. specialize (Hok eq_refl).
  by destruct (f (srv_db (w_state w))).
Qed.

End Types.
