(* ===== verification/Store.v ===== *)
(** * The SQLite store (internal/store/sqlite.go)

    One definition per method of [SQLiteStore], each the SQL it runs: inserts
    fail on a taken primary key, upserts change exactly the columns their
    DO UPDATE SET lists, updates and deletes of a missing row do nothing, a
    single-row query with no match returns [sql.ErrNoRows].  Every call may also
    fail with an I/O error of the driver, which leaves the database alone. *)

From S2P Require Import Prelude GoStd World Json Schema Consent StoreTypes.
Import Consent Types.

(** encoding/json for the values the store keeps as text. *)
Class JsonCodec (A : Type) := {
  json_marshal : A → result string;
  json_unmarshal : string → result A }.
(** The documented round trip, on the values [ok] that survive it (strings that
    are valid UTF-8). *)
Class JsonRoundTrip (A : Type) `{JsonCodec A} (ok : A → Prop) : Prop := {
  json_roundtrip a : ok a → ∃ t, json_marshal a = Ok t ∧ t ≠ "" ∧ json_unmarshal t = Ok a }.

(** Lists of strings: a reader of the text [Marshal] writes. *)
#[export] Instance strings_codec : JsonCodec (list string) := {|
  json_marshal l := Ok (str_of (Json.marshal_strings l));
  json_unmarshal t := of_option (ErrMsg "invalid character") (Json.parse_strings (bytes_of t)) |}.
#[export] Instance strings_roundtrip : JsonRoundTrip (list string) (Forall Json.valid_utf8).
Proof.
  split. intros l Hl. eexists. split; [done|]. split.
  - intros E. apply (f_equal bytes_of) in E. rewrite bytes_of_str_of in E. by destruct l.
  - simpl. by rewrite bytes_of_str_of, Json.parse_marshal_strings.
Qed.

Module Store.

(** ** SQL building blocks *)

Section Tables.
Context {K V : Type} `{Countable K}.
Definition select (k : K) (m : gmap K V) : result V := of_option ErrNoRows (m !! k).
(** INSERT: fails on a taken primary key. *)
Definition insert_new (k : K) (v : V) (m : gmap K V) : result (gmap K V) :=
  match m !! k with
  | Some _ => Err (ErrConstraint "UNIQUE constraint failed")
  | None => Ok (<[k := v]> m)
  end.
(** INSERT ... ON CONFLICT DO UPDATE SET: [merge old new] is the updated row. *)
Definition upsert (merge : V → V → V) (k : K) (v : V) (m : gmap K V) : gmap K V :=
  match m !! k with
  | Some old => <[k := merge old v]> m
  | None => <[k := v]> m
  end.
Definition rows (P : V → bool) (m : gmap K V) : list V :=
  filter (λ v, P v = true) (snd <$> map_to_list m).
End Tables.

(** ORDER BY key: ascending; descending is the negated key. *)
Section OrderBy.
Context {A : Type} (key : A → Z).
Fixpoint place (x : A) (l : list A) : list A :=
  match l with
  | [] => [x]
  | y :: l' => if (key x <=? key y)%Z then x :: l else y :: place x l'
  end.
Definition order_by (l : list A) : list A := foldr place [] l.

Lemma place_perm x l : place x l ≡ₚ x :: l.
Proof.
  induction l as [|y l IH]; simpl; [done|]. destruct (key x <=? key y)%Z; [done|].
  rewrite IH. apply Permutation_swap.
Qed.
Lemma order_by_perm l : order_by l ≡ₚ l.
Proof. induction l as [|x l IH]; simpl; [done|]. by rewrite place_perm, IH. Qed.
End OrderBy.
Definition order_by_desc {A} (key : A → Z) (l : list A) : list A := order_by (λ x, - key x)%Z l.

Definition limit_offset {A} (limit offset : Z) (l : list A) : list A :=
  let l := drop (Z.to_nat offset) l in
  if (limit <? 0)%Z then l else take (Z.to_nat limit) l.

(** Run an INSERT on one table. *)
Definition exec_insert {K V} `{Countable K} (get : DB → gmap K V) (set : gmap K V → DB → DB)
    (k : K) (v : V) : M Srv (result unit) :=
  on_db (λ d, match insert_new k v (get d) with
              | Ok m => (Ok tt, set m d)
              | Err e => (Err e, d)
              end).

(** The database's CURRENT_TIMESTAMP, in whole seconds. *)
Definition current_timestamp : M Srv Z :=
  t ← time_now; mret (unix t * second)%Z.

Section Codecs.
Context `{JsonCodec Document, JsonCodec VerifiableCredential}.

(** [b, _ := json.Marshal(v)]: the error is dropped, the text is then empty. *)
Definition marshal_or_empty (l : list string) : string :=
  match json_marshal l with Ok t => t | Err _ => "" end.
(** [unmarshalField] into a nil slice, its error dropped or only logged. *)
Definition unmarshalField (s : string) : list string :=
  if s =s "" then [] else match json_unmarshal s with Ok l => l | Err _ => [] end.

(** ** Identities *)

Definition SaveIdentity (id : Identity) : M Srv (result unit) :=
  let role := if i_Role id =s "" then "user" else i_Role id in
  let row := mkIdentity (i_DID id) (i_Method id) (i_SigningKeyPath id) (i_EncKeyPath id) role
               (i_TenantID id) (i_CreatedAt id) (i_UpdatedAt id) in
  exec (λ d, set_identities (upsert (λ old new,
    mkIdentity (i_DID old) (i_Method old) (i_SigningKeyPath new) (i_EncKeyPath new) (i_Role new)
      (i_TenantID new) (i_CreatedAt old) (i_UpdatedAt new)) (i_DID id) row (identities d)) d).

Definition GetIdentity (did : string) : M Srv (result Identity) :=
  r ← query (λ d, select did (identities d));
  mret (wrap_err "get identity" r).

Definition ListIdentities (limit offset : Z) : M Srv (result (list Identity * Z)) :=
  total ← query (λ d, Ok (Z.of_nat (size (identities d))));
  match total with
  | Err e => mret (Err (ErrWrap "list identities count" e))
  | Ok n =>
      ids ← query (λ d, Ok (limit_offset limit offset
              (order_by_desc i_CreatedAt (rows (λ _, true) (identities d)))));
      match ids with
      | Err e => mret (Err (ErrWrap "list identities" e))
      | Ok l => mret (Ok (l, n))
      end
  end.

Definition UpdateIdentity (id : Identity) : M Srv (result unit) :=
  exec (λ d, set_identities (alter (λ old,
    mkIdentity (i_DID old) (i_Method old) (i_SigningKeyPath old) (i_EncKeyPath old) (i_Role id)
      (i_TenantID id) (i_CreatedAt old) (i_UpdatedAt id)) (i_DID id) (identities d)) d).

(** ** DID documents *)

Definition SaveDocument (doc : Document) : M Srv (result unit) :=
  match json_marshal doc with
  | Err e => mret (Err e)
  | Ok b =>
      now ← time_now;
      exec (λ d, set_did_documents (<[doc_ID doc := (b, now)]> (did_documents d)) d)
  end.

Definition GetDocument (id : string) : M Srv (result Document) :=
  r ← query (λ d, select id (did_documents d));
  match r with
  | Err e => mret (Err (ErrWrap "get document" e))
  | Ok (raw, _) => mret (json_unmarshal raw)
  end.

(** ** Verifiable credentials *)

Definition SaveCredential (v : VerifiableCredential) : M Srv (result unit) :=
  match json_marshal v with
  | Err e => mret (Err e)
  | Ok b =>
      let cr := vc_Credential v in
      let schemaID := match cred_CredentialSchema cr with Some s => csch_ID s | None => "" end in
      now ← time_now;
      exec_insert credentials set_credentials (cred_ID cr)
        (mkCredentialRow (cred_ID cr) (sub_ID (cred_CredentialSubject cr)) (cred_Issuer cr) schemaID
           (cred_ValidFrom cr) (cred_ValidUntil cr) b now)
  end.

Definition GetCredential (id : string) : M Srv (result VerifiableCredential) :=
  r ← query (λ d, select id (credentials d));
  match r with
  | Err e => mret (Err (ErrWrap "get credential" e))
  | Ok row => mret (json_unmarshal (crd_credential row))
  end.

(** [scanCredentials]: the first row that does not decode ends the scan. *)
Fixpoint scanCredentials (l : list CredentialRow) : result (list VerifiableCredential) :=
  match l with
  | [] => Ok []
  | row :: l' =>
      match json_unmarshal (crd_credential row) with
      | Err e => Err e
      | Ok v => cons v <$> scanCredentials l'
      end
  end.

Definition ListCredentials (subjectDID : string) : M Srv (result (list VerifiableCredential)) :=
  r ← query (λ d, Ok (order_by_desc crd_valid_from
        (rows (λ row, crd_subject_did row =s subjectDID) (credentials d))));
  mret (r ≫= scanCredentials).

Definition DeleteCredential (id : string) : M Srv (result unit) :=
  exec (λ d, set_credentials (delete id (credentials d)) d).

(** ** Consent grants: the statement has no revoked_at column *)

Definition SaveGrant (g : Grant) : M Srv (result unit) :=
  exec_insert consent_grants set_consent_grants (g_ID g)
    (mkGrant (g_ID g) (g_SubjectDID g) (g_RelyingDID g) (g_Level g) (g_ScopeID g)
       (g_GrantedAt g) (g_ExpiresAt g) None (g_ExplicitlyConfirmed g)).

Definition GetGrant (id : string) : M Srv (result Grant) :=
  r ← query (λ d, select id (consent_grants d));
  mret (wrap_err "get grant" r).

Definition ListGrants (subjectDID : string) : M Srv (result (list Grant)) :=
  query (λ d, Ok (order_by_desc g_GrantedAt
    (rows (λ g, g_SubjectDID g =s subjectDID) (consent_grants d)))).

Definition DeleteGrant (id : string) : M Srv (result unit) :=
  exec (λ d, set_consent_grants (delete id (consent_grants d)) d).

(** The statement names the column revoked_at, which only migrated databases have. *)
Definition ListExpiringGrants (within : Z) : M Srv (result (list Grant)) :=
  now ← time_now;
  let cutoff := (now + within)%Z in
  query (λ d,
    if has_revoked_at d then
      Ok (order_by (λ g, default 0%Z (g_ExpiresAt g))
           (rows (λ g, match g_ExpiresAt g, g_RevokedAt g with
                       | Some e, None => (e <=? cutoff)%Z
                       | _, _ => false
                       end) (consent_grants d)))
    else Err (ErrDriver "SQL logic error: no such column: revoked_at")).

(** ** Consent receipts *)

Definition SaveReceipt (r : Receipt) : M Srv (result unit) :=
  exec_insert consent_receipts set_consent_receipts (r_ID r)
    (mkReceiptRow (r_ID r) (r_SubjectDID r) (r_RelyingDID r) (r_SchemaID r) (r_AccessedAt r)
       (r_LegalBasis r) (r_Purpose r) (r_SignedBy r) (r_Signature r)).

Definition receipt_of_row (row : ReceiptRow) : Receipt :=
  mkReceipt (rcp_id row) (rcp_subject_did row) (rcp_relying_did row) (rcp_schema_id row)
    (rcp_accessed_at row) (rcp_legal_basis row) (rcp_purpose row) None None
    (rcp_signature row) (rcp_signed_by row).

Definition ListReceipts (subjectDID : string) : M Srv (result (list Receipt)) :=
  query (λ d, Ok (receipt_of_row <$> order_by_desc rcp_accessed_at
    (rows (λ row, rcp_subject_did row =s subjectDID) (consent_receipts d)))).

(** ** OIDC sessions *)

Definition session_merge (old new : OIDCSession) : OIDCSession :=
  mkOIDCSession (s_ID old) (s_SubjectDID old) (s_ClientID old) (s_RedirectURI old) (s_Scope old)
    (s_Nonce old) (s_State new) (s_Code new) (s_CodeChallenge new) (s_CodeChallengeMethod new)
    (s_AccessToken new) (s_RefreshTokenHash new) (s_UserAgent old) (s_IPAddress old)
    (s_LastUsedAt new) (s_CreatedAt old) (s_ExpiresAt new).
Definition SaveSession (sess : OIDCSession) : M Srv (result unit) :=
  exec (λ d, set_oidc_sessions (upsert session_merge (s_ID sess) sess (oidc_sessions d)) d).

Definition GetSession (id : string) : M Srv (result OIDCSession) :=
  r ← query (λ d, select id (oidc_sessions d));
  mret (wrap_err "scan session" r).

(** The column is indexed but not unique: the query returns some matching row. *)
Definition session_by_code (code : string) (d : DB) : result OIDCSession :=
  of_option ErrNoRows (head (rows (λ s, s_Code s =s code) (oidc_sessions d))).
Definition GetSessionByCode (code : string) : M Srv (result OIDCSession) :=
  r ← query (session_by_code code);
  mret (wrap_err "scan session" r).

Definition ListSessionsBySubject (subjectDID : string) : M Srv (result (list OIDCSession)) :=
  now ← time_now;
  query (λ d, Ok (order_by_desc s_CreatedAt
    (rows (λ s, (s_SubjectDID s =s subjectDID) && (now <? s_ExpiresAt s)%Z) (oidc_sessions d)))).

Definition DeleteSession (id : string) : M Srv (result unit) :=
  exec (λ d, set_oidc_sessions (delete id (oidc_sessions d)) d).

Definition PurgeExpiredSessions : M Srv (result unit) :=
  now ← time_now;
  exec (λ d, set_oidc_sessions (filter (λ '(_, s), ¬ (s_ExpiresAt s < now)%Z) (oidc_sessions d)) d).

(** ** OIDC clients *)

Definition client_merge (old new : ClientRow) : ClientRow :=
  mkClientRow (cr_ClientID old) (cr_ClientSecretHash new) (cr_ClientName new) (cr_RedirectURIs new)
    (cr_TokenEndpointAuthMethod new) (cr_GrantTypes new) (cr_ResponseTypes new) (cr_Scope new)
    (cr_TenantID old) (cr_BackchannelLogoutURI new) (cr_PostLogoutRedirectURIs new) (cr_CreatedAt old).
Definition SaveClient (c : OIDCClient) : M Srv (result unit) :=
  let row := mkClientRow (c_ClientID c) (c_ClientSecretHash c) (c_ClientName c)
    (marshal_or_empty (c_RedirectURIs c)) (c_TokenEndpointAuthMethod c)
    (marshal_or_empty (c_GrantTypes c)) (marshal_or_empty (c_ResponseTypes c)) (c_Scope c)
    (c_TenantID c) (c_BackchannelLogoutURI c) (marshal_or_empty (c_PostLogoutRedirectURIs c))
    (c_CreatedAt c) in
  exec (λ d, set_oidc_clients (upsert client_merge (c_ClientID c) row (oidc_clients d)) d).

(** [scanClient] and [scanClientRow]. *)
Definition scanClient (r : ClientRow) : OIDCClient :=
  mkOIDCClient (cr_ClientID r) (cr_ClientSecretHash r) (cr_ClientName r)
    (unmarshalField (cr_RedirectURIs r)) (cr_TokenEndpointAuthMethod r)
    (unmarshalField (cr_GrantTypes r)) (unmarshalField (cr_ResponseTypes r)) (cr_Scope r)
    (cr_TenantID r) (cr_BackchannelLogoutURI r) (unmarshalField (cr_PostLogoutRedirectURIs r))
    (cr_CreatedAt r).
Definition client_row (clientID : string) (d : DB) : result OIDCClient :=
  scanClient <$> select clientID (oidc_clients d).
Definition GetClient (clientID : string) : M Srv (result OIDCClient) :=
  r ← query (client_row clientID);
  mret (wrap_err "scan client" r).
Definition ListClients : M Srv (result (list OIDCClient)) :=
  query (λ d, Ok (scanClient <$> order_by_desc cr_CreatedAt (rows (λ _, true) (oidc_clients d)))).
Definition DeleteClient (clientID : string) : M Srv (result unit) :=
  exec (λ d, set_oidc_clients (delete clientID (oidc_clients d)) d).

(** ** Refresh tokens *)

Definition refresh_merge (old new : RefreshToken) : RefreshToken :=
  mkRefreshToken (rt_Hash old) (rt_SubjectDID old) (rt_ClientID old) (rt_Scope old)
    (rt_IssuedAt old) (rt_ExpiresAt old) (rt_UsedAt new).
Definition SaveRefreshToken (t : RefreshToken) : M Srv (result unit) :=
  exec (λ d, set_refresh_tokens (upsert refresh_merge (rt_Hash t) t (refresh_tokens d)) d).
Definition GetRefreshToken (hash : string) : M Srv (result RefreshToken) :=
  r ← query (λ d, select hash (refresh_tokens d));
  mret (wrap_err "get refresh token" r).
Definition DeleteRefreshToken (hash : string) : M Srv (result unit) :=
  exec (λ d, set_refresh_tokens (delete hash (refresh_tokens d)) d).

(** ** External provider links *)

Definition link_merge (old new : ExternalProviderLink) : ExternalProviderLink :=
  mkExternalProviderLink (l_SubjectDID new) (l_Provider old) (l_ExternalID old)
    (l_LinkedAt old) (l_LastUsedAt new).
Definition SaveExternalLink (l : ExternalProviderLink) : M Srv (result unit) :=
  exec (λ d, set_external_provider_links
    (upsert link_merge (l_Provider l, l_ExternalID l) l (external_provider_links d)) d).
Definition GetExternalLink (provider externalID : string) : M Srv (result ExternalProviderLink) :=
  r ← query (λ d, select (provider, externalID) (external_provider_links d));
  mret (wrap_err "get external link" r).
Definition ListExternalLinks (subjectDID : string) : M Srv (result (list ExternalProviderLink)) :=
  query (λ d, Ok (order_by_desc l_LinkedAt
    (rows (λ l, l_SubjectDID l =s subjectDID) (external_provider_links d)))).
Definition DeleteExternalLink (provider externalID : string) : M Srv (result unit) :=
  exec (λ d, set_external_provider_links (delete (provider, externalID) (external_provider_links d)) d).

(** ** Magic link tokens *)

Definition SaveMagicLinkToken (t : MagicLinkToken) : M Srv (result unit) :=
  exec_insert magic_link_tokens set_magic_link_tokens (ml_Hash t) t.
Definition GetMagicLinkToken (hash : string) : M Srv (result MagicLinkToken) :=
  r ← query (λ d, select hash (magic_link_tokens d));
  mret (wrap_err "get magic link token" r).
Definition DeleteMagicLinkToken (hash : string) : M Srv (result unit) :=
  exec (λ d, set_magic_link_tokens (delete hash (magic_link_tokens d)) d).

(** ** WebAuthn credentials *)

Definition webauthn_merge (old new : WebAuthnRow) : WebAuthnRow :=
  mkWebAuthnRow (war_CredentialID old) (war_SubjectDID old) (war_PublicKeyCBOR old)
    (war_AttestationType old) (war_AAGUID old) (war_SignCount new) (war_Name new)
    (war_Transports old) (war_CreatedAt old) (war_LastUsedAt new).
Definition webauthn_row (c : WebAuthnCredential) : WebAuthnRow :=
  mkWebAuthnRow (wa_CredentialID c) (wa_SubjectDID c) (wa_PublicKeyCBOR c) (wa_AttestationType c)
    (wa_AAGUID c) (wa_SignCount c) (wa_Name c) (marshal_or_empty (wa_Transports c))
    (wa_CreatedAt c) (wa_LastUsedAt c).
Definition SaveWebAuthnCredential (c : WebAuthnCredential) : M Srv (result unit) :=
  exec (λ d, set_webauthn_credentials
    (upsert webauthn_merge (wa_CredentialID c) (webauthn_row c) (webauthn_credentials d)) d).
(** [scanWebAuthnCredential] and [scanWebAuthnRow]. *)
Definition scanWebAuthn (r : WebAuthnRow) : WebAuthnCredential :=
  mkWebAuthnCredential (war_CredentialID r) (war_SubjectDID r) (war_PublicKeyCBOR r)
    (war_AttestationType r) (war_AAGUID r) (war_SignCount r) (war_Name r)
    (unmarshalField (war_Transports r)) (war_CreatedAt r) (war_LastUsedAt r).
Definition GetWebAuthnCredential (credentialID : string) : M Srv (result WebAuthnCredential) :=
  r ← query (λ d, select credentialID (webauthn_credentials d));
  mret (scanWebAuthn <$> wrap_err "scan webauthn credential" r).
Definition ListWebAuthnCredentials (subjectDID : string) : M Srv (result (list WebAuthnCredential)) :=
  query (λ d, Ok (scanWebAuthn <$> order_by_desc war_CreatedAt
    (rows (λ r, war_SubjectDID r =s subjectDID) (webauthn_credentials d)))).
Definition UpdateWebAuthnCredential (c : WebAuthnCredential) : M Srv (result unit) :=
  exec (λ d, set_webauthn_credentials
    (alter (λ old, webauthn_merge old (webauthn_row c)) (wa_CredentialID c) (webauthn_credentials d)) d).
Definition DeleteWebAuthnCredential (credentialID : string) : M Srv (result unit) :=
  exec (λ d, set_webauthn_credentials (delete credentialID (webauthn_credentials d)) d).

(** ** TOTP credentials *)

Definition SaveTOTPCredential (c : TOTPCredential) : M Srv (result unit) :=
  exec (λ d, set_totp_credentials (upsert (λ old new,
    mkTOTPCredential (tc_SubjectDID old) (tc_EncryptedSecret new) (tc_AccountName new) (tc_CreatedAt old))
    (tc_SubjectDID c) c (totp_credentials d)) d).
Definition GetTOTPCredential (subjectDID : string) : M Srv (result TOTPCredential) :=
  r ← query (λ d, select subjectDID (totp_credentials d));
  mret (wrap_err "get totp credential" r).
Definition DeleteTOTPCredential (subjectDID : string) : M Srv (result unit) :=
  exec (λ d, set_totp_credentials (delete subjectDID (totp_credentials d)) d).

(** ** Webhook subscriptions *)

Definition webhook_merge (old new : WebhookRow) : WebhookRow :=
  mkWebhookRow (whr_ID old) (whr_URL new) (whr_EventTypes new) (whr_SecretHash old)
    (whr_TenantID old) (whr_CreatedAt old).
Definition SaveWebhookSubscription (s : WebhookSubscription) : M Srv (result unit) :=
  exec (λ d, set_webhook_subscriptions (upsert webhook_merge (wh_ID s)
    (mkWebhookRow (wh_ID s) (wh_URL s) (marshal_or_empty (wh_EventTypes s)) (wh_SecretHash s)
       (wh_TenantID s) (wh_CreatedAt s)) (webhook_subscriptions d)) d).
(** [scanWebhookSub] and [scanWebhookSubRow]. *)
Definition scanWebhookSub (r : WebhookRow) : WebhookSubscription :=
  mkWebhookSubscription (whr_ID r) (whr_URL r) (unmarshalField (whr_EventTypes r))
    (whr_SecretHash r) (whr_TenantID r) (whr_CreatedAt r).
Definition GetWebhookSubscription (id : string) : M Srv (result WebhookSubscription) :=
  r ← query (λ d, select id (webhook_subscriptions d));
  mret (scanWebhookSub <$> wrap_err "scan webhook subscription" r).
(** An empty event type selects every subscription; otherwise one of its types
    must be the event's or the wildcard. *)
Definition webhook_matches (eventType : string) (s : WebhookSubscription) : bool :=
  (eventType =s "") || existsb (λ et, (et =s "*") || (et =s eventType)) (wh_EventTypes s).
Definition ListWebhookSubscriptions (eventType : string) : M Srv (result (list WebhookSubscription)) :=
  query (λ d, Ok (filter (λ s, webhook_matches eventType s = true)
    (scanWebhookSub <$> rows (λ _, true) (webhook_subscriptions d)))).
Definition DeleteWebhookSubscription (id : string) : M Srv (result unit) :=
  exec (λ d, set_webhook_subscriptions (delete id (webhook_subscriptions d)) d).
End Codecs.
End Store.
