(* ===== verification/StoreAuth.v ===== *)
(** * The SQLite store, second half (internal/store/sqlite.go from line 967)

    Failure counters, duress configurations, the audit log, guardian recovery,
    passwords, pushed authorization requests, device codes, password reset
    tokens, privacy disclosures and credential offers. *)

From S2P Require Import Prelude GoStd World Json Sha Consent StoreTypes Store.
Import Consent Types Store.

Module StoreAuth.

(** ** Auth failures *)

Definition lockThreshold1 : Z := 5.
Definition lockDuration1 : Z := 5 * minute.
Definition lockThreshold2 : Z := 10.
Definition lockDuration2 : Z := 30 * minute.
Definition lockThreshold3 : Z := 20.
Definition permanentLock : Z := 100 * 365 * 24 * hour.

(** The switch of [RecordAuthFailure]: how long a count locks the account. *)
Definition lock_for (count : Z) : option Z :=
  if (lockThreshold3 <=? count)%Z then Some permanentLock
  else if (lockThreshold2 <=? count)%Z then Some lockDuration2
  else if (lockThreshold1 <=? count)%Z then Some lockDuration1
  else None.

(** The count is read first; an error of that read, no row included, leaves it 0. *)
Definition RecordAuthFailure (subjectOrEmail : string) : M Srv (result unit) :=
  now ← time_now;
  r ← query (λ d, af_count <$> select subjectOrEmail (auth_failures d));
  let count := ((match r with Ok n => n | Err _ => 0 end) + 1)%Z in
  let lockedUntil := (λ dur, now + dur)%Z <$> lock_for count in
  exec (λ d, set_auth_failures
    (<[subjectOrEmail := mkAuthFailureRow subjectOrEmail count now lockedUntil]> (auth_failures d)) d).

Definition GetAuthFailures (subjectOrEmail : string) : M Srv (result (Z * option Z)) :=
  r ← query (λ d, select subjectOrEmail (auth_failures d));
  match r with
  | Err e => mret (if Contains (error_string e) "no rows" then Ok (0%Z, None) else Err e)
  | Ok row => mret (Ok (af_count row, af_locked_until row))
  end.

Definition ClearAuthFailures (subjectOrEmail : string) : M Srv (result unit) :=
  exec (λ d, set_auth_failures (delete subjectOrEmail (auth_failures d)) d).

(** ** Duress configurations *)

Definition SaveDuressConfig (subjectDID hash : string) : M Srv (result unit) :=
  ts ← current_timestamp;
  exec (λ d, set_duress_configs (<[subjectDID := (hash, ts)]> (duress_configs d)) d).
Definition GetDuressHash (subjectDID : string) : M Srv (result string) :=
  query (λ d, fst <$> select subjectDID (duress_configs d)).
Definition DeleteDuressConfig (subjectDID : string) : M Srv (result unit) :=
  exec (λ d, set_duress_configs (delete subjectDID (duress_configs d)) d).

(** ** The audit log *)

(** [json.Marshal] of the map: keys in sorted order. *)
Definition audit_json (eventType payload prevHash : string) : list byte :=
  bytes_of "{" ++ Json.quote "event_type" ++ x3a :: Json.quote eventType ++
  x2c :: Json.quote "payload" ++ x3a :: Json.quote payload ++
  x2c :: Json.quote "prev_hash" ++ x3a :: Json.quote prevHash ++ bytes_of "}".
Definition audit_hash (eventType payload prevHash : string) : string :=
  Sha.hex (Sha.Sum256 (bytes_of prevHash ++ audit_json eventType payload prevHash)).

(** The key is AUTOINCREMENT: one more than the largest the table has held, which is
    the largest it holds, since no row is ever deleted. *)
Definition next_seq (log : list AuditEvent) : Z := (foldr Z.max 0 (ae_Seq <$> log) + 1)%Z.
Definition AppendAuditEvent (eventType payload prevHash : string) : M Srv (result AuditEvent) :=
  let hash := audit_hash eventType payload prevHash in
  ts ← current_timestamp;
  res ← on_db (λ d,
    let id := next_seq (audit_log d) in
    (Ok id, set_audit_log (audit_log d ++ [mkAuditEvent id ts eventType payload hash prevHash]) d));
  match res with
  | Err e => mret (Err e)
  | Ok id => now ← time_now; mret (Ok (mkAuditEvent id now eventType payload hash prevHash))
  end.

Definition GetAuditHead : M Srv (result AuditEvent) :=
  query (λ d, of_option ErrNoRows (last (audit_log d))).

Definition ListAuditEvents (limit offset : Z) : M Srv (result (list AuditEvent * Z)) :=
  total ← query (λ d, Ok (Z.of_nat (length (audit_log d))));
  match total with
  | Err e => mret (Err e)
  | Ok n =>
      evs ← query (λ d, Ok (limit_offset limit offset (audit_log d)));
      mret ((λ l, (l, n)) <$> evs)
  end.

(** ** Guardian recovery *)

Definition SaveRecoveryConfig (cfg : RecoveryConfig) : M Srv (result unit) :=
  ts ← current_timestamp;
  exec (λ d, set_recovery_configs (<[rc_SubjectDID cfg :=
    mkRecoveryConfigRow (rc_SubjectDID cfg) (rc_Threshold cfg)
      (marshal_or_empty (rc_GuardianDIDs cfg)) ts]> (recovery_configs d)) d).
Definition GetRecoveryConfig (subjectDID : string) : M Srv (result RecoveryConfig) :=
  r ← query (λ d, select subjectDID (recovery_configs d));
  mret ((λ row, mkRecoveryConfig (rcr_subject_did row) (rcr_threshold row)
                  (unmarshalField (rcr_guardian_dids row)) (rcr_created_at row)) <$> r).
Definition DeleteRecoveryConfig (subjectDID : string) : M Srv (result unit) :=
  exec (λ d, set_recovery_configs (delete subjectDID (recovery_configs d)) d).

(** started_at is left to its default. *)
Definition SaveRecoveryRequest (req : RecoveryRequest) : M Srv (result unit) :=
  ts ← current_timestamp;
  exec_insert recovery_requests set_recovery_requests (rr_ID req)
    (mkRecoveryRequest (rr_ID req) (rr_SubjectDID req) ts (rr_SharesCollected req) (rr_Completed req)).
Definition GetRecoveryRequest (id : string) : M Srv (result RecoveryRequest) :=
  query (λ d, select id (recovery_requests d)).
Definition UpdateRecoveryRequest (req : RecoveryRequest) : M Srv (result unit) :=
  exec (λ d, set_recovery_requests (alter (λ old,
    mkRecoveryRequest (rr_ID old) (rr_SubjectDID old) (rr_StartedAt old)
      (rr_SharesCollected req) (rr_Completed req)) (rr_ID req) (recovery_requests d)) d).

(** ON CONFLICT DO NOTHING. *)
Definition SaveRecoveryShare (sh : RecoveryShare) : M Srv (result unit) :=
  ts ← current_timestamp;
  exec (λ d, set_recovery_shares (upsert (λ old _, old) (rs_RequestID sh, rs_GuardianDID sh)
    (mkRecoveryShare (rs_RequestID sh) (rs_GuardianDID sh) (rs_ShareHash sh) ts)
    (recovery_shares d)) d).
Definition ListRecoveryShares (requestID : string) : M Srv (result (list RecoveryShare)) :=
  query (λ d, Ok (rows (λ sh, rs_RequestID sh =s requestID) (recovery_shares d))).

(** ** Passwords *)

Definition SavePasswordHash (identifier hash : string) : M Srv (result unit) :=
  ts ← current_timestamp;
  exec (λ d, set_passwords (<[identifier := (hash, ts)]> (passwords d)) d).
Definition GetPasswordHash (identifier : string) : M Srv (result string) :=
  r ← query (λ d, fst <$> select identifier (passwords d));
  mret (wrap_err "get password hash" r).
Definition DeletePasswordHash (identifier : string) : M Srv (result unit) :=
  exec (λ d, set_passwords (delete identifier (passwords d)) d).

(** ** Pushed authorization requests *)

Definition SavePARRequest (req : PARRequest) : M Srv (result unit) :=
  exec_insert par_requests set_par_requests (par_RequestURI req) req.
Definition GetPARRequest (requestURI : string) : M Srv (result PARRequest) :=
  r ← query (λ d, select requestURI (par_requests d));
  mret (wrap_err "get par request" r).
Definition DeletePARRequest (requestURI : string) : M Srv (result unit) :=
  exec (λ d, set_par_requests (delete requestURI (par_requests d)) d).

(** ** Device codes: the user code is unique as well *)

Definition device_merge (old new : DeviceCode) : DeviceCode :=
  mkDeviceCode (dc_DeviceCode old) (dc_UserCode old) (dc_ClientID old) (dc_Scope old)
    (dc_SubjectDID new) (dc_Approved new) (dc_Denied new) (dc_ExpiresAt old)
    (dc_IntervalSecs old) (dc_CreatedAt old).
Definition SaveDeviceCode (dc : DeviceCode) : M Srv (result unit) :=
  on_db (λ d,
    match device_codes d !! dc_DeviceCode dc with
    | Some old => (Ok tt, set_device_codes (<[dc_DeviceCode dc := device_merge old dc]> (device_codes d)) d)
    | None =>
        match rows (λ r, dc_UserCode r =s dc_UserCode dc) (device_codes d) with
        | _ :: _ => (Err (ErrConstraint "UNIQUE constraint failed: device_codes.user_code"), d)
        | [] => (Ok tt, set_device_codes (<[dc_DeviceCode dc := dc]> (device_codes d)) d)
        end
    end).
Definition GetDeviceCode (deviceCode : string) : M Srv (result DeviceCode) :=
  r ← query (λ d, select deviceCode (device_codes d));
  mret (wrap_err "scan device code" r).
Definition GetDeviceCodeByUserCode (userCode : string) : M Srv (result DeviceCode) :=
  r ← query (λ d, of_option ErrNoRows (head (rows (λ r, dc_UserCode r =s userCode) (device_codes d))));
  mret (wrap_err "scan device code" r).
Definition UpdateDeviceCode (dc : DeviceCode) : M Srv (result unit) :=
  exec (λ d, set_device_codes
    (alter (λ old, device_merge old dc) (dc_DeviceCode dc) (device_codes d)) d).
Definition DeleteDeviceCode (deviceCode : string) : M Srv (result unit) :=
  exec (λ d, set_device_codes (delete deviceCode (device_codes d)) d).

(** ** Password reset tokens *)

Definition SavePasswordResetToken (t : PasswordResetToken) : M Srv (result unit) :=
  exec_insert password_reset_tokens set_password_reset_tokens (pr_Hash t) t.
Definition GetPasswordResetToken (hash : string) : M Srv (result PasswordResetToken) :=
  r ← query (λ d, select hash (password_reset_tokens d));
  mret (wrap_err "get password reset token" r).
Definition DeletePasswordResetToken (hash : string) : M Srv (result unit) :=
  exec (λ d, set_password_reset_tokens (delete hash (password_reset_tokens d)) d).

(** ** Privacy disclosures *)

Definition RecordDisclosure (p : PrivacyDisclosure) : M Srv (result unit) :=
  exec_insert privacy_disclosures set_privacy_disclosures (pd_ID p)
    (mkDisclosureRow (pd_ID p) (pd_SubjectDID p) (pd_SchemaID p) (pd_VerifierDID p)
       (marshal_or_empty (pd_FieldNames p)) (pd_DisclosedAt p)).
Definition disclosure_matches (subjectDID schemaID : string) (row : DisclosureRow) : bool :=
  (pdr_subject_did row =s subjectDID) && ((schemaID =s "") || (pdr_schema_id row =s schemaID)).
Definition ListDisclosures (subjectDID schemaID : string) : M Srv (result (list PrivacyDisclosure)) :=
  query (λ d, Ok ((λ row, mkPrivacyDisclosure (pdr_id row) (pdr_subject_did row) (pdr_schema_id row)
                            (pdr_verifier_did row) (unmarshalField (pdr_field_names row))
                            (pdr_disclosed_at row)) <$>
    order_by_desc pdr_disclosed_at (rows (disclosure_matches subjectDID schemaID) (privacy_disclosures d)))).
Definition CountDisclosures (subjectDID schemaID : string) : M Srv (result Z) :=
  query (λ d, Ok (Z.of_nat (length (rows (disclosure_matches subjectDID schemaID) (privacy_disclosures d))))).

(** ** Credential offers *)

Definition SaveCredentialOffer (o : CredentialOffer) : M Srv (result unit) :=
  exec_insert credential_offers set_credential_offers (co_ID o)
    (mkOfferRow (co_ID o) (co_ClientID o) (marshal_or_empty (co_SchemaIDs o)) (co_IssuerDID o)
       (co_SubjectDID o) (co_ExpiresAt o) (co_Used o) (co_CreatedAt o)).
Definition GetCredentialOffer (id : string) : M Srv (result CredentialOffer) :=
  r ← query (λ d, select id (credential_offers d));
  mret ((λ row, mkCredentialOffer (cor_id row) (cor_client_id row) (unmarshalField (cor_schema_ids row))
           (cor_issuer_did row) (cor_subject_did row) (cor_expires_at row) (cor_used row)
           (cor_created_at row)) <$> wrap_err "get credential offer" r).
Definition MarkCredentialOfferUsed (id : string) : M Srv (result unit) :=
  exec (λ d, set_credential_offers (alter (λ row,
    mkOfferRow (cor_id row) (cor_client_id row) (cor_schema_ids row) (cor_issuer_did row)
      (cor_subject_did row) (cor_expires_at row) true (cor_created_at row)) id (credential_offers d)) d).
End StoreAuth.
