(* ===== verification/Logic.v ===== *)
(** * Symbolic execution of handlers

    Rules that run a computation step by step from an explicit world, a tactic
    that applies them, and [keeps]: a computation preserves an invariant of the
    server's state whatever the clock, the random source and the database
    faults. *)

From S2P Require Import Prelude GoStd World StoreTypes Store.
Import Types Store.

Section Rules.
Implicit Types (clk : nat → Z) (rnd : nat → option (nat → byte)) (flt : nat → option string).

Lemma wp_time clk nc rnd nr flt nf (st : Srv) Q :
  Q (clk nc) (mkWorld clk (S nc) rnd nr flt nf st) →
  wp time_now Q (mkWorld clk nc rnd nr flt nf st).
Proof. done. Qed.

Lemma wp_modify f clk nc rnd nr flt nf (s : Srv) Q :
  Q tt (mkWorld clk nc rnd nr flt nf (f s)) → wp (modify f) Q (mkWorld clk nc rnd nr flt nf s).
Proof. done. Qed.
Lemma wp_get_state clk nc rnd nr flt nf (s : Srv) Q :
  Q s (mkWorld clk nc rnd nr flt nf s) → wp get_state Q (mkWorld clk nc rnd nr flt nf s).
Proof. done. Qed.

Lemma wp_rand n clk nc rnd nr flt nf (st : Srv) (Q : result (list byte) → World Srv → Prop) :
  (rnd nr = None → Q (Err (ErrMsg "crypto/rand: read failed")) (mkWorld clk nc rnd (S nr) flt nf st)) →
  (∀ f, rnd nr = Some f → Q (Ok (f <$> seq 0 n)) (mkWorld clk nc rnd (S nr) flt nf st)) →
  wp (rand_read n) Q (mkWorld clk nc rnd nr flt nf st).
Proof. unfold wp, rand_read. simpl. intros HN HS. destruct (rnd nr); [by apply HS|by apply HN]. Qed.

Lemma wp_on_db' {A} (f : DB → result A * DB) clk nc rnd nr flt nf d rev evs Q :
  (∀ msg, flt nf = Some msg →
    Q (Err (ErrDriver msg)) (mkWorld clk nc rnd nr flt (S nf) (mkSrv d rev evs))) →
  (flt nf = None → Q (fst (f d)) (mkWorld clk nc rnd nr flt (S nf) (mkSrv (snd (f d)) rev evs))) →
  wp (on_db f) Q (mkWorld clk nc rnd nr flt nf (mkSrv d rev evs)).
Proof.
  unfold wp, on_db, db_call. simpl. intros HF HO. destruct (flt nf); [by apply HF|].
  specialize (HO eq_refl). by destruct (f d).
Qed.

Lemma wp_query {A} (f : DB → result A) clk nc rnd nr flt nf d rev evs Q :
  (∀ msg, flt nf = Some msg →
    Q (Err (ErrDriver msg)) (mkWorld clk nc rnd nr flt (S nf) (mkSrv d rev evs))) →
  (flt nf = None → Q (f d) (mkWorld clk nc rnd nr flt (S nf) (mkSrv d rev evs))) →
  wp (query f) Q (mkWorld clk nc rnd nr flt nf (mkSrv d rev evs)).
Proof. apply (wp_on_db' (λ d, (f d, d))). Qed.

Lemma wp_exec (f : DB → DB) clk nc rnd nr flt nf d rev evs Q :
  (∀ msg, flt nf = Some msg →
    Q (Err (ErrDriver msg)) (mkWorld clk nc rnd nr flt (S nf) (mkSrv d rev evs))) →
  (flt nf = None → Q (Ok tt) (mkWorld clk nc rnd nr flt (S nf) (mkSrv (f d) rev evs))) →
  wp (exec f) Q (mkWorld clk nc rnd nr flt nf (mkSrv d rev evs)).
Proof. apply (wp_on_db' (λ d, (Ok tt, f d))). Qed.

Lemma wp_exec_insert {K V} `{Countable K} (get : DB → gmap K V) set (k : K) (v : V)
    clk nc rnd nr flt nf d rev evs Q :
  (∀ msg, flt nf = Some msg →
    Q (Err (ErrDriver msg)) (mkWorld clk nc rnd nr flt (S nf) (mkSrv d rev evs))) →
  (∀ old, flt nf = None → get d !! k = Some old →
    Q (Err (ErrConstraint "UNIQUE constraint failed")) (mkWorld clk nc rnd nr flt (S nf) (mkSrv d rev evs))) →
  (flt nf = None → get d !! k = None →
    Q (Ok tt) (mkWorld clk nc rnd nr flt (S nf) (mkSrv (set (<[k := v]> (get d)) d) rev evs))) →
  wp (exec_insert get set k v) Q (mkWorld clk nc rnd nr flt nf (mkSrv d rev evs)).
Proof.
  intros HF HC HO. apply wp_on_db'; [done|]. intros Hn. unfold insert_new.
  destruct (get d !! k) eqn:E; [by eapply HC|by apply HO].
Qed.
End Rules.

(** One step of the computation in the goal. *)
Ltac wp_step :=
  match goal with
  | |- wp (mret _) _ _ => apply wp_ret
  | |- wp (_ ≫= _) _ _ => apply wp_bind
  | |- wp time_now _ _ => apply wp_time
  | |- wp (modify _) _ _ => apply wp_modify
  | |- wp get_state _ _ => apply wp_get_state
  | |- wp (rand_read _) _ _ => apply wp_rand; [intros ?Hr|intros ?f ?Hr]
  | |- wp (query _) _ _ => apply wp_query; [intros ?msg ?Hf|intros ?Hf]
  | |- wp (exec _) _ _ => apply wp_exec; [intros ?msg ?Hf|intros ?Hf]
  | |- wp (exec_insert _ _ _ _) _ _ =>
      apply wp_exec_insert; [intros ?msg ?Hf|intros ?old ?Hf ?Hk|intros ?Hf ?Hk]
  | |- wp (on_db _) _ _ => apply wp_on_db'; [intros ?msg ?Hf|intros ?Hf]
  | |- wp (match ?x with _ => _ end) _ _ =>
      let y := eval cbv beta iota delta [wrap_err of_option fmap result_fmap] in x in
      lazymatch y with
      | Ok _ => change x with y
      | Err _ => change x with y
      | Some _ => change x with y
      | None => change x with y
      | match ?z with _ => _ end => change x with y; destruct z eqn:?
      | _ => change x with y; destruct y eqn:?
      end; cbv beta iota
  end.

(** ** Invariants *)

Definition keeps (I : Srv → Prop) {A} (m : M Srv A) : Prop :=
  ∀ w, I (w_state w) → I (w_state (snd (m w))).

Section Keeps.
Context (I : Srv → Prop).

Lemma keeps_ret {A} (a : A) : keeps I (mret a).
Proof. by intros w. Qed.
Lemma keeps_bind {A B} (m : M Srv A) (f : A → M Srv B) :
  keeps I m → (∀ a, keeps I (f a)) → keeps I (m ≫= f).
Proof.
  intros Hm Hf w Hw. specialize (Hm w Hw). unfold mbind, M_bind.
  destruct (m w) as [a w']. by apply Hf.
Qed.
Lemma keeps_time : keeps I time_now.
Proof. by intros w. Qed.
Lemma keeps_rand n : keeps I (rand_read n).
Proof. by intros w. Qed.
Lemma keeps_get : keeps I get_state.
Proof. by intros w. Qed.
Lemma keeps_modify f : (∀ s, I s → I (f s)) → keeps I (modify f).
Proof. intros H w Hw. by apply H. Qed.
Lemma keeps_on_db {A} (f : DB → result A * DB) :
  (∀ d rev evs, I (mkSrv d rev evs) → I (mkSrv (snd (f d)) rev evs)) → keeps I (on_db f).
Proof.
  intros H w Hw. unfold on_db, db_call. destruct (w_fault w _); [done|]. simpl.
  destruct (w_state w) as [d rev evs]. specialize (H d rev evs Hw). simpl in *. by destruct (f d).
Qed.
Lemma keeps_query {A} (f : DB → result A) : keeps I (query f).
Proof. by apply keeps_on_db. Qed.
Lemma keeps_exec (f : DB → DB) :
  (∀ d rev evs, I (mkSrv d rev evs) → I (mkSrv (f d) rev evs)) → keeps I (exec f).
Proof. intros H. by apply keeps_on_db. Qed.
Lemma keeps_exec_insert {K V} `{Countable K} (get : DB → gmap K V) set k v :
  (∀ d rev evs, I (mkSrv d rev evs) → get d !! k = None → I (mkSrv (set (<[k := v]> (get d)) d) rev evs)) →
  keeps I (exec_insert get set k v).
Proof.
  intros Hi. apply keeps_on_db. intros d rev evs Hd. unfold insert_new.
  destruct (get d !! k) eqn:E; [done|]. by apply Hi.
Qed.
End Keeps.
#[export] Hint Resolve keeps_ret keeps_time keeps_rand keeps_get keeps_query : go.

(** Decompose a handler into its store calls. *)
Ltac keeps_step :=
  match goal with
  | |- keeps _ (_ ≫= _) => apply keeps_bind; [|intros ?]
  | |- keeps _ (if ?b then _ else _) => destruct b
  | |- keeps _ (match ?x with _ => _ end) => destruct x
  | |- keeps _ _ => solve [eauto 1 with go]
  end.
Ltac keeps_tac := repeat keeps_step.
