(* ===== verification/StoreInv.v ===== *)
(** * The store's invariant

    Every row sits under its own key, no two device codes share a user code, and
    the audit log's sequence numbers count its rows.  Every method that writes
    preserves this, whatever the driver's errors, so every sequence of calls
    does. *)

From S2P Require Import Prelude GoStd World Consent StoreTypes Store StoreAuth Logic.
Import Consent Types Store StoreAuth.

Module StoreInv.

(** ** Keyed tables *)

Section Keyed.
Context {K V : Type} `{Countable K} (key : V → K).
Definition keyed (m : gmap K V) : Prop := ∀ k v, m !! k = Some v → key v = k.

Lemma keyed_empty : keyed ∅.
Proof. intros k v Hk. by rewrite lookup_empty in Hk. Qed.
Lemma keyed_insert m k v : key v = k → keyed m → keyed (<[k := v]> m).
Proof. intros Hv Hm k' v' [[<- <-]|[_ Hk]]%lookup_insert_Some; auto. Qed.
Lemma keyed_delete m k : keyed m → keyed (delete k m).
Proof. intros Hm k' v' [_ Hk]%lookup_delete_Some; auto. Qed.
Lemma keyed_upsert merge m k v :
  key v = k → (∀ old, key (merge old v) = key old) → keyed m → keyed (upsert merge k v m).
Proof.
  intros Hv Hmerge Hm. unfold upsert. destruct (m !! k) eqn:E; apply keyed_insert; auto.
  rewrite Hmerge. auto.
Qed.
Lemma keyed_alter f m k : (∀ old, key (f old) = key old) → keyed m → keyed (alter f k m).
Proof.
  intros Hf Hm k' v' Hk. destruct (decide (k = k')) as [<-|].
  - rewrite lookup_alter_eq in Hk. destruct (m !! k) eqn:E; simplify_eq/=. rewrite Hf. auto.
  - rewrite lookup_alter_ne in Hk by done. auto.
Qed.
Lemma keyed_filter (P : K * V → Prop) `{!∀ x, Decision (P x)} m : keyed m → keyed (filter P m).
Proof. intros Hm k' v' [Hk _]%map_lookup_filter_Some; auto. Qed.

(** What an upsert leaves in the table. *)
Lemma lookup_upsert_new (merge : V → V → V) k v (m : gmap K V) :
  m !! k = None → upsert merge k v m !! k = Some v.
Proof. intros E. unfold upsert. by rewrite E, lookup_insert_eq. Qed.
Lemma lookup_upsert_old (merge : V → V → V) k v (m : gmap K V) old :
  m !! k = Some old → upsert merge k v m !! k = Some (merge old v).
Proof. intros E. unfold upsert. by rewrite E, lookup_insert_eq. Qed.
Lemma lookup_upsert_ne (merge : V → V → V) k v (m : gmap K V) k' :
  k ≠ k' → upsert merge k v m !! k' = m !! k'.
Proof. intros Hne. unfold upsert. by destruct (m !! k); rewrite lookup_insert_ne. Qed.

(** The rows a query returns. *)
Lemma elem_of_rows (P : V → bool) (m : gmap K V) v : v ∈ rows P m ↔ P v = true ∧ ∃ k, m !! k = Some v.
Proof.
  unfold rows. rewrite list_elem_of_filter, list_elem_of_fmap. split.
  - intros [HP ([k v'] & -> & Hk)]. split; [done|]. exists k. by apply elem_of_map_to_list.
  - intros [HP [k Hk]]. split; [done|]. exists (k, v). split; [done|]. by apply elem_of_map_to_list.
Qed.
End Keyed.
#[export] Hint Resolve keyed_empty keyed_insert keyed_delete keyed_upsert keyed_alter keyed_filter : go.

Definition user_codes_unique (m : gmap string DeviceCode) : Prop :=
  ∀ k1 k2 a b, m !! k1 = Some a → m !! k2 = Some b → dc_UserCode a = dc_UserCode b → k1 = k2.
Definition seqs_count (l : list AuditEvent) : Prop :=
  ∀ i e, l !! i = Some e → ae_Seq e = Z.of_nat (S i).

Record db_wf (d : DB) : Prop := {
  wf_identities : keyed i_DID (identities d);
  wf_credentials : keyed crd_id (credentials d);
  wf_grants : keyed g_ID (consent_grants d);
  wf_receipts : keyed rcp_id (consent_receipts d);
  wf_sessions : keyed s_ID (oidc_sessions d);
  wf_clients : keyed cr_ClientID (oidc_clients d);
  wf_refresh : keyed rt_Hash (refresh_tokens d);
  wf_links : keyed (λ l, (l_Provider l, l_ExternalID l)) (external_provider_links d);
  wf_magic : keyed ml_Hash (magic_link_tokens d);
  wf_webauthn : keyed war_CredentialID (webauthn_credentials d);
  wf_totp : keyed tc_SubjectDID (totp_credentials d);
  wf_webhooks : keyed whr_ID (webhook_subscriptions d);
  wf_failures : keyed af_subject_or_email (auth_failures d);
  wf_configs : keyed rcr_subject_did (recovery_configs d);
  wf_requests : keyed rr_ID (recovery_requests d);
  wf_shares : keyed (λ s, (rs_RequestID s, rs_GuardianDID s)) (recovery_shares d);
  wf_par : keyed par_RequestURI (par_requests d);
  wf_devices : keyed dc_DeviceCode (device_codes d);
  wf_reset : keyed pr_Hash (password_reset_tokens d);
  wf_disclosures : keyed pdr_id (privacy_disclosures d);
  wf_offers : keyed cor_id (credential_offers d);
  wf_user_codes : user_codes_unique (device_codes d);
  wf_audit : seqs_count (audit_log d) }.

Definition srv_wf (s : Srv) : Prop := db_wf (srv_db s).

Lemma empty_db_wf b : db_wf (empty_db b).
Proof. split; simpl; try apply keyed_empty; [intros ??????|intros ???]; by simplify_map_eq. Qed.

(** ** The methods that write *)

Inductive StoreOp :=
| OSaveIdentity (i : Identity) | OUpdateIdentity (i : Identity)
| OSaveDocument (doc : Document)
| OSaveCredential (v : VerifiableCredential) | ODeleteCredential (id : string)
| OSaveGrant (g : Grant) | ODeleteGrant (id : string)
| OSaveReceipt (r : Receipt)
| OSaveSession (s : OIDCSession) | ODeleteSession (id : string) | OPurgeExpiredSessions
| OSaveClient (c : OIDCClient) | ODeleteClient (id : string)
| OSaveRefreshToken (t : RefreshToken) | ODeleteRefreshToken (h : string)
| OSaveExternalLink (l : ExternalProviderLink) | ODeleteExternalLink (p e : string)
| OSaveMagicLinkToken (t : MagicLinkToken) | ODeleteMagicLinkToken (h : string)
| OSaveWebAuthn (c : WebAuthnCredential) | OUpdateWebAuthn (c : WebAuthnCredential)
| ODeleteWebAuthn (id : string)
| OSaveTOTP (c : TOTPCredential) | ODeleteTOTP (d : string)
| OSaveWebhook (s : WebhookSubscription) | ODeleteWebhook (id : string)
| ORecordAuthFailure (s : string) | OClearAuthFailures (s : string)
| OSaveDuress (d h : string) | ODeleteDuress (d : string)
| OAppendAudit (t p h : string)
| OSaveRecoveryConfig (c : RecoveryConfig) | ODeleteRecoveryConfig (d : string)
| OSaveRecoveryRequest (r : RecoveryRequest) | OUpdateRecoveryRequest (r : RecoveryRequest)
| OSaveRecoveryShare (s : RecoveryShare)
| OSavePassword (i h : string) | ODeletePassword (i : string)
| OSavePAR (r : PARRequest) | ODeletePAR (u : string)
| OSaveDevice (c : DeviceCode) | OUpdateDevice (c : DeviceCode) | ODeleteDevice (c : string)
| OSaveReset (t : PasswordResetToken) | ODeleteReset (h : string)
| ORecordDisclosure (p : PrivacyDisclosure)
| OSaveOffer (o : CredentialOffer) | OMarkOfferUsed (id : string).

Section Ops.
Context `{JsonCodec Document, JsonCodec VerifiableCredential}.

(** [ignore m]: the call, its result dropped. *)
Definition ignore {A} (m : M Srv A) : M Srv unit := _ ← m; mret tt.
Definition run_op (o : StoreOp) : M Srv unit :=
  match o with
  | OSaveIdentity i => ignore (SaveIdentity i) | OUpdateIdentity i => ignore (UpdateIdentity i)
  | OSaveDocument doc => ignore (SaveDocument doc) | OSaveCredential v => ignore (SaveCredential v)
  | ODeleteCredential id => ignore (DeleteCredential id)
  | OSaveGrant g => ignore (SaveGrant g) | ODeleteGrant id => ignore (DeleteGrant id)
  | OSaveReceipt r => ignore (SaveReceipt r)
  | OSaveSession s => ignore (SaveSession s) | ODeleteSession id => ignore (DeleteSession id)
  | OPurgeExpiredSessions => ignore PurgeExpiredSessions
  | OSaveClient c => ignore (SaveClient c) | ODeleteClient id => ignore (DeleteClient id)
  | OSaveRefreshToken t => ignore (SaveRefreshToken t) | ODeleteRefreshToken h => ignore (DeleteRefreshToken h)
  | OSaveExternalLink l => ignore (SaveExternalLink l) | ODeleteExternalLink p e => ignore (DeleteExternalLink p e)
  | OSaveMagicLinkToken t => ignore (SaveMagicLinkToken t) | ODeleteMagicLinkToken h => ignore (DeleteMagicLinkToken h)
  | OSaveWebAuthn c => ignore (SaveWebAuthnCredential c) | OUpdateWebAuthn c => ignore (UpdateWebAuthnCredential c)
  | ODeleteWebAuthn id => ignore (DeleteWebAuthnCredential id)
  | OSaveTOTP c => ignore (SaveTOTPCredential c) | ODeleteTOTP d => ignore (DeleteTOTPCredential d)
  | OSaveWebhook s => ignore (SaveWebhookSubscription s) | ODeleteWebhook id => ignore (DeleteWebhookSubscription id)
  | ORecordAuthFailure s => ignore (RecordAuthFailure s) | OClearAuthFailures s => ignore (ClearAuthFailures s)
  | OSaveDuress d h => ignore (SaveDuressConfig d h) | ODeleteDuress d => ignore (DeleteDuressConfig d)
  | OAppendAudit t p h => ignore (AppendAuditEvent t p h)
  | OSaveRecoveryConfig c => ignore (SaveRecoveryConfig c) | ODeleteRecoveryConfig d => ignore (DeleteRecoveryConfig d)
  | OSaveRecoveryRequest r => ignore (SaveRecoveryRequest r) | OUpdateRecoveryRequest r => ignore (UpdateRecoveryRequest r)
  | OSaveRecoveryShare s => ignore (SaveRecoveryShare s)
  | OSavePassword i h => ignore (SavePasswordHash i h) | ODeletePassword i => ignore (DeletePasswordHash i)
  | OSavePAR r => ignore (SavePARRequest r) | ODeletePAR u => ignore (DeletePARRequest u)
  | OSaveDevice c => ignore (SaveDeviceCode c) | OUpdateDevice c => ignore (UpdateDeviceCode c)
  | ODeleteDevice c => ignore (DeleteDeviceCode c)
  | OSaveReset t => ignore (SavePasswordResetToken t) | ODeleteReset h => ignore (DeletePasswordResetToken h)
  | ORecordDisclosure p => ignore (RecordDisclosure p)
  | OSaveOffer o => ignore (SaveCredentialOffer o) | OMarkOfferUsed id => ignore (MarkCredentialOfferUsed id)
  end.
Fixpoint run_ops (l : list StoreOp) : M Srv unit :=
  match l with [] => mret tt | o :: l' => _ ← run_op o; run_ops l' end.
End Ops.

(** ** Preservation *)

Lemma user_codes_delete m k : user_codes_unique m → user_codes_unique (delete k m).
Proof. intros H k1 k2 a b [_ Ha]%lookup_delete_Some [_ Hb]%lookup_delete_Some. eauto. Qed.
Lemma user_codes_alter f m k :
  (∀ c, dc_UserCode (f c) = dc_UserCode c) → user_codes_unique m → user_codes_unique (alter f k m).
Proof.
  intros Hf H k1 k2 a b Ha Hb E.
  assert (∀ k' c, alter f k m !! k' = Some c → ∃ c', m !! k' = Some c' ∧ dc_UserCode c' = dc_UserCode c) as Hl.
  { intros k' c Hc. destruct (decide (k = k')) as [<-|].
    - rewrite lookup_alter_eq in Hc. destruct (m !! k) as [c'|]; simplify_eq/=. eauto.
    - rewrite lookup_alter_ne in Hc by done. eauto. }
  apply Hl in Ha as (a' & Ha & Ea). apply Hl in Hb as (b' & Hb & Eb). eapply H; eauto. congruence.
Qed.
Lemma user_codes_insert m k c :
  (∀ k' a, m !! k' = Some a → dc_UserCode a = dc_UserCode c → k' = k) →
  user_codes_unique m → user_codes_unique (<[k := c]> m).
Proof.
  intros Hc H k1 k2 a b [[<- <-]|[? Ha]]%lookup_insert_Some [[<- <-]|[? Hb]]%lookup_insert_Some E;
    try done; [symmetry|..]; eauto.
Qed.
(** The next number of a log counted from one. *)
Lemma next_seq_count l : seqs_count l → next_seq l = Z.of_nat (S (length l)).
Proof.
  intros H. unfold next_seq. assert (foldr Z.max 0%Z (ae_Seq <$> l) = Z.of_nat (length l)) as ->; [|lia].
  induction l as [|e l IH] using rev_ind; [done|].
  assert (∀ xs (x : Z), (0 ≤ x)%Z → foldr Z.max 0%Z (xs ++ [x]) = Z.max (foldr Z.max 0%Z xs) x) as Hmax.
  { intros xs x Hx. induction xs as [|y xs IHx]; cbn; [lia|]. rewrite IHx. lia. }
  assert (ae_Seq e = Z.of_nat (S (length l))) as He by (apply H; by apply list_lookup_middle).
  rewrite fmap_app. cbn [fmap list_fmap]. rewrite Hmax, IH, He, length_app by (lia || (intros i e' Hi; apply H, lookup_app_l_Some, Hi)).
  cbn [length]. lia.
Qed.
Lemma seqs_count_snoc l e :
  ae_Seq e = next_seq l → seqs_count l → seqs_count (l ++ [e]).
Proof.
  intros He H. rewrite (next_seq_count _ H) in He. revert H. intros H i e' [Hi|[Hi Hl]]%lookup_app_Some; [auto|].
  destruct (i - length l) as [|k] eqn:Ek; simplify_eq/=. rewrite He. f_equal. lia.
Qed.
#[export] Hint Resolve user_codes_delete user_codes_alter seqs_count_snoc : go.

(** A write to one table leaves the facts about the others. *)
Ltac wf_write := intros ? ? ? []; try intros ?; split; simpl; auto 3 with go.
(** Run a method to its statements and check what each writes. *)
Ltac keeps_op :=
  repeat match goal with
  | |- keeps _ (exec _) => apply keeps_exec; wf_write
  | |- keeps _ (exec_insert _ _ _ _) => apply keeps_exec_insert; wf_write
  | |- keeps _ current_timestamp => unfold current_timestamp
  | _ => keeps_step
  end.

Lemma SaveIdentity_keeps i : keeps srv_wf (SaveIdentity i).
Proof. unfold SaveIdentity. keeps_op. Qed.
Lemma UpdateIdentity_keeps i : keeps srv_wf (UpdateIdentity i).
Proof. unfold UpdateIdentity. keeps_op. Qed.
Lemma DeleteCredential_keeps id : keeps srv_wf (DeleteCredential id).
Proof. unfold DeleteCredential. keeps_op. Qed.
Lemma SaveGrant_keeps g : keeps srv_wf (SaveGrant g).
Proof. unfold SaveGrant. keeps_op. Qed.
Lemma DeleteGrant_keeps id : keeps srv_wf (DeleteGrant id).
Proof. unfold DeleteGrant. keeps_op. Qed.
Lemma SaveReceipt_keeps r : keeps srv_wf (SaveReceipt r).
Proof. unfold SaveReceipt. keeps_op. Qed.
Lemma SaveSession_keeps s : keeps srv_wf (SaveSession s).
Proof. unfold SaveSession. keeps_op. Qed.
Lemma DeleteSession_keeps id : keeps srv_wf (DeleteSession id).
Proof. unfold DeleteSession. keeps_op. Qed.
Lemma SaveClient_keeps c : keeps srv_wf (SaveClient c).
Proof. unfold SaveClient. keeps_op. Qed.
Lemma DeleteClient_keeps id : keeps srv_wf (DeleteClient id).
Proof. unfold DeleteClient. keeps_op. Qed.
Lemma SaveRefreshToken_keeps t : keeps srv_wf (SaveRefreshToken t).
Proof. unfold SaveRefreshToken. keeps_op. Qed.
Lemma DeleteRefreshToken_keeps h : keeps srv_wf (DeleteRefreshToken h).
Proof. unfold DeleteRefreshToken. keeps_op. Qed.
Lemma SaveExternalLink_keeps l : keeps srv_wf (SaveExternalLink l).
Proof. unfold SaveExternalLink. keeps_op. Qed.
Lemma DeleteExternalLink_keeps p e : keeps srv_wf (DeleteExternalLink p e).
Proof. unfold DeleteExternalLink. keeps_op. Qed.
Lemma SaveMagicLinkToken_keeps t : keeps srv_wf (SaveMagicLinkToken t).
Proof. unfold SaveMagicLinkToken. keeps_op. Qed.
Lemma DeleteMagicLinkToken_keeps h : keeps srv_wf (DeleteMagicLinkToken h).
Proof. unfold DeleteMagicLinkToken. keeps_op. Qed.
Lemma SaveWebAuthnCredential_keeps c : keeps srv_wf (SaveWebAuthnCredential c).
Proof. unfold SaveWebAuthnCredential. keeps_op. Qed.
Lemma UpdateWebAuthnCredential_keeps c : keeps srv_wf (UpdateWebAuthnCredential c).
Proof. unfold UpdateWebAuthnCredential. keeps_op. Qed.
Lemma DeleteWebAuthnCredential_keeps id : keeps srv_wf (DeleteWebAuthnCredential id).
Proof. unfold DeleteWebAuthnCredential. keeps_op. Qed.
Lemma SaveTOTPCredential_keeps c : keeps srv_wf (SaveTOTPCredential c).
Proof. unfold SaveTOTPCredential. keeps_op. Qed.
Lemma DeleteTOTPCredential_keeps d : keeps srv_wf (DeleteTOTPCredential d).
Proof. unfold DeleteTOTPCredential. keeps_op. Qed.
Lemma SaveWebhookSubscription_keeps s : keeps srv_wf (SaveWebhookSubscription s).
Proof. unfold SaveWebhookSubscription. keeps_op. Qed.
Lemma DeleteWebhookSubscription_keeps id : keeps srv_wf (DeleteWebhookSubscription id).
Proof. unfold DeleteWebhookSubscription. keeps_op. Qed.
Lemma RecordAuthFailure_keeps s : keeps srv_wf (RecordAuthFailure s).
Proof. unfold RecordAuthFailure. keeps_op. Qed.
Lemma ClearAuthFailures_keeps s : keeps srv_wf (ClearAuthFailures s).
Proof. unfold ClearAuthFailures. keeps_op. Qed.
Lemma SaveDuressConfig_keeps d h : keeps srv_wf (SaveDuressConfig d h).
Proof. unfold SaveDuressConfig. keeps_op. Qed.
Lemma DeleteDuressConfig_keeps d : keeps srv_wf (DeleteDuressConfig d).
Proof. unfold DeleteDuressConfig. keeps_op. Qed.
Lemma SaveRecoveryConfig_keeps c : keeps srv_wf (SaveRecoveryConfig c).
Proof. unfold SaveRecoveryConfig. keeps_op. Qed.
Lemma DeleteRecoveryConfig_keeps d : keeps srv_wf (DeleteRecoveryConfig d).
Proof. unfold DeleteRecoveryConfig. keeps_op. Qed.
Lemma SaveRecoveryRequest_keeps r : keeps srv_wf (SaveRecoveryRequest r).
Proof. unfold SaveRecoveryRequest. keeps_op. Qed.
Lemma UpdateRecoveryRequest_keeps r : keeps srv_wf (UpdateRecoveryRequest r).
Proof. unfold UpdateRecoveryRequest. keeps_op. Qed.
Lemma SaveRecoveryShare_keeps s : keeps srv_wf (SaveRecoveryShare s).
Proof. unfold SaveRecoveryShare. keeps_op. Qed.
Lemma SavePasswordHash_keeps i h : keeps srv_wf (SavePasswordHash i h).
Proof. unfold SavePasswordHash. keeps_op. Qed.
Lemma DeletePasswordHash_keeps i : keeps srv_wf (DeletePasswordHash i).
Proof. unfold DeletePasswordHash. keeps_op. Qed.
Lemma SavePARRequest_keeps r : keeps srv_wf (SavePARRequest r).
Proof. unfold SavePARRequest. keeps_op. Qed.
Lemma DeletePARRequest_keeps u : keeps srv_wf (DeletePARRequest u).
Proof. unfold DeletePARRequest. keeps_op. Qed.
Lemma UpdateDeviceCode_keeps c : keeps srv_wf (UpdateDeviceCode c).
Proof. unfold UpdateDeviceCode. keeps_op. Qed.
Lemma DeleteDeviceCode_keeps c : keeps srv_wf (DeleteDeviceCode c).
Proof. unfold DeleteDeviceCode. keeps_op. Qed.
Lemma SavePasswordResetToken_keeps t : keeps srv_wf (SavePasswordResetToken t).
Proof. unfold SavePasswordResetToken. keeps_op. Qed.
Lemma DeletePasswordResetToken_keeps h : keeps srv_wf (DeletePasswordResetToken h).
Proof. unfold DeletePasswordResetToken. keeps_op. Qed.
Lemma RecordDisclosure_keeps p : keeps srv_wf (RecordDisclosure p).
Proof. unfold RecordDisclosure. keeps_op. Qed.
Lemma SaveCredentialOffer_keeps o : keeps srv_wf (SaveCredentialOffer o).
Proof. unfold SaveCredentialOffer. keeps_op. Qed.
Lemma MarkCredentialOfferUsed_keeps id : keeps srv_wf (MarkCredentialOfferUsed id).
Proof. unfold MarkCredentialOfferUsed. keeps_op. Qed.
Lemma PurgeExpiredSessions_keeps : keeps srv_wf PurgeExpiredSessions.
Proof. unfold PurgeExpiredSessions. keeps_op. Qed.
Lemma AppendAuditEvent_keeps t p h : keeps srv_wf (AppendAuditEvent t p h).
Proof.
  unfold AppendAuditEvent. keeps_op.
  apply keeps_on_db. wf_write.
Qed.
Lemma SaveDeviceCode_keeps c : keeps srv_wf (SaveDeviceCode c).
Proof.
  apply keeps_on_db. intros d rev evs Hd. simpl. destruct (device_codes d !! dc_DeviceCode c) as [old|] eqn:E.
  - destruct Hd as []. split; simpl; auto 3 with go.
    + apply keyed_insert; [|done]. simpl. by apply wf_devices0.
    + apply user_codes_insert; [|done]. intros k' a Ha Hu. by eapply wf_user_codes0.
  - destruct (rows _ _) as [|c' l] eqn:Er; [|done].
    destruct Hd as []. split; simpl; auto 3 with go.
    apply user_codes_insert; [|done]. intros k' a Ha Hu. exfalso.
    assert (a ∈ rows (λ r, dc_UserCode r =s dc_UserCode c) (device_codes d)) as Hin.
    { apply elem_of_rows. split; [by apply String.eqb_eq|eauto]. }
    rewrite Er in Hin. set_solver.
Qed.
Lemma SaveDocument_keeps `{JsonCodec Document} doc : keeps srv_wf (SaveDocument doc).
Proof. unfold SaveDocument. keeps_op. Qed.
Lemma SaveCredential_keeps `{JsonCodec VerifiableCredential} v : keeps srv_wf (SaveCredential v).
Proof. unfold SaveCredential. keeps_op. Qed.
#[export] Hint Resolve SaveIdentity_keeps UpdateIdentity_keeps DeleteCredential_keeps SaveGrant_keeps
  DeleteGrant_keeps SaveReceipt_keeps SaveSession_keeps DeleteSession_keeps SaveClient_keeps
  DeleteClient_keeps SaveRefreshToken_keeps DeleteRefreshToken_keeps SaveExternalLink_keeps
  DeleteExternalLink_keeps SaveMagicLinkToken_keeps DeleteMagicLinkToken_keeps
  SaveWebAuthnCredential_keeps UpdateWebAuthnCredential_keeps DeleteWebAuthnCredential_keeps
  SaveTOTPCredential_keeps DeleteTOTPCredential_keeps SaveWebhookSubscription_keeps
  DeleteWebhookSubscription_keeps RecordAuthFailure_keeps ClearAuthFailures_keeps
  SaveDuressConfig_keeps DeleteDuressConfig_keeps SaveRecoveryConfig_keeps
  DeleteRecoveryConfig_keeps SaveRecoveryRequest_keeps UpdateRecoveryRequest_keeps
  SaveRecoveryShare_keeps SavePasswordHash_keeps DeletePasswordHash_keeps
  SavePARRequest_keeps DeletePARRequest_keeps UpdateDeviceCode_keeps DeleteDeviceCode_keeps
  SavePasswordResetToken_keeps DeletePasswordResetToken_keeps RecordDisclosure_keeps
  SaveCredentialOffer_keeps MarkCredentialOfferUsed_keeps PurgeExpiredSessions_keeps
  AppendAuditEvent_keeps SaveDeviceCode_keeps SaveDocument_keeps SaveCredential_keeps : go.

Lemma run_op_keeps `{JsonCodec Document, JsonCodec VerifiableCredential} o : keeps srv_wf (run_op o).
Proof. destruct o; simpl; unfold ignore; keeps_tac. Qed.

Lemma run_ops_keeps `{JsonCodec Document, JsonCodec VerifiableCredential} l : keeps srv_wf (run_ops l).
Proof. induction l as [|o l IH]; simpl; [keeps_tac|]. apply keeps_bind; [apply run_op_keeps|done]. Qed.

(** The store's invariant: every sequence of the writing methods of the
    store, run on a fresh database (created by either schema) with any clock, any
    randomness and any driver errors, leaves every row of every table under the
    primary key its own fields spell, no two device codes with the same user
    code, and audit sequence numbers that count the rows of the log. *)
Theorem store_ops_wf `{JsonCodec Document, JsonCodec VerifiableCredential} l clk nc rnd nr flt nf migrated :
  srv_wf (w_state (snd (run_ops l (mkWorld clk nc rnd nr flt nf (mkSrv (empty_db migrated) ∅ []))))).
Proof. apply run_ops_keeps. simpl. apply empty_db_wf. Qed.

End StoreInv.
