(* ===== verification/Totp.v ===== *)
(** * Time-based one-time passwords (internal/authn/totp.go)

    The secret is kept encrypted under a key that Argon2 derives from the
    platform's passphrase; Argon2 and AES-GCM are parameters. *)

From S2P Require Import Prelude GoStd World Json Sha StoreTypes Store Logic StoreInv.
Import Types Store StoreInv.

(** golang.org/x/crypto/argon2, [IDKey] with the parameters the program uses
    everywhere (time 3, memory 64 MiB, 4 threads, 32 bytes). *)
Class Argon2 := { argon2_id : list byte → list byte → list byte }.
(** crypto/aes and crypto/cipher: GCM with a 12-byte nonce and no extra data. *)
Class AesGcm := {
  gcm_seal : list byte → list byte → list byte → list byte;
  gcm_open : list byte → list byte → list byte → option (list byte) }.
(** The documented law: opening what was sealed with the same key and nonce
    returns the plaintext. *)
Class AesGcmOk `{AesGcm} : Prop := {
  gcm_open_seal k n m : gcm_open k n (gcm_seal k n m) = Some m }.

Module Totp.

Definition totpDigits : nat := 6.
Definition totpPeriod : Z := 30.
Definition totpWindow : Z := 1.
Definition totpSaltLen : nat := 32.
Definition gcmNonceSize : nat := 12.

Record TOTPManager := mkTOTPManager { tm_passphrase : string; tm_issuer : string }.

(** [binary.BigEndian.PutUint64(msg, uint64(counter))]. *)
Definition put_uint64 (counter : Z) : list byte := Sha.be64 (Z.to_N (counter mod 2 ^ 64)).

Definition byte_at (h : list byte) (i : nat) : N := bval (nth i h x00).
(** The dynamic truncation of RFC 4226. *)
Definition truncate31 (h : list byte) : N :=
  let offset := N.to_nat (N.land (byte_at h (length h - 1)) 15) in
  N.lor (N.shiftl (N.land (byte_at h offset) 127) 24)
    (N.lor (N.shiftl (byte_at h (offset + 1)) 16)
       (N.lor (N.shiftl (byte_at h (offset + 2)) 8) (byte_at h (offset + 3)))).
(** ["%0*d"]: [n] decimal digits, with leading zeros. *)
Fixpoint padded (n : nat) (v : N) (acc : list byte) : list byte :=
  match n with
  | O => acc
  | S n' => padded n' (v / 10) (byte_of_N (48 + v mod 10) :: acc)
  end.
Definition generateTOTP (secret : list byte) (counter : Z) : string :=
  let h := Sha.hmac Sha.Sum1 secret (put_uint64 counter) in
  str_of (padded totpDigits (truncate31 h mod 1000000) []).

Definition timingSafeEqual (a b : string) : bool :=
  let a := bytes_of a in let b := bytes_of b in
  if negb (length a =? length b)%nat then false
  else beqb (foldl (λ acc '(x, y), bor acc (bxor x y)) x00 (zip a b)) x00.

Definition unreserved (c : byte) : bool :=
  let v := bval c in
  ((65 <=? v) && (v <=? 90) || (97 <=? v) && (v <=? 122) || (48 <=? v) && (v <=? 57))%N
  || beqb c x2d || beqb c x5f || beqb c x2e || beqb c x7e.
(** [range s] over a string: code points, U+FFFD for a byte that is not UTF-8. *)
Definition code_point (s : list byte) : N :=
  match (λ c, bval c) <$> s with
  | [a; b] => (a mod 32) * 64 + b mod 64
  | [a; b; c] => (a mod 16) * 4096 + (b mod 64) * 64 + c mod 64
  | [a; b; c; d] => (a mod 8) * 262144 + (b mod 64) * 4096 + (c mod 64) * 64 + d mod 64
  | _ => 65533
  end%N.
Fixpoint hex_upper (fuel : nat) (n : N) (acc : list byte) : list byte :=
  match fuel with
  | O => acc
  | S fuel' =>
      let d := (n mod 16)%N in
      let acc' := byte_of_N (if (d <? 10)%N then 48 + d else 55 + d) :: acc in
      if (n <? 16)%N then acc' else hex_upper fuel' (n / 16)%N acc'
  end.
(** ["%%%02X"]. *)
Definition percent (cp : N) : list byte :=
  x25 :: (if (cp <? 16)%N then [x30] else []) ++ hex_upper 6 cp [].
Fixpoint escape_go (fuel : nat) (s : list byte) : list byte :=
  match fuel, s with
  | O, _ | _, [] => []
  | S fuel', c :: s' =>
      if (bval c <? 128)%N then (if unreserved c then [c] else percent (bval c)) ++ escape_go fuel' s'
      else match Json.utf8_width s with
           | Some n => percent (code_point (take n s)) ++ escape_go fuel' (drop n s)
           | None => percent 65533 ++ escape_go fuel' s'
           end
  end.
Definition urlEscape (s : string) : string := str_of (escape_go (length (bytes_of s)) (bytes_of s)).

(** base32.StdEncoding without padding, over the bits of the input. *)
Definition b32char (n : N) : byte := byte_of_N (if (n <? 26)%N then 65 + n else 24 + n).
Fixpoint b32_go (fuel : nat) (acc nbits : N) (l : list byte) : list byte :=
  match fuel with
  | O => []
  | S fuel' =>
      if (5 <=? nbits)%N then
        b32char (N.shiftr acc (nbits - 5)) :: b32_go fuel' (acc mod 2 ^ (nbits - 5)) (nbits - 5) l
      else match l with
           | c :: l' => b32_go fuel' (acc * 256 + bval c) (nbits + 8) l'
           | [] => if (nbits =? 0)%N then [] else [b32char (N.shiftl acc (5 - nbits))]
           end
  end.
Definition base32 (l : list byte) : string := str_of (b32_go (4 * length l + 2) 0 0 l).

Section Manager.
Context `{Argon2, AesGcm} (m : TOTPManager).

Definition derive (salt : list byte) : list byte := argon2_id (bytes_of (tm_passphrase m)) salt.

Definition encryptSecret (secret : list byte) : M Srv (result string) :=
  salt ← rand_read totpSaltLen;
  match salt with
  | Err e => mret (Err e)
  | Ok salt =>
  nonce ← rand_read gcmNonceSize;
  match nonce with
  | Err e => mret (Err e)
  | Ok nonce =>
      let ct := gcm_seal (derive salt) nonce secret in
      mret (Ok (Sha.hex salt +s ":" +s Sha.hex nonce +s ":" +s Sha.hex ct))
  end end.

Definition decode_part (what part : string) : result (list byte) :=
  of_option (ErrMsg ("totp: invalid encrypted secret (" +s what +s ")")) (hex_decode (bytes_of part)).
(** [Open] panics on a nonce of another size. *)
Definition decryptSecret (encoded : string) : result (list byte) :=
  match SplitN encoded x3a 3 with
  | [p0; p1; p2] =>
      salt ← decode_part "salt" p0;
      nonce ← decode_part "nonce" p1;
      ct ← decode_part "ciphertext" p2;
      if negb (length nonce =? gcmNonceSize)%nat then
        Err (ErrMsg "panic: crypto/cipher: incorrect nonce length given to GCM")
      else of_option (ErrMsg "cipher: message authentication failed") (gcm_open (derive salt) nonce ct)
  | _ => Err (ErrMsg "invalid encrypted secret format")
  end.

Definition otpauth_uri (accountName : string) (secret : list byte) : string :=
  "otpauth://totp/" +s urlEscape (tm_issuer m) +s ":" +s urlEscape accountName +s "?secret=" +s
  base32 secret +s "&issuer=" +s urlEscape (tm_issuer m) +s "&algorithm=SHA1&digits=6&period=30".

Definition EnrolCtx (subjectDID accountName : string) : M Srv (result string) :=
  secret ← rand_read 20;
  match secret with
  | Err e => mret (Err (ErrWrap "totp: generate secret" e))
  | Ok secret =>
  enc ← encryptSecret secret;
  match enc with
  | Err e => mret (Err (ErrWrap "totp: encrypt secret" e))
  | Ok encrypted =>
  now ← time_now;
  saved ← SaveTOTPCredential (mkTOTPCredential subjectDID encrypted accountName now);
  match saved with
  | Err e => mret (Err (ErrWrap "totp: save credential" e))
  | Ok _ => mret (Ok (otpauth_uri accountName secret))
  end end end.

(** The counters tried: one period before, the current one, one after. *)
Definition window (now : Z) : list Z :=
  let counter := Z.quot (unix now) totpPeriod in
  (λ d, counter + d)%Z <$> [- totpWindow; 0; totpWindow]%Z.
Definition VerifyCtx (subjectDID code : string) : M Srv (result unit) :=
  cred ← GetTOTPCredential subjectDID;
  match cred with
  | Err _ => mret (Err (ErrMsg "totp: no credential enrolled"))
  | Ok cred =>
  match decryptSecret (tc_EncryptedSecret cred) with
  | Err e => mret (Err (ErrWrap "totp: decrypt secret" e))
  | Ok secret =>
      now ← time_now;
      mret (if existsb (λ c, timingSafeEqual code (generateTOTP secret c)) (window now) then Ok tt
            else Err (ErrMsg "totp: invalid code"))
  end end.

Definition IsEnrolled (subjectDID : string) : M Srv bool :=
  cred ← GetTOTPCredential subjectDID;
  mret (is_ok cred).
Definition Unenrol (subjectDID : string) : M Srv (result unit) := DeleteTOTPCredential subjectDID.
End Manager.

(** The vectors of RFC 6238 (SHA-1, truncated to six digits). *)
Definition rfc_secret : list byte := bytes_of "12345678901234567890".
Example totp_59 : generateTOTP rfc_secret (59 / 30) = "287082".
Proof. vm_compute. reflexivity. Qed.
Example totp_1111111109 : generateTOTP rfc_secret (1111111109 / 30) = "081804".
Proof. vm_compute. reflexivity. Qed.
Example totp_20000000000 : generateTOTP rfc_secret (20000000000 / 30) = "353130".
Proof. vm_compute. reflexivity. Qed.
Example base32_foobar : base32 (bytes_of "foobar") = "MZXW6YTBOI".
Proof. vm_compute. reflexivity. Qed.
Example escape_at : urlEscape "a@b c" = "a%40b%20c".
Proof. vm_compute. reflexivity. Qed.
(** A character outside ASCII is printed as its code point, not as its UTF-8 bytes. *)
Example escape_e_acute : urlEscape (str_of [xc3; xa9]) = "%E9".
Proof. vm_compute. reflexivity. Qed.

(** ** Comparison *)

Lemma bor_x00 a b : beqb (bor a b) x00 = beqb a x00 && beqb b x00.
Proof.
  apply Bool.eqb_prop. revert a b.
  apply (forall_bytes2 (λ a b, Bool.eqb (beqb (bor a b) x00) (beqb a x00 && beqb b x00))).
  vm_compute. reflexivity.
Qed.

Lemma xor_fold_x00 a b acc :
  length a = length b →
  beqb (foldl (λ acc '(x, y), bor acc (bxor x y)) acc (zip a b)) x00 = true ↔ acc = x00 ∧ a = b.
Proof.
  revert b acc. induction a as [|x a IH]; intros [|y b] acc Hlen; simplify_eq/=.
  - destruct (beqb_spec acc x00); naive_solver.
  - rewrite IH by done. split.
    + intros [E%(f_equal (λ z, beqb z x00)) ->]. rewrite bor_x00, beqb_refl in E.
      apply andb_true_iff in E as [E1%beqb_eq E2%beqb_eq]. apply bxor_eq_0 in E2. by subst.
    + intros [-> [= -> ->]]. split; [|done]. apply beqb_eq. by rewrite bor_x00, bxor_nilp.
Qed.

Lemma timingSafeEqual_spec a b : timingSafeEqual a b = true ↔ a = b.
Proof.
  unfold timingSafeEqual. destruct (Nat.eqb_spec (length (bytes_of a)) (length (bytes_of b))) as [E|E]; simpl.
  - rewrite xor_fold_x00 by done. split; [|by intros ->]. intros [_ Heq]. by apply bytes_of_inj.
  - split; [done|]. by intros ->.
Qed.

Lemma length_padded n v acc : length (padded n v acc) = n + length acc.
Proof. revert v acc. induction n as [|n IH]; intros v acc; simpl; [done|]. rewrite IH. simpl. lia. Qed.

(** ** Encryption round trip *)

Lemma hex_no_colon l : Forall (λ c, beqb c x3a = false) (hex_encode l).
Proof.
  induction l as [|c l IH]; simpl; [done|].
  assert (Forall (λ c, beqb c x3a = false) (hex_byte c)) as Hc.
  { assert (forallb (λ x, negb (beqb x x3a)) (hex_byte c) = true) as H.
    { revert c. apply (forall_bytes (λ c, forallb (λ x, negb (beqb x x3a)) (hex_byte c))). vm_compute. reflexivity. }
    rewrite forallb_elem_of in H. apply Forall_forall. intros x Hx. by apply negb_true_iff, H. }
  apply Forall_app. by split.
Qed.

Lemma SplitN_hex a b c :
  SplitN (Sha.hex a +s ":" +s Sha.hex b +s ":" +s Sha.hex c) x3a 3 = [Sha.hex a; Sha.hex b; Sha.hex c].
Proof.
  unfold SplitN, Sha.hex. rewrite !bytes_of_append, !bytes_of_str_of.
  change (bytes_of ":") with [x3a]. cbn [app].
  rewrite !bsplit_n_plain, bsplit_n_last by apply hex_no_colon. done.
Qed.

Section Theorems.
Context `{Argon2, AesGcm, !AesGcmOk} (m : TOTPManager).

Lemma decode_part_hex what l : decode_part what (Sha.hex l) = Ok l.
Proof. unfold decode_part, Sha.hex. by rewrite bytes_of_str_of, hex_decode_encode. Qed.

Lemma decrypt_encrypted secret salt nonce :
  length nonce = gcmNonceSize →
  decryptSecret m (Sha.hex salt +s ":" +s Sha.hex nonce +s ":" +s
                   Sha.hex (gcm_seal (derive m salt) nonce secret)) = Ok secret.
Proof.
  intros Hn. unfold decryptSecret. rewrite SplitN_hex, !decode_part_hex. simpl mbind.
  by rewrite Hn, Nat.eqb_refl, gcm_open_seal.
Qed.

(** The stored row of a subject and the secret it hides. *)
Definition enrolled (d : DB) (subjectDID : string) (secret : list byte) : Prop :=
  ∃ cred, totp_credentials d !! subjectDID = Some cred ∧ decryptSecret m (tc_EncryptedSecret cred) = Ok secret.

Lemma window_spec now c : c ∈ window now ↔ (Z.abs (c - Z.quot (unix now) totpPeriod) ≤ 1)%Z.
Proof. unfold window, totpWindow. rewrite list_elem_of_fmap. setoid_rewrite elem_of_cons. setoid_rewrite elem_of_cons. setoid_rewrite elem_of_cons. setoid_rewrite elem_of_nil. split.
  - intros (d & -> & [->|[->|[->|[]]]]); lia.
  - intros Hc. exists (c - Z.quot (unix now) totpPeriod)%Z. split; lia.
Qed.

(** One-time passwords are checked against the three periods around now:
    when the driver does not fail, a code for an enrolled subject is accepted
    exactly when it is the RFC 6238 value of the subject's secret for the current
    30-second period, the one before or the one after; verification changes
    nothing, so the same code is accepted again within that time. *)
Theorem VerifyCtx_iff w subjectDID code secret :
  no_faults w → enrolled (srv_db (w_state w)) subjectDID secret →
  (fst (VerifyCtx m subjectDID code w) = Ok tt ↔
   ∃ c, (Z.abs (c - Z.quot (unix (w_clock w (w_nclock w))) totpPeriod) ≤ 1)%Z ∧ code = generateTOTP secret c) ∧
  w_state (snd (VerifyCtx m subjectDID code w)) = w_state w.
Proof.
  destruct w as [clk nc rnd nr flt nf [d rev evs]]. cbn [w_state srv_db w_clock w_nclock].
  intros Hnf (cred & Hcred & Hdec).
  assert (select subjectDID (totp_credentials d) = Ok cred) as Hsel by (unfold select; by rewrite Hcred).
  assert (wp (VerifyCtx m subjectDID code) (λ r w',
    r = (if existsb (λ c, timingSafeEqual code (generateTOTP secret c)) (window (clk nc)) then Ok tt
         else Err (ErrMsg "totp: invalid code")) ∧ w_state w' = mkSrv d rev evs)
    (mkWorld clk nc rnd nr flt nf (mkSrv d rev evs))) as [-> Hst].
  { unfold VerifyCtx, GetTOTPCredential. specialize (Hnf nf). simpl in Hnf.
    repeat (wp_step; try congruence); try (by simplify_eq; congruence).
    split; [|done]. simplify_eq. assert (a0 = secret) as -> by congruence. done. }
  split; [|done]. destruct (existsb _ _) eqn:E.
  - split; [intros _|done]. apply existsb_elem_of in E as (c & Hc%window_spec & ->%timingSafeEqual_spec). eauto.
  - split; [done|]. intros (c & Hc%window_spec & ->). exfalso. apply not_true_iff_false in E. apply E.
    apply existsb_elem_of. exists c. split; [done|]. by apply timingSafeEqual_spec.
Qed.

(** Enrolment and verification agree: when neither the random source nor the
    driver fails, enrolment stores the subject's fresh 20-byte secret so that it
    can be decrypted again, and returns the URI that carries the same secret to the
    authenticator. *)
Theorem EnrolCtx_enrols w subjectDID accountName f :
  no_faults w → rand_ok w → w_rand w (w_nrand w) = Some f →
  let secret := f <$> seq 0 20 in
  fst (EnrolCtx m subjectDID accountName w) = Ok (otpauth_uri m accountName secret) ∧
  enrolled (srv_db (w_state (snd (EnrolCtx m subjectDID accountName w)))) subjectDID secret.
Proof.
  destruct w as [clk nc rnd nr flt nf [d rev evs]]. cbn [w_rand w_nrand].
  intros Hnf Hro Hf. set (secret := f <$> seq 0 20).
  change (wp (EnrolCtx m subjectDID accountName) (λ r w', r = Ok (otpauth_uri m accountName secret) ∧
    enrolled (srv_db (w_state w')) subjectDID secret) (mkWorld clk nc rnd nr flt nf (mkSrv d rev evs))).
  pose proof (Hnf nf) as Hflt. simpl in Hflt. pose proof (Hro (S nr)) as [g Hg].
  pose proof (Hro (S (S nr))) as [h Hh]. cbn [w_rand] in Hg, Hh.
  unfold EnrolCtx, encryptSecret, SaveTOTPCredential.
  repeat (wp_step; try congruence). simplify_eq. split; [done|].
  cbn [w_state srv_db]. unfold enrolled. cbn [totp_credentials set_totp_credentials tc_SubjectDID].
  destruct (totp_credentials d !! subjectDID) as [old|] eqn:Eold;
    [rewrite (lookup_upsert_old _ _ _ _ old Eold)|rewrite lookup_upsert_new by done];
    (eexists; split; [reflexivity|]); by apply decrypt_encrypted.
Qed.
End Theorems.

(** Concrete stand-ins for the primitives: a keyed digest, and a cipher that
    returns its input. *)
#[local] Instance digest_argon2 : Argon2 := {| argon2_id p s := Sha.Sum256 (p ++ s) |}.
#[local] Instance null_cipher : AesGcm := {| gcm_seal _ _ x := x; gcm_open _ _ c := Some c |}.
#[local] Instance null_cipher_ok : AesGcmOk.
Proof. by split. Qed.

Definition sample_manager : TOTPManager := mkTOTPManager "passphrase" "TPT".
Definition sample_credential : TOTPCredential :=
  mkTOTPCredential "did:key:alice"
    (Sha.hex [x01] +s ":" +s Sha.hex (replicate 12 x02) +s ":" +s Sha.hex rfc_secret) "alice" 0.
Definition totp_world : World Srv :=
  mkWorld (λ _, 59 * second)%Z 0 (λ n, Some (λ i, byte_of_N (N.of_nat (i + n)))) 0 (λ _, None) 0
    (mkSrv (set_totp_credentials {[ "did:key:alice" := sample_credential ]} (empty_db true)) ∅ []).

Lemma VerifyCtx_iff_witness : fst (VerifyCtx sample_manager "did:key:alice" "287082" totp_world) = Ok tt.
Proof.
  apply (VerifyCtx_iff sample_manager totp_world "did:key:alice" "287082" rfc_secret (λ _, eq_refl)).
  - exists sample_credential. split; [reflexivity|vm_compute; reflexivity].
  - exists 1%Z. split; [by vm_compute|vm_compute; reflexivity].
Defined.

Lemma EnrolCtx_enrols_witness :
  is_ok (fst (EnrolCtx sample_manager "did:key:bob" "bob" totp_world)) = true.
Proof.
  destruct (EnrolCtx_enrols sample_manager totp_world "did:key:bob" "bob" (λ i, byte_of_N (N.of_nat (i + 0)))
    (λ _, eq_refl) (λ _, ltac:(by eexists)) eq_refl) as [-> _].
  reflexivity.
Defined.
End Totp.
