(* ===== verification/Lockout.v ===== *)
(** * Brute-force lockout (internal/authn/lockout.go)

    The manager over the store's failure counters, and the escalation of the
    lock. *)

From S2P Require Import Prelude GoStd World StoreTypes Store StoreAuth Logic StoreInv.
Import Types Store StoreAuth StoreInv.

Module Lockout.

(** [d.Round(time.Second)] in whole seconds, halves away from zero, and how such a
    duration prints. *)
Definition round_seconds (d : Z) : Z :=
  if (d <? 0)%Z then (- ((- d + second / 2) / second))%Z else ((d + second / 2) / second)%Z.
Definition duration_string (secs : Z) : string :=
  let a := Z.abs secs in
  let h := (a / 3600)%Z in let mi := (a / 60 mod 60)%Z in let s := (a mod 60)%Z in
  (if (secs <? 0)%Z then "-" else "") +s
  (if (0 <? h)%Z then Itoa h +s "h" +s Itoa mi +s "m" +s Itoa s +s "s"
   else if (0 <? mi)%Z then Itoa mi +s "m" +s Itoa s +s "s" else Itoa s +s "s").
Definition locked_error (remaining : Z) : error :=
  ErrMsg ("account locked for " +s duration_string (round_seconds remaining)).
Example locked_message : error_string (locked_error (30 * minute - 1)) = "account locked for 30m0s".
Proof. vm_compute. reflexivity. Qed.

(** An error of the store counts as not locked. *)
Definition CheckLocked (subjectOrEmail : string) : M Srv (result unit) :=
  r ← GetAuthFailures subjectOrEmail;
  match r with
  | Err _ => mret (Ok tt)
  | Ok (_, lockedUntil) =>
      match lockedUntil with
      | None => mret (Ok tt)
      | Some until =>
          now ← time_now;
          if (now <? until)%Z then
            now2 ← time_now;
            mret (Err (locked_error (until - now2)))
          else mret (Ok tt)
      end
  end.
Definition RecordFailure (subjectOrEmail : string) : M Srv (result unit) := RecordAuthFailure subjectOrEmail.
Definition RecordSuccess (subjectOrEmail : string) : M Srv unit :=
  _ ← ClearAuthFailures subjectOrEmail; mret tt.
Definition AdminReset (subjectOrEmail : string) : M Srv (result unit) :=
  r ← ClearAuthFailures subjectOrEmail;
  mret (wrap_err "lockout: admin reset" r).

(** ** The failures of one account *)

Fixpoint fail_times (n : nat) (who : string) : M Srv unit :=
  match n with
  | O => mret tt
  | S n' => _ ← RecordFailure who; fail_times n' who
  end.

(** The counter of an account: no row counts as zero. *)
Definition failures (d : DB) (who : string) : Z :=
  match auth_failures d !! who with Some row => af_count row | None => 0 end.

(** One recorded failure, when the driver does not fail. *)
Definition bump (who : string) (now : Z) (d : DB) : DB :=
  let count := (failures d who + 1)%Z in
  set_auth_failures (<[who := mkAuthFailureRow who count now ((λ dur, now + dur)%Z <$> lock_for count)]>
    (auth_failures d)) d.

Lemma wp_RecordFailure who clk nc rnd nr flt nf d rev evs Q :
  (∀ n, flt n = None) →
  Q (Ok tt) (mkWorld clk (S nc) rnd nr flt (2 + nf) (mkSrv (bump who (clk nc) d) rev evs)) →
  wp (RecordFailure who) Q (mkWorld clk nc rnd nr flt nf (mkSrv d rev evs)).
Proof.
  intros Hflt HQ. unfold RecordFailure, RecordAuthFailure. repeat (wp_step; try congruence).
  unfold bump, failures in HQ. unfold select. destruct (auth_failures d !! who); exact HQ.
Qed.

Lemma failures_bump who now d : failures (bump who now d) who = (failures d who + 1)%Z.
Proof. unfold failures, bump. simpl. by rewrite lookup_insert_eq. Qed.

(** The row after [S n] failures in a row. *)
Lemma fail_times_row n who clk nc rnd nr flt nf d rev evs :
  (∀ k, flt k = None) →
  wp (fail_times (S n) who) (λ _ w', auth_failures (srv_db (w_state w')) !! who =
    let count := (failures d who + Z.of_nat (S n))%Z in
    Some (mkAuthFailureRow who count (clk (n + nc)) ((λ dur, clk (n + nc)%nat + dur)%Z <$> lock_for count)))
    (mkWorld clk nc rnd nr flt nf (mkSrv d rev evs)).
Proof.
  intros Hflt. revert nc nf d. induction n as [|n IH]; intros nc nf d.
  - cbn [fail_times]. apply wp_bind, wp_RecordFailure; [done|]. apply wp_ret. simpl.
    by rewrite lookup_insert_eq.
  - change (fail_times (S (S n)) who) with (_ ← RecordFailure who; fail_times (S n) who).
    apply wp_bind, wp_RecordFailure; [done|].
    eapply wp_mono; [apply IH|]. intros [] w' ->. rewrite failures_bump.
    replace (failures d who + 1 + Z.of_nat (S n))%Z with (failures d who + Z.of_nat (S (S n)))%Z by lia.
    by replace (n + S nc) with (S n + nc) by lia.
Qed.

Lemma lock_for_spec count :
  lock_for count = if decide (20 ≤ count)%Z then Some permanentLock
                   else if decide (10 ≤ count)%Z then Some (30 * minute)%Z
                   else if decide (5 ≤ count)%Z then Some (5 * minute)%Z else None.
Proof.
  unfold lock_for, lockThreshold1, lockThreshold2, lockThreshold3, lockDuration1, lockDuration2.
  destruct (Z.leb_spec 20 count), (Z.leb_spec 10 count), (Z.leb_spec 5 count); repeat case_decide; (done || lia).
Qed.

(** Until when an account is locked. *)
Definition locked_until (d : DB) (who : string) : option Z := auth_failures d !! who ≫= af_locked_until.

Lemma no_rows_message : Contains (error_string ErrNoRows) "no rows" = true.
Proof. vm_compute. reflexivity. Qed.

Lemma wp_CheckLocked who clk nc rnd nr flt nf d rev evs :
  (∀ n, flt n = None) →
  wp (CheckLocked who) (λ r _, is_ok r = match locked_until d who with
     | Some until => negb (clk nc <? until)%Z | None => true end)
    (mkWorld clk nc rnd nr flt nf (mkSrv d rev evs)).
Proof.
  intros Hflt. unfold CheckLocked, GetAuthFailures, locked_until.
  destruct (auth_failures d !! who) as [row|] eqn:E; simpl.
  - assert (select who (auth_failures d) = Ok row) as Hsel by (unfold select; by rewrite E).
    repeat (wp_step; try congruence); simplify_eq;
      repeat match goal with H : af_locked_until row = _ |- _ => rewrite H end;
      repeat match goal with H : (_ <? _)%Z = _ |- _ => rewrite H end; done.
  - assert (select who (auth_failures d) = Err ErrNoRows) as Hsel by (unfold select; by rewrite E).
    repeat (wp_step; try congruence); simplify_eq; pose proof no_rows_message; done || congruence.
Qed.

Lemma RecordSuccess_unlocks who clk nc rnd nr flt nf d rev evs :
  (∀ n, flt n = None) →
  is_ok (fst (CheckLocked who (snd (RecordSuccess who (mkWorld clk nc rnd nr flt nf (mkSrv d rev evs)))))) = true.
Proof.
  intros Hflt.
  assert (snd (RecordSuccess who (mkWorld clk nc rnd nr flt nf (mkSrv d rev evs))) =
    mkWorld clk nc rnd nr flt (S nf) (mkSrv (set_auth_failures (delete who (auth_failures d)) d) rev evs)) as ->.
  { apply (wp_run (RecordSuccess who) (λ _ w', w' = _) _ _ _ (surjective_pairing _)).
    unfold RecordSuccess, ClearAuthFailures. repeat (wp_step; try congruence). }
  rewrite (wp_CheckLocked who) by done. unfold locked_until. simpl. by rewrite lookup_delete_eq.
Qed.

(** C16: The lockout escalates: when the driver does not fail, [n + 1] consecutive
    recorded failures of an account without a record lock it so that the check
    refuses exactly while the time since the last failure is below the lock of
    that count: none below five failures, five minutes from five, thirty minutes
    from ten, a hundred years from twenty; clearing the record unlocks at once. *)
Theorem lockout_escalates n who w w2 :
  no_faults w → no_faults w2 → auth_failures (srv_db (w_state w)) !! who = None →
  w_state w2 = w_state (snd (fail_times (S n) who w)) →
  (is_ok (fst (CheckLocked who w2)) = false ↔
    ∃ dur, (w_clock w2 (w_nclock w2) < w_clock w (n + w_nclock w)%nat + dur)%Z ∧
      if decide (20 ≤ S n) then dur = (100 * 365 * 24 * hour)%Z
      else if decide (10 ≤ S n) then dur = (30 * minute)%Z
      else if decide (5 ≤ S n) then dur = (5 * minute)%Z else False) ∧
  is_ok (fst (CheckLocked who (snd (RecordSuccess who w2)))) = true.
Proof.
  destruct w as [clk nc rnd nr flt nf [d rev evs]], w2 as [clk2 nc2 rnd2 nr2 flt2 nf2 [d2 rev2 evs2]].
  cbn [w_state srv_db w_clock w_nclock]. intros Hnf Hnf2 Hnone Hst.
  pose proof (fail_times_row n who clk nc rnd nr flt nf d rev evs (λ k, Hnf k)) as Hrow.
  unfold wp in Hrow. rewrite <-Hst in Hrow. cbn [srv_db] in Hrow. unfold failures in Hrow.
  rewrite Hnone in Hrow. clear Hst. split; [|by apply RecordSuccess_unlocks].
  rewrite (wp_CheckLocked who clk2 nc2 rnd2 nr2 flt2 nf2 d2 rev2 evs2 (λ k, Hnf2 k)).
  unfold locked_until. rewrite Hrow. simpl mbind. rewrite lock_for_spec.
  repeat case_decide; simpl; try lia; rewrite ?negb_false_iff, ?Z.ltb_lt; naive_solver.
Qed.

Definition lock_world (t : Z) (d : DB) : World Srv :=
  mkWorld (λ _, t) 0 (λ _, None) 0 (λ _, None) 0 (mkSrv d ∅ []).
Lemma lockout_escalates_witness :
  is_ok (fst (CheckLocked "eve" (lock_world (1299 * second)
    (srv_db (w_state (snd (fail_times 5 "eve" (lock_world (1000 * second) (empty_db true))))))))) = false.
Proof.
  apply (lockout_escalates 4 "eve" (lock_world (1000 * second) (empty_db true))
    (lock_world (1299 * second)
      (srv_db (w_state (snd (fail_times 5 "eve" (lock_world (1000 * second) (empty_db true)))))))
    (λ _, eq_refl) (λ _, eq_refl) eq_refl).
  - vm_compute. reflexivity.
  - exists (5 * minute)%Z. split; [by vm_compute|done].
Defined.
End Lockout.
