(* ===== verification/Events.v ===== *)
(** * The event bus (internal/events/events.go)

    [Publish] runs the in-process subscribers one after the other, then starts
    one delivery per matching webhook subscription; [deliver] posts the signed
    body up to three times with a doubling pause. *)

From S2P Require Import Prelude GoStd World Sha Json JsonValue StoreTypes Store Logic.
Import JsonValue Types Store.

Module Events.

(** ** Formatting of instants *)

(** Year, month and day of a count of days since 1970-01-01 (proleptic
    Gregorian calendar): 400-year eras that start on the first of March. *)
Definition civil (days : Z) : Z * Z * Z :=
  (let z := days + 719468 in
  let era := z / 146097 in
  let doe := z mod 146097 in
  let yoe := (doe - doe / 1460 + doe / 36524 - doe / 146096) / 365 in
  let doy := doe - (365 * yoe + yoe / 4 - yoe / 100) in
  let mp := (5 * doy + 2) / 153 in
  let d := doy - (153 * mp + 2) / 5 + 1 in
  let m := if mp <? 10 then mp + 3 else mp - 9 in
  (yoe + era * 400 + (if m <=? 2 then 1 else 0), m, d))%Z.

Fixpoint digits (n : nat) (z : Z) : list byte :=
  match n with
  | O => []
  | S n' => digits n' (z / 10) ++ [byte_of_N (48 + Z.to_N (z mod 10))]
  end.
(** [t.UTC().Format(time.RFC3339)] for the years 0 to 9999. *)
Definition rfc3339 (t : Z) : string :=
  let s := unix t in
  let '(y, mo, d) := civil (s / 86400) in
  let r := (s mod 86400)%Z in
  str_of (digits 4 y ++ x2d :: digits 2 mo ++ x2d :: digits 2 d ++ x54 ::
          digits 2 (r / 3600) ++ x3a :: digits 2 (r / 60 mod 60) ++ x3a :: digits 2 (r mod 60) ++ [x5a]).
(** A time value in JSON: RFC 3339 with the fraction of a second, if any, without
    trailing zeros. *)
Fixpoint trim_zeros (l : list byte) : list byte :=
  match l with
  | c :: l' => if beqb c x30 then trim_zeros l' else l
  | [] => []
  end.
Definition time_json (t : Z) : string :=
  let whole := rfc3339 t in
  match rev (trim_zeros (rev (digits 9 (t mod second)))) with
  | [] => whole
  | frac => str_of (take 19 (bytes_of whole) ++ x2e :: frac ++ [x5a])
  end.
Example time_json_nanos : time_json (1136214245 * second + 120000000) = "2006-01-02T15:04:05.12Z".
Proof. vm_compute. done. Qed.
Example rfc3339_go : rfc3339 (1136214245 * second) = "2006-01-02T15:04:05Z".
Proof. vm_compute. done. Qed.
Example rfc3339_leap : rfc3339 (1709251199 * second + 999999999) = "2024-02-29T23:59:59Z".
Proof. vm_compute. done. Qed.

(** [%016x] of a 64-bit integer; a sign takes one of the sixteen places. *)
Fixpoint hex_digits (n : nat) (z : Z) : list byte :=
  match n with
  | O => []
  | S n' => hex_digits n' (z / 16) ++ [hexdigit (Z.to_N (z mod 16))]
  end.
Definition hex016 (z : Z) : string :=
  str_of (if (z <? 0)%Z then x2d :: hex_digits (if (- z <? 2 ^ 60)%Z then 15 else 16) (- z) else hex_digits 16 z).

(** ** Events *)

(** A payload is a Go value: the JSON it marshals to, or nothing when
    [json.Marshal] refuses it. *)
Record Event := mkEvent {
  ev_ID : string; ev_Type : string; ev_OccuredAt : string; ev_Payload : option json }.

Definition event_json (e : Event) : option json :=
  p ← ev_Payload e;
  Some (JObj [("id", JStr (ev_ID e)); ("type", JStr (ev_Type e));
              ("occurred_at", JStr (ev_OccuredAt e)); ("payload", p)]).

Definition randomEventID : M Srv string := now ← time_now; mret ("evt_" +s hex016 now).

Definition LocalSubscriber := Event → M Srv unit.
Record Bus := mkBus { bus_subscribers : list LocalSubscriber }.
Definition NewBus : Bus := mkBus [].
Definition Subscribe (fn : LocalSubscriber) (b : Bus) : Bus := mkBus (bus_subscribers b ++ [fn]).

Fixpoint notify (subs : list LocalSubscriber) (e : Event) : M Srv unit :=
  match subs with
  | [] => mret tt
  | fn :: subs' => _ ← fn e; notify subs' e
  end.

(** [go b.deliver(sub, body)] for every subscription. *)
Definition start_deliveries (subs : list WebhookSubscription) (body : string) : M Srv unit :=
  modify (λ s, mkSrv (srv_db s) (srv_revoked s) (srv_outbox s ++ ((λ sub, (sub, body)) <$> subs))).

Definition Publish (b : Bus) (eventType : string) (payload : option json) : M Srv unit :=
  id ← randomEventID;
  now ← time_now;
  let event := mkEvent id eventType (rfc3339 now) payload in
  match event_json event with
  | None => mret tt
  | Some j =>
      _ ← notify (bus_subscribers b) event;
      subs ← ListWebhookSubscriptions eventType;
      match subs with
      | Err _ => mret tt
      | Ok l => start_deliveries l (str_of (marshal j))
      end
  end.

(** *** A bus without in-process subscribers *)

Definition event_text (t : string) (j : json) (at_id at_event : Z) : string :=
  str_of (marshal (JObj [("id", JStr ("evt_" +s hex016 at_id)); ("type", JStr t);
                         ("occurred_at", JStr (rfc3339 at_event)); ("payload", j)])).
Definition matching (t : string) (d : DB) : list WebhookSubscription :=
  filter (λ s, webhook_matches t s = true) (scanWebhookSub <$> rows (λ _, true) (webhook_subscriptions d)).

(** Publishing on it only queues deliveries. *)
Lemma wp_Publish_plain t p clk nc rnd nr flt nf d rev evs (Q : unit → World Srv → Prop) :
  (∀ nf' evs', Q tt (mkWorld clk (2 + nc) rnd nr flt nf' (mkSrv d rev evs'))) →
  wp (Publish NewBus t p) Q (mkWorld clk nc rnd nr flt nf (mkSrv d rev evs)).
Proof.
  intros HQ. unfold Publish, randomEventID. do 5 wp_step. unfold event_json.
  destruct p as [j|]; cbn [mbind option_bind ev_Payload NewBus bus_subscribers notify]; [|apply wp_ret, HQ].
  unfold ListWebhookSubscriptions, start_deliveries. repeat wp_step; apply HQ.
Qed.
(** Without driver errors it queues the event for every subscription that asks for it. *)
Lemma wp_Publish_sent t j clk nc rnd nr flt nf d rev evs (Q : unit → World Srv → Prop) :
  (∀ n, flt n = None) →
  Q tt (mkWorld clk (2 + nc) rnd nr flt (S nf)
          (mkSrv d rev (evs ++ ((λ sub, (sub, event_text t j (clk nc) (clk (S nc)))) <$> matching t d)))) →
  wp (Publish NewBus t (Some j)) Q (mkWorld clk nc rnd nr flt nf (mkSrv d rev evs)).
Proof.
  intros Hnf HQ. unfold Publish, randomEventID. do 5 wp_step. unfold event_json.
  cbn [mbind option_bind ev_Payload ev_ID ev_Type ev_OccuredAt NewBus bus_subscribers notify].
  unfold ListWebhookSubscriptions, start_deliveries. repeat (wp_step; try (by rewrite Hnf in *)).
Qed.
Lemma Publish_plain t p w :
  srv_db (w_state (snd (Publish NewBus t p w))) = srv_db (w_state w) ∧
  srv_revoked (w_state (snd (Publish NewBus t p w))) = srv_revoked (w_state w) ∧
  w_fault (snd (Publish NewBus t p w)) = w_fault w.
Proof.
  destruct w as [clk nc rnd nr flt nf [d rev evs]].
  enough (wp (Publish NewBus t p) (λ _ w', srv_db (w_state w') = d ∧ srv_revoked (w_state w') = rev ∧ w_fault w' = flt)
    (mkWorld clk nc rnd nr flt nf (mkSrv d rev evs))) as H by exact H.
  by apply wp_Publish_plain.
Qed.

(** ** Delivery *)

Definition computeHMAC (body secretHash : string) : string :=
  Sha.hex (Sha.hmac Sha.Sum256 (bytes_of secretHash) (bytes_of body)).

Definition extractEventID (body : string) : string :=
  match parse (bytes_of body) with
  | Some (JObj l) => match field "id" l with Some (JStr s) => s | _ => "" end
  | _ => ""
  end.

(** What one delivery does, in order: pauses (nanoseconds), posts with their
    signature and event id headers, and the call of the delivery hook. *)
Inductive Action :=
| Sleep (d : Z)
| Post (url sig event_id body : string)
| Hook (success : bool).

Section Deliver.
(** Whether [http.NewRequest] accepts the URL, the status of the n-th post (nothing on
    a transport error), and whether the bus has a delivery hook. *)
Context (url_ok : string → bool) (answer : nat → option Z) (hooked : bool).

Definition is_2xx (st : Z) : bool := (200 <=? st)%Z && (st <? 300)%Z.

Fixpoint deliver_loop (n attempt : nat) (backoff : Z) (sub : WebhookSubscription) (body sig : string)
    : list Action :=
  match n with
  | O => if hooked then [Hook false] else []
  | S n' =>
      (if Nat.ltb 0 attempt then [Sleep backoff] else []) ++
      let backoff' := if Nat.ltb 0 attempt then (backoff * 2)%Z else backoff in
      if negb (url_ok (wh_URL sub)) then []
      else Post (wh_URL sub) ("sha256=" +s sig) (extractEventID body) body ::
        match answer attempt with
        | None => deliver_loop n' (S attempt) backoff' sub body sig
        | Some st =>
            if is_2xx st then (if hooked then [Hook true] else [])
            else deliver_loop n' (S attempt) backoff' sub body sig
        end
  end.
Definition deliver (sub : WebhookSubscription) (body : string) : list Action :=
  deliver_loop 3 0 (2 * second) sub body (computeHMAC body (wh_SecretHash sub)).
End Deliver.

(** A post that ends the delivery: answered with a 2xx status. *)
Definition accepted (a : option Z) : bool := match a with Some st => is_2xx st | None => false end.
(** Attempt [i]: before every post but the first, a pause of 2, then 4 seconds. *)
Definition attempt_acts (post : Action) (i : nat) : list Action :=
  (if Nat.eqb i 0 then [] else [Sleep (2 ^ Z.of_nat i * second)]) ++ [post].

(** C35: Everything a delivery does, in order.  Nothing, when the URL does not parse.
    Otherwise one to three posts of the signed body, the second after a pause of 2
    seconds and the third after one of 4; every post but the last was not answered
    with a 2xx status, and fewer than three were made only if the last was; then, if
    a hook is set, exactly one call of it, which says whether the last post was. *)
Theorem deliver_outcome url_ok answer hooked sub body :
  let acts := deliver url_ok answer hooked sub body in
  let post := Post (wh_URL sub) ("sha256=" +s computeHMAC body (wh_SecretHash sub)) (extractEventID body) body in
  if url_ok (wh_URL sub) then
    ∃ k, 0 < k ≤ 3 ∧
      acts = mjoin (attempt_acts post <$> seq 0 k) ++ (if hooked then [Hook (accepted (answer (k - 1)))] else []) ∧
      (∀ i, i < k - 1 → accepted (answer i) = false) ∧ (k < 3 → accepted (answer (k - 1)) = true)
  else acts = [].
Proof.
  unfold deliver. set (sig := computeHMAC _ _). destruct (url_ok (wh_URL sub)) eqn:Hu; [|by simpl; rewrite Hu].
  assert (∀ n attempt backoff, deliver_loop url_ok answer hooked (S n) attempt backoff sub body sig =
    (if Nat.ltb 0 attempt then [Sleep backoff] else []) ++
    Post (wh_URL sub) ("sha256=" +s sig) (extractEventID body) body ::
    if accepted (answer attempt) then (if hooked then [Hook true] else [])
    else deliver_loop url_ok answer hooked n (S attempt)
           (if Nat.ltb 0 attempt then (backoff * 2)%Z else backoff) sub body sig) as Hstep.
  { intros n attempt backoff. simpl. rewrite Hu. unfold accepted. cbn [negb].
    destruct (answer attempt) as [st|]; [|done]. by destruct (is_2xx st). }
  rewrite !Hstep. clear Hstep.
  destruct (accepted (answer 0)) eqn:E0; [|destruct (accepted (answer 1)) eqn:E1; [|destruct (accepted (answer 2)) eqn:E2]].
  - exists 1. cbn [Nat.sub]. rewrite E0. split_and!; [lia..|done|lia|done].
  - exists 2. cbn [Nat.sub]. rewrite E1. split_and!; [lia..|done| |done]. intros i Hi. by replace i with 0 by lia.
  - exists 3. cbn [Nat.sub]. rewrite E2. split_and!; [lia..|done| |lia]. intros [|[|i]] Hi; [done..|lia].
  - exists 3. cbn [Nat.sub]. rewrite E2. split_and!; [lia..|done| |lia]. intros [|[|i]] Hi; [done..|lia].
Qed.

End Events.
