(* ===== verification/AuditLog.v ===== *)
(** * The audit log (internal/auditlog/auditlog.go, api/auditlog.go)

    The logger is a subscriber of the event bus: it reads the head of the log
    and appends an entry whose hash covers the head's.  Modelled here with the
    two endpoints that publish the log.  The theorems: published events are
    recorded in order in an unbroken chain, two logs with the same head hash
    have the same contents unless SHA-256 collides on them, and what is left of
    this when handlers run concurrently (reading the head and appending are two
    statements). *)

From S2P Require Import Prelude GoStd World Sha Json JsonValue Http StoreTypes Store StoreAuth Logic StoreInv Events.
Import JsonValue Http Types Store StoreAuth StoreInv Events.

Module AuditLog.

(** ** The logger *)

Definition payload_text (p : option json) : string :=
  match p with Some j => str_of (marshal j) | None => "{}" end.

(** The hash to continue from: that of the head, or none when the log is empty
    or the read fails. *)
Definition read_prev : M Srv string :=
  head ← GetAuditHead;
  mret (match head with Ok h => ae_Hash h | Err _ => "" end).
(** A failed insertion is only logged. *)
Definition append_entry (event : Event) (prevHash : string) : M Srv unit :=
  _ ← AppendAuditEvent (ev_Type event) (payload_text (ev_Payload event)) prevHash;
  mret tt.
Definition handle (event : Event) : M Srv unit :=
  prevHash ← read_prev;
  append_entry event prevHash.

(** The bus [serve] starts: the logger subscribed. *)
Definition audit_bus : Bus := Subscribe handle NewBus.

(** ** The endpoints *)

Definition parsePagination (r : Request) (defaultLimit maxLimit : Z) : Z * Z :=
  let limit := match Atoi (Query r "limit") with
               | Some n => if (0 <? n)%Z then n else defaultLimit
               | None => defaultLimit
               end in
  let limit := if (maxLimit <? limit)%Z then maxLimit else limit in
  let offset := match Atoi (Query r "offset") with
                | Some n => if (0 <=? n)%Z then n else 0%Z
                | None => 0%Z
                end in
  (limit, offset).

Definition audit_event_json (e : AuditEvent) : json :=
  JObj [("seq", JInt (ae_Seq e)); ("timestamp", JStr (time_json (ae_Timestamp e)));
        ("event_type", JStr (ae_EventType e)); ("payload", JStr (ae_Payload e));
        ("hash", JStr (ae_Hash e)); ("prev_hash", JStr (ae_PrevHash e))].
(** A slice that was never appended to is nil and marshals to null. *)
Definition audit_events_json (l : list AuditEvent) : json :=
  match l with [] => JNull | _ => JArr (audit_event_json <$> l) end.

(** The body and the X-Total-Count header. *)
Definition handleListAuditLog (r : Request) : M Srv (Response + json * string) :=
  let '(limit, offset) := parsePagination r 100 500 in
  res ← ListAuditEvents limit offset;
  match res with
  | Err _ => mret (inl (HttpError StatusInternalServerError "internal error"))
  | Ok (events, total) => mret (inr (audit_events_json events, Itoa total))
  end.

Definition proof_body (fromSeq : Z) (head : AuditEvent) (events : list AuditEvent) : list (string * json) :=
  [("chain", audit_events_json events); ("from_seq", JInt fromSeq);
   ("head_hash", JStr (ae_Hash head)); ("head_seq", JInt (ae_Seq head))].

Definition handleAuditProof (r : Request) : M Srv Response :=
  match Atoi (PathValue r "seq") with
  | None => mret (HttpError StatusBadRequest "invalid seq")
  | Some fromSeq =>
      if (fromSeq <? 1)%Z then mret (HttpError StatusBadRequest "invalid seq")
      else
        head ← GetAuditHead;
        match head with
        | Err _ => mret (HttpError StatusNotFound "audit log empty")
        | Ok head =>
            let limit := (ae_Seq head - fromSeq + 1)%Z in
            if (limit <=? 0)%Z then mret (HttpError StatusNotFound "seq not found")
            else
              let limit := if (1000 <? limit)%Z then 1000%Z else limit in
              let offset := (fromSeq - 1)%Z in
              res ← ListAuditEvents limit offset;
              match res with
              | Err _ => mret (HttpError StatusInternalServerError "internal error")
              | Ok (events, _) => mret (JsonResp StatusOK (proof_body fromSeq head events))
              end
        end
  end.

(** ** The chain *)

(** The bytes an entry's hash covers. *)
Definition hash_input (e : AuditEvent) : list byte :=
  bytes_of (ae_PrevHash e) ++ audit_json (ae_EventType e) (ae_Payload e) (ae_PrevHash e).
Definition entry_ok (e : AuditEvent) : bool := ae_Hash e =s Sha.hex (Sha.Sum256 (hash_input e)).

(** What a third party checks of a segment: every entry's hash is that of its
    contents and it names the hash before it. *)
Fixpoint verify_chain (prev : string) (l : list AuditEvent) : bool :=
  match l with
  | [] => true
  | e :: l' => (ae_PrevHash e =s prev) && entry_ok e && verify_chain (ae_Hash e) l'
  end.
Definition head_hash (prev : string) (l : list AuditEvent) : string := default prev (ae_Hash <$> last l).
Definition linked (l : list AuditEvent) : Prop := verify_chain "" l = true.

Definition content (e : AuditEvent) : string * string := (ae_EventType e, ae_Payload e).

Lemma verify_chain_app prev l1 l2 :
  verify_chain prev (l1 ++ l2) = verify_chain prev l1 && verify_chain (head_hash prev l1) l2.
Proof.
  revert prev. induction l1 as [|e l1 IH]; intros prev; [done|]. simpl. rewrite IH.
  rewrite <-!andb_assoc. do 3 f_equal. unfold head_hash. rewrite last_cons. by destruct (last l1).
Qed.
Lemma verify_chain_snoc prev l e :
  verify_chain prev (l ++ [e]) = true ↔
  verify_chain prev l = true ∧ ae_PrevHash e = head_hash prev l ∧ entry_ok e = true.
Proof.
  rewrite verify_chain_app. simpl. rewrite !andb_true_iff, String.eqb_eq. naive_solver.
Qed.
Lemma head_hash_snoc prev l e : head_hash prev (l ++ [e]) = ae_Hash e.
Proof. unfold head_hash. by rewrite last_snoc. Qed.

Lemma new_entry_ok id ts t p prev : entry_ok (mkAuditEvent id ts t p (audit_hash t p prev) prev) = true.
Proof. apply String.eqb_refl. Qed.

(** ** What one event does to the log *)

#[local] Opaque audit_hash Sha.Sum256 Sha.hex.

(** The entry [handle] appends when the head it read has hash [prev]. *)
Definition entry_for (log : list AuditEvent) (ts : Z) (t p prev : string) : AuditEvent :=
  mkAuditEvent (next_seq log) ts t p (audit_hash t p prev) prev.

(** The log after an event, by the driver's answers to the read of the head and
    to the insertion. *)
Definition log_after (head_fault ins_fault : option string) (ts : Z) (t p : string)
    (log : list AuditEvent) : list AuditEvent :=
  match ins_fault with
  | Some _ => log
  | None => log ++ [entry_for log ts t p (match head_fault with Some _ => "" | None => head_hash "" log end)]
  end.

Lemma wp_handle e clk nc rnd nr flt nf d rev evs Q :
  (∀ nc', Q tt (mkWorld clk nc' rnd nr flt (2 + nf)
     (mkSrv (set_audit_log (log_after (flt nf) (flt (S nf)) (unix (clk nc) * second)
               (ev_Type e) (payload_text (ev_Payload e)) (audit_log d)) d) rev evs))) →
  wp (handle e) Q (mkWorld clk nc rnd nr flt nf (mkSrv d rev evs)).
Proof.
  intros HQ. unfold handle, read_prev, append_entry, GetAuditHead, AppendAuditEvent, current_timestamp.
  assert (set_audit_log (audit_log d) d = d) as Hid by by destruct d.
  apply wp_bind, wp_bind, wp_query; [intros msg Hf|intros Hf]; rewrite Hf in HQ.
  all: repeat (wp_step; try done).
  all: rewrite Hf0 in HQ; simpl in HQ; rewrite ?Hid in HQ.
  all: try (specialize (HQ (S nc)); done); try (specialize (HQ (S (S nc))); done).
  all: unfold head_hash in HQ; destruct (last (audit_log d)); simpl in *.
  all: try (specialize (HQ (S nc)); done); try (specialize (HQ (S (S nc))); done).
Qed.
(** One publication: at most one more entry, the rest of the database as it was. *)
Lemma publish_log t p w :
  let log := audit_log (srv_db (w_state w)) in
  let w' := snd (Publish audit_bus t p w) in
  w_fault w' = w_fault w ∧
  match p with
  | None => audit_log (srv_db (w_state w')) = log
  | Some j => ∃ hf inf ts, audit_log (srv_db (w_state w')) = log_after hf inf ts t (str_of (marshal j)) log ∧
                (no_faults w → hf = None ∧ inf = None)
  end.
Proof.
  destruct w as [clk nc rnd nr flt nf [d rev evs]]. intros log w'.
  enough (wp (Publish audit_bus t p) (λ _ w', w_fault w' = flt ∧ match p with
    | None => audit_log (srv_db (w_state w')) = log
    | Some j => ∃ hf inf ts, audit_log (srv_db (w_state w')) = log_after hf inf ts t (str_of (marshal j)) log ∧
                (no_faults (mkWorld clk nc rnd nr flt nf (mkSrv d rev evs)) → hf = None ∧ inf = None) end)
    (mkWorld clk nc rnd nr flt nf (mkSrv d rev evs))) as H by exact H.
  unfold Publish, randomEventID. do 5 wp_step.
  unfold event_json. cbn [ev_Payload ev_ID ev_Type ev_OccuredAt].
  destruct p as [j|]; cbn [mbind option_bind]; [|by apply wp_ret].
  unfold audit_bus, Subscribe, NewBus. cbn [bus_subscribers app notify].
  unfold ListWebhookSubscriptions, start_deliveries.
  repeat first [apply wp_handle; intros nc'|wp_step].
  all: split; [done|]; eexists _, _, _; split; [done|]; intros Hnf;
    split; [apply (Hnf nf)|apply (Hnf (S nf))].
Qed.

Lemma publish_db t p w :
  let w' := snd (Publish audit_bus t p w) in
  ∃ log, srv_db (w_state w') = set_audit_log log (srv_db (w_state w)).
Proof.
  destruct w as [clk nc rnd nr flt nf [d rev evs]]. intros w'.
  enough (wp (Publish audit_bus t p) (λ _ w', ∃ log, srv_db (w_state w') = set_audit_log log d)
    (mkWorld clk nc rnd nr flt nf (mkSrv d rev evs))) as H by exact H.
  unfold Publish, randomEventID. do 5 wp_step.
  unfold event_json. cbn [ev_Payload ev_ID ev_Type ev_OccuredAt].
  destruct p as [j|]; cbn [mbind option_bind]; [|apply wp_ret; exists (audit_log d); by destruct d].
  unfold audit_bus, Subscribe, NewBus. cbn [bus_subscribers app notify].
  unfold ListWebhookSubscriptions, start_deliveries.
  repeat first [apply wp_handle; intros nc'|wp_step]; by eexists.
Qed.

(** ** Events are recorded in order, in one chain *)

Fixpoint publish_all (evs : list (string * option json)) : M Srv unit :=
  match evs with
  | [] => mret tt
  | (t, p) :: evs' => _ ← Publish audit_bus t p; publish_all evs'
  end.
(** What is recorded of an event: nothing when its payload does not marshal. *)
Definition recorded (ev : string * option json) : option (string * string) :=
  p ← ev.2; Some (ev.1, str_of (marshal p)).

Lemma linked_snoc log ts t p :
  linked log → linked (log ++ [entry_for log ts t p (head_hash "" log)]).
Proof. intros Hl. apply verify_chain_snoc. by repeat split; [|apply new_entry_ok]. Qed.

Lemma publish_all_chain evs w :
  no_faults w →
  let log := audit_log (srv_db (w_state w)) in
  let log' := audit_log (srv_db (w_state (snd (publish_all evs w)))) in
  (linked log → linked log') ∧
  ∃ new, log' = log ++ new ∧ content <$> new = omap recorded evs.
Proof.
  revert w. induction evs as [|[t p] evs IH]; intros w Hw.
  { split; [done|]. exists []. by rewrite app_nil_r. }
  simpl. unfold mbind, M_bind. pose proof (publish_log t p w) as Hp. simpl in Hp.
  destruct (Publish audit_bus t p w) as [[] w1]. simpl in Hp. destruct Hp as [Hf Hp].
  assert (no_faults w1) as Hw1 by (intros n; rewrite Hf; apply Hw).
  specialize (IH w1 Hw1). destruct p as [j|]; simpl.
  - destruct Hp as (hf & inf & ts & E & Hn). destruct (Hn Hw) as [-> ->]. simpl in E.
    rewrite E in IH. destruct IH as [Hl' (new & Hnew & Hc)].
    split; [intros Hl; by apply Hl', linked_snoc|].
    eexists (_ :: new). split; [by rewrite Hnew, <-(assoc_L (++))|].
    rewrite fmap_cons, Hc. done.
  - rewrite Hp in IH. by apply IH.
Qed.

(** C23: starting from an unbroken chain, any sequence of publications against a
    working database leaves an unbroken chain, which extends the old log by one
    entry per event that marshals, with its type and payload, in the order of
    publication. *)
Theorem audit_chain_complete evs w :
  no_faults w →
  linked (audit_log (srv_db (w_state w))) →
  let log' := audit_log (srv_db (w_state (snd (publish_all evs w)))) in
  linked log' ∧
  ∃ new, log' = audit_log (srv_db (w_state w)) ++ new ∧ content <$> new = omap recorded evs.
Proof. intros Hw Hl. destruct (publish_all_chain evs w Hw) as [H1 H2]. by split; [apply H1|]. Qed.

Lemma linked_head_nonempty l e : linked (l ++ [e]) → head_hash "" (l ++ [e]) ≠ "".
Proof.
  intros Hl. rewrite head_hash_snoc. apply verify_chain_snoc in Hl as (_ & _ & He).
  apply String.eqb_eq in He. rewrite He. apply Sha.hex_digest_nonempty.
Qed.

(** A failed read of the head breaks the chain of a non-empty log: the next
    entry starts over from the empty hash. *)
Lemma head_fault_breaks log msg ts t p :
  linked log → log ≠ [] → ¬ linked (log_after (Some msg) None ts t p log).
Proof.
  intros Hl Hne Hl'. apply verify_chain_snoc in Hl' as (_ & Hp & _). simpl in Hp.
  destruct log as [|e log _] using rev_ind; [done|].
  by apply (linked_head_nonempty log e).
Qed.

(** ** Tamper evidence *)

Definition utf8_entry (e : AuditEvent) : Prop :=
  Json.valid_utf8 (ae_EventType e) ∧ Json.valid_utf8 (ae_Payload e).

(** SHA-256 gives the same digest on two different inputs that the logs hash. *)
Definition collision (l1 l2 : list AuditEvent) : Prop :=
  ∃ e1 e2, e1 ∈ l1 ∧ e2 ∈ l2 ∧ hash_input e1 ≠ hash_input e2 ∧
    Sha.Sum256 (hash_input e1) = Sha.Sum256 (hash_input e2).

Lemma collision_app l1 l2 x1 x2 : collision l1 l2 → collision (l1 ++ x1) (l2 ++ x2).
Proof. intros (e1 & e2 & H1 & H2 & H). exists e1, e2. set_solver. Qed.

(** A chain's head is empty or a digest in hexadecimal. *)
Lemma head_hash_plain l : linked l → Forall (λ c, c ≠ x7b) (bytes_of (head_hash "" l)).
Proof.
  destruct l as [|e l] using rev_ind; [constructor|]. intros Hl. rewrite head_hash_snoc.
  apply verify_chain_snoc in Hl as (_ & _ & He). apply String.eqb_eq in He. rewrite He.
  by apply Sha.hex_avoids.
Qed.

(** The text before the first opening brace determines where it ends. *)
Lemma split_at_brace p1 p2 r1 r2 :
  Forall (λ c, c ≠ x7b) p1 → Forall (λ c, c ≠ x7b) p2 →
  p1 ++ x7b :: r1 = p2 ++ x7b :: r2 → p1 = p2 ∧ r1 = r2.
Proof.
  intros H1. revert p2. induction H1 as [|c p1 Hc _ IH]; intros [|c' p2] H2 E.
  - by injection E as ->.
  - injection E as <- _. by apply Forall_cons in H2 as [? _].
  - by injection E as ->.
  - injection E as -> E. apply Forall_cons in H2 as [_ H2]. by destruct (IH p2 H2 E) as [-> ->].
Qed.

(** What is hashed determines the entry. *)
Lemma hash_input_inj e1 e2 :
  Forall (λ c, c ≠ x7b) (bytes_of (ae_PrevHash e1)) → Forall (λ c, c ≠ x7b) (bytes_of (ae_PrevHash e2)) →
  utf8_entry e1 → utf8_entry e2 →
  hash_input e1 = hash_input e2 → ae_PrevHash e1 = ae_PrevHash e2 ∧ content e1 = content e2.
Proof.
  intros Hp1 Hp2 [Ht1 Hl1] [Ht2 Hl2] E. unfold hash_input, audit_json in E.
  apply split_at_brace in E as [Hp E]; [|done..].
  apply (app_inv_head (Json.quote "event_type")), (app_inv_head [x3a]) in E.
  apply Json.quote_app_inj in E as [Et E]; [|done..].
  apply (app_inv_head [x2c]), (app_inv_head (Json.quote "payload")), (app_inv_head [x3a]) in E.
  apply Json.quote_app_inj in E as [El _]; [|done..].
  split; [by apply bytes_of_inj|]. unfold content. by f_equal.
Qed.

(** C24: tamper evidence.  Two unbroken chains (of UTF-8 entries) with the same
    head hash record the same events with the same hashes, unless SHA-256
    collides on two of the inputs they hash. *)
Theorem audit_tamper_evident l1 l2 :
  linked l1 → linked l2 → Forall utf8_entry l1 → Forall utf8_entry l2 →
  head_hash "" l1 = head_hash "" l2 →
  (content <$> l1 = content <$> l2 ∧ ae_Hash <$> l1 = ae_Hash <$> l2) ∨ collision l1 l2.
Proof.
  revert l2. induction l1 as [|e1 l1 IH] using rev_ind; intros l2 H1 H2 U1 U2 E.
  all: destruct l2 as [|e2 l2 _] using rev_ind; [|].
  - by left.
  - exfalso. by apply (linked_head_nonempty l2 e2).
  - exfalso. by apply (linked_head_nonempty l1 e1).
  - rewrite !head_hash_snoc in E.
    apply verify_chain_snoc in H1 as (H1 & P1 & K1). apply verify_chain_snoc in H2 as (H2 & P2 & K2).
    apply Forall_app in U1 as [U1 U1']. apply Forall_app in U2 as [U2 U2'].
    apply Forall_cons in U1' as [U1' _], U2' as [U2' _].
    pose proof K1 as K1'. pose proof K2 as K2'.
    apply String.eqb_eq in K1', K2'. rewrite K1', K2' in E. apply Sha.hex_inj in E.
    destruct (decide (hash_input e1 = hash_input e2)) as [Ei|Ei].
    2:{ right. exists e1, e2. set_solver. }
    apply hash_input_inj in Ei as [Ep Ec]; [|rewrite ?P1, ?P2; by apply head_hash_plain|rewrite ?P1, ?P2; by apply head_hash_plain|done..].
    destruct (IH l2) as [[IC IHs]|Hc]; [done..|congruence| |by right; apply collision_app].
    left. rewrite !fmap_app. split; f_equal; [done|by simpl; f_equal|done|].
    simpl. rewrite K1', K2'. by rewrite E.
Qed.

(** ** Concurrent handlers

    Requests run in goroutines of their own; reading the head and inserting the
    entry are separate statements, so steps of several handlers interleave. *)

Inductive pc :=
| Start (e : Event)
| Have (e : Event) (prevHash : string)
| Done.

Inductive step : World Srv * list pc → World Srv * list pc → Prop :=
| step_read w w' prev pcs i e :
    pcs !! i = Some (Start e) → read_prev w = (prev, w') →
    step (w, pcs) (w', <[i := Have e prev]> pcs)
| step_append w w' r pcs i e prev :
    pcs !! i = Some (Have e prev) → append_entry e prev w = (r, w') →
    step (w, pcs) (w', <[i := Done]> pcs).

Abbreviation log_of w := (audit_log (srv_db (w_state w))).

(** A handler that runs alone takes both steps. *)
Lemma handle_two_steps e w w' :
  handle e w = (tt, w') → rtc step (w, [Start e]) (w', [Done]).
Proof.
  unfold handle, mbind, M_bind. destruct (read_prev w) as [prev w1] eqn:E1. intros E2.
  eapply rtc_l; [by eapply (step_read w w1 prev [Start e] 0)|].
  eapply rtc_l; [by eapply (step_append w1 w' tt [Have e prev] 0)|]. constructor.
Qed.

(** [h] is empty or the hash of an entry of the log. *)
Definition known (log : list AuditEvent) (h : string) : Prop := h = "" ∨ ∃ e, e ∈ log ∧ ae_Hash e = h.
(** Every entry carries the hash of its contents and names an earlier entry. *)
Definition rooted (log : list AuditEvent) : Prop :=
  ∀ i e, log !! i = Some e → entry_ok e = true ∧ known (take i log) (ae_PrevHash e).
Definition pc_known (log : list AuditEvent) (p : pc) : Prop :=
  match p with Have _ h => known log h | _ => True end.

Lemma known_app log x h : known log h → known (log ++ x) h.
Proof. intros [->|(e & He & <-)]; [by left|right]. exists e. set_solver. Qed.
Lemma pc_known_app log x p : pc_known log p → pc_known (log ++ x) p.
Proof. destruct p; [done|apply known_app|done]. Qed.
Lemma rooted_snoc log e :
  rooted log → entry_ok e = true → known log (ae_PrevHash e) → rooted (log ++ [e]).
Proof.
  intros Hr Ho Hk i e' Hi. destruct (decide (i < length log)) as [Hlt|Hge].
  - rewrite lookup_app_l in Hi by done. rewrite take_app_le by lia. by apply Hr.
  - rewrite lookup_app_r in Hi by lia. apply list_lookup_singleton_Some in Hi as [Hi ->].
    replace i with (length log) by lia. by rewrite take_app_length.
Qed.

Lemma read_prev_known w prev w' :
  read_prev w = (prev, w') → log_of w' = log_of w ∧ known (log_of w) prev.
Proof.
  destruct w as [clk nc rnd nr flt nf [d rev evs]]. unfold read_prev, GetAuditHead. intros E. revert E.
  unfold mbind, M_bind, query, on_db, db_call. simpl. destruct (flt nf); simpl; intros [= <- <-]; simpl.
  { split; [done|by left]. }
  split; [done|]. destruct (last (audit_log d)) as [h|] eqn:E; simpl; [right|by left].
  exists h. split; [|done]. apply last_Some in E as [l ->]. set_solver.
Qed.
Lemma append_entry_log e prev w r w' :
  append_entry e prev w = (r, w') →
  log_of w' = log_of w ∨
  ∃ ts, log_of w' = log_of w ++ [entry_for (log_of w) ts (ev_Type e) (payload_text (ev_Payload e)) prev].
Proof.
  destruct w as [clk nc rnd nr flt nf [d rev evs]].
  unfold append_entry, AppendAuditEvent, current_timestamp, mbind, M_bind, on_db, db_call. simpl.
  destruct (flt nf); simpl; intros [= <- <-]; simpl; [by left|right]. by eexists.
Qed.

Definition rooted_state (s : World Srv * list pc) : Prop :=
  rooted (log_of s.1) ∧ Forall (pc_known (log_of s.1)) s.2.

Lemma step_rooted s s' : step s s' → rooted_state s → rooted_state s'.
Proof.
  intros [w w' prev pcs i e Hi Hread|w w' r pcs i e prev Hi Happ] [Hr Hp]; unfold rooted_state; simpl in *.
  - apply read_prev_known in Hread as [-> Hk]. split; [done|]. by apply Forall_insert.
  - assert (known (log_of w) prev) as Hk by (by apply (Forall_lookup_1 _ _ _ _ Hp) in Hi).
    apply append_entry_log in Happ as [->|[ts ->]]; [by split; [|apply Forall_insert]|].
    split; [by apply rooted_snoc; [|apply new_entry_ok|]|].
    apply Forall_insert; [|done]. eapply Forall_impl; [done|]. intros p. apply pc_known_app.
Qed.

(** under every interleaving of handlers and every driver error, each entry
    of the log carries the hash of its contents and names the empty hash or the
    hash of an entry before it. *)
Theorem concurrent_log_rooted s s' :
  rtc step s s' → rooted_state s → rooted_state s'.
Proof. induction 1 as [|s s1 s2 Hstep _ IH]; eauto using step_rooted. Qed.

(** Two handlers that read the head before either inserts. *)
Definition quiet_world : World Srv :=
  mkWorld (λ n, Z.of_nat n * second)%Z 0 (λ _, None) 0 (λ _, None) 0 init_srv.
Definition login_event (who : string) : Event :=
  mkEvent "evt_0" "session.created" "1970-01-01T00:00:00Z" (Some (JObj [("subject_did", JStr who)])).

(** without any error two concurrent handlers can fork the log: both
    entries name the same predecessor and the chain no longer verifies. *)
Theorem concurrent_handlers_fork :
  ∃ w' e1 e2,
    rtc step (quiet_world, [Start (login_event "did:key:a"); Start (login_event "did:key:b")]) (w', [Done; Done]) ∧
    log_of w' = [e1; e2] ∧ ae_PrevHash e1 = ae_PrevHash e2 ∧ ¬ linked (log_of w').
Proof.
  pose (r1 := read_prev quiet_world). pose (r2 := read_prev (snd r1)).
  pose (r3 := append_entry (login_event "did:key:a") (fst r1) (snd r2)).
  pose (r4 := append_entry (login_event "did:key:b") (fst r2) (snd r3)).
  eexists (snd r4), _, _. split; [|split; [reflexivity|split; [reflexivity|]]].
  - eapply rtc_l; [eapply (step_read _ _ _ _ 0); [reflexivity|exact (surjective_pairing r1)]|].
    eapply rtc_l; [eapply (step_read _ _ _ _ 1); [reflexivity|exact (surjective_pairing r2)]|].
    eapply rtc_l; [eapply (step_append _ _ _ _ 0); [reflexivity|exact (surjective_pairing r3)]|].
    eapply rtc_l; [eapply (step_append _ _ _ _ 1); [reflexivity|exact (surjective_pairing r4)]|].
    constructor.
  - unfold linked. apply not_true_iff_false. vm_compute. reflexivity.
Qed.

(** ** The published segment *)

Lemma verify_chain_segment i n log :
  linked log → verify_chain (head_hash "" (take i log)) (take n (drop i log)) = true.
Proof.
  unfold linked. rewrite <-(take_drop i log) at 1. rewrite verify_chain_app, andb_true_iff.
  intros [_ H]. rewrite <-(take_drop n (drop i log)), verify_chain_app, andb_true_iff in H. by destruct H.
Qed.
Lemma last_seq log h : seqs_count log → last log = Some h → ae_Seq h = Z.of_nat (length log).
Proof.
  intros Hs Hl. rewrite last_lookup in Hl. rewrite (Hs _ _ Hl). f_equal.
  apply lookup_lt_Some in Hl. lia.
Qed.

(** for a log that verifies, the proof endpoint answers with the entries
    from the requested number on, at most a thousand of them; the segment
    verifies from the hash before it, and reaches the head hash it announces
    when it is not cut short. *)
Theorem audit_proof_segment r w h from :
  no_faults w → seqs_count (log_of w) → linked (log_of w) → last (log_of w) = Some h →
  Atoi (PathValue r "seq") = Some from → (1 ≤ from ≤ ae_Seq h)%Z →
  let prefix := take (Z.to_nat (from - 1)) (log_of w) in
  ∃ seg, fst (handleAuditProof r w) = JsonResp StatusOK (proof_body from h seg) ∧
    seg = take 1000 (drop (length prefix) (log_of w)) ∧
    verify_chain (head_hash "" prefix) seg = true ∧
    ((ae_Seq h - from < 1000)%Z → head_hash (head_hash "" prefix) seg = ae_Hash h).
Proof.
  intros Hf Hs Hl Hh Ha Hr prefix. pose proof (last_seq _ _ Hs Hh) as Hseq.
  assert (length prefix = Z.to_nat (from - 1)) as Hp by (subst prefix; rewrite length_take; lia).
  rewrite Hp. eexists. split; [|split; [reflexivity|split]].
  - destruct w as [clk nc rnd nr flt nf [d rev evs]]. unfold no_faults in Hf. cbn in *.
    unfold handleAuditProof. rewrite Ha. destruct (Z.ltb_spec from 1); [lia|].
    unfold ListAuditEvents, GetAuditHead, mbind, M_bind, query, on_db, db_call. simpl. rewrite Hf, Hh. simpl.
    destruct (Z.leb_spec (ae_Seq h - from + 1) 0); [lia|]. simpl. rewrite !Hf. simpl.
    do 2 f_equal. unfold limit_offset.
    destruct (Z.ltb_spec 1000 (ae_Seq h - from + 1)); simpl; [done|].
    destruct (Z.ltb_spec (ae_Seq h - from + 1) 0); [lia|].
    rewrite !take_ge; [done|rewrite length_drop; lia|rewrite length_drop; lia].
  - by apply verify_chain_segment.
  - intros Hlt. rewrite take_ge by (rewrite length_drop; lia). unfold head_hash at 1.
    rewrite <-(take_drop (Z.to_nat (from - 1)) (log_of w)), last_app in Hh.
    destruct (last (drop _ _)) as [e|] eqn:E; [by injection Hh as ->|].
    apply last_None, (f_equal length) in E. rewrite length_drop in E. simpl in E. lia.
Qed.

(** ** Instances *)

Lemma seqs_count_check l :
  ae_Seq <$> l = (λ i, Z.of_nat (S i)) <$> seq 0 (length l) → seqs_count l.
Proof.
  intros H i e Hi. pose proof (f_equal (λ x, x !! i) H) as E. simpl in E.
  rewrite !list_lookup_fmap, Hi, lookup_seq_lt in E by (by apply lookup_lt_Some in Hi).
  by injection E.
Qed.

Definition sample_events : list (string * option json) :=
  [("identity.created", Some (JObj [("did", JStr "did:key:a")])); ("dropped", None);
   ("session.created", Some (JObj [("did", JStr "did:key:a")]))].
Definition sample_log : list AuditEvent := log_of (snd (publish_all sample_events quiet_world)).

Lemma audit_chain_complete_witness :
  linked sample_log ∧ ∃ new, sample_log = [] ++ new ∧ content <$> new = omap recorded sample_events.
Proof. apply (audit_chain_complete sample_events quiet_world); [intros n|]; reflexivity. Defined.

Definition utf8_entries (l : list AuditEvent) : bool :=
  let ok s := Json.valid_utf8_go (length (bytes_of s)) (bytes_of s) in
  forallb (λ e, ok (ae_EventType e) && ok (ae_Payload e)) l.
Lemma utf8_entries_ok l : utf8_entries l = true → Forall utf8_entry l.
Proof.
  unfold utf8_entries. rewrite forallb_elem_of, Forall_forall. intros H e He.
  by apply andb_true_iff, H.
Qed.

(** The same events recorded at other times. *)
Definition later_log : list AuditEvent :=
  (λ e, mkAuditEvent (ae_Seq e) (ae_Timestamp e + hour) (ae_EventType e) (ae_Payload e) (ae_Hash e)
          (ae_PrevHash e)) <$> sample_log.
Lemma audit_tamper_evident_witness :
  (content <$> sample_log = content <$> later_log ∧ ae_Hash <$> sample_log = ae_Hash <$> later_log)
  ∨ collision sample_log later_log.
Proof.
  apply (audit_tamper_evident sample_log later_log).
  - vm_compute. reflexivity.
  - vm_compute. reflexivity.
  - apply utf8_entries_ok. vm_compute. reflexivity.
  - apply utf8_entries_ok. vm_compute. reflexivity.
  - vm_compute. reflexivity.
Defined.

Lemma concurrent_log_rooted_witness :
  ∃ w', rooted_state (w', [Done]) ∧ length (log_of w') = 1%nat.
Proof.
  exists (snd (handle (login_event "did:key:a") quiet_world)). split; [|reflexivity].
  apply (concurrent_log_rooted (quiet_world, [Start (login_event "did:key:a")])).
  - apply handle_two_steps. by destruct (handle _ _) as [[] w'].
  - by repeat constructor.
Defined.

Lemma audit_proof_segment_witness :
  let w := snd (publish_all sample_events quiet_world) in
  ∃ h seg, fst (handleAuditProof (mkRequest [] None [] None [("seq", "2")] "" None) w) =
      JsonResp StatusOK (proof_body 2 h seg) ∧
    seg = take 1000 (drop 1 (log_of w)).
Proof.
  intros w. destruct (last (log_of w)) as [h|] eqn:E; [|vm_compute in E; discriminate E].
  exists h. destruct (audit_proof_segment (mkRequest [] None [] None [("seq", "2")] "" None) w h 2)
    as (seg & Hs & He & _).
  - by intros n.
  - apply seqs_count_check. vm_compute. reflexivity.
  - vm_compute. reflexivity.
  - exact E.
  - reflexivity.
  - assert (ae_Seq h = 2%Z) as ->; [|clear; lia].
    assert (ae_Seq <$> last (log_of w) = Some 2%Z) as Hs by (vm_compute; reflexivity). rewrite E in Hs. exact (Some_inj _ _ Hs).
  - exists seg. exact (conj Hs He).
Defined.

End AuditLog.
