(* ===== verification/Jwt.v ===== *)
(** * JSON web tokens (oidc/jwt.go)

    Tokens are the strings the code builds: two base64url segments, a dot
    between them, and the signature of that text as the third segment. *)

From S2P Require Import Prelude GoStd World Json JsonValue Base64 Sha.
Import JsonValue.

(** crypto/ed25519. *)
Class Ed25519 := {
  ed_public : list byte → list byte;
  ed_sign : list byte → list byte → list byte;
  ed_verify : list byte → list byte → list byte → bool }.
(** The documented law: a signature verifies under the signer's public key. *)
Class Ed25519Ok `{Ed25519} : Prop := {
  ed_verify_sign k m : length k = 64 → ed_verify (ed_public k) m (ed_sign k m) = true }.

Module Jwt.

Record Claims := mkClaims {
  cl_Issuer : string; cl_Subject : string; cl_Audience : string; cl_IssuedAt : Z;
  cl_ExpiresAt : Z; cl_Nonce : string; cl_DID : string; cl_AMR : list string; cl_ACR : string;
  cl_TokenType : string; cl_Scope : string }.

(** The struct tags: fields in order, the omitempty ones only when set. *)
Definition opt_field (k v : string) : list (string * json) :=
  if v =s "" then [] else [(k, JStr v)].
Definition claims_payload (c : Claims) : list (string * json) :=
  [("iss", JStr (cl_Issuer c)); ("sub", JStr (cl_Subject c)); ("aud", JStr (cl_Audience c));
   ("iat", JInt (cl_IssuedAt c)); ("exp", JInt (cl_ExpiresAt c))] ++
  opt_field "nonce" (cl_Nonce c) ++ [("did", JStr (cl_DID c))] ++
  match cl_AMR c with [] => [] | l => [("amr", JArr (JStr <$> l))] end ++
  opt_field "acr" (cl_ACR c) ++ opt_field "token_type" (cl_TokenType c) ++
  opt_field "scope" (cl_Scope c).

(** Decoding the members of an object into a field of a struct: names match up to
    (ASCII) case, null leaves what the field holds, another type is an error, and of
    several members of one name the later are decoded over the earlier. *)
Definition decode_into {A} (dec : A → json → option A) (zero : A) (k : string) (l : list (string * json)) : option A :=
  foldl (λ acc kv, a ← acc; if ToLower kv.1 =s k then dec a kv.2 else Some a) (Some zero) l.
Definition str_into (old : string) (v : json) : option string :=
  match v with JStr s => Some s | JNull => Some old | _ => None end.
Definition int_into (old : Z) (v : json) : option Z :=
  match v with JInt z => Some z | JNull => Some old | _ => None end.
Definition str_elem : json → option string := str_into "".
Definition strs_into (_ : list string) (v : json) : option (list string) :=
  match v with JArr vs => mapM str_elem vs | JNull => Some [] | _ => None end.
Definition str_field : string → list (string * json) → option string := decode_into str_into "".
Definition int_field : string → list (string * json) → option Z := decode_into int_into 0%Z.
Definition strs_field : string → list (string * json) → option (list string) := decode_into strs_into [].
Definition decode_claims (l : list (string * json)) : option Claims :=
  iss ← str_field "iss" l; sub ← str_field "sub" l; aud ← str_field "aud" l;
  iat ← int_field "iat" l; exp ← int_field "exp" l; nonce ← str_field "nonce" l;
  did ← str_field "did" l; amr ← strs_field "amr" l; acr ← str_field "acr" l;
  tt ← str_field "token_type" l; scope ← str_field "scope" l;
  Some (mkClaims iss sub aud iat exp nonce did amr acr tt scope).
Definition zero_claims : Claims := mkClaims "" "" "" 0 0 "" "" [] "" "" "".
Definition unmarshal_claims (payload : list byte) : result Claims :=
  match parse payload with
  | Some (JObj l) => of_option (ErrMsg "json: cannot unmarshal into Claims") (decode_claims l)
  | Some JNull => Ok zero_claims
  | Some _ => Err (ErrMsg "json: cannot unmarshal into Claims")
  | None => Err (ErrMsg "invalid character")
  end.

Definition header_json (keyID : string) : list byte :=
  marshal (JObj [("alg", JStr "EdDSA"); ("kid", JStr keyID); ("typ", JStr "JWT")]).

Section Tokens.
Context `{Ed25519}.

Definition signJWT (payload : list (string * json)) (key : list byte) (keyID : string) : string :=
  let header := Base64.EncodeToString (header_json keyID) in
  let payloadB64 := Base64.EncodeToString (marshal (JObj payload)) in
  let sigInput := header +s "." +s payloadB64 in
  let sig := ed_sign key (bytes_of sigInput) in
  sigInput +s "." +s Base64.EncodeToString sig.

Definition id_claims (issuer subjectDID audience nonce : string) (ttl : Z) (amr : list string) (now : Z) :=
  mkClaims issuer subjectDID audience (unix now) (unix (now + ttl)) nonce subjectDID amr "" "id" "".
Definition access_claims (issuer subjectDID audience : string) (ttl now : Z) :=
  mkClaims issuer subjectDID audience (unix now) (unix (now + ttl)) "" subjectDID [] "" "access" "".

Context {St : Type}.
Definition IssueIDToken (issuer subjectDID audience nonce : string) (ttl : Z) (key : list byte)
    (amr : list string) (keyID : string) : M St string :=
  now ← time_now;
  mret (signJWT (claims_payload (id_claims issuer subjectDID audience nonce ttl amr now)) key keyID).
Definition IssueAccessToken (issuer subjectDID audience : string) (ttl : Z) (key : list byte)
    (keyID : string) : M St string :=
  now ← time_now;
  mret (signJWT (claims_payload (access_claims issuer subjectDID audience ttl now)) key keyID).

Definition ParseUnverified (token : string) : result Claims :=
  match SplitN token x2e 3 with
  | [_; p1; _] =>
      match Base64.DecodeString p1 with
      | Some payload => wrap_err "jwt: unmarshal" (unmarshal_claims payload)
      | None => Err (ErrMsg "jwt: decode payload")
      end
  | _ => Err (ErrMsg "jwt: malformed token")
  end.

(** The checks before the clock is read. *)
Definition verify_signature (token : string) (pub : list byte) : result Claims :=
  match SplitN token x2e 3 with
  | [p0; p1; p2] =>
      match Base64.DecodeString p2 with
      | None => Err (ErrMsg "jwt: decode signature")
      | Some sig =>
          if negb (ed_verify pub (bytes_of (p0 +s "." +s p1)) sig) then
            Err (ErrMsg "jwt: invalid signature")
          else ParseUnverified token
      end
  | _ => Err (ErrMsg "jwt: malformed token")
  end.
Definition Verify (token : string) (pub : list byte) : M St (result Claims) :=
  match verify_signature token pub with
  | Err e => mret (Err e)
  | Ok claims =>
      now ← time_now;
      mret (if (cl_ExpiresAt claims <? unix now)%Z then Err (ErrMsg "jwt: token expired")
            else Ok claims)
  end.

(** The base claims as a map, the extras merged over them. *)
Definition base_payload (issuer subject clientID : string) (ttl now : Z) : list (string * json) :=
  of_pairs [("iss", JStr issuer); ("sub", JStr subject); ("aud", JStr clientID);
            ("iat", JInt (unix now)); ("exp", JInt (unix (now + ttl))); ("did", JStr subject);
            ("token_type", JStr "access")].
Definition issueJWTWithExtra (issuer subject clientID : string) (ttl : Z) (key : list byte)
    (keyID : string) (extra : list (string * json)) : M St string :=
  now ← time_now;
  mret (signJWT (foldl (λ acc kv, aset kv.1 kv.2 acc) (base_payload issuer subject clientID ttl now) extra)
          key keyID).

Definition ParseHeader (token : string) : result (list (string * string)) :=
  match SplitN token x2e 3 with
  | [p0; _; _] =>
      match Base64.DecodeString p0 with
      | None => Err (ErrMsg "jwt: decode header")
      | Some raw =>
          match parse raw with
          | Some (JObj l) =>
              of_option (ErrMsg "jwt: unmarshal header") (mapM (λ kv, pair kv.1 <$> str_elem kv.2) l)
          | Some JNull => Ok []
          | _ => Err (ErrMsg "jwt: unmarshal header")
          end
      end
  | _ => Err (ErrMsg "jwt: malformed token")
  end.

(** ** Reading back what was signed *)

(** UTF-8 strings and 64-bit times that are not negative. *)
Definition claims_ok (c : Claims) : Prop :=
  Forall Json.valid_utf8 [cl_Issuer c; cl_Subject c; cl_Audience c; cl_Nonce c; cl_DID c;
                          cl_ACR c; cl_TokenType c; cl_Scope c] ∧
  Forall Json.valid_utf8 (cl_AMR c) ∧
  (0 ≤ cl_IssuedAt c < 2 ^ 63)%Z ∧ (0 ≤ cl_ExpiresAt c < 2 ^ 63)%Z.

Lemma mapM_str_elem l : mapM str_elem (JStr <$> l) = Some l.
Proof. apply mapM_Some_2. induction l; by constructor. Qed.

Lemma decode_claims_payload c : decode_claims (claims_payload c) = Some c.
Proof.
  destruct c as [iss sub aud iat exp nonce did amr acr tt scope].
  unfold claims_payload, opt_field. cbn [cl_Issuer cl_Subject cl_Audience cl_IssuedAt cl_ExpiresAt
    cl_Nonce cl_DID cl_AMR cl_ACR cl_TokenType cl_Scope].
  destruct (String.eqb_spec nonce "") as [->|]; destruct (String.eqb_spec acr "") as [->|];
    destruct (String.eqb_spec tt "") as [->|]; destruct (String.eqb_spec scope "") as [->|];
    destruct amr as [|a amr]; try reflexivity;
    pose proof (mapM_str_elem (a :: amr)) as Hvs; revert Hvs;
    generalize (JStr <$> (a :: amr)); intros vs Hvs;
    unfold decode_claims;
    match goal with |- context [strs_field "amr" ?l] =>
      assert (strs_field "amr" l = Some (a :: amr)) as -> by (revert Hvs; vm_compute; by intros ->)
    end; reflexivity.
Qed.

Lemma wf_opt_field k v :
  Json.valid_utf8 k → Json.valid_utf8 v →
  Forall (λ kv, Json.valid_utf8 kv.1 ∧ wf kv.2) (opt_field k v).
Proof. intros. unfold opt_field. destruct (v =s ""); by repeat constructor. Qed.

Lemma wf_strs l : Forall Json.valid_utf8 l → Forall wf (JStr <$> l).
Proof. induction 1; by constructor. Qed.

Lemma wf_claims_payload c : claims_ok c → wf (JObj (claims_payload c)).
Proof.
  intros (Hs & Hamr & Hiat & Hexp). apply wf_JObj. unfold claims_payload.
  rewrite !Forall_app. decompose_Forall_hyps. split_and!; try by apply wf_opt_field.
  - repeat (apply Forall_cons; split; [split; [reflexivity|done]|]). done.
  - repeat (apply Forall_cons; split; [split; [reflexivity|done]|]). done.
  - destruct (cl_AMR c) as [|a l]; [done|]. apply Forall_cons; split; [|done].
    split; [reflexivity|]. by apply wf_JArr, (wf_strs (a :: l)).
Qed.

Lemma unmarshal_marshal_claims c :
  claims_ok c → unmarshal_claims (marshal (JObj (claims_payload c))) = Ok c.
Proof.
  intros Hc. unfold unmarshal_claims.
  rewrite parse_marshal; [by rewrite decode_claims_payload|by apply wf_claims_payload].
Qed.

(** Neither base64 segment contains the separator. *)
Lemma encode_no_dot bs : Forall (λ c, beqb c x2e = false) (Base64.encode bs).
Proof.
  rewrite Base64.encode_sextets. apply Forall_fmap.
  eapply Forall_impl; [apply Base64.sextets_lt|]. intros n Hn. simpl.
  destruct (beqb_spec (Base64.b64char n) x2e) as [E|]; [|done].
  pose proof (proj1 (Base64.b64val_char n Hn)) as Hv. rewrite E in Hv. done.
Qed.

Lemma base64_utf8 bs : Json.valid_utf8 (Base64.EncodeToString bs).
Proof.
  apply Json.ascii_utf8. rewrite Base64.encode_sextets. apply Forall_fmap.
  eapply Forall_impl; [apply Base64.sextets_lt|]. intros n Hn. simpl.
  pose proof (proj1 (Base64.b64val_char n Hn)) as Hv.
  assert (∀ c, match Base64.b64val c with Some _ => (bval c <? 128)%N | None => true end = true) as Hall.
  { apply forall_bytes. vm_compute. reflexivity. }
  specialize (Hall (Base64.b64char n)). rewrite Hv in Hall. by apply N.ltb_lt.
Qed.

Lemma SplitN_segments a b c :
  SplitN (Base64.EncodeToString a +s "." +s Base64.EncodeToString b +s "." +s Base64.EncodeToString c) x2e 3
  = [Base64.EncodeToString a; Base64.EncodeToString b; Base64.EncodeToString c].
Proof.
  unfold SplitN, Base64.EncodeToString. rewrite !bytes_of_append, !bytes_of_str_of.
  change (bytes_of ".") with [x2e]. cbn [app].
  rewrite !bsplit_n_plain, bsplit_n_last by apply encode_no_dot. done.
Qed.

Lemma signJWT_segments payload key keyID :
  signJWT payload key keyID =
    let h := header_json keyID in let p := marshal (JObj payload) in
    let msg := Base64.EncodeToString h +s "." +s Base64.EncodeToString p in
    Base64.EncodeToString h +s "." +s Base64.EncodeToString p +s "." +s
      Base64.EncodeToString (ed_sign key (bytes_of msg)).
Proof.
  unfold signJWT. cbv zeta. apply bytes_of_inj. by rewrite !bytes_of_append, <-!app_assoc.
Qed.

Lemma ParseUnverified_signJWT c key keyID :
  claims_ok c → ParseUnverified (signJWT (claims_payload c) key keyID) = Ok c.
Proof.
  intros Hc. unfold ParseUnverified. rewrite signJWT_segments. cbv zeta.
  rewrite SplitN_segments, Base64.DecodeString_EncodeToString, unmarshal_marshal_claims by done. done.
Qed.

Lemma verify_signature_signJWT `{!Ed25519Ok} c key keyID :
  claims_ok c → length key = 64 →
  verify_signature (signJWT (claims_payload c) key keyID) (ed_public key) = Ok c.
Proof.
  intros Hc Hk. unfold verify_signature. rewrite ParseUnverified_signJWT by done.
  rewrite signJWT_segments. cbv zeta.
  by rewrite SplitN_segments, Base64.DecodeString_EncodeToString, ed_verify_sign.
Qed.

(** Tokens round-trip: a token the provider signs is accepted under its public
    key with exactly the claims it was signed with, up to and including the second
    of its expiry, and is refused as expired from the next second on. *)
Theorem Verify_signed `{!Ed25519Ok} c key keyID (w : World St) :
  claims_ok c → length key = 64 →
  fst (Verify (signJWT (claims_payload c) key keyID) (ed_public key) w) =
    if (cl_ExpiresAt c <? unix (w_clock w (w_nclock w)))%Z then Err (ErrMsg "jwt: token expired") else Ok c.
Proof. intros Hc Hk. unfold Verify. by rewrite verify_signature_signJWT. Qed.

(** Nothing unsigned is accepted: when a token verifies, it is three
    dot-separated segments, the third decodes to a signature of the first two that
    the public key accepts, the claims are the decoded second segment, and the
    clock has not passed the second of their expiry. *)
Theorem Verify_accepts_only_signed token pub (w w' : World St) c :
  Verify token pub w = (Ok c, w') →
  ∃ p0 p1 p2 sig payload, SplitN token x2e 3 = [p0; p1; p2] ∧
    Base64.DecodeString p2 = Some sig ∧ ed_verify pub (bytes_of (p0 +s "." +s p1)) sig = true ∧
    Base64.DecodeString p1 = Some payload ∧ unmarshal_claims payload = Ok c ∧
    (unix (w_clock w (w_nclock w)) ≤ cl_ExpiresAt c)%Z ∧ w_state w' = w_state w.
Proof.
  unfold Verify, verify_signature. intros Hrun.
  destruct (SplitN token x2e 3) as [|p0 [|p1 [|p2 [|]]]] eqn:Es; try done.
  destruct (Base64.DecodeString p2) as [sig|] eqn:Ed; [|done].
  destruct (ed_verify pub _ sig) eqn:Ev; [|done]. simpl in Hrun.
  unfold ParseUnverified in Hrun. rewrite Es in Hrun.
  destruct (Base64.DecodeString p1) as [payload|] eqn:Ep; [|done].
  destruct (unmarshal_claims payload) as [c'|] eqn:Eu; [|done]. simpl in Hrun.
  unfold mbind, M_bind, time_now, mret, M_ret in Hrun. simplify_eq.
  destruct (Z.ltb_spec (cl_ExpiresAt c') (unix (w_clock w (w_nclock w)))); [done|]. simplify_eq.
  do 5 eexists. done.
Qed.
End Tokens.

(** A concrete scheme that satisfies the law: the signature is a keyed digest. *)
#[local] Instance digest_scheme : Ed25519 := {|
  ed_public k := k;
  ed_sign k m := Sha.Sum256 (k ++ m);
  ed_verify k m s := bool_decide (s = Sha.Sum256 (k ++ m)) |}.
#[local] Instance digest_scheme_ok : Ed25519Ok.
Proof. split. intros k m _. by apply bool_decide_eq_true. Qed.

Definition sample_key : list byte := replicate 64 x2a.
Definition sample_claims : Claims :=
  access_claims "https://id.example" "did:key:alice" "app" hour (1000 * second).
Definition sample_world : World unit :=
  mkWorld (λ n, (1000 + Z.of_nat n) * second)%Z 0 (λ n, Some (λ i, byte_of_N (N.of_nat (i + 32 * n)))) 0
    (λ _, None) 0 tt.

Lemma sample_claims_ok : claims_ok sample_claims.
Proof. split_and!; [repeat constructor|constructor|vm_compute; done..]. Qed.
Lemma Verify_signed_witness :
  fst (Verify (signJWT (claims_payload sample_claims) sample_key "k1") (ed_public sample_key) sample_world)
    = Ok sample_claims.
Proof.
  rewrite (Verify_signed sample_claims sample_key "k1" sample_world); [reflexivity|apply sample_claims_ok|reflexivity].
Defined.

Lemma sample_run :
  Verify (signJWT (claims_payload sample_claims) sample_key "k1") (ed_public sample_key) sample_world =
  (Ok sample_claims, mkWorld (w_clock sample_world) 1 (w_rand sample_world) 0 (w_fault sample_world) 0 tt).
Proof. unfold Verify. by rewrite (verify_signature_signJWT _ _ _ sample_claims_ok). Qed.

Lemma Verify_accepts_only_signed_witness : ∃ p0 p1 p2,
  SplitN (signJWT (claims_payload sample_claims) sample_key "k1") x2e 3 = [p0; p1; p2].
Proof.
  destruct (Verify_accepts_only_signed _ _ _ _ _ sample_run) as (p0 & p1 & p2 & _ & _ & E & _).
  by exists p0, p1, p2.
Defined.
End Jwt.
