(* ===== verification/GoTime.v ===== *)
(** * package time: reading instants and durations

    [Time.UnmarshalJSON] of the strict RFC 3339 form, and the proof that it reads
    back what [Time.MarshalJSON] wrote.  An offset shifts the instant and is not kept:
    instants are UTC throughout.  [time.ParseDuration], with the 64-bit arithmetic it
    checks and the binary64 arithmetic of its fractions. *)

From Stdlib Require SpecFloat.
From S2P Require Import Prelude GoStd World Events Json JsonValue Jwt.
Import JsonValue.

Module GoTime.

(** Days since 1970-01-01 of a date of the Gregorian calendar. *)
Definition days_of_civil (y m d : Z) : Z :=
  (let y' := if m <=? 2 then y - 1 else y in
  let era := y' / 400 in
  let yoe := y' mod 400 in
  let doy := (153 * (if 2 <? m then m - 3 else m + 9) + 2) / 5 + d - 1 in
  let doe := yoe * 365 + yoe / 4 - yoe / 100 + doy in
  era * 146097 + doe - 719468)%Z.
Definition is_leap (y : Z) : bool :=
  ((y mod 4 =? 0) && (negb (y mod 100 =? 0) || (y mod 400 =? 0)))%Z.
Definition days_in (m y : Z) : Z :=
  if (m =? 2)%Z then (if is_leap y then 29 else 28)%Z
  else if ((m =? 4) || (m =? 6) || (m =? 9) || (m =? 11))%Z then 30%Z else 31%Z.

(** [parseUint(s[i:j], min, max)] of [n] characters. *)
Definition take_uint (n : nat) (lo hi : Z) (s : list byte) : option (Z * list byte) :=
  if (length s <? n)%nat then None else
  match digits_val 0 (take n s) with
  | Some v => if ((lo <=? v) && (v <=? hi))%Z then Some (v, drop n s) else None
  | None => None
  end.
Definition take_byte (c : byte) (s : list byte) : option (list byte) :=
  match s with c' :: s' => if beqb c' c then Some s' else None | [] => None end.

Fixpoint span_digits (s : list byte) : list byte * list byte :=
  match s with
  | c :: s' => match digit_val c with
               | Some _ => let '(ds, rest) := span_digits s' in (c :: ds, rest)
               | None => ([], s)
               end
  | [] => ([], [])
  end.
(** A fraction of at least one digit, of which nine count. *)
Definition fraction (s : list byte) : Z * list byte :=
  match s with
  | c :: s' =>
      if beqb c x2e then
        match span_digits s' with
        | ([], _) => (0%Z, s)
        | (ds, rest) =>
            let ds := take 9 ds in
            (default 0%Z (digits_val 0 ds) * 10 ^ Z.of_nat (9 - length ds), rest)%Z
        end
      else (0%Z, s)
  | [] => (0%Z, [])
  end.
(** The zone: Z, or an offset in minutes. *)
Definition zone (s : list byte) : option Z :=
  match s with
  | [c] => if beqb c x5a then Some 0%Z else None
  | c :: s1 =>
      '(hr, s2) ← take_uint 2 0 23 s1; s3 ← take_byte x3a s2; '(mi, s4) ← take_uint 2 0 59 s3;
      match s4 with
      | [] => if beqb c x2b then Some (60 * hr + mi)%Z
              else if beqb c x2d then Some (- (60 * hr + mi))%Z else None
      | _ => None
      end
  | [] => None
  end.
Definition parse_time (t : string) : option Z :=
  '(y, s) ← take_uint 4 0 9999 (bytes_of t); s ← take_byte x2d s;
  '(mo, s) ← take_uint 2 1 12 s; s ← take_byte x2d s;
  '(d, s) ← take_uint 2 1 (days_in mo y) s; s ← take_byte x54 s;
  '(h, s) ← take_uint 2 0 23 s; s ← take_byte x3a s;
  '(mi, s) ← take_uint 2 0 59 s; s ← take_byte x3a s;
  '(sec, s) ← take_uint 2 0 59 s;
  let '(nsec, s) := fraction s in
  offset ← zone s;
  Some (((days_of_civil y mo d * 86400 + h * 3600 + mi * 60 + sec) - offset * 60) * second + nsec)%Z.

(** The zero [time.Time]: 0001-01-01T00:00:00Z. *)
Definition zero_time : Z := (-62135596800 * second)%Z.

(** A field of type [time.Time] or [*time.Time]. *)
Definition time_field (k : string) (l : list (string * json)) : option Z :=
  Jwt.decode_into (λ old v, match v with JStr s => parse_time s | JNull => Some old | _ => None end) zero_time k l.
Definition time_ptr_field (k : string) (l : list (string * json)) : option (option Z) :=
  Jwt.decode_into (λ _ v, match v with JStr s => Some <$> parse_time s | JNull => Some None | _ => None end) None k l.
Definition bool_field (k : string) (l : list (string * json)) : option bool :=
  Jwt.decode_into (λ old v, match v with JBool b => Some b | JNull => Some old | _ => None end) false k l.

(** ** Struct, map and slice fields *)

(** A field of a struct type: the members of all its objects, in order; decoding their
    concatenation decodes the later over the earlier. *)
Definition struct_field (k : string) (l : list (string * json)) : option (list (string * json)) :=
  Jwt.decode_into (λ old v, match v with JObj m => Some (old ++ m) | JNull => Some old | _ => None end) [] k l.
(** A field of a type pointer to struct: null makes the pointer nil. *)
Definition ptr_field (k : string) (l : list (string * json)) : option (option (list (string * json))) :=
  Jwt.decode_into (λ old v, match v with JObj m => Some (Some (default [] old ++ m)) | JNull => Some None | _ => None end)
    None k l.
(** A field of a slice of structs. *)
Definition elem_members (v : json) : option (list (string * json)) :=
  match v with JObj m => Some m | JNull => Some [] | _ => None end.
Definition structs_field (k : string) (l : list (string * json)) : option (list (list (string * json))) :=
  Jwt.decode_into (λ _ v, match v with JArr vs => mapM elem_members vs | JNull => Some [] | _ => None end) [] k l.
(** A field of type [map[string]string]; a null value is the empty string. *)
Definition strmap_field (k : string) (l : list (string * json)) : option (gmap string string) :=
  Jwt.decode_into (λ old v,
    match v with
    | JObj m => foldl (λ acc kv, a ← acc; s ← Jwt.str_elem kv.2; Some (<[kv.1 := s]> a)) (Some old) m
    | JNull => Some ∅
    | _ => None
    end) ∅ k l.

(** ** [time.Parse] *)

(** The general parser reads what the strict form refuses: an hour of one digit, a
    fraction after a comma, offsets up to 24:60. *)
Definition take_hour (s : list byte) : option (Z * list byte) :=
  match take_uint 2 0 23 s with
  | Some r => Some r
  | None =>
      match s with
      | _ :: c :: _ => match digit_val c with Some _ => None | None => take_uint 1 0 9 s end
      | _ => take_uint 1 0 9 s
      end
  end.
Definition loose_fraction (s : list byte) : Z * list byte :=
  match s with
  | c :: s' => if beqb c x2c then match fraction (x2e :: s') with (n, rest) =>
                 if bool_decide (rest = x2e :: s') then (0%Z, s) else (n, rest) end
               else fraction s
  | [] => (0%Z, [])
  end.
Definition loose_zone (s : list byte) : option Z :=
  match s with
  | [c] => if beqb c x5a then Some 0%Z else None
  | c :: s1 =>
      '(hr, s2) ← take_uint 2 0 24 s1; s3 ← take_byte x3a s2; '(mi, s4) ← take_uint 2 0 60 s3;
      match s4 with
      | [] => if beqb c x2b then Some (60 * hr + mi)%Z
              else if beqb c x2d then Some (- (60 * hr + mi))%Z else None
      | _ => None
      end
  | [] => None
  end.
Definition parse_general (t : string) : option Z :=
  '(y, s) ← take_uint 4 0 9999 (bytes_of t); s ← take_byte x2d s;
  '(mo, s) ← take_uint 2 1 12 s; s ← take_byte x2d s;
  '(d, s) ← take_uint 2 1 (days_in mo y) s; s ← take_byte x54 s;
  '(h, s) ← take_hour s; s ← take_byte x3a s;
  '(mi, s) ← take_uint 2 0 59 s; s ← take_byte x3a s;
  '(sec, s) ← take_uint 2 0 59 s;
  let '(nsec, s) := loose_fraction s in
  offset ← loose_zone s;
  Some (((days_of_civil y mo d * 86400 + h * 3600 + mi * 60 + sec) - offset * 60) * second + nsec)%Z.
(** [time.Parse(time.RFC3339, t)]: the strict form first. *)
Definition Parse_RFC3339 (t : string) : option Z :=
  match parse_time t with Some x => Some x | None => parse_general t end.

Example parse_loose : Parse_RFC3339 "2006-01-02T5:04:05,5+24:60" = Some ((1136178245 - 25 * 3600) * second + 500000000)%Z.
Proof. vm_compute. done. Qed.

Example parse_offset : parse_time "2006-01-02T15:04:05.5-07:00" = Some (1136239445 * second + 500000000)%Z.
Proof. vm_compute. done. Qed.
Example parse_no_leap : parse_time "2023-02-29T00:00:00Z" = None.
Proof. vm_compute. done. Qed.

(** ** The calendar *)

(** The year of an era that a day falls in, and the day of that year (from March). *)
Lemma year_of_era doe :
  (0 ≤ doe < 146097)%Z →
  let yoe := ((doe - doe / 1460 + doe / 36524 - doe / 146096) / 365)%Z in
  let doy := (doe - (365 * yoe + yoe / 4 - yoe / 100))%Z in
  (0 ≤ yoe < 400 ∧ 0 ≤ doy ≤ 365)%Z ∧
  (doy = 365 → (yoe + 1) mod 4 = 0 ∧ ((yoe + 1) mod 100 ≠ 0 ∨ (yoe + 1) mod 400 = 0))%Z.
Proof. intros H yoe doy. subst yoe doy. Z.to_euclidean_division_equations. lia. Qed.
(** The month (from March) and day of a day of the year. *)
Lemma month_of_year doy :
  (0 ≤ doy ≤ 365)%Z →
  let mp := ((5 * doy + 2) / 153)%Z in let d := (doy - (153 * mp + 2) / 5 + 1)%Z in
  (0 ≤ mp ≤ 11 ∧ 1 ≤ d ≤ 31 ∧ (mp = 1 ∨ mp = 3 ∨ mp = 6 ∨ mp = 8 → d ≤ 30) ∧
   (mp = 11 → d ≤ 29 ∧ (d = 29 → doy = 365)))%Z.
Proof. intros H mp d. subst mp d. Z.to_euclidean_division_equations. lia. Qed.

Lemma civil_ok days :
  let '(y, m, d) := Events.civil days in
  days_of_civil y m d = days ∧ (1 ≤ m ≤ 12)%Z ∧ (1 ≤ d ≤ days_in m y)%Z.
Proof.
  unfold Events.civil. set (doe := ((days + 719468) mod 146097)%Z). set (era := ((days + 719468) / 146097)%Z).
  assert (0 ≤ doe < 146097)%Z as Hdoe by (apply Z.mod_pos_bound; lia).
  assert (days = era * 146097 + doe - 719468)%Z as Hdays by (subst doe era; pose proof (Z.div_mod (days + 719468) 146097); lia).
  clearbody doe era. subst days. pose proof (year_of_era doe Hdoe) as Hy. cbv zeta in Hy |- *.
  set (yoe := ((doe - doe / 1460 + doe / 36524 - doe / 146096) / 365)%Z) in *. clearbody yoe.
  set (doy := (doe - (365 * yoe + yoe / 4 - yoe / 100))%Z) in *.
  assert (doe = 365 * yoe + yoe / 4 - yoe / 100 + doy)%Z as Hdoe' by (subst doy; lia). clearbody doy. subst doe.
  destruct Hy as [[Hyoe Hdoy] Hleap]. pose proof (month_of_year doy Hdoy) as Hm. cbv zeta in Hm.
  set (mp := ((5 * doy + 2) / 153)%Z) in *. clearbody mp.
  set (d := (doy - (153 * mp + 2) / 5 + 1)%Z) in *.
  assert (doy = (153 * mp + 2) / 5 + d - 1)%Z as Hdoy' by (subst d; lia). clearbody d. subst doy.
  unfold days_of_civil, days_in, is_leap.
  destruct (Z.ltb_spec mp 10) as [Hlt|Hge].
  - replace (mp + 3 <=? 2)%Z with false by lia. replace (2 <? mp + 3)%Z with true by lia. cbv zeta.
    replace (yoe + era * 400 + 0)%Z with (yoe + era * 400)%Z by lia.
    rewrite Z.div_add, Z.mod_add, (Z.div_small yoe), (Z.mod_small yoe 400) by lia.
    replace (mp + 3 - 3)%Z with mp by lia. repeat case_match; lia.
  - replace (mp - 9 <=? 2)%Z with true by lia. replace (2 <? mp - 9)%Z with false by lia. cbv zeta.
    replace (yoe + era * 400 + 1 - 1)%Z with (yoe + era * 400)%Z by lia.
    rewrite Z.div_add, Z.mod_add, (Z.div_small yoe), (Z.mod_small yoe 400) by lia.
    replace (mp - 9 + 9)%Z with mp by lia.
    replace (yoe + era * 400 + 1)%Z with (yoe + 1 + era * 100 * 4)%Z at 1 by lia. rewrite Z.mod_add by lia.
    replace (yoe + era * 400 + 1)%Z with (yoe + 1 + era * 4 * 100)%Z at 1 by lia. rewrite Z.mod_add by lia.
    replace (yoe + era * 400 + 1)%Z with (yoe + 1 + era * 400)%Z by lia. rewrite Z.mod_add by lia.
    split; [lia|]. split; [lia|].
    destruct (Z.eqb_spec (mp - 9) 2) as [Em|]; [|repeat case_match; lia].
    assert (mp = 11)%Z as -> by lia. destruct Hm as (_ & ? & _ & Hfeb). destruct (Hfeb eq_refl) as [? H29].
    destruct (decide (d = 29%Z)) as [->|]; [|case_match; lia].
    destruct Hleap as [-> Hl]; [lia|]. cbn [Z.eqb andb].
    destruct Hl as [?%Z.eqb_neq|?%Z.eqb_eq]; case_match; try lia;
      rewrite ?orb_false_iff, ?negb_false_iff in *; intuition congruence.
Qed.

(** ** Dates and days correspond *)

(** Years that start in March: the days before one, and the day in it, determine both. *)
Lemma year_start_inj y1 y2 d1 d2 :
  (0 ≤ d1 ≤ 365 → 0 ≤ d2 ≤ 365 →
   (d1 = 365 → (y1 + 1) mod 4 = 0 ∧ ((y1 + 1) mod 100 ≠ 0 ∨ (y1 + 1) mod 400 = 0)) →
   (d2 = 365 → (y2 + 1) mod 4 = 0 ∧ ((y2 + 1) mod 100 ≠ 0 ∨ (y2 + 1) mod 400 = 0)) →
   y1 / 400 * 146097 + (y1 mod 400 * 365 + y1 mod 400 / 4 - y1 mod 400 / 100 + d1) =
   y2 / 400 * 146097 + (y2 mod 400 * 365 + y2 mod 400 / 4 - y2 mod 400 / 100 + d2) → y1 = y2 ∧ d1 = d2)%Z.
Proof.
  assert (∀ y : Z, y / 400 * 146097 + (y mod 400 * 365 + y mod 400 / 4 - y mod 400 / 100) = 365 * y + y / 4 - y / 100 + y / 400)%Z as Hs
    by (intros y; Z.to_euclidean_division_equations; lia).
  intros H1 H2 L1 L2 E.
  assert (365 * y1 + y1 / 4 - y1 / 100 + y1 / 400 + d1 = 365 * y2 + y2 / 4 - y2 / 100 + y2 / 400 + d2)%Z as E'
    by (rewrite <-!Hs; lia). clear E Hs.
  assert (∀ a b e1 e2, (0 ≤ e1 ≤ 365 → 0 ≤ e2 → a < b → (e1 = 365 → (a + 1) mod 4 = 0 ∧ ((a + 1) mod 100 ≠ 0 ∨ (a + 1) mod 400 = 0)) →
    365 * a + a / 4 - a / 100 + a / 400 + e1 < 365 * b + b / 4 - b / 100 + b / 400 + e2)%Z) as Hlt.
  { clear. intros a b e1 e2 H1 H2 Hab HL.
    assert (365 * (a + 1) + (a + 1) / 4 - (a + 1) / 100 + (a + 1) / 400 ≤ 365 * b + b / 4 - b / 100 + b / 400)%Z.
    { clear -Hab. Z.to_euclidean_division_equations. lia. }
    assert (365 * a + a / 4 - a / 100 + a / 400 + e1 < 365 * (a + 1) + (a + 1) / 4 - (a + 1) / 100 + (a + 1) / 400)%Z; [|lia].
    clear -H1 HL. destruct (decide (e1 = 365%Z)) as [->|].
    - destruct HL as [H4 HL]; [done|]. clear H1. Z.to_euclidean_division_equations. lia.
    - clear HL. Z.to_euclidean_division_equations. lia. }
  destruct (Z.lt_trichotomy y1 y2) as [Hy|[->|Hy]].
  - pose proof (Hlt y1 y2 d1 d2 H1 ltac:(lia) Hy L1). lia.
  - split; [done|lia].
  - pose proof (Hlt y2 y1 d2 d1 H2 ltac:(lia) Hy L2). lia.
Qed.
Definition valid_date (y m d : Z) : Prop := (1 ≤ m ≤ 12 ∧ 1 ≤ d ≤ days_in m y)%Z.
(** The year that starts in March and the day of it. *)
Lemma march_day y m d :
  valid_date y m d →
  let y' := (if m <=? 2 then y - 1 else y)%Z in
  let doy := ((153 * (if 2 <? m then m - 3 else m + 9) + 2) / 5 + d - 1)%Z in
  (0 ≤ doy ≤ 365 ∧ (doy = 365 → (y' + 1) mod 4 = 0 ∧ ((y' + 1) mod 100 ≠ 0 ∨ (y' + 1) mod 400 = 0)))%Z.
Proof.
  intros [Hm Hd]. cbv zeta.
  assert (m = 1 ∨ m = 2 ∨ m = 3 ∨ m = 4 ∨ m = 5 ∨ m = 6 ∨ m = 7 ∨ m = 8 ∨ m = 9 ∨ m = 10 ∨ m = 11 ∨ m = 12)%Z as Hcases by lia.
  unfold days_in in Hd. repeat destruct Hcases as [->|Hcases]; try subst m; cbn [Z.eqb Pos.eqb Z.leb Z.ltb Z.compare Pos.compare Pos.compare_cont orb andb] in *.
  all: try (split; [clear -Hd; Z.to_euclidean_division_equations; lia|intros E; exfalso; clear -Hd E; Z.to_euclidean_division_equations; lia]).
  replace (y - 1 + 1)%Z with y by lia. unfold is_leap in Hd.
  destruct (Z.eqb_spec (y mod 4) 0), (Z.eqb_spec (y mod 100) 0), (Z.eqb_spec (y mod 400) 0); cbn [negb orb andb] in Hd;
    (split; [clear -Hd; Z.to_euclidean_division_equations; lia
            |intros E; first [split; [done|auto; fail] | exfalso; clear -Hd E; Z.to_euclidean_division_equations; lia]]).
Qed.
Lemma march_month m1 d1 m2 d2 : (0 ≤ m1 ≤ 11 → 0 ≤ m2 ≤ 11 → 1 ≤ d1 ≤ 31 → 1 ≤ d2 ≤ 31 →
  (m1 = 1 ∨ m1 = 3 ∨ m1 = 6 ∨ m1 = 8 → d1 ≤ 30) → (m2 = 1 ∨ m2 = 3 ∨ m2 = 6 ∨ m2 = 8 → d2 ≤ 30) →
  (153 * m1 + 2) / 5 + d1 - 1 = (153 * m2 + 2) / 5 + d2 - 1 → m1 = m2 ∧ d1 = d2)%Z.
Proof. intros. Z.to_euclidean_division_equations. lia. Qed.
(** Different dates are different days. *)
Lemma days_of_civil_inj y1 m1 d1 y2 m2 d2 :
  valid_date y1 m1 d1 → valid_date y2 m2 d2 → days_of_civil y1 m1 d1 = days_of_civil y2 m2 d2 →
  y1 = y2 ∧ m1 = m2 ∧ d1 = d2.
Proof.
  intros H1 H2 E. pose proof (march_day _ _ _ H1) as [R1 L1]. pose proof (march_day _ _ _ H2) as [R2 L2].
  unfold days_of_civil in E. cbv zeta in E.
  apply (proj1 (Z.sub_cancel_r _ _ 719468)) in E.
  destruct (year_start_inj _ _ _ _ R1 R2 L1 L2 E) as [Ey Ed]. clear E R1 R2 L1 L2.
  destruct H1 as [Hm1 Hd1], H2 as [Hm2 Hd2].
  assert (∀ m y : Z, (1 ≤ m ≤ 12 → days_in m y ≤ 31 ∧ (m = 4 ∨ m = 6 ∨ m = 9 ∨ m = 11 → days_in m y = 30))%Z) as Hdays.
  { clear. intros m y Hm. unfold days_in. destruct (Z.eqb_spec m 2); [destruct (is_leap y); lia|].
    destruct (Z.eqb_spec m 4), (Z.eqb_spec m 6), (Z.eqb_spec m 9), (Z.eqb_spec m 11); cbn [orb]; lia. }
  destruct (Hdays m1 y1 Hm1) as [Hb1 Hc1]. destruct (Hdays m2 y2 Hm2) as [Hb2 Hc2].
  apply march_month in Ed as [Em ->]; try (destruct (Z.ltb_spec 2 m1), (Z.ltb_spec 2 m2); lia).
  destruct (Z.ltb_spec 2 m1), (Z.ltb_spec 2 m2), (Z.leb_spec m1 2), (Z.leb_spec m2 2); lia.
Qed.
Lemma civil_of_days y m d : valid_date y m d → Events.civil (days_of_civil y m d) = (y, m, d).
Proof.
  intros Hv. pose proof (civil_ok (days_of_civil y m d)) as Hc. destruct (Events.civil _) as [[y' m'] d'].
  destruct Hc as (E & Hm & Hd). by destruct (days_of_civil_inj _ _ _ _ _ _ (conj Hm Hd) Hv E) as (-> & -> & ->).
Qed.

(** ** Reading back *)

Lemma byte_of_digit k : (0 ≤ k < 10)%Z → digit_val (byte_of_N (48 + Z.to_N k)) = Some k.
Proof.
  intros Hk.
  assert (k = 0 ∨ k = 1 ∨ k = 2 ∨ k = 3 ∨ k = 4 ∨ k = 5 ∨ k = 6 ∨ k = 7 ∨ k = 8 ∨ k = 9)%Z as Hcases by lia.
  by repeat destruct Hcases as [->|Hcases]; try subst k.
Qed.
Lemma length_digits n z : length (Events.digits n z) = n.
Proof. revert z. induction n as [|n IH]; intros z; cbn; [done|]. rewrite length_app, IH. cbn. lia. Qed.
Lemma digits_val_prefix acc l1 l2 v :
  digits_val acc l1 = Some v → digits_val acc (l1 ++ l2) = digits_val v l2.
Proof.
  revert acc. induction l1 as [|c l IH]; intros acc; cbn; [by intros [= ->]|].
  destruct (digit_val c); [apply IH|done].
Qed.
Lemma digits_val_digits n z acc :
  (0 ≤ z < 10 ^ Z.of_nat n)%Z → digits_val acc (Events.digits n z) = Some (acc * 10 ^ Z.of_nat n + z)%Z.
Proof.
  revert z acc. induction n as [|n IH]; intros z acc Hz; cbn [Events.digits digits_val].
  - change (10 ^ Z.of_nat 0)%Z with 1%Z in *. f_equal. lia.
  - rewrite Nat2Z.inj_succ, Z.pow_succ_r in * by lia.
    pose proof (Z.div_mod z 10 ltac:(lia)). pose proof (Z.mod_pos_bound z 10 ltac:(lia)).
    rewrite (digits_val_prefix _ _ _ _ (IH (z / 10)%Z acc ltac:(split; [apply Z.div_pos; lia|apply Z.div_lt_upper_bound; lia]))).
    cbn [digits_val]. rewrite byte_of_digit by lia. f_equal. lia.
Qed.
Lemma take_uint_digits n lo hi z rest :
  (0 ≤ z < 10 ^ Z.of_nat n)%Z → (lo ≤ z ≤ hi)%Z →
  take_uint n lo hi (Events.digits n z ++ rest) = Some (z, rest).
Proof.
  intros Hz Hr. unfold take_uint. rewrite length_app, length_digits.
  replace (n + length rest <? n)%nat with false by (symmetry; apply Nat.ltb_ge; lia).
  rewrite take_app_length', drop_app_length' by (symmetry; apply length_digits).
  rewrite digits_val_digits by done.
  replace (0 * 10 ^ Z.of_nat n + z)%Z with z by lia.
  replace ((lo <=? z) && (z <=? hi))%Z with true by lia. done.
Qed.
Lemma take_byte_same c s : take_byte c (c :: s) = Some s.
Proof. cbn. by rewrite beqb_refl. Qed.

(** A fraction written without its trailing zeros reads as the same fraction. *)
Lemma trim_zeros_split l : ∃ n, l = replicate n x30 ++ Events.trim_zeros l.
Proof.
  induction l as [|c l [n IH]]; [by exists 0%nat|]. cbn [Events.trim_zeros].
  destruct (beqb c x30) eqn:E; [|by exists 0%nat]. apply beqb_eq in E as ->.
  exists (S n). cbn [replicate app]. by rewrite <-IH.
Qed.
Lemma trimmed_split ds : ∃ n, ds = rev (Events.trim_zeros (rev ds)) ++ replicate n x30.
Proof.
  destruct (trim_zeros_split (rev ds)) as [n E]. exists n.
  rewrite <-(rev_involutive ds), E at 1. rewrite rev_app_distr. f_equal.
  clear. induction n as [|n IH]; [done|]. cbn [replicate rev]. rewrite IH.
  change [x30] with (replicate 1 x30). by rewrite <-replicate_add, Nat.add_comm.
Qed.
Lemma digits_val_zeros n v : digits_val v (replicate n x30) = Some (v * 10 ^ Z.of_nat n)%Z.
Proof.
  revert v. induction n as [|n IH]; intros v; cbn [replicate digits_val].
  - f_equal. change (10 ^ Z.of_nat 0)%Z with 1%Z. lia.
  - change (digit_val x30) with (Some 0%Z). cbv iota. rewrite IH, Nat2Z.inj_succ, Z.pow_succ_r by lia. f_equal. lia.
Qed.
Lemma span_digits_app ds c rest v acc :
  digits_val acc ds = Some v → digit_val c = None → span_digits (ds ++ c :: rest) = (ds, c :: rest).
Proof.
  intros Hd Hc. revert acc Hd. induction ds as [|d ds IH]; intros acc; cbn.
  - by rewrite Hc.
  - destruct (digit_val d); [|done]. intros H. by rewrite (IH _ H).
Qed.
Lemma digits_val_some_app acc a b v :
  digits_val acc (a ++ b) = Some v → ∃ u, digits_val acc a = Some u ∧ digits_val u b = Some v.
Proof.
  revert acc. induction a as [|c a IH]; intros acc; cbn; [eauto|]. destruct (digit_val c); [apply IH|done].
Qed.
Lemma fraction_trimmed nsec :
  (0 ≤ nsec < second)%Z →
  fraction (match rev (Events.trim_zeros (rev (Events.digits 9 nsec))) with
            | [] => [x5a] | frac => x2e :: frac ++ [x5a] end) = (nsec, [x5a]).
Proof.
  intros Hn. destruct (trimmed_split (Events.digits 9 nsec)) as [n E].
  pose proof (digits_val_digits 9 nsec 0 Hn) as Hv. pose proof (length_digits 9 nsec) as Hl.
  set (frac := rev (Events.trim_zeros _)) in *. clearbody frac. rewrite E in Hv, Hl. clear E.
  apply digits_val_some_app in Hv as (u & Hu & Hz). rewrite digits_val_zeros in Hz.
  rewrite length_app, length_replicate in Hl. injection Hz as Hz.
  destruct frac as [|c frac].
  - cbn in Hu. injection Hu as <-. cbn. f_equal. lia.
  - set (ds := c :: frac) in *. cbn [fraction]. rewrite beqb_refl.
    rewrite (span_digits_app ds x5a [] u 0 Hu eq_refl). subst ds. cbv iota.
    rewrite take_ge, Hu by lia. cbn [default]. f_equal.
    assert (9 - length (c :: frac) = n)%nat as -> by (cbn [length] in *; lia). unfold id. lia.
Qed.

Lemma year_range y m d :
  (1 ≤ m ≤ 12)%Z → (1 ≤ d ≤ 31)%Z → (-719528 ≤ days_of_civil y m d ≤ 2932896)%Z → (0 ≤ y ≤ 9999)%Z.
Proof.
  unfold days_of_civil. cbv zeta. intros Hm Hd.
  destruct (Z.leb_spec m 2), (Z.ltb_spec 2 m); try lia; Z.to_euclidean_division_equations; lia.
Qed.

(** Instants of the years 0 to 9999, which are those [MarshalJSON] writes, are read
    back from the text it writes, to the nanosecond. *)
Theorem time_roundtrip t :
  (-62167219200 ≤ unix t ≤ 253402300799)%Z → parse_time (Events.time_json t) = Some t.
Proof.
  intros Ht. set (s := unix t) in *. assert (t = s * second + t mod second)%Z as Et
    by (subst s; unfold unix; pose proof (Z.div_mod t second); unfold second in *; lia).
  assert (0 ≤ t mod second < second)%Z as Hns by (apply Z.mod_pos_bound; unfold second; lia).
  pose proof (civil_ok (s / 86400)) as Hc.
  pose proof (Z.div_mod s 86400 ltac:(lia)) as Hs. pose proof (Z.mod_pos_bound s 86400 ltac:(lia)) as Hr.
  assert (bytes_of (Events.time_json t) =
    let '(y, mo, d) := Events.civil (s / 86400) in let r := (s mod 86400)%Z in
    Events.digits 4 y ++ x2d :: Events.digits 2 mo ++ x2d :: Events.digits 2 d ++ x54 ::
    Events.digits 2 (r / 3600) ++ x3a :: Events.digits 2 (r / 60 mod 60) ++ x3a :: Events.digits 2 (r mod 60) ++
    match rev (Events.trim_zeros (rev (Events.digits 9 (t mod second)))) with [] => [x5a] | frac => x2e :: frac ++ [x5a] end)
    as Hb.
  { unfold Events.time_json, Events.rfc3339. fold s. destruct (Events.civil (s / 86400)) as [[y mo] d].
    destruct (rev (Events.trim_zeros _)) as [|c frac]; [by rewrite bytes_of_str_of|].
    rewrite !bytes_of_str_of. cbn [Events.digits app take]. done. }
  unfold parse_time. rewrite Hb. clear Hb. destruct (Events.civil (s / 86400)) as [[y mo] d].
  destruct Hc as (Hdays & Hmo & Hd).
  assert (days_in mo y ≤ 31)%Z as H31 by (unfold days_in; repeat case_match; lia).
  assert (0 ≤ y ≤ 9999)%Z as Hy by (apply (year_range y mo d); [done|lia|rewrite Hdays; Z.to_euclidean_division_equations; lia]).
  set (r := (s mod 86400)%Z) in *. cbv zeta.
  assert (0 ≤ r / 3600 ≤ 23 ∧ 0 ≤ r / 60 mod 60 ≤ 59 ∧ 0 ≤ r mod 60 ≤ 59 ∧
    r = r / 3600 * 3600 + (r / 60 mod 60) * 60 + r mod 60)%Z as (Hh & Hmi & Hsec & Hr')
    by (clearbody r; clear -Hr; Z.to_euclidean_division_equations; lia).
  repeat (rewrite take_uint_digits
    by (first [change (10 ^ Z.of_nat 4)%Z with 10000%Z; lia | change (10 ^ Z.of_nat 2)%Z with 100%Z; lia | lia]); cbn [mbind option_bind]; rewrite ?take_byte_same; cbn [mbind option_bind]).
  rewrite fraction_trimmed by done. cbn [zone mbind option_bind]. rewrite beqb_refl, Hdays. cbn [mbind option_bind]. f_equal.
  clearbody r. clearbody s. revert Et Hs Hr'. generalize (t mod second)%Z. intros. unfold second in *. lia.
Qed.
Lemma time_roundtrip_witness :
  parse_time (Events.time_json (1136214245 * second + 120000000)) = Some (1136214245 * second + 120000000)%Z.
Proof. apply (time_roundtrip (1136214245 * second + 120000000)). vm_compute. split; discriminate. Defined.

(** Formatting to the second and parsing drops the fraction. *)
Lemma rfc3339_roundtrip t :
  (-62167219200 ≤ unix t ≤ 253402300799)%Z → Parse_RFC3339 (Events.rfc3339 t) = Some (unix t * second)%Z.
Proof.
  intros Ht. assert (unix (unix t * second) = unix t) as Hu by (unfold unix, second; by rewrite Z.div_mul).
  assert (Events.rfc3339 t = Events.time_json (unix t * second)) as ->.
  { unfold Events.time_json. rewrite Z.mod_mul by (unfold second; lia).
    change (rev _) with (@nil byte). unfold Events.rfc3339. by rewrite Hu. }
  unfold Parse_RFC3339. rewrite time_roundtrip; [done|]. by rewrite Hu.
Qed.
Lemma digits_ascii n z : Json.ascii (Events.digits n z).
Proof.
  revert z. induction n as [|n IH]; intros z; [constructor|]. simpl. apply Forall_app. split; [apply IH|].
  constructor; [|done]. rewrite bval_byte_of_N. pose proof (Z.mod_pos_bound z 10). rewrite N.mod_small; lia.
Qed.
Lemma rfc3339_utf8 t : Json.valid_utf8 (Events.rfc3339 t).
Proof.
  unfold Events.rfc3339. destruct (Events.civil _) as [[y mo] d]. apply Json.ascii_utf8.
  repeat first [apply Forall_app; split; [apply digits_ascii|] | apply Forall_cons; split; [done|]]. done.
Qed.
End GoTime.

(** ** Durations in text *)

Module GoDuration.
Import SpecFloat.

(** ** Fractions in binary64 *)

Definition float64 : Type := spec_float.
Definition float64_of (z : Z) : float64 := binary_normalize 53 1024 z 0 false.
Definition fmul : float64 → float64 → float64 := SFmul 53 1024.
Definition fdiv : float64 → float64 → float64 := SFdiv 53 1024.
(** [uint64(x)] of a number that is not negative and below 2^63: towards zero. *)
Definition trunc (x : float64) : Z :=
  match x with S754_finite false m e => Z.shiftl (Z.pos m) e | _ => 0%Z end.

(** ** The text *)

Definition is_digit (c : byte) : bool := match digit_val c with Some _ => true | None => false end.
(** [quote]: as it appears in the error. *)
Definition quote_byte (c : byte) : list byte :=
  let v := bval c in
  if ((128 <=? v) || (v <? 32))%N then x5c :: x78 :: hex_byte c
  else if beqb c x22 || beqb c x5c then [x5c; c] else [c].
Definition quote (s : list byte) : string := str_of (x22 :: concat (quote_byte <$> s) ++ [x22]).
Definition invalid {A} (orig : list byte) : result A := Err (ErrMsg ("time: invalid duration " +s quote orig)).

(** [leadingInt]: nothing when the number passes 2^63. *)
Fixpoint leadingInt (x : Z) (s : list byte) : option (Z * list byte) :=
  match s with
  | c :: s' =>
      match digit_val c with
      | None => Some (x, s)
      | Some d =>
          if (2 ^ 63 / 10 <? x)%Z then None
          else let x' := (x * 10 + d)%Z in if (2 ^ 63 <? x')%Z then None else leadingInt x' s'
      end
  | [] => Some (x, [])
  end.
(** [leadingFraction]: digits that would overflow are read and do not count. *)
Fixpoint leadingFraction (x : Z) (scale : float64) (overflow : bool) (s : list byte) : Z * float64 * list byte :=
  match s with
  | c :: s' =>
      match digit_val c with
      | None => (x, scale, s)
      | Some d =>
          if overflow || ((2 ^ 63 - 1) / 10 <? x)%Z then leadingFraction x scale true s'
          else let y := (x * 10 + d)%Z in
               if (2 ^ 63 <? y)%Z then leadingFraction x scale true s'
               else leadingFraction y (fmul scale (float64_of 10)) false s'
      end
  | [] => (x, scale, [])
  end.
Fixpoint leadingUnit (s : list byte) : list byte * list byte :=
  match s with
  | c :: s' => if beqb c x2e || is_digit c then ([], s) else let '(u, rest) := leadingUnit s' in (c :: u, rest)
  | [] => ([], [])
  end.
(** [unitMap]; the two signs for micro are U+00B5 and U+03BC. *)
Definition unitMap : list (list byte * Z) :=
  [(bytes_of "ns", nanosecond); (bytes_of "us", 1000%Z); ([xc2; xb5; x73], 1000%Z); ([xce; xbc; x73], 1000%Z);
   (bytes_of "ms", 1000000%Z); (bytes_of "s", second); (bytes_of "m", minute); (bytes_of "h", hour)].
Definition unit_of (u : list byte) : option Z :=
  snd <$> list_find (λ p, p.1 = u) unitMap ≫= λ p, Some p.2.

(** One number with its unit, in nanoseconds. *)
Definition fraction_ns (f unit : Z) (scale : float64) : Z :=
  if (0 <? f)%Z then trunc (fmul (float64_of f) (fdiv (float64_of unit) scale)) else 0%Z.
Definition parse_part (orig s : list byte) : result (Z * list byte) :=
  match s with
  | [] => invalid orig
  | c :: _ =>
      if negb (beqb c x2e || is_digit c) then invalid orig
      else match leadingInt 0 s with
      | None => invalid orig
      | Some (v, s1) =>
          let pre := negb (Nat.eqb (length s) (length s1)) in
          let '(f, scale, s2, post) :=
            match s1 with
            | c' :: s1' =>
                if beqb c' x2e then
                  let '(f, scale, s2) := leadingFraction 0 (float64_of 1) false s1' in
                  (f, scale, s2, negb (Nat.eqb (length s1') (length s2)))
                else (0%Z, float64_of 1, s1, false)
            | [] => (0%Z, float64_of 1, s1, false)
            end in
          if negb pre && negb post then invalid orig
          else let '(u, s3) := leadingUnit s2 in
          match u with
          | [] => Err (ErrMsg ("time: missing unit in duration " +s quote orig))
          | _ =>
              match unit_of u with
              | None => Err (ErrMsg ("time: unknown unit " +s quote u +s " in duration " +s quote orig))
              | Some unit =>
                  if (2 ^ 63 / unit <? v)%Z then invalid orig
                  else let v := (v * unit + fraction_ns f unit scale)%Z in
                       if (2 ^ 63 <? v)%Z then invalid orig else Ok (v, s3)
              end
          end
      end
  end.
(** Each part consumes at least a digit and a unit: the length of the text is enough
    fuel.  The sum is of type uint64: of two parts of 2^63 it is zero. *)
Fixpoint parse_parts (fuel : nat) (orig s : list byte) (d : Z) : result Z :=
  match fuel, s with
  | _, [] => Ok d
  | O, _ => invalid orig
  | S fuel', _ =>
      match parse_part orig s with
      | Err e => Err e
      | Ok (v, s') =>
          let d := ((d + v) mod 2 ^ 64)%Z in
          if (2 ^ 63 <? d)%Z then invalid orig else parse_parts fuel' orig s' d
      end
  end.
Definition ParseDuration (t : string) : result Z :=
  let orig := bytes_of t in
  let '(neg, s) := atoi_sign orig in
  if bool_decide (s = [x30]) then Ok 0%Z
  else match s with
  | [] => invalid orig
  | _ =>
      match parse_parts (length s) orig s 0 with
      | Err e => Err e
      | Ok d => if neg then Ok (- d)%Z else if (2 ^ 63 - 1 <? d)%Z then invalid orig else Ok d
      end
  end.

Example parse_mixed : ParseDuration "-1h15m30.918273645s" = Ok (- (hour + 15 * minute + 30918273645))%Z.
Proof. vm_compute. done. Qed.
Example parse_micro : ParseDuration (str_of (bytes_of "1.5" ++ [xc2; xb5; x73])) = Ok 1500%Z.
Proof. vm_compute. done. Qed.
Example parse_third : ParseDuration "0.3333333333333333333h" = Ok 1200000000000%Z.
Proof. vm_compute. done. Qed.
Example parse_limit : ParseDuration "-9223372036854775808ns" = Ok (- 2 ^ 63)%Z ∧ ParseDuration "9223372036854775808ns" = invalid (bytes_of "9223372036854775808ns").
Proof. vm_compute. done. Qed.
Example parse_wraps : ParseDuration "9223372036854775808ns9223372036854775808ns1s" = Ok second.
Proof. vm_compute. done. Qed.
Example parse_bad : is_ok (ParseDuration "1") = false ∧ is_ok (ParseDuration ".s") = false ∧ is_ok (ParseDuration "") = false.
Proof. vm_compute. done. Qed.

(** ** What it returns *)

(** The fuel is enough: each part is shorter than what it was read from. *)
Lemma leadingInt_length x s v s' : leadingInt x s = Some (v, s') → length s' ≤ length s.
Proof.
  revert x. induction s as [|c s IH]; intros x; cbn [leadingInt]; [by intros [= _ <-]|].
  destruct (digit_val c); [|by intros [= _ <-]]. case_match; [done|]. case_match; [done|]. intros Hs%IH. cbn. lia.
Qed.
Lemma leadingFraction_length x sc o s : length (leadingFraction x sc o s).2 ≤ length s.
Proof.
  revert x sc o. induction s as [|c s IH]; intros x sc o; cbn [leadingFraction]; [done|].
  destruct (digit_val c); [|done]. cbn [length]. case_match; [etrans; [apply IH|lia]|].
  cbv zeta. case_match; (etrans; [apply IH|lia]).
Qed.
Lemma leadingUnit_length s u s' : leadingUnit s = (u, s') → length s = length u + length s'.
Proof.
  revert u. induction s as [|c s IH]; intros u; cbn [leadingUnit]; [by intros [= <- <-]|].
  case_match; [by intros [= <- <-]|]. destruct (leadingUnit s) as [u' s1]. intros [= <- <-]. cbn. by rewrite (IH u').
Qed.
Lemma parse_part_length orig s v s' : parse_part orig s = Ok (v, s') → length s' < length s.
Proof.
  unfold parse_part. destruct s as [|c s0]; [done|]. set (s := c :: s0). destruct (negb _); [done|].
  destruct (leadingInt 0 s) as [[v0 s1]|] eqn:E1; [|done]. apply leadingInt_length in E1.
  match goal with |- context [let '(_, _) := ?m in _] => assert (length m.1.2 ≤ length s1) as Hm; [|destruct m as [[[f sc] s2] post]] end.
  { destruct s1 as [|c' s1']; [done|]. destruct (beqb c' x2e); [|done].
    pose proof (leadingFraction_length 0 (float64_of 1) false s1') as Hf.
    destruct (leadingFraction _ _ _ s1') as [[f sc] s2]. cbn in *. lia. }
  cbn [fst snd] in Hm. case_match; [done|]. destruct (leadingUnit s2) as [u s3] eqn:E3. apply leadingUnit_length in E3.
  destruct u as [|cu u]; [done|]. cbn [length] in E3. destruct (unit_of _); [|done].
  case_match; [done|]. cbv zeta. case_match; [done|]. intros [= _ <-]. lia.
Qed.
(** The loop ends for want of text or on an error of its own, never of fuel. *)
Lemma parse_parts_fuel orig s d n m : length s ≤ n → length s ≤ m → parse_parts n orig s d = parse_parts m orig s d.
Proof.
  revert s d m. induction n as [|n IH]; intros s d m Hn Hm.
  - destruct s; [|cbn in Hn; lia]. by destruct m.
  - destruct m as [|m]; [destruct s; [done|cbn in Hm; lia]|]. destruct s as [|c s]; [done|].
    cbn [parse_parts]. destruct (parse_part orig (c :: s)) as [[v s']|] eqn:E; [|done].
    apply parse_part_length in E. cbv zeta. case_match; [done|]. apply IH; cbn in *; lia.
Qed.

(** A duration is an int64. *)
Lemma parse_parts_range n orig s d r :
  (0 ≤ d ≤ 2 ^ 63)%Z → parse_parts n orig s d = Ok r → (0 ≤ r ≤ 2 ^ 63)%Z.
Proof.
  revert s d. induction n as [|n IH]; intros s d Hd; destruct s as [|c s]; cbn [parse_parts]; try by intros [= <-].
  destruct (parse_part orig (c :: s)) as [[v s']|]; [|done]. cbv zeta.
  destruct (Z.ltb_spec (2 ^ 63) ((d + v) mod 2 ^ 64)); [done|]. apply IH.
  pose proof (Z.mod_pos_bound (d + v) (2 ^ 64) ltac:(lia)). lia.
Qed.
Lemma ParseDuration_range t d : ParseDuration t = Ok d → (- 2 ^ 63 ≤ d < 2 ^ 63)%Z.
Proof.
  unfold ParseDuration. destruct (atoi_sign (bytes_of t)) as [neg s]. case_match; [intros [= <-]; lia|].
  destruct s as [|c s]; [done|]. destruct (parse_parts _ _ _ 0) as [r|] eqn:E; [|done].
  apply parse_parts_range in E; [|lia]. destruct neg; [intros [= <-]; lia|].
  destruct (Z.ltb_spec (2 ^ 63 - 1) r); [done|]. intros [= <-]. lia.
Qed.
End GoDuration.
