(* ===== verification/Binary64.v ===== *)
(** * Binary64 arithmetic (float64)

    The operations of Go's float64 that the server's rate limiter uses, as IEEE 754
    defines them (the standard library's [SpecFloat] at 53 digits and exponents up to
    1024, every operation rounded to nearest even), [time.Duration.Seconds] and the
    conversion to int, and what one operation can add to its exact result: with
    [upto f q] for "f is not negative and at most q", a sum, difference, product or
    quotient of such numbers is at most [rnd] of the exact one, one part in 2^52 and
    the smallest positive number more.  Each product and sum is rounded by itself,
    as the compiler does on amd64. *)

From Stdlib Require Import SpecFloat QArith Qpower Lqa.
From S2P Require Import Prelude GoTime.

Module Binary64.
Import GoDuration.
Local Open Scope Z_scope.

(** ** Operations *)

Definition fadd : float64 → float64 → float64 := SFadd 53 1024.
Definition fsub : float64 → float64 → float64 := SFsub 53 1024.
Definition fltb : float64 → float64 → bool := SFltb.
Definition feqb : float64 → float64 → bool := SFeqb.
(** [int(x)]: towards zero; outside the range of int64, what amd64 yields. *)
Definition to_int (x : float64) : Z :=
  match x with
  | S754_zero _ => 0
  | S754_finite s m e =>
      let v := cond_Zopp s (Z.shiftl (Zpos m) e) in
      if (- 2 ^ 63 <=? v) && (v <? 2 ^ 63) then v else - 2 ^ 63
  | _ => - 2 ^ 63
  end.
(** [Time.Sub]: saturated at the ends of int64. *)
Definition Sub (t v : Z) : Z := Z.max (- 2 ^ 63) (Z.min (2 ^ 63 - 1) (t - v)).
(** [Duration.Seconds]. *)
Definition Seconds (d : Z) : float64 :=
  fadd (float64_of (Z.quot d 1000000000))
       (fdiv (float64_of (Z.rem d 1000000000)) (float64_of 1000000000)).

Local Abbreviation fexp := (SpecFloat.fexp 53 1024).
Local Abbreviation round := (binary_round_aux 53 1024).

(** ** Mantissas *)
Lemma digits_bounds m : 2 ^ (Zpos (digits2_pos m) - 1) <= Zpos m < 2 ^ Zpos (digits2_pos m).
Proof.
  assert (∀ d, 2 ^ (Zpos (Pos.succ d) - 1) = 2 * 2 ^ (Zpos d - 1) ∧ 2 ^ Zpos (Pos.succ d) = 2 * 2 ^ Zpos d) as H.
  { intros d. rewrite Pos2Z.inj_succ. split; [|apply Z.pow_succ_r; lia].
    rewrite <-Z.pow_succ_r by lia. f_equal. lia. }
  induction m as [m IH|m IH|]; cbn [digits2_pos]; [| |done]; destruct (H (digits2_pos m)) as [-> ->]; lia.
Qed.
Lemma digits_le m d : 0 <= d -> Zpos m < 2 ^ d -> Zpos (digits2_pos m) <= d.
Proof.
  intros Hd H. pose proof (digits_bounds m) as Hm. apply Z.lt_succ_r.
  apply Z.nle_gt. intros Hle. assert (2 ^ d <= 2 ^ (Z.pos (digits2_pos m) - 1)) by (apply Z.pow_le_mono_r; lia). lia.
Qed.
Lemma digits_ge m d : 0 <= d -> 2 ^ d <= Zpos m -> d < Zpos (digits2_pos m).
Proof.
  intros Hd H. pose proof (digits_bounds m) as Hm. apply Z.nle_gt. intros Hle.
  assert (2 ^ Z.pos (digits2_pos m) <= 2 ^ d) by (apply Z.pow_le_mono_r; lia). lia.
Qed.

(** ** Shifting and rounding *)
Lemma shr_1_m mrs : 0 <= shr_m mrs -> shr_m (shr_1 mrs) = shr_m mrs / 2.
Proof.
  destruct mrs as [m r s]. cbn [shr_m shr_1]. destruct m as [|[p|p|]|]; cbn [shr_m]; intros; try lia; try done.
  - rewrite Pos2Z.inj_xI, (Z.mul_comm 2), Z.div_add_l by lia. change (1 / 2) with 0. lia.
  - rewrite Pos2Z.inj_xO, (Z.mul_comm 2), Z.div_mul by lia. done.
Qed.
Lemma iter_pos_m n mrs :
  0 <= shr_m mrs -> shr_m (SpecFloat.iter_pos shr_1 n mrs) = shr_m mrs / 2 ^ Zpos n.
Proof.
  revert mrs. induction n as [n IH|n IH|]; intros mrs H; cbn [SpecFloat.iter_pos].
  - assert (0 <= shr_m (shr_1 mrs)) by (rewrite shr_1_m by done; apply Z.div_pos; lia).
    assert (0 < 2 ^ Zpos n) by (apply Z.pow_pos_nonneg; lia).
    rewrite !IH, shr_1_m by (try rewrite IH by done; try apply Z.div_pos; lia). rewrite !Z.div_div by lia. f_equal.
    replace (Zpos n~1) with (1 + (Zpos n + Zpos n)) by lia. rewrite !Z.pow_add_r by lia. lia.
  - assert (0 < 2 ^ Zpos n) by (apply Z.pow_pos_nonneg; lia).
    rewrite !IH by (try rewrite IH by done; try apply Z.div_pos; lia). rewrite !Z.div_div by lia. f_equal.
    replace (Zpos n~0) with (Zpos n + Zpos n) by lia. rewrite !Z.pow_add_r by lia. lia.
  - by apply shr_1_m.
Qed.
Lemma shr_m_spec mrs e n :
  0 <= shr_m mrs ->
  shr_m (fst (shr mrs e n)) = shr_m mrs / 2 ^ Z.max 0 n /\ snd (shr mrs e n) = e + Z.max 0 n.
Proof.
  intros H. destruct n as [|n|n]; cbn [shr fst snd].
  - rewrite Z.div_1_r. lia.
  - rewrite iter_pos_m by done. rewrite Z.max_r by lia. done.
  - rewrite Z.max_l by lia. rewrite Z.div_1_r. lia.
Qed.
Lemma shr_record_m m l : shr_m (shr_record_of_loc m l) = m.
Proof. by destruct l as [|[]]. Qed.
Lemma round_even_bounds m l : m <= round_nearest_even m l <= m + 1.
Proof. destruct l as [|[]]; cbn; [lia..| |lia|lia]. destruct (Z.even m); lia. Qed.

(** Rounding a mantissa [mx] at the exponent [ex]: the result keeps 53 digits (or
    sits at the smallest exponent) and is less than one unit above. *)
Definition canonical (m e : Z) : Prop := 0 <= m < 2 ^ 53 /\ -1074 <= e /\ (e = -1074 \/ 2 ^ 52 <= m).

Lemma canonical_mantissa_spec m e : canonical (Zpos m) e -> canonical_mantissa 53 1024 m e = true.
Proof.
  intros ([_ Hm] & He & Hn). apply Z.eqb_eq. unfold SpecFloat.fexp, emin.
  pose proof (digits_le m 53 ltac:(lia) Hm). destruct Hn as [->|Hn]; [lia|].
  pose proof (digits_ge m 52 ltac:(lia) Hn). lia.
Qed.
Lemma canonical_mantissa_inv m e : canonical_mantissa 53 1024 m e = true -> canonical (Zpos m) e.
Proof.
  intros H%Z.eqb_eq. unfold SpecFloat.fexp, emin in H. pose proof (digits_bounds m) as Hm.
  assert (Zpos (digits2_pos m) <= 53) as Hd by lia.
  assert (2 ^ Zpos (digits2_pos m) <= 2 ^ 53) by (apply Z.pow_le_mono_r; lia).
  split; [lia|]. split; [lia|].
  destruct (Z.eq_dec e (-1074)); [by left|right].
  replace (Zpos (digits2_pos m)) with 53 in * by lia. apply Hm.
Qed.

Definition first_exponent (mx ex : Z) : Z := fexp (Zdigits2 mx + ex).
Lemma first_round mx ex l :
  0 <= mx -> ex <= first_exponent mx ex ->
  let r := shr_fexp 53 1024 mx ex l in
  let m := round_nearest_even (shr_m (fst r)) (loc_of_shr_record (fst r)) in
  snd r = first_exponent mx ex /\
  0 <= m <= 2 ^ 53 /\ (snd r = -1074 \/ 2 ^ 52 <= m) /\
  m - 1 <= mx / 2 ^ (snd r - ex) <= m.
Proof.
  intros Hm He r m. subst r m. unfold shr_fexp. set (e := first_exponent mx ex) in *.
  destruct (shr_m_spec (shr_record_of_loc mx l) ex (e - ex) ltac:(rewrite shr_record_m; lia)) as [Em Ee].
  rewrite shr_record_m in Em. rewrite Z.max_r in Em, Ee by lia.
  fold (first_exponent mx ex). fold e. 
  assert (snd (shr (shr_record_of_loc mx l) ex (e - ex)) = e) as Ee' by lia.
  pose proof (round_even_bounds (shr_m (fst (shr (shr_record_of_loc mx l) ex (e - ex))))
    (loc_of_shr_record (fst (shr (shr_record_of_loc mx l) ex (e - ex))))) as Hr.
  rewrite Ee'. set (m := round_nearest_even _ _) in *. clearbody m. rewrite Em in Hr. clear Em Ee Ee'.
  assert (0 < 2 ^ (e - ex)) by (apply Z.pow_pos_nonneg; lia).
  assert (0 <= mx / 2 ^ (e - ex)) by (apply Z.div_pos; lia).
  assert (mx / 2 ^ (e - ex) < 2 ^ 53 /\ (e = -1074 \/ 2 ^ 52 <= mx / 2 ^ (e - ex))) as [H53 H52]; cycle 1.
  { clearbody e. split_and!; [done|lia..]. }
  unfold first_exponent, SpecFloat.fexp, emin in e. destruct mx as [|p|p]; [|clear Hm|lia].
  - rewrite Z.div_0_l by lia. cbn [Zdigits2] in e. split; [done|]. lia.
  - cbn [Zdigits2] in e. pose proof (digits_bounds p) as Hp. split.
    + apply Z.div_lt_upper_bound; [lia|]. rewrite <-Z.pow_add_r by lia.
      assert (2 ^ Z.pos (digits2_pos p) <= 2 ^ (e - ex + 53)) by (apply Z.pow_le_mono_r; lia). lia.
    + destruct (Z.eq_dec e (-1074)) as [|Hne]; [by left|right]. apply Z.div_le_lower_bound; [lia|].
      rewrite <-Z.pow_add_r by lia. replace (e - ex + 52) with (Z.pos (digits2_pos p) - 1) by lia. lia.
Qed.

Lemma second_round m e :
  0 <= m <= 2 ^ 53 -> -1074 <= e -> (e = -1074 \/ 2 ^ 52 <= m) ->
  let r := shr_fexp 53 1024 m e loc_Exact in
  canonical (shr_m (fst r)) (snd r) /\ e <= snd r /\ shr_m (fst r) * 2 ^ (snd r - e) = m.
Proof.
  intros Hm He Hn r. subst r. unfold shr_fexp. change (shr_record_of_loc m loc_Exact) with (Build_shr_record m false false).
  destruct (shr_m_spec (Build_shr_record m false false) e (fexp (Zdigits2 m + e) - e) ltac:(cbn; lia)) as [-> ->].
  cbn [shr_m]. destruct (Z.eq_dec m (2 ^ 53)) as [->|Hne].
  - assert (Z.max 0 (fexp (Zdigits2 (2 ^ 53) + e) - e) = 1) as ->.
    { unfold SpecFloat.fexp, emin. change (Zdigits2 (2 ^ 53)) with 54. lia. }
    replace (e + 1 - e) with 1 by lia. change (2 ^ 53 / 2 ^ 1) with (2 ^ 52). split; [|lia].
    split; [lia|]. split; [lia|]. right. lia.
  - assert (Z.max 0 (fexp (Zdigits2 m + e) - e) = 0) as ->.
    { unfold SpecFloat.fexp, emin. assert (Zdigits2 m <= 53); [|lia]. destruct m as [|p|p]; cbn [Zdigits2]; [lia| |lia].
      apply digits_le; lia. }
    rewrite Z.pow_0_r, Z.div_1_r, Z.add_0_r, Z.sub_diag, Z.pow_0_r. split; [|lia]. split; [lia|]. split; [lia|]. lia.
Qed.
Lemma round_shape s mx ex l :
  0 <= mx -> ex <= first_exponent mx ex ->
  exists m e, canonical m e /\ first_exponent mx ex <= e /\
    m * 2 ^ (e - first_exponent mx ex) - 1 <= mx / 2 ^ (first_exponent mx ex - ex) <= m * 2 ^ (e - first_exponent mx ex) /\
    round s mx ex l =
      match m with
      | Zpos p => if e <=? 971 then S754_finite s p e else S754_infinity s
      | _ => S754_zero s
      end.
Proof.
  intros Hm He. destruct (first_round mx ex l Hm He) as (E1 & B1 & N1 & H1).
  unfold binary_round_aux. destruct (shr_fexp 53 1024 mx ex l) as [r1 e1]. cbn [fst snd] in *. subst e1.
  assert (-1074 <= first_exponent mx ex) as He1 by (unfold first_exponent, SpecFloat.fexp, emin; lia).
  destruct (second_round _ _ B1 He1 N1) as (C2 & E2 & V2).
  destruct (shr_fexp 53 1024 (round_nearest_even (shr_m r1) (loc_of_shr_record r1)) (first_exponent mx ex) loc_Exact) as [r2 e2]. cbn [fst snd] in *.
  exists (shr_m r2), e2. rewrite V2. split_and!; [done|done|lia|lia|].
  destruct (shr_m r2); [done|done|]. destruct C2. lia.
Qed.

(** ** Values

    The value of a mantissa and exponent as a fraction, the relative error [eps] of one
    rounding and the smallest positive number [tiny]. *)
Local Open Scope Q_scope.
Definition p2 (e : Z) : Q := Qpower 2 e.
Definition val (m e : Z) : Q := inject_Z m * p2 e.
Lemma p2_pos e : 0 < p2 e.
Proof. by apply Qpower_0_lt. Qed.
Lemma p2_add a b : p2 (a + b) == p2 a * p2 b.
Proof. by apply Qpower_plus. Qed.
Lemma p2_Z n : (0 <= n)%Z -> inject_Z (2 ^ n) == p2 n.
Proof. intros. by rewrite Zpower_Qpower. Qed.
Lemma p2_le a b : (a <= b)%Z -> p2 a <= p2 b.
Proof. intros. by apply Qpower_le_compat_l. Qed.
Lemma val_shift m e d : (0 <= d)%Z -> val (m * 2 ^ d) e == val m (e + d).
Proof. intros. unfold val. rewrite inject_Z_mult, p2_Z, p2_add by done. ring. Qed.
Lemma val_le m m' e : (m <= m')%Z -> val m e <= val m' e.
Proof.
  intros H. unfold val. pose proof (p2_pos e). apply Qmult_le_compat_r; [|lra]. by rewrite <-Zle_Qle.
Qed.
Lemma val_pos m e : (0 <= m)%Z -> 0 <= val m e.
Proof. intros H. rewrite <-(Qmult_0_l (p2 e)). by apply (val_le 0 m). Qed.
Lemma val_add m m' e : val (m + m') e == val m e + val m' e.
Proof. unfold val. rewrite inject_Z_plus. ring. Qed.

Definition eps : Q := p2 (-52).
Definition tiny : Q := p2 (-1074).
Lemma ulp_bound mx ex :
  (0 <= mx)%Z -> (ex <= first_exponent mx ex)%Z -> p2 (first_exponent mx ex) <= val mx ex * eps + tiny.
Proof.
  intros Hm He. pose proof (val_pos mx ex Hm). pose proof (p2_pos (-52)). unfold eps, tiny.
  assert (0 <= val mx ex * p2 (-52)) by nra. 
  unfold first_exponent, SpecFloat.fexp, emin in *.
  destruct (Z.max_spec (Zdigits2 mx + ex - 53) (3 - 1024 - 53)) as [[_ E]|[Hx E]]; rewrite E in *;
    [change (3 - 1024 - 53)%Z with (-1074)%Z; lra|].
  destruct mx as [|p|p]; cbn [Zdigits2] in *; [lia| |lia]. pose proof (digits_bounds p) as [Hp _].
  pose proof (p2_pos (-1074)).
  assert (val (2 ^ (Z.pos (digits2_pos p) - 1)) ex <= val (Zpos p) ex) as Hv by by apply val_le.
  rewrite <-(Z.mul_1_l (2 ^ _)), val_shift in Hv by lia. unfold val at 1 in Hv.
  replace (Z.pos (digits2_pos p) + ex - 53)%Z with (ex + (Z.pos (digits2_pos p) - 1) + -52)%Z by lia.
  rewrite p2_add. change (inject_Z 1) with 1 in Hv. nra.
Qed.
Lemma round_value mx ex m e :
  (0 <= mx)%Z -> (ex <= first_exponent mx ex)%Z -> (first_exponent mx ex <= e)%Z ->
  (m * 2 ^ (e - first_exponent mx ex) - 1 <= mx / 2 ^ (first_exponent mx ex - ex))%Z ->
  val m e <= val mx ex * (1 + eps) + tiny.
Proof.
  intros Hm He He1 Hle. pose proof (ulp_bound mx ex Hm He) as Hu. set (e1 := first_exponent mx ex) in *. clearbody e1.
  assert (val m e == val (m * 2 ^ (e - e1)) e1) as -> by (rewrite val_shift by lia; f_equiv; f_equal; lia).
  assert (val (m * 2 ^ (e - e1)) e1 <= val (mx / 2 ^ (e1 - ex) + 1) e1) as H1 by (apply val_le; lia).
  rewrite val_add in H1. assert (val 1 e1 == p2 e1) as E1 by (unfold val; ring).
  assert (val (mx / 2 ^ (e1 - ex)) e1 <= val mx ex).
  { replace e1 with (ex + (e1 - ex))%Z at 2 by lia. rewrite <-val_shift by lia. apply val_le.
    rewrite Z.mul_comm. apply Z.mul_div_le. apply Z.pow_pos_nonneg; lia. }
  lra.
Qed.

(** [upto f q]: a number that is not negative, in canonical form, and at most [q]. *)
Definition upto (f : spec_float) (q : Q) : Prop :=
  match f with
  | S754_zero _ => 0 <= q
  | S754_finite false m e => canonical (Zpos m) e /\ (e <= 971)%Z /\ val (Zpos m) e <= q
  | S754_infinity false => p2 1024 <= q
  | _ => False
  end.
Lemma upto_le f q q' : upto f q -> q <= q' -> upto f q'.
Proof. destruct f as [|[]| |[] m e]; cbn; intuition lra. Qed.
Lemma upto_pos f q : upto f q -> 0 <= q.
Proof.
  pose proof (p2_pos 1024). destruct f as [|[]| |[] m e]; cbn; [lra|done|lra|done|done|].
  intros (_ & _ & H1). pose proof (val_pos (Zpos m) e ltac:(lia)). lra.
Qed.
#[export] Instance upto_proper f : Proper (Qeq ==> iff) (upto f).
Proof. intros a b E. split; intros H; (eapply upto_le; [exact H|]); rewrite E; lra. Qed.

Definition rnd (q : Q) : Q := q * (1 + eps) + tiny.
Lemma rnd_le a b : a <= b -> rnd a <= rnd b.
Proof. intros H. unfold rnd. pose proof (p2_pos (-52)). fold eps in *. nra. Qed.
#[export] Instance rnd_proper : Proper (Qeq ==> Qeq) rnd.
Proof. intros a b E. unfold rnd. by rewrite E. Qed.

Lemma round_upto mx ex l :
  (0 <= mx)%Z -> (ex <= first_exponent mx ex)%Z -> upto (round false mx ex l) (rnd (val mx ex)).
Proof.
  intros Hm He. destruct (round_shape false mx ex l Hm He) as (m & e & C & He1 & [Hv _] & ->).
  pose proof (round_value _ _ _ _ Hm He He1 Hv) as Hle. fold (rnd (val mx ex)) in Hle.
  destruct m as [|p|p]; [|destruct (Z.leb_spec e 971)|destruct C; lia].
  - cbn. eapply Qle_trans; [|exact Hle]. by apply val_pos.
  - done.
  - cbn [upto]. eapply Qle_trans; [|exact Hle]. destruct C as (_ & _ & [->|C]); [lia|].
    apply Qle_trans with (val (2 ^ 52) e); [|by apply val_le].
    rewrite <-(Z.mul_1_l (2 ^ 52)), val_shift by lia. unfold val. rewrite Qmult_1_l. apply p2_le. lia.
Qed.
Lemma iter_xO m d : Zpos (Pos.iter xO m d) = (Zpos m * 2 ^ Zpos d)%Z.
Proof.
  induction d as [|d IH] using Pos.peano_ind; [cbn; lia|].
  rewrite Pos.iter_succ, Pos2Z.inj_xO, IH, Pos2Z.inj_succ, Z.pow_succ_r; lia.
Qed.
Lemma digits_xO m d : Zpos (digits2_pos (Pos.iter xO m d)) = (Zpos (digits2_pos m) + Zpos d)%Z.
Proof.
  induction d as [|d IH] using Pos.peano_ind; [cbn; lia|].
  rewrite Pos.iter_succ. cbn [digits2_pos]. lia.
Qed.
Lemma shl_align_spec m e e' :
  let r := shl_align m e e' in
  val (Zpos (fst r)) (snd r) == val (Zpos m) e /\
  (Zpos (digits2_pos (fst r)) + snd r = Zpos (digits2_pos m) + e)%Z /\ snd r = Z.min e e'.
Proof.
  unfold shl_align. destruct (e' - e)%Z as [|d|d] eqn:E; cbn [fst snd]; [split; [done|lia]..|].
  rewrite digits_xO, iter_xO, val_shift by lia. split; [|lia]. f_equiv. f_equal. lia.
Qed.
Lemma normalize_upto m e s : (0 <= m)%Z -> upto (binary_normalize 53 1024 m e s) (rnd (val m e)).
Proof.
  destruct m as [|m|m]; [intros _|intros _|lia].
  - cbn. unfold rnd, val. change (inject_Z 0) with 0. rewrite !Qmult_0_l, Qplus_0_l. unfold tiny. pose proof (p2_pos (-1074)). lra.
  - cbn [binary_normalize]. unfold binary_round.
    destruct (shl_align_spec m e (fexp (Zpos (digits2_pos m) + e))) as (Ev & Ed & Ee).
    destruct (shl_align _ _ _) as [mz ez]. cbn [fst snd] in *. rewrite <-Ev. apply round_upto; [lia|].
    unfold first_exponent. cbn [Zdigits2]. rewrite Ed. lia.
Qed.

Lemma tiny_pos : 0 < tiny.
Proof. apply p2_pos. Qed.
Lemma eps_pos : 0 < eps.
Proof. apply p2_pos. Qed.
Lemma rnd_above q : 0 <= q -> q <= rnd q.
Proof. intros H. pose proof tiny_pos. pose proof eps_pos. unfold rnd. nra. Qed.
Lemma aligned m e e' : (e' <= e)%Z -> val (Zpos (fst (shl_align m e e'))) e' == val (Zpos m) e.
Proof. intros H. destruct (shl_align_spec m e e') as (<- & _ & ->). by rewrite Z.min_r. Qed.

Lemma fadd_upto x y a b : upto x a -> upto y b -> upto (fadd x y) (rnd (a + b)).
Proof.
  intros Hx Hy. pose proof (upto_pos _ _ Hx) as Ha. pose proof (upto_pos _ _ Hy) as Hb.
  pose proof (rnd_above (a + b) ltac:(lra)) as Hr.
  destruct x as [sx|[]| |[] mx ex], y as [sy|[]| |[] my ey]; unfold fadd; cbn [SFadd]; try done.
  1: by destruct sx, sy; apply (upto_le _ (a + b)); cbn; lra.
  1-3, 5-7: eapply upto_le; [eassumption|lra].
  - cbn [upto] in *. lra.
  - destruct Hx as (_ & _ & Hx), Hy as (_ & _ & Hy). cbn [cond_Zopp]. eapply upto_le; [by apply normalize_upto|].
    apply rnd_le. rewrite val_add, !aligned by lia. lra.
Qed.
Lemma fsub_upto x my ey a :
  upto x a -> a < p2 1024 -> (forall q, upto x q -> val (Zpos my) ey <= q) ->
  upto (fsub x (S754_finite false my ey)) (rnd (a - val (Zpos my) ey)).
Proof.
  intros Hx Ha Hge. destruct x as [sx|[]| |[] mx ex]; unfold fsub; cbn [SFsub]; try done.
  - specialize (Hge 0 ltac:(cbn; lra)). pose proof (p2_pos ey). unfold val in Hge.
    assert (0 < inject_Z (Zpos my)) by done. nra.
  - cbn [upto] in Hx. lra.
  - assert (val (Zpos my) ey <= val (Zpos mx) ex) as Hle.
    { apply Hge. destruct Hx as (? & ? & _). split; [done|]. split; [done|lra]. }
    destruct Hx as (_ & _ & Hx). cbn [cond_Zopp]. set (ez := Z.min ex ey).
    assert (val (Zpos (fst (shl_align mx ex ez)) - Zpos (fst (shl_align my ey ez))) ez
      == val (Zpos mx) ex - val (Zpos my) ey) as E.
    { unfold Z.sub. rewrite val_add. rewrite aligned by lia. 
      assert (val (- Zpos (fst (shl_align my ey ez))) ez == - val (Zpos my) ey) as ->; [|lra].
      rewrite <-(aligned my ey ez) by lia. unfold val. rewrite inject_Z_opp. ring. }
    eapply upto_le; [apply normalize_upto|].
    + apply Z.nlt_ge. intros Hlt. pose proof (p2_pos ez).
      assert (val (Z.pos (fst (shl_align mx ex ez)) - Z.pos (fst (shl_align my ey ez))) ez < 0); [|lra].
      unfold val. rewrite Zlt_Qlt in Hlt. change (inject_Z 0) with 0 in Hlt. nra.
    + apply rnd_le. rewrite E. lra.
Qed.
Lemma digits_mul p q : (Zpos (digits2_pos p) + Zpos (digits2_pos q) - 2 < Zpos (digits2_pos (p * q)))%Z.
Proof.
  pose proof (digits_bounds p). pose proof (digits_bounds q).
  replace (Zpos (digits2_pos p) + Zpos (digits2_pos q) - 2)%Z with ((Zpos (digits2_pos p) - 1) + (Zpos (digits2_pos q) - 1))%Z by lia.
  apply digits_ge; [lia|]. rewrite Z.pow_add_r, Pos2Z.inj_mul by lia.
  assert (0 < 2 ^ (Zpos (digits2_pos q) - 1))%Z by (apply Z.pow_pos_nonneg; lia).
  assert (0 < 2 ^ (Zpos (digits2_pos p) - 1))%Z by (apply Z.pow_pos_nonneg; lia). nia.
Qed.
Lemma val_mul m m' e e' : val (m * m') (e + e') == val m e * val m' e'.
Proof. unfold val. rewrite inject_Z_mult, p2_add. ring. Qed.
Lemma fmul_upto x y a b :
  upto x a -> upto y b -> a < p2 1024 -> b < p2 1024 -> upto (fmul x y) (rnd (a * b)).
Proof.
  intros Hx Hy Ha Hb. pose proof (upto_pos _ _ Hx) as Ha0. pose proof (upto_pos _ _ Hy) as Hb0.
  pose proof (rnd_above (a * b) ltac:(nra)) as Hr.
  destruct x as [sx|[]| |[] mx ex], y as [sy|[]| |[] my ey]; unfold fmul; cbn [SFmul]; try done;
    cbn [upto] in Hx, Hy; try lra; try (cbn; nra).
  destruct Hx as (Cx & _ & Hx), Hy as (Cy & _ & Hy).
  pose proof (canonical_mantissa_spec _ _ Cx) as Ex%Z.eqb_eq. pose proof (canonical_mantissa_spec _ _ Cy) as Ey%Z.eqb_eq.
  eapply upto_le; [apply round_upto; [lia|]|].
  - unfold first_exponent. cbn [Zdigits2]. pose proof (digits_mul mx my). unfold SpecFloat.fexp, emin in *.
    destruct Cx as (_ & ? & [?|?]), Cy as (_ & ? & [?|?]); lia.
  - apply rnd_le. rewrite Pos2Z.inj_mul, val_mul.
    pose proof (val_pos (Zpos mx) ex ltac:(lia)). pose proof (val_pos (Zpos my) ey ltac:(lia)). nra.
Qed.

Lemma div_exponent m1 m2 s :
  (0 <= s)%Z -> (0 < Zpos m1 * 2 ^ s / Zpos m2)%Z ->
  (Zpos (digits2_pos m1) + s - Zpos (digits2_pos m2) <= Zdigits2 (Zpos m1 * 2 ^ s / Zpos m2))%Z.
Proof.
  intros Hs Hq. destruct (Zpos m1 * 2 ^ s / Zpos m2)%Z as [|q|q] eqn:E; [lia| |lia]. cbn [Zdigits2].
  pose proof (digits_bounds m1) as [H1 _]. pose proof (digits_bounds m2) as [_ H2]. pose proof (digits_bounds q) as [_ H3].
  assert (Zpos m1 * 2 ^ s < Zpos m2 * (Zpos q + 1))%Z as Hlt.
  { rewrite <-E. pose proof (Z.mul_succ_div_gt (Zpos m1 * 2 ^ s) (Zpos m2) ltac:(lia)). lia. }
  apply Z.nlt_ge. intros Hc.
  assert (2 ^ (Zpos (digits2_pos q) + Zpos (digits2_pos m2)) <= 2 ^ (Zpos (digits2_pos m1) - 1 + s))%Z as Hp by (apply Z.pow_le_mono_r; lia).
  rewrite !Z.pow_add_r in Hp by lia. assert (0 < 2 ^ s)%Z by (apply Z.pow_pos_nonneg; lia). nia.
Qed.
Lemma fdiv_upto x my ey a :
  upto x a -> a < p2 1024 -> upto (fdiv x (S754_finite false my ey)) (rnd (a / val (Zpos my) ey)).
Proof.
  intros Hx Ha. pose proof (upto_pos _ _ Hx) as Ha0.
  assert (0 < val (Zpos my) ey) as Hy by (unfold val; pose proof (p2_pos ey); assert (0 < inject_Z (Zpos my)) by done; nra).
  assert (0 <= a / val (Zpos my) ey) as Hd by (apply Qle_shift_div_l; [done|lra]).
  pose proof (rnd_above _ Hd) as Hr.
  destruct x as [sx|[]| |[] mx ex]; unfold fdiv; cbn [SFdiv]; try done; [cbn; lra|cbn [upto] in Hx; lra|].
  destruct Hx as (_ & _ & Hx). unfold SFdiv_core_binary. cbn [Zdigits2 xorb].
  set (k := (Zpos (digits2_pos mx) + ex - (Zpos (digits2_pos my) + ey))%Z).
  set (e' := Z.min (fexp k) (ex - ey)). set (s := (ex - ey - e')%Z).
  assert (0 <= s)%Z as Hs by lia.
  assert (match s with Z0 => Zpos mx | Zpos _ => Z.shiftl (Zpos mx) s | Zneg _ => Z0 end = (Zpos mx * 2 ^ s)%Z) as ->.
  { rewrite <-Z.shiftl_mul_pow2 by done. destruct s; [done|done|lia]. }
  pose proof (Z.div_eucl_eq (Zpos mx * 2 ^ s) (Zpos my) ltac:(lia)) as Eq.
  pose proof (Z.mod_pos_bound (Zpos mx * 2 ^ s) (Zpos my) ltac:(lia)) as Hmod.
  pose proof (div_exponent mx my s Hs) as Hex.
  unfold Z.div, Z.modulo in *. destruct (Z.div_eucl _ _) as [q r]. 
  assert (0 <= q)%Z as Hq by nia.
  eapply upto_le; [apply round_upto; [done|]|apply rnd_le].
  - unfold first_exponent. destruct (Z.eq_dec q 0%Z) as [->|Hne].
    + cbn [Zdigits2]. unfold SpecFloat.fexp, emin in *. pose proof (digits_bounds mx). pose proof (digits_bounds my).
      assert (2 ^ (Zpos (digits2_pos mx) - 1 + s) < 2 ^ Zpos (digits2_pos my))%Z as Hlt.
      { rewrite Z.pow_add_r by lia. assert (0 < 2 ^ s)%Z by (apply Z.pow_pos_nonneg; lia). nia. }
      apply Z.pow_lt_mono_r_iff in Hlt; [|lia..]. lia.
    + specialize (Hex ltac:(lia)). unfold SpecFloat.fexp, emin in *. lia.
  - apply Qle_shift_div_l; [done|]. rewrite Qmult_comm, <-val_mul.
    apply Qle_trans with (val (Zpos mx) ex); [|done].
    assert (val (Zpos mx) ex == val (Zpos mx * 2 ^ s) (ey + e')) as -> by (rewrite val_shift by done; f_equiv; f_equal; lia).
    apply val_le. nia.
Qed.

(** Comparison of two numbers. *)
Lemma finite_below m e : canonical (Zpos m) e -> (e <= 971)%Z -> val (Zpos m) e <= p2 1024.
Proof.
  intros [[_ Hm] _] He. apply Qle_trans with (val (2 ^ 53) e); [apply val_le; lia|].
  rewrite <-(Z.mul_1_l (2 ^ 53)), val_shift by lia. unfold val. rewrite Qmult_1_l. apply p2_le. lia.
Qed.
Lemma val_lt m m' e : (m < m')%Z -> val m e < val m' e.
Proof.
  intros H. unfold val. pose proof (p2_pos e). rewrite Zlt_Qlt in H. nra.
Qed.
Lemma val_exponents_lt m1 e1 m2 e2 :
  canonical m1 e1 -> canonical m2 e2 -> (e1 < e2)%Z -> val m1 e1 < val m2 e2.
Proof.
  intros [[_ H1] [He1 _]] (_ & _ & H2) He. destruct H2 as [->|H2]; [lia|].
  apply Qlt_le_trans with (val (2 ^ 53) e1); [apply val_lt; lia|].
  apply Qle_trans with (val (2 ^ 52) e2); [|by apply val_le].
  rewrite <-(Z.mul_1_l (2 ^ 53)), <-(Z.mul_1_l (2 ^ 52)), !val_shift by lia. unfold val. rewrite !Qmult_1_l. apply p2_le. lia.
Qed.
Lemma val_exponents m1 e1 m2 e2 :
  canonical m1 e1 -> canonical m2 e2 -> (e1 < e2)%Z -> val m1 e1 <= val m2 e2.
Proof. intros. by apply Qlt_le_weak, val_exponents_lt. Qed.
Lemma fltb_true x y a b : fltb x y = true -> upto x a -> upto y b -> upto x b.
Proof.
  unfold fltb, SFltb. intros Hlt Hx Hy. pose proof (upto_pos _ _ Hy) as Hb.
  destruct x as [sx|[]| |[] mx ex], y as [sy|[]| |[] my ey]; try done; cbn [SFcompare upto] in *; try lra.
  - destruct Hx as (Cx & Ex & _). split; [done|]. split; [done|]. pose proof (finite_below _ _ Cx Ex). lra.
  - destruct Hx as (Cx & Ex & _), Hy as (Cy & Ey & Hy). split; [done|]. split; [done|].
    eapply Qle_trans; [|exact Hy]. destruct (Z.compare_spec ex ey) as [->|He|He]; [|by apply val_exponents|done].
    destruct (Pos.compare_cont Eq mx my) eqn:E; try done. apply val_le.
    apply Z.lt_le_incl. exact E.
Qed.
Lemma fltb_false x y a b : fltb x y = false -> upto x a -> upto y b -> upto y a.
Proof.
  unfold fltb, SFltb. intros Hlt Hx Hy. pose proof (upto_pos _ _ Hx) as Ha.
  destruct x as [sx|[]| |[] mx ex], y as [sy|[]| |[] my ey]; try done; cbn [SFcompare upto] in *; try lra.
  - destruct Hy as (Cy & Ey & _). split; [done|]. split; [done|]. pose proof (finite_below _ _ Cy Ey). lra.
  - destruct Hy as (Cy & Ey & _), Hx as (Cx & Ex & Hx). split; [done|]. split; [done|].
    eapply Qle_trans; [|exact Hx]. destruct (Z.compare_spec ex ey) as [->|He|He]; [|done|by apply val_exponents].
    apply val_le, Z.le_ngt. intros E. change (Pos.compare_cont Eq mx my = Lt) in E. by rewrite E in Hlt.
Qed.

(** ** Lower bounds

    Rounding never goes below a number that the exact result reaches. *)
Definition atleast (f : spec_float) (q : Q) : Prop := forall q', upto f q' -> q <= q'.

Lemma val_le_inv m m' e : val m e <= val m' e -> (m <= m')%Z.
Proof. intros H. apply Z.nlt_ge. intros Hlt%(val_lt _ _ e). lra. Qed.
Lemma round_reaches m0 e0 mx ex m e :
  canonical m0 e0 -> canonical m e -> val m0 e0 <= val mx ex ->
  (ex <= first_exponent mx ex <= e)%Z ->
  (mx / 2 ^ (first_exponent mx ex - ex) <= m * 2 ^ (e - first_exponent mx ex))%Z -> val m0 e0 <= val m e.
Proof.
  intros C0 C Hle He Hm. set (e1 := first_exponent mx ex) in *. clearbody e1.
  destruct (Z.le_gt_cases e1 e0) as [H|H]; [|apply val_exponents; [done|done|lia]].
  assert (val m e == val (m * 2 ^ (e - e1)) e1) as -> by (rewrite val_shift by lia; f_equiv; f_equal; lia).
  assert (val m0 e0 == val (m0 * 2 ^ (e0 - e1)) e1) as E0 by (rewrite val_shift by lia; f_equiv; f_equal; lia).
  rewrite E0 in *. apply val_le. etransitivity; [|exact Hm].
  apply Z.div_le_lower_bound; [apply Z.pow_pos_nonneg; lia|]. apply (val_le_inv _ _ ex).
  rewrite Z.mul_comm, val_shift by lia. by replace (ex + (e1 - ex))%Z with e1 by lia.
Qed.
Lemma round_atleast m0 e0 mx ex l :
  canonical m0 e0 -> (e0 <= 971)%Z -> (0 <= mx)%Z -> (ex <= first_exponent mx ex)%Z ->
  val m0 e0 <= val mx ex -> atleast (round false mx ex l) (val m0 e0).
Proof.
  intros C0 H0 Hm He Hle. destruct (round_shape false mx ex l Hm He) as (m & e & C & He1 & [_ Hv] & ->).
  pose proof (round_reaches _ _ _ _ _ _ C0 C Hle (conj He He1) Hv) as Hr. intros q.
  destruct m as [|p|p]; [|destruct (Z.leb_spec e 971)|destruct C; lia]; cbn [upto].
  - assert (val 0 e == 0) by (unfold val; ring). lra.
  - intros (_ & _ & Hq). lra.
  - assert (val m0 e0 <= p2 1024); [|lra]. destruct m0 as [|p0|p0]; [|by apply finite_below|destruct C0; lia].
    assert (val 0 e0 == 0) by (unfold val; ring). pose proof (p2_pos 1024). lra.
Qed.
Lemma normalize_atleast m0 e0 m e s :
  canonical m0 e0 -> (e0 <= 971)%Z -> (0 <= m)%Z -> val m0 e0 <= val m e ->
  atleast (binary_normalize 53 1024 m e s) (val m0 e0).
Proof.
  intros C0 H0 Hm Hle. destruct m as [|m|m]; [|clear Hm|lia].
  - intros q Hq. assert (val 0 e == 0) by (unfold val; ring). cbn [binary_normalize upto] in Hq. lra.
  - cbn [binary_normalize]. unfold binary_round.
    destruct (shl_align_spec m e (fexp (Zpos (digits2_pos m) + e))) as (Ev & Ed & Ee).
    destruct (shl_align _ _ _) as [mz ez]. cbn [fst snd] in *. apply round_atleast; [done|done|lia| |by rewrite Ev].
    unfold first_exponent. cbn [Zdigits2]. rewrite Ed. lia.
Qed.
Lemma fadd_atleast m0 e0 x y a b :
  canonical (Zpos m0) e0 -> (e0 <= 971)%Z -> upto x a -> upto y b ->
  atleast x (val (Zpos m0) e0) -> atleast (fadd x y) (val (Zpos m0) e0).
Proof.
  intros C0 H0 Hx Hy H. pose proof (finite_below _ _ C0 H0) as Hinf.
  assert (0 < val (Zpos m0) e0) as Hpos.
  { pose proof (val_lt 0 (Zpos m0) e0 ltac:(lia)). assert (val 0 e0 == 0) by (unfold val; ring). lra. }
  destruct x as [sx|[]| |[] mx ex], y as [sy|[]| |[] my ey]; unfold fadd; cbn [SFadd]; try done.
  1-3: specialize (H 0 ltac:(cbn; lra)); lra.
  - intros q Hq. cbn [upto] in Hq. lra.
  - destruct Hx as (Cx & Ex & _), Hy as (_ & _ & _). cbn [cond_Zopp]. apply normalize_atleast; [done|done|lia|].
    specialize (H (val (Zpos mx) ex) ltac:(split; [done|split; [done|lra]])).
    rewrite val_add, !aligned by lia. pose proof (val_pos (Zpos my) ey ltac:(lia)). lra.
Qed.
Lemma fltb_atleast m0 e0 x a :
  canonical (Zpos m0) e0 -> upto x a -> atleast x (val (Zpos m0) e0) -> fltb x (S754_finite false m0 e0) = false.
Proof.
  intros C0 Hx H. apply not_true_is_false. intros Hlt. unfold fltb, SFltb in Hlt.
  destruct x as [sx|[]| |[] mx ex]; try done; cbn [SFcompare] in Hlt.
  - specialize (H 0 ltac:(cbn; lra)). pose proof (val_lt 0 (Zpos m0) e0 ltac:(lia)). assert (val 0 e0 == 0) by (unfold val; ring). lra.
  - destruct Hx as (Cx & Ex & _). specialize (H (val (Zpos mx) ex) ltac:(split; [done|split; [done|lra]])).
    destruct (Z.compare_spec ex e0) as [->|He|He]; [| |done].
    + apply val_le_inv in H. destruct (Pos.compare_cont Eq mx m0) eqn:E; try done.
      assert (Zpos mx < Zpos m0)%Z by exact E. lia.
    + pose proof (val_exponents_lt _ _ _ _ Cx C0 He). lra.
Qed.

(** ** Whole numbers and seconds *)

Lemma float64_of_upto z : (0 <= z)%Z -> upto (float64_of z) (rnd (inject_Z z)).
Proof.
  intros H. eapply upto_le; [by apply normalize_upto|]. apply rnd_le. unfold val. rewrite Qmult_1_r. lra.
Qed.
Lemma to_int_upto x q : upto x q -> q < p2 63 -> (0 <= to_int x)%Z /\ inject_Z (to_int x) <= q.
Proof.
  intros Hx Hq. destruct x as [sx|[]| |[] m e]; try done; cbn [to_int upto] in *.
  - assert (p2 63 <= p2 1024) by by apply p2_le. lra.
  - destruct Hx as (_ & _ & Hx). cbn [cond_Zopp]. set (v := Z.shiftl (Zpos m) e).
    assert (0 <= v)%Z by by apply Z.shiftl_nonneg.
    assert (inject_Z v <= val (Zpos m) e) as Hv.
    { unfold v. destruct (Z.le_gt_cases 0 e).
      - rewrite Z.shiftl_mul_pow2, inject_Z_mult, p2_Z by done. unfold val. lra.
      - rewrite Z.shiftl_div_pow2 by lia.
        assert (val (Zpos m / 2 ^ (- e)) 0 == inject_Z (Zpos m / 2 ^ (- e))) as <- by (unfold val; apply Qmult_1_r).
        replace 0%Z with (e + - e)%Z by lia. rewrite <-val_shift by lia. apply val_le. rewrite Z.mul_comm.
        apply Z.mul_div_le, Z.pow_pos_nonneg; lia. }
    assert (v < 2 ^ 63)%Z.
    { rewrite Zlt_Qlt, p2_Z by lia. lra. }
    destruct ((- 2 ^ 63 <=? v)%Z && (v <? 2 ^ 63)%Z) eqn:E; [split; [done|lra]|lia].
Qed.
Lemma billion : exists m e, float64_of 1000000000 = S754_finite false m e /\ val (Zpos m) e == 1000000000.
Proof. do 2 eexists. split; [vm_compute; reflexivity|]. vm_compute. reflexivity. Qed.

Lemma one : exists m e, float64_of 1 = S754_finite false m e /\ val (Zpos m) e == 1 /\ upto (S754_finite false m e) 1.
Proof.
  do 2 eexists. split; [vm_compute; reflexivity|]. split; [vm_compute; reflexivity|].
  split; [repeat split; try lia; right; lia|]. split; [lia|]. by vm_compute.
Qed.
Lemma float64_of_atleast z : (1 <= z)%Z -> atleast (float64_of z) 1.
Proof.
  intros H. assert (val (2 ^ 52) (-52) == 1) as E by reflexivity. intros q Hq. rewrite <-E.
  revert q Hq. apply normalize_atleast; [split; [lia|split; [lia|right; lia]]|lia|lia|]. rewrite E. unfold val. rewrite Qmult_1_r.
  rewrite Zle_Qle in H. exact H.
Qed.
Lemma eps_eq : eps == 1 # 4503599627370496.
Proof. reflexivity. Qed.
Lemma tiny_eps : tiny <= eps * eps * eps.
Proof.
  unfold tiny, eps. change (-1074)%Z with (-52 + -52 + -52 + -918)%Z. rewrite !p2_add.
  assert (p2 (-918) <= 1) by (apply (p2_le (-918) 0); lia). pose proof (p2_pos (-52)).
  assert (0 < p2 (-52) * p2 (-52) * p2 (-52)) by (repeat apply Qmult_lt_0_compat; done). nra.
Qed.
Lemma rnd_finite q : q <= p2 100 -> rnd q < p2 1024.
Proof.
  intros Hq. unfold rnd. pose proof tiny_eps. pose proof eps_pos.
  assert (p2 1024 == p2 100 * p2 924) as -> by exact (p2_add 100 924).
  assert (4 <= p2 924) by (apply (p2_le 2 924); lia). pose proof (p2_pos 100).
  assert (1 <= p2 100) by (apply (p2_le 0 100); lia). rewrite eps_eq in *. nra.
Qed.

(** The seconds of a duration, as the code computes them. *)
Lemma Seconds_upto d :
  (0 <= d < 2 ^ 63)%Z -> upto (Seconds d) (inject_Z d / 1000000000 * (1 + 4 * eps) + 5 * tiny).
Proof.
  intros Hd. unfold Seconds. destruct billion as (m & e & -> & Eb).
  pose proof (Z.quot_rem' d 1000000000) as E. rewrite Z.quot_div_nonneg, Z.rem_mod_nonneg in * by lia.
  pose proof (Z.mod_pos_bound d 1000000000 ltac:(lia)) as Hr.
  pose proof (Z.div_pos d 1000000000 ltac:(lia) ltac:(lia)) as Hq.
  set (q := (d / 1000000000)%Z) in *. set (r := (d mod 1000000000)%Z) in *. clearbody q r. subst d.
  assert (0 <= inject_Z q) as Hq' by by rewrite <-(Zle_Qle 0).
  assert (0 <= inject_Z r) as Hr0 by (rewrite <-(Zle_Qle 0); lia).
  assert (inject_Z r <= p2 100) as Hr1 by (rewrite <-p2_Z, <-Zle_Qle by lia; lia).
  eapply upto_le.
  { apply fadd_upto; [by apply float64_of_upto|]. apply fdiv_upto; [by apply float64_of_upto, Hr|].
    by apply rnd_finite. }
  rewrite Eb, inject_Z_plus, inject_Z_mult. change (inject_Z 1000000000) with 1000000000.
  unfold rnd. pose proof tiny_pos. pose proof eps_pos. set (x := inject_Z q) in *. set (y := inject_Z r) in *.
  assert ((1000000000 * x + y) / 1000000000 == x + y / 1000000000) as -> by field.
  assert ((y * (1 + eps) + tiny) / 1000000000 == y / 1000000000 * (1 + eps) + tiny / 1000000000) as -> by field.
  assert (0 <= y / 1000000000) by (apply Qle_shift_div_l; lra). set (z := y / 1000000000) in *.
  assert (tiny / 1000000000 <= tiny) by (apply Qle_shift_div_r; lra). set (t := tiny / 1000000000) in *.
  clearbody x z t. rewrite eps_eq in *. nra.
Qed.

End Binary64.
