(* ===== verification/Crypto.v ===== *)
(** * Digests, canonical JSON and signatures (pkg/crypto/hash.go, sign.go)

    SHA-512 on 64-bit words, the canonicalisation the data-integrity proofs
    sign, and the Ed25519 wrappers that sign a digest. *)

From S2P Require Import Prelude GoStd World Sha Base64 Json JsonValue Jwt.
Import JsonValue.

(** strconv: the number a JSON literal denotes as a float64, written back the
    way encoding/json writes it, [None] when it is out of range; and the
    conversion of such a number to int64. *)
Class Float64 := {
  float64 : list byte → option (list byte);
  float_int64 : list byte → Z }.

Module Sha512.
Local Open Scope N_scope.

Definition w64 (x : N) : N := N.land x 0xffffffffffffffff.
Definition add64 (a b : N) : N := w64 (a + b).
Definition not64 (a : N) : N := N.lxor a 0xffffffffffffffff.
Definition rotr64 (k x : N) : N := w64 (N.lor (N.shiftr x k) (N.shiftl x (64 - k))).
Definition bytes_of_word64 (x : N) : list byte :=
  Sha.bytes_of_word (N.shiftr x 32) ++ Sha.bytes_of_word (Sha.w32 x).
Fixpoint words64 (l : list N) : list N :=
  match l with
  | hi :: lo :: l' => N.lor (N.shiftl hi 32) lo :: words64 l'
  | _ => []
  end.

(** Padding to 128-byte blocks with a 16-byte length. *)
Definition pad (l : list byte) : list byte :=
  let n := length l in
  l ++ x80 :: replicate ((239 - n mod 128) mod 128)%nat x00 ++ replicate 8 x00 ++ Sha.be64 (8 * N.of_nat n).
Fixpoint blocks (fuel : nat) (l : list byte) : list (list N) :=
  match fuel, l with
  | S fuel', _ :: _ => words64 (Sha.words_of (take 128 l)) :: blocks fuel' (drop 128 l)
  | _, _ => []
  end.

(** The constants: 64 bits of the fractional parts of the cube roots of the first 80
    primes and of the square roots of the first eight. *)
Definition primes : list N :=
  filter (λ n, forallb (λ d, negb (n mod N.of_nat d =? 0)) (seq 2 (N.to_nat n - 2)) = true)
    (N.of_nat <$> seq 2 408).
Definition frac_bits (e prime : N) : N := w64 (Sha.iroot 72 e (prime * 2 ^ (64 * e)) 0).
Definition K512 : list N := Eval vm_compute in frac_bits 3 <$> primes.
Definition H512 : list N := Eval vm_compute in frac_bits 2 <$> take 8 primes.

Definition sigma0 x := N.lxor (rotr64 1 x) (N.lxor (rotr64 8 x) (N.shiftr x 7)).
Definition sigma1 x := N.lxor (rotr64 19 x) (N.lxor (rotr64 61 x) (N.shiftr x 6)).
Definition Sigma0 x := N.lxor (rotr64 28 x) (N.lxor (rotr64 34 x) (rotr64 39 x)).
Definition Sigma1 x := N.lxor (rotr64 14 x) (N.lxor (rotr64 18 x) (rotr64 41 x)).
Definition ch x y z := N.lxor (N.land x y) (N.land (not64 x) z).

Fixpoint schedule (n : nat) (win : list N) : list N :=
  match n, win with
  | S n', w0 :: rest =>
      let w16 := add64 (add64 (sigma1 (nth 13 rest 0)) (nth 8 rest 0)) (add64 (sigma0 (nth 0 rest 0)) w0) in
      w0 :: schedule n' (rest ++ [w16])
  | _, _ => []
  end.
Definition round (st : list N) (kw : N * N) : list N :=
  match st with
  | [a; b; c; d; e; f; g; h] =>
      let t1 := add64 h (add64 (Sigma1 e) (add64 (ch e f g) (add64 kw.1 kw.2))) in
      let t2 := add64 (Sigma0 a) (Sha.maj a b c) in
      [add64 t1 t2; a; b; c; add64 d t1; e; f; g]
  | _ => st
  end.
Definition compress (st blk : list N) : list N :=
  zip_with add64 st (foldl round st (zip K512 (schedule 80 blk))).
Definition Sum512 (l : list byte) : list byte :=
  let p := pad l in
  mjoin (bytes_of_word64 <$> foldl compress H512 (blocks (length p) p)).

Example sha512_abc :
  Sha.hex (Sum512 (bytes_of "abc")) =
  "ddaf35a193617abacc417349ae20413112e6fa4e89a97ea20a9eeee64b55d39a2192992a274fc1a836ba3c23a3feebbd454d4423643ce80e2a9ac94fa54ca49f".
Proof. vm_compute. reflexivity. Qed.
Example sha512_empty :
  Sha.hex (Sum512 []) =
  "cf83e1357eefb8bdf1542850d66d8007d620e4050b5715dc83f4a921d36ce9ce47d0d13c5d85f2b0ff8318d2877eec2f63b931bd47417a81a538327af927da3e".
Proof. vm_compute. reflexivity. Qed.
End Sha512.

Module Crypto.

Section Canonical.
Context `{Float64}.

(** What decoding into [any] keeps of a value: numbers become float64, objects
    become maps, in which the last of two members with one name wins and whose
    keys [Marshal] sorts.  Integers of at most 53 bits are exact. *)
Definition float_of (t : list byte) : option json :=
  t' ← float64 t;
  match read_num t' with Some v => Some v | None => Some (JNumber t') end.
Fixpoint any_of (v : json) : option json :=
  match v with
  | JInt z => if (Z.abs z <=? 2 ^ 53)%Z then Some (JInt z) else float_of (num z)
  | JNumber t => float_of t
  | JArr l => JArr <$> foldr (λ x acc, y ← any_of x; l' ← acc; Some (y :: l')) (Some []) l
  | JObj l =>
      (λ l', JObj (of_pairs l')) <$>
      foldr (λ kv acc, y ← any_of kv.2; l' ← acc; Some ((kv.1, y) :: l')) (Some []) l
  | v => Some v
  end.
(** [json.Unmarshal(raw, &v)] for [var v any]. *)
Definition unmarshal_any (raw : list byte) : result json :=
  match parse raw with
  | None => Err (ErrMsg "invalid character")
  | Some v => of_option (ErrMsg "json: cannot unmarshal number into Go value of type float64") (any_of v)
  end.

(** [v] is the value with [json.Marshal]'s view of it, or nothing when marshalling fails. *)
Definition marshal_err : error := ErrMsg "json: error calling MarshalJSON".
Definition JCS (v : option json) : result (list byte) :=
  match v with
  | None => Err (ErrWrap "jcs marshal" marshal_err)
  | Some v =>
      match unmarshal_any (marshal v) with
      | Err e => Err (ErrWrap "jcs unmarshal" e)
      | Ok canonical => Ok (marshal canonical)
      end
  end.
End Canonical.

Definition SHA256Hex (data : list byte) : string := Sha.hex (Sha.Sum256 data).
Definition SHA512B64 (data : list byte) : string := Base64.EncodeToString (Sha512.Sum512 data).
Definition CanonicalJSON (v : option json) : result (list byte) :=
  wrap_err "canonical json" (of_option marshal_err (marshal <$> v)).
Definition HashJSON (v : option json) : result string := SHA512B64 <$> CanonicalJSON v.

Section Signatures.
Context `{Ed25519}.
Definition Sign (key payload : list byte) : list byte := ed_sign key (Sha512.Sum512 payload).
Definition Verify (pub payload sig : list byte) : result unit :=
  if negb (ed_verify pub (Sha512.Sum512 payload) sig) then Err (ErrMsg "invalid signature") else Ok tt.
Definition SignJSON (key : list byte) (v : option json) : result (list byte) :=
  match v with
  | None => Err (ErrWrap "marshal" marshal_err)
  | Some v => Ok (Sign key (marshal v))
  end.
Definition VerifyJSON (pub : list byte) (v : option json) (sig : list byte) : result unit :=
  match v with
  | None => Err (ErrWrap "marshal" marshal_err)
  | Some v => Verify pub (marshal v) sig
  end.

Lemma Verify_Sign `{!Ed25519Ok} key payload :
  length key = 64 → Verify (ed_public key) payload (Sign key payload) = Ok tt.
Proof. intros Hk. unfold Verify, Sign. by rewrite ed_verify_sign. Qed.
Lemma VerifyJSON_SignJSON `{!Ed25519Ok} key v sig :
  length key = 64 → SignJSON key v = Ok sig → VerifyJSON (ed_public key) v sig = Ok tt.
Proof. intros Hk. destruct v; simpl; intros [= <-]. by apply Verify_Sign. Qed.
End Signatures.
End Crypto.
