(* ===== verification/Canonical.v ===== *)
(** * Canonical JSON determines the document

    The canonical form sorts members and reads numbers as floats; on documents
    whose strings are UTF-8 and whose integers are exact, two documents with one
    canonical form have the same members. *)

From S2P Require Import Prelude GoStd Json JsonValue Jwt Crypto.
Import Json JsonValue Crypto.

Module Canonical.

(** Integers that a float64 holds exactly. *)
Fixpoint exact (v : json) : Prop :=
  match v with
  | JInt z => (0 ≤ z ≤ 2 ^ 53)%Z
  | JArr l => foldr (λ x P, exact x ∧ P) True l
  | JObj l => foldr (λ kv P, exact kv.2 ∧ P) True l
  | _ => True
  end.
Definition clean (v : json) : Prop := wf v ∧ exact v.

(** The last member with a name. *)
Definition alook (k : string) (l : list (string * json)) : option json :=
  foldr (λ kv acc, match acc with Some v => Some v | None => if k =s kv.1 then Some kv.2 else None end) None l.

Lemma alook_app k l1 l2 :
  alook k (l1 ++ l2) = match alook k l2 with Some v => Some v | None => alook k l1 end.
Proof. induction l1 as [|kv l1 IH]; simpl; [by destruct (alook k l2)|]. rewrite IH. by destruct (alook k l2). Qed.

Lemma aget_of_pairs k l : aget k (of_pairs l) = alook k l.
Proof.
  unfold of_pairs. induction l as [|[k' v] l IH] using rev_ind; [done|].
  rewrite foldl_snoc, alook_app. simpl. destruct (String.eqb_spec k k') as [->|Hne].
  - apply aget_aset_eq.
  - by rewrite aget_aset_ne.
Qed.

Lemma alook_elem k v l : NoDup l.*1 → (k, v) ∈ l → alook k l = Some v.
Proof.
  induction l as [|[k' v'] l IH]; [by intros _ ?%elem_of_nil|]. simpl.
  intros [Hk Hn]%NoDup_cons [[= -> ->]|Hin]%elem_of_cons.
  - destruct (alook k' l) as [v|] eqn:E; [|by rewrite String.eqb_refl].
    exfalso. apply Hk. clear -E. induction l as [|[k2 v2] l IH]; [done|]. simpl in *.
    destruct (alook k' l) as [v'|]; [right; by apply IH|].
    destruct (String.eqb_spec k' k2) as [->|]; [left|done].
  - by rewrite IH.
Qed.
Lemma alook_notin k l : k ∉ l.*1 → alook k l = None.
Proof.
  induction l as [|[k' v'] l IH]; [done|]. simpl. intros [Hne Hni]%not_elem_of_cons.
  rewrite IH by done. by destruct (String.eqb_spec k k').
Qed.

(** ** Objects with sorted members *)

Lemma Forall_aset {A} (P : string * A → Prop) k v l : P (k, v) → Forall P l → Forall P (aset k v l).
Proof.
  intros Hk. induction 1 as [|[k' v'] l Hx Hl IH]; simpl; [by constructor|].
  destruct (k =s k'); [by constructor|]. destruct (key_lt k k'); by repeat constructor.
Qed.
Lemma Forall_foldl_aset {A} (P : string * A → Prop) l acc :
  Forall P l → Forall P acc → Forall P (foldl (λ acc kv, aset kv.1 kv.2 acc) acc l).
Proof.
  intros Hl. revert acc. induction Hl as [|[k v] l Hk _ IH]; intros acc Ha; [done|]. simpl.
  by apply IH, Forall_aset.
Qed.

Lemma key_lt_trans a b c : key_lt a b = true → key_lt b c = true → key_lt a c = true.
Proof.
  unfold key_lt, String.ltb. revert b c. induction a as [|x a IH]; intros [|y b] [|z c]; simpl; try done.
  unfold Ascii.compare. specialize (IH b c).
  destruct (N.compare_spec (Ascii.N_of_ascii x) (Ascii.N_of_ascii y)) as [E1|E1|E1];
    destruct (N.compare_spec (Ascii.N_of_ascii y) (Ascii.N_of_ascii z)) as [E2|E2|E2];
    destruct (N.compare_spec (Ascii.N_of_ascii x) (Ascii.N_of_ascii z)) as [E3|E3|E3]; try done; lia.
Qed.
Lemma key_lt_irrefl a : key_lt a a = false.
Proof.
  unfold key_lt, String.ltb. destruct (String.compare a a) eqn:E; [done| |done].
  pose proof (String.compare_antisym a a) as Ha. rewrite E in Ha. done.
Qed.
Lemma key_lt_total a b : a ≠ b → key_lt a b = false → key_lt b a = true.
Proof.
  unfold key_lt, String.ltb. rewrite (String.compare_antisym b a). intros Hne.
  destruct (String.compare a b) eqn:E; simpl; try done. intros _. by apply String.compare_eq_iff in E.
Qed.

Section Sorted.
Context {A : Type}.
Implicit Types l : list (string * A).
(** Every name is above [k]. *)
Definition above (k : string) l : Prop := Forall (λ kv, key_lt k kv.1 = true) l.
Fixpoint ksorted l : Prop :=
  match l with [] => True | kv :: l' => above kv.1 l' ∧ ksorted l' end.

Lemma above_trans k k' l : key_lt k k' = true → above k' l → above k l.
Proof. intros H Hl. eapply Forall_impl; [exact Hl|]. simpl. intros. by eapply key_lt_trans. Qed.
Lemma above_aset k k' v l : above k l → key_lt k k' = true → above k (aset k' v l).
Proof.
  intros Hl Hk. induction Hl as [|[k2 v2] l H2 Hl IH]; simpl; [by constructor|].
  destruct (k' =s k2); [by constructor|]. destruct (key_lt k' k2); by repeat constructor.
Qed.
Lemma ksorted_aset k v l : ksorted l → ksorted (aset k v l).
Proof.
  induction l as [|[k' v'] l IH]; simpl; [repeat constructor|]. intros [Ha Hs].
  destruct (String.eqb_spec k k') as [->|Hne]; [done|].
  destruct (key_lt k k') eqn:E; simpl.
  - split_and!; [|done..]. constructor; [done|]. by eapply above_trans.
  - split; [|by apply IH]. apply above_aset; [done|]. by apply key_lt_total.
Qed.
Lemma ksorted_foldl l acc : ksorted acc → ksorted (foldl (λ acc kv, aset kv.1 kv.2 acc) acc l).
Proof. revert acc. induction l as [|kv l IH]; intros acc Ha; [done|]. simpl. by apply IH, ksorted_aset. Qed.
Lemma ksorted_of_pairs l : ksorted (of_pairs l).
Proof. by apply ksorted_foldl. Qed.

Lemma aset_above k v l : above k l → aset k v l = (k, v) :: l.
Proof.
  destruct 1 as [|[k' v'] l Hk _]; [done|]. simpl in *.
  destruct (String.eqb_spec k k') as [->|]; [by rewrite key_lt_irrefl in Hk|]. by rewrite Hk.
Qed.
(** A sorted list is the object it describes. *)
Lemma aset_snoc k v l : ksorted (l ++ [(k, v)]) → aset k v l = l ++ [(k, v)].
Proof.
  induction l as [|[k' v'] l IH]; [done|]. simpl. intros [Ha Hs].
  assert (key_lt k' k = true) as Hk.
  { unfold above in Ha. rewrite Forall_app, Forall_singleton in Ha. by destruct Ha. }
  destruct (String.eqb_spec k k') as [->|]; [by rewrite key_lt_irrefl in Hk|].
  destruct (key_lt k k') eqn:E; [|by rewrite IH].
  pose proof (key_lt_trans _ _ _ Hk E) as Hc. by rewrite key_lt_irrefl in Hc.
Qed.
Lemma ksorted_app_l l1 l2 : ksorted (l1 ++ l2) → ksorted l1.
Proof.
  induction l1 as [|kv l1 IH]; [done|]. simpl. intros [Ha Hs]. split; [|by apply IH].
  unfold above in *. rewrite Forall_app in Ha. by destruct Ha.
Qed.
Lemma of_pairs_sorted l : ksorted l → of_pairs l = l.
Proof.
  unfold of_pairs. induction l as [|[k v] l IH] using rev_ind; [done|]. intros Hs.
  rewrite foldl_snoc, IH by (by eapply ksorted_app_l). by apply aset_snoc.
Qed.
End Sorted.

Section AnyOf.
Context `{Float64}.

Abbreviation any_elems l := (foldr (λ x acc, y ← any_of x; l' ← acc; Some (y :: l')) (Some []) l).
Abbreviation any_members l :=
  (foldr (λ (kv : string * json) acc, y ← any_of kv.2; l' ← acc; Some ((kv.1, y) :: l')) (Some []) l).

Definition converts (kv kv' : string * json) : Prop := kv.1 = kv'.1 ∧ any_of kv.2 = Some kv'.2.

Lemma any_elems_inv l l' : any_elems l = Some l' → Forall2 (λ x y, any_of x = Some y) l l'.
Proof.
  revert l'. induction l as [|x l IH]; intros l'; simpl; [by intros [= <-]|].
  destruct (any_of x) eqn:E; simpl; [|done]. destruct (any_elems l); simpl; [|done].
  intros [= <-]. constructor; [done|by apply IH].
Qed.
Lemma any_members_inv l l' : any_members l = Some l' → Forall2 converts l l'.
Proof.
  revert l'. induction l as [|[k x] l IH]; intros l'; simpl; [by intros [= <-]|].
  destruct (any_of x) eqn:E; simpl; [|done]. destruct (any_members l); simpl; [|done].
  intros [= <-]. constructor; [done|by apply IH].
Qed.

Lemma alook_converts k l l' : Forall2 converts l l' → alook k l' = alook k l ≫= any_of.
Proof.
  intros Hl. assert (match alook k l, alook k l' with
    | Some v, Some y => any_of v = Some y | None, None => True | _, _ => False end) as Hm.
  { induction Hl as [|[k1 v] [k2 y] l l' [Hk Hv] _ IH]; simpl in *; [done|]. subst.
    destruct (alook k l), (alook k l'); try done. by destruct (k =s k2). }
  destruct (alook k l), (alook k l'); simpl; done.
Qed.

(** Two objects with one canonical form agree on every member. *)
Lemma any_of_members l l' c :
  any_of (JObj l) = Some c → any_of (JObj l') = Some c →
  ∀ k, alook k l ≫= any_of = alook k l' ≫= any_of.
Proof.
  simpl. intros H1 H2 k.
  destruct (any_members l) as [m|] eqn:E1; [|done]. destruct (any_members l') as [m'|] eqn:E2; [|done].
  simpl in H1, H2. rewrite <-H2 in H1. injection H1 as H1.
  rewrite <-(alook_converts k _ _ (any_members_inv _ _ E1)), <-(alook_converts k _ _ (any_members_inv _ _ E2)).
  by rewrite <-!aget_of_pairs, H1.
Qed.

(** Strings and lists of strings are their own canonical form. *)
Lemma any_of_strs l : any_of (JArr (JStr <$> l)) = Some (JArr (JStr <$> l)).
Proof.
  simpl. assert (any_elems (JStr <$> l) = Some (JStr <$> l)) as ->; [|done].
  induction l as [|x l IH]; [done|]. cbn [fmap list_fmap foldr]. by rewrite IH.
Qed.

(** A sorted object of canonical values is its own canonical form. *)
Definition canonical (v : json) : Prop := any_of v = Some v.
Lemma canonical_JObj l : ksorted l → Forall (λ kv, canonical kv.2) l → canonical (JObj l).
Proof.
  intros Hs Hl. unfold canonical. simpl.
  assert (any_members l = Some l) as ->; [|simpl; by rewrite of_pairs_sorted].
  clear Hs. induction Hl as [|[k v] l Hv _ IH]; [done|]. simpl in *. by rewrite Hv, IH.
Qed.
Lemma canonical_JArr l : Forall canonical l → canonical (JArr l).
Proof.
  intros Hl. unfold canonical. simpl. assert (any_elems l = Some l) as ->; [|done].
  induction Hl as [|v l Hv _ IH]; [done|]. simpl. by rewrite Hv, IH.
Qed.
Lemma unmarshal_canonical v : wf v → canonical v → unmarshal_any (marshal v) = Ok v.
Proof. intros Hw Hc. unfold unmarshal_any. rewrite parse_marshal by done. by rewrite Hc. Qed.

Lemma wf_of_pairs l : Forall (λ kv, valid_utf8 kv.1 ∧ wf kv.2) l → wf (JObj (of_pairs l)).
Proof. intros Hl. apply wf_JObj. by apply Forall_foldl_aset. Qed.

(** [any_of] is total on exact values and keeps them well formed. *)
Lemma any_of_exact v : clean v → ∃ c, any_of v = Some c ∧ wf c.
Proof.
  remember (size v) as n eqn:Hn. revert v Hn. induction (lt_wf n) as [n _ IH].
  intros v -> [Hw He]. destruct v as [| | z | t | s | l | l]; try (eexists; split; [reflexivity|done]); try done.
  - simpl in *. destruct (Z.leb_spec (Z.abs z) (2 ^ 53)); [by eexists|lia].
  - assert (∃ l', any_elems l = Some l' ∧ Forall wf l') as (l' & El & Hl').
    { assert (∀ x, x ∈ l → ∃ c, any_of x = Some c ∧ wf c) as Hx.
      { intros x Hx. apply (IH (size x)); [pose proof (elems_size_elem x l Hx); simpl in *; lia|done|].
        split; [by eapply wf_elem|]. clear -Hx He. induction Hx; simpl in *; naive_solver. }
      clear -Hx. induction l as [|x l IHl]; [by exists []|]. simpl.
      destruct (Hx x ltac:(left)) as (c & -> & Hc).
      destruct IHl as (l' & -> & Hl'); [intros; apply Hx; by right|]. eexists; by split; [|constructor]. }
    exists (JArr l'). simpl. rewrite El. split; [done|by apply wf_JArr].
  - assert (∃ l', any_members l = Some l' ∧ Forall (λ kv, valid_utf8 kv.1 ∧ wf kv.2) l') as (l' & El & Hl').
    { assert (∀ kv, kv ∈ l → valid_utf8 kv.1 ∧ ∃ c, any_of kv.2 = Some c ∧ wf c) as Hx.
      { intros kv Hx. split; [clear -Hx Hw; induction Hx; simpl in *; naive_solver|].
        apply (IH (size kv.2)); [pose proof (members_size_elem kv l Hx); simpl in *; lia|done|].
        split; [by eapply wf_member|]. clear -Hx He. induction Hx; simpl in *; naive_solver. }
      clear -Hx. induction l as [|[k x] l IHl]; [by exists []|]. simpl.
      destruct (Hx (k, x) ltac:(left)) as (Hk & c & Hc0 & Hc). simpl in *. rewrite Hc0.
      destruct IHl as (l' & -> & Hl'); [intros; apply Hx; by right|]. eexists; by split; [|constructor]. }
    exists (JObj (of_pairs l')). simpl. rewrite El. split; [done|by apply wf_of_pairs].
Qed.

(** The canonical bytes determine the canonical value. *)
Lemma JCS_clean v : clean v → ∃ c, any_of v = Some c ∧ wf c ∧ JCS (Some v) = Ok (marshal c).
Proof.
  intros Hv. destruct (any_of_exact v Hv) as (c & Hc & Hw). exists c. split_and!; [done..|].
  unfold JCS, unmarshal_any. rewrite parse_marshal by apply Hv. by rewrite Hc.
Qed.
Lemma JCS_inj v v' b :
  clean v → clean v' → JCS (Some v) = Ok b → JCS (Some v') = Ok b →
  ∃ c, any_of v = Some c ∧ any_of v' = Some c.
Proof.
  intros Hv Hv'. destruct (JCS_clean v Hv) as (c & Hc & Hw & ->).
  destruct (JCS_clean v' Hv') as (c' & Hc' & Hw' & ->). intros [= <-] [= E].
  apply (f_equal parse) in E. rewrite !parse_marshal in E by done. injection E as ->. by exists c.
Qed.
End AnyOf.
End Canonical.
