(* ===== verification/Provider.v ===== *)
(** * The OpenID provider's authorization code flow (oidc/provider.go, oidc/par.go)

    Every handler is a computation that reads the request and the clock, calls the
    store, and ends in a response. *)

From S2P Require Import Prelude GoStd World Json JsonValue Base64 Sha Http Jwt StoreTypes Store StoreAuth.
Import JsonValue Http Jwt Types Store StoreAuth.

Module Provider.

Definition codeTTL : Z := 5 * minute.
Definition idTokenTTL : Z := hour.
Definition accessTokenTTL : Z := hour.
Definition refreshTokenTTL : Z := 30 * 24 * hour.
Definition parTTL : Z := 90 * second.

Record Provider := mkProvider {
  p_issuer : string;
  p_signingKey : list byte;
  p_keyID : string }.

(** ** Helpers *)

Definition writeError (code desc : string) : Response :=
  JsonResp StatusBadRequest [("error", JStr code); ("error_description", JStr desc)].
Definition internalError : Response := HttpError StatusInternalServerError "internal error".

Definition hashToken (raw : string) : string := Sha.hex (Sha.Sum256 (bytes_of raw)).
(** registration.go: the same digest of a client secret. *)
Definition hashSecret (secret : string) : string := Sha.hex (Sha.Sum256 (bytes_of secret)).
Definition pkce_challenge (verifier : string) : string :=
  Base64.EncodeToString (Sha.Sum256 (bytes_of verifier)).
Definition verifyPKCE (challenge verifier : string) : bool :=
  ConstantTimeCompare (bytes_of (pkce_challenge verifier)) (bytes_of challenge).
Definition containsURI (l : list string) (uri : string) : bool := existsb (λ u, u =s uri) l.

Definition randomHex (n : nat) : M Srv (result string) :=
  b ← rand_read n;
  mret (Sha.hex <$> b).
(** The error of the random source is dropped: the suffix is then empty. *)
Definition randomID : M Srv string :=
  s ← randomHex 16;
  mret ("sess_" +s match s with Ok x => x | Err _ => "" end).
Definition generateRefreshToken : M Srv (result (string * string)) :=
  raw ← randomHex 32;
  mret ((λ x, (x, hashToken x)) <$> raw).

(** X-Forwarded-For's first entry, or the peer address up to its last colon. *)
Definition remoteIP (r : Request) : string :=
  let fwd := Header r "X-Forwarded-For" in
  if negb (fwd =s "") then default "" (head (SplitN fwd x2c 2))
  else let ip := rq_remote r in
       match LastIndex ip ":" with
       | Some (S i) => str_of (take (S i) (bytes_of ip))
       | _ => ip
       end.

Definition token_fields (accessToken idToken refreshToken scope : string) (ttl : Z) : list (string * json) :=
  let resp := of_pairs [("token_type", JStr "Bearer"); ("expires_in", JInt (seconds_of ttl));
                        ("access_token", JStr accessToken); ("refresh_token", JStr refreshToken);
                        ("scope", JStr scope)] in
  if idToken =s "" then resp else aset "id_token" (JStr idToken) resp.
Definition writeTokenResponse (accessToken idToken refreshToken scope : string) (ttl : Z) : Response :=
  JsonResp StatusOK (token_fields accessToken idToken refreshToken scope ttl).

(** ** Client authentication *)

Definition provided_secret (r : Request) (clientID : string) : string :=
  match rq_basic r with
  | Some (user, pass) => if user =s clientID then pass else FormValue r "client_secret"
  | None => FormValue r "client_secret"
  end.
Definition client_auth (r : Request) (clientID : string) (client : OIDCClient) : result unit :=
  if c_TokenEndpointAuthMethod client =s "none" then Ok tt
  else
    let providedSecret := provided_secret r clientID in
    if providedSecret =s "" then Err (ErrMsg "client authentication required")
    else if negb (ConstantTimeCompare (bytes_of (hashSecret providedSecret))
                    (bytes_of (c_ClientSecretHash client)))
    then Err (ErrMsg "invalid client credentials")
    else Ok tt.
Definition validateClientAuth (r : Request) (clientID : string) : M Srv (result unit) :=
  client ← GetClient clientID;
  match client with
  | Err _ => mret (Err (ErrMsg "unknown client"))
  | Ok c => mret (client_auth r clientID c)
  end.

(** ** Pushed authorization requests *)

(** [json.Unmarshal] into a map[string]string. *)
Definition unmarshal_params (t : string) : option (list (string * string)) :=
  match parse (bytes_of t) with
  | Some (JObj l) => mapM (λ kv, pair kv.1 <$> str_elem kv.2) l
  | Some JNull => Some []
  | _ => None
  end.
Definition marshal_params (l : list (string * string)) : string :=
  str_of (marshal (JObj ((λ kv, (kv.1, JStr kv.2)) <$> of_pairs l))).
(** The first value of each form key, where it is not empty. *)
Fixpoint form_params (seen : list string) (form : list (string * string)) : list (string * string) :=
  match form with
  | [] => []
  | (k, v) :: form' =>
      if decide (k ∈ seen) then form_params seen form'
      else (if v =s "" then [] else [(k, v)]) ++ form_params (k :: seen) form'
  end.

Section Handlers.
Context `{Ed25519} (p : Provider).

Definition PARHandler (r : Request) : M Srv Response :=
  match rq_form r with
  | None => mret (writeError "invalid_request" "could not parse form")
  | Some form =>
  let clientID := FormValue r "client_id" in
  if clientID =s "" then mret (writeError "invalid_client" "client_id required") else
  auth ← validateClientAuth r clientID;
  match auth with
  | Err e => mret (writeError "invalid_client" (error_string e))
  | Ok _ =>
  let redirectURI := FormValue r "redirect_uri" in
  reject ← (if redirectURI =s "" then mret None
            else client ← GetClient clientID;
                 mret (match client with
                       | Err _ => Some (writeError "invalid_client" "unknown client")
                       | Ok c => if negb (containsURI (c_RedirectURIs c) redirectURI)
                                 then Some (writeError "invalid_request" "redirect_uri not registered for this client")
                                 else None
                       end));
  match reject with
  | Some resp => mret resp
  | None =>
  let raw := marshal_params (form_params [] form) in
  requestID ← randomHex 32;
  match requestID with
  | Err _ => mret internalError
  | Ok rid =>
  let requestURI := "urn:ietf:params:oauth:request_uri:" +s rid in
  t1 ← time_now; t2 ← time_now;
  saved ← SavePARRequest (mkPARRequest requestURI clientID raw (t1 + parTTL)%Z t2);
  match saved with
  | Err _ => mret internalError
  | Ok _ => mret (JsonResp StatusCreated [("expires_in", JInt (seconds_of parTTL));
                                          ("request_uri", JStr requestURI)])
  end end end end end.

Definition resolvePARRequest (requestURI : string) : M Srv (result (list (string * string))) :=
  par ← GetPARRequest requestURI;
  match par with
  | Err _ => mret (Err (ErrMsg "par: request_uri not found"))
  | Ok pr =>
  now ← time_now;
  if (par_ExpiresAt pr <? now)%Z then
    _ ← DeletePARRequest requestURI;
    mret (Err (ErrMsg "par: request_uri expired"))
  else
    _ ← DeletePARRequest requestURI;
    mret (of_option (ErrMsg "par: malformed params") (unmarshal_params (par_Params pr)))
  end.

(** ** The authorization endpoint *)

Definition authorize_with (r : Request) (q : list (string * string)) : M Srv Response :=
  let clientID := Get q "client_id" in
  let redirectURI := Get q "redirect_uri" in
  let scope := Get q "scope" in
  let nonce := Get q "nonce" in
  let state := Get q "state" in
  let codeChallenge := Get q "code_challenge" in
  let codeChallengeMethod := Get q "code_challenge_method" in
  let subjectDID := Header r "X-Subject-DID" in
  if (clientID =s "") || (redirectURI =s "") || (subjectDID =s "") then
    mret (HttpError StatusBadRequest "missing required parameters")
  else if state =s "" then mret (writeError "invalid_request" "state parameter is required")
  else if codeChallenge =s "" then
    mret (writeError "invalid_request" "code_challenge is required (PKCE, RFC 7636)")
  else if negb (codeChallengeMethod =s "S256") then
    mret (writeError "invalid_request" "code_challenge_method must be S256")
  else
  client ← GetClient clientID;
  match client with
  | Err _ => mret (writeError "unauthorized_client" "unknown client_id")
  | Ok c =>
  if negb (containsURI (c_RedirectURIs c) redirectURI) then
    mret (writeError "invalid_request" "redirect_uri not registered for this client")
  else
  code ← randomHex 32;
  match code with
  | Err _ => mret internalError
  | Ok code =>
  id ← randomID; t1 ← time_now; t2 ← time_now;
  saved ← SaveSession (mkOIDCSession id subjectDID clientID redirectURI scope nonce state code
            codeChallenge codeChallengeMethod "" "" (Header r "User-Agent") (remoteIP r) None
            t1 (t2 + codeTTL)%Z);
  match saved with
  | Err _ => mret internalError
  | Ok _ =>
      let redirect := redirectURI +s "?code=" +s code in
      mret (Redirect (if state =s "" then redirect else redirect +s "&state=" +s state))
  end end end.

Definition AuthorizeHandler (r : Request) : M Srv Response :=
  let q := rq_query r in
  let requestURI := Get q "request_uri" in
  if requestURI =s "" then authorize_with r q
  else
    params ← resolvePARRequest requestURI;
    match params with
    | Err e => mret (writeError "invalid_request" (error_string e))
    | Ok ps => authorize_with r (foldl (λ acc kv, vset kv.1 kv.2 acc) q ps)
    end.

(** [IssueSessionForDIDCtx]: the code the bridge hands out after an external login. *)
Definition IssueSessionForDIDCtx (r : Request) (subjectDID clientID redirectURI scope nonce
    codeChallenge codeChallengeMethod : string) : M Srv (result string) :=
  code ← randomHex 32;
  match code with
  | Err e => mret (Err e)
  | Ok code =>
  id ← randomID; t1 ← time_now; t2 ← time_now;
  saved ← SaveSession (mkOIDCSession id subjectDID clientID redirectURI scope nonce "" code
            codeChallenge codeChallengeMethod "" "" (Header r "User-Agent") (remoteIP r) None
            t1 (t2 + codeTTL)%Z);
  mret ((λ _, code) <$> saved)
  end.

(** ** The token endpoint *)

Definition new_refresh (hash subjectDID clientID scope : string) : M Srv RefreshToken :=
  t1 ← time_now; t2 ← time_now;
  mret (mkRefreshToken hash subjectDID clientID scope t1 (t2 + refreshTokenTTL)%Z None).

(** [err != nil || time.Now().After(sess.ExpiresAt)]. *)
Definition load_unexpired {A} (expires : A → Z) (r : result A) : M Srv (option A) :=
  match r with
  | Err _ => mret None
  | Ok a => now ← time_now; mret (if (expires a <? now)%Z then None else Some a)
  end.

Definition handleAuthCodeExchange (r : Request) : M Srv Response :=
  let code := FormValue r "code" in
  let clientID := FormValue r "client_id" in
  let codeVerifier := FormValue r "code_verifier" in
  if code =s "" then mret (writeError "invalid_request" "missing code") else
  found ← GetSessionByCode code;
  live ← load_unexpired s_ExpiresAt found;
  match live with
  | None => mret (writeError "invalid_grant" "code not found or expired")
  | Some sess =>
  if negb (clientID =s "") && negb (clientID =s s_ClientID sess) then
    mret (writeError "invalid_grant" "client_id mismatch")
  else if codeVerifier =s "" then
    mret (writeError "invalid_grant" "code_verifier is required (PKCE)")
  else if s_CodeChallenge sess =s "" then
    mret (writeError "invalid_grant" "no PKCE challenge found for this code")
  else if negb (verifyPKCE (s_CodeChallenge sess) codeVerifier) then
    mret (writeError "invalid_grant" "code_verifier mismatch")
  else
  auth ← validateClientAuth r (s_ClientID sess);
  match auth with
  | Err e => mret (writeError "invalid_client" (error_string e))
  | Ok _ =>
  idToken ← IssueIDToken (p_issuer p) (s_SubjectDID sess) (s_ClientID sess) (s_Nonce sess)
              idTokenTTL (p_signingKey p) [] (p_keyID p);
  accessToken ← IssueAccessToken (p_issuer p) (s_SubjectDID sess) (s_ClientID sess) accessTokenTTL
              (p_signingKey p) (p_keyID p);
  gen ← generateRefreshToken;
  match gen with
  | Err _ => mret internalError
  | Ok (rawRefresh, refreshHash) =>
  rt ← new_refresh refreshHash (s_SubjectDID sess) (s_ClientID sess) (s_Scope sess);
  saved ← SaveRefreshToken rt;
  match saved with
  | Err _ => mret internalError
  | Ok _ =>
  _ ← DeleteSession (s_ID sess);
  mret (writeTokenResponse accessToken idToken rawRefresh (s_Scope sess) accessTokenTTL)
  end end end end.

Definition handleRefreshTokenGrant (r : Request) : M Srv Response :=
  let rawToken := FormValue r "refresh_token" in
  if rawToken =s "" then mret (writeError "invalid_request" "missing refresh_token") else
  let hash := hashToken rawToken in
  found ← GetRefreshToken hash;
  match found with
  | Err _ => mret (writeError "invalid_grant" "refresh token not found")
  | Ok rt =>
  now ← time_now;
  if (rt_ExpiresAt rt <? now)%Z then
    _ ← DeleteRefreshToken hash;
    mret (writeError "invalid_grant" "refresh token expired")
  else match rt_UsedAt rt with
  | Some _ =>
      _ ← DeleteRefreshToken hash;
      mret (writeError "invalid_grant" "refresh token already used")
  | None =>
  auth ← validateClientAuth r (rt_ClientID rt);
  match auth with
  | Err e => mret (writeError "invalid_client" (error_string e))
  | Ok _ =>
  now ← time_now;
  _ ← SaveRefreshToken (mkRefreshToken (rt_Hash rt) (rt_SubjectDID rt) (rt_ClientID rt)
        (rt_Scope rt) (rt_IssuedAt rt) (rt_ExpiresAt rt) (Some now));
  accessToken ← IssueAccessToken (p_issuer p) (rt_SubjectDID rt) (rt_ClientID rt) accessTokenTTL
              (p_signingKey p) (p_keyID p);
  gen ← generateRefreshToken;
  match gen with
  | Err _ => mret internalError
  | Ok (rawRefresh, refreshHash) =>
  newRT ← new_refresh refreshHash (rt_SubjectDID rt) (rt_ClientID rt) (rt_Scope rt);
  saved ← SaveRefreshToken newRT;
  match saved with
  | Err _ => mret internalError
  | Ok _ => mret (writeTokenResponse accessToken "" rawRefresh (rt_Scope rt) accessTokenTTL)
  end end end end end.

Definition handleClientCredentialsGrant (r : Request) : M Srv Response :=
  let formID := FormValue r "client_id" in
  let clientID := if formID =s "" then match rq_basic r with Some (id, _) => id | None => "" end
                  else formID in
  if clientID =s "" then mret (writeError "invalid_client" "client_id required") else
  auth ← validateClientAuth r clientID;
  match auth with
  | Err e => mret (writeError "invalid_client" (error_string e))
  | Ok _ =>
  client ← GetClient clientID;
  match client with
  | Err _ => mret (writeError "invalid_client" "unknown client")
  | Ok c =>
  if c_TokenEndpointAuthMethod c =s "none" then
    mret (writeError "unauthorized_client" "public clients may not use client_credentials grant")
  else
  let scope := if FormValue r "scope" =s "" then c_Scope c else FormValue r "scope" in
  accessToken ← IssueAccessToken (p_issuer p) clientID clientID accessTokenTTL (p_signingKey p) (p_keyID p);
  mret (JsonResp StatusOK (of_pairs [("token_type", JStr "Bearer");
         ("expires_in", JInt (seconds_of accessTokenTTL)); ("access_token", JStr accessToken);
         ("scope", JStr scope)]))
  end end.

(** ** Bearer tokens *)

Definition UserinfoHandler (r : Request) : M Srv Response :=
  let bearer := TrimPrefix (Header r "Authorization") "Bearer " in
  if bearer =s "" then mret (HttpError StatusUnauthorized "unauthorized") else
  v ← Verify bearer (ed_public (p_signingKey p));
  match v with
  | Err e => mret (HttpError StatusUnauthorized ("invalid token: " +s error_string e))
  | Ok c => mret (JsonResp StatusOK (of_pairs [("sub", JStr (cl_Subject c)); ("did", JStr (cl_DID c));
              ("amr", match cl_AMR c with [] => JNull | l => JArr (JStr <$> l) end)]))
  end.

Definition SubjectFromBearer (authHeader : string) : M Srv (result string) :=
  let bearer := TrimPrefix authHeader "Bearer " in
  if bearer =s "" then mret (Err (ErrMsg "no bearer token")) else
  v ← Verify bearer (ed_public (p_signingKey p));
  mret (cl_Subject <$> v).
End Handlers.
End Provider.
