(* ===== verification/ProviderProofs.v ===== *)
(** * The authorization code flow is sound (oidc/provider.go)

    What a successful answer of each endpoint implies about the request and the
    database, that codes and refresh tokens work once, and that the flow from
    the authorization endpoint to the token endpoint completes. *)

From S2P Require Import Prelude GoStd World Json JsonValue Base64 Sha Http Jwt StoreTypes Store StoreAuth Logic StoreInv Provider.
Import JsonValue Http Jwt Types Store StoreAuth StoreInv Provider.

Module ProviderProofs.
#[local] Opaque Sha.Sum256 Sha.hex hashToken hashSecret pkce_challenge signJWT.

(** The database of a world. *)
Abbreviation db w := (srv_db (w_state w)).

(** ** Lookups *)

Lemma session_by_code_Ok code d s :
  session_by_code code d = Ok s → ∃ k, oidc_sessions d !! k = Some s ∧ s_Code s = code.
Proof.
  unfold session_by_code. destruct (rows _ _) as [|s' l] eqn:E; [done|]. intros [= ->].
  assert (s ∈ rows (λ s, s_Code s =s code) (oidc_sessions d)) as Hs by (rewrite E; set_solver).
  apply elem_of_rows in Hs as [Hc [k Hk]]. exists k. split; [done|by apply String.eqb_eq].
Qed.
Lemma session_by_code_unique code d k s :
  oidc_sessions d !! k = Some s → s_Code s = code →
  (∀ k' s', oidc_sessions d !! k' = Some s' → s_Code s' = code → s' = s) →
  session_by_code code d = Ok s.
Proof.
  intros Hk Hc Hu. unfold session_by_code.
  assert (s ∈ rows (λ s, s_Code s =s code) (oidc_sessions d)) as Hs.
  { apply elem_of_rows. split; [by apply String.eqb_eq|eauto]. }
  destruct (rows _ _) as [|s' l] eqn:E; [set_solver|]. simpl. f_equal.
  assert (s' ∈ rows (λ s, s_Code s =s code) (oidc_sessions d)) as Hs' by (rewrite E; set_solver).
  apply elem_of_rows in Hs' as [Hc' [k' Hk']]. apply String.eqb_eq in Hc'. eauto.
Qed.
Lemma session_by_code_none code d :
  (∀ k s, oidc_sessions d !! k = Some s → s_Code s ≠ code) → session_by_code code d = Err ErrNoRows.
Proof.
  intros H. unfold session_by_code. destruct (rows _ _) as [|s' l] eqn:E; [done|].
  assert (s' ∈ rows (λ s, s_Code s =s code) (oidc_sessions d)) as Hs' by (rewrite E; set_solver).
  apply elem_of_rows in Hs' as [Hc' [k' Hk']]. apply String.eqb_eq in Hc'. by destruct (H k' s').
Qed.

Lemma verifyPKCE_spec challenge verifier :
  verifyPKCE challenge verifier = true ↔ challenge = pkce_challenge verifier.
Proof.
  unfold verifyPKCE, ConstantTimeCompare. rewrite bool_decide_eq_true. split.
  - intros E. symmetry. by apply bytes_of_inj.
  - by intros ->.
Qed.

(** A registered client whose authentication requirement the request meets. *)
Definition authenticated (r : Request) (clientID : string) (d : DB) : Prop :=
  ∃ c, client_row clientID d = Ok c ∧
    (c_TokenEndpointAuthMethod c = "none" ∨
     provided_secret r clientID ≠ "" ∧ hashSecret (provided_secret r clientID) = c_ClientSecretHash c).

Lemma client_auth_Ok r clientID c :
  client_auth r clientID c = Ok tt ↔
    c_TokenEndpointAuthMethod c = "none" ∨
    provided_secret r clientID ≠ "" ∧ hashSecret (provided_secret r clientID) = c_ClientSecretHash c.
Proof.
  unfold client_auth. destruct (String.eqb_spec (c_TokenEndpointAuthMethod c) "none"); [tauto|].
  destruct (String.eqb_spec (provided_secret r clientID) ""); [naive_solver|].
  unfold ConstantTimeCompare. case_bool_decide as Hb; simpl.
  - split; [|done]. intros _. right. split; [done|by apply bytes_of_inj].
  - split; [done|]. intros [?|[_ E]]; [done|]. by rewrite E in Hb.
Qed.

Lemma wp_validateClientAuth r clientID clk nc rnd nr flt nf d rev evs Q :
  (authenticated r clientID d → flt nf = None →
    Q (Ok tt) (mkWorld clk nc rnd nr flt (S nf) (mkSrv d rev evs))) →
  (∀ e, flt nf ≠ None ∨ ¬ authenticated r clientID d →
    Q (Err e) (mkWorld clk nc rnd nr flt (S nf) (mkSrv d rev evs))) →
  wp (validateClientAuth r clientID) Q (mkWorld clk nc rnd nr flt nf (mkSrv d rev evs)).
Proof.
  intros HO HE. unfold validateClientAuth, GetClient. repeat wp_step.
    - apply HE. left. congruence.
  - destruct (client_auth r clientID a) as [[]|e] eqn:Ea.
    + apply HO; [|done]. exists a. split; [done|]. by apply client_auth_Ok.
    + apply HE. right. intros (c' & Hc' & Ha). simplify_eq. apply client_auth_Ok in Ha. congruence.
  - apply HE. right. intros (c' & Hc' & _). congruence.
Qed.

Lemma eqb_false_ne a b : (a =s b) = false → a ≠ b.
Proof. by intros H%String.eqb_neq. Qed.
Lemma guard_mismatch a b : negb (a =s "") && negb (a =s b) = false → a = "" ∨ a = b.
Proof.
  destruct (String.eqb_spec a ""); [auto|]. destruct (String.eqb_spec a b); [auto|done].
Qed.

Section Flow.
Context `{Ed25519} (p : Provider).

(** ** The code exchange *)

(** Why a session may be redeemed by a request: it has the code, it had not
    expired when the request came, the verifier hashes to its challenge, a
    client id in the request is its client, and that client authenticated. *)
Definition redeemable (r : Request) (now : Z) (d : DB) (sess : OIDCSession) : Prop :=
  (∃ k, oidc_sessions d !! k = Some sess) ∧ s_Code sess = FormValue r "code" ∧ s_Code sess ≠ "" ∧
  (now ≤ s_ExpiresAt sess)%Z ∧
  s_CodeChallenge sess = pkce_challenge (FormValue r "code_verifier") ∧
  (FormValue r "client_id" = "" ∨ FormValue r "client_id" = s_ClientID sess) ∧
  authenticated r (s_ClientID sess) d.

(** The tokens issued for a subject and a client, and the refresh token's row. *)
Definition issued_access (sub client : string) (t : Z) : string :=
  signJWT (claims_payload (access_claims (p_issuer p) sub client accessTokenTTL t))
    (p_signingKey p) (p_keyID p).
Definition issued_id (sub client nonce : string) (t : Z) : string :=
  signJWT (claims_payload (id_claims (p_issuer p) sub client nonce idTokenTTL [] t))
    (p_signingKey p) (p_keyID p).
Definition refresh_row (raw sub client scope : string) (t1 t2 : Z) : RefreshToken :=
  mkRefreshToken (hashToken raw) sub client scope t1 (t2 + refreshTokenTTL)%Z None.
Definition add_refresh (rt : RefreshToken) (d : DB) : DB :=
  set_refresh_tokens (upsert refresh_merge (rt_Hash rt) rt (refresh_tokens d)) d.
Definition drop_session (id : string) (d : DB) : DB :=
  set_oidc_sessions (delete id (oidc_sessions d)) d.

Lemma wp_exchange r clk nc rnd nr flt nf d rev evs :
  wp (handleAuthCodeExchange p r) (λ resp w',
    status_of resp = StatusOK →
    ∃ sess f ti ta t1 t2,
      redeemable r (clk nc) d sess ∧ rnd nr = Some f ∧
      let raw := Sha.hex (f <$> seq 0 32) in
      resp = writeTokenResponse (issued_access (s_SubjectDID sess) (s_ClientID sess) ta)
               (issued_id (s_SubjectDID sess) (s_ClientID sess) (s_Nonce sess) ti)
               raw (s_Scope sess) accessTokenTTL ∧
      let d1 := add_refresh (refresh_row raw (s_SubjectDID sess) (s_ClientID sess) (s_Scope sess) t1 t2) d in
      (flt (3 + nf) = None ∧ db w' = drop_session (s_ID sess) d1 ∨
       flt (3 + nf) ≠ None ∧ db w' = d1))
    (mkWorld clk nc rnd nr flt nf (mkSrv d rev evs)).
Proof.
  unfold handleAuthCodeExchange, GetSessionByCode, load_unexpired, IssueIDToken, IssueAccessToken,
    generateRefreshToken, randomHex, new_refresh, SaveRefreshToken, DeleteSession.
  repeat (wp_step; try done).
  apply wp_validateClientAuth; [intros Hauth Hf2|by intros e _; repeat wp_step].
  assert (redeemable r (clk nc) d a) as Hred.
  { apply session_by_code_Ok in Heqr0 as [k [Hk Hc]]. apply negb_false_iff, verifyPKCE_spec in Heqb4.
    split_and!; eauto using guard_mismatch; [|by apply Z.ltb_ge].
    rewrite Hc. by apply String.eqb_neq. }
  repeat (wp_step; try done); intros _;
    exists a, f, (clk (S nc)), (clk (2 + nc)), (clk (3 + nc)), (clk (4 + nc)); (split; [exact Hred|]);
    (split; [done|]); (split; [reflexivity|]).
  - right. split; [|reflexivity]. change (flt (3 + nf)) with (flt (S (S (S nf)))). congruence.
  - left. split; [done|reflexivity].
Qed.

(** C1: Soundness of the code exchange: whatever the request, the clock, the
    randomness and the driver's errors, an answer with status 200 means that some
    stored session had the presented code and had not expired, that its PKCE
    challenge is the S256 hash of the presented verifier, that a presented
    client id is the session's, and that the session's client authenticated;
    the tokens in the answer name that session's subject and client, and the
    refresh token was stored for them with the session's scope. *)
Theorem code_exchange_sound r w resp w' :
  handleAuthCodeExchange p r w = (resp, w') → status_of resp = StatusOK →
  ∃ sess raw ti ta t1 t2,
    redeemable r (w_clock w (w_nclock w)) (db w) sess ∧
    resp = writeTokenResponse (issued_access (s_SubjectDID sess) (s_ClientID sess) ta)
             (issued_id (s_SubjectDID sess) (s_ClientID sess) (s_Nonce sess) ti)
             raw (s_Scope sess) accessTokenTTL ∧
    refresh_tokens (db w') = upsert refresh_merge (hashToken raw)
      (refresh_row raw (s_SubjectDID sess) (s_ClientID sess) (s_Scope sess) t1 t2) (refresh_tokens (db w)).
Proof.
  destruct w as [clk nc rnd nr flt nf [d rev evs]]. intros Hrun Hok.
  pose proof (wp_run _ _ _ _ _ Hrun (wp_exchange r clk nc rnd nr flt nf d rev evs) Hok)
    as (sess & f & ti & ta & t1 & t2 & Hred & _ & -> & Hdb).
  do 6 eexists. split; [exact Hred|]. split; [reflexivity|].
  by destruct Hdb as [[_ ->]|[_ ->]].
Qed.

(** C2: An authorization code works once: when the driver does not fail and no
    other session holds the same code, a successful exchange removes the session,
    and the next exchange of that code, by any request, is refused with
    invalid_grant and issues nothing. *)
Theorem code_single_use r r2 w resp w' :
  srv_wf (w_state w) → no_faults w →
  (∀ k1 k2 s1 s2, oidc_sessions (db w) !! k1 = Some s1 → oidc_sessions (db w) !! k2 = Some s2 →
     s_Code s1 = s_Code s2 → s1 = s2) →
  handleAuthCodeExchange p r w = (resp, w') → status_of resp = StatusOK →
  FormValue r2 "code" = FormValue r "code" →
  fst (handleAuthCodeExchange p r2 w') = writeError "invalid_grant" "code not found or expired" ∧
  db (snd (handleAuthCodeExchange p r2 w')) = db w'.
Proof.
  destruct w as [clk nc rnd nr flt nf [d rev evs]]. simpl. intros Hwf Hnf Huniq Hrun Hok Hcode.
  pose proof (wp_run _ _ _ _ _ Hrun (wp_exchange r clk nc rnd nr flt nf d rev evs) Hok)
    as (sess & f & ti & ta & t1 & t2 & ((k & Hk) & Hc & Hce & _) & _ & _ & Hdb).
  destruct Hdb as [[_ Hdb]|[Hf _]]; [|by specialize (Hnf (3 + nf))].
  assert (∀ k' s', oidc_sessions (db w') !! k' = Some s' → s_Code s' ≠ FormValue r2 "code") as Hnone.
  { assert (oidc_sessions (db w') = delete (s_ID sess) (oidc_sessions d)) as -> by (rewrite Hdb; done).
    rewrite Hcode. intros k' s' [Hne Hk']%lookup_delete_Some Hc'.
    apply Hne. rewrite <-(wf_sessions _ Hwf _ _ Hk'). f_equal. eapply Huniq; eauto. congruence. }
  clear Hrun Hdb. destruct w' as [clk' nc' rnd' nr' flt' nf' [d' rev' evs']]. simpl in *.
  assert ((FormValue r2 "code" =s "") = false) as Hne.
  { rewrite Hcode, <-Hc. by apply String.eqb_neq. }
  change (wp (handleAuthCodeExchange p r2) (λ resp w, resp = writeError "invalid_grant" "code not found or expired"
    ∧ db w = d') (mkWorld clk' nc' rnd' nr' flt' nf' (mkSrv d' rev' evs'))).
  pose proof (session_by_code_none _ d' Hnone) as Hrow.
  unfold handleAuthCodeExchange, GetSessionByCode, load_unexpired. rewrite Hne.
  repeat (wp_step; try done); congruence.
Qed.

(** ** Refresh tokens *)

Definition mark_used (rt : RefreshToken) (t : Z) : RefreshToken :=
  mkRefreshToken (rt_Hash rt) (rt_SubjectDID rt) (rt_ClientID rt) (rt_Scope rt) (rt_IssuedAt rt)
    (rt_ExpiresAt rt) (Some t).

Lemma select_Ok {V} k (m : gmap string V) v : select k m = Ok v → m !! k = Some v.
Proof. unfold select, of_option. destruct (m !! k); naive_solver. Qed.
Lemma select_Err {V} k (m : gmap string V) e : select k m = Err e → m !! k = None.
Proof. unfold select, of_option. destruct (m !! k); naive_solver. Qed.

Lemma wp_refresh_grant r clk nc rnd nr flt nf d rev evs :
  wp (handleRefreshTokenGrant p r) (λ resp w',
    status_of resp = StatusOK →
    ∃ rt f, let raw := Sha.hex (f <$> seq 0 32) in
      refresh_tokens d !! hashToken (FormValue r "refresh_token") = Some rt ∧
      (clk nc ≤ rt_ExpiresAt rt)%Z ∧ rt_UsedAt rt = None ∧ authenticated r (rt_ClientID rt) d ∧
      rnd nr = Some f ∧
      resp = writeTokenResponse (issued_access (rt_SubjectDID rt) (rt_ClientID rt) (clk (2 + nc))) ""
               raw (rt_Scope rt) accessTokenTTL ∧
      w' = mkWorld clk (5 + nc) rnd (S nr) flt (4 + nf)
             (mkSrv (add_refresh (refresh_row raw (rt_SubjectDID rt) (rt_ClientID rt) (rt_Scope rt)
                                    (clk (3 + nc)) (clk (4 + nc)))
                       match flt (2 + nf) with
                       | Some _ => d
                       | None => add_refresh (mark_used rt (clk (S nc))) d
                       end) rev evs))
    (mkWorld clk nc rnd nr flt nf (mkSrv d rev evs)).
Proof.
  unfold handleRefreshTokenGrant, GetRefreshToken, DeleteRefreshToken, IssueAccessToken,
    generateRefreshToken, randomHex, new_refresh, SaveRefreshToken.
  repeat (wp_step; try done).
  apply wp_validateClientAuth; [intros Hauth Hf2|by intros e _; repeat wp_step].
  repeat (wp_step; try done); intros _; exists a, f;
    (split; [by apply select_Ok|]); (split; [by apply Z.ltb_ge|]); do 3 (split; [done|]);
    (split; [reflexivity|]); change (flt (2 + nf)) with (flt (S (S nf))).
  - by rewrite Hf0.
  - by rewrite Hf0.
Qed.

Lemma add_refresh_new rt d :
  refresh_tokens d !! rt_Hash rt = None → refresh_tokens (add_refresh rt d) !! rt_Hash rt = Some rt.
Proof. apply lookup_upsert_new. Qed.
Lemma add_refresh_old rt d old :
  refresh_tokens d !! rt_Hash rt = Some old →
  refresh_tokens (add_refresh rt d) !! rt_Hash rt = Some (refresh_merge old rt).
Proof. apply lookup_upsert_old. Qed.
Lemma add_refresh_other rt d h :
  rt_Hash rt ≠ h → refresh_tokens (add_refresh rt d) !! h = refresh_tokens d !! h.
Proof. apply lookup_upsert_ne. Qed.

(** C3: Refresh tokens rotate: a successful grant means the presented token was
    stored, unexpired and unused and its client authenticated; when the driver
    does not fail and the new token's hash is not the old one's, the old token is
    now marked used with its other columns unchanged, and the new token is stored
    for the same subject, client and scope, unused. *)
Theorem refresh_rotation r w resp w' :
  srv_wf (w_state w) → no_faults w →
  handleRefreshTokenGrant p r w = (resp, w') → status_of resp = StatusOK →
  ∃ rt raw ta t1 t2 tu, let old := hashToken (FormValue r "refresh_token") in
    refresh_tokens (db w) !! old = Some rt ∧ (w_clock w (w_nclock w) ≤ rt_ExpiresAt rt)%Z ∧
    rt_UsedAt rt = None ∧ authenticated r (rt_ClientID rt) (db w) ∧
    resp = writeTokenResponse (issued_access (rt_SubjectDID rt) (rt_ClientID rt) ta) "" raw
             (rt_Scope rt) accessTokenTTL ∧
    (hashToken raw ≠ old → refresh_tokens (db w) !! hashToken raw = None →
      refresh_tokens (db w') !! old = Some (mark_used rt tu) ∧
      refresh_tokens (db w') !! hashToken raw =
        Some (refresh_row raw (rt_SubjectDID rt) (rt_ClientID rt) (rt_Scope rt) t1 t2)).
Proof.
  destruct w as [clk nc rnd nr flt nf [d rev evs]]. cbn [w_state srv_db w_clock w_nclock].
  intros Hwf Hnf Hrun Hok.
  pose proof (wp_run _ _ _ _ _ Hrun (wp_refresh_grant r clk nc rnd nr flt nf d rev evs) Hok)
    as (rt & f & Hrt & Hexp & Hun & Hauth & _ & -> & ->).
  do 6 eexists. do 4 (split; [done|]). split; [reflexivity|]. intros Hne Hfresh.
  pose proof (Hnf (2 + nf)) as Hf. cbn [w_fault] in Hf. rewrite Hf. cbn [w_state srv_db].
  pose proof (wf_refresh _ Hwf _ _ Hrt) as Hh.
  assert (refresh_tokens (add_refresh (mark_used rt (clk (S nc))) d) !! rt_Hash rt =
    Some (mark_used rt (clk (S nc)))) as Hm.
  { apply (add_refresh_old (mark_used rt (clk (S nc))) d rt). simpl. by rewrite Hh. }
  split.
  - rewrite add_refresh_other by done. by rewrite <-Hh.
  - match goal with |- refresh_tokens (add_refresh ?rt' _) !! _ = _ => apply (add_refresh_new rt') end.
    rewrite add_refresh_other; [done|]. cbn [rt_Hash refresh_row mark_used]. congruence.
Qed.

(** C17: Replay detection: presenting a token that was already used never yields
    tokens; unless the driver fails, its row is deleted and every other refresh
    token is left alone. *)
Theorem refresh_replay_detected r w rt t :
  refresh_tokens (db w) !! hashToken (FormValue r "refresh_token") = Some rt → rt_UsedAt rt = Some t →
  status_of (fst (handleRefreshTokenGrant p r w)) = StatusBadRequest ∧
  (no_faults w → FormValue r "refresh_token" ≠ "" →
   refresh_tokens (db (snd (handleRefreshTokenGrant p r w))) =
     delete (hashToken (FormValue r "refresh_token")) (refresh_tokens (db w))).
Proof.
  destruct w as [clk nc rnd nr flt nf [d rev evs]]. cbn [w_state srv_db]. intros Hrt Hused.
  assert (select (hashToken (FormValue r "refresh_token")) (refresh_tokens d) = Ok rt) as Hsel
    by (unfold select; by rewrite Hrt).
  set (w := mkWorld _ _ _ _ _ _ _).
  change (wp (handleRefreshTokenGrant p r) (λ resp w', status_of resp = StatusBadRequest ∧
    (no_faults w → FormValue r "refresh_token" ≠ "" →
     refresh_tokens (db w') = delete (hashToken (FormValue r "refresh_token")) (refresh_tokens d))) w).
  unfold handleRefreshTokenGrant, GetRefreshToken, DeleteRefreshToken. unfold w at 2.
  repeat (wp_step; try done); try congruence; (split; [done|]); intros Hnf Hne; try done;
    try (by specialize (Hnf nf); simpl in Hnf; congruence);
    try (by specialize (Hnf (S nf)); simpl in Hnf; congruence).
  by apply String.eqb_eq in Heqb.
Qed.

(** ** The authorization endpoint *)

Lemma containsURI_spec l uri : containsURI l uri = true ↔ uri ∈ l.
Proof.
  unfold containsURI. rewrite existsb_elem_of. split.
  - intros (x & Hx & ->%String.eqb_eq). done.
  - intros Hu. exists uri. split; [done|]. apply String.eqb_refl.
Qed.

(** The session the endpoint stores for parameters [q]. *)
Definition new_session (r : Request) (q : list (string * string)) (id code : string) (t1 t2 : Z) : OIDCSession :=
  mkOIDCSession id (Header r "X-Subject-DID") (Get q "client_id") (Get q "redirect_uri") (Get q "scope")
    (Get q "nonce") (Get q "state") code (Get q "code_challenge") (Get q "code_challenge_method") "" ""
    (Header r "User-Agent") (remoteIP r) None t1 (t2 + codeTTL)%Z.

Lemma wp_authorize_with r q clk nc rnd nr flt nf d rev evs :
  wp (authorize_with r q) (λ resp w',
    (∃ loc, resp = Redirect loc) →
    ∃ c f, client_row (Get q "client_id") d = Ok c ∧ Get q "redirect_uri" ∈ c_RedirectURIs c ∧
      rnd nr = Some f ∧
      let code := Sha.hex (f <$> seq 0 32) in
      let id := "sess_" +s match rnd (S nr) with Some g => Sha.hex (g <$> seq 0 16) | None => "" end in
      let sess := new_session r q id code (clk nc) (clk (S nc)) in
      s_SubjectDID sess ≠ "" ∧ s_State sess ≠ "" ∧ s_CodeChallenge sess ≠ "" ∧
      s_CodeChallengeMethod sess = "S256" ∧
      resp = Redirect ((Get q "redirect_uri" +s "?code=" +s code) +s "&state=" +s Get q "state") ∧
      w' = mkWorld clk (2 + nc) rnd (2 + nr) flt (2 + nf)
             (mkSrv (set_oidc_sessions (upsert session_merge id sess (oidc_sessions d)) d) rev evs))
    (mkWorld clk nc rnd nr flt nf (mkSrv d rev evs)).
Proof.
  unfold authorize_with, GetClient, randomID, randomHex, SaveSession.
  repeat (wp_step; try by intros [? [=]]); intros _; exists a, f; (split; [done|]);
    rewrite Hr0; apply negb_false_iff, containsURI_spec in Heqb3; apply negb_false_iff, String.eqb_eq in Heqb2;
    rewrite !orb_false_iff in Heqb; destruct Heqb as [_ Hsub];
    (do 2 (split; [done|])); (do 3 (split; [by apply String.eqb_neq|])); (split; [done|]); done.
Qed.

(** The parameters a request stands for: its query, or, with a request_uri, its
    query overridden by an unexpired pushed request. *)
Definition effective_query (r : Request) (now : Z) (d : DB) (q : list (string * string)) : Prop :=
  let uri := Get (rq_query r) "request_uri" in
  uri = "" ∧ q = rq_query r ∨
  ∃ par ps, par_requests d !! uri = Some par ∧ (now ≤ par_ExpiresAt par)%Z ∧
    unmarshal_params (par_Params par) = Some ps ∧ q = foldl (λ acc kv, vset kv.1 kv.2 acc) (rq_query r) ps.

Lemma wp_resolvePARRequest uri clk nc rnd nr flt nf d rev evs Q :
  (∀ e nc' nf' d', (d' = d ∨ d' = set_par_requests (delete uri (par_requests d)) d) →
    Q (Err e) (mkWorld clk nc' rnd nr flt nf' (mkSrv d' rev evs))) →
  (∀ par ps, par_requests d !! uri = Some par → (clk nc ≤ par_ExpiresAt par)%Z →
    unmarshal_params (par_Params par) = Some ps →
    Q (Ok ps) (mkWorld clk (S nc) rnd nr flt (2 + nf)
      (mkSrv match flt (S nf) with
             | Some _ => d
             | None => set_par_requests (delete uri (par_requests d)) d
             end rev evs))) →
  wp (resolvePARRequest uri) Q (mkWorld clk nc rnd nr flt nf (mkSrv d rev evs)).
Proof.
  intros HE HO. unfold resolvePARRequest, GetPARRequest, DeletePARRequest.
  repeat wp_step; try (apply HE; by auto).
  - destruct (unmarshal_params (par_Params a)) eqn:Eu; [|apply HE; by auto].
    specialize (HO a l (select_Ok _ _ _ Heqr) ltac:(by apply Z.ltb_ge) Eu). by rewrite Hf0 in HO.
  - destruct (unmarshal_params (par_Params a)) eqn:Eu; [|apply HE; by auto].
    specialize (HO a l (select_Ok _ _ _ Heqr) ltac:(by apply Z.ltb_ge) Eu). by rewrite Hf0 in HO.
Qed.

(** What a redirect to [loc] for parameters [q] means, with the database before
    and after. *)
Definition authorized (r : Request) (q : list (string * string)) (d d' : DB) (loc : string) : Prop :=
  ∃ c code id t1 t2,
    client_row (Get q "client_id") d = Ok c ∧ Get q "redirect_uri" ∈ c_RedirectURIs c ∧
    loc = (Get q "redirect_uri" +s "?code=" +s code) +s "&state=" +s Get q "state" ∧
    Header r "X-Subject-DID" ≠ "" ∧ Get q "state" ≠ "" ∧ Get q "code_challenge" ≠ "" ∧
    Get q "code_challenge_method" = "S256" ∧
    (∀ k, id ≠ k → oidc_sessions d' !! k = oidc_sessions d !! k) ∧
    (oidc_sessions d !! id = None → oidc_sessions d' !! id = Some (new_session r q id code t1 t2)).

Lemma authorize_with_sound r q d rev evs clk nc rnd nr flt nf loc w' :
  authorize_with r q (mkWorld clk nc rnd nr flt nf (mkSrv d rev evs)) = (Redirect loc, w') →
  authorized r q d (db w') loc.
Proof.
  intros Hrun.
  pose proof (wp_run _ _ _ _ _ Hrun (wp_authorize_with r _ clk nc rnd nr flt nf d rev evs)
    (ex_intro _ loc eq_refl)) as (c & f & Hc & Huri & _ & Hsub & Hst & Hch & Hm & [= ->] & ->).
  do 5 eexists. do 2 (split; [done|]). split; [reflexivity|]. do 4 (split; [done|]). split.
  - intros k Hk. by apply lookup_upsert_ne.
  - by apply lookup_upsert_new.
Qed.

(** C7: The authorization endpoint redirects only where the client registered:
    a redirect means that, in the request's parameters (those of an unexpired
    pushed request overriding the query), the subject header, the state and an
    S256 PKCE challenge were present, the client exists, and the target is a
    redirect URI registered for it followed by the new code and the state; no
    other session row changed, and when the session's id is new its row holds
    the subject, the client, the challenge and the code, and expires five
    minutes after it was made. *)
Theorem authorize_sound r w loc w' :
  AuthorizeHandler r w = (Redirect loc, w') →
  ∃ q, effective_query r (w_clock w (w_nclock w)) (db w) q ∧ authorized r q (db w) (db w') loc.
Proof.
  destruct w as [clk nc rnd nr flt nf [d rev evs]]. cbn [w_state srv_db w_clock w_nclock].
  unfold AuthorizeHandler. destruct (String.eqb_spec (Get (rq_query r) "request_uri") "") as [E|E].
  { intros Hrun%authorize_with_sound. exists (rq_query r). split; [by left|done]. }
  intros Hrun. refine (wp_run _ (λ resp w', ∀ loc, resp = Redirect loc → ∃ q,
    effective_query r (clk nc) d q ∧ authorized r q d (db w') loc) _ _ _ Hrun _ loc eq_refl).
  apply wp_bind, wp_resolvePARRequest; [by intros; apply wp_ret|]. intros par ps Hpar Hexp Hps.
  apply wp_intro. intros resp w'' Hrun' loc' ->. apply authorize_with_sound in Hrun'.
  eexists. split; [by right; eauto 6|]. by destruct (flt (S nf)).
Qed.

Lemma resolvePAR_missing uri w :
  par_requests (db w) !! uri = None →
  fst (resolvePARRequest uri w) = Err (ErrMsg "par: request_uri not found").
Proof.
  destruct w as [clk nc rnd nr flt nf [d rev evs]]. cbn [w_state srv_db]. intros Hk.
  change (wp (resolvePARRequest uri) (λ r _, r = Err (ErrMsg "par: request_uri not found"))
    (mkWorld clk nc rnd nr flt nf (mkSrv d rev evs))).
  assert (select uri (par_requests d) = Err ErrNoRows) as Hsel by (unfold select; by rewrite Hk).
  unfold resolvePARRequest, GetPARRequest. repeat (wp_step; try done); congruence.
Qed.

(** A pushed authorization request works once: when the driver does not fail,
    resolving a request_uri removes it whatever the outcome, so that resolving it
    again fails; and resolving succeeds only for a stored request that had not
    expired. *)
Theorem par_single_use uri w :
  no_faults w →
  par_requests (db (snd (resolvePARRequest uri w))) = delete uri (par_requests (db w)) ∧
  (∀ ps, fst (resolvePARRequest uri w) = Ok ps →
     ∃ par, par_requests (db w) !! uri = Some par ∧ (w_clock w (w_nclock w) ≤ par_ExpiresAt par)%Z ∧
       unmarshal_params (par_Params par) = Some ps) ∧
  fst (resolvePARRequest uri (snd (resolvePARRequest uri w))) = Err (ErrMsg "par: request_uri not found").
Proof.
  intros Hnf. destruct w as [clk nc rnd nr flt nf [d rev evs]]. cbn [w_state srv_db w_clock w_nclock].
  assert (∀ n, flt n = None) as Hn by (intros n; apply (Hnf n)).
  assert (wp (resolvePARRequest uri) (λ res w', par_requests (db w') = delete uri (par_requests d) ∧
    (∀ ps, res = Ok ps → ∃ par, par_requests d !! uri = Some par ∧ (clk nc ≤ par_ExpiresAt par)%Z ∧
       unmarshal_params (par_Params par) = Some ps)) (mkWorld clk nc rnd nr flt nf (mkSrv d rev evs)))
    as [Hdb Hok].
  { unfold resolvePARRequest, GetPARRequest, DeletePARRequest.
    repeat wp_step; try congruence; (split; [try done|try done]).
    - intros ps. destruct (unmarshal_params (par_Params a)) eqn:Eu; simpl; [|done].
      intros [= <-]. exists a. split; [by apply select_Ok|]. split; [by apply Z.ltb_ge|done].
    - symmetry. by eapply delete_id, select_Err. }
  split; [done|]. split; [done|]. apply resolvePAR_missing. rewrite Hdb. apply lookup_delete_eq.
Qed.
(** ** From the authorization endpoint to the tokens *)

Lemma exchange_succeeds r clk nc rnd nr flt nf d rev evs sess :
  (∀ n, flt n = None) → (∀ n, is_Some (rnd n)) →
  FormValue r "code" ≠ "" → session_by_code (FormValue r "code") d = Ok sess →
  (clk nc ≤ s_ExpiresAt sess)%Z →
  s_CodeChallenge sess = pkce_challenge (FormValue r "code_verifier") → s_CodeChallenge sess ≠ "" →
  FormValue r "code_verifier" ≠ "" →
  (FormValue r "client_id" = "" ∨ FormValue r "client_id" = s_ClientID sess) →
  authenticated r (s_ClientID sess) d →
  wp (handleAuthCodeExchange p r) (λ resp _, ∃ raw,
    resp = writeTokenResponse (issued_access (s_SubjectDID sess) (s_ClientID sess) (clk (2 + nc)))
             (issued_id (s_SubjectDID sess) (s_ClientID sess) (s_Nonce sess) (clk (S nc)))
             raw (s_Scope sess) accessTokenTTL)
    (mkWorld clk nc rnd nr flt nf (mkSrv d rev evs)).
Proof.
  intros Hflt Hrnd Hcode Hsess Hexp Hpkce Hch Hver Hclient Hauth.
  assert (negb (FormValue r "client_id" =s "") && negb (FormValue r "client_id" =s s_ClientID sess) = false) as Hg.
  { destruct Hclient as [->| ->]; [done|]. by rewrite String.eqb_refl, andb_false_r. }
  apply String.eqb_neq in Hcode, Hver, Hch. apply Z.ltb_ge in Hexp. apply verifyPKCE_spec in Hpkce.
  unfold handleAuthCodeExchange, GetSessionByCode, load_unexpired, IssueIDToken, IssueAccessToken,
    generateRefreshToken, randomHex, new_refresh, SaveRefreshToken, DeleteSession.
  rewrite Hcode.
  repeat (wp_step; try congruence); simplify_eq; try congruence.
  { by rewrite Hpkce in Heqb3. }
  apply wp_validateClientAuth; [intros _ _|by intros e [Hx|Hx]; [rewrite Hflt in Hx|]].
  repeat (wp_step; try congruence); try (by destruct (Hrnd nr); congruence); eexists; reflexivity.
Qed.

(** C5: The code flow completes: when neither the driver nor the random source
    fails, a redirect of the authorization endpoint is followed, within five
    minutes, by a successful exchange for every request that presents the code,
    the verifier whose S256 hash is the challenge, and the client's credentials;
    the tokens name the subject of the authorization request and its client. The
    new code and session id are assumed not to be in the table yet. *)
Theorem code_flow_completes r r2 w loc w1 f g :
  no_faults w → rand_ok w → Get (rq_query r) "request_uri" = "" →
  AuthorizeHandler r w = (Redirect loc, w1) →
  w_rand w (w_nrand w) = Some f → w_rand w (S (w_nrand w)) = Some g →
  (∀ k s, oidc_sessions (db w) !! k = Some s → s_Code s ≠ Sha.hex (f <$> seq 0 32)) →
  oidc_sessions (db w) !! ("sess_" +s Sha.hex (g <$> seq 0 16)) = None →
  (w_clock w (2 + w_nclock w) ≤ w_clock w (1 + w_nclock w) + codeTTL)%Z →
  FormValue r2 "code" = Sha.hex (f <$> seq 0 32) →
  FormValue r2 "code_verifier" ≠ "" →
  pkce_challenge (FormValue r2 "code_verifier") = Query r "code_challenge" →
  (FormValue r2 "client_id" = "" ∨ FormValue r2 "client_id" = Query r "client_id") →
  authenticated r2 (Query r "client_id") (db w) →
  ∃ raw ta ti, fst (handleAuthCodeExchange p r2 w1) =
    writeTokenResponse (issued_access (Header r "X-Subject-DID") (Query r "client_id") ta)
      (issued_id (Header r "X-Subject-DID") (Query r "client_id") (Query r "nonce") ti)
      raw (Query r "scope") accessTokenTTL.
Proof.
  destruct w as [clk nc rnd nr flt nf [d rev evs]].
  cbn [w_state srv_db w_clock w_nclock w_rand w_nrand].
  intros Hnf Hro Hpar Hrun Hf Hg Hfresh Hid Htime Hcode Hver Hpkce Hclient Hauth.
  unfold AuthorizeHandler in Hrun. rewrite Hpar in Hrun.
  pose proof (wp_run _ _ _ _ _ Hrun (wp_authorize_with r _ clk nc rnd nr flt nf d rev evs)
    (ex_intro _ loc eq_refl)) as (c & f' & _ & _ & Hf' & _ & _ & Hch & _ & _ & ->).
  rewrite Hf in Hf'. injection Hf' as <-. rewrite Hg. clear Hrun.
  set (sess := new_session r (rq_query r) _ _ _ _).
  pose proof (lookup_upsert_new session_merge _ sess _ Hid) as Hnew.
  set (sessions := upsert session_merge _ sess _) in *.
  refine (_ (exchange_succeeds r2 clk (2 + nc) rnd (2 + nr) flt (2 + nf) (set_oidc_sessions sessions d)
    rev evs sess _ _ _ _ _ _ _ _ _ _)).
  - intros [raw E]. eexists raw, _, _. exact E.
  - intros n. apply (Hnf n).
  - intros n. apply (Hro n).
  - rewrite Hcode. apply Sha.hex_nonempty.
  - eapply session_by_code_unique; [exact Hnew|by rewrite Hcode|].
    intros k' s' Hk' Hc'. destruct (decide (k' = "sess_" +s Sha.hex (g <$> seq 0 16))) as [->|Hne].
    + change (sessions !! ("sess_" +s Sha.hex (g <$> seq 0 16)) = Some s') in Hk'. congruence.
    + change (sessions !! k' = Some s') in Hk'. unfold sessions in Hk'.
      rewrite lookup_upsert_ne in Hk' by done. destruct (Hfresh k' s' Hk'). congruence.
  - done.
  - by rewrite Hpkce.
  - done.
  - done.
  - done.
  - done.
Qed.
End Flow.

(** ** A concrete deployment, where the hypotheses above hold *)

#[local] Existing Instance digest_scheme.
#[local] Existing Instance digest_scheme_ok.

Definition sample_provider : Provider := mkProvider "https://id.example" sample_key "k1".
Definition sample_client : ClientRow :=
  mkClientRow "app" "" "App" (marshal_or_empty ["https://app/cb"]) "none" "" "" "openid" "" "" "" 0.
Definition sample_session : OIDCSession :=
  mkOIDCSession "sess_1" "did:key:alice" "app" "https://app/cb" "openid" "n" "st" "c0de"
    (pkce_challenge "verifier") "S256" "" "" "" "" None (1000 * second) (1300 * second).
Definition sample_refresh : RefreshToken :=
  mkRefreshToken (hashToken "r0") "did:key:alice" "app" "openid" (1000 * second) (2000 * second) None.
Definition sample_par : PARRequest :=
  mkPARRequest "urn:1" "app" (marshal_params [("scope", "openid")]) (1090 * second) (1000 * second).
Definition sample_db : DB :=
  set_par_requests {[ "urn:1" := sample_par ]}
  (set_refresh_tokens {[ hashToken "r0" := sample_refresh ]}
  (set_oidc_sessions {[ "sess_1" := sample_session ]}
  (set_oidc_clients {[ "app" := sample_client ]} (empty_db true)))).
Definition sample_srv (d : DB) : World Srv :=
  mkWorld (λ n, (1001 + Z.of_nat n) * second)%Z 0 (λ n, Some (λ i, byte_of_N (N.of_nat (i + 32 * n)))) 0
    (λ _, None) 0 (mkSrv d ∅ []).
Definition form_request (l : list (string * string)) : Request := mkRequest [] (Some l) [] None [] "" None.
Definition exchange_request : Request := form_request [("code", "c0de"); ("code_verifier", "verifier")].
Definition refresh_request : Request := form_request [("refresh_token", "r0")].
Definition authorize_request : Request :=
  mkRequest [("client_id", "app"); ("redirect_uri", "https://app/cb"); ("state", "s"); ("scope", "openid");
             ("code_challenge", pkce_challenge "verifier"); ("code_challenge_method", "S256")]
    None [("X-Subject-DID", "did:key:alice")] None [] "10.0.0.1:99" None.

Lemma keyed_singleton {V} (key : V → string) k v : key v = k → keyed key {[ k := v ]}.
Proof. intros Hv. apply keyed_insert; [done|apply keyed_empty]. Qed.
Lemma sample_wf : srv_wf (w_state (sample_srv sample_db)).
Proof.
  split; cbn [w_state srv_db sample_srv]; unfold sample_db;
    cbn [identities credentials consent_grants consent_receipts oidc_sessions oidc_clients refresh_tokens
      external_provider_links magic_link_tokens webauthn_credentials totp_credentials
      webhook_subscriptions auth_failures recovery_configs recovery_requests recovery_shares
      par_requests device_codes password_reset_tokens privacy_disclosures credential_offers audit_log
      set_par_requests set_refresh_tokens set_oidc_sessions set_oidc_clients empty_db];
    lazymatch goal with
    | |- keyed _ ∅ => apply keyed_empty
    | |- keyed _ {[ _ := _ ]} => apply keyed_singleton; reflexivity
    | |- _ => idtac
    end.
  - intros ????. by rewrite lookup_empty.
  - by intros i e; rewrite lookup_nil.
Qed.
Lemma sample_exchange_ok :
  status_of (fst (handleAuthCodeExchange sample_provider exchange_request (sample_srv sample_db))) = StatusOK.
Proof. vm_compute. reflexivity. Qed.

Lemma code_exchange_sound_witness : ∃ sess,
  redeemable exchange_request (1001 * second) sample_db sess.
Proof.
  destruct (code_exchange_sound sample_provider exchange_request (sample_srv sample_db) _ _
    (surjective_pairing _) sample_exchange_ok) as (sess & _ & _ & _ & _ & _ & Hr & _).
  by exists sess.
Defined.

Lemma sample_codes_unique k1 k2 s1 s2 :
  oidc_sessions (db (sample_srv sample_db)) !! k1 = Some s1 →
  oidc_sessions (db (sample_srv sample_db)) !! k2 = Some s2 → s_Code s1 = s_Code s2 → s1 = s2.
Proof.
  change (oidc_sessions _) with ({[ "sess_1" := sample_session ]} : gmap string OIDCSession).
  intros [_ <-]%lookup_singleton_Some [_ <-]%lookup_singleton_Some. done.
Qed.

Lemma code_single_use_witness :
  fst (handleAuthCodeExchange sample_provider exchange_request
    (snd (handleAuthCodeExchange sample_provider exchange_request (sample_srv sample_db))))
  = writeError "invalid_grant" "code not found or expired".
Proof.
  apply (code_single_use sample_provider exchange_request exchange_request (sample_srv sample_db)
    _ _ sample_wf (λ _, eq_refl) sample_codes_unique (surjective_pairing _) sample_exchange_ok eq_refl).
Defined.

Lemma sample_refresh_ok :
  status_of (fst (handleRefreshTokenGrant sample_provider refresh_request (sample_srv sample_db))) = StatusOK.
Proof. vm_compute. reflexivity. Qed.

Lemma refresh_rotation_witness : ∃ rt,
  refresh_tokens sample_db !! hashToken "r0" = Some rt ∧ rt_UsedAt rt = None.
Proof.
  destruct (refresh_rotation sample_provider refresh_request (sample_srv sample_db) _ _ sample_wf
    (λ _, eq_refl) (surjective_pairing _) sample_refresh_ok) as (rt & _ & _ & _ & _ & _ & H & _ & Hu & _).
  exists rt. split; [exact H|exact Hu].
Defined.

Definition replayed_db : DB :=
  set_refresh_tokens {[ hashToken "r0" := mark_used sample_refresh 0 ]} sample_db.
Lemma refresh_replay_detected_witness :
  status_of (fst (handleRefreshTokenGrant sample_provider refresh_request (sample_srv replayed_db)))
    = StatusBadRequest.
Proof.
  apply (refresh_replay_detected sample_provider refresh_request (sample_srv replayed_db)
    (mark_used sample_refresh 0) 0); [|reflexivity].
  change (refresh_tokens _) with ({[ hashToken "r0" := mark_used sample_refresh 0 ]} : gmap string RefreshToken).
  change (FormValue refresh_request "refresh_token") with "r0". apply lookup_singleton_eq.
Defined.

Definition sample_code : string := Sha.hex ((λ i, byte_of_N (N.of_nat (i + 0))) <$> seq 0 32).
Lemma sample_authorize_ok :
  fst (AuthorizeHandler authorize_request (sample_srv sample_db)) =
  Redirect ((("https://app/cb" +s "?code=" +s sample_code) +s "&state=" +s "s")).
Proof. vm_compute. reflexivity. Qed.
Lemma sample_authorize_run :
  AuthorizeHandler authorize_request (sample_srv sample_db) =
  (Redirect ((("https://app/cb" +s "?code=" +s sample_code) +s "&state=" +s "s")),
   snd (AuthorizeHandler authorize_request (sample_srv sample_db))).
Proof. rewrite <-sample_authorize_ok. apply surjective_pairing. Qed.

Lemma authorize_sound_witness : ∃ q,
  effective_query authorize_request (1001 * second) sample_db q.
Proof.
  destruct (authorize_sound authorize_request (sample_srv sample_db) _ _ sample_authorize_run)
    as (q & Hq & _). by exists q.
Defined.

Lemma par_single_use_witness :
  fst (resolvePARRequest "urn:1" (snd (resolvePARRequest "urn:1" (sample_srv sample_db))))
  = Err (ErrMsg "par: request_uri not found").
Proof. apply (par_single_use "urn:1" (sample_srv sample_db)). intros n. reflexivity. Defined.

Definition empty_sessions : DB := set_oidc_sessions ∅ sample_db.
Lemma sample_authorize_run' :
  AuthorizeHandler authorize_request (sample_srv empty_sessions) =
  (Redirect ((("https://app/cb" +s "?code=" +s sample_code) +s "&state=" +s "s")),
   snd (AuthorizeHandler authorize_request (sample_srv empty_sessions))).
Proof.
  assert (fst (AuthorizeHandler authorize_request (sample_srv empty_sessions)) =
    Redirect ((("https://app/cb" +s "?code=" +s sample_code) +s "&state=" +s "s"))) as <-
    by (vm_compute; reflexivity).
  apply surjective_pairing.
Qed.
Definition flow_request : Request :=
  form_request [("code", sample_code); ("code_verifier", "verifier"); ("client_id", "app")].

Lemma code_flow_completes_witness : ∃ raw ta ti,
  fst (handleAuthCodeExchange sample_provider flow_request
         (snd (AuthorizeHandler authorize_request (sample_srv empty_sessions)))) =
  writeTokenResponse (issued_access sample_provider "did:key:alice" "app" ta)
    (issued_id sample_provider "did:key:alice" "app" "" ti) raw "openid" accessTokenTTL.
Proof.
  apply (code_flow_completes sample_provider authorize_request flow_request (sample_srv empty_sessions)
    _ _ (λ i, byte_of_N (N.of_nat (i + 32 * 0))) (λ i, byte_of_N (N.of_nat (i + 32 * 1)))
    (λ _, eq_refl) (λ _, ltac:(by eexists)) eq_refl sample_authorize_run' eq_refl eq_refl).
  - intros k s Hk. change (oidc_sessions _) with (∅ : gmap string OIDCSession) in Hk.
    by rewrite lookup_empty in Hk.
  - change (oidc_sessions _) with (∅ : gmap string OIDCSession). apply lookup_empty.
  - by vm_compute.
  - reflexivity.
  - done.
  - reflexivity.
  - by right.
  - eexists. split; [reflexivity|by left].
Defined.
End ProviderProofs.
