(* ===== verification/Did.v ===== *)
(** * Decentralised identifiers (pkg/did, internal/resolver)

    The methods did:key, did:peer and did:web with the registry that dispatches
    on the method name, the address filter of the did:web client, and the cache
    in front of resolution.  The multibase package is a parameter. *)

From S2P Require Import Prelude GoStd World Base64 Consent StoreTypes Store.
Import Types.

(** github.com/multiformats/go-multibase: [Encode(Base58BTC, _)] and [Decode]. *)
Class Multibase := {
  base58btc_encode : list byte → result string;
  multibase_decode : string → result (list byte) }.
(** Documented: every byte string has a base58btc form, which [Decode] reads back. *)
Class MultibaseOk `{Multibase} : Prop := {
  multibase_roundtrip b : ∃ s, base58btc_encode b = Ok s ∧ multibase_decode s = Ok b }.

Module Did.

(** Error values carry the message without its formatted arguments.

    ** Documents *)

Definition DefaultContext : list string :=
  ["https://www.w3.org/ns/did/v1"; "https://w3id.org/security/suites/ed25519-2020/v1";
   "https://w3id.org/security/suites/x25519-2020/v1"].

Record CreateOptions := mkCreateOptions {
  co_Domain : string; co_SigningPub : list byte; co_EncPub : list byte }.

(** A document with one signing key, and one key-agreement key where given. *)
Definition key_method (id type did mb : string) : VerificationMethod :=
  mkVerificationMethod id type did (Some mb) false None.
Definition base_document (did sigKeyID sigPubMB : string) (enc : option (string * string))
    (created : option Z) : Document :=
  mkDocument DefaultContext did ""
    (key_method sigKeyID "Ed25519VerificationKey2020" did sigPubMB ::
     match enc with
     | Some (encKeyID, encPubMB) => [key_method encKeyID "X25519KeyAgreementKey2020" did encPubMB]
     | None => []
     end)
    [sigKeyID]
    match enc with Some (encKeyID, _) => [encKeyID] | None => [] end
    [sigKeyID] [] created created.

(** ** Variable-length integers *)

(** uint64 arguments; seven bits per byte, least significant group first. *)
Fixpoint uvarint_go (fuel : nat) (x : N) : list byte :=
  match fuel with
  | O => []
  | S fuel' =>
      if (x <? 128)%N then [byte_of_N x]
      else byte_of_N (N.lor (x mod 256) 128) :: uvarint_go fuel' (N.shiftr x 7)
  end.
(** The buffer has ten bytes, enough for 64 bits. *)
Definition uvarint (x : N) : list byte := uvarint_go 10 x.

Definition w64 (x : N) : N := (x mod 2 ^ 64)%N.
(** [uint64(c) << s]: zero once the shift reaches the width. *)
Definition shl64 (x s : N) : N := w64 (N.shiftl x s).
Fixpoint decodeUvarint_go (i : nat) (x s : N) (b : list byte) : N * nat :=
  match b with
  | [] => (0%N, 0)
  | c :: b' =>
      if (bval c <? 128)%N then (N.lor x (shl64 (bval c) s), S i)
      else decodeUvarint_go (S i) (N.lor x (shl64 (N.land (bval c) 127) s)) (s + 7) b'
  end.
Definition decodeUvarint (b : list byte) : N * nat := decodeUvarint_go 0 0 0 b.

Section Methods.
Context `{Multibase}.

Definition toMultibase (key : list byte) (codec : N) : string :=
  let raw := uvarint codec ++ key in
  match base58btc_encode raw with
  | Ok enc => enc
  | Err _ => "u" +s Base64.EncodeToString raw
  end.

(** ** did:key *)

Definition encodeKeyDID (pub : list byte) : result string :=
  match base58btc_encode ([xed; x01] ++ pub) with
  | Ok mb => Ok ("did:key:" +s mb)
  | Err e => Err (ErrWrap "did:key encode" e)
  end.

Definition keyDocument (did : string) (sigPub encPub : list byte) : Document :=
  let sigKeyID := did +s "#" +s TrimPrefix did "did:key:" in
  base_document did sigKeyID (toMultibase sigPub 237)
    (if Nat.eqb (length encPub) 32 then Some (did +s "#enc", toMultibase encPub 236) else None) None.

Definition key_Create (opts : CreateOptions) : result (string * Document) :=
  if negb (Nat.eqb (length (co_SigningPub opts)) 32)
  then Err (ErrMsg "did:key requires a 32-byte Ed25519 public key")
  else match encodeKeyDID (co_SigningPub opts) with
       | Err e => Err e
       | Ok did => Ok (did, keyDocument did (co_SigningPub opts) (co_EncPub opts))
       end.

Definition key_Resolve (did : string) : result Document :=
  if negb (HasPrefix did "did:key:") then Err (ErrMsg "did:key: invalid DID")
  else match multibase_decode (TrimPrefix did "did:key:") with
       | Err e => Err (ErrWrap "did:key decode" e)
       | Ok raw =>
           if Nat.ltb (length raw) 3 then Err (ErrMsg "did:key: too short")
           else let '(codec, n) := decodeUvarint raw in
                if negb (codec =? 237)%N then Err (ErrMsg "did:key: unsupported multicodec")
                else let pubKey := drop n raw in
                     if negb (Nat.eqb (length pubKey) 32)
                     then Err (ErrMsg "did:key: invalid ed25519 key length")
                     else Ok (keyDocument did pubKey [])
       end.

(** ** did:peer: documents kept in this process *)

Definition base64RawURL (b : list byte) : string := Base64.EncodeToString b.

Definition peer_Create (opts : CreateOptions) (docs : gmap string Document)
    : result (string * Document) * gmap string Document :=
  if negb (Nat.eqb (length (co_SigningPub opts)) 32)
  then (Err (ErrMsg "did:peer requires a 32-byte Ed25519 public key"), docs)
  else
    let mb := "u" +s base64RawURL ([xed; x01] ++ co_SigningPub opts) in
    let did := "did:peer:0" +s mb in
    let enc := if Nat.eqb (length (co_EncPub opts)) 32
               then Some (did +s "#key-2", "z" +s base64RawURL ([xec; x01] ++ co_EncPub opts))
               else None in
    let doc := base_document did (did +s "#key-1") mb enc None in
    (Ok (did, doc), <[did := doc]> docs).

Definition peer_Resolve (did : string) (docs : gmap string Document) : result Document :=
  if negb (HasPrefix did "did:peer:") then Err (ErrMsg "did:peer: invalid DID")
  else of_option (ErrMsg "did:peer: document not found locally") (docs !! did).

Definition StoreDocument (doc : Document) (docs : gmap string Document)
    : result unit * gmap string Document :=
  if doc_ID doc =s "" then (Err (ErrMsg "did:peer: document has no ID"), docs)
  else (Ok tt, <[doc_ID doc := doc]> docs).

(** ** did:web *)

Definition web_Create (now : Z) (opts : CreateOptions) : result (string * Document) :=
  if co_Domain opts =s "" then Err (ErrMsg "did:web requires a domain")
  else if Nat.eqb (length (co_SigningPub opts)) 0 then Err (ErrMsg "did:web requires a signing public key")
  else
    let did := "did:web:" +s co_Domain opts in
    let enc := if Nat.ltb 0 (length (co_EncPub opts))
               then Some (did +s "#enc-key-1", toMultibase (co_EncPub opts) 236) else None in
    Ok (did, base_document did (did +s "#signing-key-1") (toMultibase (co_SigningPub opts) 237) enc (Some now)).

(** [strings.Join] with a slash. *)
Fixpoint join_slash (l : list string) : string :=
  match l with
  | [] => ""
  | [s] => s
  | s :: l' => s +s "/" +s join_slash l'
  end.

Definition didWebURL (did : string) : result string :=
  let rest := TrimPrefix did "did:web:" in
  if rest =s did then Err (ErrMsg "not a did:web DID")
  else match Split rest x3a with
       | [] => Ok ("https://" +s "" +s "/.well-known/did.json")
       | [domain] => Ok ("https://" +s domain +s "/.well-known/did.json")
       | domain :: path => Ok ("https://" +s domain +s "/" +s join_slash path +s "/did.json")
       end.

Definition HasSuffix (s suffix : string) : bool :=
  bprefix (rev (bytes_of suffix)) (rev (bytes_of s)).

Definition checkAllowlist (allowedDomains : list string) (did : string) : result unit :=
  let rest := TrimPrefix did "did:web:" in
  let domain := default "" (head (SplitN rest x3a 2)) in
  if existsb (λ allowed, (domain =s allowed) || HasSuffix domain ("." +s allowed)) allowedDomains
  then Ok tt else Err (ErrMsg "did:web: domain not in allowlist").

(** [get] is the HTTP client: the status and the body, at most 1 MiB of it. *)
Definition web_Resolve `{JsonCodec Document} (get : string → result (Z * string))
    (allowedDomains : list string) (did : string) : result Document :=
  match didWebURL did with
  | Err e => Err e
  | Ok url =>
      match (match allowedDomains with [] => Ok tt | _ => checkAllowlist allowedDomains did end) with
      | Err e => Err e
      | Ok _ =>
          match get url with
          | Err e => Err (ErrWrap "did:web resolve" e)
          | Ok (status, body) =>
              if negb (status =? 200)%Z then Err (ErrMsg "did:web resolve: HTTP status")
              else wrap_err "did:web parse" (json_unmarshal body)
          end
      end
  end.

(** ** The registry *)

Definition prefix (did : string) : result string :=
  match SplitN did x3a 3 with
  | p0 :: p1 :: _ :: _ => if p0 =s "did" then Ok p1 else Err (ErrMsg "did: malformed DID")
  | _ => Err (ErrMsg "did: malformed DID")
  end.

Record Config := mkConfig { cfg_allowed : list string; cfg_get : string → result (Z * string) }.

(** The methods registered at init time: key, peer and web. *)
Definition Create `{JsonCodec Document} (methodName : string) (opts : CreateOptions) (now : Z)
    (docs : gmap string Document) : result (string * Document) * gmap string Document :=
  if methodName =s "key" then (key_Create opts, docs)
  else if methodName =s "peer" then peer_Create opts docs
  else if methodName =s "web" then (web_Create now opts, docs)
  else (Err (ErrMsg "did: unsupported method"), docs).

Definition Resolve `{JsonCodec Document} (cfg : Config) (docs : gmap string Document) (did : string)
    : result Document :=
  match prefix did with
  | Err e => Err e
  | Ok p =>
      if p =s "key" then key_Resolve did
      else if p =s "peer" then peer_Resolve did docs
      else if p =s "web" then web_Resolve (cfg_get cfg) (cfg_allowed cfg) did
      else Err (ErrMsg "did: unsupported method")
  end.
End Methods.

(** ** The address filter of the did:web client *)

(** What [net.ParseIP] returns, with IPv4-mapped addresses in their four-byte
    form (every test below first calls [To4]). *)
Inductive IP := V4 (n : N) | V6 (n : N).
Definition To4 (ip : IP) : IP :=
  match ip with
  | V6 n => if (N.shiftr n 32 =? 65535)%N then V4 (n mod 2 ^ 32) else V6 n
  | V4 n => V4 n
  end.
Definition IsLoopback (ip : IP) : bool :=
  match To4 ip with V4 n => (N.shiftr n 24 =? 127)%N | V6 n => (n =? 1)%N end.
Definition IsLinkLocalUnicast (ip : IP) : bool :=
  match To4 ip with V4 n => (N.shiftr n 16 =? 169 * 256 + 254)%N | V6 n => (N.shiftr n 118 =? 1018)%N end.
Definition IsLinkLocalMulticast (ip : IP) : bool :=
  match To4 ip with
  | V4 n => (N.shiftr n 8 =? 14680064)%N
  | V6 n => ((N.shiftr n 120 =? 255) && (N.land (N.shiftr n 112) 15 =? 2))%N
  end.
(** A CIDR block: the address and the number of leading bits that count. *)
Definition Contains (block : IP * N) (ip : IP) : bool :=
  match block.1, To4 ip with
  | V4 b, V4 n => (N.shiftr n (32 - block.2) =? N.shiftr b (32 - block.2))%N
  | V6 b, V6 n => (N.shiftr n (128 - block.2) =? N.shiftr b (128 - block.2))%N
  | _, _ => false
  end.
Definition quad (a b c d : N) : IP := V4 (a * 2 ^ 24 + b * 2 ^ 16 + c * 2 ^ 8 + d).
Definition privateRanges : list (IP * N) :=
  [(quad 10 0 0 0, 8); (quad 172 16 0 0, 12); (quad 192 168 0 0, 16); (quad 127 0 0 0, 8);
   (V6 1, 128); (V6 (N.shiftl 252 120), 7); (quad 169 254 0 0, 16); (V6 (N.shiftl 65152 112), 10);
   (quad 100 64 0 0, 10); (quad 198 18 0 0, 15); (quad 203 0 113 0, 24); (quad 0 0 0 0, 8)]%N.
Definition isPrivateIP (ip : IP) : bool :=
  IsLoopback ip || IsLinkLocalUnicast ip || IsLinkLocalMulticast ip
  || existsb (λ block, Contains block ip) privateRanges.

(** [lookup] is the system resolver, [parse] is [net.ParseIP], [dial] the
    default dialer, which is given the name again. *)
Definition ssrfDialer {Conn} (lookup : string → result (list string)) (parse : string → option IP)
    (split_host : string → result string) (dial : string → result Conn) (addr : string) : result Conn :=
  match split_host addr with
  | Err e => Err (ErrWrap "did:web ssrf: parse addr" e)
  | Ok host =>
      match lookup host with
      | Err e => Err (ErrWrap "did:web ssrf: resolve host" e)
      | Ok ips =>
          if existsb (λ s, match parse s with Some ip => isPrivateIP ip | None => false end) ips
          then Err (ErrMsg "did:web ssrf: resolves to private/loopback address")
          else dial addr
      end
  end.

(** ** The cache (internal/resolver/resolver.go) *)

Module Cache.
Record entry := mkEntry { e_doc : Document; e_expires : Z }.
Record Resolver := mkResolver { r_ttl : Z; r_cache : gmap string entry }.
Definition NewResolver (ttl : Z) : Resolver := mkResolver (if (ttl =? 0)%Z then 5 * minute else ttl)%Z ∅.

(** [upstream] is the answer of [did.Resolve], if it is asked; [now1] and [now2]
    are the readings of the clock before and after. *)
Definition CachedResolve (id : string) (now1 : Z) (upstream : result Document) (now2 : Z) (r : Resolver)
    : result Document * Resolver :=
  match r_cache r !! id with
  | Some e =>
      if (now1 <? e_expires e)%Z then (Ok (e_doc e), r)
      else match upstream with
           | Err e => (Err (ErrWrap "resolver" e), r)
           | Ok doc => (Ok doc, mkResolver (r_ttl r) (<[id := mkEntry doc (now2 + r_ttl r)%Z]> (r_cache r)))
           end
  | None =>
      match upstream with
      | Err e => (Err (ErrWrap "resolver" e), r)
      | Ok doc => (Ok doc, mkResolver (r_ttl r) (<[id := mkEntry doc (now2 + r_ttl r)%Z]> (r_cache r)))
      end
  end.
Definition Invalidate (id : string) (r : Resolver) : Resolver :=
  mkResolver (r_ttl r) (delete id (r_cache r)).
Definition Purge (now : Z) (r : Resolver) : Resolver :=
  mkResolver (r_ttl r) (filter (λ kv, (now <=? e_expires kv.2)%Z = true) (r_cache r)).

Inductive Op :=
| OpResolve (id : string) (now1 : Z) (upstream : result Document) (now2 : Z)
| OpInvalidate (id : string)
| OpPurge (now : Z).
Definition run_op (r : Resolver) (op : Op) : Resolver :=
  match op with
  | OpResolve id now1 up now2 => snd (CachedResolve id now1 up now2 r)
  | OpInvalidate id => Invalidate id r
  | OpPurge now => Purge now r
  end.

(** [doc] is what the upstream resolver answered for [id] in one of the
    operations, at an instant [t]. *)
Definition answered (ops : list Op) (id : string) (doc : Document) (t : Z) : Prop :=
  ∃ now1, OpResolve id now1 (Ok doc) t ∈ ops.
Definition sourced (ops : list Op) (r : Resolver) : Prop :=
  ∀ id e, r_cache r !! id = Some e → ∃ t, answered ops id (e_doc e) t ∧ e_expires e = (t + r_ttl r)%Z.

Lemma answered_app ops op id doc t : answered ops id doc t → answered (ops ++ [op]) id doc t.
Proof. intros [now1 Hn]. exists now1. set_solver. Qed.

Lemma run_op_sourced ops op r : sourced ops r → sourced (ops ++ [op]) (run_op r op).
Proof.
  intros Hs. assert (sourced (ops ++ [op]) r) as Hs'.
  { intros id e He. destruct (Hs id e He) as (t & Ha & Ht). exists t. split; [by apply answered_app|done]. }
  destruct op as [id now1 up now2|id|now]; simpl.
  - assert (∀ doc, up = Ok doc →
      sourced (ops ++ [OpResolve id now1 up now2])
        (mkResolver (r_ttl r) (<[id := mkEntry doc (now2 + r_ttl r)%Z]> (r_cache r)))) as Hnew.
    { intros doc -> id' e He. simpl in He. apply lookup_insert_Some in He as [[<- <-]|[_ He]]; [|by apply Hs'].
      exists now2. split; [|done]. exists now1. set_solver. }
    unfold CachedResolve. destruct (r_cache r !! id) as [e|]; [destruct (_ <? _)%Z; [done|]|];
      (destruct up; [by apply Hnew|done]).
  - intros id' e He. cbn in He. apply lookup_delete_Some in He as [_ He]. by apply Hs'.
  - intros id' e He. cbn in He. apply map_lookup_filter_Some in He as [He _]. by apply Hs'.
Qed.
Lemma run_op_ttl ops r : r_ttl (foldl run_op r ops) = r_ttl r.
Proof.
  revert r. induction ops as [|op ops IH]; intros r; [done|]. simpl. rewrite IH.
  destruct op; simpl; [unfold CachedResolve|done..]. repeat case_match; done.
Qed.
Lemma run_ops_sourced ops ttl : sourced ops (foldl run_op (NewResolver ttl) ops).
Proof.
  induction ops as [|op ops IH] using rev_ind; [by intros id e|].
  rewrite foldl_snoc. by apply run_op_sourced.
Qed.

(** after any history of resolutions, invalidations and purges, a document
    the cache answers with is the upstream resolver's answer for that very
    identifier, given now or less than the cache's lifetime before. *)
Theorem cache_freshness ops ttl id now1 up now2 doc :
  fst (CachedResolve id now1 up now2 (foldl run_op (NewResolver ttl) ops)) = Ok doc →
  up = Ok doc ∨
  ∃ t, answered ops id doc t ∧ (now1 < t + if ttl =? 0 then 5 * minute else ttl)%Z.
Proof.
  pose proof (run_ops_sourced ops ttl) as Hs. pose proof (run_op_ttl ops (NewResolver ttl)) as Ht.
  unfold CachedResolve. destruct (_ !! id) as [e|] eqn:E.
  2:{ destruct up as [d|]; [|done]. intros [= <-]. by left. }
  destruct (Z.ltb_spec now1 (e_expires e)) as [Hlt|].
  2:{ destruct up as [d|]; [|done]. intros [= <-]. by left. }
  intros [= <-]. right. destruct (Hs id e E) as (t & Ha & He). exists t. split; [done|].
  rewrite He, Ht in Hlt. exact Hlt.
Qed.

Definition doc_a : Document := mkDocument DefaultContext "did:web:a" "" [] [] [] [] [] None None.
Lemma cache_freshness_witness :
  fst (CachedResolve "did:web:a" (200 * second) (Err ErrNoRows) 0
         (foldl run_op (NewResolver 0) [OpResolve "did:web:a" 0 (Ok doc_a) second])) = Ok doc_a ∧
  ∃ t, answered [OpResolve "did:web:a" 0 (Ok doc_a) second] "did:web:a" doc_a t ∧ (200 * second < t + 5 * minute)%Z.
Proof.
  split; [reflexivity|].
  destruct (cache_freshness [OpResolve "did:web:a" 0 (Ok doc_a) second] 0 "did:web:a" (200 * second)
    (Err ErrNoRows) 0 doc_a eq_refl) as [E|Ht]; [discriminate E|exact Ht].
Defined.
End Cache.

(** ** Variable-length integers *)

Lemma land_shiftl_low a x s : (a < 2 ^ s)%N → N.land a (N.shiftl x s) = 0%N.
Proof.
  intros Ha. apply N.bits_inj_0. intros i. rewrite N.land_spec.
  destruct (N.lt_ge_cases i s) as [Hi|Hi].
  - by rewrite N.shiftl_spec_low, andb_false_r.
  - by rewrite <-(N.mod_small a (2 ^ s)), N.mod_pow2_bits_high.
Qed.
Lemma lor_shiftl a x s : (a < 2 ^ s)%N → N.lor a (N.shiftl x s) = (a + x * 2 ^ s)%N.
Proof.
  intros Ha%(land_shiftl_low a x s). rewrite <-N.lxor_lor, <-N.add_nocarry_lxor by done.
  by rewrite N.shiftl_mul_pow2.
Qed.

(** The byte that carries the low seven bits of a number that has more. *)
Lemma low_group x :
  let c := byte_of_N (N.lor (x mod 256) 128) in
  (bval c <? 128)%N = false ∧ N.land (bval c) 127 = (x mod 128)%N.
Proof.
  assert (x mod 128 = (x mod 256) mod 128)%N as ->.
  { zify. Z.to_euclidean_division_equations. lia. }
  rewrite <-bval_byte_of_N. generalize (byte_of_N x). intros b.
  assert (∀ b, let c := byte_of_N (N.lor (bval b) 128) in
    negb (bval c <? 128)%N && (N.land (bval c) 127 =? bval b mod 128)%N = true) as Hall.
  { apply forall_bytes. vm_compute. reflexivity. }
  specialize (Hall b). apply andb_true_iff in Hall as [H1 H2].
  split; [by apply negb_true_iff|by apply N.eqb_eq].
Qed.

Lemma decodeUvarint_go_spec fuel i a s x r :
  (x < 2 ^ (7 * N.of_nat fuel))%N → (a < 2 ^ s)%N → (x * 2 ^ s < 2 ^ 64)%N → 0 < fuel →
  decodeUvarint_go i a s (uvarint_go fuel x ++ r) = (a + x * 2 ^ s, (i + length (uvarint_go fuel x))%nat)%N.
Proof.
  revert i a s x. induction fuel as [|fuel IH]; intros i a s x Hx Ha Hb Hf; [lia|].
  cbn [uvarint_go]. destruct (N.ltb_spec x 128) as [Hs|Hs]; cbn [app decodeUvarint_go length].
  - rewrite bval_byte_of_N, N.mod_small by lia. destruct (N.ltb_spec x 128); [|lia].
    unfold shl64, w64. rewrite N.mod_small by (by rewrite N.shiftl_mul_pow2).
    rewrite lor_shiftl by done. f_equal. lia.
  - destruct (low_group x) as [-> ->].
    pose proof (N.div_mod x 128 ltac:(done)) as Hdm. pose proof (N.mod_lt x 128 ltac:(done)) as Hm.
    assert (2 ^ (s + 7) = 2 ^ s * 128)%N as Hp by (by rewrite N.pow_add_r).
    unfold shl64, w64. rewrite N.mod_small by (rewrite N.shiftl_mul_pow2; nia).
    rewrite lor_shiftl by done. change 128%N with (2 ^ 7)%N in Hdm at 1.
    rewrite N.shiftr_div_pow2. change (2 ^ 7)%N with 128%N in *. rewrite IH.
    + f_equal; [|lia]. rewrite Hp. clear -Hdm. revert Hdm.
      generalize (x mod 128)%N (x / 128)%N. intros m q ->. ring.
    + replace (7 * N.of_nat (S fuel))%N with (7 + 7 * N.of_nat fuel)%N in Hx by lia.
      rewrite N.pow_add_r in Hx. apply N.Div0.div_lt_upper_bound. exact Hx.
    + rewrite Hp. clear -Ha Hm. generalize dependent (2 ^ s)%N. intros P Ha. nia.
    + rewrite Hp. clear -Hb Hdm. revert Hb Hdm.
      generalize (2 ^ s)%N (x mod 128)%N (x / 128)%N. intros P m q Hb ->.
      rewrite N.mul_add_distr_r in Hb. lia.
    + destruct fuel; [|lia]. change (2 ^ (7 * N.of_nat 1))%N with 128%N in Hx. lia.
Qed.

Lemma decodeUvarint_prefix x r :
  (x < 2 ^ 64)%N → decodeUvarint (uvarint x ++ r) = (x, length (uvarint x)).
Proof.
  intros Hx. unfold decodeUvarint, uvarint. rewrite decodeUvarint_go_spec.
  - f_equal. lia.
  - eapply N.lt_le_trans; [exact Hx|]. by apply N.pow_le_mono_r.
  - done.
  - lia.
  - lia.
Qed.

(** the reader of multicodec prefixes inverts the writer on every unsigned
    64-bit number, whatever follows, and reports where the number ends. *)
Theorem uvarint_roundtrip x r :
  (x < 2 ^ 64)%N → decodeUvarint (uvarint x ++ r) = (x, length (uvarint x)).
Proof. apply decodeUvarint_prefix. Qed.
Lemma uvarint_roundtrip_witness :
  decodeUvarint (uvarint 18446744073709551615 ++ [x7f]) = (18446744073709551615%N, 10).
Proof. apply (uvarint_roundtrip 18446744073709551615 [x7f]). reflexivity. Defined.

(** ** did:key *)

Lemma bsplit_n_nonempty sep n cur s : ∃ p l, bsplit_n sep n cur s = p :: l.
Proof.
  revert n cur. induction s as [|c s IH]; intros n cur; simpl; [eauto|].
  destruct (beqb c sep); [destruct n as [|[|n]]|]; eauto.
Qed.
Lemma prefix_key mb : prefix ("did:key:" +s mb) = Ok "key".
Proof.
  unfold prefix, SplitN. rewrite bytes_of_append. cbn [bytes_of String.list_byte_of_string app].
  simpl. destruct (bsplit_n_nonempty x3a 1 [] (bytes_of mb)) as (p & l & ->). done.
Qed.
Lemma TrimPrefix_append p s : TrimPrefix (p +s s) p = s ∧ HasPrefix (p +s s) p = true.
Proof.
  unfold TrimPrefix, HasPrefix. rewrite bytes_of_append, bprefix_app. split; [|done].
  by rewrite drop_app_length, str_of_bytes_of.
Qed.

(** a did:key made from a 32-byte key resolves, with no network, to the
    document of that key, and different keys have different identifiers. *)
Theorem did_key_roundtrip `{MultibaseOk} `{JsonCodec Document} cfg docs now dom pub enc :
  length pub = 32 →
  ∃ did, Create "key" (mkCreateOptions dom pub enc) now docs = (Ok (did, keyDocument did pub enc), docs) ∧
    Resolve cfg docs did = Ok (keyDocument did pub []) ∧
    ∀ pub', encodeKeyDID pub' = Ok did → pub' = pub.
Proof.
  intros Hlen. destruct (multibase_roundtrip ([xed; x01] ++ pub)) as (mb & He & Hd).
  exists ("did:key:" +s mb). destruct (TrimPrefix_append "did:key:" mb) as [Ht Hp].
  unfold Create, key_Create, encodeKeyDID. cbn [co_SigningPub co_EncPub]. rewrite Hlen, He. simpl negb.
  split; [done|split].
  - unfold Resolve. rewrite prefix_key. simpl (_ =s _). unfold key_Resolve. rewrite Hp, Ht, Hd.
    rewrite length_app, Hlen. cbn [length Nat.ltb negb Nat.leb Nat.add].
    change ([xed; x01] ++ pub) with (uvarint 237 ++ pub). rewrite (decodeUvarint_prefix 237) by done.
    simpl (_ =? _)%N. cbn [negb]. rewrite drop_app_length, Hlen. done.
  - intros pub'. destruct (multibase_roundtrip ([xed; x01] ++ pub')) as (mb' & He' & Hd').
    rewrite He'. intros [= ->].
    rewrite Hd in Hd'. by injection Hd'.
Qed.

(** ** The address filter *)

Lemma shiftr_interval n k b :
  (N.shiftr n k =? b)%N = true ↔ (b * 2 ^ k ≤ n < (b + 1) * 2 ^ k)%N.
Proof.
  rewrite N.eqb_eq, N.shiftr_div_pow2.
  pose proof (N.pow_nonzero 2 k ltac:(done)) as Hk. generalize dependent (2 ^ k)%N. intros P HP.
  pose proof (N.div_mod n P HP) as Hdm. pose proof (N.mod_lt n P HP) as Hm.
  split.
  { intros <-. revert Hdm Hm. generalize (n / P)%N (n mod P)%N. intros q m -> Hm.
    rewrite N.mul_add_distr_r. lia. }
  clear Hdm Hm. rewrite N.mul_add_distr_r. intros [Hl Hu]. symmetry. apply (N.div_unique n P b (n - P * b)); lia.
Qed.

(** The blocks the client must not reach, first and last address of each. *)
Definition blocked_v4 : list (IP * IP) :=
  [(quad 0 0 0 0, quad 0 255 255 255); (quad 10 0 0 0, quad 10 255 255 255);
   (quad 100 64 0 0, quad 100 127 255 255); (quad 127 0 0 0, quad 127 255 255 255);
   (quad 169 254 0 0, quad 169 254 255 255); (quad 172 16 0 0, quad 172 31 255 255);
   (quad 192 168 0 0, quad 192 168 255 255); (quad 198 18 0 0, quad 198 19 255 255);
   (quad 203 0 113 0, quad 203 0 113 255); (quad 224 0 0 0, quad 224 0 0 255)].
Definition between (n : N) (block : IP * IP) : Prop :=
  match block with (V4 lo, V4 hi) => (lo ≤ n ≤ hi)%N | _ => False end.

(** an IPv4 address, plain or mapped into IPv6, passes the filter exactly
    when it lies outside the listed blocks. *)
Theorem isPrivateIP_v4 n ip :
  (n < 2 ^ 32)%N → ip = V4 n ∨ ip = V6 (65535 * 2 ^ 32 + n) →
  isPrivateIP ip = true ↔ Exists (between n) blocked_v4.
Proof.
  intros Hn Hip. assert (To4 ip = V4 n) as Ht.
  { destruct Hip as [-> | ->]; [done|]. unfold To4.
    rewrite (proj2 (shiftr_interval _ 32 65535)) by lia.
    rewrite N.add_comm, N.Div0.mod_add, N.mod_small by done. done. }
  unfold isPrivateIP, IsLoopback, IsLinkLocalUnicast, IsLinkLocalMulticast, privateRanges, existsb, Contains.
  rewrite Ht. cbn [fst snd quad]. rewrite !orb_true_iff, !shiftr_interval.
  unfold blocked_v4. rewrite !Exists_cons, Exists_nil. unfold between, quad.
  repeat match goal with
  | |- context [N.shiftr ?a ?b] => let v := eval vm_compute in (N.shiftr a b) in change (N.shiftr a b) with v
  | |- context [(2 ^ ?k)%N] => let v := eval vm_compute in (2 ^ k)%N in change (2 ^ k)%N with v
  end.
  split; intros Hb; destruct_or? Hb; try discriminate Hb; lia.
Qed.
Lemma isPrivateIP_v4_witness :
  isPrivateIP (V6 (65535 * 2 ^ 32 + 2130706433)) = true ↔ Exists (between 2130706433) blocked_v4.
Proof. apply (isPrivateIP_v4 2130706433); [reflexivity|by right]. Defined.

(** The unspecified IPv6 address, which Linux connects to the local host, passes. *)
Example unspecified_v6_passes : isPrivateIP (V6 0) = false.
Proof. reflexivity. Qed.

(** A codec for instances: base58btc replaced by hexadecimal. *)
#[local] Instance hex_multibase : Multibase := {|
  base58btc_encode b := Ok (str_of (hex_encode b));
  multibase_decode s := of_option (ErrMsg "decode") (hex_decode (bytes_of s)) |}.
#[local] Instance hex_multibase_ok : MultibaseOk.
Proof.
  split. intros b. eexists. split; [reflexivity|]. simpl. by rewrite bytes_of_str_of, hex_decode_encode.
Qed.
#[local] Instance no_documents : JsonCodec Document := {|
  json_marshal _ := Err (ErrMsg "unused"); json_unmarshal _ := Err (ErrMsg "unused") |}.
Definition zero_key : list byte := replicate 32 x00.
Lemma did_key_roundtrip_witness :
  ∃ did, Create "key" (mkCreateOptions "" zero_key []) 0 ∅ = (Ok (did, keyDocument did zero_key []), ∅) ∧
    Resolve (mkConfig [] (λ _, Err ErrNoRows)) ∅ did = Ok (keyDocument did zero_key []).
Proof.
  destruct (did_key_roundtrip (mkConfig [] (λ _, Err ErrNoRows)) ∅ 0 "" zero_key [] eq_refl)
    as (did & Hc & Hr & _).
  exists did. exact (conj Hc Hr).
Defined.
End Did.
