(* ===== verification/GoNet.v ===== *)
(** * packages net and net/url: what the server uses of them

    [net.ParseIP] and [net.ParseCIDR] of textual addresses, [net.SplitHostPort], and
    [url.ParseRequestURI] as far as scheme and host. *)

From S2P Require Import Prelude GoStd Did.

Module GoNet.

(** ** Addresses *)

(** One field of a dotted quad: at most 255, no leading zero. *)
Definition octet (s : list byte) : option N :=
  match s with
  | [] => None
  | c :: rest =>
      if beqb c x30 && negb (Nat.eqb (length rest) 0) then None
      else match digits_val 0 s with
           | Some v => if (v <=? 255)%Z then Some (Z.to_N v) else None
           | None => None
           end
  end.
Definition parseIPv4 (s : list byte) : option N :=
  match mapM octet (bsplit_n x2e (S (length s)) [] s) with
  | Some [a; b; c; d] => Some (a * 2 ^ 24 + b * 2 ^ 16 + c * 2 ^ 8 + d)%N
  | _ => None
  end.

Definition hex_val (c : byte) : option N :=
  let v := bval c in
  if ((48 <=? v) && (v <=? 57))%N then Some (v - 48)%N
  else if ((97 <=? v) && (v <=? 102))%N then Some (v - 87)%N
  else if ((65 <=? v) && (v <=? 70))%N then Some (v - 55)%N
  else None.
(** The hexadecimal digits at the front: their value, how many, and the rest. *)
Fixpoint hex_run (acc : N) (n : nat) (s : list byte) : N * nat * list byte :=
  match s with
  | c :: s' => match hex_val c with
               | Some d => hex_run (acc * 16 + d)%N (S n) s'
               | None => (acc, n, s)
               end
  | [] => (acc, n, [])
  end.
(** The fields of an IPv6 address from [s] on: those read so far, the position of the
    ellipsis.  [fuel] bounds the fields. *)
Fixpoint v6_fields (fuel : nat) (fields : list N) (ellipsis : option nat) (s : list byte)
    : option (list N * option nat) :=
  match fuel with
  | O => match s with [] => Some (fields, ellipsis) | _ => None end
  | S fuel' =>
      let '(v, n, rest) := hex_run 0 0 s in
      if (n =? 0)%nat || (4 <? n)%nat then None
      else match rest with
      | [] => Some (fields ++ [v], ellipsis)
      | c :: rest' =>
          if beqb c x2e then
            if match ellipsis with None => negb (length fields =? 6)%nat | Some _ => false end then None
            else if (8 <? length fields + 2)%nat then None
            else match parseIPv4 s with
                 | Some q => Some (fields ++ [(q / 2 ^ 16)%N; (q mod 2 ^ 16)%N], ellipsis)
                 | None => None
                 end
          else if negb (beqb c x3a) then None
          else match rest' with
          | [] => None
          | c' :: rest'' =>
              let fields := fields ++ [v] in
              if beqb c' x3a then
                match ellipsis with
                | Some _ => None
                | None => match rest'' with
                          | [] => Some (fields, Some (length fields))
                          | _ => v6_fields fuel' fields (Some (length fields)) rest''
                          end
                end
              else v6_fields fuel' fields ellipsis rest'
          end
      end
  end.
Definition fields_value (l : list N) : N := foldl (λ acc v, acc * 2 ^ 16 + v)%N 0%N l.
Definition parseIPv6 (s : list byte) : option N :=
  let '(ellipsis, rest) := match s with
                           | c :: c' :: r => if beqb c x3a && beqb c' x3a then (Some 0%nat, r) else (None, s)
                           | _ => (None, s)
                           end in
  match ellipsis, rest with
  | Some _, [] => Some 0%N
  | _, _ =>
      match v6_fields 8 [] ellipsis rest with
      | None => None
      | Some (fields, e) =>
          if (length fields =? 8)%nat then match e with None => Some (fields_value fields) | Some _ => None end
          else match e with
               | None => None
               | Some k => Some (fields_value (take k fields ++ replicate (8 - length fields) 0%N ++ drop k fields))
               end
      end
  end.
(** The first of dot, colon and percent sign decides. *)
Fixpoint first_mark (s : list byte) : option byte :=
  match s with
  | [] => None
  | c :: s' => if beqb c x2e || beqb c x3a || beqb c x25 then Some c else first_mark s'
  end.
Definition ParseIP (s : string) : option Did.IP :=
  match first_mark (bytes_of s) with
  | Some c => if beqb c x2e then Did.V4 <$> parseIPv4 (bytes_of s)
              else if beqb c x3a then Did.V6 <$> parseIPv6 (bytes_of s) else None
  | None => None
  end.
Definition ParseCIDR (s : string) : option (Did.IP * N) :=
  match bindex [x2f] (bytes_of s) with
  | None => None
  | Some i =>
      ip ← ParseIP (str_of (take i (bytes_of s)));
      match drop (S i) (bytes_of s) with
      | [] => None
      | ds => n ← digits_val 0 ds;
              if (n <=? match ip with Did.V4 _ => 32 | Did.V6 _ => 128 end)%Z then Some (ip, Z.to_N n) else None
      end
  end.

Example parse_v4 : ParseIP "192.168.0.1" = Some (Did.quad 192 168 0 1).
Proof. vm_compute. done. Qed.
Example parse_v4_zero : ParseIP "192.168.00.1" = None.
Proof. vm_compute. done. Qed.
Example parse_v6 : ParseIP "fe80::1:2" = Some (Did.V6 0xfe800000000000000000000000010002).
Proof. vm_compute. done. Qed.
Example parse_v6_mapped : ParseIP "::ffff:10.0.0.1" = Some (Did.V6 0xffff0a000001).
Proof. vm_compute. done. Qed.
Example parse_v6_full : ParseIP "1:2:3:4:5:6:7::" = Some (Did.V6 0x10002000300040005000600070000).
Proof. vm_compute. done. Qed.
Example parse_v6_bad : ParseIP "1:2:3:4:5:6:7:8::" = None.
Proof. vm_compute. done. Qed.
Example parse_cidr : ParseCIDR "10.0.0.0/8" = Some (Did.quad 10 0 0 0, 8%N).
Proof. vm_compute. done. Qed.

(** A host with its port: the part before the last colon, brackets removed. *)
Definition SplitHost (hostport : string) : option string :=
  match blast_index [x3a] (bytes_of hostport) with
  | None => None
  | Some i =>
      match bytes_of hostport with
      | c :: _ =>
          if beqb c x5b then
            match bindex [x5d] (bytes_of hostport) with
            | None => None
            | Some e =>
                if negb (Nat.eqb (S e) i) then None
                else let host := take (e - 1) (drop 1 (bytes_of hostport)) in
                     if existsb (λ c, beqb c x5b) host || existsb (λ c, beqb c x5b || beqb c x5d) (drop (S e) (bytes_of hostport))
                     then None else Some (str_of host)
            end
          else let host := take i (bytes_of hostport) in
               if existsb (λ c, beqb c x3a) host || existsb (λ c, beqb c x5b || beqb c x5d) (bytes_of hostport)
               then None else Some (str_of host)
      | [] => None
      end
  end.

(** ** url.ParseRequestURI *)

Definition is_alpha (c : byte) : bool :=
  let v := bval c in (((97 <=? v) && (v <=? 122)) || ((65 <=? v) && (v <=? 90)))%N.
Definition is_digit (c : byte) : bool := ((48 <=? bval c) && (bval c <=? 57))%N.
Definition one_of (s : string) (c : byte) : bool := existsb (beqb c) (bytes_of s).

(** The scheme and what follows its colon; no scheme at all; or an error. *)
Fixpoint get_scheme (i : nat) (all s : list byte) : option (list byte * list byte) :=
  match s with
  | [] => Some ([], all)
  | c :: s' =>
      if is_alpha c then get_scheme (S i) all s'
      else if is_digit c || one_of "+-." c then
        if (i =? 0)%nat then Some ([], all) else get_scheme (S i) all s'
      else if beqb c x3a then if (i =? 0)%nat then None else Some (take i all, s')
      else Some ([], all)
  end.

(** [unescape]: whether the escapes are well formed, and the text without them.  In a
    host only bytes from 0x80 on may be escaped (and the percent sign), and bytes that
    should have been escaped are refused. *)
Definition host_byte (c : byte) : bool :=
  is_alpha c || is_digit c || one_of "!$&'()*+,;=:[]<>-_.~" c || beqb c x22 || (128 <=? bval c)%N.
Fixpoint unescape (host : bool) (s : list byte) : option (list byte) :=
  match s with
  | [] => Some []
  | c :: s' =>
      if beqb c x25 then
        match s' with
        | h :: l :: s'' =>
            match hex_val h, hex_val l with
            | Some a, Some b =>
                if host && (a <? 8)%N && negb ((a =? 2)%N && (b =? 5)%N) then None
                else cons (byte_of_N (a * 16 + b)) <$> unescape host s''
            | _, _ => None
            end
        | _ => None
        end
      else if host && negb (host_byte c) then None
      else cons c <$> unescape host s'
  end.
Definition valid_port (s : list byte) : bool :=
  match s with [] => true | c :: ds => beqb c x3a && forallb is_digit ds end.
Definition valid_userinfo (s : list byte) : bool :=
  forallb (λ c, is_alpha c || is_digit c || one_of "-._:~!$&'()*+,;=%@" c) s.

(** An address in brackets with a zone is not read. *)
Definition parse_host (host : list byte) : option (list byte) :=
  match host with
  | c :: _ =>
      if beqb c x5b then
        match blast_index [x5d] host with
        | None => None
        | Some i => if valid_port (drop (S i) host) then unescape true host else None
        end
      else match blast_index [x3a] host with
           | Some i => if valid_port (drop i host) then unescape true host else None
           | None => unescape true host
           end
  | [] => Some []
  end.
Definition parse_authority (a : list byte) : option (list byte) :=
  match blast_index [x40] a with
  | None => parse_host a
  | Some i =>
      host ← parse_host (drop (S i) a);
      if valid_userinfo (take i a) then _ ← unescape false (take i a); Some host else None
  end.

Record URL := mkURL { u_Scheme : string; u_Host : string }.
Definition ParseRequestURI (raw : string) : option URL :=
  let s := bytes_of raw in
  if existsb (λ c, (bval c <? 32)%N || (bval c =? 127)%N) s then None
  else match s with
  | [] => None
  | _ =>
  if raw =s "*" then Some (mkURL "" "")
  else match get_scheme 0 s s with
  | None => None
  | Some (scheme, rest) =>
      let scheme := ToLower (str_of scheme) in
      let rest := match bindex [x3f] rest with Some i => take i rest | None => rest end in
      if negb (bprefix [x2f] rest) then
        if scheme =s "" then None else Some (mkURL scheme "")
      else if negb (scheme =s "") && bprefix [x2f; x2f] rest then
        let a := drop 2 rest in
        let '(authority, path) := match bindex [x2f] a with Some i => (take i a, drop i a) | None => (a, []) end in
        host ← parse_authority authority;
        _ ← unescape false path;
        Some (mkURL scheme (str_of host))
      else _ ← unescape false rest; Some (mkURL scheme "")
  end end.
(** Whether [url.Parse] accepts: unlike a request's, the text may be empty, relative or
    without a scheme, and end in a fragment. *)
Definition parse_hier (scheme : string) (rest : list byte) : bool :=
  if (negb (scheme =s "") || negb (bprefix [x2f; x2f; x2f] rest)) && bprefix [x2f; x2f] rest then
    let a := drop 2 rest in
    let '(authority, path) := match bindex [x2f] a with Some i => (take i a, drop i a) | None => (a, []) end in
    match parse_authority authority, unescape false path with Some _, Some _ => true | _, _ => false end
  else match unescape false rest with Some _ => true | None => false end.
Definition parse_reference (s : list byte) : bool :=
  if existsb (λ c, (bval c <? 32)%N || (bval c =? 127)%N) s then false
  else match get_scheme 0 s s with
  | None => false
  | Some (scheme, rest) =>
      let scheme := str_of scheme in
      let rest := match bindex [x3f] rest with Some i => take i rest | None => rest end in
      if bprefix [x2f] rest then parse_hier scheme rest
      else if negb (scheme =s "") then true
      else let segment := match bindex [x2f] rest with Some i => take i rest | None => rest end in
           if existsb (λ c, beqb c x3a) segment then false else parse_hier scheme rest
  end.
Definition Parse_ok (raw : string) : bool :=
  let s := bytes_of raw in
  match bindex [x23] s with
  | Some i => parse_reference (take i s) && match unescape false (drop (S i) s) with Some _ => true | None => false end
  | None => parse_reference s
  end.
(** The host without port and brackets. *)
Definition Hostname (u : URL) : string :=
  let h := bytes_of (u_Host u) in
  let h := match blast_index [x3a] h with
           | Some i => if valid_port (drop i h) then take i h else h
           | None => h
           end in
  match h with
  | c :: _ => if beqb c x5b && match last h with Some e => beqb e x5d | None => false end
              then str_of (take (length h - 2) (drop 1 h)) else str_of h
  | [] => ""
  end.

Example parse_url : ParseRequestURI "HTTPS://user@example.com:8443/a%20b?q=1" = Some (mkURL "https" "example.com:8443").
Proof. vm_compute. done. Qed.
Example parse_url_v6 : Hostname <$> ParseRequestURI "http://[::1]:80/" = Some "::1".
Proof. vm_compute. done. Qed.
Example parse_url_bad : ParseRequestURI "http://exa mple.com/" = None.
Proof. vm_compute. done. Qed.
Example parse_ok : Parse_ok "https://up.example/keys?a=b#c" && Parse_ok "" && Parse_ok "keys/x:y" = true.
Proof. vm_compute. done. Qed.
Example parse_not_ok : Parse_ok "https://up.example/%zz" || Parse_ok ":keys" || Parse_ok "https://a b/" || Parse_ok "1a:b" = false.
Proof. vm_compute. done. Qed.
End GoNet.
