(* ===== verification/Vc.v ===== *)
(** * Verifiable credentials and presentations (pkg/vc: credential.go, issue.go,
    verify.go, presentation.go)

    The JSON form of credentials and presentations, issuance with the
    eddsa-jcs-2022 data-integrity proof, verification against the issuer's DID
    document, and signed presentations.  Instants are UTC; an empty slice is
    the nil slice, which [json.Marshal] writes as null. *)

From S2P Require Import Prelude GoStd World Sha Base64 Json JsonValue.
From S2P Require Import Consent Schema Validate StoreTypes Logic Events Jwt Crypto Did.
From stdpp Require Import sorting.
Import JsonValue Types.

Module Vc.

Definition ContextVC : string := "https://www.w3.org/ns/credentials/v2".
Definition ContextTpt : string := "https://tpt-identity.org/ns/v1".
Definition TypeVC : string := "VerifiableCredential".
Definition TypeVP : string := "VerifiablePresentation".
Definition DefaultContext : list string := [ContextVC; ContextTpt].

Record Presentation := mkPresentation {
  pres_Context : list string; pres_ID : string; pres_Type : list string; pres_Holder : string;
  pres_VerifiableCredential : list VerifiableCredential; pres_Challenge : string; pres_Domain : string }.
Record VerifiablePresentation := mkVerifiablePresentation {
  vp_Presentation : Presentation; vp_Proof : option Proof }.

(** ** JSON forms *)

(** [Time.MarshalJSON] refuses years outside 0 to 9999. *)
Definition time_value (t : Z) : option json :=
  if ((-62167219200 <=? unix t) && (unix t <=? 253402300799))%Z then Some (JStr (Events.time_json t)) else None.
Definition strs_json (l : list string) : json :=
  match l with [] => JNull | _ => JArr (JStr <$> l) end.
(** A map is written with its keys sorted. *)
Definition key_le (a b : string * json) : Prop := String.leb a.1 b.1 = true.
#[export] Instance key_le_dec : RelDecision key_le := λ a b, decide (String.leb a.1 b.1 = true).
Definition claims_json (m : gmap string string) : list (string * json) :=
  merge_sort key_le ((λ kv, (kv.1, JStr kv.2)) <$> map_to_list m).
Definition subject_json (s : CredentialSubject) : json :=
  JObj (("id", JStr (sub_ID s)) ::
        match map_to_list (sub_Claims s) with
        | [] => []
        | _ => [("claims", JObj (claims_json (sub_Claims s)))]
        end).
Definition schema_json (s : CredentialSchema) : json :=
  JObj [("id", JStr (csch_ID s)); ("type", JStr (csch_Type s))].
Definition status_json (s : CredStatus) : json :=
  JObj [("id", JStr (cst_ID s)); ("type", JStr (cst_Type s)); ("statusPurpose", JStr (cst_StatusPurpose s));
        ("statusListIndex", JInt (cst_StatusListIndex s));
        ("statusListCredential", JStr (cst_StatusListCredential s))].
Definition opt_member {A} (k : string) (f : A → json) (o : option A) : list (string * json) :=
  match o with Some a => [(k, f a)] | None => [] end.
Definition until_member (o : option Z) : option (list (string * json)) :=
  match o with
  | None => Some []
  | Some t => v ← time_value t; Some [("validUntil", v)]
  end.
Definition credential_members (c : Credential) : option (list (string * json)) :=
  from ← time_value (cred_ValidFrom c);
  until ← until_member (cred_ValidUntil c);
  Some ([("@context", strs_json (cred_Context c))] ++ Jwt.opt_field "id" (cred_ID c) ++
        [("type", strs_json (cred_Type c)); ("issuer", JStr (cred_Issuer c)); ("validFrom", from)] ++ until ++
        [("credentialSubject", subject_json (cred_CredentialSubject c))] ++
        opt_member "credentialSchema" schema_json (cred_CredentialSchema c) ++
        opt_member "credentialStatus" status_json (cred_CredentialStatus c)).
Definition credential_json (c : Credential) : option json := JObj <$> credential_members c.
Definition proof_json (p : Proof) : json :=
  JObj (("type", JStr (prf_Type p)) :: Jwt.opt_field "cryptosuite" (prf_Cryptosuite p) ++
        [("created", JStr (prf_Created p)); ("verificationMethod", JStr (prf_VerificationMethod p));
         ("proofPurpose", JStr (prf_ProofPurpose p)); ("proofValue", JStr (prf_ProofValue p))]).
Definition vc_json (v : VerifiableCredential) : option json :=
  l ← credential_members (vc_Credential v);
  Some (JObj (l ++ opt_member "proof" proof_json (vc_Proof v))).
Definition presentation_json (p : Presentation) : option json :=
  vcs ← mapM vc_json (pres_VerifiableCredential p);
  Some (JObj ([("@context", strs_json (pres_Context p))] ++ Jwt.opt_field "id" (pres_ID p) ++
              [("type", strs_json (pres_Type p))] ++ Jwt.opt_field "holder" (pres_Holder p) ++
              match vcs with [] => [] | _ => [("verifiableCredential", JArr vcs)] end ++
              Jwt.opt_field "challenge" (pres_Challenge p) ++ Jwt.opt_field "domain" (pres_Domain p))).

(** ** Keys of a DID document *)

Section Keys.
Context `{Multibase}.
Definition decodeMultibaseEd25519 (mb : string) : result (list byte) :=
  match (match multibase_decode mb with
         | Ok raw => Ok raw
         | Err e =>
             if HasPrefix mb "u" then
               of_option (ErrMsg "decode key: illegal base64 data") (Base64.DecodeString (TrimPrefix mb "u"))
             else Err (ErrWrap "decode key multibase" e)
         end) with
  | Err e => Err e
  | Ok raw =>
      if Nat.ltb (length raw) 2 then Err (ErrMsg "key too short")
      else let '(_, n) := Did.decodeUvarint raw in
           let key := drop n raw in
           if negb (Nat.eqb (length key) 32) then Err (ErrMsg "expected 32-byte Ed25519 key") else Ok key
  end.

Fixpoint extract_key (vms : list VerificationMethod) (vmID : string) : result (list byte) :=
  match vms with
  | [] => Err (ErrMsg "verification method not found in DID document")
  | vm :: vms' =>
      if negb (vm_ID vm =s vmID) then extract_key vms' vmID
      else if vm_Revoked vm then Err (ErrMsg "key is revoked")
      else if negb (vm_Type vm =s "Ed25519VerificationKey2020") then
        Err (ErrMsg "key has the wrong type, expected Ed25519VerificationKey2020")
      else match vm_PublicKeyMultibase vm with
           | None => Err (ErrMsg "key has no publicKeyMultibase")
           | Some mb => decodeMultibaseEd25519 mb
           end
  end.
Definition extractEd25519Key (doc : Document) (vmID : string) : result (list byte) :=
  extract_key (doc_VerificationMethod doc) vmID.
End Keys.

(** ** Issuance *)

Definition ErrEphemeralIssuer : error :=
  ErrMsg "did:key is ephemeral and cannot be used as issuer for persistent credentials; use did:web or did:peer".

Record IssueOptions := mkIssueOptions {
  io_IssuerDID : string; io_IssuerKey : list byte; io_VerificationMethodID : string; io_SubjectDID : string;
  io_SchemaID : string; io_Claims : gmap string string; io_ValidFor : Z;
  io_StatusListCredential : string; io_StatusListIndex : Z }.

Definition proof_options (type suite created vm purpose : string) : json :=
  JObj (of_pairs [("type", JStr type); ("cryptosuite", JStr suite); ("created", JStr created);
                  ("verificationMethod", JStr vm); ("proofPurpose", JStr purpose)]).

Section Integrity.
Context `{Float64}.
(** SHA-256(proof options) followed by SHA-256(document), both canonical. *)
Definition integrity_hash (options : json) (cred : Credential) : result (list byte) :=
  match Crypto.JCS (Some options) with
  | Err e => Err (ErrWrap "jcs proof options" e)
  | Ok proofOptionsBytes =>
      match Crypto.JCS (credential_json cred) with
      | Err e => Err (ErrWrap "jcs document" e)
      | Ok documentBytes => Ok (Sha.Sum256 proofOptionsBytes ++ Sha.Sum256 documentBytes)
      end
  end.
End Integrity.

(** The credential [Issue] builds at the instant [now]; [uuid] is the identifier
    [uuid.NewString] returned. *)
Definition issued_credential (opts : IssueOptions) (uuid versionedSchemaID : string) (now : Z) : Credential :=
  mkCredential DefaultContext ("urn:uuid:" +s uuid) [TypeVC; versionedSchemaID] (io_IssuerDID opts) now
    (if (io_ValidFor opts =? 0)%Z then None else Some (now + io_ValidFor opts)%Z)
    (mkCredentialSubject (io_SubjectDID opts) (io_Claims opts))
    (Some (mkCredentialSchema versionedSchemaID "TptCredentialSchema"))
    (if io_StatusListCredential opts =s "" then None
     else Some (mkCredStatus (io_StatusListCredential opts +s "#" +s Itoa (io_StatusListIndex opts))
                  "BitstringStatusListEntry" "revocation" (io_StatusListIndex opts)
                  (io_StatusListCredential opts))).

Section Issue.
Context `{Ed25519, Float64, JsonSchema} {St : Type}.

Definition Issue (opts : IssueOptions) (uuid : string) (reg : Schema.Registry) (compiled : Validate.Cache)
    : M St (result VerifiableCredential * Validate.Cache) :=
  if HasPrefix (io_IssuerDID opts) "did:key:" then mret (Err ErrEphemeralIssuer, compiled)
  else
    let '(valid, compiled') :=
      Validate.Validate reg (io_SchemaID opts) (map_to_list (io_Claims opts)) compiled in
    match valid with
    | Err e => mret (Err (ErrWrap "issue" e), compiled')
    | Ok _ =>
        match Schema.GetSchema reg (io_SchemaID opts) with
        | Err e => mret (Err (ErrWrap "issue" e), compiled')
        | Ok s =>
            now ← time_now;
            let created := Events.rfc3339 now in
            let cred := issued_credential opts uuid (Schema.VersionedID s) now in
            mret (match integrity_hash (proof_options "DataIntegrityProof" "eddsa-jcs-2022" created
                                          (io_VerificationMethodID opts) "assertionMethod") cred with
                  | Err e => Err (ErrWrap "issue" e)
                  | Ok hashData =>
                      Ok (mkVerifiableCredential cred
                            (Some (mkProof "DataIntegrityProof" "eddsa-jcs-2022" created
                                     (io_VerificationMethodID opts) "assertionMethod"
                                     (Base64.EncodeToString (ed_sign (io_IssuerKey opts) hashData)))))
                  end, compiled')
        end
    end.
End Issue.

(** ** Verification *)

Section Verify.
Context `{Ed25519, Float64, Multibase} {St : Type}.

Definition verifyDataIntegrity (pub : list byte) (cred : Credential) (proof : Proof) : result unit :=
  match Base64.DecodeString (prf_ProofValue proof) with
  | None => Err (ErrMsg "decode proof value: illegal base64 data")
  | Some sig =>
      match integrity_hash (proof_options (prf_Type proof) (prf_Cryptosuite proof) (prf_Created proof)
                              (prf_VerificationMethod proof) (prf_ProofPurpose proof)) cred with
      | Err e => Err e
      | Ok hashData =>
          if negb (ed_verify pub hashData sig) then Err (ErrMsg "signature invalid") else Ok tt
      end
  end.

(** A verifier: the resolver it asks and the optional revocation check. *)
Record Verifier := mkVerifier {
  vr_resolve : string → M St (result Document);
  vr_statusChecker : option (CredStatus → result unit) }.

Definition check_proof (pub : list byte) (vc : VerifiableCredential) (proof : Proof) : result unit :=
  if (prf_Type proof =s "DataIntegrityProof") && (prf_Cryptosuite proof =s "eddsa-jcs-2022") then
    wrap_err "verify" (verifyDataIntegrity pub (vc_Credential vc) proof)
  else if prf_Type proof =s "Ed25519Signature2020" then
    match Base64.DecodeString (prf_ProofValue proof) with
    | None => Err (ErrMsg "verify: decode proof value")
    | Some sig =>
        wrap_err "verify: signature invalid" (Crypto.VerifyJSON pub (credential_json (vc_Credential vc)) sig)
    end
  else Err (ErrMsg "verify: unsupported proof type").
Definition check_status (v : Verifier) (cred : Credential) : result unit :=
  match cred_CredentialStatus cred, vr_statusChecker v with
  | Some status, Some check => wrap_err "verify: credential revoked" (check status)
  | _, _ => Ok tt
  end.

Definition Verify (v : Verifier) (vc : VerifiableCredential) : M St (result unit) :=
  let cred := vc_Credential vc in
  match vc_Proof vc with
  | None => mret (Err (ErrMsg "verify: no proof"))
  | Some proof =>
      now ← time_now;
      if (now <? cred_ValidFrom cred)%Z then mret (Err (ErrMsg "verify: credential is not yet valid"))
      else
        expired ← match cred_ValidUntil cred with
                  | None => mret false
                  | Some until => now' ← time_now; mret (until <? now')%Z
                  end;
        if (expired : bool) then mret (Err (ErrMsg "verify: credential has expired"))
        else
          r ← vr_resolve v (cred_Issuer cred);
          match r with
          | Err e => mret (Err (ErrWrap "verify: resolve issuer DID" e))
          | Ok doc =>
              match extractEd25519Key doc (prf_VerificationMethod proof) with
              | Err e => mret (Err (ErrWrap "verify" e))
              | Ok pub =>
                  match check_proof pub vc proof with
                  | Err e => mret (Err e)
                  | Ok _ => mret (check_status v cred)
                  end
              end
          end
  end.

(** ** Presentations *)

Record PresentOptions := mkPresentOptions {
  po_HolderDID : string; po_HolderKey : list byte; po_VerificationMethodID : string;
  po_Credentials : list VerifiableCredential; po_Challenge : string; po_Domain : string }.

Definition Present (opts : PresentOptions) (uuid : string) : M St (result VerifiablePresentation) :=
  match po_Credentials opts with
  | [] => mret (Err (ErrMsg "present: at least one credential required"))
  | _ =>
      now ← time_now;
      let pres := mkPresentation DefaultContext ("urn:uuid:" +s uuid) [TypeVP] (po_HolderDID opts)
                    (po_Credentials opts) (po_Challenge opts) (po_Domain opts) in
      mret (match Crypto.SignJSON (po_HolderKey opts) (presentation_json pres) with
            | Err e => Err (ErrWrap "present sign" e)
            | Ok sig =>
                Ok (mkVerifiablePresentation pres
                      (Some (mkProof "Ed25519Signature2020" "" (Events.rfc3339 now)
                               (po_VerificationMethodID opts) "authentication" (Base64.EncodeToString sig))))
            end)
  end.

Record VerifyPresentationOptions := mkVerifyPresentationOptions {
  vo_ExpectedChallenge : string; vo_ExpectedDomain : string }.

Fixpoint verify_all (v : Verifier) (vcs : list VerifiableCredential) : M St (result unit) :=
  match vcs with
  | [] => mret (Ok tt)
  | vc :: vcs' =>
      r ← Verify v vc;
      match r with
      | Err e => mret (Err (ErrWrap "verify presentation: credential" e))
      | Ok _ => verify_all v vcs'
      end
  end.

Definition VerifyPresentation (v : Verifier) (vp : VerifiablePresentation) (opts : VerifyPresentationOptions)
    : M St (result unit) :=
  let pres := vp_Presentation vp in
  match vp_Proof vp with
  | None => mret (Err (ErrMsg "verify presentation: no proof"))
  | Some proof =>
      if negb (vo_ExpectedChallenge opts =s "") && negb (pres_Challenge pres =s vo_ExpectedChallenge opts) then
        mret (Err (ErrMsg "verify presentation: challenge mismatch (replay attack?)"))
      else if negb (vo_ExpectedDomain opts =s "") && negb (pres_Domain pres =s vo_ExpectedDomain opts) then
        mret (Err (ErrMsg "verify presentation: domain mismatch"))
      else
        r ← vr_resolve v (pres_Holder pres);
        match r with
        | Err e => mret (Err (ErrWrap "verify presentation: resolve holder DID" e))
        | Ok doc =>
            match extractEd25519Key doc (prf_VerificationMethod proof) with
            | Err e => mret (Err (ErrWrap "verify presentation" e))
            | Ok pub =>
                match Base64.DecodeString (prf_ProofValue proof) with
                | None => mret (Err (ErrMsg "verify presentation: decode proof"))
                | Some sig =>
                    match Crypto.VerifyJSON pub (presentation_json pres) sig with
                    | Err e => mret (Err (ErrWrap "verify presentation: signature invalid" e))
                    | Ok _ => verify_all v (pres_VerifiableCredential pres)
                    end
                end
            end
        end
  end.
End Verify.
Arguments Verifier : clear implicits.
End Vc.
