(* ===== verification/VcJson.v ===== *)
(** * Reading credentials and presentations from JSON (pkg/vc/credential.go)

    The struct tags of [VerifiableCredential] and [VerifiablePresentation] as decoders,
    the instance of the store's codec for credentials, and the proof of its law: what
    is written is read back. *)

From S2P Require Import Prelude GoStd World Json JsonValue.
From S2P Require Import StoreTypes Store Events Jwt GoTime Vc.
From stdpp Require Import sorting.
Import JsonValue Types.

Module VcJson.

Definition decode_subject (l : list (string * json)) : option CredentialSubject :=
  id ← Jwt.str_field "id" l; claims ← GoTime.strmap_field "claims" l; Some (mkCredentialSubject id claims).
Definition decode_schema (l : list (string * json)) : option CredentialSchema :=
  id ← Jwt.str_field "id" l; ty ← Jwt.str_field "type" l; Some (mkCredentialSchema id ty).
Definition decode_status (l : list (string * json)) : option CredStatus :=
  id ← Jwt.str_field "id" l; ty ← Jwt.str_field "type" l; purpose ← Jwt.str_field "statuspurpose" l;
  idx ← Jwt.int_field "statuslistindex" l; cred ← Jwt.str_field "statuslistcredential" l;
  Some (mkCredStatus id ty purpose idx cred).
Definition decode_proof (l : list (string * json)) : option Proof :=
  ty ← Jwt.str_field "type" l; cs ← Jwt.str_field "cryptosuite" l; cr ← Jwt.str_field "created" l;
  vm ← Jwt.str_field "verificationmethod" l; pp ← Jwt.str_field "proofpurpose" l;
  pv ← Jwt.str_field "proofvalue" l; Some (mkProof ty cs cr vm pp pv).
(** A pointer to a struct. *)
Definition ptr {A} (dec : list (string * json) → option A) (o : option (list (string * json))) : option (option A) :=
  match o with None => Some None | Some m => Some <$> dec m end.
Definition decode_credential (l : list (string * json)) : option Credential :=
  ctx ← Jwt.strs_field "@context" l; id ← Jwt.str_field "id" l; ty ← Jwt.strs_field "type" l;
  iss ← Jwt.str_field "issuer" l; from ← GoTime.time_field "validfrom" l;
  until ← GoTime.time_ptr_field "validuntil" l;
  sub ← GoTime.struct_field "credentialsubject" l; sub ← decode_subject sub;
  sch ← GoTime.ptr_field "credentialschema" l; sch ← ptr decode_schema sch;
  st ← GoTime.ptr_field "credentialstatus" l; st ← ptr decode_status st;
  Some (mkCredential ctx id ty iss from until sub sch st).
(** The fields of the embedded struct are fields of the outer one. *)
Definition decode_vc (l : list (string * json)) : option VerifiableCredential :=
  c ← decode_credential l; prf ← GoTime.ptr_field "proof" l; prf ← ptr decode_proof prf;
  Some (mkVerifiableCredential c prf).
Definition decode_presentation (l : list (string * json)) : option Vc.Presentation :=
  ctx ← Jwt.strs_field "@context" l; id ← Jwt.str_field "id" l; ty ← Jwt.strs_field "type" l;
  holder ← Jwt.str_field "holder" l;
  vcs ← GoTime.structs_field "verifiablecredential" l; vcs ← mapM decode_vc vcs;
  challenge ← Jwt.str_field "challenge" l; domain ← Jwt.str_field "domain" l;
  Some (Vc.mkPresentation ctx id ty holder vcs challenge domain).
Definition decode_vp (l : list (string * json)) : option Vc.VerifiablePresentation :=
  p ← decode_presentation l; prf ← GoTime.ptr_field "proof" l; prf ← ptr decode_proof prf;
  Some (Vc.mkVerifiablePresentation p prf).

(** [json.Unmarshal] into a struct: null leaves the zero value. *)
Definition unmarshal_struct {A} (dec : list (string * json) → option A) (raw : list byte) : option A :=
  match parse raw with
  | Some (JObj l) => dec l
  | Some JNull => dec []
  | _ => None
  end.

#[export] Instance vc_codec : JsonCodec VerifiableCredential := {|
  json_marshal v := of_option (ErrMsg "json: error calling MarshalJSON") (str_of ∘ marshal <$> Vc.vc_json v);
  json_unmarshal t := of_option (ErrMsg "json: cannot unmarshal") (unmarshal_struct decode_vc (bytes_of t)) |}.

(** ** Decoding member by member *)

Section Into.
Context {A : Type} (dec : A → json → option A).
Lemma decode_into_app z k l1 l2 :
  Jwt.decode_into dec z k (l1 ++ l2) = a ← Jwt.decode_into dec z k l1; Jwt.decode_into dec a k l2.
Proof.
  unfold Jwt.decode_into. rewrite foldl_app. destruct (foldl _ _ l1) as [a|]; [done|]. cbn [mbind option_bind].
  induction l2; [done|]. simpl. done.
Qed.
Lemma decode_into_cons z k kv l :
  Jwt.decode_into dec z k (kv :: l) =
    if ToLower kv.1 =s k then a ← dec z kv.2; Jwt.decode_into dec a k l else Jwt.decode_into dec z k l.
Proof.
  change (kv :: l) with ([kv] ++ l). rewrite decode_into_app.
  change (Jwt.decode_into dec z k [kv]) with (if ToLower kv.1 =s k then dec z kv.2 else Some z).
  by destruct (ToLower kv.1 =s k).
Qed.
Lemma decode_into_skip z k l : Forall (λ kv, (ToLower kv.1 =s k) = false) l → Jwt.decode_into dec z k l = Some z.
Proof. induction 1 as [|kv l Hkv _ IH]; [done|]. by rewrite decode_into_cons, Hkv. Qed.
End Into.

(** The members of a credential, by position. *)
Lemma strs_into_json l : Jwt.strs_into [] (Vc.strs_json l) = Some l.
Proof. destruct l as [|x l]; [done|]. apply (Jwt.mapM_str_elem (x :: l)). Qed.
Lemma opt_str_into k k' v old : (ToLower k' =s k) = true → old = "" →
  Jwt.decode_into Jwt.str_into old k (Jwt.opt_field k' v) = Some v.
Proof.
  intros Hk ->. unfold Jwt.opt_field. destruct (String.eqb_spec v "") as [->|]; [done|].
  by rewrite decode_into_cons; cbn [fst]; rewrite Hk.
Qed.

Lemma decode_claims_json (m : gmap string string) old :
  foldl (λ acc kv, a ← acc; s ← Jwt.str_elem kv.2; Some (<[kv.1 := s]> a)) (Some old) (Vc.claims_json m) = Some (m ∪ old).
Proof.
  assert (∀ l (old : gmap string string), NoDup l.*1 →
    foldl (λ acc kv, a ← acc; s ← Jwt.str_elem kv.2; Some (<[kv.1 := s]> a)) (Some old)
      ((λ kv : string * string, (kv.1, JStr kv.2)) <$> l) = Some (list_to_map l ∪ old)) as Hl.
  { intros l. induction l as [|[k v] l IH]; intros o Hnd; cbn; [by rewrite (left_id_L ∅ (∪))|].
    apply NoDup_cons in Hnd as [Hk Hl].
    rewrite IH by done. f_equal. apply map_eq. intros k'. rewrite !lookup_union. destruct (decide (k' = k)) as [->|Hne].
    - rewrite !lookup_insert_eq. rewrite not_elem_of_list_to_map_1 by done. by destruct (o !! k).
    - by rewrite !lookup_insert_ne. }
  assert (∃ l, Vc.claims_json m = (λ kv : string * string, (kv.1, JStr kv.2)) <$> l ∧ l ≡ₚ map_to_list m) as (l & -> & Hp).
  { unfold Vc.claims_json. pose proof (merge_sort_Permutation (H:=Vc.key_le_dec) Vc.key_le ((λ kv : string * string, (kv.1, JStr kv.2)) <$> map_to_list m)) as Hp.
    apply Permutation_map_inv in Hp as (l & E & Hp). exists l. split; [done|by symmetry]. }
  rewrite Hl; [|rewrite Hp; apply NoDup_fst_map_to_list].
  rewrite (list_to_map_proper _ (map_to_list m)); [by rewrite list_to_map_to_list|rewrite Hp; apply NoDup_fst_map_to_list|done].
Qed.

(** ** What is written is read back *)

(** Text in every string, an index that fits, times of four-digit years. *)
Definition vc_ok (v : VerifiableCredential) : Prop :=
  match Vc.vc_json v with Some j => wf j | None => False end.

Ltac at_member :=
  repeat first
    [ rewrite decode_into_app | rewrite decode_into_cons; cbn [fst snd]
    | match goal with |- context [ToLower ?a =s ?b] => let x := eval vm_compute in (ToLower a =s b) in change (ToLower a =s b) with x end ];
  cbn [mbind option_bind].

Lemma opt_field_skip {A} (dec : A → json → option A) z k k' v :
  (ToLower k' =s k) = false → Jwt.decode_into dec z k (Jwt.opt_field k' v) = Some z.
Proof. intros Hk. unfold Jwt.opt_field. destruct (v =s ""); [done|]. by rewrite decode_into_cons; cbn [fst]; rewrite Hk. Qed.
Lemma opt_member_skip {A B} (dec : A → json → option A) (f : B → json) z k k' o :
  (ToLower k' =s k) = false → Jwt.decode_into dec z k (Vc.opt_member k' f o) = Some z.
Proof. intros Hk. destruct o; [|done]. cbn [Vc.opt_member]. by rewrite decode_into_cons; cbn [fst]; rewrite Hk. Qed.
Lemma until_skip {A} (dec : A → json → option A) z k o l :
  ("validuntil" =s k) = false → Vc.until_member o = Some l → Jwt.decode_into dec z k l = Some z.
Proof.
  intros Hk. destruct o as [t|]; cbn; [|by intros [= <-]]. destruct (Vc.time_value t); cbn; [|done]. intros [= <-].
  rewrite decode_into_cons. cbn [fst]. change (ToLower "validUntil") with "validuntil". by rewrite Hk.
Qed.
Lemma time_value_read t j : Vc.time_value t = Some j → ∃ s, j = JStr s ∧ GoTime.parse_time s = Some t.
Proof.
  unfold Vc.time_value. destruct (_ && _)%Z eqn:E; [|done]. intros [= <-]. eexists. split; [done|].
  apply GoTime.time_roundtrip. rewrite andb_true_iff, !Z.leb_le in E. lia.
Qed.

Lemma decode_subject_json s : ∃ m, Vc.subject_json s = JObj m ∧ decode_subject m = Some s.
Proof.
  destruct s as [id claims]. unfold Vc.subject_json. cbn [sub_ID sub_Claims]. eexists. split; [reflexivity|].
  destruct (map_to_list claims) as [|kv l] eqn:E.
  - apply map_to_list_empty_iff in E as ->. reflexivity.
  - unfold decode_subject, Jwt.str_field, GoTime.strmap_field. at_member. cbn [Jwt.str_into mbind option_bind].
    rewrite decode_claims_json. cbn [mbind option_bind]. by rewrite (right_id_L ∅ (∪)).
Qed.
Lemma decode_schema_json s : ∃ m, Vc.schema_json s = JObj m ∧ decode_schema m = Some s.
Proof. destruct s. by eexists. Qed.
Lemma decode_status_json s : ∃ m, Vc.status_json s = JObj m ∧ decode_status m = Some s.
Proof. destruct s. by eexists. Qed.
Lemma decode_proof_json p : ∃ m, Vc.proof_json p = JObj m ∧ decode_proof m = Some p.
Proof.
  destruct p as [ty cs cr vm pp pv]. eexists. split; [reflexivity|].
  cbn [prf_Type prf_Cryptosuite prf_Created prf_VerificationMethod prf_ProofPurpose prf_ProofValue]. unfold Jwt.opt_field.
  destruct (String.eqb_spec cs "") as [->|]; reflexivity.
Qed.
Lemma ptr_opt_member {B} (f : B → json) (dec : list (string * json) → option B) k k' o :
  (∀ b, ∃ m, f b = JObj m ∧ dec m = Some b) → (ToLower k' =s k) = true →
  (GoTime.ptr_field k (Vc.opt_member k' f o) ≫= ptr dec) = Some o.
Proof.
  intros Hf Hk. destruct o as [b|]; [|done]. cbn [Vc.opt_member]. unfold GoTime.ptr_field.
  rewrite decode_into_cons. cbn [fst snd]. rewrite Hk. destruct (Hf b) as (m & -> & Hm). cbn. by rewrite Hm.
Qed.

(** One field of a credential: skip the members of other names, decode its own. *)
Ltac field_of Hu :=
  repeat first
    [ rewrite decode_into_app; cbn [mbind option_bind]
    | rewrite decode_into_cons; cbn [fst snd]
    | match goal with |- context [ToLower ?a =s ?b] =>
        let x := eval vm_compute in (ToLower a =s b) in change (ToLower a =s b) with x; cbv iota end
    | rewrite opt_field_skip by reflexivity; cbn [mbind option_bind]
    | rewrite opt_member_skip by reflexivity; cbn [mbind option_bind]
    | match type of Hu with Vc.until_member ?o = Some ?lu =>
        erewrite (until_skip _ _ _ o lu); [|reflexivity|exact Hu]; cbn [mbind option_bind] end
    | rewrite opt_str_into by reflexivity; cbn [mbind option_bind]
    | rewrite strs_into_json; cbn [mbind option_bind]
    | progress cbn [Jwt.str_into mbind option_bind] ].

Lemma until_own o lu :
  Vc.until_member o = Some lu → GoTime.time_ptr_field "validuntil" lu = Some o.
Proof.
  destruct o as [t|]; cbn; [|by intros [= <-]]. destruct (Vc.time_value t) as [j|] eqn:E; [|done].
  apply time_value_read in E as (s & -> & Hs). intros [= <-]. unfold GoTime.time_ptr_field. rewrite decode_into_cons.
  cbn [fst snd]. change (ToLower "validUntil" =s "validuntil") with true. cbv iota. by rewrite Hs.
Qed.

Lemma decode_vc_json v j : Vc.vc_json v = Some j → ∃ l, j = JObj l ∧ decode_vc l = Some v.
Proof.
  destruct v as [[ctx id ty iss from until sub sch st] prf]. unfold Vc.vc_json, Vc.credential_members.
  cbn [vc_Credential vc_Proof cred_Context cred_ID cred_Type cred_Issuer cred_ValidFrom cred_ValidUntil
    cred_CredentialSubject cred_CredentialSchema cred_CredentialStatus].
  destruct (Vc.time_value from) as [jf|] eqn:Ef; [|done]. cbn [mbind option_bind].
  destruct (Vc.until_member until) as [lu|] eqn:Hu; [|done]. cbn [mbind option_bind]. intros [= <-].
  eexists. split; [reflexivity|].
  apply time_value_read in Ef as (sf & -> & Hf). destruct (decode_subject_json sub) as (ms & -> & Hs).
  unfold decode_vc, decode_credential. rewrite <-!app_assoc.
  match goal with |- context [Jwt.strs_field "@context" ?l] => set (L := l) end.
  assert (Jwt.strs_field "@context" L = Some ctx) as -> by (subst L; unfold Jwt.strs_field; field_of Hu; done).
  assert (Jwt.str_field "id" L = Some id) as -> by (subst L; unfold Jwt.str_field; field_of Hu; done).
  assert (Jwt.strs_field "type" L = Some ty) as -> by (subst L; unfold Jwt.strs_field; field_of Hu; done).
  assert (Jwt.str_field "issuer" L = Some iss) as -> by (subst L; unfold Jwt.str_field; field_of Hu; done).
  assert (GoTime.time_field "validfrom" L = Some from) as ->
    by (subst L; unfold GoTime.time_field; field_of Hu; rewrite Hf; field_of Hu; done).
  assert (GoTime.time_ptr_field "validuntil" L = Some until) as ->.
  { pose proof (until_own _ _ Hu) as Ho. unfold GoTime.time_ptr_field in Ho.
    subst L; unfold GoTime.time_ptr_field; field_of Hu. rewrite Ho. field_of Hu. done. }
  assert (GoTime.struct_field "credentialsubject" L = Some ms) as ->
    by (subst L; unfold GoTime.struct_field; field_of Hu; done).
  cbn [mbind option_bind]. rewrite Hs. cbn [mbind option_bind].
  assert ((GoTime.ptr_field "credentialschema" L ≫= ptr decode_schema) = Some sch) as Hsch.
  { rewrite <-(ptr_opt_member Vc.schema_json decode_schema "credentialschema" "credentialSchema" sch decode_schema_json) by done.
    f_equal. subst L; unfold GoTime.ptr_field; field_of Hu. destruct (Jwt.decode_into _ _ _ (Vc.opt_member _ _ sch)); [|done].
    field_of Hu. done. }
  assert ((GoTime.ptr_field "credentialstatus" L ≫= ptr decode_status) = Some st) as Hst.
  { rewrite <-(ptr_opt_member Vc.status_json decode_status "credentialstatus" "credentialStatus" st decode_status_json) by done.
    f_equal. subst L; unfold GoTime.ptr_field; field_of Hu. destruct (Jwt.decode_into _ _ _ (Vc.opt_member _ _ st)); [|done].
    field_of Hu. done. }
  assert ((GoTime.ptr_field "proof" L ≫= ptr decode_proof) = Some prf) as Hprf.
  { rewrite <-(ptr_opt_member Vc.proof_json decode_proof "proof" "proof" prf decode_proof_json) by done.
    f_equal. subst L; unfold GoTime.ptr_field; field_of Hu. done. }
  clearbody L. clear -Hsch Hst Hprf.
  destruct (GoTime.ptr_field "credentialschema" L) as [o1|]; [|done]. cbn [mbind option_bind] in *. rewrite Hsch.
  destruct (GoTime.ptr_field "credentialstatus" L) as [o2|]; [|done]. cbn [mbind option_bind] in *. rewrite Hst.
  destruct (GoTime.ptr_field "proof" L) as [o3|]; [|done]. cbn [mbind option_bind] in *. by rewrite Hprf.
Qed.

(** The law of the store's codec for credentials: a credential whose text and numbers
    JSON can carry is read back as it was written. *)
#[export] Instance vc_roundtrip : JsonRoundTrip VerifiableCredential vc_ok.
Proof.
  split. intros v Hv. unfold vc_ok in Hv. cbn. destruct (Vc.vc_json v) as [j|] eqn:E; [|done].
  eexists. split; [done|]. destruct (decode_vc_json v j E) as (l & -> & Hd). split.
  - unfold compose. intros E0. apply (f_equal bytes_of) in E0. by rewrite bytes_of_str_of in E0.
  - unfold unmarshal_struct, compose. rewrite bytes_of_str_of, parse_marshal by done. by rewrite Hd.
Qed.
End VcJson.
