(* ===== verification/DidJson.v ===== *)
(** * DID documents in JSON (pkg/did/document.go) and the ION method (pkg/did/ion.go)

    The struct tags of [Document], [VerificationMethod] and [Service] as an encoder and
    a decoder, the instance of the store's codec for documents, and its law; and the
    method, behind a build tag, that reads documents from a resolution endpoint. *)

From S2P Require Import Prelude GoStd World Json JsonValue Http.
From S2P Require Import StoreTypes Store Events Jwt GoTime Vc VcJson.
Import JsonValue Types.

Module DidJson.

(** ** Writing *)

Definition flag_member (k : string) (b : bool) : list (string * json) := if b then [(k, JBool true)] else [].
Definition list_member {A} (k : string) (f : A → json) (l : list A) : list (string * json) :=
  match l with [] => [] | _ => [(k, JArr (f <$> l))] end.
Definition time_member (k : string) (o : option Z) : option (list (string * json)) :=
  match o with None => Some [] | Some t => v ← Vc.time_value t; Some [(k, v)] end.
Definition method_json (vm : VerificationMethod) : json :=
  JObj ([("id", JStr (vm_ID vm)); ("type", JStr (vm_Type vm)); ("controller", JStr (vm_Controller vm))] ++
        Vc.opt_member "publicKeyMultibase" JStr (vm_PublicKeyMultibase vm) ++ flag_member "revoked" (vm_Revoked vm) ++
        Vc.opt_member "notBefore" JStr (vm_NotBefore vm)).
Definition service_json (s : Service) : json :=
  JObj [("id", JStr (svc_ID s)); ("type", JStr (svc_Type s)); ("serviceEndpoint", JStr (svc_ServiceEndpoint s))].
Definition document_json (d : Document) : option json :=
  created ← time_member "created" (doc_Created d); updated ← time_member "updated" (doc_Updated d);
  Some (JObj ([("@context", Vc.strs_json (doc_Context d)); ("id", JStr (doc_ID d))] ++
    Jwt.opt_field "controller" (doc_Controller d) ++
    list_member "verificationMethod" method_json (doc_VerificationMethod d) ++
    list_member "authentication" JStr (doc_Authentication d) ++ list_member "keyAgreement" JStr (doc_KeyAgreement d) ++
    list_member "assertionMethod" JStr (doc_AssertionMethod d) ++ list_member "service" service_json (doc_Service d) ++
    created ++ updated)).

(** ** Reading *)

(** A field of type pointer to string. *)
Definition strptr_field (k : string) (l : list (string * json)) : option (option string) :=
  Jwt.decode_into (λ _ v, match v with JStr s => Some (Some s) | JNull => Some None | _ => None end) None k l.
Definition decode_method (l : list (string * json)) : option VerificationMethod :=
  id ← Jwt.str_field "id" l; ty ← Jwt.str_field "type" l; c ← Jwt.str_field "controller" l;
  pk ← strptr_field "publickeymultibase" l; rv ← GoTime.bool_field "revoked" l; nb ← strptr_field "notbefore" l;
  Some (mkVerificationMethod id ty c pk rv nb).
Definition decode_service (l : list (string * json)) : option Service :=
  id ← Jwt.str_field "id" l; ty ← Jwt.str_field "type" l; e ← Jwt.str_field "serviceendpoint" l;
  Some (mkService id ty e).
Definition decode_document (l : list (string * json)) : option Document :=
  ctx ← Jwt.strs_field "@context" l; id ← Jwt.str_field "id" l; c ← Jwt.str_field "controller" l;
  vms ← GoTime.structs_field "verificationmethod" l; vms ← mapM decode_method vms;
  au ← Jwt.strs_field "authentication" l; ka ← Jwt.strs_field "keyagreement" l; am ← Jwt.strs_field "assertionmethod" l;
  svc ← GoTime.structs_field "service" l; svc ← mapM decode_service svc;
  cr ← GoTime.time_ptr_field "created" l; up ← GoTime.time_ptr_field "updated" l;
  Some (mkDocument ctx id c vms au ka am svc cr up).

#[export] Instance document_codec : JsonCodec Document := {|
  json_marshal d := of_option (ErrMsg "json: error calling MarshalJSON") (str_of ∘ marshal <$> document_json d);
  json_unmarshal t := of_option (ErrMsg "json: cannot unmarshal") (VcJson.unmarshal_struct decode_document (bytes_of t)) |}.

(** ** What is written is read back *)

(** Members of one name, wherever they stand. *)
Definition lacks (k : string) (l : list (string * json)) : Prop := Forall (λ kv, (ToLower kv.1 =s k) = false) l.
Lemma lacks_app k l1 l2 : lacks k (l1 ++ l2) ↔ lacks k l1 ∧ lacks k l2.
Proof. apply Forall_app. Qed.
Lemma lacks_cons k kv l : (ToLower kv.1 =s k) = false → lacks k l → lacks k (kv :: l).
Proof. by constructor. Qed.
Lemma lacks_opt_field k k' v : (ToLower k' =s k) = false → lacks k (Jwt.opt_field k' v).
Proof. intros Hk. unfold Jwt.opt_field. destruct (v =s ""); [constructor|by repeat constructor]. Qed.
Lemma lacks_opt_member {A} (f : A → json) k k' o : (ToLower k' =s k) = false → lacks k (Vc.opt_member k' f o).
Proof. intros Hk. destruct o; [by repeat constructor|constructor]. Qed.
Lemma lacks_list_member {A} (f : A → json) k k' l : (ToLower k' =s k) = false → lacks k (list_member k' f l).
Proof. intros Hk. destruct l; [constructor|by repeat constructor]. Qed.
Lemma lacks_flag k k' b : (ToLower k' =s k) = false → lacks k (flag_member k' b).
Proof. intros Hk. destruct b; [by repeat constructor|constructor]. Qed.
Lemma lacks_time k k' o l : time_member k' o = Some l → (ToLower k' =s k) = false → lacks k l.
Proof.
  intros Ht Hk. destruct o as [t|]; cbn in Ht; [|injection Ht as <-; constructor].
  destruct (Vc.time_value t); cbn in Ht; [|done]. injection Ht as <-. by repeat constructor.
Qed.
Create HintDb lacks.
#[local] Hint Resolve lacks_cons lacks_opt_field lacks_opt_member lacks_list_member lacks_flag lacks_time Forall_nil_2 : lacks.
#[local] Hint Extern 0 ((ToLower _ =s _) = false) => vm_compute; reflexivity : lacks.
#[local] Hint Extern 1 (lacks _ (_ ++ _)) => (apply lacks_app; split) : lacks.

(** Only the middle of a member list bears on a field it lacks on both sides. *)
Lemma decode_mid {A} (dec : A → json → option A) z k l1 m l2 :
  lacks k l1 → lacks k l2 → Jwt.decode_into dec z k (l1 ++ m ++ l2) = Jwt.decode_into dec z k m.
Proof.
  intros H1 H2. rewrite VcJson.decode_into_app, VcJson.decode_into_skip by done. cbn [mbind option_bind].
  rewrite VcJson.decode_into_app. destruct (Jwt.decode_into dec z k m); [|done]. cbn [mbind option_bind].
  by apply VcJson.decode_into_skip.
Qed.

Lemma strs_list_member k k' l : (ToLower k' =s k) = true → Jwt.strs_field k (list_member k' JStr l) = Some l.
Proof.
  intros Hk. destruct l as [|x l]; [done|]. unfold Jwt.strs_field, list_member. rewrite VcJson.decode_into_cons.
  cbn [fst snd]. rewrite Hk. cbn [Jwt.strs_into]. by rewrite Jwt.mapM_str_elem.
Qed.
Lemma structs_list_member {A} (f : A → json) (dec : list (string * json) → option A) k k' l :
  (∀ a, ∃ m, f a = JObj m ∧ dec m = Some a) → (ToLower k' =s k) = true →
  (GoTime.structs_field k (list_member k' f l) ≫= mapM dec) = Some l.
Proof.
  intros Hf Hk. destruct l as [|x l]; [done|]. unfold GoTime.structs_field, list_member. rewrite VcJson.decode_into_cons.
  cbn [fst snd]. rewrite Hk.
  assert (∀ l, (mapM GoTime.elem_members (f <$> l) ≫= mapM dec) = Some l) as Hl; [|].
  - clear -Hf. intros l. induction l as [|a l IH]; [done|]. destruct (Hf a) as (m & E & Hm). cbn [fmap list_fmap mapM]. rewrite E.
    cbn [GoTime.elem_members mbind option_bind]. destruct (mapM GoTime.elem_members (f <$> l)) as [ms|] eqn:Em; [|done].
    cbn [mbind option_bind mret option_ret mapM] in IH |- *. rewrite Hm. cbn [mbind option_bind]. by rewrite IH.
  - specialize (Hl (x :: l)). destruct (mapM GoTime.elem_members (f <$> x :: l)); [|done]. done.
Qed.
Lemma time_member_read k k' o l : time_member k' o = Some l → (ToLower k' =s k) = true → GoTime.time_ptr_field k l = Some o.
Proof.
  intros Ht Hk. destruct o as [t|]; cbn in Ht; [|by injection Ht as <-].
  destruct (Vc.time_value t) as [j|] eqn:E; cbn in Ht; [|done]. injection Ht as <-.
  apply VcJson.time_value_read in E as (s & -> & Hs). unfold GoTime.time_ptr_field. rewrite VcJson.decode_into_cons.
  cbn [fst snd]. rewrite Hk. by rewrite Hs.
Qed.
Lemma decode_method_json vm : ∃ m, method_json vm = JObj m ∧ decode_method m = Some vm.
Proof.
  destruct vm as [id ty c pk rv nb]. eexists. split; [reflexivity|].
  by destruct pk, rv, nb.
Qed.
Lemma decode_service_json s : ∃ m, service_json s = JObj m ∧ decode_service m = Some s.
Proof. destruct s. by eexists. Qed.

(** Of the segments of a member list one bears on a field the others lack. *)
Lemma decode_segment {A} (dec : A → json → option A) z k segs i m :
  segs !! i = Some m → Forall (lacks k) (delete i segs) →
  Jwt.decode_into dec z k (concat segs) = Jwt.decode_into dec z k m.
Proof.
  intros Hi Hl. rewrite <-(take_drop_middle segs i m Hi), concat_app. cbn [concat].
  rewrite delete_take_drop in Hl. apply Forall_app in Hl as [H1 H2]. by apply decode_mid; apply Forall_concat.
Qed.
Ltac segment segs i m :=
  match goal with |- context [Jwt.decode_into ?dec ?z ?k (concat segs)] =>
    rewrite (decode_segment dec z k segs i m);
      [|reflexivity|cbn [delete list_delete]; repeat (apply Forall_cons; split); eauto 3 with lacks] end.

Lemma decode_document_json d j : document_json d = Some j → ∃ l, j = JObj l ∧ decode_document l = Some d.
Proof.
  destruct d as [ctx id c vms au ka am svc cr up]. unfold document_json. cbn [doc_Context doc_ID doc_Controller
    doc_VerificationMethod doc_Authentication doc_KeyAgreement doc_AssertionMethod doc_Service doc_Created doc_Updated].
  destruct (time_member "created" cr) as [lc|] eqn:Hc; [|done]. cbn [mbind option_bind].
  destruct (time_member "updated" up) as [lu|] eqn:Hu; [|done]. cbn [mbind option_bind]. intros [= <-].
  eexists. split; [reflexivity|].
  set (segs := [[("@context", Vc.strs_json ctx)]; [("id", JStr id)]; Jwt.opt_field "controller" c;
    list_member "verificationMethod" method_json vms; list_member "authentication" JStr au; list_member "keyAgreement" JStr ka;
    list_member "assertionMethod" JStr am; list_member "service" service_json svc; lc; lu]).
  match goal with |- decode_document ?l = _ => assert (l = concat segs) as -> by (subst segs; cbn [concat app]; by rewrite app_nil_r) end.
  assert (Jwt.strs_field "@context" (concat segs) = Some ctx) as H1.
  { unfold Jwt.strs_field. segment segs 0 [("@context", Vc.strs_json ctx)]. cbn. by rewrite VcJson.strs_into_json. }
  assert (Jwt.str_field "id" (concat segs) = Some id) as H2.
  { unfold Jwt.str_field. by segment segs 1 [("id", JStr id)]. }
  assert (Jwt.str_field "controller" (concat segs) = Some c) as H3.
  { unfold Jwt.str_field. segment segs 2 (Jwt.opt_field "controller" c). by apply VcJson.opt_str_into. }
  assert (Jwt.strs_field "authentication" (concat segs) = Some au) as H4.
  { unfold Jwt.strs_field. segment segs 4 (list_member "authentication" JStr au). by apply strs_list_member. }
  assert (Jwt.strs_field "keyagreement" (concat segs) = Some ka) as H5.
  { unfold Jwt.strs_field. segment segs 5 (list_member "keyAgreement" JStr ka). by apply strs_list_member. }
  assert (Jwt.strs_field "assertionmethod" (concat segs) = Some am) as H6.
  { unfold Jwt.strs_field. segment segs 6 (list_member "assertionMethod" JStr am). by apply strs_list_member. }
  assert ((GoTime.structs_field "verificationmethod" (concat segs) ≫= mapM decode_method) = Some vms) as H7.
  { unfold GoTime.structs_field. segment segs 3 (list_member "verificationMethod" method_json vms).
    by apply structs_list_member; [apply decode_method_json|]. }
  assert ((GoTime.structs_field "service" (concat segs) ≫= mapM decode_service) = Some svc) as H8.
  { unfold GoTime.structs_field. segment segs 7 (list_member "service" service_json svc).
    by apply structs_list_member; [apply decode_service_json|]. }
  assert (GoTime.time_ptr_field "created" (concat segs) = Some cr) as H9.
  { unfold GoTime.time_ptr_field. segment segs 8 lc. by eapply time_member_read. }
  assert (GoTime.time_ptr_field "updated" (concat segs) = Some up) as H10.
  { unfold GoTime.time_ptr_field. segment segs 9 lu. by eapply time_member_read. }
  clearbody segs. unfold decode_document. rewrite H1, H2, H3. cbn [mbind option_bind].
  destruct (GoTime.structs_field "verificationmethod" (concat segs)) as [x|]; [|done]. cbn [mbind option_bind] in H7 |- *.
  rewrite H7, H4, H5, H6. cbn [mbind option_bind].
  destruct (GoTime.structs_field "service" (concat segs)) as [y|]; [|done]. cbn [mbind option_bind] in H8 |- *.
  by rewrite H8, H9, H10.
Qed.

(** Text in every string, times of four-digit years. *)
Definition document_ok (d : Document) : Prop :=
  match document_json d with Some j => wf j | None => False end.
(** A document whose text JSON can carry is read back as it was written. *)
#[export] Instance document_roundtrip : JsonRoundTrip Document document_ok.
Proof.
  split. intros d Hd. unfold document_ok in Hd. cbn. destruct (document_json d) as [j|] eqn:E; [|done].
  eexists. split; [done|]. destruct (decode_document_json d j E) as (l & -> & Hdec). split.
  - unfold compose. intros E0. apply (f_equal bytes_of) in E0. by rewrite bytes_of_str_of in E0.
  - unfold VcJson.unmarshal_struct, compose. rewrite bytes_of_str_of, parse_marshal by done. by rewrite Hdec.
Qed.
End DidJson.

(** ** The ION method

    A lookup at a resolution endpoint; the client that fetches a page is a parameter, its
    answer the status and what reading the body gives. *)

Module Ion.
Import Http.
Record ionMethod := mkIonMethod { ion_endpoint : string }.
Definition ion_init : ionMethod := mkIonMethod "https://beta.discover.did.microsoft.com/1.0/identifiers/".
Definition ion_Prefix (i : ionMethod) : string := "ion".
Definition ion_Create (i : ionMethod) : result (string * Document) :=
  Err (ErrMsg "did:ion: Create not implemented — use the ION CLI to anchor a new DID, then resolve it here").

(** The member of type pointer to Document: an object is decoded over what an earlier
    member of the name left, null resets it. *)
Definition document_ptr (l : list (string * json)) : option (option (list (string * json))) :=
  Jwt.decode_into (λ old v, match v with
    | JObj m => Some (Some (default [] old ++ m))
    | JNull => Some None
    | _ => None
    end) None "diddocument" l.

Section Ion.
Context (http_get : string → result (Z * (list byte * option error))).

(** Reading at most a mebibyte of a body: an error counts when it comes first. *)
Definition ReadAll (body : list byte * option error) : result (list byte) :=
  if (N.of_nat (length body.1) <? 2 ^ 20)%N
  then match body.2 with Some e => Err e | None => Ok body.1 end
  else Ok (take (N.to_nat (2 ^ 20)) body.1).
Definition unmarshal_result (body : list byte) : option (option Document) :=
  v ← parse body;
  l ← match v with JObj l => Some l | JNull => Some [] | _ => None end;
  d ← document_ptr l;
  match d with Some m => Some <$> DidJson.decode_document m | None => Some None end.
Definition ion_Resolve (i : ionMethod) (did : string) : result Document :=
  if negb (HasPrefix did "did:ion:") then Err (ErrMsg ("did:ion: invalid DID " +s did))
  else match http_get (ion_endpoint i +s did) with
  | Err e => Err (ErrWrap ("did:ion resolve " +s did) e)
  | Ok (status, body) =>
  if negb (status =? StatusOK)%Z then Err (ErrMsg ("did:ion resolve " +s did +s ": HTTP " +s Itoa status))
  else match ReadAll body with
  | Err e => Err (ErrWrap "did:ion read body" e)
  | Ok body =>
  match unmarshal_result body with
  | None => Err (ErrWrap "did:ion parse" (ErrMsg "json: cannot unmarshal"))
  | Some None => Err (ErrMsg ("did:ion: no didDocument in response for " +s did))
  | Some (Some d) => Ok d
  end end end.

(** A document published at the endpoint is resolved to itself, when its envelope fits the
    limit; whichever identifier it names, since that is not compared with the one asked for. *)
Theorem ion_resolves_published i did d j :
  HasPrefix did "did:ion:" = true → DidJson.document_json d = Some j → wf j →
  let body := marshal (JObj [("didDocument", j)]) in
  (N.of_nat (length body) < 2 ^ 20)%N → http_get (ion_endpoint i +s did) = Ok (StatusOK, (body, None)) →
  ion_Resolve i did = Ok d.
Proof.
  intros Hp Hj Hwf body Hlen Hget. unfold ion_Resolve. rewrite Hp, Hget. cbn [negb]. rewrite Z.eqb_refl. cbn [negb].
  unfold ReadAll. cbn [fst snd]. destruct (N.ltb_spec (N.of_nat (length body)) (2 ^ 20)); [|lia].
  unfold unmarshal_result, body. destruct (DidJson.decode_document_json d j Hj) as (l & -> & Hd).
  rewrite parse_marshal.
  2: { split; [split; [by repeat constructor|exact Hwf]|exact I]. }
  cbn [mbind option_bind]. unfold document_ptr, Jwt.decode_into. cbn [foldl mbind option_bind fst snd].
  change (ToLower "didDocument" =s "diddocument") with true. cbv iota. cbn [option_bind default id app mbind].
  by rewrite Hd.
Qed.
End Ion.

Definition other_document : Document := mkDocument ["https://www.w3.org/ns/did/v1"] "did:ion:other" "" [] [] [] [] [] None None.
Definition other_page (u : string) : result (Z * (list byte * option error)) :=
  Ok (StatusOK, (marshal (JObj [("didDocument", default JNull (DidJson.document_json other_document))]), None)).
Lemma ion_resolves_published_witness : ion_Resolve other_page ion_init "did:ion:asked" = Ok other_document.
Proof.
  apply (ion_resolves_published other_page ion_init "did:ion:asked" other_document
    (default JNull (DidJson.document_json other_document))); try reflexivity.
  repeat split; vm_compute; repeat constructor.
Defined.
End Ion.
