(* ===== verification/VcProofs.v ===== *)
(** * Theorems about credentials and presentations *)

From S2P Require Import Prelude GoStd World Sha Base64 Json JsonValue.
From S2P Require Import Consent Schema Validate StoreTypes Logic Events Jwt Crypto Canonical Did Vc.
From stdpp Require Import sorting.
Import Json JsonValue Crypto Types Canonical Vc.

Module VcProofs.

(** ** What a signature covers *)

(** Two credentials with the same content: every field, instants as they are written. *)
Definition same_content (c c' : Credential) : Prop :=
  cred_Context c = cred_Context c' ∧ cred_ID c = cred_ID c' ∧ cred_Type c = cred_Type c' ∧
  cred_Issuer c = cred_Issuer c' ∧
  Events.time_json (cred_ValidFrom c) = Events.time_json (cred_ValidFrom c') ∧
  Events.time_json <$> cred_ValidUntil c = Events.time_json <$> cred_ValidUntil c' ∧
  cred_CredentialSubject c = cred_CredentialSubject c' ∧
  cred_CredentialSchema c = cred_CredentialSchema c' ∧
  cred_CredentialStatus c = cred_CredentialStatus c'.
Definition clean_credential (c : Credential) : Prop :=
  match credential_json c with Some v => clean v | None => True end.

Section Content.
Context `{Float64}.

Lemma alook_opt_field k k' v :
  alook k (Jwt.opt_field k' v) = if k =s k' then (if v =s "" then None else Some (JStr v)) else None.
Proof. unfold Jwt.opt_field. destruct (v =s ""); simpl; by destruct (k =s k'). Qed.
Lemma alook_opt_member {A} k k' (f : A → json) o :
  alook k (opt_member k' f o) = if k =s k' then f <$> o else None.
Proof. destruct o; simpl; by destruct (k =s k'). Qed.
Lemma alook_until k o l :
  until_member o = Some l →
  alook k l = if k =s "validUntil" then (λ t, JStr (Events.time_json t)) <$> o else None.
Proof.
  destruct o as [t|]; simpl; [|intros [= <-]; by destruct (k =s "validUntil")].
  unfold time_value. destruct (_ && _)%Z; simpl; [|done]. intros [= <-]. simpl.
  by destruct (k =s "validUntil").
Qed.

Lemma opt_str_inj v v' :
  (if v =s "" then None else Some (JStr v)) ≫= any_of = (if v' =s "" then None else Some (JStr v')) ≫= any_of →
  v = v'.
Proof.
  destruct (String.eqb_spec v "") as [->|]; destruct (String.eqb_spec v' "") as [->|]; simpl; congruence.
Qed.
Lemma any_of_strs_json l : any_of (strs_json l) = Some (strs_json l).
Proof. destruct l as [|x l]; [done|]. apply any_of_strs. Qed.
Lemma strs_json_inj l l' : strs_json l = strs_json l' → l = l'.
Proof.
  destruct l as [|x l], l' as [|x' l']; try done. intros [= -> E]. f_equal.
  revert l' E. induction l as [|y l IH]; intros [|y' l'] E; try done. injection E as -> E. f_equal. by apply IH.
Qed.

(** A claims map is read back member by member. *)
Lemma alook_claims k (m : gmap string string) : alook k (claims_json m) = JStr <$> m !! k.
Proof.
  assert (∀ l, l ≡ₚ (λ kv : string * string, (kv.1, JStr kv.2)) <$> map_to_list m →
    alook k l = JStr <$> m !! k) as Hl; [|apply Hl, merge_sort_Permutation].
  intros l Hl. assert (l.*1 ≡ₚ (map_to_list m).*1) as Hk.
  { rewrite Hl. rewrite <-list_fmap_compose. done. }
  assert (NoDup l.*1) as Hn by (rewrite Hk; apply NoDup_fst_map_to_list).
  destruct (m !! k) as [v|] eqn:E; simpl.
  - apply alook_elem; [done|]. rewrite Hl. apply list_elem_of_fmap. exists (k, v).
    split; [done|by apply elem_of_map_to_list].
  - apply alook_notin. rewrite Hk. intros ([k' v] & -> & Hin%elem_of_map_to_list)%list_elem_of_fmap.
    simpl in E. congruence.
Qed.

(** Every string member of both, under one canonical form, is the same. *)
Lemma any_of_claims_total (m : gmap string string) : ∃ c, any_of (JObj (claims_json m)) = Some c.
Proof.
  assert (∀ l, (∀ kv, kv ∈ l → ∃ s, kv.2 = JStr s) → ∃ c, any_of (JObj l) = Some c) as Hl.
  { intros l Hl. simpl. assert (∃ l', foldr (λ (kv : string * json) acc,
      y ← any_of kv.2; l' ← acc; Some ((kv.1, y) :: l')) (Some []) l = Some l') as [l' ->]; [|by eexists].
    induction l as [|[k v] l IH]; [by eexists|]. simpl. destruct (Hl (k, v) ltac:(left)) as [s Hs].
    simpl in Hs. subst. destruct IH as [l' ->]; [intros; apply Hl; by right|]. by eexists. }
  apply Hl. intros kv Hin. unfold claims_json in Hin. rewrite merge_sort_Permutation in Hin.
  apply list_elem_of_fmap in Hin as (kv' & -> & _). by eexists.
Qed.

Lemma claims_json_inj (m m' : gmap string string) :
  any_of (JObj (claims_json m)) = any_of (JObj (claims_json m')) → m = m'.
Proof.
  intros E. destruct (any_of_claims_total m) as [c Hc]. rewrite Hc in E.
  apply map_eq. intros k. pose proof (any_of_members _ _ _ Hc (eq_sym E) k) as Hk.
  rewrite !alook_claims in Hk. destruct (m !! k), (m' !! k); simpl in Hk; congruence.
Qed.
Lemma alook_subject_claims s :
  alook "claims" match map_to_list (sub_Claims s) with [] => []
    | _ => [("claims", JObj (claims_json (sub_Claims s)))] end =
  if decide (sub_Claims s = ∅) then None else Some (JObj (claims_json (sub_Claims s))).
Proof.
  destruct (decide (sub_Claims s = ∅)) as [->|Hne]; [by rewrite map_to_list_empty|].
  destruct (map_to_list (sub_Claims s)) eqn:E; [|done]. by apply map_to_list_empty_iff in E.
Qed.

Lemma subject_json_inj s s' c :
  any_of (subject_json s) = Some c → any_of (subject_json s') = Some c → s = s'.
Proof.
  intros H1 H2. pose proof (any_of_members _ _ _ H1 H2) as Hk.
  pose proof (Hk "claims") as Hc. specialize (Hk "id").
  change (alook "claims" (?a :: ?l)) with (alook "claims" ([a] ++ l)) in Hc.
  rewrite !(alook_app _ [_]), !alook_subject_claims in Hc.
  assert (∀ s, alook "id" match map_to_list (sub_Claims s) with [] => []
    | _ => [("claims", JObj (claims_json (sub_Claims s)))] end = None) as Hn.
  { intros s0. by destruct (map_to_list (sub_Claims s0)). }
  change (alook "id" (?a :: ?l)) with (alook "id" ([a] ++ l)) in Hk.
  rewrite !(alook_app _ [_]), !Hn in Hk. simpl in Hk. injection Hk as Hid.
  destruct s as [id m], s' as [id' m']. cbn [sub_ID sub_Claims] in *. subst id'. f_equal.
  repeat (case_decide; simplify_eq); try done.
  - destruct (any_of_claims_total m') as [c' Hc']. simpl in Hc, Hc'. by rewrite Hc' in Hc.
  - destruct (any_of_claims_total m) as [c' Hc']. simpl in Hc, Hc'. by rewrite Hc' in Hc.
  - by apply claims_json_inj.
Qed.

Lemma schema_json_inj s s' c :
  any_of (schema_json s) = Some c → any_of (schema_json s') = Some c → s = s'.
Proof.
  intros H1 H2. pose proof (any_of_members _ _ _ H1 H2) as Hk.
  pose proof (Hk "id") as Hi. pose proof (Hk "type") as Ht. destruct s, s'. simpl in *. congruence.
Qed.
Lemma status_json_inj s s' c :
  exact (status_json s) → exact (status_json s') →
  any_of (status_json s) = Some c → any_of (status_json s') = Some c → s = s'.
Proof.
  intros E1 E2 H1 H2. pose proof (any_of_members _ _ _ H1 H2) as Hk.
  pose proof (Hk "id") as Hi. pose proof (Hk "type") as Ht. pose proof (Hk "statusPurpose") as Hp.
  pose proof (Hk "statusListIndex") as Hx. pose proof (Hk "statusListCredential") as Hl.
  destruct s as [? ? ? z ?], s' as [? ? ? z' ?]. simpl in *.
  destruct (Z.leb_spec (Z.abs z) (2 ^ 53)), (Z.leb_spec (Z.abs z') (2 ^ 53)); [congruence|lia..].
Qed.

(** The value of a member of a credential. *)
Definition member (k : string) (c : Credential) : option json :=
  if k =s "@context" then Some (strs_json (cred_Context c))
  else if k =s "id" then if cred_ID c =s "" then None else Some (JStr (cred_ID c))
  else if k =s "type" then Some (strs_json (cred_Type c))
  else if k =s "issuer" then Some (JStr (cred_Issuer c))
  else if k =s "validFrom" then Some (JStr (Events.time_json (cred_ValidFrom c)))
  else if k =s "validUntil" then (λ t, JStr (Events.time_json t)) <$> cred_ValidUntil c
  else if k =s "credentialSubject" then Some (subject_json (cred_CredentialSubject c))
  else if k =s "credentialSchema" then schema_json <$> cred_CredentialSchema c
  else if k =s "credentialStatus" then status_json <$> cred_CredentialStatus c
  else None.
Definition member_names : list string :=
  ["@context"; "id"; "type"; "issuer"; "validFrom"; "validUntil"; "credentialSubject"; "credentialSchema";
   "credentialStatus"].
Lemma credential_members_look c l k :
  credential_members c = Some l → k ∈ member_names → alook k l = member k c.
Proof.
  unfold credential_members. intros H0 Hk.
  destruct (time_value (cred_ValidFrom c)) as [v|] eqn:Ev; simpl in H0; [|done].
  destruct (until_member (cred_ValidUntil c)) as [u|] eqn:Eu; simpl in H0; [|done]. injection H0 as <-.
  assert (v = JStr (Events.time_json (cred_ValidFrom c))) as ->.
  { unfold time_value in Ev. by destruct (_ && _)%Z; simplify_eq. }
  change (?a :: ?x ++ ?y) with ([a] ++ x ++ y).
  change (?a :: ?b :: ?d :: ?x ++ ?y) with ([a; b; d] ++ x ++ y).
  change (?a :: ?x ++ ?y) with ([a] ++ x ++ y).
  rewrite !alook_app, alook_opt_field, (alook_until _ _ _ Eu), !alook_opt_member.
  unfold member_names in Hk. rewrite !elem_of_cons, elem_of_nil in Hk. destruct_or? Hk; try done; subst k; unfold member; simpl.
  all: by destruct (cred_ValidUntil c), (cred_CredentialSchema c), (cred_CredentialStatus c), (cred_ID c =s "").
Qed.

Lemma exact_member k v l : (k, v) ∈ l → exact (JObj l) → exact v.
Proof.
  induction l as [|[k' v'] l IH]; [by intros ?%elem_of_nil|].
  intros [[= -> ->]|Hin]%elem_of_cons [Hv Hl]; [done|]. by apply IH.
Qed.
Lemma alook_in k v l : alook k l = Some v → (k, v) ∈ l.
Proof.
  induction l as [|[k' v'] l IH]; [done|]. simpl. destruct (alook k l).
  - intros [= ->]. right. by apply IH.
  - destruct (String.eqb_spec k k') as [->|]; [|done]. intros [= ->]. left.
Qed.

Lemma status_exact c l s :
  credential_members c = Some l → exact (JObj l) → cred_CredentialStatus c = Some s → exact (status_json s).
Proof.
  intros El Hl Hs. apply (exact_member "credentialStatus" _ l); [|done]. apply alook_in.
  rewrite (credential_members_look _ _ _ El) by set_solver. unfold member. simpl. by rewrite Hs.
Qed.
Lemma opt_json_inj {A} (f : A → json) (o o' : option A) :
  (∀ a, o = Some a → is_Some (any_of (f a))) → (∀ a, o' = Some a → is_Some (any_of (f a))) →
  (∀ a a' v, o = Some a → o' = Some a' → any_of (f a) = Some v → any_of (f a') = Some v → a = a') →
  (f <$> o) ≫= any_of = (f <$> o') ≫= any_of → o = o'.
Proof.
  intros H1 H2 Hf. destruct o as [a|], o' as [a'|]; simpl; [|destruct (H1 a eq_refl) as [? ->]; done
    |destruct (H2 a' eq_refl) as [? ->]; done|done].
  intros E. destruct (H1 a eq_refl) as [v Hv]. f_equal. apply (Hf a a' v); try done. congruence.
Qed.
Lemma any_of_subject s : is_Some (any_of (subject_json s)).
Proof.
  destruct (any_of_claims_total (sub_Claims s)) as [c Hc]. unfold subject_json.
  destruct (map_to_list (sub_Claims s)); [by eexists|].
  remember (JObj (claims_json (sub_Claims s))) as cl. simpl. rewrite Hc. by eexists.
Qed.
Lemma any_of_schema s : is_Some (any_of (schema_json s)).
Proof. by eexists. Qed.
Lemma any_of_status s : exact (status_json s) → is_Some (any_of (status_json s)).
Proof.
  intros Hs. simpl in *. destruct (Z.leb_spec (Z.abs (cst_StatusListIndex s)) (2 ^ 53)); [by eexists|lia].
Qed.

(** The canonical bytes of a clean credential determine its content. *)
Lemma credential_JCS_inj c c' b :
  clean_credential c → clean_credential c' →
  JCS (credential_json c) = Ok b → JCS (credential_json c') = Ok b → same_content c c'.
Proof.
  unfold clean_credential, credential_json. intros Hc Hc' H1 H2.
  destruct (credential_members c) as [l|] eqn:El; [|done].
  destruct (credential_members c') as [l'|] eqn:El'; [|done]. cbn [fmap option_fmap option_map] in *.
  destruct (JCS_inj _ _ _ Hc Hc' H1 H2) as (v & Hv & Hv').
  pose proof (λ s, status_exact c l s El (proj2 Hc)) as Hx.
  pose proof (λ s, status_exact c' l' s El' (proj2 Hc')) as Hx'.
  assert (∀ k, k ∈ member_names → member k c ≫= any_of = member k c' ≫= any_of) as Hk.
  { intros k Hin. rewrite <-(credential_members_look _ _ _ El Hin), <-(credential_members_look _ _ _ El' Hin).
    by apply (any_of_members l l' v). }
  clear H1 H2 Hv Hv' Hc Hc' El El'. unfold member_names in Hk. unfold same_content. split_and!.
  - specialize (Hk "@context" ltac:(set_solver)). unfold member in Hk. simpl in Hk.
    rewrite !any_of_strs_json in Hk. apply strs_json_inj. congruence.
  - specialize (Hk "id" ltac:(set_solver)). unfold member in Hk. simpl in Hk. by apply opt_str_inj.
  - specialize (Hk "type" ltac:(set_solver)). unfold member in Hk. simpl in Hk.
    rewrite !any_of_strs_json in Hk. apply strs_json_inj. congruence.
  - specialize (Hk "issuer" ltac:(set_solver)). unfold member in Hk. simpl in Hk. congruence.
  - specialize (Hk "validFrom" ltac:(set_solver)). unfold member in Hk. cbn in Hk. congruence.
  - specialize (Hk "validUntil" ltac:(set_solver)). unfold member in Hk. cbn in Hk.
    destruct (cred_ValidUntil c), (cred_ValidUntil c'); cbn in *; congruence.
  - specialize (Hk "credentialSubject" ltac:(set_solver)).
    apply (inj Some), (opt_json_inj subject_json); [by intros ? [= <-]; apply any_of_subject..| |exact Hk].
    intros ? ? v0 [= <-] [= <-]. apply subject_json_inj.
  - specialize (Hk "credentialSchema" ltac:(set_solver)).
    apply (opt_json_inj schema_json); [by intros; apply any_of_schema..| |exact Hk].
    intros ? ? ? _ _. apply schema_json_inj.
  - specialize (Hk "credentialStatus" ltac:(set_solver)).
    apply (opt_json_inj status_json); [by intros; apply any_of_status, Hx|by intros; apply any_of_status, Hx'| |exact Hk].
    intros ? ? ? Hs Hs'. by apply status_json_inj; [apply Hx|apply Hx'].
Qed.

(** Two sets of proof options with one canonical form are the same. *)
Lemma proof_options_inj t s d v p t' s' d' v' p' b :
  clean (proof_options t s d v p) → clean (proof_options t' s' d' v' p') →
  JCS (Some (proof_options t s d v p)) = Ok b → JCS (Some (proof_options t' s' d' v' p')) = Ok b →
  t = t' ∧ s = s' ∧ d = d' ∧ v = v' ∧ p = p'.
Proof.
  intros H1 H2 E1 E2. destruct (JCS_inj _ _ _ H1 H2 E1 E2) as (c & Hc & Hc').
  pose proof (any_of_members _ _ _ Hc Hc') as Hk. clear - Hk.
  split_and!; [specialize (Hk "type")|specialize (Hk "cryptosuite")|specialize (Hk "created")
    |specialize (Hk "verificationMethod")|specialize (Hk "proofPurpose")]; vm_compute in Hk; congruence.
Qed.
End Content.

(** ** The signature binds the content *)

Section Binding.
Context `{Ed25519, Float64, Multibase} {St : Type}.

Definition options_of (p : Proof) : json :=
  proof_options (prf_Type p) (prf_Cryptosuite p) (prf_Created p) (prf_VerificationMethod p) (prf_ProofPurpose p).
Definition same_options (p p' : Proof) : Prop :=
  prf_Type p = prf_Type p' ∧ prf_Cryptosuite p = prf_Cryptosuite p' ∧ prf_Created p = prf_Created p' ∧
  prf_VerificationMethod p = prf_VerificationMethod p' ∧ prf_ProofPurpose p = prf_ProofPurpose p'.
(** Two different texts with one SHA-256 digest, one of them the canonical form of [v], the
    other of [v']. *)
Definition collide (v v' : option json) : Prop :=
  ∃ b b', JCS v = Ok b ∧ JCS v' = Ok b' ∧ b ≠ b' ∧ Sha.Sum256 b = Sha.Sum256 b'.
Definition signable (c : Credential) (p : Proof) : Prop := clean_credential c ∧ clean (options_of p).

Lemma integrity_hash_inj c p c' p' h :
  signable c p → signable c' p' →
  integrity_hash (options_of p) c = Ok h → integrity_hash (options_of p') c' = Ok h →
  (same_content c c' ∧ same_options p p') ∨
  collide (credential_json c) (credential_json c') ∨ collide (Some (options_of p)) (Some (options_of p')).
Proof.
  intros [Hc Hp] [Hc' Hp'] H1' H2'. unfold integrity_hash in *.
  destruct (JCS (Some (options_of p))) as [o|] eqn:Eo; [|done].
  destruct (JCS (credential_json c)) as [d|] eqn:Ed; [|done].
  destruct (JCS (Some (options_of p'))) as [o'|] eqn:Eo'; [|done].
  destruct (JCS (credential_json c')) as [d'|] eqn:Ed'; [|done].
  assert (Sha.Sum256 o ++ Sha.Sum256 d = Sha.Sum256 o' ++ Sha.Sum256 d') as E by congruence.
  apply app_inj_1 in E as [Eh1 Eh2]; [|by rewrite !Sha.length_Sum256].
  destruct (decide (d = d')) as [->|Hd]; [|right; left; by exists d, d'].
  destruct (decide (o = o')) as [->|Ho]; [|right; right; by exists o, o'].
  left. split; [by eapply credential_JCS_inj|].
  by apply (proof_options_inj _ _ _ _ _ _ _ _ _ _ o').
Qed.

(** What a successful verification went through. *)
Lemma Verify_inv (v : Verifier St) vc w :
  fst (Verify v vc w) = Ok tt →
  ∃ proof doc pub w1, vc_Proof vc = Some proof ∧
    fst (vr_resolve v (cred_Issuer (vc_Credential vc)) w1) = Ok doc ∧
    extractEd25519Key doc (prf_VerificationMethod proof) = Ok pub ∧
    check_proof pub vc proof = Ok tt ∧ check_status v (vc_Credential vc) = Ok tt.
Proof.
  unfold Verify. destruct (vc_Proof vc) as [proof|]; [|done].
  unfold mbind, M_bind. destruct (time_now w) as [now w1]. case_match; [done|].
  match goal with |- context [let '(_, _) := ?m w1 in _] => destruct (m w1) as [expired w2] end.
  destruct expired; [done|].
  destruct (vr_resolve v (cred_Issuer (vc_Credential vc)) w2) as [[doc|] w3] eqn:Er; [|done].
  destruct (extractEd25519Key doc (prf_VerificationMethod proof)) as [pub|] eqn:Ek; [|done].
  destruct (check_proof pub vc proof) as [[]|] eqn:Ep; [|done].
  simpl. intros Hs. exists proof, doc, pub, w2. by rewrite Er.
Qed.

(** A forgery under [pub]: the proof value is a signature that verifies on the
    hash of the credential, which is not the hash of anything the issuer signed. *)
Definition forged (pub : list byte) (cred : Credential) (proof : Proof) (issued : list (Credential * Proof)) : Prop :=
  ∃ h sig, Base64.DecodeString (prf_ProofValue proof) = Some sig ∧
    integrity_hash (options_of proof) cred = Ok h ∧ ed_verify pub h sig = true ∧
    ∀ c p, (c, p) ∈ issued → integrity_hash (options_of p) c ≠ Ok h.

(** The signature the verifier checked is over the hash of options and content. *)
Lemma check_proof_signed pub vc proof :
  prf_Type proof = "DataIntegrityProof" → check_proof pub vc proof = Ok tt →
  ∃ h sig, Base64.DecodeString (prf_ProofValue proof) = Some sig ∧
    integrity_hash (options_of proof) (vc_Credential vc) = Ok h ∧ ed_verify pub h sig = true.
Proof.
  intros Ht. unfold check_proof. rewrite Ht. cbn [String.eqb Ascii.eqb Bool.eqb andb].
  destruct (prf_Cryptosuite proof =s "eddsa-jcs-2022"); [|done].
  unfold verifyDataIntegrity. fold (options_of proof).
  destruct (Base64.DecodeString (prf_ProofValue proof)) as [sig|]; [|done].
  destruct (integrity_hash (options_of proof) (vc_Credential vc)) as [h|] eqn:Eh; [|done].
  destruct (ed_verify pub h sig) eqn:Es; [|done]. intros _. by exists h, sig.
Qed.
Lemma issued_hash_dec (issued : list (Credential * Proof)) h :
  (∃ c p, (c, p) ∈ issued ∧ integrity_hash (options_of p) c = Ok h) ∨
  (∀ c p, (c, p) ∈ issued → integrity_hash (options_of p) c ≠ Ok h).
Proof.
  induction issued as [|[c p] issued IH]; [right; by intros ? ? ?%elem_of_nil|].
  destruct IH as [(c' & p' & Hin & Hh)|IH]; [left; exists c', p'; by split; [right|]|].
  assert (integrity_hash (options_of p) c = Ok h ∨ integrity_hash (options_of p) c ≠ Ok h) as [Hh|Hh].
  { destruct (integrity_hash (options_of p) c) as [h'|]; [|by right].
    destruct (decide (h' = h)) as [->|]; [by left|right; congruence]. }
  - left. exists c, p. by split; [left|].
  - right. intros c' p' [[= -> ->]|Hin]%elem_of_cons; [done|by apply IH].
Qed.

(** C11: a data-integrity credential that verifies under the key of an issuer who
    signed the credentials in [issued] is one of them, with the same content under
    the same proof options; or SHA-256 collides on their canonical forms; or the
    proof value is an Ed25519 forgery: a signature that verifies under the issuer's
    key on a hash that no signed credential has. *)
Theorem verified_was_issued (v : Verifier St) vc proof doc pub w (issued : list (Credential * Proof)) :
  vc_Proof vc = Some proof → prf_Type proof = "DataIntegrityProof" →
  (∀ w, fst (vr_resolve v (cred_Issuer (vc_Credential vc)) w) = Ok doc) →
  extractEd25519Key doc (prf_VerificationMethod proof) = Ok pub →
  signable (vc_Credential vc) proof → Forall (λ cp, signable cp.1 cp.2) issued →
  fst (Verify v vc w) = Ok tt →
  (∃ c p, (c, p) ∈ issued ∧
    ((same_content (vc_Credential vc) c ∧ same_options proof p) ∨
     collide (credential_json (vc_Credential vc)) (credential_json c) ∨
     collide (Some (options_of proof)) (Some (options_of p)))) ∨
  forged pub (vc_Credential vc) proof issued.
Proof.
  intros Hp Ht Hr Hx Hs Hall HV. apply Verify_inv in HV as (proof' & doc' & pub' & w1 & Hp' & Hd & Hk & Hc & _).
  rewrite Hp in Hp'. injection Hp' as <-. rewrite Hr in Hd. injection Hd as <-.
  rewrite Hx in Hk. injection Hk as <-.
  destruct (check_proof_signed _ _ _ Ht Hc) as (h & sig & Hsig & Hh & Hv).
  destruct (issued_hash_dec issued h) as [(c & p & Hin & Hh')|Hno]; [left|right; by exists h, sig].
  exists c, p. split; [done|].
  rewrite Forall_forall in Hall. by apply (integrity_hash_inj _ _ _ _ h); [|apply (Hall (c, p))|..].
Qed.
End Binding.

(** ** Issue, then verify *)

Section RoundTrip.
Context `{Ed25519, !Ed25519Ok, Float64, JsonSchema, Multibase} {St : Type}.

(** The key a DID method publishes is the key the verifier extracts. *)
Lemma decode_toMultibase `{!MultibaseOk} pub :
  length pub = 32 → decodeMultibaseEd25519 (Did.toMultibase pub 237) = Ok pub.
Proof.
  intros Hl. unfold decodeMultibaseEd25519, Did.toMultibase.
  destruct (multibase_roundtrip (Did.uvarint 237 ++ pub)) as (s & -> & ->).
  assert (Nat.ltb (length (Did.uvarint 237 ++ pub)) 2 = false) as ->.
  { apply Nat.ltb_ge. rewrite length_app, Hl. lia. }
  rewrite Did.decodeUvarint_prefix by done. rewrite drop_app_length. by rewrite Hl.
Qed.

Lemma Issue_inv opts uuid reg compiled (w : World St) vc compiled' :
  fst (Issue opts uuid reg compiled w) = (Ok vc, compiled') →
  ∃ s h, let now := w_clock w (w_nclock w) in
    let proof := mkProof "DataIntegrityProof" "eddsa-jcs-2022" (Events.rfc3339 now) (io_VerificationMethodID opts)
                   "assertionMethod" (Base64.EncodeToString (ed_sign (io_IssuerKey opts) h)) in
    let cred := issued_credential opts uuid (Schema.VersionedID s) now in
    vc = mkVerifiableCredential cred (Some proof) ∧ integrity_hash (options_of proof) cred = Ok h.
Proof.
  unfold Issue. destruct (HasPrefix (io_IssuerDID opts) "did:key:"); [done|].
  destruct (Validate.Validate _ _ _ _) as [[[]|] c1]; [|done].
  destruct (Schema.GetSchema reg (io_SchemaID opts)) as [s|]; [|done].
  unfold mbind, M_bind, time_now. cbn [fst mret M_ret].
  match goal with |- context [integrity_hash ?o ?c] => destruct (integrity_hash o c) as [h|] eqn:Eh end; [|done].
  intros [= <- _]. by exists s, h.
Qed.

(** Issuing reads the clock at most once, and does nothing else. *)
Lemma Issue_run opts uuid reg compiled (w : World St) :
  snd (Issue opts uuid reg compiled w) = w ∨ snd (Issue opts uuid reg compiled w) = snd (time_now w).
Proof.
  unfold Issue. destruct (HasPrefix (io_IssuerDID opts) "did:key:"); [by left|].
  destruct (Validate.Validate _ _ _ _) as [[[]|] c1]; [|by left].
  destruct (Schema.GetSchema reg (io_SchemaID opts)); [by right|by left].
Qed.
Lemma Verify_succeeds (v : Verifier St) vc proof doc pub (w : World St) :
  vc_Proof vc = Some proof →
  (cred_ValidFrom (vc_Credential vc) ≤ w_clock w (w_nclock w))%Z →
  (match cred_ValidUntil (vc_Credential vc) with
   | None => True | Some u => w_clock w (S (w_nclock w)) ≤ u end)%Z →
  (∀ w, fst (vr_resolve v (cred_Issuer (vc_Credential vc)) w) = Ok doc) →
  extractEd25519Key doc (prf_VerificationMethod proof) = Ok pub →
  check_proof pub vc proof = Ok tt → check_status v (vc_Credential vc) = Ok tt →
  fst (Verify v vc w) = Ok tt.
Proof.
  intros Hp Hfrom Huntil Hr Hk Hc Hs. unfold Verify. rewrite Hp. unfold mbind, M_bind, time_now.
  destruct (Z.ltb_spec (w_clock w (w_nclock w)) (cred_ValidFrom (vc_Credential vc))); [lia|].
  match goal with |- context [let '(_, _) := ?m ?w1 in _] =>
    assert (fst (m w1) = false) as He; [|destruct (m w1) as [e w2]; simpl in He; subst e] end.
  { destruct (cred_ValidUntil (vc_Credential vc)) as [u|]; [|done]. simpl. by apply Z.ltb_ge. }
  specialize (Hr w2). destruct (vr_resolve v (cred_Issuer (vc_Credential vc)) w2) as [r w3]. simpl in Hr. subst r.
  by rewrite Hk, Hc.
Qed.

Lemma issued_verifies (v : Verifier St) opts uuid reg compiled (w : World St) vc compiled' doc wv :
  length (io_IssuerKey opts) = 64 →
  fst (Issue opts uuid reg compiled w) = (Ok vc, compiled') →
  (∀ w, fst (vr_resolve v (io_IssuerDID opts) w) = Ok doc) →
  extractEd25519Key doc (io_VerificationMethodID opts) = Ok (ed_public (io_IssuerKey opts)) →
  check_status v (vc_Credential vc) = Ok tt →
  let issuedAt := w_clock w (w_nclock w) in
  (issuedAt ≤ w_clock wv (w_nclock wv))%Z →
  io_ValidFor opts = 0%Z ∨ (w_clock wv (S (w_nclock wv)) ≤ issuedAt + io_ValidFor opts)%Z →
  fst (Verify v vc wv) = Ok tt.
Proof.
  intros Hlen HI Hr Hk Hstat issuedAt Hfrom Huntil. apply Issue_inv in HI as (s & h & -> & Hh).
  fold issuedAt in Hh, Hstat |- *. eapply Verify_succeeds; [done|done| |exact Hr|exact Hk| |exact Hstat].
  - cbn [vc_Credential issued_credential cred_ValidUntil].
    destruct (Z.eqb_spec (io_ValidFor opts) 0); [done|]. destruct Huntil; [done|lia].
  - unfold check_proof. cbn [prf_Type prf_Cryptosuite String.eqb Ascii.eqb Bool.eqb andb vc_Credential].
    unfold verifyDataIntegrity. cbn [prf_ProofValue]. rewrite Base64.DecodeString_EncodeToString.
    unfold options_of in Hh. rewrite Hh. by rewrite ed_verify_sign.
Qed.

(** a credential that [Issue] returned verifies from the instant of issuance until its
    expiry, whenever the issuer's document holds the issuer's public key under the
    verification method named and the revocation check does not object. *)
Theorem issued_credential_verifies (v : Verifier St) opts uuid reg compiled (w : World St) vc compiled' doc wv :
  length (io_IssuerKey opts) = 64 →
  fst (Issue opts uuid reg compiled w) = (Ok vc, compiled') →
  (∀ w, fst (vr_resolve v (io_IssuerDID opts) w) = Ok doc) →
  extractEd25519Key doc (io_VerificationMethodID opts) = Ok (ed_public (io_IssuerKey opts)) →
  (∀ check status, vr_statusChecker v = Some check → check status = Ok tt) →
  let issuedAt := w_clock w (w_nclock w) in
  (issuedAt ≤ w_clock wv (w_nclock wv))%Z →
  io_ValidFor opts = 0%Z ∨ (w_clock wv (S (w_nclock wv)) ≤ issuedAt + io_ValidFor opts)%Z →
  fst (Verify v vc wv) = Ok tt.
Proof.
  intros Hlen HI Hr Hk Hstat. eapply issued_verifies; [done..|].
  unfold check_status. case_match; [|done]. destruct (vr_statusChecker v) as [check|] eqn:E; [|done].
  by rewrite (Hstat check _ eq_refl).
Qed.

(** ** Present, then verify *)

Section Presentation.
Variable v : Verifier St.
(** Resolution may take its time but does not set the clock. *)
Hypothesis resolve_clock : ∀ id w, w_clock (snd (vr_resolve v id w)) = w_clock w.

Lemma Verify_clock vc w : w_clock (snd (Verify v vc w)) = w_clock w.
Proof.
  unfold Verify. destruct (vc_Proof vc) as [proof|]; [|done]. unfold mbind, M_bind, time_now.
  case_match; [done|].
  match goal with |- context [let '(_, _) := ?m ?w1 in _] =>
    assert (w_clock (snd (m w1)) = w_clock w) as He; [|destruct (m w1) as [e w2]; simpl in He] end.
  { by destruct (cred_ValidUntil (vc_Credential vc)). }
  destruct e; [done|]. pose proof (resolve_clock (cred_Issuer (vc_Credential vc)) w2) as Hw.
  destruct (vr_resolve v (cred_Issuer (vc_Credential vc)) w2) as [[doc|] w3]; simpl in Hw; [|by rewrite <-He].
  repeat case_match; by rewrite <-He.
Qed.

Lemma verify_all_succeeds vcs w :
  (∀ vc w', vc ∈ vcs → w_clock w' = w_clock w → fst (Verify v vc w') = Ok tt) →
  fst (verify_all v vcs w) = Ok tt.
Proof.
  revert w. induction vcs as [|vc vcs IH]; intros w Hv; [done|]. simpl. unfold mbind, M_bind.
  pose proof (Hv vc w ltac:(left) eq_refl) as H1'. pose proof (Verify_clock vc w) as Hw.
  destruct (Verify v vc w) as [r w1]. simpl in *. subst r. apply IH. intros vc' w' Hin Hc.
  apply Hv; [by right|congruence].
Qed.

(** a presentation that [Present] returned verifies at a verifier that sent its
    challenge and domain, or none, when the holder's document holds the holder's public key
    and the credentials verify one by one; nothing relates the holder to the
    subjects of the credentials. *)
Theorem presentation_verifies opts uuid (w : World St) vp doc vo wv :
  length (po_HolderKey opts) = 64 →
  fst (Present opts uuid w) = Ok vp →
  (∀ w, fst (vr_resolve v (po_HolderDID opts) w) = Ok doc) →
  extractEd25519Key doc (po_VerificationMethodID opts) = Ok (ed_public (po_HolderKey opts)) →
  vo_ExpectedChallenge vo ∈ [""; po_Challenge opts] → vo_ExpectedDomain vo ∈ [""; po_Domain opts] →
  (∀ vc w', vc ∈ po_Credentials opts → w_clock w' = w_clock wv → fst (Verify v vc w') = Ok tt) →
  fst (VerifyPresentation v vp vo wv) = Ok tt.
Proof.
  intros Hlen HP Hr Hk Hch Hdom Hall. unfold Present in HP.
  destruct (po_Credentials opts) as [|vc0 vcs] eqn:Ec; [done|]. rewrite <-Ec in *.
  unfold mbind, M_bind, time_now in HP. cbn [fst mret M_ret] in HP.
  match type of HP with context [presentation_json ?p] => set (pres := p) in * end.
  destruct (Crypto.SignJSON (po_HolderKey opts) (presentation_json pres)) as [sig|] eqn:Es; [|done].
  injection HP as <-. unfold VerifyPresentation. cbn [vp_Proof vp_Presentation pres_Challenge pres_Domain pres].
  assert (∀ e x, e ∈ [""; x] → negb (e =s "") && negb (x =s e) = false) as Hopt.
  { intros e x [->|[->|?%elem_of_nil]%elem_of_cons]%elem_of_cons; [done| |done].
    rewrite String.eqb_refl. apply andb_false_r. }
  rewrite !Hopt by done. unfold mbind, M_bind.
  change (pres_Holder pres) with (po_HolderDID opts).
  specialize (Hr wv). pose proof (resolve_clock (po_HolderDID opts) wv) as Hw.
  destruct (vr_resolve v (po_HolderDID opts) wv) as [r w1]. simpl in Hr, Hw. subst r.
  cbn [prf_VerificationMethod prf_ProofValue]. rewrite Hk, Base64.DecodeString_EncodeToString.
  fold pres. rewrite (Crypto.VerifyJSON_SignJSON _ _ _ Hlen Es).
  apply verify_all_succeeds. intros vc w' Hin Hc. apply Hall; [done|congruence].
Qed.
End Presentation.
End RoundTrip.

(** ** Instances *)

Module Sample.
(** A scheme whose private keys end in the public key, as Ed25519's do. *)
#[export] Instance suffix_scheme : Ed25519 := {|
  ed_public k := drop 32 k;
  ed_sign k m := Sha.Sum256 (drop 32 k ++ m);
  ed_verify p m s := bool_decide (s = Sha.Sum256 (p ++ m)) |}.
#[export] Instance suffix_scheme_ok : Ed25519Ok.
Proof. split. intros k m _. by apply bool_decide_eq_true. Qed.
#[export] Instance plain_float : Float64 := {| float64 t := Some t; float_int64 _ := 0%Z |}.
#[export] Instance any_schema : JsonSchema := {|
  js_schema := unit; js_compile _ _ := Ok tt; js_validate _ _ := Ok tt |}.
#[export] Existing Instance Did.hex_multibase.
#[export] Existing Instance Did.hex_multibase_ok.

Definition registry : Schema.Registry :=
  default Schema.empty_registry (Schema.RegisterSchema
    (Schema.mkSchema "identity.legal-name" "identity" "Legal name" "" 1 false [] Schema.SourceCore)
    Schema.empty_registry).
Definition opts : IssueOptions :=
  mkIssueOptions "did:web:issuer.example" (replicate 64 x2a) "did:web:issuer.example#key-1" "did:key:alice"
    "identity.legal-name" {["familyName" := "Liddell"; "givenName" := "Alice"]} hour
    "https://issuer.example/status/1" 7.
(** A clock that ticks once a second, and a resolver that answers with the issuer's document. *)
Definition world : World unit :=
  mkWorld (λ n, (1000 + Z.of_nat n) * second)%Z 0 (λ _, None) 0 (λ _, None) 0 tt.
Definition doc (did : string) : Document :=
  Did.base_document did (did +s "#key-1") (Did.toMultibase (replicate 32 x2a) 237) None None.
Definition verifier : Verifier unit := mkVerifier (λ did, mret (Ok (doc did))) (Some (λ _, Ok tt)).
Definition credential : VerifiableCredential :=
  match fst (fst (Issue opts "u1" registry ∅ world)) with
  | Ok vc => vc
  | Err _ => mkVerifiableCredential (issued_credential opts "u1" "" 0) None
  end.
Definition proof : Proof := default (mkProof "" "" "" "" "" "") (vc_Proof credential).

Lemma issue_ok : fst (Issue opts "u1" registry ∅ world) = (Ok credential, snd (fst (Issue opts "u1" registry ∅ world))).
Proof. vm_compute. reflexivity. Qed.
Lemma doc_key did : extractEd25519Key (doc did) (did +s "#key-1") = Ok (replicate 32 x2a).
Proof.
  unfold extractEd25519Key. simpl. rewrite String.eqb_refl. simpl. by apply decode_toMultibase.
Qed.
End Sample.

Section Witnesses.
Import Sample.

Lemma issued_credential_verifies_witness : fst (Verify verifier credential world) = Ok tt.
Proof.
  apply (issued_credential_verifies verifier opts "u1" registry ∅ world credential
    (snd (fst (Issue opts "u1" registry ∅ world))) (doc (io_IssuerDID opts)) world).
  - reflexivity.
  - exact issue_ok.
  - intros w. reflexivity.
  - apply (doc_key "did:web:issuer.example").
  - intros check status [= <-]. reflexivity.
  - vm_compute. done.
  - right. vm_compute. done.
Defined.

Definition later : World unit := mkWorld (λ _, 2000 * second)%Z 0 (λ _, None) 0 (λ _, None) 0 tt.
(** Somebody else presents Alice's credential. *)
Definition bob : PresentOptions :=
  mkPresentOptions "did:web:bob.example" (replicate 64 x2a) "did:web:bob.example#key-1" [credential] "n-1" "shop.example".
Definition bob_presentation : VerifiablePresentation :=
  match fst (Present bob "u2" world) with Ok vp => vp | Err _ => mkVerifiablePresentation
    (mkPresentation [] "" [] "" [] "" "") None end.
Lemma presentation_verifies_witness :
  fst (VerifyPresentation verifier bob_presentation (mkVerifyPresentationOptions "n-1" "") later) = Ok tt.
Proof.
  apply (presentation_verifies verifier (λ _ _, eq_refl) bob "u2" world bob_presentation
           (doc "did:web:bob.example")).
  - reflexivity.
  - vm_compute. reflexivity.
  - intros w. reflexivity.
  - apply (doc_key "did:web:bob.example").
  - right. left.
  - left.
  - intros vc w' Hin Hc. apply list_elem_of_singleton in Hin as ->.
    apply (Verify_succeeds verifier credential proof (doc "did:web:issuer.example") (replicate 32 x2a)).
    + vm_compute. reflexivity.
    + rewrite Hc. by vm_compute.
    + rewrite Hc. by vm_compute.
    + intros w. reflexivity.
    + apply (doc_key "did:web:issuer.example").
    + vm_compute. reflexivity.
    + vm_compute. reflexivity.
Defined.
End Witnesses.

(** A key that signed one credential. *)
Section OneSignature.
Import Sample.

Lemma verified_was_issued_witness :
  ∃ c p, (c, p) ∈ [(vc_Credential credential, proof)] ∧
    ((same_content (vc_Credential credential) c ∧ same_options proof p) ∨
     collide (credential_json (vc_Credential credential)) (credential_json c) ∨
     collide (Some (options_of proof)) (Some (options_of p))).
Proof.
  assert (signable (vc_Credential credential) proof) as Hs.
  { split; vm_compute; repeat split; done. }
  assert (vc_Proof credential = Some proof) as Hp by (vm_compute; reflexivity).
  assert (prf_Type proof = "DataIntegrityProof") as Ht by (vm_compute; reflexivity).
  destruct (verified_was_issued (St:=unit) (mkVerifier (λ did, mret (Ok (doc did))) None) credential proof
           (doc "did:web:issuer.example") (replicate 32 x2a) world [(vc_Credential credential, proof)])
    as [Hi|(h & sig & _ & Hh & _ & Hno)].
  - exact Hp.
  - exact Ht.
  - intros w. reflexivity.
  - apply (doc_key "did:web:issuer.example").
  - exact Hs.
  - apply Forall_cons_2; [exact Hs|apply Forall_nil_2].
  - vm_compute. reflexivity.
  - exact Hi.
  - destruct (Hno (vc_Credential credential) proof ltac:(left) Hh).
Defined.
End OneSignature.
End VcProofs.
