(* ===== verification/StatusVc.v ===== *)
(** * Status lists as credentials (pkg/vc/status.go)

    The signed credential that carries a status list, and revocation from end to end: a
    verifier that takes the list from that credential refuses exactly the credentials
    whose index was revoked. *)

From S2P Require Import Prelude GoStd World Sha Base64 Json JsonValue Consent Schema Validate StoreTypes.
From S2P Require Import Events Jwt Crypto Did StatusList Vc VcProofs.
Import JsonValue Types Vc VcProofs.

Module StatusVc.

Section Issue.
Context `{Ed25519, Float64, Gzip} {St : Type}.

Definition ContextStatus : string := "https://www.w3.org/ns/credentials/status/v1".
Definition list_credential (s : StatusList.StatusList) (issuerDID : string) (now : Z) : Credential :=
  mkCredential (DefaultContext ++ [ContextStatus]) (StatusList.sl_id s) [TypeVC; "BitstringStatusListCredential"] issuerDID now None
    (mkCredentialSubject (StatusList.sl_id s +s "#list")
       {["type" := "BitstringStatusList"; "statusPurpose" := "revocation"; "encodedList" := StatusList.EncodedList s]}) None None.
Definition IssueStatusListVC (s : StatusList.StatusList) (issuerDID : string) (issuerKey : list byte) (verificationMethodID : string)
    : M St (result VerifiableCredential) :=
  now ← time_now;
  let created := Events.rfc3339 now in
  let cred := list_credential s issuerDID now in
  mret (match integrity_hash (proof_options "DataIntegrityProof" "eddsa-jcs-2022" created verificationMethodID "assertionMethod") cred with
        | Err e => Err (ErrWrap "status list vc" e)
        | Ok hashData =>
            Ok (mkVerifiableCredential cred
                  (Some (mkProof "DataIntegrityProof" "eddsa-jcs-2022" created verificationMethodID "assertionMethod"
                           (Base64.EncodeToString (ed_sign issuerKey hashData)))))
        end).
(** [uuid] is what [uuid.NewString] returned. *)
Definition NewStatusListID (serverBase uuid : string) : string := serverBase +s "/api/v1/status/" +s uuid.

(** The entry of a credential as the status check takes it. *)
Definition status_entry (st : CredStatus) : StatusList.CredentialStatus :=
  StatusList.mkCredentialStatus (cst_ID st) (cst_Type st) (cst_StatusPurpose st) (cst_StatusListIndex st) (cst_StatusListCredential st).
End Issue.

Section EndToEnd.
Context `{Ed25519Ok, Float64, JsonSchema, Multibase, GzipOk} {St : Type}.

Lemma IssueStatusListVC_inv s issuerDID key vm (w : World St) listVC :
  fst (IssueStatusListVC s issuerDID key vm w) = Ok listVC →
  ∃ h, let now := w_clock w (w_nclock w) in
    let proof := mkProof "DataIntegrityProof" "eddsa-jcs-2022" (Events.rfc3339 now) vm "assertionMethod"
                   (Base64.EncodeToString (ed_sign key h)) in
    listVC = mkVerifiableCredential (list_credential s issuerDID now) (Some proof) ∧
    integrity_hash (options_of proof) (list_credential s issuerDID now) = Ok h.
Proof.
  unfold IssueStatusListVC, mbind, M_bind, time_now. cbn [fst mret M_ret].
  match goal with |- context [integrity_hash ?o ?c] => destruct (integrity_hash o c) as [h|] eqn:Eh end; [|done].
  intros [= <-]. by exists h.
Qed.
(** The list credential verifies like any other of the issuer's. *)
Lemma list_verifies s issuerDID key vm (w : World St) listVC (v : Verifier St) doc (wv : World St) :
  fst (IssueStatusListVC s issuerDID key vm w) = Ok listVC → length key = 64 →
  (∀ w, fst (vr_resolve v issuerDID w) = Ok doc) → extractEd25519Key doc vm = Ok (ed_public key) →
  (w_clock w (w_nclock w) ≤ w_clock wv (w_nclock wv))%Z → fst (Verify v listVC wv) = Ok tt.
Proof.
  intros HI Hlen Hr Hk Hfrom. apply IssueStatusListVC_inv in HI as (h & -> & Hh).
  eapply Verify_succeeds; [done|done|done|exact Hr|exact Hk| |done].
  unfold check_proof. cbn [prf_Type prf_Cryptosuite String.eqb Ascii.eqb Bool.eqb andb vc_Credential].
  unfold verifyDataIntegrity. cbn [prf_ProofValue]. rewrite Base64.DecodeString_EncodeToString.
  unfold options_of in Hh. rewrite Hh. by rewrite ed_verify_sign.
Qed.

(** A callback that answers what [CheckStatus] answers on the bits of a list. *)
Definition checks_list (bits : list byte) (check : CredStatus → result unit) : Prop :=
  ∀ st r, StatusList.CheckStatus bits (Some (status_entry st)) = Some r → check st = r.

(** C14: Revocation from end to end.  An issuer signs a status list and a credential
    that names that list and an index in it.  From the instants of issuance on, the
    list credential verifies under the issuer's document, is the one that the
    credential names, and its encodedList claim decodes; and a verifier whose status
    callback answers as [CheckStatus] does on the decoded bits accepts the
    credential, until it expires, exactly when its index is not in the set of the
    revoked ones. *)
Theorem revocation_end_to_end s R (wl : World St) listVC
    opts uuid reg compiled (w : World St) cred compiled' doc (resolve : string → M St (result Document)) (wv : World St) :
  StatusList.represents s R → (Z.of_nat (length (StatusList.sl_bits s)) ≤ 16 * 2 ^ 20)%Z →
  fst (IssueStatusListVC s (io_IssuerDID opts) (io_IssuerKey opts) (io_VerificationMethodID opts) wl) = Ok listVC →
  StatusList.sl_id s ≠ "" → io_StatusListCredential opts = StatusList.sl_id s →
  (0 ≤ io_StatusListIndex opts < StatusList.sl_size s)%Z →
  length (io_IssuerKey opts) = 64 → fst (Issue opts uuid reg compiled w) = (Ok cred, compiled') →
  (∀ w, fst (resolve (io_IssuerDID opts) w) = Ok doc) →
  extractEd25519Key doc (io_VerificationMethodID opts) = Ok (ed_public (io_IssuerKey opts)) →
  (w_clock wl (w_nclock wl) ≤ w_clock wv (w_nclock wv))%Z →
  (w_clock w (w_nclock w) ≤ w_clock wv (w_nclock wv))%Z →
  io_ValidFor opts = 0%Z ∨ (w_clock wv (S (w_nclock wv)) ≤ w_clock w (w_nclock w) + io_ValidFor opts)%Z →
  fst (Verify (mkVerifier resolve None) listVC wv) = Ok tt ∧
  cst_StatusListCredential <$> cred_CredentialStatus (vc_Credential cred) = Some (cred_ID (vc_Credential listVC)) ∧
  ∃ encoded bits, sub_Claims (cred_CredentialSubject (vc_Credential listVC)) !! "encodedList" = Some encoded ∧
    StatusList.ParseEncodedList encoded = Ok bits ∧
    ∀ check, checks_list bits check →
      fst (Verify (mkVerifier resolve (Some check)) cred wv) = Ok tt ↔ io_StatusListIndex opts ∉ R.
Proof.
  intros HR Hsize HL Hid Hlist Hi Hlen HI Hres Hext Hl Hfrom Huntil.
  split; [by eapply (list_verifies s _ _ _ wl listVC (mkVerifier resolve None))|].
  apply IssueStatusListVC_inv in HL as (hl & -> & _).
  pose proof HI as HI'. apply Issue_inv in HI' as (sch & h & Hcred & _).
  set (st := mkCredStatus (io_StatusListCredential opts +s "#" +s Itoa (io_StatusListIndex opts))
    "BitstringStatusListEntry" "revocation" (io_StatusListIndex opts) (io_StatusListCredential opts)).
  assert (cred_CredentialStatus (vc_Credential cred) = Some st) as Hst.
  { rewrite Hcred. cbn [vc_Credential issued_credential cred_CredentialStatus].
    rewrite Hlist. apply String.eqb_neq in Hid. rewrite Hid. unfold st. by rewrite Hlist. }
  split; [rewrite Hst; cbn; by rewrite Hlist|].
  destruct (StatusList.published_status_agrees s R (status_entry st) HR Hsize Hi) as (bits & Hb & Hc).
  exists (StatusList.EncodedList s), bits. split_and!; [done|done|]. intros check Hcheck.
  apply Hcheck in Hc. set (v := mkVerifier resolve (Some check)).
  assert (check_status v (vc_Credential cred) = wrap_err "verify: credential revoked" (check st)) as Hs.
  { unfold check_status. by rewrite Hst. }
  rewrite Hc in Hs. cbn [status_entry StatusList.cs_StatusListIndex st cst_StatusListIndex] in Hs. split.
  - intros HV Hin. rewrite bool_decide_true in Hs by done.
    apply Verify_inv in HV as (? & ? & ? & ? & _ & _ & _ & _ & HV). by rewrite Hs in HV.
  - intros Hout. rewrite bool_decide_false in Hs by done.
    by eapply (issued_verifies v opts uuid reg compiled w).
Qed.
End EndToEnd.

(** ** Instances *)

Section Witnesses.
Import VcProofs.Sample.
#[local] Instance stored : Gzip := StatusList.id_gzip.
#[local] Instance stored_ok : GzipOk := StatusList.id_gzip_ok.

Definition revoked_list : StatusList.StatusList := StatusList.mkStatusList "https://issuer.example/status/1" [x80; x00] 16.
Lemma revoked_seven : StatusList.represents revoked_list {[7%Z]}.
Proof.
  split; [done|]. cbn [StatusList.sl_size revoked_list]. intros i Hi.
  assert (i = 0 ∨ i = 1 ∨ i = 2 ∨ i = 3 ∨ i = 4 ∨ i = 5 ∨ i = 6 ∨ i = 7 ∨ i = 8 ∨ i = 9 ∨ i = 10 ∨ i = 11 ∨ i = 12 ∨ i = 13 ∨ i = 14 ∨ i = 15)%Z
    as Hc by lia.
  repeat destruct Hc as [->|Hc]; try subst i; by vm_compute.
Qed.
Definition list_vc : VerifiableCredential :=
  match fst (IssueStatusListVC revoked_list "did:web:issuer.example" (replicate 64 x2a) "did:web:issuer.example#key-1" world) with
  | Ok v => v
  | Err _ => credential
  end.
Definition resolve_issuer (did : string) : M unit (result Document) := mret (Ok (doc did)).
(** The callback of a verifier that decoded the list above. *)
Definition check_revoked (st : CredStatus) : result unit :=
  default (Err (ErrMsg "panic")) (StatusList.CheckStatus [x80; x00] (Some (status_entry st))).
Lemma revocation_end_to_end_witness :
  fst (Verify (mkVerifier resolve_issuer None) list_vc later) = Ok tt ∧
  (fst (Verify (mkVerifier resolve_issuer (Some check_revoked)) credential later) = Ok tt ↔ 7%Z ∉ ({[7%Z]} : gset Z)).
Proof.
  destruct (revocation_end_to_end revoked_list {[7%Z]} world list_vc
    opts "u1" registry ∅ world credential (snd (fst (Issue opts "u1" registry ∅ world))) (doc "did:web:issuer.example") resolve_issuer later)
    as (Hl & _ & enc & bits & He & Hb & Hc).
  - exact revoked_seven.
  - vm_compute. discriminate.
  - vm_compute. reflexivity.
  - discriminate.
  - reflexivity.
  - by vm_compute.
  - reflexivity.
  - exact issue_ok.
  - intros w. reflexivity.
  - apply (doc_key "did:web:issuer.example").
  - vm_compute. discriminate.
  - vm_compute. discriminate.
  - right. by vm_compute.
  - split; [exact Hl|]. apply Hc.
    assert (bits = [x80; x00]) as ->.
    { vm_compute in He. injection He as <-. vm_compute in Hb. by injection Hb as <-. }
    intros st r Hr. unfold check_revoked. by rewrite Hr.
Defined.
End Witnesses.
End StatusVc.
