(* ===== verification/Trust.v ===== *)
(** * Trust primitives (pkg/trust: permit.go, reputation.go)

    Permits are compact signed tokens; a reputation is a credential of its own wire
    format under an eddsa-jcs-2022 proof, or, from the older path, a DNS TXT record. *)

From S2P Require Import Prelude GoStd World Sha Base64 Json JsonValue.
From S2P Require Import Events Jwt Crypto GoTime Vc.
Import JsonValue.

Module Trust.

(** ** Permits *)

Record Permit := mkPermit {
  pm_Issuer : string; pm_Subject : string; pm_Audience : string; pm_Action : string;
  pm_IssuedAt : Z; pm_ExpiresAt : Z; pm_JTI : string }.

Definition permit_payload (p : Permit) : list (string * json) :=
  [("iss", JStr (pm_Issuer p)); ("sub", JStr (pm_Subject p)); ("aud", JStr (pm_Audience p));
   ("action", JStr (pm_Action p)); ("iat", JInt (pm_IssuedAt p)); ("exp", JInt (pm_ExpiresAt p))] ++
  Jwt.opt_field "jti" (pm_JTI p).
Definition decode_permit (l : list (string * json)) : option Permit :=
  iss ← Jwt.str_field "iss" l; sub ← Jwt.str_field "sub" l; aud ← Jwt.str_field "aud" l;
  action ← Jwt.str_field "action" l; iat ← Jwt.int_field "iat" l; exp ← Jwt.int_field "exp" l;
  jti ← Jwt.str_field "jti" l;
  Some (mkPermit iss sub aud action iat exp jti).
Definition unmarshal_permit (payload : list byte) : option Permit :=
  match parse payload with
  | Some (JObj l) => decode_permit l
  | Some JNull => Some (mkPermit "" "" "" "" 0 0 "")
  | _ => None
  end.

Definition permit_header : list byte :=
  marshal (JObj [("alg", JStr "EdDSA"); ("typ", JStr "tpt-permit")]).

Section Permits.
Context `{Ed25519} {St : Type}.

(** Marshalling a permit does not fail. *)
Definition signPermit (p : Permit) (key : list byte) : string :=
  let header := Base64.EncodeToString permit_header in
  let payloadB64 := Base64.EncodeToString (marshal (JObj (permit_payload p))) in
  let sigInput := header +s "." +s payloadB64 in
  let sig := ed_sign key (bytes_of sigInput) in
  sigInput +s "." +s Base64.EncodeToString sig.

Definition IssuePermit (issuerDID : string) (issuerKey : list byte) (subjectDID audienceDID action : string)
    (ttl : Z) (jti : string) : M St string :=
  now ← time_now;
  mret (signPermit (mkPermit issuerDID subjectDID audienceDID action (unix now) (unix (now + ttl)) jti) issuerKey).

Definition parsePermitToken (token : string) : result (Permit * list byte) :=
  match SplitN token x2e 3 with
  | [_; p1; p2] =>
      match Base64.DecodeString p1 with
      | None => Err (ErrMsg "permit: decode payload")
      | Some payloadBytes =>
          match unmarshal_permit payloadBytes with
          | None => Err (ErrMsg "permit: unmarshal payload")
          | Some p =>
              match Base64.DecodeString p2 with
              | None => Err (ErrMsg "permit: decode signature")
              | Some sig => Ok (p, sig)
              end
          end
      end
  | _ => Err (ErrMsg "permit: malformed token (expected 3 parts)")
  end.

Definition VerifyPermit (token : string) (issuerPub : list byte) (expectedAudience expectedAction : string)
    : M St (result Permit) :=
  match parsePermitToken token with
  | Err e => mret (Err e)
  | Ok (p, sig) =>
      match LastIndex token "." with
      | None => mret (Err (ErrMsg "permit: malformed token"))
      | Some dot =>
          if negb (ed_verify issuerPub (take dot (bytes_of token)) sig) then
            mret (Err (ErrMsg "permit: invalid signature"))
          else
            now ← time_now;
            mret (if (pm_ExpiresAt p <? unix now)%Z then Err (ErrMsg "permit: expired")
                  else if negb (expectedAudience =s "") && negb (pm_Audience p =s expectedAudience) then
                    Err (ErrMsg "permit: audience mismatch")
                  else if negb (expectedAction =s "") && negb (pm_Action p =s expectedAction) then
                    Err (ErrMsg "permit: action mismatch")
                  else Ok p)
      end
  end.
End Permits.

(** ** Reputation credentials *)

Record ReputationRecord := mkReputationRecord {
  rep_Domain : string; rep_Score : Z; rep_Tier : string; rep_Since : string; rep_Raw : string }.

Definition ReputationVCType : string := "TptReputationCredential".

Record reputationSubject := mkReputationSubject { rs_ID : string; rs_Score : Z; rs_Tier : string; rs_Since : string }.
Record reputationProof := mkReputationProof {
  rp_Type : string; rp_Cryptosuite : string; rp_Created : string; rp_VerificationMethod : string;
  rp_ProofPurpose : string; rp_ProofValue : string }.
Record reputationVC := mkReputationVC {
  rv_Context : list string; rv_ID : string; rv_Type : list string; rv_Issuer : string; rv_ValidFrom : string;
  rv_ValidUntil : string; rv_CredentialSubject : reputationSubject; rv_Proof : option reputationProof }.

Definition reputationSubject_members (s : reputationSubject) : list (string * json) :=
  [("id", JStr (rs_ID s)); ("score", JInt (rs_Score s)); ("tier", JStr (rs_Tier s)); ("since", JStr (rs_Since s))].
Definition reputationProof_members (p : reputationProof) : list (string * json) :=
  [("type", JStr (rp_Type p)); ("cryptosuite", JStr (rp_Cryptosuite p)); ("created", JStr (rp_Created p));
   ("verificationMethod", JStr (rp_VerificationMethod p)); ("proofPurpose", JStr (rp_ProofPurpose p));
   ("proofValue", JStr (rp_ProofValue p))].
Definition reputationVC_members (c : reputationVC) : list (string * json) :=
  [("@context", Vc.strs_json (rv_Context c)); ("id", JStr (rv_ID c)); ("type", Vc.strs_json (rv_Type c));
   ("issuer", JStr (rv_Issuer c)); ("validFrom", JStr (rv_ValidFrom c))] ++
  Jwt.opt_field "validUntil" (rv_ValidUntil c) ++
  [("credentialSubject", JObj (reputationSubject_members (rv_CredentialSubject c)))] ++
  match rv_Proof c with Some p => [("proof", JObj (reputationProof_members p))] | None => [] end.

Definition decode_reputationSubject (l : list (string * json)) : option reputationSubject :=
  id ← Jwt.str_field "id" l; score ← Jwt.int_field "score" l; tier ← Jwt.str_field "tier" l;
  since ← Jwt.str_field "since" l; Some (mkReputationSubject id score tier since).
Definition decode_reputationProof (l : list (string * json)) : option reputationProof :=
  ty ← Jwt.str_field "type" l; cs ← Jwt.str_field "cryptosuite" l; cr ← Jwt.str_field "created" l;
  vm ← Jwt.str_field "verificationmethod" l; pp ← Jwt.str_field "proofpurpose" l;
  pv ← Jwt.str_field "proofvalue" l; Some (mkReputationProof ty cs cr vm pp pv).
Definition decode_reputationVC (l : list (string * json)) : option reputationVC :=
  ctx ← Jwt.strs_field "@context" l; id ← Jwt.str_field "id" l; ty ← Jwt.strs_field "type" l;
  iss ← Jwt.str_field "issuer" l; from ← Jwt.str_field "validfrom" l; until ← Jwt.str_field "validuntil" l;
  sub ← GoTime.struct_field "credentialsubject" l; sub ← decode_reputationSubject sub;
  prf ← GoTime.ptr_field "proof" l;
  prf ← match prf with None => Some None | Some m => Some <$> decode_reputationProof m end;
  Some (mkReputationVC ctx id ty iss from until sub prf).
Definition zero_reputationVC : reputationVC := mkReputationVC [] "" [] "" "" "" (mkReputationSubject "" 0 "" "") None.
Definition unmarshal_reputationVC (raw : list byte) : option reputationVC :=
  match parse raw with
  | Some (JObj l) => decode_reputationVC l
  | Some JNull => Some zero_reputationVC
  | _ => None
  end.

Fixpoint sliceContains (s : list string) (v : string) : bool :=
  match s with
  | [] => false
  | item :: s' => if item =s v then true else sliceContains s' v
  end.

Section Credentials.
Context `{Ed25519, Float64} {St : Type}.

Definition reputation_options (p : reputationProof) : json :=
  JObj (of_pairs [("type", JStr (rp_Type p)); ("cryptosuite", JStr (rp_Cryptosuite p));
                  ("created", JStr (rp_Created p)); ("verificationMethod", JStr (rp_VerificationMethod p));
                  ("proofPurpose", JStr (rp_ProofPurpose p))]).
Definition reputationSignInput (p : reputationProof) (doc : reputationVC) : result (list byte * list byte) :=
  match Crypto.JCS (Some (reputation_options p)) with
  | Err e => Err (ErrWrap "reputation vc: jcs proof options" e)
  | Ok proofOpts =>
      match Crypto.JCS (Some (JObj (reputationVC_members doc))) with
      | Err e => Err (ErrWrap "reputation vc: jcs document" e)
      | Ok document => Ok (proofOpts, document)
      end
  end.

Definition with_proof (c : reputationVC) (p : option reputationProof) : reputationVC :=
  mkReputationVC (rv_Context c) (rv_ID c) (rv_Type c) (rv_Issuer c) (rv_ValidFrom c) (rv_ValidUntil c)
    (rv_CredentialSubject c) p.

(** The unsigned credential that is issued at [now]; [uuid] is what [uuid.NewString] returned. *)
Definition reputation_credential (authorityDID subjectDID : string) (rec : ReputationRecord) (validFor : Z)
    (uuid : string) (now : Z) : reputationVC :=
  mkReputationVC ["https://www.w3.org/ns/credentials/v2"; "https://tpt.nz/ns/trust/v1"] ("urn:uuid:" +s uuid)
    ["VerifiableCredential"; ReputationVCType] authorityDID (Events.rfc3339 now)
    (if (validFor =? 0)%Z then "" else Events.rfc3339 (now + validFor))
    (mkReputationSubject subjectDID (rep_Score rec) (rep_Tier rec) (rep_Since rec)) None.

Definition IssueReputationVC (authorityDID : string) (authorityKey : list byte) (verificationMethodID subjectDID : string)
    (rec : ReputationRecord) (validFor : Z) (uuid : string) : M St (result (list byte)) :=
  if ((rep_Score rec <? 0) || (100 <? rep_Score rec))%Z then
    mret (Err (ErrMsg "reputation vc: score out of range [0,100]"))
  else
    now ← time_now;
    let cred := reputation_credential authorityDID subjectDID rec validFor uuid now in
    let proof := mkReputationProof "DataIntegrityProof" "eddsa-jcs-2022" (Events.rfc3339 now) verificationMethodID
                   "assertionMethod" in
    mret (match reputationSignInput (proof "") cred with
          | Err e => Err e
          | Ok (proofOptionsBytes, documentBytes) =>
              let combined := Sha.Sum256 proofOptionsBytes ++ Sha.Sum256 documentBytes in
              let sig := ed_sign authorityKey combined in
              Ok (marshal (JObj (reputationVC_members
                    (with_proof cred (Some (proof (Base64.EncodeToString sig)))))))
          end).

Definition VerifyReputationVC (credJSON authorityPub : list byte) : M St (result ReputationRecord) :=
  match unmarshal_reputationVC credJSON with
  | None => mret (Err (ErrMsg "reputation vc: unmarshal"))
  | Some cred =>
      if negb (sliceContains (rv_Type cred) ReputationVCType) then
        mret (Err (ErrMsg "reputation vc: not a TptReputationCredential"))
      else match rv_Proof cred with
      | None => mret (Err (ErrMsg "reputation vc: missing proof"))
      | Some proof =>
          r ← (if rv_ValidUntil cred =s "" then mret (Ok tt)
               else match GoTime.Parse_RFC3339 (rv_ValidUntil cred) with
                    | None => mret (Err (ErrMsg "reputation vc: parse validUntil"))
                    | Some exp =>
                        now ← time_now;
                        mret (if (exp <? now)%Z then Err (ErrMsg "reputation vc: expired") else Ok tt)
                    end);
          mret (match r : result unit with
                | Err e => Err e
                | Ok _ =>
                    match reputationSignInput proof (with_proof cred None) with
                    | Err e => Err e
                    | Ok (proofOptionsBytes, documentBytes) =>
                        match Base64.DecodeString (rp_ProofValue proof) with
                        | None => Err (ErrMsg "reputation vc: decode proof value")
                        | Some sig =>
                            let combined := Sha.Sum256 proofOptionsBytes ++ Sha.Sum256 documentBytes in
                            if negb (ed_verify authorityPub combined sig) then
                              Err (ErrMsg "reputation vc: invalid signature")
                            else Ok (mkReputationRecord (rs_ID (rv_CredentialSubject cred))
                                       (rs_Score (rv_CredentialSubject cred)) (rs_Tier (rv_CredentialSubject cred))
                                       (rs_Since (rv_CredentialSubject cred)) "")
                        end
                    end
                end)
      end
  end.
End Credentials.

(** ** Trust levels *)

Inductive TrustLevel := TrustUnknown | TrustRestricted | TrustProvisional | TrustVerified | TrustTrusted.
Definition TrustLevel_String (t : TrustLevel) : string :=
  match t with
  | TrustRestricted => "restricted" | TrustProvisional => "provisional" | TrustVerified => "verified"
  | TrustTrusted => "trusted" | TrustUnknown => "unknown"
  end.
Definition Level (r : option ReputationRecord) : TrustLevel :=
  match r with
  | None => TrustUnknown
  | Some r =>
      if (rep_Score r <? 0)%Z then TrustUnknown
      else if (85 <=? rep_Score r)%Z then TrustTrusted
      else if (60 <=? rep_Score r)%Z then TrustVerified
      else if (25 <=? rep_Score r)%Z then TrustProvisional
      else TrustRestricted
  end.

(** ** DNS records *)

Definition read_rep_field (rec : ReputationRecord) (f : string) : ReputationRecord :=
  match SplitN f x3d 2 with
  | [k; v] =>
      if k =s "score" then
        match Atoi v with
        | Some n => if ((0 <=? n) && (n <=? 100))%Z then
                      mkReputationRecord (rep_Domain rec) n (rep_Tier rec) (rep_Since rec) (rep_Raw rec)
                    else rec
        | None => rec
        end
      else if k =s "tier" then mkReputationRecord (rep_Domain rec) (rep_Score rec) v (rep_Since rec) (rep_Raw rec)
      else if k =s "since" then mkReputationRecord (rep_Domain rec) (rep_Score rec) (rep_Tier rec) v (rep_Raw rec)
      else rec
  | _ => rec
  end.
Definition parseReputationTXT (domain txt : string) : option ReputationRecord :=
  match Fields txt with
  | f0 :: fields =>
      if negb (f0 =s "v=tpt1") then None
      else Some (foldl read_rep_field (mkReputationRecord domain (-1) "" "" txt) fields)
  | [] => None
  end.

Definition isDNSNoRecord (msg : string) : bool :=
  Contains msg "no such host" || Contains msg "NXDOMAIN" || Contains msg "no answer".

Definition trim_dot (s : string) : string :=
  match last (bytes_of s) with
  | Some c => if beqb c x2e then str_of (removelast (bytes_of s)) else s
  | None => s
  end.
Fixpoint first_record (domain : string) (records : list string) : option ReputationRecord :=
  match records with
  | [] => None
  | r :: records' =>
      match parseReputationTXT domain r with Some rec => Some rec | None => first_record domain records' end
  end.
(** The resolver answers with TXT records or with the message of an error. *)
Definition LookupReputation (LookupTXT : string → list string + string) (domain : string)
    : result (option ReputationRecord) :=
  let host := "_tpt-rep." +s trim_dot domain in
  match LookupTXT host with
  | inr msg => if isDNSNoRecord msg then Ok None else Err (ErrWrap "reputation: dns lookup" (ErrMsg msg))
  | inl records => Ok (first_record domain records)
  end.
End Trust.
