(* ===== verification/TrustProofs.v ===== *)
(** * Permits and reputations: what a verifier accepts *)

From S2P Require Import Prelude GoStd World Sha Base64 Json JsonValue.
From S2P Require Import Events Jwt Crypto Canonical GoTime Vc Trust.
Import JsonValue Trust.

Module TrustProofs.

(** ** Permits *)

Definition permit_ok (p : Permit) : Prop :=
  Forall Json.valid_utf8 [pm_Issuer p; pm_Subject p; pm_Audience p; pm_Action p; pm_JTI p] ∧
  (0 ≤ pm_IssuedAt p < 2 ^ 63)%Z ∧ (0 ≤ pm_ExpiresAt p < 2 ^ 63)%Z.

Lemma decode_permit_payload p : decode_permit (permit_payload p) = Some p.
Proof.
  destruct p as [iss sub aud action iat exp jti]. unfold permit_payload, Jwt.opt_field.
  cbn [pm_Issuer pm_Subject pm_Audience pm_Action pm_IssuedAt pm_ExpiresAt pm_JTI].
  by destruct (String.eqb_spec jti "") as [->|].
Qed.

Lemma unmarshal_marshal_permit p :
  permit_ok p → unmarshal_permit (marshal (JObj (permit_payload p))) = Some p.
Proof.
  intros (Hs & Hi & He). unfold unmarshal_permit. rewrite parse_marshal; [apply decode_permit_payload|].
  apply wf_JObj. unfold permit_payload. rewrite Forall_app. decompose_Forall_hyps.
  split; [|by apply Jwt.wf_opt_field].
  repeat (apply Forall_cons; split; [split; [reflexivity|done]|]). done.
Qed.

Lemma last_dot a c :
  Forall (λ x, beqb x x2e = false) c → blast_index [x2e] (a ++ x2e :: c) = Some (length a).
Proof.
  intros Hc. assert (blast_index [x2e] c = None) as Hn.
  { induction Hc as [|x c Hx Hc IH]; [done|]. simpl. rewrite IH. simpl.
    destruct (beqb_spec x2e x) as [<-|]; [by rewrite beqb_refl in Hx|done]. }
  induction a as [|x a IH]; simpl; [by rewrite Hn|by rewrite IH].
Qed.

Section Permits.
Context `{Ed25519, !Ed25519Ok} {St : Type}.

Lemma signPermit_segments p key :
  let msg := Base64.EncodeToString permit_header +s "." +s Base64.EncodeToString (marshal (JObj (permit_payload p))) in
  signPermit p key = Base64.EncodeToString permit_header +s "." +s
    Base64.EncodeToString (marshal (JObj (permit_payload p))) +s "." +s
    Base64.EncodeToString (ed_sign key (bytes_of msg)).
Proof. unfold signPermit. cbv zeta. apply bytes_of_inj. by rewrite !bytes_of_append, <-!app_assoc. Qed.

Lemma parse_signPermit p key :
  permit_ok p → parsePermitToken (signPermit p key) =
    Ok (p, ed_sign key (bytes_of (Base64.EncodeToString permit_header +s "." +s
             Base64.EncodeToString (marshal (JObj (permit_payload p)))))).
Proof.
  intros Hp. unfold parsePermitToken. rewrite signPermit_segments, Jwt.SplitN_segments.
  by rewrite !Base64.DecodeString_EncodeToString, unmarshal_marshal_permit.
Qed.

Lemma signPermit_input p key :
  let msg := Base64.EncodeToString permit_header +s "." +s Base64.EncodeToString (marshal (JObj (permit_payload p))) in
  ∃ dot, LastIndex (signPermit p key) "." = Some dot ∧ take dot (bytes_of (signPermit p key)) = bytes_of msg.
Proof.
  cbv zeta. exists (length (bytes_of (Base64.EncodeToString permit_header +s "." +s
    Base64.EncodeToString (marshal (JObj (permit_payload p)))))).
  unfold signPermit, LastIndex. cbv zeta. rewrite (bytes_of_append (_ +s _) ("." +s _)), (bytes_of_append ".").
  change (bytes_of ".") with [x2e]. cbn [app]. split; [|by rewrite take_app_length].
  apply last_dot. unfold Base64.EncodeToString at 1. rewrite bytes_of_str_of. apply Jwt.encode_no_dot.
Qed.

(** A permit round-trips: until the second of its expiry it is accepted, under the
    public key of its signer, for its audience and its action and for callers that
    expect none, whoever it names as its issuer, and the verifier reads back exactly
    what was signed; every other expectation is refused. *)
Theorem permit_roundtrip p key aud act (w : World St) :
  permit_ok p → length key = 64 →
  fst (VerifyPermit (signPermit p key) (ed_public key) aud act w) =
    if (pm_ExpiresAt p <? unix (w_clock w (w_nclock w)))%Z then Err (ErrMsg "permit: expired")
    else if bool_decide (aud ≠ "" ∧ aud ≠ pm_Audience p) then Err (ErrMsg "permit: audience mismatch")
    else if bool_decide (act ≠ "" ∧ act ≠ pm_Action p) then Err (ErrMsg "permit: action mismatch")
    else Ok p.
Proof.
  intros Hp Hk. unfold VerifyPermit. rewrite parse_signPermit by done.
  destruct (signPermit_input p key) as (dot & -> & ->). rewrite ed_verify_sign by done. cbn [negb].
  unfold mbind, M_bind, time_now, mret, M_ret. cbn [fst].
  assert (∀ x y : string, negb (x =s "") && negb (y =s x) = bool_decide (x ≠ "" ∧ x ≠ y)) as Hb.
  { intros x y. destruct (String.eqb_spec x ""), (String.eqb_spec y x); subst; cbn [negb andb]; symmetry;
      first [apply bool_decide_eq_false; naive_solver|apply bool_decide_eq_true; naive_solver]. }
  by rewrite !Hb.
Qed.

(** Only what was signed is accepted: an accepted permit is the decoded second segment
    of a token whose text up to its last dot the issuer's key verifies, is unexpired, and
    is for the expected audience and action. *)
Theorem permit_accepts_only_signed token pub aud act (w w' : World St) p :
  VerifyPermit token pub aud act w = (Ok p, w') →
  ∃ p0 p1 p2 sig payload dot, SplitN token x2e 3 = [p0; p1; p2] ∧
    Base64.DecodeString p1 = Some payload ∧ unmarshal_permit payload = Some p ∧
    Base64.DecodeString p2 = Some sig ∧ LastIndex token "." = Some dot ∧
    ed_verify pub (take dot (bytes_of token)) sig = true ∧
    (unix (w_clock w (w_nclock w)) ≤ pm_ExpiresAt p)%Z ∧
    (aud ≠ "" → pm_Audience p = aud) ∧ (act ≠ "" → pm_Action p = act).
Proof.
  unfold VerifyPermit, parsePermitToken. intros Hrun.
  destruct (SplitN token x2e 3) as [|p0 [|p1 [|p2 [|]]]]; try done.
  destruct (Base64.DecodeString p1) as [payload|] eqn:E1; [|done].
  destruct (unmarshal_permit payload) as [q|] eqn:Eq; [|done].
  destruct (Base64.DecodeString p2) as [sig|] eqn:E2; [|done].
  destruct (LastIndex token ".") as [dot|]; [|done].
  destruct (ed_verify pub _ sig) eqn:Ev; [|done]. cbn [negb] in Hrun.
  unfold mbind, M_bind, time_now, mret, M_ret in Hrun. injection Hrun as Hr _.
  destruct (Z.ltb_spec (pm_ExpiresAt q) (unix (w_clock w (w_nclock w)))); [done|].
  destruct (negb (aud =s "") && _) eqn:Ea; [done|]. destruct (negb (act =s "") && _) eqn:Eb; [done|].
  injection Hr as ->. exists p0, p1, p2, sig, payload, dot.
  rewrite andb_false_iff, !negb_false_iff, !String.eqb_eq in Ea, Eb. split_and!; naive_solver.
Qed.
End Permits.
(** ** Reputation credentials *)

Lemma decode_subject_members s : decode_reputationSubject (reputationSubject_members s) = Some s.
Proof. by destruct s. Qed.
Lemma decode_proof_members p : decode_reputationProof (reputationProof_members p) = Some p.
Proof. by destruct p. Qed.
Lemma decode_reputation_members c :
  rv_Context c ≠ [] → rv_Type c ≠ [] → decode_reputationVC (reputationVC_members c) = Some c.
Proof.
  destruct c as [ctx id ty iss from until sub prf]. cbn [rv_Context rv_Type]. intros Hctx Hty.
  unfold reputationVC_members, Jwt.opt_field.
  cbn [rv_Context rv_ID rv_Type rv_Issuer rv_ValidFrom rv_ValidUntil rv_CredentialSubject rv_Proof].
  pose proof (Jwt.mapM_str_elem ctx) as Hc. pose proof (Jwt.mapM_str_elem ty) as Ht.
  assert (∀ l : list string, l ≠ [] → Vc.strs_json l = JArr (JStr <$> l)) as E by (by intros []).
  rewrite !E by done. revert Hc Ht. generalize (JStr <$> ctx), (JStr <$> ty). intros vs ws Hc Ht.
  unfold decode_reputationVC.
  destruct (String.eqb_spec until "") as [->|]; destruct prf as [prf|];
    (match goal with |- context [Jwt.strs_field "@context" ?l] =>
       assert (Jwt.strs_field "@context" l = Some ctx) as -> by (revert Hc; vm_compute; by intros ->);
       assert (Jwt.strs_field "type" l = Some ty) as -> by (revert Ht; vm_compute; by intros ->)
     end);
    destruct sub; try destruct prf; reflexivity.
Qed.
Section Reputation.
Context `{Ed25519, !Ed25519Ok, Float64} {St : Type}.

Definition in_calendar (t : Z) : Prop := (-62167219200 ≤ unix t ≤ 253402300799)%Z.

Lemma strs_json_clean l : Forall Json.valid_utf8 l → Canonical.clean (Vc.strs_json l).
Proof.
  intros Hl. destruct Hl as [|x l Hx Hl]; [done|]. split; [by apply wf_JArr, (Jwt.wf_strs (x :: l)); constructor|].
  simpl. split; [done|]. clear. induction l; simpl; by split.
Qed.
Lemma clean_JObj l :
  Forall (λ kv, Json.valid_utf8 kv.1 ∧ Canonical.clean kv.2) l → Canonical.clean (JObj l).
Proof.
  intros Hl. split; [apply wf_JObj; eapply Forall_impl; [exact Hl|]; by intros ? [? []]|].
  simpl. induction Hl as [|kv l [_ [_ He]] _ IH]; simpl; by split.
Qed.
Lemma clean_str s : Json.valid_utf8 s → Canonical.clean (JStr s).
Proof. by split. Qed.

(** What is issued can be written and canonicalised. *)
Lemma reputation_members_clean c :
  Forall Json.valid_utf8 (rv_Context c) → Forall Json.valid_utf8 (rv_Type c) →
  Forall Json.valid_utf8 [rv_ID c; rv_Issuer c; rv_ValidFrom c; rv_ValidUntil c; rs_ID (rv_CredentialSubject c);
                          rs_Tier (rv_CredentialSubject c); rs_Since (rv_CredentialSubject c)] →
  (0 ≤ rs_Score (rv_CredentialSubject c) ≤ 100)%Z →
  match rv_Proof c with
  | Some p => Forall Json.valid_utf8 [rp_Type p; rp_Cryptosuite p; rp_Created p; rp_VerificationMethod p;
                                      rp_ProofPurpose p; rp_ProofValue p]
  | None => True
  end → Canonical.clean (JObj (reputationVC_members c)).
Proof.
  intros Hc Ht Hs Hz Hp. decompose_Forall_hyps. apply clean_JObj. unfold reputationVC_members.
  rewrite !Forall_app. split_and!.
  - repeat (apply Forall_cons; split; [split; [reflexivity|first [by apply clean_str|by apply strs_json_clean]]|]). done.
  - unfold Jwt.opt_field. destruct (_ =s ""); [done|]. constructor; [split; [reflexivity|by apply clean_str]|done].
  - constructor; [split; [reflexivity|]|done]. apply clean_JObj. unfold reputationSubject_members.
    repeat (apply Forall_cons; split; [split; [reflexivity|first [by apply clean_str|split; simpl; lia]]|]). done.
  - destruct (rv_Proof c) as [p|]; [|done]. decompose_Forall_hyps. constructor; [split; [reflexivity|]|done].
    apply clean_JObj. unfold reputationProof_members.
    repeat (apply Forall_cons; split; [split; [reflexivity|by apply clean_str]|]). done.
Qed.

Lemma reputation_options_clean p :
  Forall Json.valid_utf8 [rp_Type p; rp_Cryptosuite p; rp_Created p; rp_VerificationMethod p; rp_ProofPurpose p] →
  Canonical.clean (reputation_options p).
Proof.
  intros Hs. decompose_Forall_hyps. apply clean_JObj. unfold of_pairs. apply Canonical.Forall_foldl_aset; [|done].
  repeat (apply Forall_cons; split; [split; [reflexivity|by apply clean_str]|]). done.
Qed.

(** A reputation round-trips: an assessment within [0, 100] is issued, and what is
    issued verifies under the authority's key to the subject and the assessment, until
    the second in which its validity ends if it has one; no other assessment is issued. *)
Theorem reputation_roundtrip auth key vm sub rec validFor uuid (w w2 : World St) :
  Forall Json.valid_utf8 [auth; vm; sub; uuid; rep_Tier rec; rep_Since rec] → length key = 64 →
  let now := w_clock w (w_nclock w) in in_calendar (now + validFor) →
  match fst (IssueReputationVC auth key vm sub rec validFor uuid w) with
  | Err _ => ¬ (0 ≤ rep_Score rec ≤ 100)%Z
  | Ok raw =>
      (0 ≤ rep_Score rec ≤ 100)%Z ∧
      fst (VerifyReputationVC raw (ed_public key) w2) =
        if bool_decide (validFor ≠ 0 ∧ unix (now + validFor) * second < w_clock w2 (w_nclock w2))%Z
        then Err (ErrMsg "reputation vc: expired")
        else Ok (mkReputationRecord sub (rep_Score rec) (rep_Tier rec) (rep_Since rec) "")
  end.
Proof.
  intros Hs Hk now Hcal. decompose_Forall_hyps. unfold IssueReputationVC.
  destruct (_ || _)%Z eqn:Hr; [cbn; rewrite orb_true_iff, !Z.ltb_lt in Hr; lia|].
  rewrite orb_false_iff, !Z.ltb_ge in Hr. unfold mbind, M_bind, time_now, mret, M_ret. cbn [fst]. fold now.
  set (cred := reputation_credential auth sub rec validFor uuid now).
  set (proof := mkReputationProof "DataIntegrityProof" "eddsa-jcs-2022" (Events.rfc3339 now) vm "assertionMethod").
  assert (∀ v, Canonical.clean (reputation_options (proof v))) as Ho.
  { intros v. apply reputation_options_clean. repeat constructor; try done. apply GoTime.rfc3339_utf8. }
  assert (∀ prf, match prf with Some p => Forall Json.valid_utf8 [rp_Type p; rp_Cryptosuite p; rp_Created p;
      rp_VerificationMethod p; rp_ProofPurpose p; rp_ProofValue p] | None => True end →
    Canonical.clean (JObj (reputationVC_members (with_proof cred prf)))) as Hd.
  { intros prf Hp. apply reputation_members_clean; [by repeat constructor|by repeat constructor| |cbn; lia|done].
    apply Forall_cons; split; [apply Json.utf8_prefix; [by repeat constructor|done]|].
    apply Forall_cons; split; [done|]. apply Forall_cons; split; [apply GoTime.rfc3339_utf8|].
    apply Forall_cons; split; [cbn; destruct (validFor =? 0)%Z; [done|apply GoTime.rfc3339_utf8]|].
    by repeat (apply Forall_cons; split; [done|]). }
  unfold reputationSignInput at 1.
  destruct (Canonical.JCS_clean _ (Ho "")) as (co & _ & _ & Hco).
  destruct (Canonical.JCS_clean _ (Hd None I)) as (cd & _ & _ & Hcd).
  change (with_proof cred None) with cred in Hcd. rewrite Hco, Hcd. cbn [fst].
  set (sig := ed_sign key _). split; [done|].
  assert (unmarshal_reputationVC (marshal (JObj (reputationVC_members
    (with_proof cred (Some (proof (Base64.EncodeToString sig))))))) =
    Some (with_proof cred (Some (proof (Base64.EncodeToString sig))))) as Hu.
  { unfold unmarshal_reputationVC. rewrite parse_marshal; [by apply decode_reputation_members|].
    apply Hd. by repeat (apply Forall_cons; split; [first [apply GoTime.rfc3339_utf8|apply Jwt.base64_utf8|done]|]). }
  unfold VerifyReputationVC. rewrite Hu. cbn [rv_Type with_proof rv_Proof].
  replace (sliceContains (rv_Type cred) ReputationVCType) with true by reflexivity. cbn [negb].
  change (with_proof (with_proof cred _) None) with cred. change (rp_ProofValue (proof ?x)) with x.
  unfold reputationSignInput. change (reputation_options (proof (Base64.EncodeToString sig))) with (reputation_options (proof "")).
  rewrite Hco, Hcd, Base64.DecodeString_EncodeToString. subst sig. rewrite ed_verify_sign by done. cbn [negb].
  unfold mbind, M_bind, mret, M_ret. change (rv_ValidUntil _) with (if (validFor =? 0)%Z then "" else Events.rfc3339 (now + validFor)).
  destruct (Z.eqb_spec validFor 0) as [->|Hv].
  { cbn [String.eqb fst]. rewrite bool_decide_eq_false_2; [reflexivity|]. intros [Hx _]. by apply Hx. }
  destruct (String.eqb_spec (Events.rfc3339 (now + validFor)) "") as [E|_].
  { exfalso. pose proof (GoTime.rfc3339_roundtrip _ Hcal) as Hp. rewrite E in Hp. discriminate (eq_trans (eq_sym (eq_refl : GoTime.Parse_RFC3339 "" = None)) Hp). }
  rewrite GoTime.rfc3339_roundtrip by done. unfold time_now. cbn [fst].
  destruct (Z.ltb_spec (unix (now + validFor) * second) (w_clock w2 (w_nclock w2))) as [Hlt|Hge].
  - rewrite bool_decide_eq_true_2; [reflexivity|done].
  - rewrite bool_decide_eq_false_2; [reflexivity|lia].
Qed.
End Reputation.
(** ** Trust levels of DNS records *)

(** The score a field of a record states, if it states one in range. *)
Definition stated_score (f : string) : option Z :=
  match SplitN f x3d 2 with
  | [k; v] => if k =s "score" then n ← Atoi v; if ((0 <=? n) && (n <=? 100))%Z then Some n else None else None
  | _ => None
  end.
Lemma read_rep_score rec f : rep_Score (read_rep_field rec f) = default (rep_Score rec) (stated_score f).
Proof.
  unfold read_rep_field, stated_score. destruct (SplitN f x3d 2) as [|k [|v [|]]]; try done.
  destruct (k =s "score"); [destruct (Atoi v) as [n|]; simpl; [by destruct (_ && _)%Z|done]|].
  by destruct (k =s "tier"), (k =s "since").
Qed.
Lemma read_all_score fields rec :
  rep_Score (foldl read_rep_field rec fields) = default (rep_Score rec) (last (omap stated_score fields)).
Proof.
  revert rec. induction fields as [|f fields IH]; intros rec; [done|]. simpl foldl. rewrite IH, read_rep_score.
  change (omap stated_score (f :: fields)) with (match stated_score f with Some y => y :: omap stated_score fields | None => omap stated_score fields end).
  destruct (stated_score f) as [n|]; [|done]. rewrite last_cons. by destruct (last _).
Qed.
Lemma stated_score_range f n : stated_score f = Some n → (0 ≤ n ≤ 100)%Z.
Proof.
  unfold stated_score. destruct (SplitN f x3d 2) as [|k [|v [|]]]; try done. destruct (k =s "score"); [|done].
  destruct (Atoi v) as [m|]; [|done]. simpl. destruct (_ && _)%Z eqn:E; [|done]. intros [= <-].
  rewrite andb_true_iff, !Z.leb_le in E. lia.
Qed.

(** The level of a DNS record is the documented one of the last score it states in
    range, and unknown when it states none. *)
Theorem txt_level domain txt r :
  parseReputationTXT domain txt = Some r →
  match last (omap stated_score (tail (Fields txt))) with
  | None => rep_Score r = (-1)%Z ∧ Level (Some r) = TrustUnknown
  | Some n => rep_Score r = n ∧ (0 ≤ n ≤ 100)%Z ∧
      (Level (Some r) = TrustRestricted ↔ n ≤ 24)%Z ∧ (Level (Some r) = TrustProvisional ↔ 25 ≤ n ≤ 59)%Z ∧
      (Level (Some r) = TrustVerified ↔ 60 ≤ n ≤ 84)%Z ∧ (Level (Some r) = TrustTrusted ↔ 85 ≤ n)%Z
  end.
Proof.
  unfold parseReputationTXT. destruct (Fields txt) as [|f0 fields]; [done|].
  destruct (f0 =s "v=tpt1"); [|done]. cbn [negb tail]. intros [= <-].
  pose proof (read_all_score fields (mkReputationRecord domain (-1) "" "" txt)) as Hs. cbn [rep_Score] in Hs.
  set (r := foldl _ _ fields) in *. destruct (last _) as [n|] eqn:El; simpl in Hs.
  - assert (0 ≤ n ≤ 100)%Z as Hn.
    { apply last_Some_elem_of, list_elem_of_omap in El as (f & _ & Hf). by eapply stated_score_range. }
    unfold Level. rewrite Hs. split_and!; try lia; repeat case_match; split; try done; lia.
  - unfold Level. by rewrite Hs.
Qed.

(** ** Witnesses *)

#[local] Existing Instances Jwt.digest_scheme Jwt.digest_scheme_ok.

Definition sample_permit : Permit :=
  mkPermit "did:web:tpt-email" "did:web:alice" "did:web:tpt-identity" "read:email" 1000 4600 "j1".
Lemma sample_permit_ok : permit_ok sample_permit.
Proof. split_and!; [repeat constructor|vm_compute; done..]. Qed.
Lemma permit_roundtrip_witness :
  fst (VerifyPermit (signPermit sample_permit Jwt.sample_key) (ed_public Jwt.sample_key) "did:web:tpt-identity"
         "read:email" Jwt.sample_world) = Ok sample_permit ∧
  fst (VerifyPermit (signPermit sample_permit Jwt.sample_key) (ed_public Jwt.sample_key) "did:web:other"
         "read:email" Jwt.sample_world) = Err (ErrMsg "permit: audience mismatch").
Proof.
  split; (rewrite (permit_roundtrip sample_permit Jwt.sample_key); [reflexivity|apply sample_permit_ok|reflexivity]).
Defined.

Lemma permit_accepts_only_signed_witness : ∃ p0 p1 p2,
  SplitN (signPermit sample_permit Jwt.sample_key) x2e 3 = [p0; p1; p2].
Proof.
  destruct (VerifyPermit (signPermit sample_permit Jwt.sample_key) (ed_public Jwt.sample_key) "" "" Jwt.sample_world)
    as [r w'] eqn:E.
  assert (r = Ok sample_permit) as ->.
  { change r with (fst (r, w')). rewrite <-E. unfold VerifyPermit. rewrite parse_signPermit by apply sample_permit_ok.
    destruct (signPermit_input sample_permit Jwt.sample_key) as (dot & -> & ->).
    rewrite ed_verify_sign by reflexivity. reflexivity. }
  destruct (permit_accepts_only_signed _ _ _ _ _ _ _ E) as (p0 & p1 & p2 & _ & _ & _ & Hs & _).
  by exists p0, p1, p2.
Defined.

#[local] Instance plain_numbers : Float64 := {| float64 t := Some t; float_int64 _ := 0%Z |}.
Lemma reputation_roundtrip_witness :
  ∃ raw, fst (IssueReputationVC "did:web:authority" Jwt.sample_key "did:web:authority#k" "did:web:shop"
                (mkReputationRecord "" 90 "trusted" "2020-01-01" "") hour "u" Jwt.sample_world) = Ok raw ∧
    fst (VerifyReputationVC raw (ed_public Jwt.sample_key) Jwt.sample_world) =
      Ok (mkReputationRecord "did:web:shop" 90 "trusted" "2020-01-01" "").
Proof.
  pose proof (reputation_roundtrip "did:web:authority" Jwt.sample_key "did:web:authority#k" "did:web:shop"
    (mkReputationRecord "" 90 "trusted" "2020-01-01" "") hour "u" Jwt.sample_world Jwt.sample_world) as HR.
  specialize (HR ltac:(repeat constructor) eq_refl ltac:(vm_compute; split; discriminate)).
  destruct (fst (IssueReputationVC _ _ _ _ _ _ _ _)) as [raw|e]; [|exfalso; apply HR; cbn; lia].
  exists raw. destruct HR as [_ ->]. split; [done|]. rewrite bool_decide_eq_false_2; [done|].
  intros [_ Hx]. vm_compute in Hx. done.
Defined.

Lemma txt_level_witness :
  match parseReputationTXT "shop.nz" "v=tpt1 score=200 tier=gold score=61" with
  | Some r => Level (Some r) = TrustVerified
  | None => False
  end.
Proof.
  destruct (parseReputationTXT "shop.nz" "v=tpt1 score=200 tier=gold score=61") as [r|] eqn:E; [|done].
  apply txt_level in E as (_ & _ & _ & _ & Hv & _). by apply Hv.
Defined.
End TrustProofs.
