(* ===== verification/SdJwt.v ===== *)
(** * Selective-disclosure tokens (pkg/vc/sdjwt.go)

    An issuer JWT that carries the digests of salted disclosures, followed by
    the disclosures the holder reveals and, optionally, a key-binding JWT, all
    separated by tildes.  Claim values are JSON values as decoding into [any]
    leaves them; a Go map is the list of its pairs in the order in which the
    code happens to iterate over it. *)

From S2P Require Import Prelude GoStd World Sha Base64 Json JsonValue Consent Schema StoreTypes.
From S2P Require Import Jwt Crypto Did Vc.
Import JsonValue Types.

Module SdJwt.

(** ** Strings *)

(** [strings.Join(parts, "~")] and [strings.Count(s, ".")]. *)
Fixpoint join_tilde (parts : list string) : string :=
  match parts with
  | [] => ""
  | [p] => p
  | p :: parts' => p +s "~" +s join_tilde parts'
  end.
Definition count_dots (s : string) : nat := length (filter (λ c, beqb c x2e = true) (bytes_of s)).
(** [strings.TrimSuffix(s, "~")]. *)
Definition trim_tilde (s : string) : string :=
  match last (bytes_of s) with
  | Some c => if beqb c x7e then str_of (removelast (bytes_of s)) else s
  | None => s
  end.

(** ** Disclosures *)

Record Disclosure := mkDisclosure { d_Salt : string; d_Key : string; d_Value : json }.

Definition NewDisclosure {St} (key : string) (value : json) : M St (result Disclosure) :=
  salt ← rand_read 16;
  mret (match salt with
        | Err e => Err (ErrWrap "sdjwt: generate salt" e)
        | Ok salt => Ok (mkDisclosure (Base64.EncodeToString salt) key value)
        end).
Definition disclosure_json (d : Disclosure) : json := JArr [JStr (d_Salt d); JStr (d_Key d); d_Value d].
Definition Encode (d : Disclosure) : string := Base64.EncodeToString (marshal (disclosure_json d)).
Definition Digest (d : Disclosure) : string :=
  Base64.EncodeToString (Sha.Sum256 (bytes_of (Encode d))).

Section Sd.
Context `{Float64}.

Definition ParseDisclosure (encoded : string) : result Disclosure :=
  match Base64.DecodeString encoded with
  | None => Err (ErrMsg "sdjwt: decode disclosure")
  | Some raw =>
      match Crypto.unmarshal_any raw with
      | Err e => Err (ErrWrap "sdjwt: unmarshal disclosure" e)
      | Ok (JArr [salt; key; value]) =>
          match salt with
          | JStr salt =>
              match key with
              | JStr key => Ok (mkDisclosure salt key value)
              | _ => Err (ErrMsg "sdjwt: disclosure key must be a string")
              end
          | _ => Err (ErrMsg "sdjwt: disclosure salt must be a string")
          end
      | Ok (JArr _) | Ok JNull => Err (ErrMsg "sdjwt: disclosure must have 3 elements [salt, key, value]")
      | Ok _ => Err (ErrMsg "sdjwt: unmarshal disclosure: json: cannot unmarshal into []interface {}")
      end
  end.

(** ** Tokens *)

Record SDJWTToken := mkSDJWTToken { t_JWT : string; t_Disclosures : list Disclosure }.

Definition serializeWith (t : SDJWTToken) (discs : list Disclosure) : string :=
  join_tilde (t_JWT t :: (Encode <$> discs)) +s "~".
Definition Serialize (t : SDJWTToken) : string := serializeWith t (t_Disclosures t).
Definition Present (t : SDJWTToken) (revealKeys : list string) : string :=
  serializeWith t (filter (λ d, d_Key d ∈ revealKeys) (t_Disclosures t)).

Context `{Ed25519, Multibase} {St : Type}.

Definition sd_header (kid typ : string) : list byte :=
  marshal (JObj [("alg", JStr "EdDSA"); ("kid", JStr kid); ("typ", JStr typ)]).
Definition signSDJWT (claims : list (string * json)) (key : list byte) (kid typ : string) : string :=
  let header := Base64.EncodeToString (sd_header kid typ) in
  let payloadB64 := Base64.EncodeToString (marshal (JObj claims)) in
  let sigInput := header +s "." +s payloadB64 in
  let sig := ed_sign key (bytes_of sigInput) in
  sigInput +s "." +s Base64.EncodeToString sig.

Definition kb_claims (nonce audience sdHash : string) (now : Z) : list (string * json) :=
  of_pairs [("nonce", JStr nonce); ("aud", JStr audience); ("iat", JInt (unix now)); ("sd_hash", JStr sdHash)].
Definition PresentWithKeyBinding (t : SDJWTToken) (revealKeys : list string) (holderKey : list byte)
    (holderKID nonce audience : string) : M St (result string) :=
  let base := Present t revealKeys in
  let forHash := trim_tilde base in
  let sdHash := Base64.EncodeToString (Sha.Sum256 (bytes_of forHash)) in
  now ← time_now;
  mret (Ok (base +s signSDJWT (kb_claims nonce audience sdHash now) holderKey holderKID "kb+jwt")).

(** ** Issuance *)

Record SDJWTIssueOptions := mkSDJWTIssueOptions {
  so_IssuerDID : string; so_IssuerKey : list byte; so_VerificationMethodID : string; so_SubjectDID : string;
  so_SchemaID : string; so_SelectiveClaims : list (string * json);
  so_AlwaysVisibleClaims : list (string * json); so_ValidFor : Z }.

Fixpoint new_disclosures (claims : list (string * json)) : M St (result (list Disclosure)) :=
  match claims with
  | [] => mret (Ok [])
  | (k, v) :: claims' =>
      d ← NewDisclosure k v;
      match d with
      | Err e => mret (Err e)
      | Ok d => ds ← new_disclosures claims'; mret (cons d <$> ds)
      end
  end.
Definition valid_for (opts : SDJWTIssueOptions) : Z :=
  if (so_ValidFor opts <=? 0)%Z then (24 * hour)%Z else so_ValidFor opts.
Definition sd_payload (opts : SDJWTIssueOptions) (vct : option string) (digests : list string) (now : Z)
    : list (string * json) :=
  let payload := of_pairs [("iss", JStr (so_IssuerDID opts)); ("sub", JStr (so_SubjectDID opts));
                           ("iat", JInt (unix now)); ("exp", JInt (unix (now + valid_for opts)));
                           ("_sd_alg", JStr "sha-256"); ("_sd", JArr (JStr <$> digests))] in
  let payload := match vct with Some v => aset "vct" (JStr v) payload | None => payload end in
  foldl (λ acc kv, aset kv.1 kv.2 acc) payload (so_AlwaysVisibleClaims opts).

Definition IssueSDJWT (reg : Schema.Registry) (opts : SDJWTIssueOptions) : M St (result SDJWTToken) :=
  if HasPrefix (so_IssuerDID opts) "did:key:" then mret (Err Vc.ErrEphemeralIssuer)
  else if (so_IssuerDID opts =s "") || bool_decide (so_IssuerKey opts = []) then
    mret (Err (ErrMsg "sdjwt: issuer DID and key are required"))
  else if so_SubjectDID opts =s "" then mret (Err (ErrMsg "sdjwt: subject DID is required"))
  else
    match (if so_SchemaID opts =s "" then Ok None
           else match Schema.GetSchema reg (so_SchemaID opts) with
                | Err e => Err (ErrWrap "sdjwt: unknown schema" e)
                | Ok s => Ok (Some (Schema.VersionedID s))
                end) with
    | Err e => mret (Err e)
    | Ok vct =>
        ds ← new_disclosures (so_SelectiveClaims opts);
        match ds with
        | Err e => mret (Err e)
        | Ok ds =>
            now ← time_now;
            mret (Ok (mkSDJWTToken
              (signSDJWT (sd_payload opts vct (Digest <$> ds) now) (so_IssuerKey opts)
                 (so_VerificationMethodID opts) "vc+sd-jwt") ds))
        end
    end.

(** ** Parsing *)

Record ParsedSDJWT := mkParsedSDJWT { p_JWT : string; p_Disclosures : list string; p_KBToken : string }.

Definition parse_part (acc : ParsedSDJWT) (p : string) : ParsedSDJWT :=
  if p =s "" then acc
  else if Nat.eqb (count_dots p) 2 then mkParsedSDJWT (p_JWT acc) (p_Disclosures acc) p
  else mkParsedSDJWT (p_JWT acc) (p_Disclosures acc ++ [p]) (p_KBToken acc).
Definition ParseSDJWT (token : string) : result ParsedSDJWT :=
  if token =s "" then Err (ErrMsg "sdjwt: empty token")
  else match Split token x7e with
       | jwt :: ((_ :: _) as rest) => Ok (foldl parse_part (mkParsedSDJWT jwt [] "") rest)
       | _ => Err (ErrMsg "sdjwt: not an SD-JWT - missing ~ separator")
       end.

(** ** Verification *)

Definition verifySDJWTSig (jwt : string) (pub : list byte) : result unit :=
  match SplitN jwt x2e 3 with
  | [p0; p1; p2] =>
      match Base64.DecodeString p2 with
      | None => Err (ErrMsg "decode signature")
      | Some sig =>
          if negb (ed_verify pub (bytes_of (p0 +s "." +s p1)) sig) then Err (ErrMsg "invalid signature") else Ok tt
      end
  | _ => Err (ErrMsg "malformed JWT")
  end.
Definition parseSDJWTPayload (jwt : string) : result (list (string * json)) :=
  match SplitN jwt x2e 3 with
  | [_; p1; _] =>
      match Base64.DecodeString p1 with
      | None => Err (ErrMsg "decode payload")
      | Some raw =>
          match Crypto.unmarshal_any raw with
          | Err e => Err e
          | Ok (JObj l) => Ok l
          | Ok JNull => Ok []
          | Ok _ => Err (ErrMsg "json: cannot unmarshal into map[string]interface {}")
          end
      end
  | _ => Err (ErrMsg "malformed JWT")
  end.

(** [m[k].(string)], the empty string when it is something else. *)
Definition strOrEmpty (v : option json) : string :=
  match v with Some (JStr s) => s | _ => "" end.
(** [int64(m[k].(float64))]. *)
Definition number (v : option json) : option Z :=
  match v with Some (JInt z) => Some z | Some (JNumber t) => Some (float_int64 t) | _ => None end.
Definition object (v : option json) : option (list (string * json)) :=
  match v with Some (JObj l) => Some l | _ => None end.

Definition extractHolderKey (claims : list (string * json)) : result (option (list byte)) :=
  match object (aget "cnf" claims) ≫= λ cnf, object (aget "jwk" cnf) with
  | None => Ok None
  | Some jwk =>
      if negb (strOrEmpty (aget "kty" jwk) =s "OKP") then
        Err (ErrMsg "sdjwt: cnf.jwk kty unsupported - expected OKP")
      else match aget "x" jwk with
           | Some (JStr xStr) =>
               match Base64.DecodeString xStr with
               | None => Err (ErrMsg "sdjwt: decode cnf.jwk x")
               | Some raw =>
                   if negb (Nat.eqb (length raw) 32) then Err (ErrMsg "sdjwt: cnf.jwk x must be 32 bytes")
                   else Ok (Some raw)
               end
           | _ => Err (ErrMsg "sdjwt: cnf.jwk missing x coordinate")
           end
  end.

Definition sdHashOf (parsed : ParsedSDJWT) : string :=
  Base64.EncodeToString (Sha.Sum256 (bytes_of (join_tilde (p_JWT parsed :: p_Disclosures parsed) +s "~"))).

Definition verifyKBJWT (parsed : ParsedSDJWT) (holderPub : list byte) (expectedNonce expectedAud : string)
    : result unit :=
  match parseSDJWTPayload (p_KBToken parsed) with
  | Err e => Err (ErrWrap "parse kb claims" e)
  | Ok kbClaims =>
      if negb (expectedNonce =s "") && negb (strOrEmpty (aget "nonce" kbClaims) =s expectedNonce) then
        Err (ErrMsg "nonce mismatch")
      else if negb (expectedAud =s "") && negb (strOrEmpty (aget "aud" kbClaims) =s expectedAud) then
        Err (ErrMsg "audience mismatch")
      else if negb (strOrEmpty (aget "sd_hash" kbClaims) =s sdHashOf parsed) then
        Err (ErrMsg "sd_hash mismatch - presentation was tampered")
      else wrap_err "kb-jwt signature" (verifySDJWTSig (p_KBToken parsed) holderPub)
  end.

Record SDJWTVerifyResult := mkSDJWTVerifyResult {
  r_IssuerDID : string; r_SubjectDID : string; r_SchemaID : string;
  r_DisclosedClaims : list (string * json); r_AlwaysClaims : list (string * json);
  r_IssuedAt : option Z; r_ExpiresAt : option Z; r_KeyBindingVerified : bool }.

Fixpoint signing_key (vms : list VerificationMethod) : result (list byte) :=
  match vms with
  | [] => Err (ErrMsg "no active Ed25519 verification method in DID document")
  | vm :: vms' =>
      match vm_PublicKeyMultibase vm with
      | Some mb =>
          if vm_Revoked vm || negb (vm_Type vm =s "Ed25519VerificationKey2020") then signing_key vms'
          else Vc.decodeMultibaseEd25519 mb
      | None => signing_key vms'
      end
  end.
Definition resolveSigningKey (resolve : string → M St (result Document)) (issuerDID : string)
    : M St (result (list byte)) :=
  r ← resolve issuerDID;
  mret (match r with
        | Err e => Err (ErrWrap "resolve DID" e)
        | Ok doc => signing_key (doc_VerificationMethod doc)
        end).

(** The strings of the "_sd" array. *)
Definition sd_digests (claims : list (string * json)) : list string :=
  match aget "_sd" claims with
  | Some (JArr l) => omap (λ v, match v with JStr s => Some s | _ => None end) l
  | _ => []
  end.
Fixpoint check_disclosures (digests : list string) (encs : list string) (acc : list (string * json))
    : result (list (string * json)) :=
  match encs with
  | [] => Ok acc
  | enc :: encs' =>
      match ParseDisclosure enc with
      | Err e => Err (ErrWrap "sdjwt" e)
      | Ok d =>
          if negb (bool_decide (Digest d ∈ digests)) then
            Err (ErrMsg "sdjwt: disclosure not in _sd hashes - possible forgery")
          else check_disclosures digests encs' (aset (d_Key d) (d_Value d) acc)
      end
  end.
Definition check_binding (parsed : ParsedSDJWT) (claims : list (string * json)) (nonce audience : string)
    : result bool :=
  if negb (p_KBToken parsed =s "") then
    match extractHolderKey claims with
    | Ok (Some holderPub) =>
        match verifyKBJWT parsed holderPub nonce audience with
        | Err e => Err (ErrWrap "sdjwt: kb-jwt" e)
        | Ok _ => Ok true
        end
    | _ => Err (ErrMsg "sdjwt: kb-jwt: no cnf holder key in token")
    end
  else if negb (nonce =s "") || negb (audience =s "") then
    Err (ErrMsg "sdjwt: key binding JWT required (nonce/audience expected) but not present")
  else Ok false.
Definition reserved : list string := ["iss"; "sub"; "iat"; "exp"; "_sd"; "_sd_alg"; "vct"; "cnf"].

Definition Verify (resolve : string → M St (result Document)) (token expectedNonce expectedAudience : string)
    : M St (result SDJWTVerifyResult) :=
  match ParseSDJWT token with
  | Err e => mret (Err e)
  | Ok parsed =>
      match parseSDJWTPayload (p_JWT parsed) with
      | Err e => mret (Err (ErrWrap "sdjwt: parse payload" e))
      | Ok rawClaims =>
          let issuerDID := strOrEmpty (aget "iss" rawClaims) in
          if issuerDID =s "" then mret (Err (ErrMsg "sdjwt: missing iss claim"))
          else
            key ← resolveSigningKey resolve issuerDID;
            match key with
            | Err e => mret (Err (ErrWrap "sdjwt: resolve issuer key" e))
            | Ok pub =>
                match verifySDJWTSig (p_JWT parsed) pub with
                | Err e => mret (Err (ErrWrap "sdjwt" e))
                | Ok _ =>
                    expired ← match number (aget "exp" rawClaims) with
                              | Some exp => now ← time_now; mret (exp <? unix now)%Z
                              | None => mret false
                              end;
                    if (expired : bool) then mret (Err (ErrMsg "sdjwt: credential expired"))
                    else
                      mret (disclosed ← check_disclosures (sd_digests rawClaims) (p_Disclosures parsed) [];
                            kb ← check_binding parsed rawClaims expectedNonce expectedAudience;
                            Ok (mkSDJWTVerifyResult issuerDID (strOrEmpty (aget "sub" rawClaims))
                                  (strOrEmpty (aget "vct" rawClaims)) disclosed
                                  (filter (λ kv, kv.1 ∉ reserved) rawClaims)
                                  (Z.mul second <$> number (aget "iat" rawClaims))
                                  (Z.mul second <$> number (aget "exp" rawClaims)) kb))
                end
            end
      end
  end.
End Sd.
End SdJwt.
