(* ===== verification/SdJwtProofs.v ===== *)
(** * Theorems about selective-disclosure tokens *)

From S2P Require Import Prelude GoStd World Sha Base64 Json JsonValue Consent Schema StoreTypes.
From S2P Require Import Jwt Crypto Canonical Did Vc VcProofs SdJwt.
Import Json JsonValue Types Canonical SdJwt.

Module SdJwtProofs.

(** ** Texts and their parts *)

(** Base64url text avoids every other character. *)
Lemma encode_avoids sep bs : Base64.b64val sep = None → Forall (λ c, beqb c sep = false) (Base64.encode bs).
Proof.
  intros Hsep. rewrite Base64.encode_sextets. apply Forall_fmap.
  eapply Forall_impl; [apply Base64.sextets_lt|]. intros n Hn. simpl.
  destruct (beqb_spec (Base64.b64char n) sep) as [E|]; [|done].
  pose proof (proj1 (Base64.b64val_char n Hn)) as Hv. rewrite E, Hsep in Hv. done.
Qed.
Definition avoids (sep : byte) (s : string) : Prop := Forall (λ c, beqb c sep = false) (bytes_of s).
Lemma base64_avoids sep bs : Base64.b64val sep = None → avoids sep (Base64.EncodeToString bs).
Proof.
  intros H. unfold avoids, Base64.EncodeToString. rewrite bytes_of_str_of. by apply encode_avoids.
Qed.
Lemma avoids_append sep a b : avoids sep a → avoids sep b → avoids sep (a +s b).
Proof. intros Ha Hb. unfold avoids. rewrite bytes_of_append. by apply Forall_app. Qed.

(** Parts, each followed by a tilde, and a last one. *)
Definition tilde_text (parts : list string) (lst : string) : string :=
  foldr (λ p acc, p +s "~" +s acc) lst parts.
Lemma bsplit_parts n parts lst :
  length parts < n → Forall (avoids x7e) parts → avoids x7e lst →
  str_of <$> bsplit_n x7e n [] (bytes_of (tilde_text parts lst)) = parts ++ [lst].
Proof.
  intros Hn Hp Hl. revert n Hn. induction Hp as [|p parts Hp _ IH]; intros n Hn.
  - simpl. rewrite bsplit_n_last by done. simpl. by rewrite str_of_bytes_of.
  - change (tilde_text (p :: parts) lst) with (p +s "~" +s tilde_text parts lst). rewrite !bytes_of_append. change (bytes_of "~") with [x7e]. cbn [app]. simpl in Hn.
    destruct n as [|[|n]]; [lia..|]. rewrite bsplit_n_plain by done. cbn [rev app fmap list_fmap].
    rewrite str_of_bytes_of. f_equal. apply IH. lia.
Qed.
Lemma Split_parts parts lst :
  Forall (avoids x7e) parts → avoids x7e lst → Split (tilde_text parts lst) x7e = parts ++ [lst].
Proof.
  intros Hp Hl. unfold Split, SplitN. apply bsplit_parts; [|done..].
  clear Hp. induction parts as [|p parts IH]; [simpl; lia|].
  change (tilde_text (p :: parts) lst) with (p +s "~" +s tilde_text parts lst).
  rewrite !bytes_of_append, !length_app. simpl. lia.
Qed.
Lemma join_tilde_text p parts : join_tilde (p :: parts) +s "~" = tilde_text (p :: parts) "".
Proof.
  assert (∀ a b c : string, (a +s b) +s c = a +s b +s c) as Hassoc.
  { intros a b c. apply bytes_of_inj. by rewrite !bytes_of_append, (assoc_L (++)). }
  revert p. induction parts as [|q parts IH]; intros p; [done|].
  change (join_tilde (p :: q :: parts)) with (p +s "~" +s join_tilde (q :: parts)).
  rewrite !Hassoc, IH. done.
Qed.
Lemma tilde_text_append parts lst kb : tilde_text parts lst +s kb = tilde_text parts (lst +s kb).
Proof.
  assert (∀ a b c : string, (a +s b) +s c = a +s b +s c) as Hassoc.
  { intros a b c. apply bytes_of_inj. by rewrite !bytes_of_append, (assoc_L (++)). }
  induction parts as [|p parts IH]; [done|].
  change (tilde_text (p :: parts) ?l) with (p +s "~" +s tilde_text parts l). by rewrite !Hassoc, IH.
Qed.
Lemma serializeWith_text `{Float64} t ds : serializeWith t ds = tilde_text (t_JWT t :: (Encode <$> ds)) "".
Proof. apply join_tilde_text. Qed.

Lemma count_dots_avoids s : avoids x2e s → count_dots s = 0.
Proof.
  unfold count_dots, avoids. induction 1 as [|c l Hc _ IH]; [done|].
  rewrite filter_cons, decide_False by (by rewrite Hc). done.
Qed.
Lemma count_dots_append a b : count_dots (a +s b) = count_dots a + count_dots b.
Proof. unfold count_dots. rewrite bytes_of_append, filter_app, length_app. done. Qed.

(** ** Encoded disclosures and signed texts *)

Lemma Encode_avoids sep d : Base64.b64val sep = None → avoids sep (Encode d).
Proof. apply base64_avoids. Qed.
Lemma Encode_nonempty d : Encode d ≠ "".
Proof.
  intros E%(f_equal bytes_of). unfold Encode, Base64.EncodeToString in E. rewrite bytes_of_str_of in E.
  apply (f_equal Base64.decode) in E. rewrite Base64.decode_encode in E. done.
Qed.

Section Signed.
Context `{Ed25519, Float64}.

Lemma signSDJWT_segments claims key kid typ :
  ∃ h p s, signSDJWT claims key kid typ =
    Base64.EncodeToString h +s "." +s Base64.EncodeToString p +s "." +s Base64.EncodeToString s ∧
    p = marshal (JObj claims) ∧
    s = ed_sign key (bytes_of (Base64.EncodeToString h +s "." +s Base64.EncodeToString p)).
Proof.
  eexists _, _, _. split; [|done]. unfold signSDJWT. apply bytes_of_inj.
  by rewrite !bytes_of_append, <-!(assoc_L (++)).
Qed.
Lemma signSDJWT_avoids claims key kid typ : avoids x7e (signSDJWT claims key kid typ).
Proof.
  destruct (signSDJWT_segments claims key kid typ) as (h & p & s & -> & _).
  repeat apply avoids_append; try (by apply base64_avoids); by repeat constructor.
Qed.
Lemma signSDJWT_dots claims key kid typ : count_dots (signSDJWT claims key kid typ) = 2.
Proof.
  destruct (signSDJWT_segments claims key kid typ) as (h & p & s & -> & _).
  rewrite !count_dots_append. by rewrite !(count_dots_avoids (Base64.EncodeToString _)) by (by apply base64_avoids).
Qed.
Lemma parse_signed claims key kid typ :
  wf (JObj claims) → canonical (JObj claims) → parseSDJWTPayload (signSDJWT claims key kid typ) = Ok claims.
Proof.
  intros Hw Hc. destruct (signSDJWT_segments claims key kid typ) as (h & p & s & -> & -> & _).
  unfold parseSDJWTPayload. rewrite Jwt.SplitN_segments, Base64.DecodeString_EncodeToString.
  by rewrite unmarshal_canonical.
Qed.
Lemma verify_signed `{!Ed25519Ok} claims key kid typ :
  length key = 64 → verifySDJWTSig (signSDJWT claims key kid typ) (ed_public key) = Ok tt.
Proof.
  intros Hk. destruct (signSDJWT_segments claims key kid typ) as (h & p & s & -> & -> & ->).
  unfold verifySDJWTSig. rewrite Jwt.SplitN_segments, Base64.DecodeString_EncodeToString. by rewrite ed_verify_sign.
Qed.
End Signed.

(** ** Reading a presentation *)

Section Reading.
Context `{Float64}.

Lemma parse_parts_discs jwt encs : ∀ acc kb,
  Forall (λ e, e ≠ "" ∧ count_dots e ≠ 2) encs →
  foldl parse_part (mkParsedSDJWT jwt acc kb) encs = mkParsedSDJWT jwt (acc ++ encs) kb.
Proof.
  intros acc kb He. revert acc. induction He as [|e encs [H1 H2] _ IH]; intros acc; simpl; [by rewrite app_nil_r|].
  unfold parse_part at 2. rewrite (proj2 (String.eqb_neq _ _) H1), (proj2 (Nat.eqb_neq _ _) H2).
  simpl. rewrite IH. by rewrite <-(assoc_L (++)).
Qed.
Lemma ParseSDJWT_text jwt ds kb :
  avoids x7e jwt → avoids x7e kb → kb = "" ∨ count_dots kb = 2 →
  ParseSDJWT (tilde_text (jwt :: (Encode <$> ds)) kb) = Ok (mkParsedSDJWT jwt (Encode <$> ds) kb).
Proof.
  intros Hj Hk Hkb. assert (tilde_text (jwt :: (Encode <$> ds)) kb ≠ "") as Hne.
  { intros E%(f_equal (λ s, length (bytes_of s))).
    change (tilde_text (jwt :: ?l) kb) with (jwt +s "~" +s tilde_text l kb) in E.
    rewrite !bytes_of_append, !length_app in E. simpl in E. lia. }
  unfold ParseSDJWT. rewrite (proj2 (String.eqb_neq _ _) Hne), Split_parts; [|constructor; [done|]|done].
  2:{ apply Forall_fmap, Forall_true. intros d. by apply Encode_avoids. }
  assert (∃ x rest, (Encode <$> ds) ++ [kb] = x :: rest) as (x & rest & E) by (destruct ds; by eexists _, _).
  cbn [app]. rewrite E. cbn iota. rewrite <-E, foldl_app, parse_parts_discs.
  2:{ apply Forall_fmap, Forall_true. intros d. split; [apply Encode_nonempty|].
      rewrite count_dots_avoids by (by apply Encode_avoids). done. }
  simpl. unfold parse_part. destruct Hkb as [->|Hd]; [done|]. rewrite Hd.
  destruct (String.eqb_spec kb "") as [->|]; done.
Qed.

(** A disclosure of a canonical value is read back. *)
Definition good_disclosure (d : Disclosure) : Prop :=
  valid_utf8 (d_Salt d) ∧ valid_utf8 (d_Key d) ∧ wf (d_Value d) ∧ canonical (d_Value d).
Lemma ParseDisclosure_Encode d : good_disclosure d → ParseDisclosure (Encode d) = Ok d.
Proof.
  intros (Hs & Hk & Hw & Hc). unfold ParseDisclosure, Encode. rewrite Base64.DecodeString_EncodeToString.
  rewrite unmarshal_canonical; [by destruct d|done|]. apply canonical_JArr. by repeat constructor.
Qed.

(** ** Strings that were read are UTF-8 *)

(** Where a value came from. *)
Inductive value_shape (fuel : nat) (r : list byte) : json → Prop :=
| shape_null : value_shape fuel r JNull
| shape_bool b : value_shape fuel r (JBool b)
| shape_num t v : read_num t = Some v → value_shape fuel r v
| shape_str s t : unquote s = Some (t, r) → value_shape fuel r (JStr (str_of t))
| shape_nil : value_shape fuel r (JArr [])
| shape_arr s l : parse_elems fuel s = Some (l, r) → value_shape fuel r (JArr l)
| shape_obj l : value_shape fuel r (JObj l).
Lemma parse_value_shape fuel s v r : parse_value (S fuel) s = Some (v, r) → value_shape fuel r v.
Proof.
  cbn [parse_value]. destruct (bprefix (bytes_of "null") (skip_ws s)); [intros [= <- _]; constructor|].
  destruct (bprefix (bytes_of "true") (skip_ws s)); [intros [= <- _]; constructor|].
  destruct (bprefix (bytes_of "false") (skip_ws s)); [intros [= <- _]; constructor|].
  destruct (skip_ws s) as [|c r0] eqn:Es; [done|]. destruct (beqb c x22).
  { destruct (unquote r0) as [[t rest]|] eqn:E; [|done]. simpl. intros [= <- <-]. by econstructor. }
  destruct (beqb c x5b).
  { destruct (skip_ws r0) as [|c' r']; [done|]. destruct (beqb c' x5d); [intros [= <- _]; constructor|].
    destruct (parse_elems fuel r0) as [[l rest]|] eqn:E; [|done]. simpl. intros [= <- <-]. by econstructor. }
  destruct (beqb c x7b).
  { destruct (skip_ws r0) as [|c' r']; [done|]. destruct (beqb c' x7d); [intros [= <- _]; constructor|].
    destruct (parse_members fuel r0) as [[l rest]|] eqn:E; [|done]. simpl. intros [= <- <-]. constructor. }
  destruct (take_num (c :: r0)) as [t rest]. destruct (read_num t) as [v'|] eqn:E; [|done]. simpl.
  intros [= <- <-]. by econstructor.
Qed.
Lemma read_num_number t v : read_num t = Some v → ∃ z, v = JInt z ∨ v = JNumber t.
Proof.
  destruct t as [|c t]; [done|]. unfold read_num. destruct (int_text (c :: t)).
  - destruct (Atoi _) as [z|]; intros [= <-]; [exists z|exists 0%Z]; auto.
  - destruct (float_text (c :: t)); [|done]. intros [= <-]. exists 0%Z. by right.
Qed.

Lemma parse_str_valid fuel s x r : parse_value fuel s = Some (JStr x, r) → valid_utf8 x.
Proof.
  destruct fuel as [|fuel]; [done|]. intros H1%parse_value_shape. inversion H1 as [| |t v Hn|s0 t Hu| | |]; subst.
  - apply read_num_number in Hn as (z & [|]); done.
  - unfold valid_utf8. rewrite bytes_of_str_of. by eapply unquote_valid.
Qed.
Lemma parse_elems_valid fuel : ∀ s l r x, parse_elems fuel s = Some (l, r) → JStr x ∈ l → valid_utf8 x.
Proof.
  induction fuel as [|fuel IH]; intros s l r x; [done|]. cbn [parse_elems].
  destruct (parse_value fuel s) as [[v r']|] eqn:Ev; [|done]. simpl.
  destruct (skip_ws r') as [|c r2]; [done|]. destruct (beqb c x5d).
  - intros [= <- _] Hx%list_elem_of_singleton. subst v. by eapply parse_str_valid.
  - destruct (beqb c x2c); [|done]. destruct (parse_elems fuel r2) as [[l' r3]|] eqn:El; [|done]. simpl.
    intros [= <- _] [Hx|Hx]%elem_of_cons; [subst v; by eapply parse_str_valid|by eapply IH].
Qed.
Lemma parse_arr_valid raw l x : parse raw = Some (JArr l) → JStr x ∈ l → valid_utf8 x.
Proof.
  unfold parse. destruct (parse_value _ raw) as [[v r]|] eqn:Ev; [|done]. simpl.
  case_match; [|done]. intros [= ->] Hx. revert Ev.
  generalize (2 * length raw + 2). intros [|fuel]; [done|]. intros H1%parse_value_shape.
  inversion H1 as [| |t v Hn| | |s0 l0 He|]; subst.
  - apply read_num_number in Hn as (z & [|]); done.
  - by apply elem_of_nil in Hx.
  - by eapply parse_elems_valid.
Qed.
Lemma float_of_number t v : Crypto.float_of t = Some v → (∃ z, v = JInt z) ∨ (∃ u, v = JNumber u).
Proof.
  unfold Crypto.float_of. destruct (float64 t) as [t'|]; [|done]. simpl.
  destruct (read_num t') as [v'|] eqn:E; intros [= <-]; [|by eauto].
  apply read_num_number in E as (z & [->| ->]); eauto.
Qed.
Lemma any_of_str v x : Crypto.any_of v = Some (JStr x) → v = JStr x.
Proof.
  destruct v as [| |z|t|s|l|l]; simpl; try done; try congruence.
  - case_match; [done|]. by intros [[? ?]|[? ?]]%float_of_number.
  - by intros [[? ?]|[? ?]]%float_of_number.
  - by destruct (foldr _ _ _).
  - by destruct (foldr _ _ _).
Qed.
Lemma ParseDisclosure_valid enc d : ParseDisclosure enc = Ok d → valid_utf8 (d_Salt d) ∧ valid_utf8 (d_Key d).
Proof.
  unfold ParseDisclosure. destruct (Base64.DecodeString enc) as [raw|]; [|done].
  unfold Crypto.unmarshal_any. destruct (parse raw) as [v|] eqn:Ep; [|done].
  destruct (Crypto.any_of v) as [c|] eqn:Ea; [|done]. simpl.
  intros Hd. destruct c as [| | | | |[|[| | | |salt| |] [|[| | | |key| |] [|value []]]]|]; try done.
  injection Hd as <-. cbn [d_Salt d_Key].
  destruct v as [| |z|t|s|l|l]; simpl in Ea; try done.
  - case_match; [done|]. by apply float_of_number in Ea as [[? ?]|[? ?]].
  - by apply float_of_number in Ea as [[? ?]|[? ?]].
  - destruct (foldr _ _ l) as [l'|] eqn:El; [|done]. simpl in Ea. injection Ea as ->.
    apply any_elems_inv in El.
    inversion El as [|a a' ? ? Ha El2]; subst. inversion El2 as [|b0 b' ? ? Hb El3]; subst.
    apply any_of_str in Ha, Hb. subst. split; eapply parse_arr_valid; [exact Ep|set_solver|exact Ep|set_solver].
  - by destruct (foldr _ _ l).
Qed.

Lemma new_disclosures_spec {St} claims : ∀ (w : World St) ds,
  fst (new_disclosures claims w) = Ok ds →
  Forall2 (λ kv d, d_Key d = kv.1 ∧ d_Value d = kv.2 ∧ valid_utf8 (d_Salt d)) claims ds.
Proof.
  induction claims as [|[k v] claims IH]; intros w ds; simpl; [by intros [= <-]|].
  unfold NewDisclosure, mbind, M_bind, rand_read. destruct (w_rand w (w_nrand w)) as [f|]; simpl; [|done].
  match goal with |- context [new_disclosures claims ?w1] =>
    specialize (IH w1); destruct (new_disclosures claims w1) as [[ds'|] w2]; simpl; [|done] end.
  intros [= <-]. constructor; [|by apply IH]. split_and!; [done..|]. apply Jwt.base64_utf8.
Qed.
Lemma new_disclosures_clock {St} claims : ∀ (w : World St),
  w_clock (snd (new_disclosures claims w)) = w_clock w ∧ w_nclock (snd (new_disclosures claims w)) = w_nclock w.
Proof.
  induction claims as [|[k v] claims IH]; intros w; [done|]. simpl.
  unfold NewDisclosure, mbind, M_bind, rand_read. destruct (w_rand w (w_nrand w)) as [f|]; simpl; [|done].
  match goal with |- context [new_disclosures claims ?w1] =>
    specialize (IH w1); by destruct (new_disclosures claims w1) as [[ds'|] w2] end.
Qed.
End Reading.

(** ** Key binding *)

Section Binding.
Context `{Ed25519, Float64, Multibase} {St : Type}.

Lemma trim_tilde_append s : trim_tilde (s +s "~") = s.
Proof.
  unfold trim_tilde. rewrite bytes_of_append. change (bytes_of "~") with [x7e].
  rewrite last_snoc. simpl. rewrite removelast_last. apply str_of_bytes_of.
Qed.
Lemma Base64_inj a b : Base64.EncodeToString a = Base64.EncodeToString b → a = b.
Proof.
  intros E%(f_equal Base64.DecodeString). rewrite !Base64.DecodeString_EncodeToString in E. congruence.
Qed.

Lemma kb_claims_ok nonce aud h now :
  valid_utf8 nonce → valid_utf8 aud → (0 ≤ unix now ≤ 2 ^ 53)%Z →
  let c := kb_claims nonce aud (Base64.EncodeToString h) now in wf (JObj c) ∧ canonical (JObj c).
Proof.
  intros Hn Ha Hu c. split.
  - apply wf_of_pairs. repeat constructor; simpl; try done; try lia. apply Jwt.base64_utf8.
  - apply canonical_JObj; [apply ksorted_of_pairs|].
    unfold c, kb_claims, of_pairs. simpl. repeat constructor; try done.
    unfold canonical. simpl. destruct (Z.leb_spec (Z.abs (unix now)) (2 ^ 53)); [done|lia].
Qed.

Lemma kb_claims_hash nonce aud h now : strOrEmpty (aget "sd_hash" (kb_claims nonce aud h now)) = h.
Proof. reflexivity. Qed.
Lemma check_binding_fails parsed raw claims nonce aud :
  parseSDJWTPayload (p_KBToken parsed) = Ok claims → count_dots (p_KBToken parsed) = 2 →
  strOrEmpty (aget "sd_hash" claims) ≠ sdHashOf parsed →
  ∃ e, check_binding parsed raw nonce aud = Err e.
Proof.
  intros Hp Hd Hne. unfold check_binding.
  destruct (String.eqb_spec (p_KBToken parsed) "") as [E|_]; [by rewrite E in Hd|]. cbn [negb].
  destruct (extractHolderKey raw) as [[pub|]|]; [|by eexists..]. unfold verifyKBJWT. rewrite Hp.
  repeat (case_match; simplify_eq; try (by eexists)).
  match goal with H' : negb (_ =s _) = false |- _ => apply negb_false_iff, String.eqb_eq in H' end. done.
Qed.

(** C39: a presentation with key binding is never accepted, whatever the verifier
    expects: the holder hashes the presentation without its last tilde and the
    verifier with it, so the digests differ unless SHA-256 collides on the two. *)
Theorem key_binding_never_verifies resolve t revealKeys holderKey holderKID nonce audience
    (w : World St) token expectedNonce expectedAudience (wv : World St) :
  avoids x7e (t_JWT t) → valid_utf8 nonce → valid_utf8 audience →
  (0 ≤ unix (w_clock w (w_nclock w)) ≤ 2 ^ 53)%Z →
  fst (PresentWithKeyBinding t revealKeys holderKey holderKID nonce audience w) = Ok token →
  let base := Present t revealKeys in
  is_ok (fst (Verify resolve token expectedNonce expectedAudience wv)) = false ∨
  Sha.Sum256 (bytes_of (trim_tilde base)) = Sha.Sum256 (bytes_of base).
Proof.
  intros Hj Hn Ha Hu HP base. unfold PresentWithKeyBinding, mbind, M_bind, time_now in HP.
  cbn [fst mret M_ret] in HP. injection HP as <-. fold base.
  destruct (decide (Sha.Sum256 (bytes_of (trim_tilde base)) = Sha.Sum256 (bytes_of base))) as [|Hne]; [by right|left].
  set (ds := filter (λ d, d_Key d ∈ revealKeys) (t_Disclosures t)) in *.
  match goal with |- context [signSDJWT ?c holderKey holderKID "kb+jwt"] => set (claims := c) in * end.
  set (kb := signSDJWT claims holderKey holderKID "kb+jwt").
  assert (base = tilde_text (t_JWT t :: (Encode <$> ds)) "") as Hb by apply join_tilde_text.
  assert (ParseSDJWT (base +s kb) = Ok (mkParsedSDJWT (t_JWT t) (Encode <$> ds) kb)) as Hp.
  { rewrite Hb, tilde_text_append. apply ParseSDJWT_text; [done|apply signSDJWT_avoids|right; apply signSDJWT_dots]. }
  unfold Verify. rewrite Hp. cbn [p_JWT p_Disclosures].
  destruct (parseSDJWTPayload (t_JWT t)) as [raw|]; [|done].
  destruct (strOrEmpty (aget "iss" raw) =s ""); [done|]. unfold mbind, M_bind.
  destruct (resolveSigningKey _ _ wv) as [[pub|] w1]; [|done].
  destruct (verifySDJWTSig (t_JWT t) pub); [|done].
  match goal with |- context [let '(_, _) := ?m w1 in _] => destruct (m w1) as [expired w2] end.
  destruct expired; [done|]. cbn [fst mret M_ret].
  destruct (check_disclosures _ _ _) as [disclosed|]; [|done]. cbn [mbind result_bind].
  assert (∃ e, check_binding (mkParsedSDJWT (t_JWT t) (Encode <$> ds) kb) raw expectedNonce expectedAudience = Err e)
    as [e ->]; [|done].
  apply check_binding_fails with claims; [|by apply signSDJWT_dots|].
  - destruct (kb_claims_ok nonce audience (Sha.Sum256 (bytes_of (trim_tilde base))) _ Hn Ha Hu) as [Hw Hc].
    by apply parse_signed.
  - unfold sdHashOf. cbn [p_JWT p_Disclosures]. rewrite join_tilde_text, <-Hb.
    unfold claims. rewrite kb_claims_hash. intros E. by apply Hne, Base64_inj.
Qed.
End Binding.

(** ** Selective disclosure *)

Section Disclosure.
Context `{Ed25519, Float64, Multibase} {St : Type}.

Definition good_claim (kv : string * json) : Prop := valid_utf8 kv.1 ∧ wf kv.2 ∧ canonical kv.2.
(** The names the issuer fills in itself. *)
Definition issuer_names : list string := ["iss"; "sub"; "iat"; "exp"; "_sd"; "_sd_alg"; "vct"].
(** Options for which the payload means what it says: strings are UTF-8, numbers are
    exact, the always visible claims do not replace the issuer's. *)
Definition issuable (opts : SDJWTIssueOptions) (now : Z) : Prop :=
  valid_utf8 (so_IssuerDID opts) ∧ valid_utf8 (so_SubjectDID opts) ∧
  Forall good_claim (so_SelectiveClaims opts) ∧ Forall good_claim (so_AlwaysVisibleClaims opts) ∧
  Forall (λ kv, kv.1 ∉ issuer_names) (so_AlwaysVisibleClaims opts) ∧
  (0 ≤ unix now)%Z ∧ (0 ≤ unix (now + valid_for opts) ≤ 2 ^ 53)%Z ∧ (unix now ≤ 2 ^ 53)%Z.

Lemma good_member k v : valid_utf8 k → wf v → canonical v → good_claim (k, v).
Proof. done. Qed.
Lemma canonical_int z : (0 ≤ z ≤ 2 ^ 53)%Z → canonical (JInt z).
Proof. intros Hz. unfold canonical. simpl. destruct (Z.leb_spec (Z.abs z) (2 ^ 53)); [done|lia]. Qed.
Lemma good_digests ds : good_claim ("_sd", JArr (JStr <$> (Digest <$> ds))).
Proof.
  apply good_member; [done| |apply canonical_JArr].
  - apply wf_JArr, Forall_fmap, Forall_fmap, Forall_true. intros d. apply Jwt.base64_utf8.
  - apply Forall_fmap, Forall_true. done.
Qed.

Lemma sd_payload_good opts vct ds now :
  issuable opts now → (∀ v, vct = Some v → valid_utf8 v) →
  Forall good_claim (sd_payload opts vct (Digest <$> ds) now) ∧ ksorted (sd_payload opts vct (Digest <$> ds) now).
Proof.
  intros (Hi & Hs & _ & Ha & _ & Hn & He & Hn2) Hv. unfold sd_payload. split.
  - apply Forall_foldl_aset; [done|].
    assert (Forall good_claim (of_pairs [("iss", JStr (so_IssuerDID opts)); ("sub", JStr (so_SubjectDID opts));
      ("iat", JInt (unix now)); ("exp", JInt (unix (now + valid_for opts))); ("_sd_alg", JStr "sha-256");
      ("_sd", JArr (JStr <$> (Digest <$> ds)))])) as Hb.
    { apply Forall_foldl_aset; [|done].
      repeat apply Forall_cons_2; try apply Forall_nil_2; try apply good_digests; apply good_member; try done;
        try (apply canonical_int; lia); simpl; lia. }
    destruct vct as [v|]; [|exact Hb]. apply Forall_aset; [|exact Hb]. by apply good_member; [|apply Hv|].
  - apply ksorted_foldl. destruct vct; [apply ksorted_aset|]; apply ksorted_of_pairs.
Qed.
Lemma sd_payload_json opts vct ds now :
  issuable opts now → (∀ v, vct = Some v → valid_utf8 v) →
  let p := JObj (sd_payload opts vct (Digest <$> ds) now) in wf p ∧ canonical p.
Proof.
  intros Ho Hv. destruct (sd_payload_good opts vct ds now Ho Hv) as [Hg Hs]. split.
  - apply wf_JObj. eapply Forall_impl; [exact Hg|]. by intros kv (? & ? & ?).
  - apply canonical_JObj; [done|]. eapply Forall_impl; [exact Hg|]. by intros kv (? & ? & ?).
Qed.

(** The issuer's own claims survive the always visible ones. *)
Lemma sd_payload_get opts vct digests now k :
  issuable opts now → k ∈ ["iss"; "sub"; "exp"; "_sd"] →
  aget k (sd_payload opts vct digests now) =
    if k =s "iss" then Some (JStr (so_IssuerDID opts))
    else if k =s "sub" then Some (JStr (so_SubjectDID opts))
    else if k =s "exp" then Some (JInt (unix (now + valid_for opts)))
    else Some (JArr (JStr <$> digests)).
Proof.
  intros (_ & _ & _ & _ & Hr & _) Hk. unfold sd_payload. rewrite aget_merge_other.
  - assert (k ≠ "vct") as Hne by (intros ->; set_solver).
    assert (∀ l, aget k (match vct with Some v => aset "vct" (JStr v) l | None => l end) = aget k l) as ->.
    { intros l. destruct vct; [by apply aget_aset_ne|done]. }
    rewrite !elem_of_cons, elem_of_nil in Hk. destruct_or? Hk; try done; subst; reflexivity.
  - eapply Forall_impl; [exact Hr|]. intros kv Hkv ->. apply Hkv. set_solver.
Qed.
Lemma sd_digests_payload opts vct ds now :
  issuable opts now → sd_digests (sd_payload opts vct (Digest <$> ds) now) = Digest <$> ds.
Proof.
  intros Ho. unfold sd_digests. rewrite sd_payload_get by (done || set_solver). cbn [String.eqb Ascii.eqb Bool.eqb].
  generalize (Digest <$> ds). intros l. induction l as [|x l IH]; [done|]. simpl. f_equal. exact IH.
Qed.

Lemma IssueSDJWT_inv reg opts (w : World St) t :
  fst (IssueSDJWT reg opts w) = Ok t →
  let now := w_clock w (w_nclock w) in
  ∃ vct ds, t = mkSDJWTToken (signSDJWT (sd_payload opts vct (Digest <$> ds) now) (so_IssuerKey opts)
                   (so_VerificationMethodID opts) "vc+sd-jwt") ds ∧
    so_IssuerDID opts ≠ "" ∧
    (vct = None ∨ ∃ s, Schema.GetSchema reg (so_SchemaID opts) = Ok s ∧ vct = Some (Schema.VersionedID s)) ∧
    Forall2 (λ kv d, d_Key d = kv.1 ∧ d_Value d = kv.2 ∧ valid_utf8 (d_Salt d)) (so_SelectiveClaims opts) ds.
Proof.
  unfold IssueSDJWT. destruct (HasPrefix _ _); [done|].
  destruct (String.eqb_spec (so_IssuerDID opts) "") as [|Hne]; [done|]. cbn [orb].
  destruct (bool_decide _); [done|]. destruct (so_SubjectDID opts =s ""); [done|].
  match goal with |- context [match ?e with Ok vct => _ | Err _ => _ end] =>
    assert (∀ vct, e = Ok vct → vct = None ∨ ∃ s, Schema.GetSchema reg (so_SchemaID opts) = Ok s ∧
      vct = Some (Schema.VersionedID s)) as Hv; [|destruct e as [vct|]; [|done]] end.
  { intros vct. destruct (_ =s ""); [intros [= <-]; by left|].
    destruct (Schema.GetSchema _ _) as [s|]; [|done]. intros [= <-]. right. by exists s. }
  specialize (Hv vct eq_refl). unfold mbind, M_bind.
  pose proof (new_disclosures_spec (so_SelectiveClaims opts) w) as Hd.
  pose proof (new_disclosures_clock (so_SelectiveClaims opts) w) as Hw.
  destruct (new_disclosures (so_SelectiveClaims opts) w) as [[ds|] w1]; [|done]. simpl in Hd, Hw.
  unfold time_now. cbn [fst mret M_ret]. intros [= <-]. exists vct, ds. destruct Hw as [-> ->].
  split_and!; [done..|]. by apply Hd.
Qed.

(** Checking good disclosures whose digests are listed yields their claims. *)
Lemma check_disclosures_good digests ds acc :
  Forall good_disclosure ds → Forall (λ d, Digest d ∈ digests) ds →
  check_disclosures digests (Encode <$> ds) acc =
    Ok (foldl (λ acc kv, aset kv.1 kv.2 acc) acc ((λ d, (d_Key d, d_Value d)) <$> ds)).
Proof.
  intros Hg. revert acc. induction Hg as [|d ds Hd _ IH]; intros acc Hin; [done|].
  inversion Hin as [|? ? Hd' Hin']; subst. cbn [fmap list_fmap check_disclosures].
  rewrite ParseDisclosure_Encode by done. rewrite bool_decide_true by done. cbn [negb].
  rewrite IH by done. done.
Qed.
Lemma disclosed_pairs (keys : list string) claims ds :
  Forall2 (λ kv d, d_Key d = kv.1 ∧ d_Value d = kv.2 ∧ valid_utf8 (d_Salt d)) claims ds →
  (λ d, (d_Key d, d_Value d)) <$> filter (λ d, d_Key d ∈ keys) ds = filter (λ kv, kv.1 ∈ keys) claims.
Proof.
  induction 1 as [|[k v] d claims ds (Hk & Hv & _) _ IH]; [done|]. simpl in *. subst.
  rewrite !filter_cons. cbn [fst]. destruct (decide (d_Key d ∈ keys)); [|done]. rewrite fmap_cons. by f_equal.
Qed.
Lemma good_disclosures claims ds :
  Forall2 (λ kv d, d_Key d = kv.1 ∧ d_Value d = kv.2 ∧ valid_utf8 (d_Salt d)) claims ds →
  Forall good_claim claims → Forall good_disclosure ds.
Proof.
  induction 1 as [|[k v] d claims ds (Hk & Hv & Hs) _ IH]; [constructor|]. simpl in *. subst.
  intros [(? & ? & ?) ?]%Forall_cons. constructor; [done|by apply IH].
Qed.

(** C13: a holder who reveals some claims of an issued token, before it expires, is
    accepted with the issuer and subject of the token and exactly the revealed
    claims with the values the issuer gave them; the others stay hidden. *)
Theorem selective_disclosure `{!Ed25519Ok} resolve reg opts (w : World St) t revealKeys doc (wv : World St) :
  length (so_IssuerKey opts) = 64 → issuable opts (w_clock w (w_nclock w)) →
  (∀ s, Schema.GetSchema reg (so_SchemaID opts) = Ok s → valid_utf8 (Schema.VersionedID s)) →
  fst (IssueSDJWT reg opts w) = Ok t →
  resolve (so_IssuerDID opts) wv = (Ok doc, wv) →
  signing_key (doc_VerificationMethod doc) = Ok (ed_public (so_IssuerKey opts)) →
  (unix (w_clock wv (w_nclock wv)) ≤ unix (w_clock w (w_nclock w) + valid_for opts))%Z →
  ∃ res, fst (Verify resolve (Present t revealKeys) "" "" wv) = Ok res ∧
    r_IssuerDID res = so_IssuerDID opts ∧ r_SubjectDID res = so_SubjectDID opts ∧
    r_DisclosedClaims res = of_pairs (filter (λ kv, kv.1 ∈ revealKeys) (so_SelectiveClaims opts)) ∧
    r_KeyBindingVerified res = false.
Proof.
  intros Hlen Ho Hschema HI Hr Hkey Htime. apply IssueSDJWT_inv in HI as (vct & ds & -> & Hiss & Hvct & Hds).
  set (now := w_clock w (w_nclock w)) in *. set (payload := sd_payload opts vct (Digest <$> ds) now).
  assert (∀ v, vct = Some v → valid_utf8 v) as Hv.
  { intros v ->. destruct Hvct as [|(s & Hs & [= ->])]; [done|]. by apply Hschema. }
  destruct (sd_payload_json opts vct ds now Ho Hv) as [Hw Hc].
  pose proof (good_disclosures _ _ Hds (proj1 (proj2 (proj2 Ho)))) as Hg.
  unfold Verify, Present. rewrite serializeWith_text. cbn [t_JWT t_Disclosures].
  rewrite ParseSDJWT_text; [|apply signSDJWT_avoids|constructor|by left]. cbn [p_JWT p_Disclosures].
  rewrite parse_signed by done. fold payload.
  unfold payload. rewrite !(sd_payload_get _ _ _ _ "iss"), (sd_payload_get _ _ _ _ "exp"),
    (sd_payload_get _ _ _ _ "sub") by (done || set_solver).
  cbn [String.eqb Ascii.eqb Bool.eqb strOrEmpty number].
  rewrite (proj2 (String.eqb_neq _ _) Hiss). unfold resolveSigningKey, mbind, M_bind. rewrite Hr.
  cbn [mret M_ret]. rewrite Hkey, verify_signed by done. unfold time_now. cbn [mret M_ret].
  destruct (Z.ltb_spec (unix (now + valid_for opts)) (unix (w_clock wv (w_nclock wv)))); [lia|].
  cbn [fst]. rewrite sd_digests_payload by done. rewrite check_disclosures_good.
  - rewrite (disclosed_pairs revealKeys _ _ Hds). cbn [mbind result_bind]. eexists. by split; [reflexivity|].
  - rewrite Forall_forall in Hg |- *. intros d [_ Hd]%list_elem_of_filter. by apply Hg.
  - apply Forall_forall. intros d [_ Hd]%list_elem_of_filter. by apply list_elem_of_fmap_2.
Qed.

(** ** Nothing but the issuer's claims is ever disclosed *)

Lemma marshal_disclosure d :
  marshal (disclosure_json d) =
    x5b :: quote (d_Salt d) ++ (x2c :: quote (d_Key d) ++ x2c :: marshal (d_Value d) ++ [x5d]).
Proof. unfold disclosure_json. simpl. rewrite <-!(assoc_L (++)). simpl. by rewrite app_nil_r, <-!(assoc_L (++)). Qed.
Lemma Encode_inj d d' :
  valid_utf8 (d_Salt d) → valid_utf8 (d_Key d) → valid_utf8 (d_Salt d') → valid_utf8 (d_Key d') →
  Encode d = Encode d' → d_Key d = d_Key d' ∧ marshal (d_Value d) = marshal (d_Value d').
Proof.
  intros H1' H2' H3' H4' E%Base64_inj. rewrite !marshal_disclosure in E. 
  apply (f_equal tail) in E. cbn [tail] in E. apply quote_app_inj in E as [_ E]; [|done..].
  apply (f_equal tail) in E. cbn [tail] in E. apply quote_app_inj in E as [Ek E]; [|done..].
  apply (f_equal tail) in E. cbn [tail] in E. by apply (inj (λ l, l ++ [x5d])) in E.
Qed.

(** Every claim that passed the check was in a presented disclosure with a listed digest. *)
Lemma check_disclosures_inv digests encs : ∀ acc out k v,
  check_disclosures digests encs acc = Ok out → aget k out = Some v →
  aget k acc = Some v ∨
  ∃ enc d, ParseDisclosure enc = Ok d ∧ Digest d ∈ digests ∧ d_Key d = k ∧ d_Value d = v.
Proof.
  induction encs as [|enc encs IH]; intros acc out k v; simpl; [intros [= <-]; by left|].
  destruct (ParseDisclosure enc) as [d|] eqn:Ed; [|done].
  destruct (bool_decide_reflect (Digest d ∈ digests)) as [Hin|]; [|done]. cbn [negb]. intros Hc Hk.
  destruct (IH _ _ _ _ Hc Hk) as [Ha|Hex]; [|by right].
  destruct (decide (k = d_Key d)) as [->|Hne].
  - rewrite aget_aset_eq in Ha. injection Ha as <-. right. by exists enc, d.
  - rewrite aget_aset_ne in Ha by done. by left.
Qed.

Lemma Verify_disclosed resolve token nonce aud (wv : World St) res :
  fst (Verify resolve token nonce aud wv) = Ok res →
  ∃ parsed raw, ParseSDJWT token = Ok parsed ∧ parseSDJWTPayload (p_JWT parsed) = Ok raw ∧
    check_disclosures (sd_digests raw) (p_Disclosures parsed) [] = Ok (r_DisclosedClaims res).
Proof.
  unfold Verify. destruct (ParseSDJWT token) as [parsed|]; [|done].
  destruct (parseSDJWTPayload (p_JWT parsed)) as [raw|] eqn:Er; [|done].
  destruct (strOrEmpty (aget "iss" raw) =s ""); [done|]. unfold mbind, M_bind.
  destruct (resolveSigningKey _ _ wv) as [[pub|] w1]; [|done].
  destruct (verifySDJWTSig (p_JWT parsed) pub); [|done].
  match goal with |- context [let '(_, _) := ?m w1 in _] => destruct (m w1) as [expired w2] end.
  destruct expired; [done|]. cbn [fst mret M_ret].
  destruct (check_disclosures _ _ _) as [disclosed|] eqn:Ed; [|done]. cbn [mbind result_bind].
  destruct (check_binding _ _ _ _) as [kb|]; [|done]. cbn [mbind result_bind]. intros [= <-].
  by exists parsed, raw.
Qed.

(** C12: whatever a holder presents around the issuer's token, a verifier that accepts it
    only ever sees claims of the issuer under their names: the same JSON text, unless
    a presented disclosure collides with an issued one under SHA-256. *)
Theorem disclosed_claims_issued resolve reg opts (w : World St) t token nonce aud (wv : World St) parsed res k v :
  issuable opts (w_clock w (w_nclock w)) →
  (∀ s, Schema.GetSchema reg (so_SchemaID opts) = Ok s → valid_utf8 (Schema.VersionedID s)) →
  fst (IssueSDJWT reg opts w) = Ok t →
  ParseSDJWT token = Ok parsed → p_JWT parsed = t_JWT t →
  fst (Verify resolve token nonce aud wv) = Ok res →
  aget k (r_DisclosedClaims res) = Some v →
  (∃ v0, (k, v0) ∈ so_SelectiveClaims opts ∧ marshal v = marshal v0) ∨
  ∃ enc d, d ∈ t_Disclosures t ∧ enc ≠ Encode d ∧ Sha.Sum256 (bytes_of enc) = Sha.Sum256 (bytes_of (Encode d)).
Proof.
  intros Ho Hschema HI Hp Hjwt HV Hk. apply IssueSDJWT_inv in HI as (vct & ds & -> & _ & Hvct & Hds).
  apply Verify_disclosed in HV as (parsed' & raw & Hp' & Hraw & Hc). rewrite Hp in Hp'. injection Hp' as <-.
  assert (∀ v, vct = Some v → valid_utf8 v) as Hv.
  { intros v' ->. destruct Hvct as [|(s & Hs & [= ->])]; [done|]. by apply Hschema. }
  destruct (sd_payload_json opts vct ds _ Ho Hv) as [Hw Hcan].
  rewrite Hjwt in Hraw. cbn [t_JWT t_Disclosures] in *. rewrite parse_signed in Hraw by done. injection Hraw as <-.
  rewrite sd_digests_payload in Hc by done.
  destruct (check_disclosures_inv _ _ _ _ _ _ Hc Hk) as [?|(enc & d & Hd & Hin & <- & <-)]; [done|].
  apply list_elem_of_fmap in Hin as (d0 & E & Hd0). apply Base64_inj in E.
  destruct (decide (Encode d = Encode d0)) as [Ee|Hne]; [left|right; by exists (Encode d), d0].
  apply list_elem_of_lookup in Hd0 as [i Hi].
  destruct (Forall2_lookup_r _ _ _ _ _ Hds Hi) as ([k0 v0] & Hi0 & Hk0 & Hv0 & Hs0). simpl in *. subst.
  apply list_elem_of_lookup_2 in Hi0.
  pose proof (proj1 (Forall_forall _ _) (proj1 (proj2 (proj2 Ho))) _ Hi0) as (Hu0 & _ & _). simpl in Hu0.
  destruct (ParseDisclosure_valid _ _ Hd) as [Hs1 Hk1].
  destruct (Encode_inj d d0) as [-> Hm]; [done..|]. by exists (d_Value d0).
Qed.
End Disclosure.

(** ** Instances *)

Section Witnesses.
Import VcProofs.Sample.

Definition sd_opts : SDJWTIssueOptions :=
  mkSDJWTIssueOptions "did:web:issuer.example" (replicate 64 x2a) "did:web:issuer.example#key-1" "did:key:alice"
    "identity.legal-name" [("given", JStr "Alice"); ("age", JInt 42)] [("level", JInt 2)] hour.
Definition sd_world : World unit :=
  mkWorld (λ _, 1000 * second)%Z 0 (λ n, Some (λ i, byte_of_N (N.of_nat (i + 16 * n)))) 0 (λ _, None) 0 tt.
Definition sd_token : SDJWTToken :=
  match fst (IssueSDJWT registry sd_opts sd_world) with Ok t => t | Err _ => mkSDJWTToken "" [] end.
Definition sd_resolve (did : string) : M unit (result Document) := mret (Ok (doc did)).

Lemma sd_issue_ok : fst (IssueSDJWT registry sd_opts sd_world) = Ok sd_token.
Proof. vm_compute. reflexivity. Qed.
Lemma sd_issuable : issuable sd_opts (1000 * second).
Proof.
  assert (∀ k s, valid_utf8 k → valid_utf8 s → good_claim (k, JStr s)) as Hs by done.
  assert (∀ k z, valid_utf8 k → (0 ≤ z ≤ 2 ^ 53)%Z → good_claim (k, JInt z)) as Hz.
  { intros k z Hk Hz. apply good_member; [done|simpl; lia|by apply canonical_int]. }
  unfold issuable. change (so_SelectiveClaims sd_opts) with [("given", JStr "Alice"); ("age", JInt 42)].
  change (so_AlwaysVisibleClaims sd_opts) with [("level", JInt 2)].
  split_and!; [reflexivity|reflexivity| | | |by vm_compute..].
  - apply Forall_cons_2; [by apply Hs|]. apply Forall_cons_2; [by apply Hz|]. apply Forall_nil_2.
  - apply Forall_cons_2; [by apply Hz|]. apply Forall_nil_2.
  - apply Forall_cons_2; [|apply Forall_nil_2]. by apply (bool_decide_unpack _).
Qed.
Lemma sd_schemas s : Schema.GetSchema registry "identity.legal-name" = Ok s → valid_utf8 (Schema.VersionedID s).
Proof. intros E. vm_compute in E. injection E as <-. vm_compute. reflexivity. Qed.
Lemma sd_signing_key : signing_key (doc_VerificationMethod (doc "did:web:issuer.example")) = Ok (replicate 32 x2a).
Proof. simpl. by apply VcProofs.decode_toMultibase. Qed.

Lemma selective_disclosure_witness :
  ∃ res, fst (Verify sd_resolve (Present sd_token ["given"]) "" "" sd_world) = Ok res ∧
    r_IssuerDID res = "did:web:issuer.example" ∧ r_SubjectDID res = "did:key:alice" ∧
    r_DisclosedClaims res = [("given", JStr "Alice")] ∧ r_KeyBindingVerified res = false.
Proof.
  apply (selective_disclosure sd_resolve registry sd_opts sd_world sd_token ["given"]
           (doc "did:web:issuer.example") sd_world).
  - reflexivity.
  - exact sd_issuable.
  - exact sd_schemas.
  - exact sd_issue_ok.
  - reflexivity.
  - exact sd_signing_key.
  - vm_compute. done.
Defined.

Definition sd_result : SDJWTVerifyResult :=
  match fst (Verify sd_resolve (Present sd_token ["given"]) "" "" sd_world) with
  | Ok r => r | Err _ => mkSDJWTVerifyResult "" "" "" [] [] None None false end.
Lemma disclosed_claims_issued_witness :
  (∃ v0, ("given", v0) ∈ so_SelectiveClaims sd_opts ∧ marshal (JStr "Alice") = marshal v0) ∨
  ∃ enc d, d ∈ t_Disclosures sd_token ∧ enc ≠ Encode d ∧
    Sha.Sum256 (bytes_of enc) = Sha.Sum256 (bytes_of (Encode d)).
Proof.
  apply (disclosed_claims_issued sd_resolve registry sd_opts sd_world sd_token (Present sd_token ["given"]) "" ""
           sd_world (mkParsedSDJWT (t_JWT sd_token)
             (Encode <$> filter (λ d, d_Key d ∈ ["given"]) (t_Disclosures sd_token)) "") sd_result "given").
  - exact sd_issuable.
  - exact sd_schemas.
  - exact sd_issue_ok.
  - vm_compute. reflexivity.
  - reflexivity.
  - vm_compute. reflexivity.
  - vm_compute. reflexivity.
Defined.

Definition kb_token : string :=
  match fst (PresentWithKeyBinding (St:=unit) sd_token ["given"] (replicate 64 x2a) "k" "n-1" "shop" sd_world) with
  | Ok s => s | Err _ => "" end.
Lemma key_binding_never_verifies_witness :
  is_ok (fst (Verify sd_resolve kb_token "n-1" "shop" sd_world)) = false ∨
  Sha.Sum256 (bytes_of (trim_tilde (Present sd_token ["given"]))) = Sha.Sum256 (bytes_of (Present sd_token ["given"])).
Proof.
  apply (key_binding_never_verifies sd_resolve sd_token ["given"] (replicate 64 x2a) "k" "n-1" "shop" sd_world).
  - vm_compute. repeat constructor.
  - vm_compute. reflexivity.
  - vm_compute. reflexivity.
  - vm_compute. split; intros; discriminate.
  - vm_compute. reflexivity.
Defined.
End Witnesses.
End SdJwtProofs.
