(* ===== verification/Watermark.v ===== *)
(** * Watermarked presentations (pkg/vc/watermark.go)

    A presentation with one more disclosure that names the presentation and its
    verifier, and the reader that finds it again. *)

From S2P Require Import Prelude GoStd World Sha Base64 Json JsonValue Schema StoreTypes.
From S2P Require Import Jwt Crypto Canonical Did Vc VcProofs SdJwt SdJwtProofs.
Import JsonValue Types SdJwt.

Module Watermark.

Record WatermarkRecord := mkWatermarkRecord {
  wr_PresentationID : string; wr_VerifierDID : string; wr_SubjectDID : string; wr_SchemaID : string; wr_IssuedAt : Z }.

Definition presentationIDChars : list byte :=
  bytes_of "ABCDEFGHIJKLMNOPQRSTUVWXYZabcdefghijklmnopqrstuvwxyz0123456789".
(** Sixteen draws of [rand.Intn(62)] from math/rand, which does not fail. *)
Definition newPresentationID {St} : M St string :=
  b ← rand_read 16;
  mret (str_of ((λ d, nth (N.to_nat (bval d mod 62)) presentationIDChars x41) <$>
                match b with Ok l => l | Err _ => replicate 16 x00 end)).

Definition indexOf (s : list byte) (c : byte) : option nat := fst <$> list_find (λ x, beqb x c = true) s.
(** The text between tildes; a part after the last one counts only if it is not empty. *)
Fixpoint split_tildes (fuel : nat) (rest : list byte) : list (list byte) :=
  match fuel with
  | O => []
  | S fuel' =>
      match indexOf rest x7e with
      | None => match rest with [] => [] | _ => [rest] end
      | Some idx => take idx rest :: split_tildes fuel' (drop (S idx) rest)
      end
  end.
Definition splitSDJWT (s : string) : list string :=
  str_of <$> split_tildes (S (length (bytes_of s))) (bytes_of s).

Section Watermarks.
Context `{Float64} {St : Type}.

Definition ParseSDJWTClaims (jwt : string) : result (list (string * json)) :=
  match splitSDJWT jwt with
  | _ :: p1 :: _ =>
      match Base64.DecodeString p1 with
      | None => Err (ErrMsg "watermark: decode payload")
      | Some raw =>
          match Crypto.unmarshal_any raw with
          | Ok (JObj l) => Ok l
          | Ok JNull => Ok []
          | Ok _ => Err (ErrMsg "watermark: unmarshal: json: cannot unmarshal")
          | Err e => Err (ErrWrap "watermark: unmarshal" e)
          end
      end
  | _ => Err (ErrMsg "watermark: malformed JWT")
  end.

Definition wm_disclosure (presentationID verifierDID : string) (now : Z) : Disclosure :=
  mkDisclosure (Base64.EncodeToString (take 16 (Sha.Sum256 (bytes_of ("watermark:" +s presentationID))))) "_wm"
    (JObj [("pid", JStr presentationID); ("ts", JInt (unix now)); ("vdid", JStr verifierDID)]).

Definition ends_in_tilde (s : string) : bool :=
  match last (bytes_of s) with Some c => beqb c x7e | None => false end.
Definition PresentWithWatermark (t : SDJWTToken) (revealKeys : list string) (verifierDID : string)
    : M St (string * WatermarkRecord) :=
  presentationID ← newPresentationID;
  now ← time_now;
  let wmEncoded := Encode (wm_disclosure presentationID verifierDID now) in
  let base := Present t revealKeys in
  let presentation := if ends_in_tilde base then base +s wmEncoded +s "~" else base +s "~" +s wmEncoded +s "~" in
  let schemaID := match ParseSDJWTClaims (t_JWT t) with Ok claims => strOrEmpty (aget "vct" claims) | Err _ => "" end in
  now' ← time_now;
  mret (presentation, mkWatermarkRecord presentationID verifierDID "" schemaID now').

(** The watermark in one part of a presentation. *)
Definition wm_of (part : string) : option (string * string) :=
  if part =s "" then None
  else raw ← Base64.DecodeString part;
       match Crypto.unmarshal_any raw with
       | Ok (JArr (_ :: JStr key :: JObj val :: _)) =>
           if key =s "_wm" then Some (strOrEmpty (aget "pid" val), strOrEmpty (aget "vdid" val)) else None
       | _ => None
       end.
(** No result for the empty string, of which the code slices a part that is not there. *)
Definition ExtractWatermark (presentation : string) : option (string * string * bool) :=
  match splitSDJWT presentation with
  | [] => None
  | _ :: parts => Some (match omap wm_of parts with (pid, vdid) :: _ => (pid, vdid, true) | [] => ("", "", false) end)
  end.

(** The key-binding variant adds nothing to the watermarked presentation. *)
Definition appendKBJWT (presentation : string) : string := presentation.
Definition PresentWithWatermarkAndKeyBinding (t : SDJWTToken) (revealKeys : list string) (holderKey : list byte)
    (kid nonce aud verifierDID : string) : M St (string * WatermarkRecord) :=
  r ← PresentWithWatermark t revealKeys verifierDID;
  let '(presentation, record) := r in
  mret (appendKBJWT presentation, record).
End Watermarks.

(** ** The text of a watermarked presentation *)

Section Text.
Context `{Float64} {St : Type}.

Definition revealed (t : SDJWTToken) (keys : list string) : list Disclosure :=
  filter (λ d, d_Key d ∈ keys) (t_Disclosures t).
Lemma chars_ascii n : (bval (nth n presentationIDChars x41) < 128)%N.
Proof.
  assert (Forall (λ c, (bval c < 128)%N) presentationIDChars) as Ha by (by repeat constructor).
  destruct (nth_in_or_default n presentationIDChars x41) as [Hin| ->]; [|done].
  rewrite Forall_forall in Ha. by apply Ha, list_elem_of_In.
Qed.
Lemma presentationID_utf8 (w : World St) : Json.valid_utf8 (fst (newPresentationID w)).
Proof.
  unfold newPresentationID, mbind, M_bind. destruct (rand_read 16 w) as [b w1]. apply Json.ascii_utf8.
  apply Forall_fmap, Forall_true. intros d. apply chars_ascii.
Qed.
Lemma last_tilde parts : parts ≠ [] → ends_in_tilde (SdJwtProofs.tilde_text parts "") = true.
Proof.
  intros Hne. unfold ends_in_tilde. assert (last (bytes_of (SdJwtProofs.tilde_text parts "")) = Some x7e) as ->; [|done].
  induction parts as [|p parts IH]; [done|].
  change (SdJwtProofs.tilde_text (p :: parts) "") with (p +s "~" +s SdJwtProofs.tilde_text parts "").
  rewrite !bytes_of_append. change (bytes_of "~") with [x7e]. destruct parts as [|q parts].
  - cbn [SdJwtProofs.tilde_text foldr app]. apply last_snoc.
  - rewrite (assoc_L (++)), last_app, IH by done. done.
Qed.
Lemma newPresentationID_clock (w : World St) :
  w_clock (snd (newPresentationID w)) = w_clock w ∧ w_nclock (snd (newPresentationID w)) = w_nclock w.
Proof. unfold newPresentationID, mbind, M_bind, rand_read. by destruct (w_rand w (w_nrand w)). Qed.
Lemma presented t keys vdid (w : World St) :
  let wm := wm_disclosure (fst (newPresentationID w)) vdid (w_clock w (w_nclock w)) in
  fst (PresentWithWatermark t keys vdid w) =
    (SdJwtProofs.tilde_text (t_JWT t :: (Encode <$> (revealed t keys ++ [wm]))) "",
     mkWatermarkRecord (fst (newPresentationID w)) vdid "" (wr_SchemaID (snd (fst (PresentWithWatermark t keys vdid w))))
       (w_clock w (S (w_nclock w)))).
Proof.
  cbv zeta. pose proof (newPresentationID_clock w) as [Hc Hn]. unfold PresentWithWatermark, mbind, M_bind.
  destruct (newPresentationID w) as [pid w1]. cbn [fst snd] in *. unfold time_now, mret, M_ret. cbv zeta.
  cbn [fst snd w_clock w_nclock]. rewrite Hc, Hn. change (Present t keys) with (serializeWith t (revealed t keys)).
  rewrite SdJwtProofs.serializeWith_text, last_tilde by done. cbv iota.
  rewrite SdJwtProofs.tilde_text_append, fmap_app. cbn [fmap list_fmap wr_SchemaID].
  unfold SdJwtProofs.tilde_text at 1. unfold SdJwtProofs.tilde_text at 1. rewrite app_comm_cons, foldr_app. reflexivity.
Qed.

Lemma index_parts (p : list byte) rest :
  Forall (λ c, beqb c x7e = false) p → indexOf (p ++ x7e :: rest) x7e = Some (length p).
Proof.
  intros Hp. unfold indexOf. rewrite list_find_app_r.
  - done.
  - apply list_find_None. eapply Forall_impl; [exact Hp|]. cbn. by intros x ->.
Qed.
Lemma split_text parts fuel :
  length parts < fuel → Forall (SdJwtProofs.avoids x7e) parts →
  str_of <$> split_tildes fuel (bytes_of (SdJwtProofs.tilde_text parts "")) = parts.
Proof.
  intros Hf Hp. revert fuel Hf. induction Hp as [|p parts Hp _ IH]; intros [|fuel] Hf; cbn in Hf; try lia; [done|].
  change (SdJwtProofs.tilde_text (p :: parts) "") with (p +s "~" +s SdJwtProofs.tilde_text parts "").
  rewrite !bytes_of_append. change (bytes_of "~") with [x7e]. cbn [app split_tildes]. rewrite index_parts by done.
  rewrite take_app_length. rewrite cons_middle, (assoc_L (++)), drop_app_length'; [|rewrite length_app; cbn; lia].
  cbn [fmap list_fmap]. rewrite str_of_bytes_of. f_equal. apply IH. lia.
Qed.
Lemma length_tilde_text parts : length parts ≤ length (bytes_of (SdJwtProofs.tilde_text parts "")).
Proof.
  induction parts as [|p parts IH]; [cbn; lia|].
  change (SdJwtProofs.tilde_text (p :: parts) "") with (p +s "~" +s SdJwtProofs.tilde_text parts "").
  rewrite !bytes_of_append, !length_app. cbn [length]. change (length (bytes_of "~")) with 1. lia.
Qed.
Lemma splitSDJWT_text jwt ds :
  SdJwtProofs.avoids x7e jwt →
  splitSDJWT (SdJwtProofs.tilde_text (jwt :: (Encode <$> ds)) "") = jwt :: (Encode <$> ds).
Proof.
  intros Hj. unfold splitSDJWT. apply split_text; [pose proof (length_tilde_text (jwt :: (Encode <$> ds))); lia|].
  constructor; [done|]. apply Forall_fmap, Forall_true. intros d. by apply SdJwtProofs.Encode_avoids.
Qed.

Lemma wm_of_Encode d : SdJwtProofs.good_disclosure d →
  wm_of (Encode d) = match d_Value d with
    | JObj val => if d_Key d =s "_wm" then Some (strOrEmpty (aget "pid" val), strOrEmpty (aget "vdid" val)) else None
    | _ => None end.
Proof.
  intros (Hs & Hk & Hw & Hc). unfold wm_of. pose proof (SdJwtProofs.Encode_nonempty d) as Hne.
  apply String.eqb_neq in Hne. rewrite Hne. unfold Encode. rewrite Base64.DecodeString_EncodeToString. cbn [mbind option_bind].
  rewrite Canonical.unmarshal_canonical; [|done|apply Canonical.canonical_JArr; by repeat constructor].
  unfold disclosure_json. by destruct (d_Value d).
Qed.
Lemma wm_good pid vdid now :
  Json.valid_utf8 pid → Json.valid_utf8 vdid → (0 ≤ unix now ≤ 2 ^ 53)%Z →
  SdJwtProofs.good_disclosure (wm_disclosure pid vdid now).
Proof.
  intros Hp Hv Hn. split_and!; [apply Jwt.base64_utf8|done| |].
  - apply wf_JObj. apply Forall_cons; split; [by split|]. apply Forall_cons; split; [split; [done|cbn [wf snd]; lia]|].
    apply Forall_cons; split; [by split|done].
  - cbn [wm_disclosure d_Value]. apply Canonical.canonical_JObj; [repeat constructor|]. apply Forall_cons; split; [reflexivity|].
    apply Forall_cons; split; [by apply SdJwtProofs.canonical_int|]. apply Forall_cons; split; [reflexivity|done].
Qed.

(** A leaked presentation names its source: the watermark that is found in a watermarked
    presentation is the identifier that was recorded and the verifier it was made for,
    when no disclosure of the token bears the watermark's name. *)
Theorem watermark_traced t keys vdid (w : World St) :
  SdJwtProofs.avoids x7e (t_JWT t) → Forall SdJwtProofs.good_disclosure (t_Disclosures t) →
  Forall (λ d, d_Key d ≠ "_wm") (t_Disclosures t) →
  Json.valid_utf8 vdid → (0 ≤ unix (w_clock w (w_nclock w)) ≤ 2 ^ 53)%Z →
  let '(p, record) := fst (PresentWithWatermark t keys vdid w) in
  ExtractWatermark p = Some (wr_PresentationID record, vdid, true) ∧ wr_VerifierDID record = vdid.
Proof.
  intros Hj Hg Hk Hv Hn. rewrite presented. cbn [wr_PresentationID wr_VerifierDID]. split; [|done].
  unfold ExtractWatermark. rewrite splitSDJWT_text by done. rewrite fmap_app, omap_app.
  assert (omap wm_of (Encode <$> revealed t keys) = []) as ->.
  { assert (∀ ds, Forall SdJwtProofs.good_disclosure ds → Forall (λ d, d_Key d ≠ "_wm") ds → omap wm_of (Encode <$> ds) = []) as Hds.
    { induction 1 as [|d ds Hd _ IH]; intros Hks; [done|]. apply Forall_cons in Hks as [Hd' Hks]. cbn [fmap list_fmap omap list_omap].
      rewrite wm_of_Encode by done. apply String.eqb_neq in Hd'. rewrite Hd'. rewrite IH by done. by destruct (d_Value d). }
    apply Hds; apply Forall_forall; intros d [_ Hd]%list_elem_of_filter; [by eapply (proj1 (Forall_forall _ _) Hg)|by eapply (proj1 (Forall_forall _ _) Hk)]. }
  cbn [fmap list_fmap omap list_omap app]. rewrite wm_of_Encode; [done|]. apply wm_good; [apply presentationID_utf8|done..].
Qed.
End Text.

(** ** Verification of a watermarked presentation *)

Section NeverVerifies.
Context `{Ed25519, Float64, Multibase} {St : Type}.

Lemma check_disclosures_all digests encs acc out enc d :
  check_disclosures digests encs acc = Ok out → enc ∈ encs → ParseDisclosure enc = Ok d → Digest d ∈ digests.
Proof.
  revert acc. induction encs as [|e encs IH]; intros acc; cbn [check_disclosures]; [by intros _ ?%not_elem_of_nil|].
  destruct (ParseDisclosure e) as [d'|] eqn:Ed; [|done].
  destruct (bool_decide_reflect (Digest d' ∈ digests)) as [Hin|]; [|done]. cbn [negb]. intros Hc He Hp.
  apply elem_of_cons in He as [->|He]; [congruence|by eapply IH].
Qed.

(** A watermark makes a presentation unusable: the verifier refuses every watermarked
    presentation of an issued token that has no claim of the watermark's name, unless the
    watermark collides with an issued disclosure under SHA-256, because its digest is
    not among those the issuer signed. *)
Theorem watermarked_never_verifies resolve reg opts (w : World St) t keys vdid (w2 : World St) nonce aud (wv : World St) :
  SdJwtProofs.issuable opts (w_clock w (w_nclock w)) →
  (∀ s, Schema.GetSchema reg (so_SchemaID opts) = Ok s → Json.valid_utf8 (Schema.VersionedID s)) →
  fst (IssueSDJWT reg opts w) = Ok t → Forall (λ kv, kv.1 ≠ "_wm") (so_SelectiveClaims opts) →
  Json.valid_utf8 vdid → (0 ≤ unix (w_clock w2 (w_nclock w2)) ≤ 2 ^ 53)%Z →
  is_ok (fst (Verify resolve (fst (fst (PresentWithWatermark t keys vdid w2))) nonce aud wv)) = false ∨
  ∃ enc d, d ∈ t_Disclosures t ∧ enc ≠ Encode d ∧ Sha.Sum256 (bytes_of enc) = Sha.Sum256 (bytes_of (Encode d)).
Proof.
  intros Ho Hschema HI Hnames Hv Hn. apply SdJwtProofs.IssueSDJWT_inv in HI as (vct & ds & -> & _ & Hvct & Hds).
  assert (∀ v, vct = Some v → Json.valid_utf8 v) as Hvv.
  { intros v' ->. destruct Hvct as [|(s & Hs & [= ->])]; [done|]. by apply Hschema. }
  destruct (SdJwtProofs.sd_payload_json opts vct ds _ Ho Hvv) as [Hw Hcan].
  rewrite presented. cbn [fst t_JWT t_Disclosures].
  destruct (fst (Verify resolve _ nonce aud wv)) as [res|] eqn:HV; [right|by left].
  apply SdJwtProofs.Verify_disclosed in HV as (parsed & raw & Hp & Hraw & Hc).
  rewrite SdJwtProofs.ParseSDJWT_text in Hp; [|apply SdJwtProofs.signSDJWT_avoids|constructor|by left].
  injection Hp as <-. cbn [p_JWT p_Disclosures] in Hraw, Hc. rewrite SdJwtProofs.parse_signed in Hraw by done. injection Hraw as <-.
  rewrite SdJwtProofs.sd_digests_payload in Hc by done.
  set (wm := wm_disclosure _ _ _) in *.
  assert (SdJwtProofs.good_disclosure wm) as Hgood by (apply wm_good; [apply presentationID_utf8|done..]).
  assert (Digest wm ∈ Digest <$> ds) as Hin.
  { eapply check_disclosures_all; [exact Hc| |apply SdJwtProofs.ParseDisclosure_Encode, Hgood].
    rewrite fmap_app, elem_of_app. right. by left. }
  apply list_elem_of_fmap in Hin as (d0 & E & Hd0). apply SdJwtProofs.Base64_inj in E.
  exists (Encode wm), d0. split; [done|]. split; [|done]. intros Ee.
  apply list_elem_of_lookup in Hd0 as [i Hi].
  destruct (Forall2_lookup_r _ _ _ _ _ Hds Hi) as ([k0 v0] & Hi0 & Hk0 & Hv0 & Hs0). cbn [fst snd] in *.
  apply list_elem_of_lookup_2 in Hi0.
  pose proof (proj1 (Forall_forall _ _) (proj1 (proj2 (proj2 Ho))) _ Hi0) as (Hu0 & _ & _). cbn [fst] in Hu0.
  destruct (SdJwtProofs.Encode_inj wm d0) as [Ek _]; try done; [apply Hgood|by rewrite Hk0|].
  rewrite Forall_forall in Hnames. apply (Hnames _ Hi0). cbn [fst]. by rewrite <-Hk0, <-Ek.
Qed.
End NeverVerifies.

(** ** Instances *)

Section Witnesses.
Import VcProofs.Sample SdJwtProofs.

Definition plain_token : SDJWTToken := mkSDJWTToken "a.b.c" [mkDisclosure "salt" "given" (JStr "Alice")].
Lemma watermark_traced_witness :
  let '(p, record) := fst (PresentWithWatermark plain_token ["given"] "did:web:shop" sd_world) in
  ExtractWatermark p = Some (wr_PresentationID record, "did:web:shop", true) ∧ wr_VerifierDID record = "did:web:shop".
Proof.
  apply (watermark_traced plain_token ["given"] "did:web:shop" sd_world).
  - by repeat constructor.
  - by repeat constructor.
  - by repeat constructor.
  - reflexivity.
  - vm_compute. split; discriminate.
Defined.
Lemma watermarked_never_verifies_witness :
  is_ok (fst (Verify sd_resolve (fst (fst (PresentWithWatermark sd_token ["given"] "did:web:shop" sd_world))) "" "" sd_world))
    = false ∨
  ∃ enc d, d ∈ t_Disclosures sd_token ∧ enc ≠ Encode d ∧ Sha.Sum256 (bytes_of enc) = Sha.Sum256 (bytes_of (Encode d)).
Proof.
  apply (watermarked_never_verifies sd_resolve registry sd_opts sd_world sd_token ["given"] "did:web:shop" sd_world).
  - exact sd_issuable.
  - exact sd_schemas.
  - exact sd_issue_ok.
  - by apply (bool_decide_unpack _).
  - reflexivity.
  - vm_compute. split; discriminate.
Defined.
End Witnesses.
End Watermark.
