(* ===== verification/Bridge.v ===== *)
(** * External identities (internal/bridge, its password and magic link
    providers, internal/authn/duress.go)

    The mapper that turns an external identity into a platform identifier, the
    two providers whose state is in the store, and the duress passphrases. *)

From S2P Require Import Prelude GoStd World Sha Base64 Consent StoreTypes Store StoreAuth Logic StoreInv Totp Did.
Import Types Store StoreAuth StoreInv.

Module Bridge.

Record ExternalIdentity := mkExternalIdentity {
  ext_Provider : string; ext_ExternalID : string; ext_Claims : gmap string string; ext_Duress : bool }.

Definition normaliseEmail (email : string) : string := ToLower (TrimSpace email).

(** ** Passwords (internal/bridge/providers/password.go) *)

Definition pwSaltLen : nat := 32.

Section Password.
Context `{Argon2}.

Definition hashPassword (password : string) (salt : list byte) : list byte :=
  argon2_id (bytes_of password) salt.
Definition encodeArgon2Hash (hash salt : list byte) : string := Sha.hex salt +s ":" +s Sha.hex hash.
Definition verifyArgon2 (password stored : string) : result unit :=
  match SplitN stored x3a 2 with
  | [p0; p1] =>
      match hex_decode (bytes_of p0) with
      | None => Err (ErrMsg "invalid salt")
      | Some salt =>
          match hex_decode (bytes_of p1) with
          | None => Err (ErrMsg "invalid hash")
          | Some expected =>
              if negb (ConstantTimeCompare (hashPassword password salt) expected)
              then Err (ErrMsg "mismatch") else Ok tt
          end
      end
  | _ => Err (ErrMsg "invalid hash format")
  end.

Definition VerifyCredentials (identifier password : string) : M Srv (result ExternalIdentity) :=
  stored ← GetPasswordHash (normaliseEmail identifier);
  match stored with
  | Err _ => mret (Err (ErrMsg "password: invalid credentials"))
  | Ok storedHash =>
      match verifyArgon2 password storedHash with
      | Err _ => mret (Err (ErrMsg "password: invalid credentials"))
      | Ok _ => mret (Ok (mkExternalIdentity "password" (normaliseEmail identifier)
                            {["identifier" := identifier]} false))
      end
  end.

Definition SetPassword (identifier password : string) : M Srv (result unit) :=
  if Nat.ltb (length (bytes_of password)) 12
  then mret (Err (ErrMsg "password: minimum length is 12 characters"))
  else
    salt ← rand_read pwSaltLen;
    match salt with
    | Err e => mret (Err (ErrWrap "password: generate salt" e))
    | Ok salt => SavePasswordHash (normaliseEmail identifier)
                   (encodeArgon2Hash (hashPassword password salt) salt)
    end.

(** ** Duress passphrases (internal/authn/duress.go) *)

Definition argon2HashDuress (pass salt : list byte) : string := Sha.hex (argon2_id pass salt).
(** The text before and after the first colon. *)
Fixpoint split_colon (acc s : list byte) : option (list byte * list byte) :=
  match s with
  | [] => None
  | c :: s' => if beqb c x3a then Some (rev acc, s') else split_colon (c :: acc) s'
  end.
Definition splitDuressStored (s : string) : option (string * string) :=
  '(a, b) ← split_colon [] (bytes_of s); Some (str_of a, str_of b).

Definition Enrol (subjectDID passphrase : string) : M Srv (result unit) :=
  if passphrase =s "" then mret (Err (ErrMsg "duress: passphrase must not be empty"))
  else
    salt ← rand_read 16;
    match salt with
    | Err e => mret (Err (ErrWrap "duress: generate salt" e))
    | Ok salt => SaveDuressConfig subjectDID
                   (Sha.hex salt +s ":" +s argon2HashDuress (bytes_of passphrase) salt)
    end.
(** Never an error: without a usable record there is no duress. *)
Definition CheckDuress (subjectDID provided : string) : M Srv bool :=
  stored ← GetDuressHash subjectDID;
  mret (match stored with
        | Err _ => false
        | Ok stored =>
            match splitDuressStored stored with
            | None => false
            | Some (saltHex, hashStored) =>
                match hex_decode (bytes_of saltHex) with
                | None => false
                | Some salt => ConstantTimeCompare
                                 (bytes_of (argon2HashDuress (bytes_of provided) salt)) (bytes_of hashStored)
                end
            end
        end).
Definition Remove (subjectDID : string) : M Srv (result unit) := DeleteDuressConfig subjectDID.
End Password.

(** ** Magic links (internal/bridge/providers/magiclink.go) *)

Definition magicLinkTTL : Z := 15 * minute.
Definition hashMagicToken (raw : string) : string := Sha.hex (Sha.Sum256 (bytes_of raw)).
Definition randomToken : M Srv (result string) := b ← rand_read 32; mret (Sha.hex <$> b).

Definition GenerateToken (email : string) : M Srv (result (string * Z)) :=
  raw ← randomToken;
  match raw with
  | Err e => mret (Err e)
  | Ok raw =>
      t1 ← time_now;
      let expiry := (t1 + magicLinkTTL)%Z in
      t2 ← time_now;
      saved ← SaveMagicLinkToken (mkMagicLinkToken (hashMagicToken raw) (normaliseEmail email) expiry t2);
      mret ((λ _, (raw, expiry)) <$> saved)
  end.

Definition VerifyToken (rawToken : string) : M Srv (result ExternalIdentity) :=
  let hash := hashMagicToken rawToken in
  t ← GetMagicLinkToken hash;
  match t with
  | Err _ => mret (Err (ErrMsg "magiclink: invalid or expired token"))
  | Ok t =>
      now ← time_now;
      if (ml_ExpiresAt t <? now)%Z then
        _ ← DeleteMagicLinkToken hash;
        mret (Err (ErrMsg "magiclink: token expired"))
      else
        _ ← DeleteMagicLinkToken hash;
        mret (Ok (mkExternalIdentity "magiclink-email" (ml_Email t) {["email" := ml_Email t]} false))
  end.

(** ** The mapper (internal/bridge/mapper.go) *)

Definition isNotFound (e : error) : bool :=
  is_no_rows e || Contains (error_string e) "no rows" || Contains (error_string e) "not found".

Section Mapper.
Context `{Multibase} `{JsonCodec Document}.
(** The public key crypto/ed25519 derives from a 32-byte seed, and the function
    the server registers for new identities. *)
Context (ed_pub_of_seed : list byte → list byte) (bootstrap : string → ExternalIdentity → M Srv unit).

Definition createIdentity : M Srv (result string) :=
  seed ← rand_read 32;
  match seed with
  | Err e => mret (Err (ErrWrap "bridge: generate key" e))
  | Ok seed =>
  match Did.key_Create (Did.mkCreateOptions "" (ed_pub_of_seed seed) []) with
  | Err e => mret (Err (ErrWrap "bridge: create did:key" e))
  | Ok (didStr, doc) =>
      now ← time_now;
      saved ← SaveIdentity (mkIdentity didStr "key" "" "" "user" "" now now);
      match saved with
      | Err e => mret (Err (ErrWrap "bridge: save identity" e))
      | Ok _ =>
          stored ← SaveDocument doc;
          match stored with
          | Err e => mret (Err (ErrWrap "bridge: save did document" e))
          | Ok _ => mret (Ok didStr)
          end
      end
  end end.

Definition FindOrCreate (ext : ExternalIdentity) : M Srv (result (string * bool)) :=
  link ← GetExternalLink (ext_Provider ext) (ext_ExternalID ext);
  match link with
  | Ok l =>
      now ← time_now;
      _ ← SaveExternalLink (mkExternalProviderLink (l_SubjectDID l) (l_Provider l) (l_ExternalID l)
            (l_LinkedAt l) now);
      mret (Ok (l_SubjectDID l, false))
  | Err e =>
      if negb (isNotFound e) then mret (Err (ErrWrap "bridge: lookup external link" e))
      else
        created ← createIdentity;
        match created with
        | Err e => mret (Err e)
        | Ok subjectDID =>
            now ← time_now;
            saved ← SaveExternalLink (mkExternalProviderLink subjectDID (ext_Provider ext)
                      (ext_ExternalID ext) now now);
            match saved with
            | Err e => mret (Err (ErrWrap "bridge: save external link" e))
            | Ok _ => _ ← bootstrap subjectDID ext; mret (Ok (subjectDID, true))
            end
        end
  end.
End Mapper.

Definition LinkIdentity (subjectDID : string) (ext : ExternalIdentity) : M Srv (result unit) :=
  existing ← GetExternalLink (ext_Provider ext) (ext_ExternalID ext);
  match existing with
  | Ok l =>
      if negb (l_SubjectDID l =s subjectDID)
      then mret (Err (ErrMsg "bridge: external identity already linked to a different DID"))
      else mret (Ok tt)
  | Err e =>
      if negb (isNotFound e) then mret (Err (ErrWrap "bridge: check existing link" e))
      else
        now ← time_now;
        SaveExternalLink (mkExternalProviderLink subjectDID (ext_Provider ext) (ext_ExternalID ext) now now)
  end.

Definition UnlinkIdentity (subjectDID provider externalID : string) : M Srv (result unit) :=
  links ← ListExternalLinks subjectDID;
  match links with
  | Err e => mret (Err (ErrWrap "bridge: list links" e))
  | Ok links =>
      if Nat.leb (length links) 1 then mret (Err (ErrMsg "bridge: cannot unlink last auth method"))
      else DeleteExternalLink provider externalID
  end.
End Bridge.
