(* ===== verification/BridgeProofs.v ===== *)
(** * External identities: properties

    Passwords verify exactly against what was set, magic links work once and in
    time, and the link from an external identity to its platform identifier
    never moves, except that unlinking does not check whose link it removes. *)

From S2P Require Import Prelude GoStd World Sha Base64 Consent StoreTypes Store StoreAuth Logic StoreInv Totp Did Bridge.
Import Types Store StoreAuth StoreInv Bridge.

Module BridgeProofs.
Lemma hex_decode_hex l : hex_decode (bytes_of (Sha.hex l)) = Some l.
Proof. unfold Sha.hex. by rewrite bytes_of_str_of, hex_decode_encode. Qed.
#[local] Opaque Sha.Sum256 Sha.hex hashMagicToken.

Abbreviation db w := (srv_db (w_state w)).

(** ** Passwords *)

Section Password.
Context `{Argon2}.

Lemma split_stored salt hash :
  SplitN (encodeArgon2Hash hash salt) x3a 2 = [Sha.hex salt; Sha.hex hash].
Proof.
  unfold SplitN, encodeArgon2Hash. rewrite !bytes_of_append.
  change (bytes_of ":") with [x3a]. cbn [app].
  assert (∀ l, Forall (λ c, beqb c x3a = false) (bytes_of (Sha.hex l))) as Hx.
  { intros l. eapply Forall_impl; [by apply (Sha.hex_avoids x3a)|]. intros c Hc.
    by destruct (beqb_spec c x3a). }
  rewrite bsplit_n_plain, bsplit_n_last by done. simpl. by rewrite !str_of_bytes_of.
Qed.

Lemma verifyArgon2_encode pw pw' salt :
  verifyArgon2 pw' (encodeArgon2Hash (hashPassword pw salt) salt) = Ok tt ↔
  hashPassword pw' salt = hashPassword pw salt.
Proof.
  unfold verifyArgon2. rewrite split_stored, !hex_decode_hex. unfold ConstantTimeCompare.
  case_bool_decide; simpl; naive_solver.
Qed.

(** after a password is set, a login under any spelling of the identifier
    that normalises to the same address succeeds exactly with a password that
    has the same Argon2 digest under the stored salt; in particular with the
    password that was set. *)
Theorem password_roundtrip id pw id' pw' w w1 w2 :
  SetPassword id pw w = (Ok tt, w1) →
  normaliseEmail id' = normaliseEmail id →
  passwords (db w2) !! normaliseEmail id = passwords (db w1) !! normaliseEmail id →
  no_faults w2 →
  12 ≤ length (bytes_of pw) ∧
  ∃ f, w_rand w (w_nrand w) = Some f ∧
    (is_ok (fst (VerifyCredentials id' pw' w2)) = true ↔
     hashPassword pw' (f <$> seq 0 pwSaltLen) = hashPassword pw (f <$> seq 0 pwSaltLen)).
Proof.
  intros Hset Hid Hrow Hnf. destruct w as [clk nc rnd nr flt nf [d rev evs]].
  unfold SetPassword in Hset. destruct (Nat.ltb_spec (length (bytes_of pw)) 12) as [|Hlen]; [done|].
  split; [done|]. unfold SavePasswordHash, current_timestamp, mbind, M_bind, rand_read in Hset. simpl in Hset.
  destruct (rnd nr) as [f|] eqn:Er; [|done]. exists f. split; [done|].
  unfold exec, on_db, db_call in Hset. simpl in Hset. destruct (flt nf); [done|]. injection Hset as <-.
  simpl in Hrow. rewrite lookup_insert_eq in Hrow.
  destruct w2 as [clk2 nc2 rnd2 nr2 flt2 nf2 [d2 rev2 evs2]]. simpl in Hrow.
  unfold VerifyCredentials, GetPasswordHash, query, on_db, db_call, mbind, M_bind. simpl.
  unfold no_faults in Hnf. simpl in Hnf. rewrite Hnf, Hid. unfold select. rewrite Hrow. simpl.
  rewrite <-verifyArgon2_encode. unfold pwSaltLen. destruct (verifyArgon2 _ _) as [[]|]; simpl; naive_solver.
Qed.
End Password.

(** ** Magic links *)

(** a magic link that verifies was stored, had not expired, and yields the
    identity of the address it was made for; it is deleted, so that presenting
    it again, at any time, is refused. *)
Theorem magic_link_once raw w w1 ext :
  VerifyToken raw w = (Ok ext, w1) → no_faults w →
  (∃ t, magic_link_tokens (db w) !! hashMagicToken raw = Some t ∧
    (w_clock w (w_nclock w) ≤ ml_ExpiresAt t)%Z ∧
    ext_Provider ext = "magiclink-email" ∧ ext_ExternalID ext = ml_Email t) ∧
  magic_link_tokens (db w1) = delete (hashMagicToken raw) (magic_link_tokens (db w)) ∧
  ∀ w2, magic_link_tokens (db w2) = magic_link_tokens (db w1) → is_ok (fst (VerifyToken raw w2)) = false.
Proof.
  destruct w as [clk nc rnd nr flt nf [d rev evs]]. intros Hv Hnf. unfold no_faults in Hnf. simpl in Hnf.
  unfold VerifyToken, GetMagicLinkToken, DeleteMagicLinkToken, exec, query, on_db, db_call, mbind, M_bind in Hv.
  simpl in Hv. rewrite Hnf in Hv. simpl in Hv. unfold select in Hv.
  destruct (magic_link_tokens d !! _) as [t|] eqn:Et; [|done]. simpl in Hv.
  destruct (Z.ltb_spec (ml_ExpiresAt t) (clk nc)); simpl in Hv; rewrite Hnf in Hv; [done|].
  injection Hv as <- <-. simpl. split; [eauto 6|split; [done|]].
  intros [clk2 nc2 rnd2 nr2 flt2 nf2 [d2 rev2 evs2]] Hd. simpl in Hd.
  unfold VerifyToken, GetMagicLinkToken, query, on_db, db_call, mbind, M_bind. simpl.
  destruct (flt2 nf2); [done|]. simpl. rewrite Hd. unfold select. by rewrite lookup_delete_eq.
Qed.

(** ** The mapper *)

(** The platform identifier an external identity is linked to. *)
Definition linked_to (d : DB) (k : string * string) : option string :=
  l_SubjectDID <$> external_provider_links d !! k.

(** Errors of the driver do not read like a missing row. *)
Definition honest_faults (flt : nat → option string) : Prop :=
  ∀ n msg, flt n = Some msg → isNotFound (ErrWrap "get external link" (ErrDriver msg)) = false.

Lemma linked_to_upsert l d k did :
  linked_to d k = Some did →
  (k = (l_Provider l, l_ExternalID l) → l_SubjectDID l = did) →
  linked_to (set_external_provider_links
    (upsert link_merge (l_Provider l, l_ExternalID l) l (external_provider_links d)) d) k = Some did.
Proof.
  intros Hk Hl. unfold linked_to in *. simpl. unfold upsert.
  destruct (decide (k = (l_Provider l, l_ExternalID l))) as [->|Hne].
  - destruct (external_provider_links d !! _); [|done]. rewrite lookup_insert_eq. simpl. by rewrite Hl.
  - destruct (external_provider_links d !! (_, _)); by rewrite lookup_insert_ne.
Qed.

Section Mapper.
Context `{Multibase} `{JsonCodec Document}.
Context (ed_pub_of_seed : list byte → list byte) (bootstrap : string → ExternalIdentity → M Srv unit).
(** Issuing the first credentials leaves the links alone. *)
Hypothesis bootstrap_links : ∀ did ext w,
  external_provider_links (db (snd (bootstrap did ext w))) = external_provider_links (db w).

Lemma createIdentity_links w :
  external_provider_links (db (snd (createIdentity ed_pub_of_seed w))) = external_provider_links (db w).
Proof.
  enough (wp (createIdentity ed_pub_of_seed)
    (λ _ w', external_provider_links (db w') = external_provider_links (db w)) w) by done.
  destruct w as [clk nc rnd nr flt nf [d rev evs]]. unfold createIdentity, SaveIdentity, SaveDocument.
  repeat (wp_step; try done).
Qed.

(** What the mapper writes for the identity [ext] leaves the links of [d] in place. *)
Definition harmless (ext : ExternalIdentity) (d : DB) (k : string * string) (did : string) : Prop :=
  let K := (ext_Provider ext, ext_ExternalID ext) in
  (∀ l t, external_provider_links d !! K = Some l →
    linked_to (set_external_provider_links (upsert link_merge (l_Provider l, l_ExternalID l)
      (mkExternalProviderLink (l_SubjectDID l) (l_Provider l) (l_ExternalID l) (l_LinkedAt l) t)
      (external_provider_links d)) d) k = Some did) ∧
  (∀ s t d2, external_provider_links d !! K = None →
    external_provider_links d2 = external_provider_links d →
    linked_to (set_external_provider_links (upsert link_merge K
      (mkExternalProviderLink s (ext_Provider ext) (ext_ExternalID ext) t t)
      (external_provider_links d2)) d2) k = Some did).
Lemma linked_harmless ext d k did :
  keyed (λ l, (l_Provider l, l_ExternalID l)) (external_provider_links d) →
  linked_to d k = Some did → harmless ext d k did.
Proof.
  intros Hkey Hk. split.
  - intros l t Hl. pose proof (Hkey _ _ Hl) as HK. simpl in HK.
    apply (linked_to_upsert (mkExternalProviderLink (l_SubjectDID l) (l_Provider l) (l_ExternalID l)
      (l_LinkedAt l) t)); [done|]. cbn. intros Ek.
    unfold linked_to in Hk. rewrite Ek, HK in Hk. rewrite Hl in Hk. by injection Hk.
  - intros s t d2 HN Hd2. apply (linked_to_upsert (mkExternalProviderLink s (ext_Provider ext)
      (ext_ExternalID ext) t t)).
    { unfold linked_to in *. by rewrite Hd2. }
    cbn. intros ->. unfold linked_to in Hk. by rewrite HN in Hk.
Qed.

Lemma GetExternalLink_cases p e w :
  honest_faults (w_fault w) →
  ∃ w', w_state w' = w_state w ∧
    ((∃ l, external_provider_links (db w) !! (p, e) = Some l ∧ GetExternalLink p e w = (Ok l, w')) ∨
     ∃ err, GetExternalLink p e w = (Err err, w') ∧
       (isNotFound err = true → external_provider_links (db w) !! (p, e) = None)).
Proof.
  destruct w as [clk nc rnd nr flt nf [d rev evs]]. simpl. intros Hh.
  unfold GetExternalLink, query, on_db, db_call, mbind, M_bind. simpl.
  exists (mkWorld clk nc rnd nr flt (S nf) (mkSrv d rev evs)). split; [done|].
  destruct (flt nf) as [msg|] eqn:E; simpl.
  - right. eexists. split; [reflexivity|]. intros Hn. by rewrite (Hh nf msg E) in Hn.
  - unfold select.
    destruct (external_provider_links d !! (p, e)) as [l|]; simpl; [left|right]; by eexists.
Qed.

Lemma SaveExternalLink_cases l w :
  ∃ r w', SaveExternalLink l w = (r, w') ∧
    (w_state w' = w_state w ∨
     db w' = set_external_provider_links
       (upsert link_merge (l_Provider l, l_ExternalID l) l (external_provider_links (db w))) (db w)).
Proof.
  destruct w as [clk nc rnd nr flt nf [d rev evs]].
  unfold SaveExternalLink, exec, on_db, db_call. simpl. destruct (flt nf); simpl; eauto 6.
Qed.

(** looking up or linking external identities never moves a link: whatever
    identity is presented, an external identity that is linked stays linked to
    the same platform identifier, and presenting it again yields that identifier. *)
Theorem links_never_move ext did' k did w :
  keyed (λ l, (l_Provider l, l_ExternalID l)) (external_provider_links (db w)) →
  honest_faults (w_fault w) → linked_to (db w) k = Some did →
  linked_to (db (snd (FindOrCreate ed_pub_of_seed bootstrap ext w))) k = Some did ∧
  linked_to (db (snd (LinkIdentity did' ext w))) k = Some did ∧
  (k = (ext_Provider ext, ext_ExternalID ext) →
    ∀ r, fst (FindOrCreate ed_pub_of_seed bootstrap ext w) = Ok r → r = (did, false)).
Proof.
  intros Hkey Hhon Hk. destruct (linked_harmless ext _ _ _ Hkey Hk) as [Hold Hnew].
  destruct (GetExternalLink_cases (ext_Provider ext) (ext_ExternalID ext) w Hhon)
    as (w1 & Hs1 & [(l & Hl & Hg)|(err & Hg & Hnf)]);
    unfold FindOrCreate, LinkIdentity, mbind, M_bind; rewrite Hg.
  - unfold time_now. set (w2 := mkWorld _ _ _ _ _ _ _).
    assert (w_state w2 = w_state w) as Hs2 by done.
    split; [|split].
    + match goal with |- context [SaveExternalLink ?x w2] => destruct (SaveExternalLink_cases x w2) as (r & w3 & E & Hd) end.
      rewrite E. simpl. destruct Hd as [-> | ->]; rewrite Hs2; [exact Hk|exact (Hold l _ Hl)].
    + destruct (negb _); simpl; by rewrite Hs1.
    + intros -> r. destruct (SaveExternalLink _ w2) as [r' w3]. intros [= <-].
      unfold linked_to in Hk. rewrite Hl in Hk. by injection Hk as <-.
  - destruct (isNotFound err) eqn:En; simpl; [|split; [by rewrite Hs1|split; [by rewrite Hs1|done]]].
    specialize (Hnf eq_refl). split; [|split].
    + pose proof (createIdentity_links w1) as Hc. destruct (createIdentity _ w1) as [[s|e] w2]; simpl in *.
      2:{ unfold linked_to. by rewrite Hc, Hs1. }
      set (w3 := mkWorld _ _ _ _ _ _ _). assert (w_state w3 = w_state w2) as Hs3 by done.
      match goal with |- context [SaveExternalLink ?x w3] => destruct (SaveExternalLink_cases x w3) as (r & w4 & E & Hd) end.
      rewrite E. assert (linked_to (db w4) k = Some did) as Hw4.
      { destruct Hd as [-> | ->]; rewrite Hs3; [|refine (Hnew _ _ (db w2) Hnf _); by rewrite Hc, Hs1].
        unfold linked_to. by rewrite Hc, Hs1. }
      destruct r; simpl; [|done]. pose proof (bootstrap_links s ext w4) as Hb.
      destruct (bootstrap s ext w4) as [[] w5]. simpl in *. unfold linked_to. by rewrite Hb.
    + set (w3 := mkWorld _ _ _ _ _ _ _). assert (w_state w3 = w_state w) as Hs3 by done.
      match goal with |- context [SaveExternalLink ?x w3] => destruct (SaveExternalLink_cases x w3) as (r & w4 & E & Hd) end.
      rewrite E. simpl. destruct Hd as [-> | ->]; rewrite Hs3; [exact Hk|exact (Hnew _ _ (db w) Hnf eq_refl)].
    + intros ->. unfold linked_to in Hk. by rewrite Hnf in Hk.
Qed.
End Mapper.

(** ** Unlinking *)

Lemma length_order_by {A} (key : A → Z) l : length (order_by key l) = length l.
Proof. by rewrite order_by_perm. Qed.
Lemma two_elements {A} (x y : A) l : x ∈ l → y ∈ l → x ≠ y → 1 < length l.
Proof.
  intros Hx Hy Hne. destruct l as [|a [|b l]]; [set_solver| |simpl; lia].
  apply list_elem_of_singleton in Hx, Hy. congruence.
Qed.

(** whoever has two links of their own can remove anyone's: the link that is
    deleted is not checked to be the caller's. *)
Theorem unlink_foreign a b k1 k2 p e w :
  no_faults w → k1 ≠ k2 → a ≠ b →
  keyed (λ l, (l_Provider l, l_ExternalID l)) (external_provider_links (db w)) →
  linked_to (db w) k1 = Some a → linked_to (db w) k2 = Some a → linked_to (db w) (p, e) = Some b →
  fst (UnlinkIdentity a p e w) = Ok tt ∧ linked_to (db (snd (UnlinkIdentity a p e w))) (p, e) = None.
Proof.
  intros Hnf Hne _ Hkey H1 H2 _. destruct w as [clk nc rnd nr flt nf [d rev evs]].
  unfold no_faults in Hnf. cbn in Hnf, Hkey, H1, H2. unfold linked_to in H1, H2.
  destruct (external_provider_links d !! k1) as [l1|] eqn:E1; [|done].
  destruct (external_provider_links d !! k2) as [l2|] eqn:E2; [|done].
  simpl in H1, H2. injection H1 as H1. injection H2 as H2.
  unfold UnlinkIdentity, ListExternalLinks, DeleteExternalLink, exec, query, on_db, db_call, mbind, M_bind.
  simpl. rewrite Hnf. simpl. unfold order_by_desc. rewrite length_order_by.
  assert (1 < length (rows (λ l, l_SubjectDID l =s a) (external_provider_links d))) as Hlen.
  { apply (two_elements l1 l2).
    - apply elem_of_rows. split; [by apply String.eqb_eq|by exists k1].
    - apply elem_of_rows. split; [by apply String.eqb_eq|by exists k2].
    - intros ->. pose proof (Hkey _ _ E1). pose proof (Hkey _ _ E2). congruence. }
  destruct (Nat.leb_spec (length (rows (λ l, l_SubjectDID l =s a) (external_provider_links d))) 1); [lia|].
  simpl. rewrite Hnf. simpl. split; [done|]. unfold linked_to. simpl. by rewrite lookup_delete_eq.
Qed.

(** ** Instances *)

#[local] Instance sum_argon2 : Argon2 := {| argon2_id pw salt := pw ++ salt |}.
#[local] Instance hex_multibase' : Multibase := {|
  base58btc_encode b := Ok (str_of (hex_encode b));
  multibase_decode s := of_option (ErrMsg "decode") (hex_decode (bytes_of s)) |}.
#[local] Instance no_documents' : JsonCodec Document := {|
  json_marshal _ := Ok "{}"; json_unmarshal _ := Err (ErrMsg "unused") |}.

Definition quiet (d : DB) : World Srv :=
  mkWorld (λ _, 0%Z) 0 (λ _, Some (λ _, x07)) 0 (λ _, None) 0 (mkSrv d ∅ []).
Lemma password_roundtrip_witness :
  let w := quiet (empty_db true) in
  let w1 := snd (SetPassword "Eve@Example.org " "correct horse" w) in
  is_ok (fst (VerifyCredentials "eve@example.org" "correct horse" w1)) = true.
Proof.
  intros w w1.
  destruct (password_roundtrip "Eve@Example.org " "correct horse" "eve@example.org" "correct horse" w w1 w1)
    as (_ & f & _ & Hv).
  - reflexivity.
  - reflexivity.
  - reflexivity.
  - intros n. reflexivity.
  - apply Hv. reflexivity.
Defined.

Definition link (did p e : string) : ExternalProviderLink := mkExternalProviderLink did p e 0 0.
Definition links_db : DB := set_external_provider_links
  (<[("a", "1") := link "did:key:a" "a" "1"]> (<[("a", "2") := link "did:key:a" "a" "2"]>
    {[("b", "1") := link "did:key:b" "b" "1"]})) (empty_db true).
Lemma links_db_keyed : keyed (λ l, (l_Provider l, l_ExternalID l)) (external_provider_links links_db).
Proof.
  apply keyed_insert; [done|]. apply keyed_insert; [done|]. intros k v. rewrite lookup_singleton_Some. by intros [<- <-].
Qed.

Definition magic_db : DB := set_magic_link_tokens
  {[hashMagicToken "t" := mkMagicLinkToken (hashMagicToken "t") "eve@example.org" 10 0]} (empty_db true).
Lemma magic_link_once_witness :
  is_ok (fst (VerifyToken "t" (quiet magic_db))) = true ∧
  is_ok (fst (VerifyToken "t" (snd (VerifyToken "t" (quiet magic_db))))) = false.
Proof.
  assert (fst (VerifyToken "t" (quiet magic_db)) =
    Ok (mkExternalIdentity "magiclink-email" "eve@example.org" {["email" := "eve@example.org"]} false)) as E.
  { vm_compute. reflexivity. }
  split; [by rewrite E|].
  apply (magic_link_once "t" (quiet magic_db) (snd (VerifyToken "t" (quiet magic_db)))
    (mkExternalIdentity "magiclink-email" "eve@example.org" {["email" := "eve@example.org"]} false)).
  - rewrite <-E. exact (surjective_pairing _).
  - intros n. reflexivity.
  - reflexivity.
Defined.

Definition no_bootstrap : string → ExternalIdentity → M Srv unit := λ _ _, mret tt.
Lemma links_never_move_witness :
  let ext := mkExternalIdentity "b" "1" ∅ false in
  linked_to (db (snd (FindOrCreate (λ s, s) no_bootstrap ext (quiet links_db)))) ("b", "1") = Some "did:key:b" ∧
  linked_to (db (snd (LinkIdentity "did:key:c" ext (quiet links_db)))) ("b", "1") = Some "did:key:b".
Proof.
  destruct (links_never_move (λ s, s) no_bootstrap (λ _ _ _, eq_refl)
    (mkExternalIdentity "b" "1" ∅ false) "did:key:c" ("b", "1") "did:key:b" (quiet links_db) links_db_keyed)
    as (H1 & H2 & _).
  - intros n msg [=].
  - reflexivity.
  - exact (conj H1 H2).
Defined.

Lemma unlink_foreign_witness :
  linked_to (db (snd (UnlinkIdentity "did:key:a" "b" "1" (quiet links_db)))) ("b", "1") = None.
Proof.
  apply (unlink_foreign "did:key:a" "did:key:b" ("a", "1") ("a", "2") "b" "1" (quiet links_db)).
  - intros n. reflexivity.
  - discriminate.
  - discriminate.
  - exact links_db_keyed.
  - reflexivity.
  - reflexivity.
  - reflexivity.
Defined.
End BridgeProofs.
