(* ===== verification/BridgeApi.v ===== *)
(** * Login, linking and second factors over HTTP (api/bridge.go, api/password.go,
    api/mfa.go, api/duress.go)

    The handlers, composed from the components they call: the bridge providers
    and mapper, the failure counters, the one-time passwords, the provider's
    sessions and the event bus. *)

From S2P Require Import Prelude GoStd World Sha Base64 Json JsonValue Http Consent StoreTypes Store.
From S2P Require Import StoreAuth Logic Totp Lockout Events AuditLog Jwt Provider Did Bridge.
Import JsonValue Http Types Store StoreAuth Jwt Provider Bridge.

Module BridgeApi.

Definition StatusAccepted : Z := 202.
Definition StatusBadGateway : Z := 502.

Definition writeJSONError (status : Z) (code description : string) : Response :=
  JsonResp status [("error", JStr code); ("error_description", JStr description)].

(** [json.NewDecoder(r.Body).Decode] into a struct: its members, none for null. *)
Definition body_object (r : Request) : option (list (string * json)) :=
  match rq_body r with
  | Some (JObj l) => Some l
  | Some JNull => Some []
  | _ => None
  end.

(** ** The bridges and their dynamic types *)

(** What is registered: the provider's type with the calls it makes over the
    network as functions. *)
Inductive BridgeImpl :=
| PasswordBridge
| RedirectProvider (AuthorizationURL : string → result string) (ExchangeCode : string → result ExternalIdentity)
| SAMLProvider (PrepareAuth : result (string * string)) (ProcessACS : Request → list string → result ExternalIdentity)
| DirectoryProvider (Authenticate : Request → result ExternalIdentity).

(** A method of a Go type: its name, parameter and result types. *)
Record Method := mkMethod { m_name : string; m_params : list string; m_results : list string }.
#[export] Instance Method_eq_dec : EqDecision Method.
Proof. solve_decision. Defined.

Definition base_methods : list Method :=
  [mkMethod "Name" [] ["string"];
   mkMethod "Authenticate" ["context.Context"; "*http.Request"] ["*bridge.ExternalIdentity"; "error"]].
Definition method_set (b : BridgeImpl) : list Method :=
  base_methods ++
  match b with
  | PasswordBridge =>
      [mkMethod "VerifyCredentials" ["context.Context"; "string"; "string"] ["*bridge.ExternalIdentity"; "error"];
       mkMethod "SetPassword" ["context.Context"; "string"; "string"] ["error"]]
  | RedirectProvider _ _ =>
      [mkMethod "AuthorizationURL" ["context.Context"; "string"] ["string"; "error"];
       mkMethod "ExchangeCode" ["context.Context"; "string"] ["*bridge.ExternalIdentity"; "error"]]
  | SAMLProvider _ _ =>
      [mkMethod "MetadataHandler" ["http.ResponseWriter"; "*http.Request"] [];
       mkMethod "PrepareAuth" ["context.Context"] ["string"; "string"; "error"];
       mkMethod "ProcessACS" ["*http.Request"; "[]string"] ["*bridge.ExternalIdentity"; "error"]]
  | DirectoryProvider _ => []
  end.
(** [b.(I)]: the type has every method of the interface, with that very type. *)
Definition implements (b : BridgeImpl) (iface : list Method) : bool :=
  forallb (λ m, bool_decide (m ∈ method_set b)) iface.
(** api/password.go: the interface of the password handlers. *)
Definition passwordBridge : list Method :=
  [mkMethod "VerifyCredentials" ["context.Context"; "string"; "string"] ["any"; "error"];
   mkMethod "SetPassword" ["context.Context"; "string"; "string"] ["error"]].

(** [Manager.Register] panics on a name that is taken. *)
Definition Register (name : string) (b : BridgeImpl) (m : gmap string BridgeImpl) : option (gmap string BridgeImpl) :=
  match m !! name with Some _ => None | None => Some (<[name := b]> m) end.

Record Server := mkServer {
  sv_oidc : Provider.Provider;
  sv_issuer : string;
  sv_apiKey : string;
  sv_totpPassphrase : string;
  sv_bridges : gmap string BridgeImpl }.
(** The bus the handlers publish on: [NewServer] makes one of its own, with a delivery
    hook that counts for the metrics and no in-process subscriber. *)
Definition server_bus : Events.Bus := Events.NewBus.

(** ** The signed state token *)

Record bridgeState := mkBridgeState {
  bs_ClientID : string; bs_RedirectURI : string; bs_Scope : string; bs_Nonce : string;
  bs_OrigState : string; bs_CodeChallenge : string; bs_CodeChallengeMethod : string;
  bs_LinkFor : string; bs_AuthnRequestID : string; bs_CreatedAt : Z }.
Definition empty_state : bridgeState := mkBridgeState "" "" "" "" "" "" "" "" "" 0.

Definition state_json (st : bridgeState) : json :=
  JObj ([("client_id", JStr (bs_ClientID st)); ("redirect_uri", JStr (bs_RedirectURI st));
         ("scope", JStr (bs_Scope st)); ("nonce", JStr (bs_Nonce st))] ++
        opt_field "orig_state" (bs_OrigState st) ++ opt_field "code_challenge" (bs_CodeChallenge st) ++
        opt_field "code_challenge_method" (bs_CodeChallengeMethod st) ++
        opt_field "link_for" (bs_LinkFor st) ++ opt_field "authn_request_id" (bs_AuthnRequestID st) ++
        [("created_at", JInt (bs_CreatedAt st))]).
Definition decode_state (l : list (string * json)) : option bridgeState :=
  c ← str_field "client_id" l; ru ← str_field "redirect_uri" l; sc ← str_field "scope" l;
  n ← str_field "nonce" l; os ← str_field "orig_state" l; cc ← str_field "code_challenge" l;
  ccm ← str_field "code_challenge_method" l; lf ← str_field "link_for" l;
  ar ← str_field "authn_request_id" l; ca ← int_field "created_at" l;
  Some (mkBridgeState c ru sc n os cc ccm lf ar ca).
Definition unmarshal_state (raw : list byte) : option bridgeState :=
  match parse raw with
  | Some (JObj l) => decode_state l
  | Some JNull => Some empty_state
  | _ => None
  end.

Section State.
Context (s : Server).
Definition state_mac (payload : string) : string :=
  Sha.hex (Sha.hmac Sha.Sum256 (bytes_of (sv_apiKey s)) (bytes_of payload)).
Definition signBridgeState (st : bridgeState) : string :=
  let payload := Base64.EncodeToString (marshal (state_json st)) in
  payload +s "." +s state_mac payload.
Definition verifyBridgeState (token : string) : M Srv (result bridgeState) :=
  match SplitN token x2e 2 with
  | [p0; p1] =>
      if negb (ConstantTimeCompare (bytes_of p1) (bytes_of (state_mac p0)))
      then mret (Err (ErrMsg "invalid state token signature"))
      else match Base64.DecodeString p0 with
           | None => mret (Err (ErrMsg "illegal base64 data"))
           | Some raw =>
               match unmarshal_state raw with
               | None => mret (Err (ErrMsg "json: cannot unmarshal"))
               | Some st =>
                   now ← time_now;
                   if (600 <? unix now - bs_CreatedAt st)%Z
                   then mret (Err (ErrMsg "state token expired")) else mret (Ok st)
               end
           end
  | _ => mret (Err (ErrMsg "invalid state token"))
  end.
End State.

(** ** Handlers *)

Section Handlers.
Context `{Ed25519} `{Multibase} `{JsonCodec Document} `{Argon2} `{AesGcm}.
Context (ed_pub_of_seed : list byte → list byte) (bootstrap : string → ExternalIdentity → M Srv unit).
Context (s : Server).

Definition subject_of (r : Request) : M Srv (result string) :=
  SubjectFromBearer (sv_oidc s) (Header r "Authorization").
Definition unauthorized : Response := HttpError StatusUnauthorized "unauthorized".

Definition finishBridgeAuth (r : Request) (ext : ExternalIdentity) (st : bridgeState) : M Srv Response :=
  if negb (bs_LinkFor st =s "") then
    linked ← LinkIdentity (bs_LinkFor st) ext;
    match linked with
    | Err e => mret (HttpError StatusConflict ("link failed: " +s error_string e))
    | Ok _ => mret (JsonResp StatusOK [("provider", JStr (ext_Provider ext)); ("status", JStr "linked")])
    end
  else
  found ← FindOrCreate ed_pub_of_seed bootstrap ext;
  match found with
  | Err e => mret (HttpError StatusInternalServerError ("identity resolution failed: " +s error_string e))
  | Ok (subjectDID, _) =>
      _ ← (if ext_Duress ext
           then Events.Publish server_bus "session.duress"
                  (Some (JObj [("provider", JStr (ext_Provider ext)); ("subject_did", JStr subjectDID)]))
           else mret tt);
      if negb (bs_ClientID st =s "") && negb (bs_RedirectURI st =s "") then
        code ← IssueSessionForDIDCtx r subjectDID (bs_ClientID st) (bs_RedirectURI st) (bs_Scope st)
                 (bs_Nonce st) (bs_CodeChallenge st) (bs_CodeChallengeMethod st);
        match code with
        | Err e => mret (HttpError StatusInternalServerError ("session error: " +s error_string e))
        | Ok authCode =>
            let redirect := bs_RedirectURI st +s "?code=" +s authCode in
            let redirect := if bs_OrigState st =s "" then redirect
                            else redirect +s "&state=" +s bs_OrigState st in
            mret (Redirect redirect)
        end
      else mret (JsonResp StatusOK [("did", JStr subjectDID); ("provider", JStr (ext_Provider ext))])
  end.

(** *** Password login *)

Record PasswordRequest := mkPasswordRequest {
  pq_Identifier : string; pq_Password : string; pq_ClientID : string; pq_RedirectURI : string;
  pq_Scope : string; pq_Nonce : string; pq_State : string; pq_CodeChallenge : string;
  pq_CodeChallengeMethod : string }.
Definition decode_password_request (r : Request) : option PasswordRequest :=
  l ← body_object r;
  i ← str_field "identifier" l; pw ← str_field "password" l; c ← str_field "client_id" l;
  ru ← str_field "redirect_uri" l; sc ← str_field "scope" l; n ← str_field "nonce" l;
  st ← str_field "state" l; cc ← str_field "code_challenge" l; ccm ← str_field "code_challenge_method" l;
  Some (mkPasswordRequest i pw c ru sc n st cc ccm).

Definition handlePasswordAuth (r : Request) : M Srv Response :=
  match decode_password_request r with
  | None => mret (HttpError StatusBadRequest "invalid request")
  | Some req =>
  if (pq_Identifier req =s "") || (pq_Password req =s "")
  then mret (HttpError StatusBadRequest "identifier and password required") else
  match sv_bridges s !! "password" with
  | None => mret (HttpError StatusNotFound "password authentication not configured")
  | Some PasswordBridge =>
      ext ← VerifyCredentials (pq_Identifier req) (pq_Password req);
      match ext with
      | Err _ =>
          _ ← Lockout.RecordFailure (pq_Identifier req);
          mret (HttpError StatusUnauthorized "invalid credentials")
      | Ok ext =>
          _ ← Lockout.RecordSuccess (pq_Identifier req);
          found ← FindOrCreate ed_pub_of_seed bootstrap ext;
          isDuress ← match found with
                     | Ok (subjectDID, _) => CheckDuress subjectDID (pq_Password req)
                     | Err _ => mret false
                     end;
          let ext := mkExternalIdentity (ext_Provider ext) (ext_ExternalID ext) (ext_Claims ext)
                       (isDuress || ext_Duress ext) in
          now ← time_now;
          finishBridgeAuth r ext (mkBridgeState (pq_ClientID req) (pq_RedirectURI req) (pq_Scope req)
            (pq_Nonce req) (pq_State req) (pq_CodeChallenge req) (pq_CodeChallengeMethod req) "" "" (unix now))
      end
  | Some _ => mret (HttpError StatusInternalServerError "password provider misconfigured")
  end end.

(** *** Redirect and SAML flows *)

(** [url.QueryEscape]. *)
Definition query_escape_byte (c : byte) : list byte :=
  if Totp.unreserved c then [c]
  else if beqb c x20 then [x2b]
  else x25 :: (upper_byte <$> hex_byte c).
Definition QueryEscape (t : string) : string := str_of (mjoin (query_escape_byte <$> bytes_of t)).

(** The parameters of the initiating client; a signed-in subject may ask to link. *)
Definition start_state (r : Request) (linkFor requestID : string) (now : Z) : bridgeState :=
  mkBridgeState (Query r "client_id") (Query r "redirect_uri") (Query r "scope") (Query r "nonce")
    (Query r "state") (Query r "code_challenge") (Query r "code_challenge_method") linkFor requestID (unix now).

Definition startRedirectBridge (r : Request) (AuthorizationURL : string → result string) : M Srv Response :=
  now ← time_now;
  subject ← subject_of r;
  let linkFor := match subject with
                 | Ok subjectDID => if Query r "link" =s "true" then subjectDID else ""
                 | Err _ => ""
                 end in
  match AuthorizationURL (signBridgeState s (start_state r linkFor "" now)) with
  | Err e => mret (HttpError StatusBadGateway ("upstream error: " +s error_string e))
  | Ok authURL => mret (Redirect authURL)
  end.

(** The SAML flow carries no PKCE parameters. *)
Definition startSAMLBridge (r : Request) (PrepareAuth : result (string * string)) : M Srv Response :=
  match PrepareAuth with
  | Err e => mret (HttpError StatusBadGateway ("saml error: " +s error_string e))
  | Ok (idpURL, requestID) =>
      now ← time_now;
      let relayState := signBridgeState s (mkBridgeState (Query r "client_id") (Query r "redirect_uri")
        (Query r "scope") (Query r "nonce") (Query r "state") "" "" "" requestID (unix now)) in
      let sep := if Contains idpURL "?" then "&" else "?" in
      mret (Redirect (idpURL +s sep +s "RelayState=" +s QueryEscape relayState))
  end.

Definition handleBridgeStart (r : Request) : M Srv Response :=
  match sv_bridges s !! PathValue r "provider" with
  | None => mret (HttpError StatusNotFound "unknown provider")
  | Some (RedirectProvider url _) => startRedirectBridge r url
  | Some (SAMLProvider prepare _) => startSAMLBridge r prepare
  | Some _ => mret (HttpError StatusBadRequest "provider does not support browser-based authentication")
  end.

Definition handleBridgeCallback (r : Request) : M Srv Response :=
  match sv_bridges s !! PathValue r "provider" with
  | None => mret (HttpError StatusNotFound "unknown provider")
  | Some (RedirectProvider _ exchange) =>
      let code := Query r "code" in
      let rawState := Query r "state" in
      if (code =s "") || (rawState =s "") then mret (HttpError StatusBadRequest "missing code or state")
      else
        st ← verifyBridgeState s rawState;
        match st with
        | Err e => mret (HttpError StatusBadRequest ("invalid state: " +s error_string e))
        | Ok st =>
            match exchange code with
            | Err e => mret (HttpError StatusUnauthorized ("upstream auth failed: " +s error_string e))
            | Ok ext => finishBridgeAuth r ext st
            end
        end
  | Some _ => mret (HttpError StatusBadRequest "provider does not support callback flow")
  end.

Definition handleSAMLACS (r : Request) : M Srv Response :=
  match sv_bridges s !! PathValue r "provider" with
  | None => mret (HttpError StatusNotFound "unknown provider")
  | Some (SAMLProvider _ process) =>
      match rq_form r with
      | None => mret (HttpError StatusBadRequest "malformed form data")
      | Some _ =>
          let relayState := FormValue r "RelayState" in
          st ← (if relayState =s "" then mret empty_state
                else parsed ← verifyBridgeState s relayState;
                     mret (match parsed with Ok st => st | Err _ => empty_state end));
          let requestIDs := if bs_AuthnRequestID st =s "" then [] else [bs_AuthnRequestID st] in
          match process r requestIDs with
          | Err e => mret (HttpError StatusUnauthorized ("SAML authentication failed: " +s error_string e))
          | Ok ext => finishBridgeAuth r ext st
          end
      end
  | Some _ => mret (HttpError StatusBadRequest "provider is not a SAML provider")
  end.

(** *** Magic links *)

Definition handleMagicLinkRequest (r : Request) : M Srv Response :=
  match (l ← body_object r; e ← str_field "email" l; c ← str_field "client_id" l;
         ru ← str_field "redirect_uri" l; sc ← str_field "scope" l; n ← str_field "nonce" l;
         Some (e, c, ru, sc, n)) with
  | None => mret (HttpError StatusBadRequest "invalid request")
  | Some (email, clientID, redirectURI, scope, nonce) =>
      if email =s "" then mret (HttpError StatusBadRequest "email required") else
      tok ← GenerateToken email;
      match tok with
      | Err _ => mret (HttpError StatusInternalServerError "internal error")
      | Ok (rawToken, expiresAt) =>
          let verifyURL := sv_issuer s +s "/auth/magiclink/verify?token=" +s rawToken in
          url ← (if clientID =s "" then mret verifyURL
                 else now ← time_now;
                      mret (verifyURL +s "&state=" +s signBridgeState s
                        (mkBridgeState clientID redirectURI scope nonce "" "" "" "" "" (unix now))));
          mret (JsonResp StatusAccepted [("expires_at", JStr (Events.rfc3339 expiresAt)); ("verify_url", JStr url)])
      end
  end.

Definition handleMagicLinkVerify (r : Request) : M Srv Response :=
  let rawToken := Query r "token" in
  let rawState := Query r "state" in
  if rawToken =s "" then mret (HttpError StatusBadRequest "missing token") else
  ext ← VerifyToken rawToken;
  match ext with
  | Err _ => mret (HttpError StatusUnauthorized "invalid or expired token")
  | Ok ext =>
      st ← (if rawState =s "" then mret empty_state
            else parsed ← verifyBridgeState s rawState;
                 mret (match parsed with Ok st => st | Err _ => empty_state end));
      finishBridgeAuth r ext st
  end.

(** *** Account linking *)

Definition link_json (l : ExternalProviderLink) : json :=
  JObj [("subjectDid", JStr (l_SubjectDID l)); ("provider", JStr (l_Provider l));
        ("externalId", JStr (l_ExternalID l)); ("linkedAt", JStr (Events.time_json (l_LinkedAt l)));
        ("lastUsedAt", JStr (Events.time_json (l_LastUsedAt l)))].
Definition handleListLinks (r : Request) : M Srv Response :=
  subject ← subject_of r;
  match subject with
  | Err _ => mret unauthorized
  | Ok subjectDID =>
      links ← ListExternalLinks subjectDID;
      match links with
      | Err _ => mret (HttpError StatusInternalServerError "internal error")
      | Ok links => mret (JsonBody StatusOK (Some (rows_json link_json links)))
      end
  end.
Definition handleUnlink (r : Request) : M Srv Response :=
  subject ← subject_of r;
  match subject with
  | Err _ => mret unauthorized
  | Ok subjectDID =>
      let externalID := Query r "external_id" in
      if externalID =s "" then mret (HttpError StatusBadRequest "external_id query param required") else
      res ← UnlinkIdentity subjectDID (PathValue r "provider") externalID;
      match res with
      | Err e => mret (HttpError StatusBadRequest (error_string e))
      | Ok _ => mret NoContent
      end
  end.

(** *** Password change and reset (api/password.go) *)

Definition handlePasswordChange (r : Request) : M Srv Response :=
  subject ← subject_of r;
  match subject with
  | Err e => mret (writeJSONError StatusUnauthorized "unauthorized" (error_string e))
  | Ok subjectDID =>
  match (l ← body_object r; c ← str_field "current_password" l; n ← str_field "new_password" l; Some (c, n)) with
  | None => mret (writeJSONError StatusBadRequest "invalid_request" "invalid JSON body")
  | Some (current, new) =>
  if (current =s "") || (new =s "")
  then mret (writeJSONError StatusBadRequest "invalid_request" "current_password and new_password required") else
  match sv_bridges s !! "password" with
  | None => mret (writeJSONError StatusBadRequest "not_supported" "password bridge not enabled")
  | Some raw =>
  if negb (implements raw passwordBridge)
  then mret (writeJSONError StatusInternalServerError "internal_error" "password bridge unavailable") else
  ok ← VerifyCredentials subjectDID current;
  match ok with
  | Err _ =>
      _ ← Lockout.RecordFailure subjectDID;
      mret (writeJSONError StatusUnauthorized "invalid_credentials" "current password is incorrect")
  | Ok _ =>
      _ ← Lockout.RecordSuccess subjectDID;
      set ← SetPassword subjectDID new;
      match set with
      | Err e => mret (writeJSONError StatusBadRequest "invalid_request" (error_string e))
      | Ok _ => mret (JsonResp StatusOK [("status", JStr "ok")])
      end
  end end end end.

Definition resetTTL : Z := 15 * minute.
Definition handlePasswordResetRequest (r : Request) : M Srv Response :=
  match (l ← body_object r; str_field "identifier" l) with
  | None | Some "" => mret (writeJSONError StatusBadRequest "invalid_request" "identifier required")
  | Some identifier =>
      let identifier := ToLower (TrimSpace identifier) in
      failures ← GetAuthFailures ("reset:" +s identifier);
      let count := match failures with Ok (n, _) => n | Err _ => 0%Z end in
      _ ← (if (count <? 3)%Z then
             rawToken ← randomHex 32;
             _ ← match rawToken with
                 | Err _ => mret tt
                 | Ok rawToken =>
                     t1 ← time_now; t2 ← time_now;
                     let expires := (t1 + resetTTL)%Z in
                     saved ← SavePasswordResetToken (mkPasswordResetToken (hashToken rawToken) identifier expires t2);
                     match saved with
                     | Err _ => mret tt
                     | Ok _ => Events.Publish server_bus "password.reset_requested"
                         (Some (JObj [("expires_at", JStr (Events.rfc3339 expires));
                                      ("identifier", JStr identifier); ("token", JStr rawToken)]))
                     end
                 end;
             _ ← RecordAuthFailure ("reset:" +s identifier); mret tt
           else mret tt);
      mret (JsonResp StatusOK [("message", JStr "If this identifier is registered, a reset link has been sent.");
                               ("status", JStr "ok")])
  end.

Definition handlePasswordResetConfirm (r : Request) : M Srv Response :=
  match (l ← body_object r; t ← str_field "token" l; n ← str_field "new_password" l; Some (t, n)) with
  | None => mret (writeJSONError StatusBadRequest "invalid_request" "invalid JSON body")
  | Some (token, new) =>
  if (token =s "") || (new =s "")
  then mret (writeJSONError StatusBadRequest "invalid_request" "token and new_password required") else
  let hash := hashToken token in
  tok ← GetPasswordResetToken hash;
  match tok with
  | Err _ => mret (writeJSONError StatusBadRequest "invalid_token" "token not found or already used")
  | Ok tok =>
  now ← time_now;
  if (pr_ExpiresAt tok <? now)%Z then
    _ ← DeletePasswordResetToken hash;
    mret (writeJSONError StatusBadRequest "invalid_token" "token expired")
  else
  match sv_bridges s !! "password" with
  | None => mret (writeJSONError StatusBadRequest "not_supported" "password bridge not enabled")
  | Some raw =>
  if negb (implements raw passwordBridge)
  then mret (writeJSONError StatusInternalServerError "internal_error" "password bridge unavailable") else
  set ← SetPassword (pr_Identifier tok) new;
  match set with
  | Err e => mret (writeJSONError StatusBadRequest "invalid_request" (error_string e))
  | Ok _ =>
      _ ← DeletePasswordResetToken hash;
      _ ← ClearAuthFailures (pr_Identifier tok);
      _ ← ClearAuthFailures ("reset:" +s pr_Identifier tok);
      mret (JsonResp StatusOK [("status", JStr "ok")])
  end end end end.

(** *** One-time passwords (api/mfa.go) *)

Definition totp_manager : Totp.TOTPManager := Totp.mkTOTPManager (sv_totpPassphrase s) (sv_issuer s).

(** A body that does not decode is ignored here. *)
Definition handleTOTPEnrol (r : Request) : M Srv Response :=
  subject ← subject_of r;
  match subject with
  | Err _ => mret unauthorized
  | Ok subjectDID =>
      let name := default "" (l ← body_object r; str_field "account_name" l) in
      let name := if name =s "" then subjectDID else name in
      res ← Totp.EnrolCtx totp_manager subjectDID name;
      match res with
      | Err e => mret (HttpError StatusInternalServerError ("enrolment failed: " +s error_string e))
      | Ok uri => mret (JsonResp StatusOK
          [("message", JStr "Scan the URI with your authenticator app, then verify with POST /api/v1/me/totp/verify");
           ("otpauth_uri", JStr uri)])
      end
  end.
Definition handleTOTPVerify (r : Request) : M Srv Response :=
  subject ← subject_of r;
  match subject with
  | Err _ => mret unauthorized
  | Ok subjectDID =>
  match (l ← body_object r; str_field "code" l) with
  | None | Some "" => mret (HttpError StatusBadRequest "code required")
  | Some code =>
      res ← Totp.VerifyCtx totp_manager subjectDID code;
      match res with
      | Err _ =>
          _ ← Lockout.RecordFailure subjectDID;
          mret (HttpError StatusUnauthorized "invalid code")
      | Ok _ =>
          _ ← Lockout.RecordSuccess subjectDID;
          mret (JsonResp StatusOK [("status", JStr "verified")])
      end
  end end.
Definition handleTOTPUnenrol (r : Request) : M Srv Response :=
  subject ← subject_of r;
  match subject with
  | Err _ => mret unauthorized
  | Ok subjectDID =>
      res ← Totp.Unenrol subjectDID;
      match res with
      | Err e => mret (HttpError StatusInternalServerError ("unenrol failed: " +s error_string e))
      | Ok _ => mret NoContent
      end
  end.

(** *** Duress passphrases (api/duress.go) *)

Definition handleDuressEnrol (r : Request) : M Srv Response :=
  subject ← subject_of r;
  match subject with
  | Err _ => mret unauthorized
  | Ok subjectDID =>
  match (l ← body_object r; str_field "duress_passphrase" l) with
  | None | Some "" => mret (HttpError StatusBadRequest "duress_passphrase required")
  | Some pass =>
      res ← Enrol subjectDID pass;
      match res with
      | Err e => mret (HttpError StatusInternalServerError ("enrolment failed: " +s error_string e))
      | Ok _ => mret (JsonResp StatusOK [("message", JStr "Duress passphrase enrolled. Use it instead of your normal password when under coercion — authentication will succeed silently and a security alert will fire.")])
      end
  end end.
Definition handleDuressRemove (r : Request) : M Srv Response :=
  subject ← subject_of r;
  match subject with
  | Err _ => mret unauthorized
  | Ok subjectDID =>
      res ← Remove subjectDID;
      match res with
      | Err e => mret (HttpError StatusInternalServerError ("remove failed: " +s error_string e))
      | Ok _ => mret NoContent
      end
  end.
End Handlers.
End BridgeApi.
