(* ===== verification/BridgeApiProofs.v ===== *)
(** * Login over HTTP: properties

    State tokens verify exactly when the server signed them less than ten minutes
    ago; the password handlers refuse every change; a correct password logs in
    whatever the failure counter says and redirects wherever the request asks. *)

From S2P Require Import Prelude GoStd World Sha Base64 Json JsonValue Http Consent StoreTypes Store StoreAuth Logic.
From S2P Require Import StoreInv Totp Lockout Events AuditLog Jwt Provider ProviderProofs Did Bridge BridgeProofs BridgeApi.
Import JsonValue Http Types Store StoreAuth StoreInv Jwt Provider Bridge BridgeProofs BridgeApi.

Module BridgeApiProofs.
#[local] Opaque Sha.Sum256 Sha.hex Sha.hmac hashToken signJWT.

Abbreviation db w := (srv_db (w_state w)).

(** ** State tokens *)

Definition state_ok (st : bridgeState) : Prop :=
  Forall Json.valid_utf8 [bs_ClientID st; bs_RedirectURI st; bs_Scope st; bs_Nonce st; bs_OrigState st;
    bs_CodeChallenge st; bs_CodeChallengeMethod st; bs_LinkFor st; bs_AuthnRequestID st] ∧
  (0 ≤ bs_CreatedAt st < 2 ^ 63)%Z.

Lemma wf_state_field k v l :
  Json.valid_utf8 k → Json.valid_utf8 v → Forall (λ kv, Json.valid_utf8 kv.1 ∧ wf kv.2) l →
  Forall (λ kv, Json.valid_utf8 kv.1 ∧ wf kv.2) (opt_field k v ++ l).
Proof. intros Hk Hv Hl. unfold opt_field. destruct (v =s ""); [done|]. by constructor. Qed.

Lemma state_json_wf st : state_ok st → wf (state_json st).
Proof.
  intros [Hs Hz]. repeat (apply Forall_cons in Hs as [? Hs]). apply wf_JObj. cbn [app].
  do 4 (apply Forall_cons_2; [by split|]).
  do 5 (apply wf_state_field; [done|done|]). apply Forall_cons_2; [by split|constructor].
Qed.

Lemma decode_state_json st :
  ∃ l, state_json st = JObj l ∧ decode_state l = Some st.
Proof.
  eexists. split; [reflexivity|]. destruct st as [a b c d e f g h i z]. cbn -[str_field int_field].
  unfold opt_field.
  destruct (String.eqb_spec e ""), (String.eqb_spec f ""), (String.eqb_spec g ""),
    (String.eqb_spec h ""), (String.eqb_spec i ""); subst; reflexivity.
Qed.

Lemma unmarshal_state_json st :
  state_ok st → unmarshal_state (marshal (state_json st)) = Some st.
Proof.
  intros Hok. unfold unmarshal_state. rewrite parse_marshal by (by apply state_json_wf).
  destruct (decode_state_json st) as (l & -> & Hl). done.
Qed.

Lemma bsplit_n_one sep cur s : bsplit_n sep 1 cur s = [rev cur ++ s].
Proof.
  revert cur. induction s as [|c s IH]; intros cur; simpl; [by rewrite app_nil_r|].
  destruct (beqb c sep); [done|]. rewrite IH. simpl. by rewrite <-app_assoc.
Qed.
Lemma bsplit_n_two sep cur s a b :
  bsplit_n sep 2 cur s = [a; b] → rev cur ++ s = a ++ sep :: b.
Proof.
  revert cur. induction s as [|c s IH]; intros cur; simpl; [done|].
  destruct (beqb_spec c sep) as [->|].
  - rewrite bsplit_n_one. by intros [= <- <-].
  - intros E. apply IH in E. simpl in E. by rewrite <-app_assoc in E.
Qed.
Lemma SplitN_two token p0 p1 : SplitN token x2e 2 = [p0; p1] → token = p0 +s "." +s p1.
Proof.
  unfold SplitN. destruct (bsplit_n _ _ _ _) as [|a [|b [|]]] eqn:E; try done. intros [= <- <-].
  apply bsplit_n_two in E. simpl in E. apply bytes_of_inj. by rewrite !bytes_of_append, !bytes_of_str_of.
Qed.
Lemma SplitN_state payload mac :
  SplitN (Base64.EncodeToString payload +s "." +s Sha.hex mac) x2e 2 = [Base64.EncodeToString payload; Sha.hex mac].
Proof.
  unfold SplitN, Base64.EncodeToString. rewrite !bytes_of_append, bytes_of_str_of.
  change (bytes_of ".") with [x2e]. cbn [app].
  rewrite bsplit_n_plain by apply encode_no_dot. rewrite bsplit_n_last.
  - simpl. by rewrite str_of_bytes_of.
  - eapply Forall_impl; [by apply (Sha.hex_avoids x2e)|]. intros c Hc. by destruct (beqb_spec c x2e).
Qed.

(** a state token that the server signed is read back unchanged for ten
    minutes and refused afterwards. *)
Theorem state_roundtrip s st w :
  state_ok st →
  let age := (unix (w_clock w (w_nclock w)) - bs_CreatedAt st)%Z in
  fst (verifyBridgeState s (signBridgeState s st) w) =
    if (600 <? age)%Z then Err (ErrMsg "state token expired") else Ok st.
Proof.
  intros Hok. unfold verifyBridgeState, signBridgeState. unfold state_mac at 1. rewrite SplitN_state.
  unfold state_mac, ConstantTimeCompare. rewrite bool_decide_eq_true_2 by reflexivity. cbn [negb].
  rewrite Base64.DecodeString_EncodeToString, unmarshal_state_json by done.
  unfold mbind, M_bind, time_now. by destruct (600 <? _)%Z.
Qed.

(** a state token that is accepted is a payload followed by its HMAC under
    the server's key, and was made at most ten minutes ago. *)
Theorem state_authentic s token st w w' :
  verifyBridgeState s token w = (Ok st, w') →
  ∃ payload raw, token = payload +s "." +s state_mac s payload ∧
    Base64.DecodeString payload = Some raw ∧ unmarshal_state raw = Some st ∧
    (unix (w_clock w (w_nclock w)) - bs_CreatedAt st ≤ 600)%Z.
Proof.
  unfold verifyBridgeState. destruct (SplitN token x2e 2) as [|p0 [|p1 [|]]] eqn:E; try done.
  unfold ConstantTimeCompare. case_bool_decide as Hm; simpl; [|done].
  destruct (Base64.DecodeString p0) as [raw|] eqn:Ed; [|done].
  destruct (unmarshal_state raw) as [st'|] eqn:Eu; [|done]. unfold mbind, M_bind. simpl.
  destruct (Z.ltb_spec 600 (unix (w_clock w (w_nclock w)) - bs_CreatedAt st')); [done|]. intros [= <- _].
  exists p0, raw. apply SplitN_two in E. apply bytes_of_inj in Hm. by rewrite Hm in E.
Qed.

(** ** Password change and reset *)

Section Handlers.
Context `{Ed25519} `{Argon2}.
Context (s : Server).

(** No bridge has the method set the password handlers ask for: theirs returns
    the identity as a value of interface type. *)
Lemma never_implements b : implements b passwordBridge = false.
Proof. by destruct b. Qed.

Lemma subject_of_state r w : w_state (snd (subject_of s r w)) = w_state w.
Proof.
  unfold subject_of, SubjectFromBearer. destruct (_ =s ""); [done|].
  unfold Verify, mbind, M_bind. by destruct (verify_signature _ _).
Qed.

Lemma subject_of_fault r w : w_fault (snd (subject_of s r w)) = w_fault w.
Proof.
  unfold subject_of, SubjectFromBearer. destruct (_ =s ""); [done|].
  unfold Verify, mbind, M_bind. by destruct (verify_signature _ _).
Qed.

(** no password can be changed or reset: neither handler ever answers with
    success, and neither touches a stored password. *)
Theorem password_never_changes r w :
  status_of (fst (handlePasswordChange s r w)) ≠ StatusOK ∧
  status_of (fst (handlePasswordResetConfirm s r w)) ≠ StatusOK ∧
  passwords (db (snd (handlePasswordChange s r w))) = passwords (db w) ∧
  passwords (db (snd (handlePasswordResetConfirm s r w))) = passwords (db w).
Proof.
  assert (wp (handlePasswordChange s r) (λ a w', status_of a ≠ StatusOK ∧ w_state w' = w_state w) w) as [H1 H2].
  { unfold handlePasswordChange. apply wp_bind. pose proof (subject_of_state r w) as Hs.
    apply wp_intro. intros subj w' Ew. rewrite Ew in Hs. simpl in Hs.
    destruct subj; [|by split].
    repeat (case_match; try (split; [done|exact Hs])).
    by rewrite never_implements in *. }
  assert (wp (handlePasswordResetConfirm s r)
    (λ a w', status_of a ≠ StatusOK ∧ passwords (db w') = passwords (db w)) w) as [H3 H4].
  { destruct w as [clk nc rnd nr flt nf [d rev evs]].
    unfold handlePasswordResetConfirm, GetPasswordResetToken, DeletePasswordResetToken. clear.
    repeat (wp_step; try done). all: by rewrite never_implements in *. }
  rewrite H2. done.
Qed.
End Handlers.

(** ** Password login *)

Lemma Publish_oracles b t p w :
  (∀ fn e w, fn ∈ Events.bus_subscribers b → same_oracles w (snd (fn e w))) →
  same_oracles w (snd (Events.Publish b t p w)).
Proof.
  intros Hb. unfold Events.Publish, Events.randomEventID, mbind, M_bind. simpl.
  destruct (Events.event_json _); [|done].
  set (e := Events.mkEvent _ _ _ _). set (w0 := mkWorld _ _ _ _ _ _ _).
  assert (∀ w, same_oracles w (snd (Events.notify (Events.bus_subscribers b) e w))) as Hn.
  { clearbody e. clear -Hb. induction (Events.bus_subscribers b) as [|fn l IH]; intros v; [done|]. simpl.
    unfold mbind, M_bind. pose proof (Hb fn e v ltac:(set_solver)) as (H1 & H2 & H3).
    destruct (fn e v) as [[] w1]. simpl in *. destruct (IH ltac:(set_solver) w1) as (G1 & G2 & G3).
    unfold same_oracles. by rewrite G1, G2, G3. }
  destruct (Hn w0) as (H1 & H2 & H3). destruct (Events.notify _ e w0) as [[] w1]. simpl in *.
  destruct w1 as [clk nc rnd nr flt nf [d rev evs]]. simpl in *. subst.
  unfold ListWebhookSubscriptions, query, on_db, db_call. simpl. by destruct (w_fault w nf).
Qed.
Lemma server_publish_oracles t p w : same_oracles w (snd (Events.Publish server_bus t p w)).
Proof. apply Publish_oracles. intros fn e w' []%not_elem_of_nil. Qed.

Section Login.
Context `{Ed25519} `{Multibase} `{JsonCodec Document} `{Argon2}.
Context (ed_pub_of_seed : list byte → list byte) (bootstrap : string → ExternalIdentity → M Srv unit).
Context (s : Server).

(** The external identity of a password account. *)
Definition password_key (req : PasswordRequest) : string * string :=
  ("password", normaliseEmail (pq_Identifier req)).


(** The link of a linked account is found again after its last use is recorded. *)
Lemma wp_FindOrCreate_linked ext l clk nc rnd nr flt nf d rev evs Q :
  (∀ n, flt n = None) →
  external_provider_links d !! (ext_Provider ext, ext_ExternalID ext) = Some l →
  (l_Provider l, l_ExternalID l) = (ext_Provider ext, ext_ExternalID ext) →
  (∀ d' l' nc' nf', external_provider_links d' !! (ext_Provider ext, ext_ExternalID ext) = Some l' →
     l_SubjectDID l' = l_SubjectDID l →
     (l_Provider l', l_ExternalID l') = (ext_Provider ext, ext_ExternalID ext) →
     Q (Ok (l_SubjectDID l, false)) (mkWorld clk nc' rnd nr flt nf' (mkSrv d' rev evs))) →
  wp (FindOrCreate ed_pub_of_seed bootstrap ext) Q (mkWorld clk nc rnd nr flt nf (mkSrv d rev evs)).
Proof.
  intros Hnf Hl Hk HQ. unfold FindOrCreate, GetExternalLink. do 2 apply wp_bind.
  apply wp_query; [intros msg Hf; by rewrite Hnf in Hf|intros _].
  unfold select. rewrite Hl. apply wp_ret. cbv beta iota delta [wrap_err of_option].
  apply wp_bind, wp_time, wp_bind. unfold SaveExternalLink.
  apply wp_exec; [intros msg Hf; by rewrite Hnf in Hf|intros _]. apply wp_ret.
  injection Hk as Hp He.
  apply (HQ _ (link_merge l (mkExternalProviderLink (l_SubjectDID l) (l_Provider l) (l_ExternalID l)
    (l_LinkedAt l) (clk nc)))).
  - simpl. rewrite Hp, He. unfold upsert. rewrite Hl. by rewrite lookup_insert_eq.
  - done.
  - simpl. by rewrite Hp, He.
Qed.

(** with the right password for a linked account and a working store, the
    login succeeds and sends the authorization code to the address in the
    request: neither the account's failure record nor the client's registration
    is consulted. *)
Theorem password_login_unchecked r req stored ts l w :
  decode_password_request r = Some req →
  pq_Identifier req ≠ "" → pq_Password req ≠ "" → pq_ClientID req ≠ "" → pq_RedirectURI req ≠ "" →
  sv_bridges s !! "password" = Some PasswordBridge →
  no_faults w → rand_ok w →
  passwords (db w) !! normaliseEmail (pq_Identifier req) = Some (stored, ts) →
  verifyArgon2 (pq_Password req) stored = Ok tt →
  external_provider_links (db w) !! password_key req = Some l →
  (l_Provider l, l_ExternalID l) = password_key req →
  ∃ code, fst (handlePasswordAuth ed_pub_of_seed bootstrap s r w) =
    Redirect (pq_RedirectURI req +s "?code=" +s code +s
      (if pq_State req =s "" then "" else "&state=" +s pq_State req)).
Proof.
  intros Hreq Hid Hpw Hcl Hru Hbr Hnf Hrnd Hrow Hver Hl Hkey.
  enough (wp (handlePasswordAuth ed_pub_of_seed bootstrap s r) (λ a _, ∃ code, a =
    Redirect (pq_RedirectURI req +s "?code=" +s code +s
      (if pq_State req =s "" then "" else "&state=" +s pq_State req))) w) as Hwp by exact Hwp.
  destruct w as [clk nc rnd nr flt nf [d rev evs]]. unfold no_faults, rand_ok in *. cbn in Hnf, Hrnd, Hrow, Hl.
  unfold handlePasswordAuth. rewrite Hreq, Hbr.
  apply String.eqb_neq in Hid, Hpw, Hcl, Hru. rewrite Hid, Hpw. cbn [orb].
  assert (∀ k msg, flt k = Some msg → False) as Hno by (intros k msg Hk; by rewrite Hnf in Hk).
  unfold VerifyCredentials, GetPasswordHash. do 3 apply wp_bind. apply wp_query; [intros ? []%Hno|intros _].
  unfold select. rewrite Hrow. apply wp_ret. cbv beta iota delta [wrap_err of_option fmap result_fmap fst].
  rewrite Hver. apply wp_ret, wp_bind. unfold Lockout.RecordSuccess, ClearAuthFailures.
  apply wp_bind, wp_exec; [intros ? []%Hno|intros _]. apply wp_ret, wp_bind.
  apply (wp_FindOrCreate_linked _ l); [done|exact Hl|exact Hkey|]. intros d1 l1 nc1 nf1 Hl1 Hs1 Hk1.
  apply wp_bind. unfold CheckDuress, GetDuressHash. apply wp_bind, wp_query; [intros ? []%Hno|intros _].
  apply wp_ret. set (duress := match _ with Ok _ => _ | Err _ => _ end). apply wp_bind, wp_time.
  unfold finishBridgeAuth. cbn [bs_LinkFor bs_ClientID bs_RedirectURI bs_OrigState bs_Scope bs_Nonce
    bs_CodeChallenge bs_CodeChallengeMethod ext_Provider ext_ExternalID ext_Duress negb]. apply wp_bind.
  apply (wp_FindOrCreate_linked _ l1); [done|exact Hl1|exact Hk1|]. intros d2 l2 nc2 nf2 _ _ _.
  cbv beta iota. apply wp_bind.
  set (Q := λ (_ : unit) w', _). assert (∀ w', w_rand w' = rnd → w_fault w' = flt → Q tt w') as HQ.
  { intros [clk' nc' rnd' nr' flt' nf' [d' rev' evs']] Er Ef. cbn in Er, Ef. subst rnd' flt'. unfold Q.
    rewrite Hcl, Hru. cbn [negb andb].
    unfold IssueSessionForDIDCtx, randomID, randomHex, SaveSession.
    destruct (Hrnd nr') as [f1 Hf1], (Hrnd (S nr')) as [f2 Hf2].
    do 3 apply wp_bind. apply wp_rand; [by rewrite Hf1|intros g _]. apply wp_ret. cbv beta iota delta [fmap result_fmap].
    apply wp_bind, wp_bind, wp_bind, wp_rand; [by rewrite Hf2|intros g2 _]. do 2 apply wp_ret. cbv beta iota delta [fmap result_fmap].
    apply wp_bind, wp_time, wp_bind, wp_time, wp_bind, wp_exec; [intros ? []%Hno|intros _]. apply wp_ret.
    cbv beta iota delta [fmap result_fmap]. apply wp_ret. exists (Sha.hex (g <$> seq 0 32)).
    destruct (pq_State req =s ""); f_equal; apply bytes_of_inj;
      by rewrite !bytes_of_append, ?app_nil_r, <-?app_assoc. }
  destruct (duress || false).
  - apply wp_intro. intros [] w' Ew. match goal with |- Q tt ?x => set (v := x) end.
    pose proof server_publish_oracles as Ho.
    match type of Ew with Events.Publish ?b ?t ?p ?w0 = _ => destruct (Ho t p w0) as (_ & Hr & Hf) end.
    rewrite Ew in Hr, Hf. by apply HQ.
  - apply wp_ret. by apply HQ.
Qed.

(** a password whose digest is not the stored one is refused with status
    401 and leaves no trace but the failure count.  The enrolled duress
    passphrase of an account is no exception, although it is announced as a
    working alternative to the password: no login and no alert. *)
Theorem duress_passphrase_refused r req pw salt ts w :
  decode_password_request r = Some req →
  pq_Identifier req ≠ "" → pq_Password req ≠ "" →
  sv_bridges s !! "password" = Some PasswordBridge →
  no_faults w →
  passwords (db w) !! normaliseEmail (pq_Identifier req) = Some (encodeArgon2Hash (hashPassword pw salt) salt, ts) →
  hashPassword (pq_Password req) salt ≠ hashPassword pw salt →
  let '(resp, w') := handlePasswordAuth ed_pub_of_seed bootstrap s r w in
  resp = HttpError StatusUnauthorized "invalid credentials" ∧
  audit_log (db w') = audit_log (db w) ∧ srv_outbox (w_state w') = srv_outbox (w_state w) ∧
  oidc_sessions (db w') = oidc_sessions (db w) ∧
  Lockout.failures (db w') (pq_Identifier req) = (Lockout.failures (db w) (pq_Identifier req) + 1)%Z.
Proof.
  intros Hreq Hid Hpw Hbr Hnf Hrow Hne.
  assert (wp (handlePasswordAuth ed_pub_of_seed bootstrap s r) (λ resp w',
    resp = HttpError StatusUnauthorized "invalid credentials" ∧
    audit_log (db w') = audit_log (db w) ∧ srv_outbox (w_state w') = srv_outbox (w_state w) ∧
    oidc_sessions (db w') = oidc_sessions (db w) ∧
    Lockout.failures (db w') (pq_Identifier req) = (Lockout.failures (db w) (pq_Identifier req) + 1)%Z) w) as Hwp.
  2:{ unfold wp in Hwp. by destruct (handlePasswordAuth ed_pub_of_seed bootstrap s r w). }
  destruct w as [clk nc rnd nr flt nf [d rev evs]]. unfold no_faults in Hnf. cbn in Hnf, Hrow.
  unfold handlePasswordAuth. rewrite Hreq, Hbr.
  apply String.eqb_neq in Hid, Hpw. rewrite Hid, Hpw. cbn [orb].
  assert (∀ k msg, flt k = Some msg → False) as Hno by (intros k msg Hk; by rewrite Hnf in Hk).
  unfold VerifyCredentials, GetPasswordHash. do 3 apply wp_bind. apply wp_query; [intros ? []%Hno|intros _].
  unfold select. rewrite Hrow. apply wp_ret. cbv beta iota delta [wrap_err of_option fmap result_fmap fst].
  pose proof (verifyArgon2_encode pw (pq_Password req) salt) as Hv.
  destruct (verifyArgon2 (pq_Password req) _) as [[]|e]; [by destruct Hne; apply Hv|].
  apply wp_ret, wp_bind, Lockout.wp_RecordFailure; [done|]. apply wp_ret.
  repeat split; [done..|]. apply Lockout.failures_bump.
Qed.
End Login.

(** ** Instances *)

#[local] Existing Instance digest_scheme.
#[local] Existing Instance hex_multibase'.
#[local] Existing Instance no_documents'.
#[local] Existing Instance sum_argon2.

Definition sample_server : Server :=
  mkServer ProviderProofs.sample_provider "https://id.example" "api key" "totp" {["password" := PasswordBridge]}.
Definition sample_state : bridgeState :=
  mkBridgeState "client" "https://rp.example/cb" "openid" "n" "xyz" "c" "S256" "" "" 1000.

Lemma sample_state_ok : state_ok sample_state.
Proof. split; [by repeat constructor|done]. Qed.
Definition clock_world (t : Z) (d : DB) : World Srv :=
  mkWorld (λ _, t) 0 (λ _, Some (λ _, x07)) 0 (λ _, None) 0 (mkSrv d ∅ []).
Lemma state_roundtrip_witness :
  fst (verifyBridgeState sample_server (signBridgeState sample_server sample_state)
         (clock_world (1600 * second) (empty_db true))) = Ok sample_state.
Proof.
  rewrite (state_roundtrip sample_server sample_state (clock_world (1600 * second) (empty_db true)) sample_state_ok).
  reflexivity.
Defined.

Lemma sample_state_verifies :
  fst (verifyBridgeState sample_server (signBridgeState sample_server sample_state)
         (clock_world (1600 * second) (empty_db true))) = Ok sample_state.
Proof. vm_compute. reflexivity. Qed.
Lemma state_authentic_witness : ∃ payload,
  signBridgeState sample_server sample_state = payload +s "." +s state_mac sample_server payload.
Proof.
  destruct (state_authentic sample_server (signBridgeState sample_server sample_state) sample_state
    (clock_world (1600 * second) (empty_db true))
    (snd (verifyBridgeState sample_server (signBridgeState sample_server sample_state)
       (clock_world (1600 * second) (empty_db true))))) as (payload & raw & E & _).
  - rewrite <-sample_state_verifies. exact (surjective_pairing _).
  - exists payload. exact E.
Defined.

(** An account that is locked for another hour, and no registered client. *)
Definition login_salt : list byte := replicate 32 x01.
Definition login_db : DB :=
  set_passwords {["eve@example.org" := (encodeArgon2Hash (hashPassword "correct horse" login_salt) login_salt, 0%Z)]}
    (set_auth_failures {["eve@example.org" := mkAuthFailureRow "eve@example.org" 20 0 (Some (2 * hour)%Z)]}
      (set_external_provider_links
        {[("password", "eve@example.org") := link "did:key:eve" "password" "eve@example.org"]} (empty_db true))).
Definition login_request (password : string) : Request :=
  mkRequest [] None [] None [] "" (Some (JObj [("identifier", JStr "eve@example.org"); ("password", JStr password);
    ("client_id", JStr "nobody"); ("redirect_uri", JStr "https://evil.example/")])).
Definition login_parsed (password : string) : PasswordRequest :=
  mkPasswordRequest "eve@example.org" password "nobody" "https://evil.example/" "" "" "" "" "".

Lemma password_login_unchecked_witness :
  is_ok (fst (Lockout.CheckLocked "eve@example.org" (clock_world hour login_db))) = false ∧
  oidc_clients login_db = ∅ ∧
  ∃ code, fst (handlePasswordAuth (λ s, s) no_bootstrap sample_server (login_request "correct horse")
      (clock_world hour login_db)) = Redirect ("https://evil.example/?code=" +s code).
Proof.
  split; [vm_compute; reflexivity|]. split; [reflexivity|].
  destruct (password_login_unchecked (λ s, s) no_bootstrap sample_server (login_request "correct horse")
    (login_parsed "correct horse") (encodeArgon2Hash (hashPassword "correct horse" login_salt) login_salt) 0
    (link "did:key:eve" "password" "eve@example.org") (clock_world hour login_db)) as (code & E).
  - reflexivity.
  - discriminate.
  - discriminate.
  - discriminate.
  - discriminate.
  - reflexivity.
  - intros n. reflexivity.
  - intros n. eexists. reflexivity.
  - reflexivity.
  - vm_compute. reflexivity.
  - reflexivity.
  - reflexivity.
  - exists (code +s ""). exact E.
Defined.

Lemma duress_passphrase_refused_witness :
  fst (handlePasswordAuth (λ s, s) no_bootstrap sample_server (login_request "under duress")
      (clock_world hour login_db)) = HttpError StatusUnauthorized "invalid credentials".
Proof.
  pose proof (duress_passphrase_refused (λ s, s) no_bootstrap sample_server (login_request "under duress")
    (login_parsed "under duress") "correct horse" login_salt 0 (clock_world hour login_db)) as Hd.
  destruct (handlePasswordAuth _ _ _ _ _) as [resp w']. apply Hd.
  - reflexivity.
  - discriminate.
  - discriminate.
  - reflexivity.
  - intros n. reflexivity.
  - reflexivity.
  - vm_compute. discriminate.
Defined.
End BridgeApiProofs.
