(* ===== verification/Didcomm.v ===== *)
(** * DIDComm messages (pkg/didcomm/didcomm.go, api/didcomm.go)

    Packing a message for its recipients as a JWE, with or without authenticating the
    sender, unpacking it, and the endpoint that receives one.  Curve25519 and
    XChaCha20-Poly1305 are parameters; the key agreement, the key derivation, the key
    wrap and the wire format are the program's. *)

From S2P Require Import Prelude GoStd World Sha Base64 Json JsonValue Http StoreTypes.
From S2P Require Import Jwt Crypto GoTime Did Vc VcJson KeyWrap BridgeApi.
From stdpp Require Import sorting.
Import JsonValue Http Types.

(** golang.org/x/crypto/curve25519: the product of a scalar and a point; nothing when the
    result is the zero point. *)
Class X25519 := { x25519 : list byte → list byte → option (list byte) }.
(** The point nine, of which the public keys are the multiples. *)
Definition x_base : list byte := x09 :: replicate 31 x00.
(** Points have 32 bytes; Diffie and Hellman: both sides compute the same point. *)
Class X25519Ok `{X25519} : Prop := {
  x25519_length a p z : x25519 a p = Some z → length z = 32;
  x25519_agree a b pa pb :
    x25519 a x_base = Some pa → x25519 b x_base = Some pb → x25519 a pb = x25519 b pa }.
(** golang.org/x/crypto/chacha20poly1305, [NewX]: a 32-byte key and a 24-byte nonce; the
    tag is the last 16 bytes. *)
Class XChaCha := {
  xc_seal : list byte → list byte → list byte → list byte → list byte;
  xc_open : list byte → list byte → list byte → list byte → option (list byte) }.
Class XChaChaOk `{XChaCha} : Prop := {
  xc_open_seal k n m a : xc_open k n (xc_seal k n m a) a = Some m }.

Module Didcomm.

Definition MediaTypeEncrypted : string := "application/didcomm-encrypted+json".
Definition algAnoncrypt : string := "ECDH-ES+A256KW".
Definition algAuthcrypt : string := "ECDH-1PU+A256KW".
Definition encXC20P : string := "XC20P".

(** ** The wire format *)

Record AttachmentData := mkAttachmentData { ad_Base64 : string; ad_JSON : option json }.
Record Attachment := mkAttachment {
  at_ID : string; at_Description : string; at_MimeType : string; at_Data : AttachmentData }.
Record Message := mkMessage {
  msg_ID : string; msg_Type : string; msg_From : string; msg_To : list string; msg_CreatedTime : Z;
  msg_ExpiresTime : Z; msg_Body : list (string * json); msg_Attachments : list Attachment }.
Record Recipient := mkRecipient { rc_KID : string; rc_PubKey : list byte }.
Record jwkOKP := mkJwkOKP { jwk_KTY : string; jwk_CRV : string; jwk_X : string }.
Record jweRecipHeader := mkJweRecipHeader { jh_KID : string; jh_EPK : option jwkOKP }.
Record jweRecip := mkJweRecip { jr_Header : jweRecipHeader; jr_EncryptedKey : string }.
Record Envelope := mkEnvelope {
  env_Protected : string; env_Recipients : list jweRecip; env_IV : string; env_Ciphertext : string; env_Tag : string }.
Record protectedHeader := mkProtectedHeader {
  ph_Typ : string; ph_Alg : string; ph_Enc : string; ph_SKID : string; ph_APU : string; ph_APV : string }.

Definition jwk_json (k : jwkOKP) : json :=
  JObj [("kty", JStr (jwk_KTY k)); ("crv", JStr (jwk_CRV k)); ("x", JStr (jwk_X k))].
Definition recip_json (r : jweRecip) : json :=
  JObj [("header", JObj (("kid", JStr (jh_KID (jr_Header r))) :: Vc.opt_member "epk" jwk_json (jh_EPK (jr_Header r))));
        ("encrypted_key", JStr (jr_EncryptedKey r))].
Definition envelope_json (e : Envelope) : json :=
  JObj [("protected", JStr (env_Protected e)); ("recipients", rows_json recip_json (env_Recipients e));
        ("iv", JStr (env_IV e)); ("ciphertext", JStr (env_Ciphertext e)); ("tag", JStr (env_Tag e))].
Definition header_json (h : protectedHeader) : json :=
  JObj ([("typ", JStr (ph_Typ h)); ("alg", JStr (ph_Alg h)); ("enc", JStr (ph_Enc h))] ++
        Jwt.opt_field "skid" (ph_SKID h) ++ Jwt.opt_field "apu" (ph_APU h) ++ Jwt.opt_field "apv" (ph_APV h)).

Definition decode_jwk (l : list (string * json)) : option jwkOKP :=
  kty ← Jwt.str_field "kty" l; crv ← Jwt.str_field "crv" l; x ← Jwt.str_field "x" l; Some (mkJwkOKP kty crv x).
Definition decode_recip (l : list (string * json)) : option jweRecip :=
  h ← GoTime.struct_field "header" l; kid ← Jwt.str_field "kid" h;
  epk ← GoTime.ptr_field "epk" h; epk ← VcJson.ptr decode_jwk epk;
  ek ← Jwt.str_field "encrypted_key" l; Some (mkJweRecip (mkJweRecipHeader kid epk) ek).
Definition decode_envelope (l : list (string * json)) : option Envelope :=
  p ← Jwt.str_field "protected" l; rs ← GoTime.structs_field "recipients" l; rs ← mapM decode_recip rs;
  iv ← Jwt.str_field "iv" l; ct ← Jwt.str_field "ciphertext" l; tag ← Jwt.str_field "tag" l;
  Some (mkEnvelope p rs iv ct tag).
Definition decode_header (l : list (string * json)) : option protectedHeader :=
  typ ← Jwt.str_field "typ" l; alg ← Jwt.str_field "alg" l; enc ← Jwt.str_field "enc" l;
  skid ← Jwt.str_field "skid" l; apu ← Jwt.str_field "apu" l; apv ← Jwt.str_field "apv" l;
  Some (mkProtectedHeader typ alg enc skid apu apv).

(** ** Keys *)

(** binary.BigEndian.AppendUint32 of [uint32(n)]. *)
Definition be32 (n : nat) : list byte := Sha.bytes_of_word (Sha.w32 (N.of_nat n)).
Definition party_info (b64 : string) : option (list byte) := if b64 =s "" then Some [] else Base64.DecodeString b64.
Definition concatKDF (z : list byte) (alg apuB64 apvB64 : string) : result (list byte) :=
  match party_info apuB64 with
  | None => Err (ErrMsg "concat-kdf: decode apu: illegal base64 data")
  | Some apu =>
      match party_info apvB64 with
      | None => Err (ErrMsg "concat-kdf: decode apv: illegal base64 data")
      | Some apv =>
          let algBytes := bytes_of alg in
          Ok (Sha.Sum256 (be32 1 ++ z ++ be32 (length algBytes) ++ algBytes ++ be32 (length apu) ++ apu ++
                          be32 (length apv) ++ apv ++ be32 256))
      end
  end.

Definition str_le (a b : string) : Prop := String.leb a b = true.
#[local] Instance str_le_dec : RelDecision str_le := λ a b, decide (String.leb a b = true).
Fixpoint join_dots (l : list string) : string :=
  match l with [] => "" | [k] => k | k :: l' => k +s "." +s join_dots l' end.
Definition computeAPV (sortedKIDs : list string) : list byte := Sha.Sum256 (bytes_of (join_dots sortedKIDs)).
(** The scalar, per RFC 7748. *)
Definition clamp (priv : list byte) : list byte :=
  let priv := alter (λ b, band b xf8) 0 priv in
  alter (λ b, bor (band b x7f) x40) 31 priv.

Section Agreement.
Context `{X25519}.
Definition low_order : error := ErrMsg "curve25519: bad input point: low order point".
Definition x_product (priv pub : list byte) : result (list byte) := of_option low_order (x25519 priv pub).

Definition generateX25519 {St} : M St (result (list byte * list byte)) :=
  b ← rand_read 32;
  mret (match b with
        | Err e => Err e
        | Ok priv => let priv := clamp priv in pub ← x_product priv x_base; Ok (priv, pub)
        end).
Definition ecdhESKEKSender (ephPriv recipPub : list byte) (alg apvB64 : string) : result (list byte) :=
  z ← x_product ephPriv recipPub; concatKDF z alg "" apvB64.
Definition ecdhESKEKRecipient (recipPriv ephPub : list byte) (alg apvB64 : string) : result (list byte) :=
  z ← x_product recipPriv ephPub; concatKDF z alg "" apvB64.
Definition ecdh1PUKEKSender (ephPriv senderPriv recipPub : list byte) (alg apuB64 apvB64 : string) : result (list byte) :=
  ze ← x_product ephPriv recipPub; zs ← x_product senderPriv recipPub; concatKDF (ze ++ zs) alg apuB64 apvB64.
Definition ecdh1PUKEKRecipient (ephPub recipPriv senderPub : list byte) (alg apuB64 apvB64 : string) : result (list byte) :=
  ze ← x_product recipPriv ephPub; zs ← x_product recipPriv senderPub; concatKDF (ze ++ zs) alg apuB64 apvB64.
End Agreement.

(** ** Packing *)

Section Messages.
Context `{X25519, AesBlock, XChaCha}.

Definition sender_kek (senderPriv : option (list byte)) (hdr : protectedHeader) (ephPriv pub : list byte) : result (list byte) :=
  match senderPriv with
  | Some sp => ecdh1PUKEKSender ephPriv sp pub (ph_Alg hdr) (ph_APU hdr) (ph_APV hdr)
  | None => ecdhESKEKSender ephPriv pub (ph_Alg hdr) (ph_APV hdr)
  end.
(** The loop over the recipients: an ephemeral key pair each. *)
Fixpoint wrap_recipients {St} (senderPriv : option (list byte)) (hdr : protectedHeader) (cek : list byte)
    (recipients : list Recipient) : M St (result (list jweRecip)) :=
  match recipients with
  | [] => mret (Ok [])
  | r :: rest =>
      eph ← generateX25519;
      match eph with
      | Err e => mret (Err (ErrWrap "didcomm: ephem key" e))
      | Ok (ephPriv, ephPub) =>
          match sender_kek senderPriv hdr ephPriv (rc_PubKey r) with
          | Err e => mret (Err (ErrWrap ("didcomm: kek for " +s rc_KID r) e))
          | Ok kek =>
              match KeyWrap.aesKeyWrap kek cek with
              | Err e => mret (Err (ErrWrap ("didcomm: key wrap for " +s rc_KID r) e))
              | Ok wrapped =>
                  l ← wrap_recipients senderPriv hdr cek rest;
                  mret (cons (mkJweRecip
                    (mkJweRecipHeader (rc_KID r) (Some (mkJwkOKP "OKP" "X25519" (Base64.EncodeToString ephPub))))
                    (Base64.EncodeToString wrapped)) <$> l)
              end
          end
      end
  end.
Definition xc_overhead : nat := 16.
(** From the protected header on. *)
Definition seal_envelope {St} (senderPriv : option (list byte)) (hdr : protectedHeader) (msg : list byte)
    (recipients : list Recipient) : M St (result (list byte)) :=
  let protB64 := Base64.EncodeToString (marshal (header_json hdr)) in
  cek ← rand_read 32;
  match cek with
  | Err e => mret (Err (ErrWrap "didcomm: gen cek" e))
  | Ok cek =>
      jweRecipients ← wrap_recipients senderPriv hdr cek recipients;
      match jweRecipients with
      | Err e => mret (Err e)
      | Ok jweRecipients =>
          iv ← rand_read 24;
          match iv with
          | Err e => mret (Err (ErrWrap "didcomm: gen iv" e))
          | Ok iv =>
              let sealed := xc_seal cek iv msg (bytes_of protB64) in
              let tagOff := length sealed - xc_overhead in
              mret (Ok (marshal (envelope_json (mkEnvelope protB64 jweRecipients (Base64.EncodeToString iv)
                (Base64.EncodeToString (take tagOff sealed)) (Base64.EncodeToString (drop tagOff sealed))))))
          end
      end
  end.
Definition pack_header (recipients : list Recipient) (senderKID : string) (isAuthcrypt : bool) : protectedHeader :=
  let apvB64 := Base64.EncodeToString (computeAPV (merge_sort str_le (rc_KID <$> recipients))) in
  if isAuthcrypt
  then mkProtectedHeader MediaTypeEncrypted algAuthcrypt encXC20P senderKID (Base64.EncodeToString (bytes_of senderKID)) apvB64
  else mkProtectedHeader MediaTypeEncrypted algAnoncrypt encXC20P "" "" apvB64.
Definition packEnvelope {St} (msg : list byte) (recipients : list Recipient) (senderKID : string)
    (senderPriv : option (list byte)) : M St (result (list byte)) :=
  match recipients with
  | [] => mret (Err (ErrMsg "didcomm: at least one recipient required"))
  | _ => seal_envelope senderPriv
           (pack_header recipients senderKID (match senderPriv with Some _ => true | None => false end)) msg recipients
  end.
Definition PackAnoncrypt {St} (msg : list byte) (recipients : list Recipient) : M St (result (list byte)) :=
  packEnvelope msg recipients "" None.
Definition PackAuthcrypt {St} (msg : list byte) (recipients : list Recipient) (senderKID : string) (senderPriv : list byte)
    : M St (result (list byte)) :=
  packEnvelope msg recipients senderKID (Some senderPriv).

(** ** Unpacking *)

Definition recipient_kek (hdr : protectedHeader) (senderPub recipPriv ephPub : list byte) : option (list byte) :=
  let r := if ph_Alg hdr =s algAnoncrypt then ecdhESKEKRecipient recipPriv ephPub (ph_Alg hdr) (ph_APV hdr)
           else if ph_Alg hdr =s algAuthcrypt
           then ecdh1PUKEKRecipient ephPub recipPriv senderPub (ph_Alg hdr) (ph_APU hdr) (ph_APV hdr)
           else Err (ErrMsg "unsupported") in
  match r with Ok kek => Some kek | Err _ => None end.
(** The key one entry yields; nothing where the loop continues. *)
Definition unwrap_one (hdr : protectedHeader) (senderPub : list byte) (recipKeyFn : string → result (list byte))
    (r : jweRecip) : option (list byte) :=
  recipPriv ← match recipKeyFn (jh_KID (jr_Header r)) with Ok k => Some k | Err _ => None end;
  epk ← jh_EPK (jr_Header r);
  ephPub ← Base64.DecodeString (jwk_X epk);
  if negb (Nat.eqb (length ephPub) 32) then None
  else kek ← recipient_kek hdr senderPub recipPriv ephPub;
       encKey ← Base64.DecodeString (jr_EncryptedKey r);
       match KeyWrap.aesKeyUnwrap kek encKey with
       | Ok cek => if Nat.eqb (length cek) 32 then Some cek else None
       | Err _ => None
       end.
Fixpoint find_cek (hdr : protectedHeader) (senderPub : list byte) (recipKeyFn : string → result (list byte))
    (rs : list jweRecip) : option (list byte) :=
  match rs with
  | [] => None
  | r :: rs' =>
      match unwrap_one hdr senderPub recipKeyFn r with
      | Some cek => Some cek
      | None => find_cek hdr senderPub recipKeyFn rs'
      end
  end.
(** The last part of [Unpack].  [None]: a panic, which [aead.Open] raises on a nonce of
    the wrong length. *)
Definition open_content (env : Envelope) (skid : string) (cek : list byte) : option (result (list byte * string)) :=
  match Base64.DecodeString (env_IV env), Base64.DecodeString (env_Ciphertext env), Base64.DecodeString (env_Tag env) with
  | None, _, _ => Some (Err (ErrMsg "didcomm: decode iv"))
  | _, None, _ => Some (Err (ErrMsg "didcomm: decode ciphertext"))
  | _, _, None => Some (Err (ErrMsg "didcomm: decode tag"))
  | Some iv, Some ct, Some tag =>
      if negb (Nat.eqb (length iv) 24) then None
      else Some (match xc_open cek iv (ct ++ tag) (bytes_of (env_Protected env)) with
                 | None => Err (ErrMsg "didcomm: decrypt content: chacha20poly1305: message authentication failed")
                 | Some plaintext => Ok (plaintext, skid)
                 end)
  end.
Definition Unpack {St} (envelope : list byte) (recipKeyFn : string → result (list byte))
    (senderPubFn : option (string → M St (result (list byte)))) : M St (option (result (list byte * string))) :=
  match VcJson.unmarshal_struct decode_envelope envelope with
  | None => mret (Some (Err (ErrMsg "didcomm: parse envelope")))
  | Some env =>
      match Base64.DecodeString (env_Protected env) with
      | None => mret (Some (Err (ErrMsg "didcomm: decode protected header")))
      | Some protJSON =>
          match VcJson.unmarshal_struct decode_header protJSON with
          | None => mret (Some (Err (ErrMsg "didcomm: parse protected header")))
          | Some hdr =>
              senderPub ← (if ph_SKID hdr =s "" then mret (Ok (replicate 32 x00))
                           else match senderPubFn with
                                | None => mret (Err (ErrMsg "didcomm: authcrypt envelope requires senderPubFn"))
                                | Some f => r ← f (ph_SKID hdr); mret (wrap_err ("didcomm: resolve sender key " +s ph_SKID hdr) r)
                                end);
              match senderPub with
              | Err e => mret (Some (Err e))
              | Ok senderPub =>
                  match find_cek hdr senderPub recipKeyFn (env_Recipients env) with
                  | None => mret (Some (Err (ErrMsg "didcomm: no matching recipient key found")))
                  | Some cek => mret (open_content env (ph_SKID hdr) cek)
                  end
              end
          end
      end
  end.
End Messages.

(** ** The endpoint *)

Section Receive.
Context `{X25519, AesBlock, XChaCha, Float64, Multibase}.

(** A member of type [any]: its value, when its numbers are in the range of float64. *)
Definition any_field (k : string) (l : list (string * json)) : option (option json) :=
  Jwt.decode_into (λ _ v, match v with JNull => Some None | v => Some <$> Crypto.any_of v end) None k l.
Definition any_map_field (k : string) (l : list (string * json)) : option (list (string * json)) :=
  Jwt.decode_into (λ old v, match v with
    | JObj m => foldl (λ acc kv, a ← acc; x ← Crypto.any_of kv.2; Some (aset kv.1 x a)) (Some old) m
    | JNull => Some []
    | _ => None
    end) [] k l.
Definition decode_attachment (l : list (string * json)) : option Attachment :=
  id ← Jwt.str_field "id" l; de ← Jwt.str_field "description" l; mt ← Jwt.str_field "mime_type" l;
  d ← GoTime.struct_field "data" l; b ← Jwt.str_field "base64" d; j ← any_field "json" d;
  Some (mkAttachment id de mt (mkAttachmentData b j)).
Definition decode_message (l : list (string * json)) : option Message :=
  id ← Jwt.str_field "id" l; ty ← Jwt.str_field "type" l; fr ← Jwt.str_field "from" l; to ← Jwt.strs_field "to" l;
  ct ← Jwt.int_field "created_time" l; et ← Jwt.int_field "expires_time" l; b ← any_map_field "body" l;
  ats ← GoTime.structs_field "attachments" l; ats ← mapM decode_attachment ats;
  Some (mkMessage id ty fr to ct et b ats).

Definition decodeX25519Multibase (mb : string) : result (list byte) :=
  if Nat.ltb (length (bytes_of mb)) 2 then Err (ErrMsg "x25519 key too short")
  else match (match multibase_decode mb with
              | Ok raw => Some raw
              | Err _ => Base64.DecodeString (str_of (drop 1 (bytes_of mb)))
              end) with
       | None => Err (ErrMsg "decode x25519 key multibase: illegal base64 data")
       | Some raw =>
           if Nat.ltb (length raw) 34 || negb (bool_decide (take 2 raw = [xec; x01]))
           then Err (ErrMsg "x25519 key has unexpected multicodec prefix (expected x25519-pub 0xEC 0x01)")
           else Ok (take 32 (drop 2 raw))
       end.
Fixpoint extract_x25519 (vms : list VerificationMethod) (kid : string) : result (list byte) :=
  match vms with
  | [] => Err (ErrMsg "key not found in DID document")
  | vm :: vms' =>
      if negb (vm_ID vm =s kid) then extract_x25519 vms' kid
      else if negb (vm_Type vm =s "X25519KeyAgreementKey2020") then Err (ErrMsg "key has the wrong type, want X25519KeyAgreementKey2020")
      else match vm_PublicKeyMultibase vm with
           | None => Err (ErrMsg "key has no publicKeyMultibase")
           | Some mb => decodeX25519Multibase mb
           end
  end.
Definition extractX25519KeyFromDoc (doc : Document) (kid : string) : result (list byte) :=
  extract_x25519 (doc_VerificationMethod doc) kid.

Context {St : Type} (resolve : string → M St (result Document)) (encKey : list byte) (encKeyID : string).

Definition recipKeyFn (kid : string) : result (list byte) :=
  if kid =s encKeyID then Ok encKey else Err (ErrMsg ("unknown recipient key: " +s kid)).
Definition senderPubFn (skid : string) : M St (result (list byte)) :=
  match LastIndex skid "#" with
  | None => mret (Err (ErrMsg ("invalid sender key ID: " +s skid)))
  | Some hashIdx =>
      let didStr := str_of (take hashIdx (bytes_of skid)) in
      r ← resolve didStr;
      match r with
      | Err e => mret (Err (ErrWrap ("resolve sender DID " +s didStr) e))
      | Ok doc => mret (extractX25519KeyFromDoc doc skid)
      end
  end.
Definition StatusUnsupportedMediaType : Z := 415.
Definition body_limit : nat := N.to_nat 1048576.
(** [raw] is the body as far as it can be read; [None] is a panic. *)
Definition handleDIDCommReceive (r : Request) (raw : result (list byte)) : M St (option Response) :=
  let ct := Header r "Content-Type" in
  if negb (ct =s MediaTypeEncrypted) && negb (HasPrefix ct (MediaTypeEncrypted +s ";"))
  then mret (Some (BridgeApi.writeJSONError StatusUnsupportedMediaType "invalid_media_type" ("Content-Type must be " +s MediaTypeEncrypted)))
  else match raw with
  | Err _ => mret (Some (BridgeApi.writeJSONError StatusBadRequest "read_error" "failed to read request body"))
  | Ok raw =>
      let body := take body_limit raw in
      if encKeyID =s ""
      then mret (Some (BridgeApi.writeJSONError 503 "not_configured" "DIDComm encryption key not configured; set identity.enc_key in config"))
      else
        res ← Unpack body recipKeyFn (Some senderPubFn);
        match res with
        | None => mret None
        | Some (Err _) => mret (Some (BridgeApi.writeJSONError StatusBadRequest "decryption_failed" "failed to decrypt envelope"))
        | Some (Ok (plaintext, senderKID)) =>
            match VcJson.unmarshal_struct decode_message plaintext with
            | None => mret (Some (BridgeApi.writeJSONError StatusBadRequest "invalid_message" "decrypted content is not a valid DIDComm message"))
            | Some msg =>
                mret (Some (JsonResp BridgeApi.StatusAccepted [("message_id", JStr (msg_ID msg)); ("type", JStr (msg_Type msg))]))
            end
        end
  end.
End Receive.
End Didcomm.
