(* ===== verification/DidcommProofs.v ===== *)
(** * DIDComm messages arrive, and from whom (pkg/didcomm, api/didcomm.go) *)

From S2P Require Import Prelude GoStd World Sha Base64 Json JsonValue Http StoreTypes.
From S2P Require Import Jwt Crypto GoTime Did Vc VcJson VcProofs DidJson KeyWrap BridgeApi Didcomm.
Import JsonValue Http Types Didcomm.

Module DidcommProofs.

(** ** The wire format is read back *)

Lemma decode_header_json h : wf (header_json h) → VcJson.unmarshal_struct decode_header (marshal (header_json h)) = Some h.
Proof.
  intros Hw. unfold VcJson.unmarshal_struct. rewrite parse_marshal by done. destruct h as [typ alg enc skid apu apv].
  unfold header_json. cbn [ph_Typ ph_Alg ph_Enc ph_SKID ph_APU ph_APV]. unfold Jwt.opt_field.
  destruct (String.eqb_spec skid "") as [->|], (String.eqb_spec apu "") as [->|], (String.eqb_spec apv "") as [->|]; reflexivity.
Qed.
Lemma decode_recip_json r : ∃ m, recip_json r = JObj m ∧ decode_recip m = Some r.
Proof. destruct r as [[kid [[kty crv x]|]] ek]; by eexists. Qed.
Lemma structs_rows {A} (f : A → json) (dec : list (string * json) → option A) l :
  (∀ a, ∃ m, f a = JObj m ∧ dec m = Some a) →
  (match rows_json f l with JArr vs => mapM GoTime.elem_members vs | JNull => Some [] | _ => None end ≫= mapM dec) = Some l.
Proof.
  intros Hf. pose proof (DidJson.structs_list_member f dec "k" "k" l Hf eq_refl) as Hl. by destruct l.
Qed.
Lemma decode_envelope_json e : wf (envelope_json e) →
  VcJson.unmarshal_struct decode_envelope (marshal (envelope_json e)) = Some e.
Proof.
  intros Hw. unfold VcJson.unmarshal_struct. rewrite parse_marshal by done. destruct e as [p rs iv ct tag].
  unfold envelope_json. cbn [env_Protected env_Recipients env_IV env_Ciphertext env_Tag].
  pose proof (structs_rows recip_json decode_recip rs decode_recip_json) as Hr. revert Hr.
  generalize (rows_json recip_json rs). intros j Hj.
  set (L := [("protected", JStr p); ("recipients", j); ("iv", JStr iv); ("ciphertext", JStr ct); ("tag", JStr tag)]).
  assert (GoTime.structs_field "recipients" L =
    match j with JArr vs => mapM GoTime.elem_members vs | JNull => Some [] | _ => None end) as H1.
  { etrans; [apply (DidJson.decode_mid _ _ _ [("protected", JStr p)] [("recipients", j)]); by repeat constructor|done]. }
  assert (Jwt.str_field "protected" L = Some p) as H2 by reflexivity.
  assert (Jwt.str_field "iv" L = Some iv) as H3 by reflexivity.
  assert (Jwt.str_field "ciphertext" L = Some ct) as H4 by reflexivity.
  assert (Jwt.str_field "tag" L = Some tag) as H5 by reflexivity.
  unfold decode_envelope. rewrite H1, H2, H3, H4, H5. cbn [mbind option_bind].
  destruct (match j with JArr vs => _ | _ => _ end) as [ms|]; [|done]. cbn [mbind option_bind] in *. by rewrite Hj.
Qed.
Lemma header_wf h :
  Json.valid_utf8 (ph_SKID h) → Json.valid_utf8 (ph_APU h) → Json.valid_utf8 (ph_APV h) →
  Json.valid_utf8 (ph_Typ h) → Json.valid_utf8 (ph_Alg h) → Json.valid_utf8 (ph_Enc h) → wf (header_json h).
Proof.
  intros. apply wf_JObj. repeat (apply Forall_cons; split; [by split|]). unfold Jwt.opt_field.
  repeat (apply Forall_app; split); case_match; by repeat constructor.
Qed.

(** ** The content key reaches its recipients *)

Section RoundTrip.
Context `{X25519Ok, AesBlockOk, XChaChaOk}.

(** What the sender used and what the recipient knows of the sender. *)
Definition sender_known (senderPriv : option (list byte)) (hdr : protectedHeader) (senderPub : list byte) : Prop :=
  match senderPriv with
  | None => ph_Alg hdr = algAnoncrypt
  | Some sp => ph_Alg hdr = algAuthcrypt ∧ x25519 sp x_base = Some senderPub
  end.
Lemma keks_agree senderPriv hdr senderPub ephPriv ephPub priv pub kek :
  sender_known senderPriv hdr senderPub → x25519 ephPriv x_base = Some ephPub → x25519 priv x_base = Some pub →
  sender_kek senderPriv hdr ephPriv pub = Ok kek → recipient_kek hdr senderPub priv ephPub = Some kek.
Proof.
  intros Hs He Hp Hk. unfold recipient_kek, sender_kek in *. destruct senderPriv as [sp|]; cbn in Hs.
  - destruct Hs as [Ha Hs]. rewrite Ha in *. change (algAuthcrypt =s algAnoncrypt) with false. rewrite String.eqb_refl.
    unfold ecdh1PUKEKSender, ecdh1PUKEKRecipient, x_product in *.
    rewrite (x25519_agree priv ephPriv pub ephPub Hp He), (x25519_agree priv sp pub senderPub Hp Hs). by rewrite Hk.
  - rewrite Hs in *. rewrite String.eqb_refl. unfold ecdhESKEKSender, ecdhESKEKRecipient, x_product in *.
    rewrite (x25519_agree priv ephPriv pub ephPub Hp He). by rewrite Hk.
Qed.

(** One entry of the recipient list. *)
Definition entry_of (senderPriv : option (list byte)) (hdr : protectedHeader) (cek : list byte) (r : Recipient) (j : jweRecip) : Prop :=
  ∃ ephPriv ephPub kek wrapped, x25519 ephPriv x_base = Some ephPub ∧
    sender_kek senderPriv hdr ephPriv (rc_PubKey r) = Ok kek ∧ KeyWrap.aesKeyWrap kek cek = Ok wrapped ∧
    j = mkJweRecip (mkJweRecipHeader (rc_KID r) (Some (mkJwkOKP "OKP" "X25519" (Base64.EncodeToString ephPub))))
          (Base64.EncodeToString wrapped).
Lemma wrap_recipients_inv {St} senderPriv hdr cek rs (w : World St) js :
  fst (wrap_recipients senderPriv hdr cek rs w) = Ok js → Forall2 (entry_of senderPriv hdr cek) rs js.
Proof.
  revert w js. induction rs as [|r rs IH]; intros w js; cbn [wrap_recipients]; [intros [= <-]; constructor|].
  unfold mbind, M_bind. destruct (generateX25519 w) as [eph w1] eqn:Eg.
  destruct eph as [[ephPriv ephPub]|]; [|done].
  assert (x25519 ephPriv x_base = Some ephPub) as He.
  { revert Eg. unfold generateX25519, mbind, M_bind. destruct (rand_read 32 w) as [[b|] w']; [|done].
    cbv zeta. unfold x_product. cbn [mret M_ret]. destruct (x25519 (clamp b) x_base) as [p|] eqn:Ex; cbn; [|done]. by intros [= <- <- <-]. }
  destruct (sender_kek _ _ _ _) as [kek|] eqn:Ek; [|done]. destruct (KeyWrap.aesKeyWrap kek cek) as [wrapped|] eqn:Ew; [|done].
  specialize (IH w1). destruct (wrap_recipients senderPriv hdr cek rs w1) as [l w2]. cbn [fst] in IH.
  unfold mret, M_ret. cbn [fst]. destruct l as [l|]; cbn; [|done]. intros [= <-]. constructor; [|by apply IH].
  by exists ephPriv, ephPub, kek, wrapped.
Qed.
Lemma unwrap_entry senderPriv hdr senderPub cek fn r j priv :
  sender_known senderPriv hdr senderPub → length cek = 32 → entry_of senderPriv hdr cek r j →
  fn (rc_KID r) = Ok priv → x25519 priv x_base = Some (rc_PubKey r) → unwrap_one hdr senderPub fn j = Some cek.
Proof.
  intros Hs Hl (ephPriv & ephPub & kek & wrapped & He & Hk & Hw & ->) Hf Hp. unfold unwrap_one.
  cbn [jr_Header jh_KID jh_EPK jwk_X jr_EncryptedKey]. rewrite Hf. cbn [mbind option_bind jwk_X].
  rewrite !Base64.DecodeString_EncodeToString. cbn [mbind option_bind]. rewrite (x25519_length _ _ _ He). cbn [negb Nat.eqb].
  rewrite (keks_agree _ _ _ _ _ _ _ _ Hs He Hp Hk). cbn [mbind option_bind].
  rewrite (KeyWrap.unwrap_wrap kek cek wrapped); [by rewrite Hl|by rewrite Hl|done].
Qed.
(** The recipients whose keys are held are those named: the first of them yields the key. *)
Definition keys_held (fn : string → result (list byte)) (rs : list Recipient) : Prop :=
  (∃ r priv, r ∈ rs ∧ fn (rc_KID r) = Ok priv) ∧
  (∀ r priv, r ∈ rs → fn (rc_KID r) = Ok priv → x25519 priv x_base = Some (rc_PubKey r)).
Lemma find_cek_held senderPriv hdr senderPub cek fn rs js :
  sender_known senderPriv hdr senderPub → length cek = 32 → Forall2 (entry_of senderPriv hdr cek) rs js →
  keys_held fn rs → find_cek hdr senderPub fn js = Some cek.
Proof.
  intros Hs Hl Hf [(r0 & priv0 & Hin0 & Hfn0) Hall]. induction Hf as [|r j rs js Hrj Hf IH]; [by apply not_elem_of_nil in Hin0|].
  cbn [find_cek]. destruct (fn (rc_KID r)) as [priv|e] eqn:Efn.
  - rewrite (unwrap_entry senderPriv hdr senderPub cek fn r j priv); try done. apply Hall; [by left|done].
  - assert (unwrap_one hdr senderPub fn j = None) as ->.
    { destruct Hrj as (? & ? & ? & ? & _ & _ & _ & ->). unfold unwrap_one. cbn [jr_Header jh_KID]. by rewrite Efn. }
    apply IH; [|intros r' p' Hr'; apply Hall; by right].
    apply elem_of_cons in Hin0 as [->|?]; [congruence|done].
Qed.

Lemma entries_wf senderPriv hdr cek rs js :
  Forall2 (entry_of senderPriv hdr cek) rs js → Forall (λ r, Json.valid_utf8 (rc_KID r)) rs → wf (rows_json recip_json js).
Proof.
  intros Hf Hu. assert (Forall wf (recip_json <$> js)) as Hw.
  { induction Hf as [|r j rs js Hrj _ IH]; [constructor|]. apply Forall_cons in Hu as [Hr Hu]. constructor; [|by apply IH].
    destruct Hrj as (? & ? & ? & ? & _ & _ & _ & ->). cbn. split_and!; try done; apply Jwt.base64_utf8. }
  destruct js as [|j js]; [done|]. by apply wf_JArr.
Qed.

(** ** Sealed envelopes open *)

Definition header_text_ok (hdr : protectedHeader) : Prop :=
  Forall Json.valid_utf8 [ph_SKID hdr; ph_APU hdr; ph_APV hdr; ph_Typ hdr; ph_Alg hdr; ph_Enc hdr].
(** How the recipient looks the sender up: the key it finds, or nothing to look up. *)
Definition sender_lookup {St} (spf : option (string → M St (result (list byte)))) (skid : string) (senderPub : list byte) : Prop :=
  if skid =s "" then senderPub = replicate 32 x00 else ∃ f, spf = Some f ∧ ∀ w, fst (f skid w) = Ok senderPub.
Lemma rand_read_length {St} n (w : World St) l w' : rand_read n w = (Ok l, w') → length l = n.
Proof. unfold rand_read. destruct (w_rand w (w_nrand w)); [|done]. intros [= <- _]. by rewrite length_fmap, length_seq. Qed.

Lemma open_sealed {St} senderPriv hdr msg rs (w : World St) env fn (spf : option (string → M St (result (list byte)))) senderPub wv :
  fst (seal_envelope senderPriv hdr msg rs w) = Ok env → header_text_ok hdr →
  Forall (λ r, Json.valid_utf8 (rc_KID r)) rs → sender_known senderPriv hdr senderPub →
  sender_lookup spf (ph_SKID hdr) senderPub → keys_held fn rs →
  fst (Unpack env fn spf wv) = Some (Ok (msg, ph_SKID hdr)).
Proof.
  intros HS Hh Hu Hs Hl Hk. unfold seal_envelope, mbind, M_bind in HS. destruct (rand_read 32 w) as [[cek|] w1] eqn:Ec; [|done].
  destruct (wrap_recipients senderPriv hdr cek rs w1) as [[js|] w2] eqn:Ew; [|done].
  apply (f_equal fst), wrap_recipients_inv in Ew. destruct (rand_read 24 w2) as [[iv|] w3] eqn:Ei; [|done].
  cbn [mret M_ret fst] in HS.
  match type of HS with Ok ?m = Ok env => assert (m = env) as <- by congruence end. clear HS. set (sealed := xc_seal cek iv msg _). set (off := length sealed - xc_overhead).
  assert (wf (header_json hdr)) as Hhw by (repeat apply Forall_cons in Hh as [? Hh]; by apply header_wf).
  unfold Unpack. rewrite decode_envelope_json.
  2: { apply wf_JObj. repeat (apply Forall_cons; split; [split; [done|]|]); try apply Jwt.base64_utf8; [|done]. by eapply entries_wf. }
  cbn [env_Protected]. rewrite Base64.DecodeString_EncodeToString, decode_header_json by done.
  unfold mbind at 1, M_bind at 1. unfold sender_lookup in Hl.
  assert (∃ wv', (if ph_SKID hdr =s "" then mret (Ok (replicate 32 x00))
    else match spf with
         | None => mret (Err (ErrMsg "didcomm: authcrypt envelope requires senderPubFn"))
         | Some f => r ← f (ph_SKID hdr); mret (wrap_err ("didcomm: resolve sender key " +s ph_SKID hdr) r)
         end) wv = (Ok senderPub, wv')) as [wv' ->].
  { destruct (ph_SKID hdr =s ""); [subst senderPub; by eexists|]. destruct Hl as (f & -> & Hf). specialize (Hf wv).
    unfold mbind, M_bind. destruct (f (ph_SKID hdr) wv) as [r wv']. cbn in Hf. subst r. by eexists. }
  cbn [env_Recipients]. rewrite (find_cek_held senderPriv hdr senderPub cek fn rs js); [|done|by eapply rand_read_length|done|done].
  unfold open_content, mret, M_ret. cbn [fst env_IV env_Ciphertext env_Tag env_Protected].
  rewrite !Base64.DecodeString_EncodeToString. rewrite (rand_read_length _ _ _ _ Ei). cbn [negb Nat.eqb].
  rewrite take_drop. subst sealed. by rewrite xc_open_seal.
Qed.

Lemma pack_header_text rs kid auth : Json.valid_utf8 kid → header_text_ok (pack_header rs kid auth).
Proof.
  intros Hk. unfold pack_header, header_text_ok. destruct auth; cbn [ph_SKID ph_APU ph_APV ph_Typ ph_Alg ph_Enc];
    repeat (apply Forall_cons; split); try apply Jwt.base64_utf8; try done.
Qed.

(** C19: A message that was packed is unpacked by every recipient that holds its key: the same
    bytes, with the sender's key identifier for an authenticated message, of which the
    recipient must know the sender's public key, and without one for an anonymous one. *)
Theorem unpack_pack {St} msg rs senderKID senderPriv (w : World St) env fn spf wv :
  fst (packEnvelope msg rs senderKID senderPriv w) = Ok env →
  Json.valid_utf8 senderKID → Forall (λ r, Json.valid_utf8 (rc_KID r)) rs → keys_held fn rs →
  match senderPriv with
  | None => True
  | Some sp => senderKID ≠ "" ∧ ∃ f senderPub, spf = Some f ∧ x25519 sp x_base = Some senderPub ∧
                 ∀ w : World St, fst (f senderKID w) = Ok senderPub
  end →
  fst (Unpack env fn spf wv) = Some (Ok (msg, match senderPriv with Some _ => senderKID | None => "" end)).
Proof.
  intros HP Hu Hus Hk Hs. unfold packEnvelope in HP. destruct rs as [|r rs]; [done|].
  destruct senderPriv as [sp|].
  - destruct Hs as (Hne & f & senderPub & -> & Hpub & Hf).
    apply (open_sealed (Some sp) (pack_header (r :: rs) senderKID true) msg (r :: rs) w env fn (Some f) senderPub wv); try done.
    + by apply pack_header_text.
    + unfold sender_lookup. cbn [pack_header ph_SKID]. apply String.eqb_neq in Hne. rewrite Hne. by exists f.
  - apply (open_sealed None (pack_header (r :: rs) senderKID false) msg (r :: rs) w env fn spf (replicate 32 x00) wv); try done.
    by apply pack_header_text.
Qed.

(** The header of an anonymous message that names a sender. *)
Definition spoofed_header (rs : list Recipient) (skid : string) : protectedHeader :=
  let h := pack_header rs "" false in
  mkProtectedHeader (ph_Typ h) (ph_Alg h) (ph_Enc h) skid (ph_APU h) (ph_APV h).
(** C37: The sender [Unpack] reports is not authenticated: whoever seals an anonymous message
    with public keys alone under a header that names any resolvable key as the sender's is
    reported as that sender. *)
Theorem sender_is_spoofable {St} msg rs victim (w : World St) env fn f senderPub wv :
  fst (seal_envelope None (spoofed_header rs victim) msg rs w) = Ok env →
  victim ≠ "" → Json.valid_utf8 victim → Forall (λ r, Json.valid_utf8 (rc_KID r)) rs → keys_held fn rs →
  (∀ w : World St, fst (f victim w) = Ok senderPub) →
  fst (Unpack env fn (Some f) wv) = Some (Ok (msg, victim)).
Proof.
  intros HS Hne Hu Hus Hk Hf.
  apply (open_sealed None (spoofed_header rs victim) msg rs w env fn (Some f) senderPub wv); try done.
  - pose proof (pack_header_text rs "" false eq_refl) as Hh. apply Forall_cons in Hh as [_ Hh]. by apply Forall_cons; split.
  - unfold sender_lookup. cbn [spoofed_header ph_SKID]. apply String.eqb_neq in Hne. rewrite Hne. by exists f.
Qed.
End RoundTrip.

(** ** The endpoint *)

Section Receive.
Context `{X25519Ok, AesBlockOk, XChaChaOk, Float64, MultibaseOk} {St : Type}.
Context (resolve : string → M St (result Document)) (encKey : list byte) (encKeyID : string).

(** The key a DID method publishes for key agreement is the key the endpoint extracts. *)
Lemma decode_published pub :
  length pub = 32 → 2 ≤ length (bytes_of (Did.toMultibase pub 236)) → decodeX25519Multibase (Did.toMultibase pub 236) = Ok pub.
Proof.
  intros Hl Hlen. unfold decodeX25519Multibase. rewrite (proj2 (Nat.ltb_ge _ 2)) by lia. unfold Did.toMultibase in *.
  destruct (multibase_roundtrip (Did.uvarint 236 ++ pub)) as (s & -> & ->).
  change (Did.uvarint 236) with [xec; x01]. rewrite length_app, Hl. cbn [length app Nat.ltb Nat.leb Nat.add orb].
  change (take 2 (xec :: x01 :: pub)) with [xec; x01]. rewrite bool_decide_true by done. cbn [negb].
  change (drop 2 (xec :: x01 :: pub)) with pub. by rewrite take_ge by lia.
Qed.

(** An authenticated message to the platform's key is accepted: the sender's public key is
    found under the key identifier in the document its DID resolves to. *)
Theorem packed_message_received r skid i doc sp senderPub encPub text msg (w : World St) env wv :
  Header r "Content-Type" = MediaTypeEncrypted → encKeyID ≠ "" → Json.valid_utf8 encKeyID →
  x25519 encKey x_base = Some encPub → Json.valid_utf8 skid → LastIndex skid "#" = Some i →
  (∀ w, fst (resolve (str_of (take i (bytes_of skid))) w) = Ok doc) →
  extractX25519KeyFromDoc doc skid = Ok senderPub → x25519 sp x_base = Some senderPub →
  fst (PackAuthcrypt text [mkRecipient encKeyID encPub] skid sp w) = Ok env → length env ≤ body_limit →
  VcJson.unmarshal_struct decode_message text = Some msg →
  fst (handleDIDCommReceive resolve encKey encKeyID r (Ok env) wv) =
    Some (JsonResp BridgeApi.StatusAccepted [("message_id", JStr (msg_ID msg)); ("type", JStr (msg_Type msg))]).
Proof.
  intros Hct Hne Hu Hep Hus Hi Hres Hext Hsp HP Hlen Hm. unfold handleDIDCommReceive. rewrite Hct, String.eqb_refl. cbn [negb andb].
  apply String.eqb_neq in Hne as Hne'. rewrite Hne', take_ge by done. unfold mbind, M_bind.
  assert (skid ≠ "") as Hsk by (intros ->; done).
  assert (fst (Unpack env (recipKeyFn encKey encKeyID) (Some (senderPubFn resolve)) wv) = Some (Ok (text, skid))) as HU.
  { apply (open_sealed (Some sp) (pack_header [mkRecipient encKeyID encPub] skid true) text [mkRecipient encKeyID encPub] w env _ _ senderPub wv).
    - exact HP.
    - by apply pack_header_text.
    - by repeat constructor.
    - done.
    - unfold sender_lookup. cbn [pack_header ph_SKID]. apply String.eqb_neq in Hsk. rewrite Hsk. eexists. split; [done|].
      intros w'. unfold senderPubFn. rewrite Hi. unfold mbind, M_bind. specialize (Hres w').
      destruct (resolve _ w') as [d w'']. cbn in Hres. subst d. exact Hext.
    - split.
      + exists (mkRecipient encKeyID encPub), encKey. split; [by left|]. unfold recipKeyFn. cbn [rc_KID]. by rewrite String.eqb_refl.
      + intros r' priv ->%list_elem_of_singleton. unfold recipKeyFn. cbn [rc_KID rc_PubKey]. rewrite String.eqb_refl. by intros [= <-]. }
  destruct (Unpack _ _ _ wv) as [res w1]. cbn [fst] in HU. subst res. by rewrite Hm.
Qed.

(** An envelope whose content key unwraps and whose nonce does not have 24 bytes stops the
    request with a panic. *)
Theorem wrong_nonce_panics {St'} raw env prot hdr senderPub cek iv ct tag fn (spf : option (string → M St' (result (list byte)))) (wv : World St') :
  VcJson.unmarshal_struct decode_envelope raw = Some env → Base64.DecodeString (env_Protected env) = Some prot →
  VcJson.unmarshal_struct decode_header prot = Some hdr → ph_SKID hdr = "" → senderPub = replicate 32 x00 →
  find_cek hdr senderPub fn (env_Recipients env) = Some cek →
  Base64.DecodeString (env_IV env) = Some iv → Base64.DecodeString (env_Ciphertext env) = Some ct →
  Base64.DecodeString (env_Tag env) = Some tag → length iv ≠ 24 → fst (Unpack raw fn spf wv) = None.
Proof.
  intros He Hp Hh Hs -> Hc Hiv Hct Htag Hl. unfold Unpack. rewrite He, Hp, Hh, Hs. change ("" =s "") with true. cbv iota.
  unfold mbind, M_bind, mret, M_ret. rewrite Hc. unfold open_content. rewrite Hiv, Hct, Htag.
  apply Nat.eqb_neq in Hl. by rewrite Hl.
Qed.
End Receive.

(** ** Instances *)

Module Sample.
(** Exclusive or in place of the curve, the block cipher and the stream cipher. *)
Definition pad32 (l : list byte) : list byte := take 32 (l ++ replicate 32 x00).
Lemma length_pad32 l : length (pad32 l) = 32.
Proof. unfold pad32. rewrite length_take, length_app, length_replicate. lia. Qed.
Lemma pad32_id l : length l = 32 → pad32 l = l.
Proof. intros Hl. unfold pad32. by rewrite take_app_length'. Qed.
#[export] Instance xor_curve : X25519 := {| x25519 a p := Some (zip_with bxor (pad32 a) (pad32 p)) |}.
#[export] Instance xor_curve_ok : X25519Ok.
Proof.
  split.
  - intros a p z [= <-]. rewrite length_zip_with, !length_pad32. done.
  - intros a b pa pb [= <-] [= <-]. cbn [x25519 xor_curve]. f_equal.
    rewrite !(pad32_id (zip_with _ _ _)) by (by rewrite length_zip_with, !length_pad32).
    apply list_eq. intros i. rewrite !lookup_zip_with.
    destruct (pad32 a !! i), (pad32 b !! i), (pad32 x_base !! i); cbn; try done. f_equal.
    by rewrite !bxor_assoc, (bxor_comm b0 b1).
Qed.
#[export] Existing Instance KeyWrap.xor_cipher.
#[export] Existing Instance KeyWrap.xor_cipher_ok.
#[export] Existing Instance VcProofs.Sample.plain_float.
#[export] Existing Instance Did.hex_multibase.
#[export] Existing Instance Did.hex_multibase_ok.
#[export] Instance plain_aead : XChaCha := {|
  xc_seal _ _ m _ := m ++ replicate 16 x00; xc_open _ _ c _ := Some (take (length c - 16) c) |}.
#[export] Instance plain_aead_ok : XChaChaOk.
Proof. split. intros k n m a. unfold xc_open, xc_seal, plain_aead. by rewrite length_app, length_replicate, Nat.add_sub, take_app_length. Qed.

Definition world : World unit := mkWorld (λ _, 0%Z) 0 (λ n, Some (λ i, byte_of_N (N.of_nat (n + i)))) 0 (λ _, None) 0 tt.
Definition bob_key : list byte := replicate 32 x07.
Definition bob_pub : list byte := zip_with bxor (pad32 bob_key) (pad32 x_base).
Definition alice_key : list byte := replicate 32 x70.
Definition alice_pub : list byte := zip_with bxor (pad32 alice_key) (pad32 x_base).
Definition bob : Recipient := mkRecipient "did:web:bob#enc" bob_pub.
Definition keys : string → result (list byte) := recipKeyFn bob_key "did:web:bob#enc".
Definition text : list byte := marshal (JObj [("id", JStr "m1"); ("type", JStr "ping")]).
Definition authed : list byte := match fst (PackAuthcrypt text [bob] "did:web:alice#enc" alice_key world) with Ok e => e | Err _ => [] end.
Definition spoofed : list byte := match fst (seal_envelope None (spoofed_header [bob] "did:web:alice#enc") text [bob] world) with Ok e => e | Err _ => [] end.
Lemma authed_ok : fst (packEnvelope text [bob] "did:web:alice#enc" (Some alice_key) world) = Ok authed.
Proof. vm_compute. reflexivity. Qed.
Lemma spoofed_ok : fst (seal_envelope None (spoofed_header [bob] "did:web:alice#enc") text [bob] world) = Ok spoofed.
Proof. vm_compute. reflexivity. Qed.
Definition alice_known (_ : string) : M unit (result (list byte)) := mret (Ok alice_pub).
Lemma bob_held : keys_held keys [bob].
Proof.
  split; [exists bob, bob_key; split; [by left|reflexivity]|].
  intros r priv ->%list_elem_of_singleton [= <-]. reflexivity.
Qed.
(** Alice's document, and an anonymous envelope with the nonce cut short. *)
Definition alice_doc : Document :=
  mkDocument [] "did:web:alice" "" [mkVerificationMethod "did:web:alice#enc" "X25519KeyAgreementKey2020" "did:web:alice"
    (Some (Did.toMultibase alice_pub 236)) false None] [] [] [] [] None None.
Definition resolve_alice (_ : string) : M unit (result Document) := mret (Ok alice_doc).
Definition no_envelope : Envelope := mkEnvelope "" [] "" "" "".
Definition cut : Envelope :=
  let e := match fst (PackAnoncrypt text [bob] world) with
           | Ok raw => default no_envelope (VcJson.unmarshal_struct decode_envelope raw)
           | Err _ => no_envelope
           end in
  mkEnvelope (env_Protected e) (env_Recipients e) "AA" (env_Ciphertext e) (env_Tag e).
Definition cut_prot : list byte := default [] (Base64.DecodeString (env_Protected cut)).
Definition cut_hdr : protectedHeader := default (pack_header [] "" false) (VcJson.unmarshal_struct decode_header cut_prot).
Definition cut_cek : list byte := default [] (find_cek cut_hdr (replicate 32 x00) keys (env_Recipients cut)).
End Sample.

Section Witnesses.
Import Sample.

Definition didcomm_request : Request := mkRequest [] None [("Content-Type", MediaTypeEncrypted)] None [] "" None.
Definition ping : Message := mkMessage "m1" "ping" "" [] 0 0 [] [].
Lemma packed_message_received_witness :
  fst (handleDIDCommReceive resolve_alice bob_key "did:web:bob#enc" didcomm_request (Ok authed) world) =
    Some (JsonResp BridgeApi.StatusAccepted [("message_id", JStr "m1"); ("type", JStr "ping")]).
Proof.
  apply (packed_message_received resolve_alice bob_key "did:web:bob#enc" didcomm_request "did:web:alice#enc" 13 alice_doc
    alice_key alice_pub bob_pub text ping world authed world).
  - reflexivity.
  - discriminate.
  - reflexivity.
  - reflexivity.
  - reflexivity.
  - reflexivity.
  - intros w. reflexivity.
  - vm_compute. reflexivity.
  - reflexivity.
  - exact authed_ok.
  - assert (length authed < 1000) by (apply Nat.ltb_lt; vm_compute; reflexivity). unfold body_limit. lia.
  - vm_compute. reflexivity.
Defined.
Lemma wrong_nonce_panics_witness : fst (Unpack (St:=unit) (marshal (envelope_json cut)) keys None world) = None.
Proof.
  apply (wrong_nonce_panics (marshal (envelope_json cut)) cut cut_prot cut_hdr (replicate 32 x00) cut_cek [x00]
    (default [] (Base64.DecodeString (env_Ciphertext cut))) (default [] (Base64.DecodeString (env_Tag cut))) keys None world);
    first [discriminate | vm_compute; reflexivity].
Defined.

Lemma unpack_pack_witness :
  fst (Unpack authed keys (Some alice_known) world) = Some (Ok (text, "did:web:alice#enc")).
Proof.
  apply (unpack_pack text [bob] "did:web:alice#enc" (Some alice_key) world authed keys (Some alice_known) world).
  - exact authed_ok.
  - reflexivity.
  - by repeat constructor.
  - exact bob_held.
  - split; [discriminate|]. exists alice_known, alice_pub. split; [reflexivity|]. split; [reflexivity|]. intros w. reflexivity.
Defined.
Lemma sender_is_spoofable_witness :
  fst (Unpack spoofed keys (Some alice_known) world) = Some (Ok (text, "did:web:alice#enc")).
Proof.
  apply (sender_is_spoofable text [bob] "did:web:alice#enc" world spoofed keys alice_known alice_pub world).
  - exact spoofed_ok.
  - discriminate.
  - reflexivity.
  - by repeat constructor.
  - exact bob_held.
  - intros w. reflexivity.
Defined.
End Witnesses.
End DidcommProofs.
