(* ===== verification/Keystore.v ===== *)
(** * Key files and symmetric encryption (pkg/keystore/keystore.go, pkg/crypto/encrypt.go,
    pkg/crypto/sign.go)

    A key file holds one PEM block: the private key, as it is or encrypted under a
    passphrase.  Files are kept as the block they hold, or none when [pem.Decode] finds
    none; the text form of PEM is left out. *)

From S2P Require Import Prelude GoStd World Sha Jwt Totp Crypto KeyWrap Didcomm DidcommProofs VcProofs.

(** ed25519: the 64-byte private key of a 32-byte seed ([NewKeyFromSeed]). *)
Class Ed25519Seed := { ed_from_seed : list byte → list byte }.
Class Ed25519SeedOk `{Ed25519Seed} : Prop := { ed_from_seed_length s : length (ed_from_seed s) = 64 }.
(** golang.org/x/crypto/nacl/secretbox: 16 bytes of overhead. *)
Class SecretBox := {
  box_seal : list byte → list byte → list byte → list byte;
  box_open : list byte → list byte → list byte → option (list byte) }.
Class SecretBoxOk `{SecretBox} : Prop := {
  box_length k n m : length (box_seal k n m) = length m + 16;
  box_open_seal k n m : box_open k n (box_seal k n m) = Some m }.

Module Keystore.

(** ** Symmetric encryption *)

Definition KeySize : nat := 32.
Definition NonceSize : nat := 24.
Definition Overhead : nat := 16.

Section Encrypt.
Context `{X25519, SecretBox} {St : Type}.

Definition GenerateEncryptionKey : M St (result (list byte * list byte)) :=
  b ← rand_read KeySize;
  mret (match b with
        | Err e => Err e
        | Ok priv =>
            let priv := Didcomm.clamp priv in
            match x25519 priv x_base with
            | None => Err (ErrWrap "x25519 pubkey" Didcomm.low_order)
            | Some pub => Ok (pub, priv)
            end
        end).
Definition ECDH (myPriv theirPub : list byte) : result (list byte) :=
  wrap_err "x25519" (Didcomm.x_product myPriv theirPub).
Definition Seal (key plaintext : list byte) : M St (result (list byte)) :=
  nonce ← rand_read NonceSize;
  mret (match nonce with
        | Err e => Err (ErrWrap "nonce" e)
        | Ok nonce => Ok (nonce ++ box_seal key nonce plaintext)
        end).
Definition Open (key ciphertext : list byte) : result (list byte) :=
  if Nat.ltb (length ciphertext) (NonceSize + Overhead) then Err (ErrMsg "ciphertext too short")
  else of_option (ErrMsg "decryption failed") (box_open key (take NonceSize ciphertext) (drop NonceSize ciphertext)).
End Encrypt.

(** ** Key files *)

Record Keystore := mkKeystore {
  ks_SigningPub : list byte; ks_SigningPriv : list byte; ks_EncPub : list byte; ks_EncPriv : list byte; ks_HasEnc : bool }.
Record Block := mkBlock { pb_Type : string; pb_Headers : gmap string string; pb_Bytes : list byte }.
Definition Files : Type := gmap string (option Block).

Definition saltLen : nat := 32.
Definition keyNonceSize : nat := 12.

Section Files.
Context `{Ed25519, Ed25519Seed, X25519, Argon2, AesGcm}.

Definition GenerateSigningKey {St} : M St (result (list byte * list byte)) :=
  seed ← rand_read 32;
  mret (match seed with
        | Err e => Err e
        | Ok seed => let priv := ed_from_seed seed in Ok (ed_public priv, priv)
        end).
Definition Generate {St} : M St (result Keystore) :=
  sig ← GenerateSigningKey;
  match sig with
  | Err e => mret (Err (ErrWrap "ed25519" e))
  | Ok (pub, priv) =>
      enc ← GenerateEncryptionKey;
      match enc with
      | Err e => mret (Err (ErrWrap "x25519" e))
      | Ok (encPub, encPriv) => mret (Ok (mkKeystore pub priv encPub encPriv true))
      end
  end.

Definition encryptKey {St} (key : list byte) (passphrase : string) : M St (result (list byte * list byte * list byte)) :=
  salt ← rand_read saltLen;
  match salt with
  | Err e => mret (Err e)
  | Ok salt =>
      let dk := argon2_id (bytes_of passphrase) salt in
      nonce ← rand_read keyNonceSize;
      match nonce with
      | Err e => mret (Err e)
      | Ok nonce => mret (Ok (gcm_seal dk nonce key, salt, nonce))
      end
  end.
(** [gcm.Open] panics on a nonce that does not have twelve bytes: no result. *)
Definition decryptKey (ciphertext salt nonce : list byte) (passphrase : string) : option (result (list byte)) :=
  let dk := argon2_id (bytes_of passphrase) salt in
  if negb (Nat.eqb (length nonce) keyNonceSize) then None
  else Some (of_option (ErrMsg "decryption failed: wrong passphrase or corrupted key") (gcm_open dk nonce ciphertext)).

Definition EncodeHex (b : list byte) : string := str_of (hex_encode b).
(** The file is truncated when it is opened; a write that fails leaves it empty. *)
Definition write_file (path : string) (block : Block) : M Files (result unit) :=
  opened ← db_call (λ fs, (Ok tt, <[path := None]> fs));
  match opened with
  | Err e => mret (Err (ErrWrap ("open " +s path) e))
  | Ok _ => db_call (λ fs, (Ok tt, <[path := Some block]> fs))
  end.
Definition savePEM (key : list byte) (keyType path passphrase : string) : M Files (result unit) :=
  if passphrase =s "" then write_file path (mkBlock keyType ∅ key)
  else
    enc ← encryptKey key passphrase;
    match enc with
    | Err e => mret (Err e)
    | Ok (ct, salt, nonce) =>
        write_file path (mkBlock keyType
          {["Proc-Type" := "4,ENCRYPTED"; "Salt" := EncodeHex salt; "Nonce" := EncodeHex nonce]} ct)
    end.
Definition header (b : Block) (k : string) : string := default "" (pb_Headers b !! k).
Definition not_exist : error := ErrMsg "no such file or directory".
Definition loadPEM (path passphrase : string) : M Files (option (result (list byte))) :=
  data ← db_call (λ fs, (of_option not_exist (fs !! path), fs));
  mret (match data with
        | Err e => Some (Err (ErrWrap ("read " +s path) e))
        | Ok None => Some (Err (ErrMsg "no PEM block found"))
        | Ok (Some block) =>
            if negb (header block "Proc-Type" =s "4,ENCRYPTED") then Some (Ok (pb_Bytes block))
            else if passphrase =s "" then Some (Err (ErrMsg "key is encrypted but no passphrase provided"))
            else match hex_decode (bytes_of (header block "Salt")), hex_decode (bytes_of (header block "Nonce")) with
                 | None, _ => Some (Err (ErrMsg "salt decode: encoding/hex: invalid byte"))
                 | _, None => Some (Err (ErrMsg "nonce decode: encoding/hex: invalid byte"))
                 | Some salt, Some nonce => decryptKey (pb_Bytes block) salt nonce passphrase
                 end
        end).

Definition SaveSigning (ks : Keystore) (path passphrase : string) : M Files (result unit) :=
  savePEM (ks_SigningPriv ks) "ED25519 PRIVATE KEY" path passphrase.
Definition SaveEncryption (ks : Keystore) (path passphrase : string) : M Files (result unit) :=
  savePEM (ks_EncPriv ks) "X25519 PRIVATE KEY" path passphrase.
Definition zero_key : list byte := replicate 32 x00.
Definition LoadSigning (path passphrase : string) : M Files (option (result Keystore)) :=
  raw ← loadPEM path passphrase;
  mret (match raw with
        | None => None
        | Some (Err e) => Some (Err e)
        | Some (Ok raw) =>
            Some (if negb (Nat.eqb (length raw) 64) then Err (ErrMsg "invalid ed25519 key length")
                  else Ok (mkKeystore (ed_public raw) raw zero_key zero_key false))
        end).
Definition x25519PublicFromPrivate (priv : list byte) : result (list byte) := Didcomm.x_product priv x_base.
(** On an error past the length check the private key is already in place. *)
Definition LoadEncryption (ks : Keystore) (path passphrase : string) : M Files (option (result unit * Keystore)) :=
  raw ← loadPEM path passphrase;
  mret (match raw with
        | None => None
        | Some (Err e) => Some (Err e, ks)
        | Some (Ok raw) =>
            Some (if negb (Nat.eqb (length raw) KeySize) then (Err (ErrMsg "invalid x25519 key length"), ks)
                  else let ks1 := mkKeystore (ks_SigningPub ks) (ks_SigningPriv ks) (ks_EncPub ks) raw (ks_HasEnc ks) in
                       match x25519PublicFromPrivate raw with
                       | Err e => (Err (ErrWrap "derive x25519 pub" e), ks1)
                       | Ok pub => (Ok tt, mkKeystore (ks_SigningPub ks) (ks_SigningPriv ks) pub raw true)
                       end)
        end).
End Files.

(** ** What is stored is read back *)

Section RoundTrip.
Context `{Ed25519, Ed25519Seed, X25519, Argon2, AesGcmOk}.

(** Sealing under a shared secret and opening under the same secret. *)
Theorem open_seal `{SecretBoxOk} {St} key m (w : World St) c : fst (Seal key m w) = Ok c → Open key c = Ok m.
Proof.
  unfold Seal, mbind, M_bind. destruct (rand_read NonceSize w) as [[n|] w'] eqn:E; [|done].
  apply DidcommProofs.rand_read_length in E. cbn [mret M_ret fst]. intros [= <-]. unfold Open.
  rewrite length_app, E, box_length. replace (Nat.ltb _ _) with false by (symmetry; apply Nat.ltb_ge; unfold NonceSize, Overhead; lia).
  rewrite take_app_length', drop_app_length' by done. by rewrite box_open_seal.
Qed.

(** The block a key is saved as. *)
Definition saved_as (key : list byte) (keyType passphrase : string) (b : Block) : Prop :=
  if passphrase =s "" then b = mkBlock keyType ∅ key
  else ∃ salt nonce, length nonce = keyNonceSize ∧
    b = mkBlock keyType {["Proc-Type" := "4,ENCRYPTED"; "Salt" := EncodeHex salt; "Nonce" := EncodeHex nonce]}
          (gcm_seal (argon2_id (bytes_of passphrase) salt) nonce key).
Lemma write_file_inv path b (w w' : World Files) :
  write_file path b w = (Ok tt, w') → w_state w' !! path = Some (Some b) ∧ w_fault w' = w_fault w.
Proof.
  unfold write_file, mbind, M_bind, db_call. destruct (w_fault w (w_nfault w)); [done|]. cbn [w_fault w_nfault w_state].
  destruct (w_fault w (S (w_nfault w))); [done|]. intros [= <-]. cbn [w_state w_fault]. split; [apply lookup_insert_eq|done].
Qed.
Lemma savePEM_inv key ty path pass (w w' : World Files) :
  savePEM key ty path pass w = (Ok tt, w') →
  ∃ b, w_state w' !! path = Some (Some b) ∧ saved_as key ty pass b ∧ w_fault w' = w_fault w.
Proof.
  unfold savePEM, saved_as. destruct (pass =s "") eqn:Ep.
  { intros Hw. apply write_file_inv in Hw as [Hs Hf]. by eexists. }
  unfold encryptKey, mbind, M_bind. destruct (rand_read saltLen w) as [[salt|] w1] eqn:E1; [|done].
  destruct (rand_read keyNonceSize w1) as [[nonce|] w2] eqn:E2; [|done]. cbn [mret M_ret]. intros Hw.
  apply write_file_inv in Hw as [Hs Hf]. eexists. split; [exact Hs|]. split.
  - exists salt, nonce. split; [by eapply DidcommProofs.rand_read_length|done].
  - rewrite Hf. unfold rand_read in E1, E2. injection E1 as _ <-. injection E2 as _ <-. done.
Qed.
Lemma load_block path pass key ty pass' b (w : World Files) :
  w_state w !! path = Some (Some b) → saved_as key ty pass b → no_faults w → pass = "" ∨ pass' = pass →
  fst (loadPEM path pass' w) = Some (Ok key).
Proof.
  intros Hs Hb Hf Hp. unfold loadPEM, mbind, M_bind, db_call. rewrite (Hf (w_nfault w)), Hs. cbn [of_option mret M_ret fst].
  unfold saved_as in Hb. destruct (String.eqb_spec pass "") as [->|Hne].
  - subst b. unfold header. cbn [pb_Headers]. by rewrite lookup_empty.
  - destruct Hb as (salt & nonce & Hn & ->). destruct Hp as [?| ->]; [done|]. unfold header, EncodeHex. cbn [pb_Headers pb_Bytes].
    apply String.eqb_neq in Hne. rewrite Hne.
    rewrite lookup_insert_eq. cbn [default from_option id]. change (negb ("4,ENCRYPTED" =s "4,ENCRYPTED")) with false. cbv iota.
    rewrite lookup_insert_ne, lookup_insert_eq by done. rewrite !lookup_insert_ne, lookup_singleton_eq by done.
    cbn [default from_option id]. rewrite !bytes_of_str_of, !hex_decode_encode. unfold decryptKey. rewrite Hn. cbn [negb Nat.eqb].
    by rewrite gcm_open_seal.
Qed.

(** A signing key that was saved is loaded again, with its public key, under the passphrase
    it was saved with; one saved without a passphrase is loaded under any. *)
Theorem load_saved_key ks path pass pass' (w w' : World Files) :
  length (ks_SigningPriv ks) = 64 → SaveSigning ks path pass w = (Ok tt, w') → no_faults w → pass = "" ∨ pass' = pass →
  fst (LoadSigning path pass' w') =
    Some (Ok (mkKeystore (ed_public (ks_SigningPriv ks)) (ks_SigningPriv ks) zero_key zero_key false)).
Proof.
  intros Hl Hs Hf Hp. apply savePEM_inv in Hs as (b & Hst & Hb & Hfl).
  pose proof (load_block path pass _ _ pass' b w' Hst Hb ltac:(intros n; rewrite Hfl; apply Hf) Hp) as HL.
  unfold LoadSigning, mbind, M_bind. destruct (loadPEM path pass' w') as [raw w2]. cbn [fst] in HL. subst raw.
  cbn [mret M_ret fst]. by rewrite Hl.
Qed.
End RoundTrip.

(** ** Instances *)

Section Witnesses.
Import DidcommProofs.Sample.
#[local] Instance seeds : Ed25519Seed := {| ed_from_seed s := pad32 s ++ pad32 s |}.
#[local] Instance plain_gcm : AesGcm := {| gcm_seal _ _ m := m; gcm_open _ _ c := Some c |}.
#[local] Instance plain_gcm_ok : AesGcmOk.
Proof. by split. Qed.
#[local] Instance plain_argon : Argon2 := {| argon2_id p s := p ++ s |}.
#[local] Existing Instance VcProofs.Sample.suffix_scheme.
#[local] Instance plain_box : SecretBox := {|
  box_seal _ _ m := m ++ replicate 16 x00; box_open _ _ c := Some (take (length c - 16) c) |}.
#[local] Instance plain_box_ok : SecretBoxOk.
Proof.
  split; intros k n m; unfold box_open, box_seal, plain_box.
  - by rewrite length_app, length_replicate.
  - by rewrite length_app, length_replicate, Nat.add_sub, take_app_length.
Qed.
Definition disk : World Files := mkWorld (λ _, 0%Z) 0 (λ n, Some (λ i, byte_of_N (N.of_nat (n + i)))) 0 (λ _, None) 0 ∅.
Definition some_keys : Keystore := mkKeystore [] (replicate 64 x11) [] [] false.

Lemma open_seal_witness :
  Open (replicate 32 x01) (match fst (Seal (replicate 32 x01) [x05] disk) with Ok c => c | Err _ => [] end) = Ok [x05].
Proof. apply (open_seal (replicate 32 x01) [x05] disk). vm_compute. reflexivity. Defined.
Lemma load_saved_key_witness :
  fst (LoadSigning "k.pem" "secret" (snd (SaveSigning some_keys "k.pem" "secret" disk))) =
    Some (Ok (mkKeystore (ed_public (replicate 64 x11)) (replicate 64 x11) zero_key zero_key false)).
Proof.
  apply (load_saved_key some_keys "k.pem" "secret" "secret" disk (snd (SaveSigning some_keys "k.pem" "secret" disk))).
  - reflexivity.
  - vm_compute. reflexivity.
  - intros n. reflexivity.
  - by right.
Defined.
End Witnesses.
End Keystore.
