(* ===== verification/Pe.v ===== *)
(** * Presentation exchange (pkg/pe: definition.go, submission.go; api/presentations.go)

    Definitions and submissions with their JSON forms, the evaluation of a submission
    and the two endpoints.  A value of type [any] is the JSON value it holds, nil being
    null; messages do not repeat the values they quote. *)

From S2P Require Import Prelude GoStd World Sha Json JsonValue Http.
From S2P Require Import StoreTypes Store Logic Events Jwt Crypto GoTime Vc VcJson BridgeApi.
Import JsonValue Http Types.

Module Pe.

(** ** Definitions (definition.go) *)

Record Filter := mkFilter {
  fl_Type : string; fl_Format : string; fl_Pattern : string; fl_Const : json; fl_Enum : list json;
  fl_Minimum : json; fl_Maximum : json }.
Record Field := mkField {
  fd_Path : list string; fd_ID : string; fd_Purpose : string; fd_Filter : option Filter; fd_Optional : bool;
  fd_Predicate : string }.
Record Constraints := mkConstraints {
  cs_Fields : list Field; cs_LimitDisclosure : string; cs_SubjectIsIssuer : string }.
Record FormatDetail := mkFormatDetail { fmd_Alg : list string; fmd_ProofType : list string }.
Record Format := mkFormat {
  fm_LDPvc : option FormatDetail; fm_LDPvp : option FormatDetail; fm_JWTVC : option FormatDetail;
  fm_JWTVP : option FormatDetail }.
Record InputDescriptor := mkInputDescriptor {
  in_ID : string; in_Name : string; in_Purpose : string; in_Constraints : option Constraints; in_Format : option Format }.
Record PresentationDefinition := mkPresentationDefinition {
  df_ID : string; df_Name : string; df_Purpose : string; df_InputDescriptors : list InputDescriptor;
  df_Format : option Format }.
Record PresentationRequest := mkPresentationRequest {
  prq_ID : string; prq_Definition : PresentationDefinition; prq_Nonce : string; prq_Domain : string }.

(** *** Written as JSON *)

Definition opt_any (k : string) (v : json) : list (string * json) := match v with JNull => [] | _ => [(k, v)] end.
Definition opt_strs (k : string) (l : list string) : list (string * json) :=
  match l with [] => [] | _ => [(k, JArr (JStr <$> l))] end.
Definition filter_json (f : Filter) : json :=
  JObj (Jwt.opt_field "type" (fl_Type f) ++ Jwt.opt_field "format" (fl_Format f) ++
        Jwt.opt_field "pattern" (fl_Pattern f) ++ opt_any "const" (fl_Const f) ++
        match fl_Enum f with [] => [] | l => [("enum", JArr l)] end ++
        opt_any "minimum" (fl_Minimum f) ++ opt_any "maximum" (fl_Maximum f)).
Definition field_json (f : Field) : json :=
  JObj ([("path", Vc.strs_json (fd_Path f))] ++ Jwt.opt_field "id" (fd_ID f) ++ Jwt.opt_field "purpose" (fd_Purpose f) ++
        Vc.opt_member "filter" filter_json (fd_Filter f) ++
        (if fd_Optional f then [("optional", JBool true)] else []) ++ Jwt.opt_field "predicate" (fd_Predicate f)).
Definition constraints_json (c : Constraints) : json :=
  JObj (match cs_Fields c with [] => [] | l => [("fields", JArr (field_json <$> l))] end ++
        Jwt.opt_field "limit_disclosure" (cs_LimitDisclosure c) ++
        Jwt.opt_field "subject_is_issuer" (cs_SubjectIsIssuer c)).
Definition detail_json (d : FormatDetail) : json :=
  JObj (opt_strs "alg" (fmd_Alg d) ++ opt_strs "proof_type" (fmd_ProofType d)).
Definition format_json (f : Format) : json :=
  JObj (Vc.opt_member "ldp_vc" detail_json (fm_LDPvc f) ++ Vc.opt_member "ldp_vp" detail_json (fm_LDPvp f) ++
        Vc.opt_member "jwt_vc" detail_json (fm_JWTVC f) ++ Vc.opt_member "jwt_vp" detail_json (fm_JWTVP f)).
Definition descriptor_json (d : InputDescriptor) : json :=
  JObj ([("id", JStr (in_ID d))] ++ Jwt.opt_field "name" (in_Name d) ++ Jwt.opt_field "purpose" (in_Purpose d) ++
        Vc.opt_member "constraints" constraints_json (in_Constraints d) ++
        Vc.opt_member "format" format_json (in_Format d)).
Definition definition_json (d : PresentationDefinition) : json :=
  JObj ([("id", JStr (df_ID d))] ++ Jwt.opt_field "name" (df_Name d) ++ Jwt.opt_field "purpose" (df_Purpose d) ++
        [("input_descriptors", match df_InputDescriptors d with [] => JNull | l => JArr (descriptor_json <$> l) end)] ++
        Vc.opt_member "format" format_json (df_Format d)).

(** *** Read from JSON *)

Section Decode.
Context `{Float64}.
Definition any_field (k : string) (l : list (string * json)) : option json :=
  Jwt.decode_into (λ _ v, Crypto.any_of v) JNull k l.
Definition anys_field (k : string) (l : list (string * json)) : option (list json) :=
  Jwt.decode_into (λ _ v, match v with JArr vs => mapM Crypto.any_of vs | JNull => Some [] | _ => None end) [] k l.

Definition decode_filter (l : list (string * json)) : option Filter :=
  ty ← Jwt.str_field "type" l; fm ← Jwt.str_field "format" l; pt ← Jwt.str_field "pattern" l;
  c ← any_field "const" l; e ← anys_field "enum" l; mi ← any_field "minimum" l; ma ← any_field "maximum" l;
  Some (mkFilter ty fm pt c e mi ma).
Definition decode_field (l : list (string * json)) : option Field :=
  path ← Jwt.strs_field "path" l; id ← Jwt.str_field "id" l; purpose ← Jwt.str_field "purpose" l;
  f ← GoTime.ptr_field "filter" l; f ← VcJson.ptr decode_filter f;
  o ← GoTime.bool_field "optional" l; pred ← Jwt.str_field "predicate" l;
  Some (mkField path id purpose f o pred).
Definition decode_constraints (l : list (string * json)) : option Constraints :=
  fs ← GoTime.structs_field "fields" l; fs ← mapM decode_field fs;
  ld ← Jwt.str_field "limit_disclosure" l; si ← Jwt.str_field "subject_is_issuer" l;
  Some (mkConstraints fs ld si).
Definition decode_detail (l : list (string * json)) : option FormatDetail :=
  a ← Jwt.strs_field "alg" l; p ← Jwt.strs_field "proof_type" l; Some (mkFormatDetail a p).
Definition decode_format (l : list (string * json)) : option Format :=
  a ← GoTime.ptr_field "ldp_vc" l; a ← VcJson.ptr decode_detail a;
  b ← GoTime.ptr_field "ldp_vp" l; b ← VcJson.ptr decode_detail b;
  c ← GoTime.ptr_field "jwt_vc" l; c ← VcJson.ptr decode_detail c;
  d ← GoTime.ptr_field "jwt_vp" l; d ← VcJson.ptr decode_detail d;
  Some (mkFormat a b c d).
Definition decode_descriptor (l : list (string * json)) : option InputDescriptor :=
  id ← Jwt.str_field "id" l; name ← Jwt.str_field "name" l; purpose ← Jwt.str_field "purpose" l;
  c ← GoTime.ptr_field "constraints" l; c ← VcJson.ptr decode_constraints c;
  f ← GoTime.ptr_field "format" l; f ← VcJson.ptr decode_format f;
  Some (mkInputDescriptor id name purpose c f).
Definition decode_definition (l : list (string * json)) : option PresentationDefinition :=
  id ← Jwt.str_field "id" l; name ← Jwt.str_field "name" l; purpose ← Jwt.str_field "purpose" l;
  ds ← GoTime.structs_field "input_descriptors" l; ds ← mapM decode_descriptor ds;
  f ← GoTime.ptr_field "format" l; f ← VcJson.ptr decode_format f;
  Some (mkPresentationDefinition id name purpose ds f).
End Decode.

(** ** Submissions (submission.go) *)

Record Descriptor := mkDescriptor { ds_ID : string; ds_Format : string; ds_Path : string }.
Record PresentationSubmission := mkPresentationSubmission {
  sb_ID : string; sb_DefinitionID : string; sb_DescriptorMap : list Descriptor }.
Definition decode_map_entry (l : list (string * json)) : option Descriptor :=
  id ← Jwt.str_field "id" l; f ← Jwt.str_field "format" l; p ← Jwt.str_field "path" l; Some (mkDescriptor id f p).
Definition decode_submission (l : list (string * json)) : option PresentationSubmission :=
  id ← Jwt.str_field "id" l; did ← Jwt.str_field "definition_id" l;
  ds ← GoTime.structs_field "descriptor_map" l; ds ← mapM decode_map_entry ds;
  Some (mkPresentationSubmission id did ds).

(** The credentials found, by descriptor. *)
Record EvaluationResult := mkEvaluationResult {
  er_Satisfied : bool; er_Errors : list string; er_MatchedCredentials : gmap string VerifiableCredential }.

(** [fmt.Sscanf(s, "%d", &idx)] into a zero variable: blanks, a sign and the digits that
    follow; anything else, a number out of range or a new line leaves zero. *)
Fixpoint skip_blanks (s : list byte) : option (list byte) :=
  match s with
  | c :: s' => if beqb c x0a then None else if is_space c then skip_blanks s' else Some s
  | [] => None
  end.
Definition sscan_int (s : string) : Z :=
  match skip_blanks (bytes_of s) with
  | None => 0
  | Some s =>
      let '(sign, r) := match s with
                        | c :: r => if beqb c x2d || beqb c x2b then ([c], r) else ([], s)
                        | [] => ([], []) end in
      match span_digits r with
      | ([], _) => 0
      | (ds, _) => default 0%Z (Atoi (str_of (sign ++ ds)))
      end
  end.
Definition extractArrayIndex (path : string) : Z :=
  match LastIndex path "[", LastIndex path "]" with
  | Some lb, Some rb =>
      if Nat.leb rb lb then 0 else sscan_int (str_of (take (rb - (lb + 1)) (drop (lb + 1) (bytes_of path))))
  | _, _ => 0
  end.
Definition resolveCredential (creds : list VerifiableCredential) (path : string) : result VerifiableCredential :=
  let idx := extractArrayIndex path in
  if (idx <? 0)%Z then Err (ErrMsg "credential index out of range")
  else of_option (ErrMsg "credential index out of range") (creds !! Z.to_nat idx).

Fixpoint walk (current : json) (parts : list string) : json :=
  match parts with
  | [] => current
  | part :: parts' =>
      if part =s "" then walk current parts'
      else match current with
           | JObj mm => walk (default JNull (aget part mm)) parts'
           | _ => JNull
           end
  end.
Definition resolveJSONPath (m : list (string * json)) (path : string) : json :=
  walk (JObj m) (Split (TrimPrefix (TrimPrefix path "$.") "$") x2e).

Definition jsonEqual (a b : json) : bool := bool_decide (marshal a = marshal b).

(** [strings.Trim(s, "^$.*")]. *)
Definition in_cutset (c : byte) : bool := beqb c x5e || beqb c x24 || beqb c x2e || beqb c x2a.
Fixpoint trim_cut (s : list byte) : list byte :=
  match s with c :: s' => if in_cutset c then trim_cut s' else s | [] => [] end.
Definition trim_pattern (s : string) : string := str_of (rev (trim_cut (rev (trim_cut (bytes_of s))))).
Definition has_suffix_byte (s : string) (c : byte) : bool :=
  match last (bytes_of s) with Some c' => beqb c' c | None => false end.
Definition matchesPattern (pattern s : string) : bool :=
  if HasPrefix pattern "^" && has_suffix_byte pattern x24
  then s =s str_of (removelast (drop 1 (bytes_of pattern)))
  else Contains s (trim_pattern pattern).

Definition applyFilter (f : Filter) (val : json) : result unit :=
  if match fl_Const f with JNull => false | c => negb (jsonEqual val c) end
  then Err (ErrMsg "value does not match const")
  else match fl_Enum f with
  | _ :: _ => if existsb (jsonEqual val) (fl_Enum f) then Ok tt else Err (ErrMsg "value not in enum")
  | [] =>
      if fl_Pattern f =s "" then Ok tt
      else match val with
           | JStr s => if matchesPattern (fl_Pattern f) s then Ok tt else Err (ErrMsg "value does not match pattern")
           | _ => Err (ErrMsg "pattern filter requires string value")
           end
  end.

(** One path of a field: a value that is not nil and that the filter, if any, accepts. *)
Definition path_found (m : list (string * json)) (f : Field) (jsonPath : string) : bool :=
  match resolveJSONPath m jsonPath with
  | JNull => false
  | val => match fd_Filter f with Some fl => is_ok (applyFilter fl val) | None => true end
  end.
Fixpoint check_fields (m : list (string * json)) (fields : list Field) : result unit :=
  match fields with
  | [] => Ok tt
  | f :: fields' =>
      if fd_Optional f then check_fields m fields'
      else if existsb (path_found m f) (fd_Path f) then check_fields m fields'
      else Err (ErrMsg "required field not found or filter not satisfied")
  end.

Section Evaluation.
Context `{Float64}.

Definition checkConstraints (c : Constraints) (cred : VerifiableCredential) : result unit :=
  match Crypto.unmarshal_any (marshal (Vc.subject_json (cred_CredentialSubject (vc_Credential cred)))) with
  | Err e => Err (ErrWrap "unmarshal subject" e)
  | Ok (JObj subjectMap) => check_fields subjectMap (cs_Fields c)
  | Ok _ => Err (ErrMsg "unmarshal subject: json: cannot unmarshal")
  end.

(** The path of a descriptor: the last entry of its identifier. *)
Definition descMap (sub : PresentationSubmission) : gmap string string :=
  foldl (λ m d, <[ds_ID d := ds_Path d]> m) ∅ (sb_DescriptorMap sub).

Definition eval_descriptor (m : gmap string string) (creds : list VerifiableCredential) (d : InputDescriptor)
    : result VerifiableCredential :=
  match m !! in_ID d with
  | None => Err (ErrMsg "missing descriptor_map entry for input_descriptor")
  | Some path =>
      match resolveCredential creds path with
      | Err e => Err (ErrWrap "descriptor" e)
      | Ok cred =>
          match in_Constraints d with
          | None => Ok cred
          | Some c =>
              match checkConstraints c cred with
              | Err e => Err (ErrWrap "descriptor constraint" e)
              | Ok _ => Ok cred
              end
          end
      end
  end.
Fixpoint eval_descriptors (m : gmap string string) (creds : list VerifiableCredential) (ds : list InputDescriptor)
    (errors : list string) (matched : gmap string VerifiableCredential) : list string * gmap string VerifiableCredential :=
  match ds with
  | [] => (errors, matched)
  | d :: ds' =>
      match eval_descriptor m creds d with
      | Err e => eval_descriptors m creds ds' (errors ++ [error_string e]) matched
      | Ok cred => eval_descriptors m creds ds' errors (<[in_ID d := cred]> matched)
      end
  end.

Definition Evaluate (def : PresentationDefinition) (submission : PresentationSubmission)
    (vp : Vc.VerifiablePresentation) : result EvaluationResult :=
  if negb (sb_DefinitionID submission =s df_ID def) then
    Err (ErrMsg "pe: submission.definition_id does not match definition.id")
  else
    let creds := Vc.pres_VerifiableCredential (Vc.vp_Presentation vp) in
    let '(errors, matched) := eval_descriptors (descMap submission) creds (df_InputDescriptors def) [] ∅ in
    Ok (mkEvaluationResult
          (Nat.eqb (length errors) 0 && Nat.eqb (base.size matched) (length (df_InputDescriptors def)))
          errors matched).

(** ** Endpoints (api/presentations.go) *)

Definition StatusUnprocessableEntity : Z := 422.
Definition randomNonce {St} (n : nat) : M St (result string) := b ← rand_read n; mret (Sha.hex <$> b).

Definition handleCreatePresentationRequest {St} (r : Request) : M St Response :=
  match (l ← BridgeApi.body_object r; d ← GoTime.struct_field "presentation_definition" l; d ← decode_definition d;
         dom ← Jwt.str_field "domain" l; Some (d, dom)) with
  | None => mret (HttpError StatusBadRequest "invalid request")
  | Some (def, domain) =>
      if (df_ID def =s "") || Nat.eqb (length (df_InputDescriptors def)) 0 then
        mret (HttpError StatusBadRequest "presentation_definition with at least one input_descriptor required")
      else
        nonce ← randomNonce 16;
        match nonce with
        | Err _ => mret (HttpError StatusInternalServerError "internal error")
        | Ok nonce =>
            let req := mkPresentationRequest ("preq_" +s str_of (take 16 (bytes_of nonce))) def nonce domain in
            now ← time_now;
            mret (JsonResp StatusCreated
              [("request_id", JStr (prq_ID req)); ("nonce", JStr (prq_Nonce req));
               ("presentation_definition", definition_json (prq_Definition req));
               ("expires_at", JStr (Events.rfc3339 (now + 10 * minute)))])
        end
  end.

Definition decode_submit (l : list (string * json))
    : option (PresentationDefinition * Vc.VerifiablePresentation * PresentationSubmission) :=
  d ← GoTime.struct_field "presentation_definition" l; d ← decode_definition d;
  p ← GoTime.struct_field "presentation" l; p ← VcJson.decode_vp p;
  s ← GoTime.struct_field "submission" l; s ← decode_submission s;
  Some (d, p, s).
Definition handleSubmitPresentation (r : Request) : Response :=
  match BridgeApi.body_object r ≫= decode_submit with
  | None => HttpError StatusBadRequest "invalid request"
  | Some (def, vp, sub) =>
      if df_ID def =s "" then HttpError StatusBadRequest "presentation_definition required"
      else match Evaluate def sub vp with
      | Err e => HttpError StatusBadRequest ("evaluation error: " +s error_string e)
      | Ok result =>
          JsonResp (if er_Satisfied result then StatusOK else StatusUnprocessableEntity)
            [("errors", Vc.strs_json (er_Errors result));
             ("matched_credentials", JInt (Z.of_nat (base.size (er_MatchedCredentials result))));
             ("satisfied", JBool (er_Satisfied result))]
      end
  end.
End Evaluation.

Example index_plain : extractArrayIndex "$.verifiableCredential[12]" = 12%Z.
Proof. vm_compute. done. Qed.
Example index_blank : extractArrayIndex "$.a[ -7x]" = (-7)%Z.
Proof. vm_compute. done. Qed.
Example index_none : extractArrayIndex "$" = 0%Z.
Proof. vm_compute. done. Qed.
End Pe.
