(* ===== verification/PeProofs.v ===== *)
(** * What a presentation submission must satisfy *)

From S2P Require Import Prelude GoStd World Json JsonValue Http.
From S2P Require Import StoreTypes Store Events Jwt Crypto Canonical GoTime Vc VcJson VcProofs BridgeApi Pe.
Import JsonValue Http Types Pe.

Module PeProofs.

(** ** What a filter asks of a value

    Stated without the code: which texts a pattern fits, which values a filter accepts,
    which value a path reaches. *)

(** The core of a pattern: what is left between the longest runs of the characters
    ^ $ . and * at its ends. *)
Definition core_of (pattern core : list byte) : Prop :=
  ∃ a b, pattern = a ++ core ++ b ∧ Forall (λ c, in_cutset c = true) (a ++ b) ∧
    (core = [] → b = []) ∧ (∀ c, head core = Some c ∨ last core = Some c → in_cutset c = false).
(** A pattern between ^ and $ is the text itself; of any other the text has the core. *)
Definition fits (pattern s : string) : Prop :=
  pattern = "^" +s s +s "$" ∨
  (∀ t, pattern ≠ "^" +s t +s "$") ∧
  ∃ core l r, core_of (bytes_of pattern) core ∧ bytes_of s = l ++ core ++ r.
(** The constant, if there is one, has the same JSON text; of a list of values one has;
    without a list, and with a pattern, the value is a text that fits it.  The type, the
    format, the minimum and the maximum of the filter put no condition. *)
Definition accepts (f : Filter) (v : json) : Prop :=
  (fl_Const f ≠ JNull → marshal v = marshal (fl_Const f)) ∧
  (fl_Enum f ≠ [] → ∃ e, e ∈ fl_Enum f ∧ marshal v = marshal e) ∧
  (fl_Enum f = [] → fl_Pattern f ≠ "" → ∃ s, v = JStr s ∧ fits (fl_Pattern f) s).
(** The value that member names lead to; empty names stay where they are. *)
Inductive reaches : json → list string → json → Prop :=
| reach_end v : reaches v [] v
| reach_blank u parts v : reaches u parts v → reaches u ("" :: parts) v
| reach_member l part parts u v :
    part ≠ "" → aget part l = Some u → reaches u parts v → reaches (JObj l) (part :: parts) v.
(** The names of a path, after a leading dollar. *)
Definition segments (path : string) : list string := Split (TrimPrefix (TrimPrefix path "$.") "$") x2e.

Lemma bprefix_iff a s : bprefix a s = true ↔ ∃ r, s = a ++ r.
Proof.
  split; [|by intros [r ->]; apply bprefix_app]. revert s.
  induction a as [|c a IH]; intros s; [by exists s|]. destruct s as [|c' s]; [done|]. cbn [bprefix].
  rewrite andb_true_iff. intros [Hc Hp]. destruct (beqb_spec c c') as [<-|]; [|done].
  destruct (IH s Hp) as [r ->]. by exists r.
Qed.
Lemma Contains_iff s sub : Contains s sub = true ↔ ∃ l r, bytes_of s = l ++ bytes_of sub ++ r.
Proof.
  unfold Contains. generalize (bytes_of sub) (bytes_of s). clear. intros sub s.
  induction s as [|c s IH]; cbn [bindex].
  - destruct (bprefix sub []) eqn:E; split; try done.
    + intros _. apply bprefix_iff in E as [r E]. by exists [], r.
    + intros ([|??] & r & Hl); [|done]. assert (bprefix sub [] = true); [|congruence]. apply bprefix_iff. by exists r.
  - destruct (bprefix sub (c :: s)) eqn:E.
    + split; [intros _|done]. apply bprefix_iff in E as [r E]. by exists [], r.
    + destruct (bindex sub s); cbn [fmap option_fmap option_map]; split; try done.
      * intros _. destruct (proj1 IH eq_refl) as (l & r & ->). by exists (c :: l), r.
      * intros ([|c' l] & r & Hl); cbn [app] in Hl.
        { assert (bprefix sub (c :: s) = true); [|congruence]. apply bprefix_iff. by exists r. }
        injection Hl as -> ->. apply IH. by exists l, r.
Qed.

(** Cutting the ends computes the core, and there is only one. *)
Lemma trim_cut_spec s : ∃ a, s = a ++ trim_cut s ∧ Forall (λ c, in_cutset c = true) a ∧
  ∀ c, head (trim_cut s) = Some c → in_cutset c = false.
Proof.
  induction s as [|c s (a & Hs & Ha & Hh)]; [by exists []|]. cbn [trim_cut]. destruct (in_cutset c) eqn:E.
  - exists (c :: a). cbn [app]. split_and!; [congruence|by constructor|done].
  - exists []. split_and!; [done|constructor|]. cbn. intros ? [= <-]. done.
Qed.
Lemma trim_cut_skip a s : Forall (λ c, in_cutset c = true) a → trim_cut (a ++ s) = trim_cut s.
Proof. induction 1 as [|c a Hc _ IH]; [done|]. cbn [app trim_cut]. by rewrite Hc. Qed.
Lemma trim_cut_stop s : (∀ c, head s = Some c → in_cutset c = false) → trim_cut s = s.
Proof. destruct s as [|c s]; [done|]. intros Hc. cbn [trim_cut]. by rewrite (Hc c eq_refl). Qed.
Lemma head_rev {A} (l : list A) : head (rev l) = last l.
Proof. induction l as [|x l _] using rev_ind; [done|]. by rewrite rev_app_distr, last_snoc. Qed.
Lemma trim_pattern_core p : core_of (bytes_of p) (bytes_of (trim_pattern p)).
Proof.
  unfold trim_pattern. rewrite bytes_of_str_of.
  destruct (trim_cut_spec (bytes_of p)) as (a & Hp & Ha & Hh). set (t := trim_cut (bytes_of p)) in *.
  destruct (trim_cut_spec (rev t)) as (b & Ht & Hb & Hl). set (u := trim_cut (rev t)) in *.
  assert (t = rev u ++ rev b) as Et by (by rewrite <-rev_app_distr, <-Ht, rev_involutive).
  exists a, (rev b). split_and!.
  - by rewrite <-Et.
  - apply Forall_app. split; [done|]. by apply Forall_rev.
  - intros Eu. destruct (rev b) as [|c b'] eqn:Eb; [done|]. rewrite Eu in Et. cbn [app] in Et.
    rewrite Et in Hh. specialize (Hh c eq_refl). apply Forall_rev in Hb. rewrite Eb in Hb.
    apply Forall_cons in Hb as [Hc _]. congruence.
  - intros c [Hc|Hc].
    + apply Hh. rewrite Et. by destruct (rev u).
    + apply Hl. by rewrite <-(rev_involutive u), head_rev.
Qed.
Lemma core_unique p core : core_of (bytes_of p) core → core = bytes_of (trim_pattern p).
Proof.
  intros (a & b & Hp & [Ha Hb]%Forall_app & Hnil & Hends). unfold trim_pattern. rewrite bytes_of_str_of, Hp.
  rewrite trim_cut_skip by done. destruct core as [|c core].
  { by rewrite Hnil. }
  rewrite (trim_cut_stop ((c :: core) ++ b)) by (intros c' [= <-]; apply Hends; by left).
  rewrite rev_app_distr, trim_cut_skip by (by apply Forall_rev).
  rewrite trim_cut_stop, rev_involutive; [done|]. intros c' Hc'. apply Hends. right.
  by rewrite head_rev in Hc'.
Qed.
Lemma anchored_iff p t :
  p = "^" +s t +s "$" ↔
  HasPrefix p "^" && has_suffix_byte p x24 = true ∧ t = str_of (removelast (drop 1 (bytes_of p))).
Proof.
  split.
  - intros ->. unfold HasPrefix, has_suffix_byte. rewrite !bytes_of_append.
    change (bytes_of "^") with [x5e]. change (bytes_of "$") with [x24]. cbn [app bprefix drop].
    rewrite drop_0, removelast_last, str_of_bytes_of. by rewrite (app_comm_cons (bytes_of t) [x24] x5e), last_snoc.
  - rewrite andb_true_iff. intros [[Hp Hs] ->]. unfold HasPrefix in Hp. apply bprefix_iff in Hp as [r Hr].
    unfold has_suffix_byte in Hs. change (bytes_of "^") with [x5e] in Hr. cbn [app] in Hr.
    apply bytes_of_inj. rewrite !bytes_of_append, bytes_of_str_of, Hr in *. cbn [drop].
    change (bytes_of "^") with [x5e]. change (bytes_of "$") with [x24]. cbn [app].
    destruct r as [|c r] using rev_ind; [done|]. clear IHr. rewrite drop_0, removelast_last.
    rewrite app_comm_cons, last_snoc in Hs. by destruct (beqb_spec c x24) as [->|].
Qed.
Lemma matchesPattern_fits p s : matchesPattern p s = true ↔ fits p s.
Proof.
  unfold matchesPattern, fits. destruct (HasPrefix p "^" && has_suffix_byte p x24) eqn:E.
  - rewrite String.eqb_eq, anchored_iff, E. split; [by left|]. intros [[_ Hs]|[Hno _]]; [done|].
    destruct (Hno (str_of (removelast (drop 1 (bytes_of p))))). by apply anchored_iff.
  - rewrite Contains_iff. split.
    + intros (l & r & Hs). right. split; [intros t [Ht _]%anchored_iff; congruence|].
      exists (bytes_of (trim_pattern p)), l, r. split; [apply trim_pattern_core|done].
    + intros [[Ht _]%anchored_iff|[_ (core & l & r & Hc & Hs)]]; [congruence|].
      apply core_unique in Hc as ->. by exists l, r.
Qed.
Lemma applyFilter_accepts f v : is_ok (applyFilter f v) = true ↔ accepts f v.
Proof.
  unfold applyFilter, accepts. set (bad := match fl_Const f with JNull => false | c => negb (jsonEqual v c) end).
  assert (bad = false ↔ (fl_Const f ≠ JNull → marshal v = marshal (fl_Const f))) as Hc.
  { subst bad. unfold jsonEqual. destruct (fl_Const f); [split; [by intros _|done]|..];
      rewrite negb_false_iff, bool_decide_eq_true; naive_solver. }
  destruct bad; [split; [done|]; intros [H _]; by apply Hc in H|]. split; [intros Ho; split; [by apply Hc|]|].
  - destruct (fl_Enum f) as [|e l].
    + split; [done|]. intros _ Hp%String.eqb_neq. rewrite Hp in Ho. destruct v as [| | | |s| |]; try done.
      exists s. split; [done|]. apply matchesPattern_fits. by destruct (matchesPattern _ s).
    + split; [intros _|done]. destruct (existsb (jsonEqual v) (e :: l)) eqn:Ex; [|done].
      apply existsb_exists in Ex as (x & Hx%list_elem_of_In & Hj). exists x. split; [done|].
      by apply bool_decide_eq_true in Hj.
  - intros (_ & He & Hp). destruct (fl_Enum f) as [|e l].
    + destruct (String.eqb_spec (fl_Pattern f) "") as [|Hne]; [done|].
      destruct (Hp eq_refl Hne) as (s & -> & Hs). apply matchesPattern_fits in Hs. by rewrite Hs.
    + destruct (He ltac:(done)) as (x & Hx & Hm). assert (existsb (jsonEqual v) (e :: l) = true) as ->; [|done].
      apply existsb_exists. exists x. split; [by apply list_elem_of_In|]. by apply bool_decide_eq_true.
Qed.
Lemma walk_reaches u parts v : v ≠ JNull → walk u parts = v ↔ reaches u parts v.
Proof.
  intros Hv. revert u. induction parts as [|part parts IH]; intros u; cbn [walk].
  { split; [intros ->; constructor|by inversion 1]. }
  assert (walk JNull parts = v → False) as Hnull.
  { intros Hw. apply Hv. rewrite <-Hw. clear. induction parts as [|p ps IH]; [done|]. cbn. by destruct (p =s ""). }
  destruct (String.eqb_spec part "") as [->|Hne].
  - rewrite IH. split; [by constructor|]. inversion 1; done.
  - destruct u as [| | | | | |l]; try (split; [intros <-; by destruct Hv|inversion 1; done]).
    destruct (aget part l) as [u|] eqn:E; cbn [default].
    + rewrite IH. split; [intros; by econstructor|]. inversion 1; by simplify_eq.
    + split; [intros Hw; by destruct (Hnull Hw)|]. inversion 1; by simplify_eq.
Qed.
Lemma path_found_iff m f p :
  path_found m f p = true ↔ ∃ v, v ≠ JNull ∧ reaches (JObj m) (segments p) v ∧ ∀ fl, fd_Filter f = Some fl → accepts fl v.
Proof.
  set (v := walk (JObj m) (segments p)).
  assert (path_found m f p = true ↔ v ≠ JNull ∧ ∀ fl, fd_Filter f = Some fl → accepts fl v) as Hv.
  { unfold path_found. change (resolveJSONPath m p) with v.
    destruct v; [split; [done|by intros []]|..]; (destruct (fd_Filter f) as [fl|]; [rewrite applyFilter_accepts|]; naive_solver). }
  rewrite Hv. split.
  - intros [Hne Hf]. exists v. split_and!; [done|by apply walk_reaches|done].
  - intros (v' & Hne & Hr & Hf). apply walk_reaches in Hr; [|done]. subst v. rewrite Hr. by split.
Qed.

(** ** Satisfaction *)

Section Satisfaction.
Context `{Float64}.

(** The path a submission gives for an identifier: the last one counts. *)
Definition path_for (sub : PresentationSubmission) (id : string) : option string :=
  ds_Path <$> last (filter (λ d, ds_ID d = id) (sb_DescriptorMap sub)).
(** A credential meets constraints when each required field has a path, whatever its
    position in the list, that reaches a value other than null which the filter, if there
    is one, accepts.  Limited disclosure and subject-is-issuer put no condition. *)
Definition meets (c : Constraints) (cred : VerifiableCredential) : Prop :=
  ∃ m, Crypto.unmarshal_any (marshal (Vc.subject_json (cred_CredentialSubject (vc_Credential cred)))) = Ok (JObj m) ∧
    ∀ f, f ∈ cs_Fields c → fd_Optional f = false → ∃ p v, p ∈ fd_Path f ∧ v ≠ JNull ∧
      reaches (JObj m) (segments p) v ∧ ∀ fl, fd_Filter f = Some fl → accepts fl v.
Definition answers (sub : PresentationSubmission) (creds : list VerifiableCredential) (d : InputDescriptor)
    (cred : VerifiableCredential) : Prop :=
  ∃ path, path_for sub (in_ID d) = Some path ∧ (0 ≤ extractArrayIndex path)%Z ∧
    creds !! Z.to_nat (extractArrayIndex path) = Some cred ∧
    ∀ c, in_Constraints d = Some c → meets c cred.

Lemma descMap_lookup sub id : descMap sub !! id = path_for sub id.
Proof.
  unfold descMap, path_for. induction (sb_DescriptorMap sub) as [|d l IH] using rev_ind; [done|].
  rewrite foldl_app, filter_app, filter_cons. cbn [foldl]. destruct (decide (ds_ID d = id)) as [<-|Hne].
  - rewrite lookup_insert_eq. cbn. by rewrite last_snoc.
  - rewrite lookup_insert_ne by done. cbn. by rewrite app_nil_r.
Qed.
Lemma check_fields_ok m fs :
  check_fields m fs = Ok tt ↔ ∀ f, f ∈ fs → fd_Optional f = false → ∃ p, p ∈ fd_Path f ∧ path_found m f p = true.
Proof.
  induction fs as [|f fs IH]; cbn [check_fields]; [split; [intros _ f Hf; by apply not_elem_of_nil in Hf|done]|].
  destruct (fd_Optional f) eqn:Eo; [|destruct (existsb _ _) eqn:Ex].
  - rewrite IH. split; intros Hall f' Hf'; [|by apply Hall; right].
    apply elem_of_cons in Hf' as [->|Hf']; [congruence|by apply Hall].
  - apply existsb_exists in Ex as (p & Hp%list_elem_of_In & Hf). rewrite IH.
    split; intros Hall f' Hf'; [|by apply Hall; right].
    apply elem_of_cons in Hf' as [->|Hf']; [by exists p|by apply Hall].
  - split; [done|]. intros Hall. destruct (Hall f ltac:(left) Eo) as (p & Hp & Hf).
    assert (existsb (path_found m f) (fd_Path f) = true); [|congruence].
    apply existsb_exists. exists p. by rewrite <-list_elem_of_In.
Qed.
Lemma checkConstraints_found c cred : checkConstraints c cred = Ok tt ↔
  ∃ m, Crypto.unmarshal_any (marshal (Vc.subject_json (cred_CredentialSubject (vc_Credential cred)))) = Ok (JObj m) ∧
    ∀ f, f ∈ cs_Fields c → fd_Optional f = false → ∃ p, p ∈ fd_Path f ∧ path_found m f p = true.
Proof.
  unfold checkConstraints. destruct (Crypto.unmarshal_any _) as [[| | | | | |m]|e];
    (split; [|intros (m' & E & Hm); try done]); try done.
  - intros Hc. exists m. split; [done|]. by apply check_fields_ok.
  - injection E as <-. by apply check_fields_ok.
Qed.
Lemma checkConstraints_ok c cred : checkConstraints c cred = Ok tt ↔ meets c cred.
Proof.
  rewrite checkConstraints_found. unfold meets. split; intros (m & Hm & Hall); exists m; (split; [done|]); intros f Hf Ho.
  - destruct (Hall f Hf Ho) as (p & Hp & (v & Hv)%path_found_iff). by exists p, v.
  - destruct (Hall f Hf Ho) as (p & v & Hp & Hv). exists p. split; [done|]. apply path_found_iff. by exists v.
Qed.
Lemma eval_descriptor_ok sub creds d cred :
  eval_descriptor (descMap sub) creds d = Ok cred ↔ answers sub creds d cred.
Proof.
  unfold eval_descriptor, answers, resolveCredential. rewrite descMap_lookup.
  destruct (path_for sub (in_ID d)) as [path|]; [|split; [done|by intros (? & ? & _)]].
  destruct (Z.ltb_spec (extractArrayIndex path) 0) as [Hn|Hn].
  { split; [done|]. intros (? & [= <-] & ? & _). lia. }
  destruct (creds !! Z.to_nat (extractArrayIndex path)) as [cr|] eqn:El; cbn [of_option].
  2:{ split; [done|]. intros (? & [= <-] & _ & ? & _). congruence. }
  split.
  - intros Hc. exists path. split_and!; [done|lia| |].
    + rewrite El. f_equal. destruct (in_Constraints d) as [c|]; [destruct (checkConstraints c cr)|]; congruence.
    + intros c Hcs. rewrite Hcs in Hc. apply checkConstraints_ok.
      destruct (checkConstraints c cr) as [[]|] eqn:E; [|done]. congruence.
  - intros (? & [= <-] & _ & Hcr & Hm). rewrite El in Hcr. injection Hcr as ->.
    destruct (in_Constraints d) as [c|]; [|done]. by rewrite (proj2 (checkConstraints_ok c cred) (Hm c eq_refl)).
Qed.

Lemma remove_dups_le (l : list string) : length (remove_dups l) ≤ length l.
Proof. induction l as [|x l IH]; [done|]. cbn. case_decide; cbn; lia. Qed.
Lemma distinct_count (l : list string) : base.size (list_to_set l : gset string) = length l ↔ NoDup l.
Proof.
  split; [|apply size_list_to_set]. intros Hs.
  assert (length (remove_dups l) = length l) as Hl.
  { rewrite <-Hs, <-(size_list_to_set (C := gset string) (remove_dups l)) by apply NoDup_remove_dups.
    f_equal. apply set_eq. intros x. by rewrite !elem_of_list_to_set, elem_of_remove_dups. }
  clear Hs. induction l as [|x l IH]; [constructor|]. cbn in Hl. pose proof (remove_dups_le l).
  case_decide as Hx; cbn in Hl; [lia|]. constructor; [done|apply IH; lia].
Qed.

(** What the loop collects: one error per descriptor without an answer, and the last
    answer of each identifier. *)
Lemma eval_descriptors_spec m creds ds errs matched :
  let r := eval_descriptors m creds ds errs matched in
  (length (fst r) = length errs ↔ ∀ d, d ∈ ds → is_ok (eval_descriptor m creds d) = true) ∧
  length errs ≤ length (fst r) ∧
  ((∀ d, d ∈ ds → is_ok (eval_descriptor m creds d) = true) →
     dom (snd r) = list_to_set (in_ID <$> ds) ∪ dom matched ∧
     ∀ d cred, NoDup (in_ID <$> ds) → d ∈ ds → eval_descriptor m creds d = Ok cred → snd r !! in_ID d = Some cred).
Proof.
  assert (∀ ds matched errs id, id ∉ in_ID <$> ds → (eval_descriptors m creds ds errs matched).2 !! id = matched !! id) as Hkeep.
  { clear. intros ds. induction ds as [|d ds IH]; intros matched errs id Hid; [done|]. cbn in *.
    apply not_elem_of_cons in Hid as [Hne Hid]. destruct (eval_descriptor m creds d); rewrite IH by done; [|done].
    by rewrite lookup_insert_ne. }
  revert errs matched. induction ds as [|d ds IH]; intros errs matched; cbn [eval_descriptors].
  { cbn. split_and!; [split; [intros _ d Hd; by apply not_elem_of_nil in Hd|done]|done|].
    intros _. split; [set_solver|]. intros d cred _ Hd. by apply not_elem_of_nil in Hd. }
  destruct (eval_descriptor m creds d) as [cr|e] eqn:E.
  - destruct (IH errs (<[in_ID d := cr]> matched)) as (H1 & H2 & H3). cbn zeta in *. split_and!; [|done|].
    + rewrite H1. split; intros Hall d' Hd'; [|by apply Hall; right].
      apply elem_of_cons in Hd' as [->|Hd']; [by rewrite E|by apply Hall].
    + intros Hall. destruct H3 as [Hdom Hl]; [intros d' Hd'; apply Hall; by right|]. split.
      * rewrite Hdom, dom_insert_L. cbn. set_solver.
      * intros d' cred [Hn Hnd]%NoDup_cons Hd' Hcr. apply elem_of_cons in Hd' as [->|Hd']; [|by apply Hl].
        rewrite Hkeep, lookup_insert_eq by done. congruence.
  - destruct (IH (errs ++ [error_string e]) matched) as (H1 & H2 & H3). cbn zeta in *. rewrite length_app in *. cbn in *.
    split_and!; [|lia|].
    + split; [lia|]. intros Hall. specialize (Hall d ltac:(left)). by rewrite E in Hall.
    + intros Hall. specialize (Hall d ltac:(left)). by rewrite E in Hall.
Qed.

(** C25: A submission satisfies a definition exactly when the definition's descriptors have
    distinct identifiers and each is answered: the last entry of the submission's map
    for it points at a credential of the presentation in which every required field is
    found along one of its paths with a value its filter accepts.  A filter accepts by its
    const and by its enum or, without one, its pattern ([accepts]): its type, format,
    minimum and maximum, and the limit_disclosure and subject_is_issuer of the constraints, put no
    condition.  The credentials reported are those answers.  An identifier of another
    definition is an error. *)
Theorem Evaluate_satisfied def sub vp :
  let creds := Vc.pres_VerifiableCredential (Vc.vp_Presentation vp) in
  match Evaluate def sub vp with
  | Err _ => sb_DefinitionID sub ≠ df_ID def
  | Ok r =>
      sb_DefinitionID sub = df_ID def ∧
      (er_Satisfied r = true ↔ NoDup (in_ID <$> df_InputDescriptors def) ∧
         ∀ d, d ∈ df_InputDescriptors def → ∃ cred, answers sub creds d cred) ∧
      (er_Satisfied r = true → er_Errors r = [] ∧ ∀ d cred, d ∈ df_InputDescriptors def →
         answers sub creds d cred → er_MatchedCredentials r !! in_ID d = Some cred)
  end.
Proof.
  cbv zeta. unfold Evaluate. destruct (String.eqb_spec (sb_DefinitionID sub) (df_ID def)) as [Hid|Hid]; [|done]. cbn [negb].
  set (creds := Vc.pres_VerifiableCredential _). set (ds := df_InputDescriptors def).
  destruct (eval_descriptors_spec (descMap sub) creds ds [] ∅) as (H1 & _ & H3). cbn zeta in *.
  destruct (eval_descriptors _ _ _ _ _) as [errors matched]. cbn [fst snd length er_Satisfied er_Errors er_MatchedCredentials] in *.
  assert ((∀ d, d ∈ ds → is_ok (eval_descriptor (descMap sub) creds d) = true) ↔
    ∀ d, d ∈ ds → ∃ cred, answers sub creds d cred) as Hans.
  { split; intros Hall d Hd; specialize (Hall d Hd).
    - destruct (eval_descriptor _ _ d) as [cred|] eqn:E; [|done]. exists cred. by apply eval_descriptor_ok.
    - destruct Hall as (cred & Ha). apply eval_descriptor_ok in Ha. by rewrite Ha. }
  assert ((∀ d, d ∈ ds → is_ok (eval_descriptor (descMap sub) creds d) = true) →
    base.size matched = length ds ↔ NoDup (in_ID <$> ds)) as Hsize.
  { intros Hall. destruct (H3 Hall) as [Hdom _]. rewrite <-size_dom, Hdom, dom_empty_L, (right_id_L ∅ (∪)).
    rewrite <-(length_fmap in_ID ds). apply distinct_count. }
  split; [done|]. rewrite andb_true_iff, !Nat.eqb_eq, H1. split.
  - rewrite <-Hans. split; [intros [Ha Hs]; split; [by apply Hsize|done]|intros [Hn Ha]; split; [done|by apply Hsize]].
  - intros [Ha Hs]. split; [apply H1, nil_length_inv in Ha; done|]. intros d cred Hd Hc.
    destruct (H3 Ha) as [_ Hl]. apply Hl; [by apply Hsize|done|by apply eval_descriptor_ok].
Qed.
End Satisfaction.
(** ** Paths *)

Section Paths.
Context `{Float64}.

Definition no_dot (k : string) : Prop := Forall (λ c, beqb c x2e = false) (bytes_of k).
Lemma split_dots (a : string) k : no_dot a → no_dot k → Split (a +s "." +s k) x2e = [a; k].
Proof.
  intros Ha Hk. unfold Split, SplitN. rewrite !bytes_of_append. change (bytes_of ".") with [x2e]. cbn [app].
  rewrite length_app. cbn [length]. rewrite Nat.add_succ_r, bsplit_n_plain by done. cbn [rev app fmap list_fmap].
  rewrite bsplit_n_last by done. cbn [rev app fmap list_fmap]. by rewrite !str_of_bytes_of.
Qed.
Lemma any_of_object l c :
  Crypto.any_of (JObj l) = Some c → ∃ m, c = JObj m ∧ ∀ k, aget k m = Canonical.alook k l ≫= Crypto.any_of.
Proof.
  cbn [Crypto.any_of]. destruct (foldr _ _ l) as [l'|] eqn:E; [|done]. intros [= <-]. eexists. split; [done|].
  intros k. rewrite Canonical.aget_of_pairs. apply Canonical.alook_converts. by apply Canonical.any_members_inv.
Qed.

(** Paths start at the subject: its claims are found under "claims", and the form that
    the documentation gives, a path through "credentialSubject", reaches nothing in any
    credential. *)
Theorem paths_start_at_subject s m k :
  wf (Vc.subject_json s) → Crypto.unmarshal_any (marshal (Vc.subject_json s)) = Ok (JObj m) →
  no_dot k → k ≠ "" →
  resolveJSONPath m ("$.claims." +s k) = default JNull (JStr <$> sub_Claims s !! k) ∧
  resolveJSONPath m ("$.credentialSubject." +s k) = JNull.
Proof.
  intros Hwf Hu Hk Hne. unfold Crypto.unmarshal_any in Hu. rewrite parse_marshal in Hu by done.
  destruct (Crypto.any_of (Vc.subject_json s)) as [c|] eqn:Ec; [|done]. cbn in Hu. injection Hu as ->.
  apply any_of_object in Ec as (m' & [= <-] & Hm).
  assert (resolveJSONPath m ("$.claims." +s k) = walk (JObj m) ["claims"; k]) as ->.
  { unfold resolveJSONPath. change (TrimPrefix (TrimPrefix ("$.claims." +s k) "$.") "$")
      with (str_of (bytes_of ("claims" +s "." +s k))). by rewrite str_of_bytes_of, split_dots by (done || by repeat constructor). }
  assert (resolveJSONPath m ("$.credentialSubject." +s k) = walk (JObj m) ["credentialSubject"; k]) as ->.
  { unfold resolveJSONPath. change (TrimPrefix (TrimPrefix ("$.credentialSubject." +s k) "$.") "$")
      with (str_of (bytes_of ("credentialSubject" +s "." +s k))). by rewrite str_of_bytes_of, split_dots by (done || by repeat constructor). }
  apply String.eqb_neq in Hne. cbn [walk String.eqb Ascii.eqb Bool.eqb]. rewrite !Hm, Hne.
  destruct (map_to_list (sub_Claims s)) as [|kv l] eqn:E.
  - apply map_to_list_empty_iff in E. rewrite E, lookup_empty. done.
  - cbn [Canonical.alook foldr fst snd String.eqb Ascii.eqb Bool.eqb mbind option_bind default]. split; [|done].
    destruct (VcProofs.any_of_claims_total (sub_Claims s)) as [c Hc]. rewrite Hc. cbn [default].
    apply any_of_object in Hc as (mc & -> & Hmc). cbn [id]. rewrite Hmc, VcProofs.alook_claims. by destruct (sub_Claims s !! k).
Qed.

(** A required field with only paths of the documented form is never satisfied. *)
Theorem documented_paths_refused d c f cred m creds :
  in_Constraints d = Some c → f ∈ cs_Fields c → fd_Optional f = false →
  (∀ p, p ∈ fd_Path f → ∃ k, no_dot k ∧ k ≠ "" ∧ p = "$.credentialSubject." +s k) →
  wf (Vc.subject_json (cred_CredentialSubject (vc_Credential cred))) →
  eval_descriptor m creds d ≠ Ok cred.
Proof.
  intros Hc Hf Ho Hp Hwf E. unfold eval_descriptor in E. destruct (m !! in_ID d) as [path|]; [|done].
  destruct (resolveCredential creds path) as [cr|]; [|done]. rewrite Hc in E.
  destruct (checkConstraints c cr) as [[]|] eqn:Ec; [|done]. injection E as ->.
  apply checkConstraints_found in Ec as (m' & Hm & Hall). destruct (Hall f Hf Ho) as (p & Hin & Hfound).
  destruct (Hp p Hin) as (k & Hk & Hne & ->). unfold path_found in Hfound.
  by rewrite (proj2 (paths_start_at_subject _ _ _ Hwf Hm Hk Hne)) in Hfound.
Qed.

(** ** Proofs are not looked at *)

Definition unproved (vc : VerifiableCredential) : VerifiableCredential := mkVerifiableCredential (vc_Credential vc) None.
(** Two presentations that differ at most in proofs. *)
Definition same_claims (vp vp' : Vc.VerifiablePresentation) : Prop :=
  unproved <$> Vc.pres_VerifiableCredential (Vc.vp_Presentation vp) =
  unproved <$> Vc.pres_VerifiableCredential (Vc.vp_Presentation vp').

Lemma eval_descriptor_unproved m creds d :
  eval_descriptor m (unproved <$> creds) d = unproved <$> eval_descriptor m creds d.
Proof.
  unfold eval_descriptor, resolveCredential. destruct (m !! in_ID d) as [path|]; [|done].
  destruct (_ <? 0)%Z; [done|]. rewrite list_lookup_fmap. destruct (creds !! _) as [cr|]; [|done].
  cbn. destruct (in_Constraints d) as [c|]; [|done].
  change (checkConstraints c (unproved cr)) with (checkConstraints c cr). by destruct (checkConstraints c cr).
Qed.
Lemma eval_descriptors_unproved m creds ds errs matched :
  eval_descriptors m (unproved <$> creds) ds errs (unproved <$> matched) =
    (fst (eval_descriptors m creds ds errs matched), unproved <$> snd (eval_descriptors m creds ds errs matched)).
Proof.
  revert errs matched. induction ds as [|d ds IH]; intros errs matched; [done|]. cbn [eval_descriptors].
  rewrite eval_descriptor_unproved. destruct (eval_descriptor m creds d) as [cr|e]; cbn [fmap result_fmap]; [|apply IH].
  rewrite <-fmap_insert. apply IH.
Qed.
Lemma Evaluate_unproved def sub vp vp' :
  same_claims vp vp' →
  match Evaluate def sub vp, Evaluate def sub vp' with
  | Ok r, Ok r' => er_Satisfied r = er_Satisfied r' ∧ er_Errors r = er_Errors r' ∧
      base.size (er_MatchedCredentials r) = base.size (er_MatchedCredentials r')
  | Err e, Err e' => e = e'
  | _, _ => False
  end.
Proof.
  intros Hs. unfold Evaluate. destruct (negb _); [done|].
  pose proof (eval_descriptors_unproved (descMap sub) (Vc.pres_VerifiableCredential (Vc.vp_Presentation vp)) (df_InputDescriptors def) [] ∅) as H1.
  pose proof (eval_descriptors_unproved (descMap sub) (Vc.pres_VerifiableCredential (Vc.vp_Presentation vp')) (df_InputDescriptors def) [] ∅) as H2.
  unfold same_claims in Hs. rewrite Hs in H1. rewrite H1 in H2. clear H1 Hs.
  destruct (eval_descriptors _ (Vc.pres_VerifiableCredential (Vc.vp_Presentation vp)) _ _ _) as [e1 m1].
  destruct (eval_descriptors _ _ _ _ _) as [e2 m2]. cbn [fst snd] in H2. injection H2 as -> Hm.
  apply (f_equal base.size) in Hm. rewrite !map_size_fmap in Hm. cbn. by rewrite Hm.
Qed.

(** The submission endpoint trusts what it is told: its answer does not depend on the
    proofs of the presentation and of its credentials, which may all be missing. *)
Theorem submission_needs_no_proof r r' def sub vp vp' :
  BridgeApi.body_object r ≫= decode_submit = Some (def, vp, sub) →
  BridgeApi.body_object r' ≫= decode_submit = Some (def, vp', sub) →
  same_claims vp vp' → handleSubmitPresentation r = handleSubmitPresentation r'.
Proof.
  intros Hr Hr' Hs. unfold handleSubmitPresentation. rewrite Hr, Hr'. destruct (df_ID def =s ""); [done|].
  pose proof (Evaluate_unproved def sub vp vp' Hs) as He.
  destruct (Evaluate def sub vp), (Evaluate def sub vp'); try done; [|by subst].
  destruct He as (-> & -> & ->). done.
Qed.
End Paths.

(** ** Witnesses *)

#[local] Existing Instance VcProofs.Sample.plain_float.

Definition alice : CredentialSubject := mkCredentialSubject "did:web:alice" {["given_name" := "Alice"]}.
Lemma alice_text : wf (Vc.subject_json alice).
Proof. vm_compute. done. Qed.
Lemma paths_start_at_subject_witness : ∃ m,
  resolveJSONPath m "$.claims.given_name" = JStr "Alice" ∧ resolveJSONPath m "$.credentialSubject.given_name" = JNull.
Proof.
  exists [("claims", JObj [("given_name", JStr "Alice")]); ("id", JStr "did:web:alice")].
  apply (paths_start_at_subject alice _ "given_name" alice_text); [vm_compute; reflexivity|by repeat constructor|done].
Defined.

Definition name_field (path : string) : Field := mkField [path] "" "" None false "".
Definition name_descriptor (path : string) : InputDescriptor :=
  mkInputDescriptor "name" "" "" (Some (mkConstraints [name_field path] "" "")) None.
Definition alice_vc : VerifiableCredential :=
  mkVerifiableCredential (mkCredential [] "" [] "did:web:mallory" 0 None alice None None) None.
Lemma documented_paths_refused_witness :
  eval_descriptor {["name" := "$.verifiableCredential[0]"]} [alice_vc]
    (name_descriptor "$.credentialSubject.given_name") ≠ Ok alice_vc.
Proof.
  apply (documented_paths_refused (name_descriptor "$.credentialSubject.given_name") _
    (name_field "$.credentialSubject.given_name") alice_vc _ _ eq_refl); [by left|done| |apply alice_text].
  intros p ->%list_elem_of_singleton. exists "given_name". split; [by repeat constructor|done].
Defined.

(** A presentation that nobody signed, in which anyone says what they like. *)
Definition submit_body (proof : list (string * json)) : json :=
  JObj [("presentation_definition", JObj [("id", JStr "d"); ("input_descriptors", JArr [JObj [("id", JStr "name");
          ("constraints", JObj [("fields", JArr [JObj [("path", JArr [JStr "$.claims.given_name"])]])])]])]);
        ("presentation", JObj ([("verifiableCredential", JArr [JObj [("issuer", JStr "did:web:govt");
           ("credentialSubject", JObj [("id", JStr "did:web:alice"); ("claims", JObj [("given_name", JStr "Alice")])])]])] ++ proof));
        ("submission", JObj [("definition_id", JStr "d"); ("descriptor_map", JArr [JObj [("id", JStr "name")]])])].
Definition submit_request (proof : list (string * json)) : Request :=
  mkRequest [] None [] None [] "" (Some (submit_body proof)).
Lemma submission_needs_no_proof_witness :
  handleSubmitPresentation (submit_request []) =
    handleSubmitPresentation (submit_request [("proof", JObj [("type", JStr "DataIntegrityProof")])]) ∧
  status_of (handleSubmitPresentation (submit_request [])) = StatusOK.
Proof.
  split; [|vm_compute; reflexivity].
  eapply submission_needs_no_proof; [lazy; reflexivity|lazy; reflexivity|lazy; reflexivity].
Defined.
End PeProofs.
