(* ===== verification/Consents.v ===== *)
(** * Consent over HTTP (api/consents.go) and signed receipts (pkg/consent/receipt.go)

    The handlers that create, list and revoke grants, record signed receipts and list
    schemas, composed with the store and the access policy. *)

From S2P Require Import Prelude GoStd World Sha Base64 Json JsonValue Http Schema Consent StoreTypes Store.
From S2P Require Import StoreAuth Logic StoreInv Events GoTime AuditLog Jwt Crypto Vc BridgeApi.
Import JsonValue Http Types Store StoreAuth StoreInv Jwt Schema Consent GoTime.

Module Consents.

Definition StatusServiceUnavailable : Z := 503.
(** The text of a decoder's error. *)
Definition decode_err : string := "json: cannot unmarshal".
Definition bad_json : Response := HttpError StatusBadRequest ("bad request: " +s decode_err).

(** ** JSON forms *)

Definition level_of (s : string) : GrantLevel :=
  if s =s "schema" then GrantSchema else if s =s "category" then GrantCategory else GrantOther s.
Definition level_text (l : GrantLevel) : string :=
  match l with GrantSchema => "schema" | GrantCategory => "category" | GrantOther s => s end.
(** An optional instant, left out when nil. *)
Definition time_member (k : string) (o : option Z) : option (list (string * json)) :=
  match o with
  | None => Some []
  | Some t => v ← Vc.time_value t; Some [(k, v)]
  end.
(** Field names match up to case: they are given in lower case. *)
Definition decode_grant (l : list (string * json)) : option Grant :=
  i ← str_field "id" l; su ← str_field "subjectdid" l; re ← str_field "relyingdid" l;
  lv ← str_field "level" l; sc ← str_field "scopeid" l; g ← time_field "grantedat" l;
  e ← time_ptr_field "expiresat" l; rv ← time_ptr_field "revokedat" l;
  c ← bool_field "explicitlyconfirmed" l;
  Some (mkGrant i su re (level_of lv) sc g e rv c).
Definition grant_json (g : Grant) : option json :=
  at_ ← Vc.time_value (g_GrantedAt g); e ← time_member "expiresAt" (g_ExpiresAt g);
  rv ← time_member "revokedAt" (g_RevokedAt g);
  Some (JObj ([("id", JStr (g_ID g)); ("subjectDid", JStr (g_SubjectDID g)); ("relyingDid", JStr (g_RelyingDID g));
               ("level", JStr (level_text (g_Level g))); ("scopeId", JStr (g_ScopeID g)); ("grantedAt", at_)] ++ e ++ rv ++
              [("explicitlyConfirmed", JBool (g_ExplicitlyConfirmed g))])).
Definition receipt_json (r : Receipt) : option json :=
  at_ ← Vc.time_value (r_AccessedAt r); e ← time_member "expiresAt" (r_ExpiresAt r);
  rv ← time_member "revokedAt" (r_RevokedAt r);
  Some (JObj ([("id", JStr (r_ID r)); ("subjectDid", JStr (r_SubjectDID r)); ("relyingDid", JStr (r_RelyingDID r));
               ("schemaId", JStr (r_SchemaID r)); ("accessedAt", at_); ("legalBasis", JStr (r_LegalBasis r))] ++
              opt_field "purpose" (r_Purpose r) ++ e ++ rv ++ opt_field "signature" (r_Signature r) ++
              opt_field "signedBy" (r_SignedBy r))).
(** A slice whose elements may not encode: nil is null. *)
Definition slice_json {A} (f : A → option json) (l : list A) : option json :=
  match l with [] => Some JNull | _ => JArr <$> mapM f l end.
(** A page of a slice: [offset] is capped at its length. *)
Definition page {A} (limit offset : Z) (l : list A) : list A :=
  take (Z.to_nat limit) (drop (Z.to_nat (Z.min offset (Z.of_nat (length l)))) l).

Definition schema_claim_json (c : ClaimDefinition) : json :=
  JObj ([("name", JStr (cd_Name c)); ("type", JStr (cd_Type c)); ("required", JBool (cd_Required c))] ++
        opt_field "description" (cd_Description c)).
Definition source_text (s : Source) : string :=
  match s with SourceCore => "core" | SourceCommunity => "community" | SourceThirdParty => "third-party" end.
Definition schema_json (s : Schema) : json :=
  JObj ([("id", JStr (sch_ID s)); ("categoryId", JStr (sch_CategoryID s)); ("name", JStr (sch_Name s))] ++
        opt_field "description" (sch_Description s) ++ [("version", JInt (sch_Version s))] ++
        (if sch_ExtraSensitive s then [("extraSensitive", JBool true)] else []) ++
        match sch_Claims s with [] => [] | cs => [("claims", JArr (schema_claim_json <$> cs))] end ++
        [("source", JStr (source_text (sch_Source s)))]).

(** ** Receipts *)

Record IssueOptions := mkIssueOptions {
  ro_SubjectDID : string; ro_RelyingDID : string; ro_SchemaID : string; ro_Purpose : string;
  ro_LegalBasis : string; ro_ExpiresAt : option Z; ro_SignerKey : list byte; ro_SignerKeyID : string }.
Definition LegalBasisConsent : string := "consent".

Section Receipts.
Context `{Ed25519}.
(** The signed bytes' JSON value: a map of strings. *)
Definition payload_json (r : Receipt) : json := JObj (Vc.claims_json (receiptPayload Events.rfc3339 r)).
(** [uuid] is what [uuid.NewString] returned. *)
Definition Issue (opts : IssueOptions) (uuid : string) : M Srv (result Receipt) :=
  now ← time_now;
  let r sig := mkReceipt ("urn:uuid:" +s uuid) (ro_SubjectDID opts) (ro_RelyingDID opts) (ro_SchemaID opts) now
                 (ro_LegalBasis opts) (ro_Purpose opts) (ro_ExpiresAt opts) None sig (ro_SignerKeyID opts) in
  mret match Crypto.SignJSON (ro_SignerKey opts) (Some (payload_json (r ""))) with
       | Err e => Err (ErrWrap "receipt sign" e)
       | Ok sig => Ok (r (Base64.EncodeToString sig))
       end.
End Receipts.

(** ** Handlers *)

Section Handlers.
Context `{Ed25519}.
Context (reg : Registry) (signingKey : option (list byte)) (signingKeyID : string).

Definition handleListGrants (r : Request) : M Srv Response :=
  let subjectDID := Query r "subject" in
  if subjectDID =s "" then mret (HttpError StatusBadRequest "subject query parameter required") else
  grants ← ListGrants subjectDID;
  match grants with
  | Err e => mret (HttpError StatusInternalServerError ("list grants: " +s error_string e))
  | Ok l => mret (JsonBody StatusOK (slice_json grant_json l))
  end.

Definition handleCreateGrant (r : Request) : M Srv Response :=
  match BridgeApi.body_object r ≫= decode_grant with
  | None => mret bad_json
  | Some g =>
      if bool_decide (g_Level g = GrantCategory) && negb (g_ExplicitlyConfirmed g)
      then mret (HttpError StatusBadRequest "category grants require explicitlyConfirmed=true — the user must explicitly approve sharing all schemas in this category")
      else if bool_decide (g_Level g = GrantSchema) &&
              match GetSchema reg (g_ScopeID g) with Ok s => sch_ExtraSensitive s | Err _ => false end &&
              negb (g_ExplicitlyConfirmed g)
      then mret (HttpError StatusBadRequest "this schema is extra-sensitive and requires explicitlyConfirmed=true")
      else
        saved ← SaveGrant g;
        match saved with
        | Err e => mret (HttpError StatusInternalServerError ("save grant: " +s error_string e))
        | Ok _ => mret (JsonBody StatusCreated (grant_json g))
        end
  end.

Definition handleRevokeGrant (r : Request) : M Srv Response :=
  res ← DeleteGrant (PathValue r "id");
  match res with
  | Err e => mret (HttpError StatusInternalServerError ("revoke grant: " +s error_string e))
  | Ok _ => mret NoContent
  end.

Definition decode_receipt_request (l : list (string * json)) : option (string * string * string * string * string * option Z) :=
  su ← str_field "subject_did" l; re ← str_field "relying_did" l; sc ← str_field "schema_id" l;
  lb ← str_field "legal_basis" l; pu ← str_field "purpose" l; ex ← time_ptr_field "expires_at" l;
  Some (su, re, sc, lb, pu, ex).
Definition handleSubmitReceipt (r : Request) (uuid : string) : M Srv Response :=
  match signingKey with
  | None => mret (HttpError StatusServiceUnavailable "platform signing key not configured")
  | Some key =>
  match BridgeApi.body_object r ≫= decode_receipt_request with
  | None => mret bad_json
  | Some (subjectDID, relyingDID, schemaID, legalBasis, purpose, expiresAt) =>
  if (subjectDID =s "") || (relyingDID =s "") || (schemaID =s "")
  then mret (HttpError StatusBadRequest "subject_did, relying_did, and schema_id are required") else
  let legalBasis := if legalBasis =s "" then LegalBasisConsent else legalBasis in
  receipt ← Issue (mkIssueOptions subjectDID relyingDID schemaID purpose legalBasis expiresAt key signingKeyID) uuid;
  match receipt with
  | Err e => mret (HttpError StatusInternalServerError ("issue receipt: " +s error_string e))
  | Ok receipt =>
      saved ← SaveReceipt receipt;
      match saved with
      | Err e => mret (HttpError StatusInternalServerError ("save receipt: " +s error_string e))
      | Ok _ => mret (JsonBody StatusCreated (receipt_json receipt))
      end
  end end end.

(** The body and the X-Total-Count header. *)
Definition handleListReceipts (r : Request) : M Srv (Response * option string) :=
  let subjectDID := Query r "subject" in
  if subjectDID =s "" then mret (HttpError StatusBadRequest "subject query parameter required", None) else
  receipts ← ListReceipts subjectDID;
  match receipts with
  | Err e => mret (HttpError StatusInternalServerError ("list receipts: " +s error_string e), None)
  | Ok l =>
      let '(limit, offset) := AuditLog.parsePagination r 100 500 in
      mret (JsonBody StatusOK (match l with
                               | [] => Some JNull
                               | _ => JArr <$> mapM receipt_json (page limit offset l)
                               end), Some (Itoa (Z.of_nat (length l))))
  end.

Definition handleDeleteSession (r : Request) : M Srv Response :=
  res ← DeleteSession (PathValue r "id");
  match res with
  | Err e => mret (HttpError StatusInternalServerError ("delete session: " +s error_string e))
  | Ok _ => mret NoContent
  end.

Definition handleListSchemas : M Srv Response :=
  mret (JsonBody StatusOK (Some (JArr ((λ cat,
    JObj ([("id", JStr (cat_ID cat)); ("name", JStr (cat_Name cat))] ++ opt_field "description" (cat_Description cat) ++
          opt_field "icon" (cat_Icon cat) ++
          [("schemas", rows_json schema_json (SchemasForCategory reg (cat_ID cat)))])) <$> AllCategories reg)))).
End Handlers.
End Consents.
