(* ===== verification/ConsentsProofs.v ===== *)
(** * Properties of consent over HTTP

    Whatever is asked of the consent endpoints, a new grant in the store is the body of a
    request to create one and keeps the rule that categories and extra-sensitive schemas
    need explicit confirmation, and a new receipt is one that was submitted and that the
    platform signed; a revoked grant stays away until it is created again; and what is
    left of a signed receipt once it is stored. *)

From S2P Require Import Prelude GoStd World Sha Base64 Json JsonValue Http Schema Consent StoreTypes Store.
From S2P Require Import StoreAuth Logic StoreInv Events GoTime AuditLog Jwt Crypto Vc BridgeApi Consents.
From stdpp Require Import sorting.
Import JsonValue Http Types Store StoreAuth StoreInv Jwt Schema Consent GoTime Consents.

Module ConsentsProofs.

(** ** Receipts *)

Lemma length_claims_json m : length (Vc.claims_json m) = base.size m.
Proof. unfold Vc.claims_json. by rewrite merge_sort_Permutation, length_fmap, length_map_to_list. Qed.
Lemma size_insert_new {A} (m : gmap string A) k v : m !! k = None → base.size (<[k := v]> m) = S (base.size m).
Proof. apply map_size_insert_None. Qed.

(** The receipt without its expiry, as a row of the store keeps it. *)
Definition without_expiry (r : Receipt) : Receipt :=
  mkReceipt (r_ID r) (r_SubjectDID r) (r_RelyingDID r) (r_SchemaID r) (r_AccessedAt r) (r_LegalBasis r)
    (r_Purpose r) None (r_RevokedAt r) (r_Signature r) (r_SignedBy r).
(** What is signed includes the expiry. *)
Lemma payload_expiry fmt r :
  receiptPayload fmt r = match r_ExpiresAt r with
                         | Some t => <["expiresAt" := fmt t]> (receiptPayload fmt (without_expiry r))
                         | None => receiptPayload fmt (without_expiry r)
                         end.
Proof. destruct r. unfold receiptPayload, without_expiry. cbn [r_ExpiresAt]. by case_match. Qed.
Lemma payload_without_expiry fmt r : receiptPayload fmt (without_expiry r) !! "expiresAt" = None.
Proof.
  unfold receiptPayload, without_expiry. cbn [r_ExpiresAt]. apply not_elem_of_list_to_map_1.
  cbn. rewrite !elem_of_cons. intros H. repeat destruct H as [[=]|H]. by apply not_elem_of_nil in H.
Qed.
Lemma payload_json_expiry r : payload_json (without_expiry r) = payload_json r ↔ r_ExpiresAt r = None.
Proof.
  unfold payload_json. split.
  - intros H. destruct (r_ExpiresAt r) as [t|] eqn:E; [|done]. exfalso.
    assert (length (Vc.claims_json (receiptPayload Events.rfc3339 (without_expiry r))) =
      length (Vc.claims_json (receiptPayload Events.rfc3339 r))) as Hl by (f_equal; congruence).
    rewrite !length_claims_json, (payload_expiry _ r), E, size_insert_new in Hl by apply payload_without_expiry. lia.
  - intros E. f_equal. f_equal. by rewrite (payload_expiry _ r), E.
Qed.

Section Receipts.
Context `{Ed25519, !Ed25519Ok}.

(** A receipt is signed, and loses its expiry in the store: when submitting one is
    answered with 201, the receipt sent back carries a signature of the platform over
    all its fields, the store holds a row of it, and the receipt that the store lists
    is the one sent back without its expiry; so its signature covers what it says
    exactly when the request gave no expiry. *)
Theorem stored_receipt_loses_expiry key keyID r uuid w resp w' :
  length key = 64 → handleSubmitReceipt (Some key) keyID r uuid w = (resp, w') → status_of resp = StatusCreated →
  ∃ issued sig row, resp = JsonBody StatusCreated (receipt_json issued) ∧ r_SignedBy issued = keyID ∧
    Base64.DecodeString (r_Signature issued) = Some sig ∧
    Crypto.VerifyJSON (ed_public key) (Some (payload_json issued)) sig = Ok tt ∧
    consent_receipts (srv_db (w_state w')) !! r_ID issued = Some row ∧
    receipt_of_row row = without_expiry issued ∧
    (payload_json (receipt_of_row row) = payload_json issued ↔ r_ExpiresAt issued = None).
Proof.
  destruct w as [clk nc rnd nr flt nf [d rev evs]]. intros Hk Hrun.
  refine (wp_run _ (λ resp w', status_of resp = StatusCreated → _) _ _ _ Hrun _).
  unfold handleSubmitReceipt. destruct (_ ≫= _) as [[[[[[su re] sc] lb] pu] ex]|]; [|by apply wp_ret].
  case_match; [by apply wp_ret|]. unfold Issue, SaveReceipt. cbn [Crypto.SignJSON].
  apply wp_bind, wp_bind, wp_time, wp_ret. apply wp_bind, wp_exec_insert; [by intros; apply wp_ret..|].
  intros _ _. apply wp_ret. intros _. set (issued := mkReceipt _ _ _ _ _ _ _ _ _ _ _).
  eexists issued, _, _. split; [done|]. split; [done|].
  split; [apply Base64.DecodeString_EncodeToString|]. split; [by apply Crypto.VerifyJSON_SignJSON|].
  split; [apply lookup_insert_eq|]. split; [done|].
  apply (payload_json_expiry issued).
Qed.
End Receipts.

(** ** The endpoints, together *)

(** A request to the consent endpoints; a submission carries the identifier that
    [uuid.NewString] returned for it. *)
Inductive ConsentRequest :=
| CreateGrant (r : Request) | RevokeGrantReq (r : Request) | ListGrantsReq (r : Request)
| SubmitReceipt (r : Request) (uuid : string) | ListReceiptsReq (r : Request)
| DeleteSessionReq (r : Request) | ListSchemasReq.

Section Endpoints.
Context `{Ed25519, !Ed25519Ok} (reg : Registry) (signingKey : option (list byte)) (signingKeyID : string).

Definition serve_consent (q : ConsentRequest) : M Srv unit :=
  match q with
  | CreateGrant r => _ ← handleCreateGrant reg r; mret tt
  | RevokeGrantReq r => _ ← handleRevokeGrant r; mret tt
  | ListGrantsReq r => _ ← handleListGrants r; mret tt
  | SubmitReceipt r uuid => _ ← handleSubmitReceipt signingKey signingKeyID r uuid; mret tt
  | ListReceiptsReq r => _ ← handleListReceipts r; mret tt
  | DeleteSessionReq r => _ ← handleDeleteSession r; mret tt
  | ListSchemasReq => _ ← handleListSchemas reg; mret tt
  end.
Definition serve_consents (qs : list ConsentRequest) (w : World Srv) : World Srv :=
  foldl (λ w q, snd (serve_consent q w)) w qs.
Lemma serve_consents_keep (I : Srv → Prop) qs w :
  (∀ q, q ∈ qs → keeps I (serve_consent q)) → I (w_state w) → I (w_state (serve_consents qs w)).
Proof.
  revert w. induction qs as [|q qs IH]; intros w Hk Hw; [done|]. cbn. apply IH.
  - intros q' Hq'. apply Hk. by right.
  - apply (Hk q ltac:(left)). exact Hw.
Qed.

(** *** Where stored grants and receipts come from *)

(** Confirmed where the level or the schema demands it. *)
Definition explicit (g : Grant) : Prop :=
  (g_Level g = GrantCategory → g_ExplicitlyConfirmed g = true) ∧
  (g_Level g = GrantSchema → ∀ s, GetSchema reg (g_ScopeID g) = Ok s → sch_ExtraSensitive s = true →
     g_ExplicitlyConfirmed g = true).
(** The row [k] is what a request to create a grant asked for, never revoked. *)
Definition created_by (qs : list ConsentRequest) (k : string) (g : Grant) : Prop :=
  ∃ r asked, CreateGrant r ∈ qs ∧ BridgeApi.body_object r ≫= decode_grant = Some asked ∧ k = g_ID asked ∧
    g_RevokedAt g = None ∧ g = mkGrant (g_ID asked) (g_SubjectDID asked) (g_RelyingDID asked) (g_Level asked) (g_ScopeID asked)
                               (g_GrantedAt asked) (g_ExpiresAt asked) None (g_ExplicitlyConfirmed asked).
(** The row [k] is that of a receipt that was submitted, complete, and that the platform's
    key signed with its expiry. *)
Definition submitted_by (qs : list ConsentRequest) (k : string) (row : ReceiptRow) : Prop :=
  ∃ r uuid su re sc lb pu ex issued key sig,
    SubmitReceipt r uuid ∈ qs ∧ BridgeApi.body_object r ≫= decode_receipt_request = Some (su, re, sc, lb, pu, ex) ∧
    k = "urn:uuid:" +s uuid ∧ su ≠ "" ∧ re ≠ "" ∧ sc ≠ "" ∧
    r_ID issued = k ∧ r_SubjectDID issued = su ∧ r_RelyingDID issued = re ∧ r_SchemaID issued = sc ∧
    r_LegalBasis issued = (if lb =s "" then LegalBasisConsent else lb) ∧ r_Purpose issued = pu ∧ r_ExpiresAt issued = ex ∧
    receipt_of_row row = without_expiry issued ∧ signingKey = Some key ∧
    Base64.DecodeString (r_Signature issued) = Some sig ∧
    Crypto.VerifyJSON (ed_public key) (Some (payload_json issued)) sig = Ok tt.
Definition consents_from (qs : list ConsentRequest) (d0 : DB) (s : Srv) : Prop :=
  (∀ k g, consent_grants (srv_db s) !! k = Some g →
     consent_grants d0 !! k = Some g ∨ (created_by qs k g ∧ explicit g)) ∧
  (∀ k row, consent_receipts (srv_db s) !! k = Some row →
     consent_receipts d0 !! k = Some row ∨ submitted_by qs k row).

Lemma create_from qs d0 r : CreateGrant r ∈ qs → keeps (consents_from qs d0) (handleCreateGrant reg r).
Proof.
  intros Hin. unfold handleCreateGrant. destruct (_ ≫= _) as [g|] eqn:Hg; [|by keeps_tac].
  case_match eqn:Hcat; [by keeps_tac|]. case_match eqn:Hsch; [by keeps_tac|].
  apply keeps_bind; [|intros ?; by keeps_tac]. apply keeps_exec_insert.
  intros d rev evs [Hgr Hrc] _. split; [|exact Hrc]. intros k g'. cbn. rewrite lookup_insert_Some.
  intros [[<- <-]|[_ Hk]]; [right|by apply Hgr]. split; [by exists r, g|]. split; cbn.
  - intros Hl. rewrite (bool_decide_eq_true_2 _ Hl) in Hcat. by destruct (g_ExplicitlyConfirmed g).
  - intros Hl s Hs Hx. rewrite (bool_decide_eq_true_2 _ Hl), Hs, Hx in Hsch. by destruct (g_ExplicitlyConfirmed g).
Qed.
Lemma revoke_from qs d0 r : keeps (consents_from qs d0) (handleRevokeGrant r).
Proof.
  unfold handleRevokeGrant. apply keeps_bind; [|intros ?; by keeps_tac]. apply keeps_exec.
  intros d rev evs [Hgr Hrc]. split; [|exact Hrc]. intros k g. cbn. intros [_ Hk]%lookup_delete_Some. by apply Hgr.
Qed.
Lemma submit_from qs d0 r uuid :
  (∀ key, signingKey = Some key → length key = 64) →
  SubmitReceipt r uuid ∈ qs → keeps (consents_from qs d0) (handleSubmitReceipt signingKey signingKeyID r uuid).
Proof.
  intros Hlen Hin. unfold handleSubmitReceipt. destruct signingKey as [key|] eqn:Hkey; [|by keeps_tac].
  specialize (Hlen key eq_refl). destruct (_ ≫= _) as [[[[[[su re] sc] lb] pu] ex]|] eqn:Hbody; [|by keeps_tac].
  destruct (String.eqb_spec su "") as [|Hsu]; [cbn [orb]; by keeps_tac|]. destruct (String.eqb_spec re "") as [|Hre]; [cbn [orb]; by keeps_tac|].
  destruct (String.eqb_spec sc "") as [|Hsc]; [cbn [orb]; by keeps_tac|]. cbn [orb].
  intros [clk nc rnd nr flt nf [d rev evs]] Hw. pose proof Hw as [Hgr Hrc].
  match goal with |- consents_from _ _ (w_state (snd (?m ?w))) => change (wp m (λ _ w', consents_from qs d0 (w_state w')) w) end.
  unfold Issue, SaveReceipt. cbn [Crypto.SignJSON]. apply wp_bind, wp_bind, wp_time, wp_ret.
  apply wp_bind, wp_exec_insert; [by intros; apply wp_ret..|]. intros _ _. apply wp_ret. set (issued := mkReceipt _ _ _ _ _ _ _ _ _ _ _).
  split; [exact Hgr|]. intros k row. cbn [srv_db w_state consent_receipts set_consent_receipts].
  rewrite lookup_insert_Some. intros [[<- <-]|[_ Hk]]; [right|by apply Hrc].
  exists r, uuid, su, re, sc, lb, pu, ex, issued, key. eexists. split_and!; try done.
  - apply Base64.DecodeString_EncodeToString.
  - by apply Crypto.VerifyJSON_SignJSON.
Qed.
Lemma serve_from qs d0 q :
  (∀ key, signingKey = Some key → length key = 64) → q ∈ qs → keeps (consents_from qs d0) (serve_consent q).
Proof.
  intros Hlen Hq. destruct q; cbn [serve_consent]; (apply keeps_bind; [|intros ?; by keeps_tac]).
  - by apply create_from.
  - apply revoke_from.
  - unfold handleListGrants. by keeps_tac.
  - by apply submit_from.
  - unfold handleListReceipts. case_match; [by keeps_tac|]. apply keeps_bind; [by keeps_tac|]. intros [l|e]; [|by keeps_tac].
    destruct (AuditLog.parsePagination r 100 500). by keeps_tac.
  - unfold handleDeleteSession, DeleteSession. apply keeps_bind; [|intros ?; by keeps_tac]. by apply keeps_exec.
  - unfold handleListSchemas. by keeps_tac.
Qed.

(** C22: Stored consent is what was asked for, explicitly: whatever sequence of requests the
    consent endpoints served (grants created, revoked and listed, receipts submitted and
    listed, sessions deleted, schemas listed), and whatever failed on the way, every grant
    in the store was there before or is, unrevoked, the body of a request of that sequence
    to create one, explicitly confirmed if it is for a category or for an extra-sensitive
    schema; and every receipt in the store was there before or is, but for its expiry, one
    that was submitted with its parties and schema and that verifies under the platform's
    key. *)
Theorem api_consent_is_explicit qs w :
  (∀ key, signingKey = Some key → length key = 64) →
  let d0 := srv_db (w_state w) in
  let d := srv_db (w_state (serve_consents qs w)) in
  (∀ k g, consent_grants d !! k = Some g → consent_grants d0 !! k = Some g ∨ (created_by qs k g ∧ explicit g)) ∧
  (∀ k row, consent_receipts d !! k = Some row → consent_receipts d0 !! k = Some row ∨ submitted_by qs k row).
Proof.
  intros Hlen. apply (serve_consents_keep (consents_from qs (srv_db (w_state w)))).
  - intros q Hq. by apply serve_from.
  - split; intros; by left.
Qed.

(** *** Revocation *)

(** After 204 the grant's row is gone, every other row is as it was, and no request brings
    it back but one that creates a grant of its identifier. *)
Theorem revoked_grant_closes r w w' qs :
  handleRevokeGrant r w = (NoContent, w') →
  (∀ r' g, CreateGrant r' ∈ qs → BridgeApi.body_object r' ≫= decode_grant = Some g → g_ID g ≠ PathValue r "id") →
  consent_grants (srv_db (w_state w')) = delete (PathValue r "id") (consent_grants (srv_db (w_state w))) ∧
  consent_grants (srv_db (w_state (serve_consents qs w'))) !! PathValue r "id" = None.
Proof.
  intros Hrun Hqs.
  assert (consent_grants (srv_db (w_state w')) = delete (PathValue r "id") (consent_grants (srv_db (w_state w)))) as Hd.
  { destruct w as [clk nc rnd nr flt nf [d rev evs]].
    refine (wp_run _ (λ resp w', resp = NoContent → consent_grants (srv_db (w_state w')) = _) _ _ _ Hrun _ eq_refl).
    unfold handleRevokeGrant, DeleteGrant. repeat (wp_step; try done). }
  split; [done|]. apply (serve_consents_keep (λ s, consent_grants (srv_db s) !! PathValue r "id" = None)).
  2:{ rewrite Hd. apply lookup_delete_eq. }
  intros q Hq. destruct q; cbn [serve_consent]; (apply keeps_bind; [|intros ?; by keeps_tac]).
  - unfold handleCreateGrant. destruct (_ ≫= _) as [g|] eqn:Hg; [|by keeps_tac]. do 2 (case_match; [by keeps_tac|]).
    apply keeps_bind; [|intros ?; by keeps_tac]. apply keeps_exec_insert. intros d rev evs Hn _. cbn.
    by rewrite lookup_insert_ne by (by eapply Hqs).
  - unfold handleRevokeGrant. apply keeps_bind; [|intros ?; by keeps_tac]. apply keeps_exec. intros d rev evs Hn. cbn.
    apply lookup_delete_None. by right.
  - unfold handleListGrants. by keeps_tac.
  - unfold handleSubmitReceipt, Issue. repeat (keeps_step || (apply keeps_exec_insert; by intros)).
  - unfold handleListReceipts. case_match; [by keeps_tac|]. apply keeps_bind; [by keeps_tac|]. intros [l|e]; [|by keeps_tac].
    destruct (AuditLog.parsePagination r0 100 500). by keeps_tac.
  - unfold handleDeleteSession, DeleteSession. apply keeps_bind; [|intros ?; by keeps_tac]. by apply keeps_exec.
  - unfold handleListSchemas. by keeps_tac.
Qed.
End Endpoints.

(** ** Instances *)

Definition idle_world (d : DB) : World Srv :=
  mkWorld (λ n, (1000 + Z.of_nat n) * second)%Z 0 (λ n, Some (λ i, byte_of_N (N.of_nat (i + 32 * n)))) 0
    (λ _, None) 0 (mkSrv d ∅ []).
Definition json_request (l : list (string * json)) : Request := mkRequest [] None [] None [] "" (Some (JObj l)).
Definition grant_request : Request :=
  json_request [("id", JStr "g1"); ("subjectDid", JStr "did:key:alice"); ("relyingDid", JStr "did:web:clinic");
    ("level", JStr "schema"); ("scopeId", JStr "healthcare.mental-health");
    ("grantedAt", JStr "2024-02-29T10:00:00Z"); ("explicitlyConfirmed", JBool true)].
Definition receipt_request : Request :=
  json_request [("subject_did", JStr "did:key:alice"); ("relying_did", JStr "did:web:clinic");
    ("schema_id", JStr "healthcare.gp-records"); ("expires_at", JStr "2030-01-01T00:00:00Z")].
#[local] Existing Instances digest_scheme digest_scheme_ok.
Definition sample_requests : list ConsentRequest :=
  [CreateGrant grant_request; SubmitReceipt receipt_request "u1"; ListSchemasReq].
Lemma api_consent_is_explicit_witness :
  let w := serve_consents demo_registry (Some sample_key) "k1" sample_requests (idle_world (empty_db true)) in
  (∃ g, consent_grants (srv_db (w_state w)) !! "g1" = Some g ∧ created_by sample_requests "g1" g ∧ explicit demo_registry g) ∧
  ∃ row, consent_receipts (srv_db (w_state w)) !! "urn:uuid:u1" = Some row ∧
    submitted_by (Some sample_key) sample_requests "urn:uuid:u1" row.
Proof.
  intros w. destruct (api_consent_is_explicit demo_registry (Some sample_key) "k1" sample_requests (idle_world (empty_db true)))
    as [Hg Hr]; [by intros key [= <-]|].
  assert (is_Some (consent_grants (srv_db (w_state w)) !! "g1")) as [g Eg] by (vm_compute; by eexists).
  assert (is_Some (consent_receipts (srv_db (w_state w)) !! "urn:uuid:u1")) as [row Er] by (vm_compute; by eexists).
  split.
  - exists g. split; [exact Eg|]. destruct (Hg "g1" g Eg) as [H0|H0]; [by vm_compute in H0|exact H0].
  - exists row. split; [exact Er|]. destruct (Hr _ row Er) as [H0|H0]; [by vm_compute in H0|exact H0].
Defined.

Definition granted_db : DB := set_consent_grants {[ "g1" := demo_grant ]} (empty_db true).
Definition revoke_request : Request := mkRequest [] None [] None [("id", "g1")] "" None.
Lemma revoked_grant_closes_witness :
  consent_grants (srv_db (w_state (serve_consents demo_registry (Some sample_key) "k1" [SubmitReceipt receipt_request "u1"]
    (snd (handleRevokeGrant revoke_request (idle_world granted_db)))))) !! "g1" = None.
Proof.
  destruct (revoked_grant_closes demo_registry (Some sample_key) "k1" revoke_request (idle_world granted_db)
    (snd (handleRevokeGrant revoke_request (idle_world granted_db))) [SubmitReceipt receipt_request "u1"] eq_refl) as [_ H].
  - intros r' g Hin. apply list_elem_of_singleton in Hin. discriminate.
  - exact H.
Defined.
Lemma stored_receipt_loses_expiry_witness :
  ∃ issued sig row, r_SignedBy issued = "k1" ∧ Base64.DecodeString (r_Signature issued) = Some sig ∧
    consent_receipts (srv_db (w_state (snd (handleSubmitReceipt (Some sample_key) "k1" receipt_request "u1"
      (idle_world (empty_db true)))))) !! r_ID issued = Some row.
Proof.
  destruct (stored_receipt_loses_expiry sample_key "k1" receipt_request "u1" (idle_world (empty_db true)) _ _
    eq_refl (surjective_pairing _)) as (issued & sig & row & _ & Hk & Hsig & _ & Hrow & _); [by vm_compute|].
  by exists issued, sig, row.
Defined.
End ConsentsProofs.
