(* ===== verification/Zkp.v ===== *)
(** * Derived age proofs (pkg/vc/zkp.go, api/zkp.go)

    The issuer reads a date of birth from a stored credential and signs a credential that
    carries a threshold and one bit.  The age is counted on the server's calendar:
    [offset] gives the seconds its zone is ahead of UTC at an instant. *)

From S2P Require Import Prelude GoStd World Sha Base64 Json JsonValue Http Consent Schema Validate.
From S2P Require Import StoreTypes Store Logic Events Jwt GoTime Crypto Did Vc VcJson VcProofs.
From S2P Require Import SdJwt Watermark Bridge BridgeApi Pe Consents CoreSchemas.
Import JsonValue Http Types Store Vc VcJson VcProofs GoTime.

Module Zkp.

Record AgeProofRequest := mkAgeProofRequest {
  ar_DOBCredentialID : string; ar_AgeThreshold : Z; ar_SubjectDID : string; ar_VerifierDID : string }.
Record AgeProofResult := mkAgeProofResult {
  ap_Credential : VerifiableCredential; ap_AgeOver : Z; ap_Result : bool }.

(** ** Dates of birth *)

Definition date_instant (y m d : Z) : Z := (days_of_civil y m d * 86400 * second)%Z.
(** [time.Parse("2006-01-02", s)]. *)
Definition parse_iso (s : string) : option Z :=
  '(y, r) ← take_uint 4 0 9999 (bytes_of s); r ← take_byte x2d r;
  '(m, r) ← take_uint 2 1 12 r; r ← take_byte x2d r;
  '(d, r) ← take_uint 2 1 (days_in m y) r;
  match r with [] => Some (date_instant y m d) | _ => None end.
(** [time.Parse("02/01/2006", s)]: the day's range is known once the year is. *)
Definition parse_slashed (s : string) : option Z :=
  '(d, r) ← take_uint 2 0 99 (bytes_of s); r ← take_byte x2f r;
  '(m, r) ← take_uint 2 1 12 r; r ← take_byte x2f r;
  '(y, r) ← take_uint 4 0 9999 r;
  match r with
  | [] => if ((1 <=? d) && (d <=? days_in m y))%Z then Some (date_instant y m d) else None
  | _ => None
  end.
Definition parseDOB (s : string) : result Z :=
  match parse_iso s with
  | Some t => Ok t
  | None =>
      match parse_slashed s with
      | Some t => Ok t
      | None =>
          match (if Nat.eqb (length (bytes_of s)) 4 then Atoi s else None) with
          | Some year => Ok (date_instant year 1 1)
          | None => Err (ErrMsg "cannot parse DOB; expected YYYY-MM-DD")
          end
      end
  end.

Example parse_years : parseDOB "1990" = Ok (date_instant 1990 1 1) ∧ parseDOB "-044" = Ok (date_instant (-44) 1 1) ∧
  parseDOB "31/12/1999" = Ok (date_instant 1999 12 31) ∧ is_ok (parseDOB "31/11/1999") = false ∧
  parseDOB "2000-02-29" = Ok (date_instant 2000 2 29).
Proof. vm_compute. done. Qed.

(** The calendar date of an instant in a zone [off] seconds ahead of UTC. *)
Definition date_of (off t : Z) : Z * Z * Z := Events.civil ((unix t + off) / 86400).

Section AgeProofs.
Context `{Ed25519, Float64, JsonSchema} (offset : Z → Z).

Definition age_at (now dob : Z) : Z :=
  let '(ny, nm, nd) := date_of (offset now) now in
  let '(by_, bm, bd) := date_of 0 dob in
  let years := (ny - by_)%Z in
  let years := if ((nm <? bm) || ((nm =? bm) && (nd <? bd)))%Z then (years - 1)%Z else years in
  if (years <? 0)%Z then 0%Z else years.
Definition ageFromDOB {St} (dob : Z) : M St Z := now ← time_now; mret (age_at now dob).

Definition dob_names : list string := ["date_of_birth"; "dob"; "dateOfBirth"; "birthDate"].
(** The first of the names whose claim is there and not empty; "" when none is. *)
Fixpoint dob_claim (names : list string) (claims : gmap string string) : string :=
  match names with
  | [] => ""
  | name :: names' =>
      match claims !! name with
      | Some v => if v =s "" then dob_claim names' claims else v
      | None => dob_claim names' claims
      end
  end.

Definition FormatBool (b : bool) : string := if b then "true" else "false".
Definition derivedClaims (threshold : Z) (result : bool) (verifierDID : string) : gmap string string :=
  let m := {["age_over" := Itoa threshold; "result" := FormatBool result;
             "proof_type" := "derived"; "method" := "issuer-computed"]} in
  if verifierDID =s "" then m else <["verifier" := verifierDID]> m.
Definition age_options (dobVC : VerifiableCredential) (threshold : Z) (result : bool) (issuerDID : string)
    (issuerKey : list byte) (keyID verifierDID : string) : IssueOptions :=
  mkIssueOptions issuerDID issuerKey keyID (sub_ID (cred_CredentialSubject (vc_Credential dobVC)))
    "identity.age-over-proof" (derivedClaims threshold result verifierDID) hour "" 0.

Definition IssueAgeProof {St} (dobVC : VerifiableCredential) (threshold : Z) (issuerDID : string) (issuerKey : list byte)
    (keyID verifierDID uuid : string) (reg : Schema.Registry) (compiled : Validate.Cache)
    : M St (result AgeProofResult * Validate.Cache) :=
  let dobStr := dob_claim dob_names (sub_Claims (cred_CredentialSubject (vc_Credential dobVC))) in
  if dobStr =s "" then mret (Err (ErrMsg "age proof: DOB credential does not contain date_of_birth"), compiled)
  else match parseDOB dobStr with
  | Err e => mret (Err (ErrWrap "age proof: parse DOB" e), compiled)
  | Ok dob =>
      age ← ageFromDOB dob;
      let result := (threshold <=? age)%Z in
      if HasPrefix issuerDID "did:key:" then mret (Err ErrEphemeralIssuer, compiled)
      else
        r ← Issue (age_options dobVC threshold result issuerDID issuerKey keyID verifierDID) uuid reg compiled;
        let '(signed, compiled') := r in
        mret (match signed with
              | Err e => Err (ErrWrap "age proof: sign" e)
              | Ok signed => Ok (mkAgeProofResult signed threshold result)
              end, compiled')
  end.

(** [newCredentialID]: the error of the random source is dropped. *)
Definition newCredentialID {St} : M St string :=
  b ← rand_read 16;
  let s := hex_encode (match b with Ok l => l | Err _ => replicate 16 x00 end) in
  mret (str_of (take 8 s) +s "-" +s str_of (take 4 (drop 8 s)) +s "-" +s str_of (take 4 (drop 12 s)) +s "-" +s
        str_of (take 4 (drop 16 s)) +s "-" +s str_of (drop 20 s)).

(** ** The endpoints *)

Definition decode_age_request (l : list (string * json)) : option AgeProofRequest :=
  id ← Jwt.str_field "dob_credential_id" l; n ← Jwt.int_field "age_threshold" l;
  su ← Jwt.str_field "subject_did" l; ve ← Jwt.str_field "verifier_did" l; Some (mkAgeProofRequest id n su ve).
Definition age_result_json (r : AgeProofResult) : option json :=
  v ← vc_json (ap_Credential r);
  Some (JObj [("credential", v); ("age_over", JInt (ap_AgeOver r)); ("result", JBool (ap_Result r))]).

Context (signingKey : option (list byte)) (signingKeyID issuer : string) (reg : Schema.Registry).

Definition handleIssueAgeProof (r : Request) (uuid : string) (compiled : Validate.Cache)
    : M Srv (Response * Validate.Cache) :=
  match signingKey with
  | None => mret (BridgeApi.writeJSONError Consents.StatusServiceUnavailable "not_configured" "platform signing key not configured", compiled)
  | Some key =>
  match BridgeApi.body_object r ≫= decode_age_request with
  | None => mret (BridgeApi.writeJSONError StatusBadRequest "invalid_request" "invalid JSON body", compiled)
  | Some req =>
  if ar_DOBCredentialID req =s ""
  then mret (BridgeApi.writeJSONError StatusBadRequest "invalid_request" "dob_credential_id required", compiled)
  else if ((ar_AgeThreshold req <=? 0) || (150 <? ar_AgeThreshold req))%Z
  then mret (BridgeApi.writeJSONError StatusBadRequest "invalid_request" "age_threshold must be 1–150", compiled)
  else
    dobVC ← GetCredential (ar_DOBCredentialID req);
    match dobVC with
    | Err _ => mret (BridgeApi.writeJSONError StatusNotFound "not_found" "DOB credential not found", compiled)
    | Ok dobVC =>
        if negb (ar_SubjectDID req =s "") && negb (sub_ID (cred_CredentialSubject (vc_Credential dobVC)) =s ar_SubjectDID req)
        then mret (BridgeApi.writeJSONError StatusForbidden "forbidden" "credential does not belong to subject_did", compiled)
        else
          res ← IssueAgeProof dobVC (ar_AgeThreshold req) issuer key signingKeyID (ar_VerifierDID req) uuid reg compiled;
          let '(result, compiled') := res in
          mret (match result with
                | Err e => BridgeApi.writeJSONError Pe.StatusUnprocessableEntity "proof_failed" (error_string e)
                | Ok result => JsonBody StatusCreated (age_result_json result)
                end, compiled')
    end
  end end.
End AgeProofs.

Section Present.
Context `{Float64} {St : Type}.
(** The first disclosure that does not parse ends the loop. *)
Fixpoint parse_disclosures (encs : list string) : result (list SdJwt.Disclosure) :=
  match encs with
  | [] => Ok []
  | enc :: encs' =>
      match SdJwt.ParseDisclosure enc with
      | Err e => Err e
      | Ok d => cons d <$> parse_disclosures encs'
      end
  end.
Definition decode_present (l : list (string * json)) : option (string * list string * string) :=
  t ← Jwt.str_field "sd_jwt" l; k ← Jwt.strs_field "reveal_keys" l; v ← Jwt.str_field "verifier_did" l; Some (t, k, v).
Definition handleSDJWTPresentWithWatermark (r : Request) : M St Response :=
  match BridgeApi.body_object r ≫= decode_present with
  | None => mret (BridgeApi.writeJSONError StatusBadRequest "invalid_request" "invalid JSON body")
  | Some (sdjwt, revealKeys, verifierDID) =>
      if sdjwt =s "" then mret (BridgeApi.writeJSONError StatusBadRequest "invalid_request" "sd_jwt required")
      else match SdJwt.ParseSDJWT sdjwt with
      | Err e => mret (BridgeApi.writeJSONError StatusBadRequest "invalid_request" ("could not parse sd_jwt: " +s error_string e))
      | Ok parsed =>
          match parse_disclosures (SdJwt.p_Disclosures parsed) with
          | Err e => mret (BridgeApi.writeJSONError StatusBadRequest "invalid_request" ("bad disclosure: " +s error_string e))
          | Ok discs =>
              res ← Watermark.PresentWithWatermark (SdJwt.mkSDJWTToken (SdJwt.p_JWT parsed) discs) revealKeys verifierDID;
              let '(presentation, record) := res in
              mret (JsonBody StatusOK (
                at_ ← time_value (Watermark.wr_IssuedAt record);
                Some (JObj [("disclosed_at", at_); ("presentation", JStr presentation);
                            ("presentation_id", JStr (Watermark.wr_PresentationID record));
                            ("verifier_did", JStr (Watermark.wr_VerifierDID record))])))
          end
      end
  end.
End Present.

(** ** Whose birthday has passed *)

(** The day a person born on the date [b] turns [n] is not after the date [t]. *)
Definition reached (n : Z) (b t : Z * Z * Z) : Prop :=
  let '(by_, bm, bd) := b in let '(ty, tm, td) := t in
  (by_ + n < ty ∨ by_ + n = ty ∧ (bm < tm ∨ bm = tm ∧ bd ≤ td))%Z.
Lemma age_reached offset now dob n :
  (1 ≤ n)%Z → (n ≤ age_at offset now dob)%Z ↔ reached n (date_of 0 dob) (date_of (offset now) now).
Proof.
  intros Hn. unfold age_at, reached. destruct (date_of (offset now) now) as [[ty tm] td], (date_of 0 dob) as [[by_ bm] bd].
  destruct (Z.ltb_spec tm bm), (Z.eqb_spec tm bm), (Z.ltb_spec td bd); cbn [orb andb];
    match goal with |- context [(?a <? 0)%Z] => destruct (Z.ltb_spec a 0) end; lia.
Qed.

(** The text of a date, year first. *)
Definition iso_date (y m d : Z) : string :=
  str_of (Events.digits 4 y ++ x2d :: Events.digits 2 m ++ x2d :: Events.digits 2 d).
Lemma days_in_bound m y : (days_in m y ≤ 31)%Z.
Proof. unfold days_in. repeat case_match; lia. Qed.
Lemma parseDOB_iso y m d :
  (0 ≤ y ≤ 9999)%Z → valid_date y m d → parseDOB (iso_date y m d) = Ok (date_instant y m d).
Proof.
  intros Hy [Hm Hd]. pose proof (days_in_bound m y). unfold parseDOB, parse_iso, iso_date. rewrite bytes_of_str_of.
  rewrite take_uint_digits by (change (10 ^ Z.of_nat 4)%Z with 10000%Z; lia). cbn [mbind option_bind]. rewrite take_byte_same.
  cbn [mbind option_bind]. rewrite take_uint_digits by (change (10 ^ Z.of_nat 2)%Z with 100%Z; lia).
  cbn [mbind option_bind]. rewrite take_byte_same. cbn [mbind option_bind].
  rewrite <-(app_nil_r (Events.digits 2 d)). rewrite take_uint_digits by (change (10 ^ Z.of_nat 2)%Z with 100%Z; lia). done.
Qed.
Lemma date_of_instant y m d : valid_date y m d → date_of 0 (date_instant y m d) = (y, m, d).
Proof.
  intros Hv. unfold date_of, date_instant, unix. rewrite Z.div_mul, Z.add_0_r, Z.div_mul by (unfold second; lia).
  by apply civil_of_days.
Qed.

Section Proofs.
Context `{Ed25519Ok, Float64, JsonSchema, Multibase} (offset : Z → Z).

Lemma IssueAgeProof_inv {St} vc n issuer key kid vdid uuid reg compiled (w : World St) r compiled' :
  fst (IssueAgeProof offset vc n issuer key kid vdid uuid reg compiled w) = (Ok r, compiled') →
  ∃ dob, let result := (n <=? age_at offset (w_clock w (w_nclock w)) dob)%Z in
    parseDOB (dob_claim dob_names (sub_Claims (cred_CredentialSubject (vc_Credential vc)))) = Ok dob ∧
    ap_AgeOver r = n ∧ ap_Result r = result ∧
    fst (Issue (age_options vc n result issuer key kid vdid) uuid reg compiled (snd (time_now w))) =
      (Ok (ap_Credential r), compiled').
Proof.
  unfold IssueAgeProof. destruct (_ =s ""); [done|]. destruct (parseDOB _) as [dob|]; [|done].
  unfold ageFromDOB, mbind, M_bind. cbn [time_now mret M_ret fst snd]. case_match eqn:Ep; [done|].
  match goal with |- context [Issue ?o ?u ?g ?c ?w'] => destruct (Issue o u g c w') as [[signed c'] w2] eqn:EI end.
  cbn [fst]. destruct signed as [signed|]; [|done]. intros [= <- <-]. exists dob. cbv zeta. cbn [ap_AgeOver ap_Result ap_Credential].
  split_and!; [done..|]. unfold time_now. cbn [snd]. by rewrite EI.
Qed.

(** C31: A derived age proof says what the calendar says: for a credential whose date of birth
    is written year first, the proof [IssueAgeProof] returns carries the threshold and
    "true" exactly if the subject has reached that age on the server's date of the day;
    it names the credential's subject, carries no other claim than the documented ones,
    and verifies for one hour with the issuer's key. *)
Theorem age_proof_correct {St} vc y m d n issuer key kid vdid uuid reg compiled (w : World St) r compiled'
    (v : Verifier St) doc wv :
  (0 ≤ y ≤ 9999)%Z → valid_date y m d → (1 ≤ n)%Z →
  dob_claim dob_names (sub_Claims (cred_CredentialSubject (vc_Credential vc))) = iso_date y m d →
  fst (IssueAgeProof offset vc n issuer key kid vdid uuid reg compiled w) = (Ok r, compiled') →
  let subject := cred_CredentialSubject (vc_Credential (ap_Credential r)) in
  let now := w_clock w (w_nclock w) in let issuedAt := w_clock w (S (w_nclock w)) in
  (ap_Result r = true ↔ reached n (y, m, d) (date_of (offset now) now)) ∧
  sub_ID subject = sub_ID (cred_CredentialSubject (vc_Credential vc)) ∧
  sub_Claims subject !! "age_over" = Some (Itoa n) ∧
  sub_Claims subject !! "result" = Some (FormatBool (ap_Result r)) ∧
  dom (sub_Claims subject) ⊆ {["age_over"; "result"; "proof_type"; "method"; "verifier"]} ∧
  (length key = 64 → (∀ w, fst (vr_resolve v issuer w) = Ok doc) →
   extractEd25519Key doc kid = Ok (ed_public key) →
   (issuedAt ≤ w_clock wv (w_nclock wv))%Z → (w_clock wv (S (w_nclock wv)) ≤ issuedAt + hour)%Z →
   fst (Verify v (ap_Credential r) wv) = Ok tt).
Proof.
  intros Hy Hv Hn Hdob HI. cbv zeta. apply IssueAgeProof_inv in HI as (dob & Hp & Ha & Hr & HI). cbv zeta in *.
  rewrite Hdob, parseDOB_iso in Hp by done. injection Hp as <-.
  pose proof (age_reached offset (w_clock w (w_nclock w)) (date_instant y m d) n Hn) as Hage. rewrite date_of_instant in Hage by done.
  rewrite <-Hr in HI. split; [rewrite Hr, Z.leb_le; exact Hage|].
  pose proof HI as HI'. apply Issue_inv in HI' as (s & h & Ec & _). split_and!.
  1-4: rewrite Ec; cbn [vc_Credential issued_credential cred_CredentialSubject age_options io_SubjectDID io_Claims sub_ID sub_Claims];
    unfold derivedClaims; destruct (vdid =s ""); rewrite ?lookup_insert_ne by done; first [done|set_solver].
  intros Hlen Hres Hk Hfrom Hto.
  eapply (issued_verifies v (age_options vc n (ap_Result r) issuer key kid vdid) uuid reg compiled (snd (time_now w)));
    [exact Hlen|exact HI|exact Hres|exact Hk| |exact Hfrom|by right].
  by rewrite Ec.
Qed.

(** An age proof reveals one bit: with two credentials of the same subject whose dates of
    birth can be read, the outcome is the same, down to the signature, whenever the answer
    to the question is.  The credential's proof, issuer and validity play no part. *)
Theorem age_proof_reveals_bit {St} vc1 vc2 dob1 dob2 n issuer key kid vdid uuid reg compiled (w : World St) :
  let subject vc := cred_CredentialSubject (vc_Credential vc) in
  let text vc := dob_claim dob_names (sub_Claims (subject vc)) in
  let now := w_clock w (w_nclock w) in
  sub_ID (subject vc1) = sub_ID (subject vc2) → text vc1 ≠ "" → text vc2 ≠ "" →
  parseDOB (text vc1) = Ok dob1 → parseDOB (text vc2) = Ok dob2 →
  (n <=? age_at offset now dob1)%Z = (n <=? age_at offset now dob2)%Z →
  IssueAgeProof offset vc1 n issuer key kid vdid uuid reg compiled w =
  IssueAgeProof offset vc2 n issuer key kid vdid uuid reg compiled w.
Proof.
  cbv zeta. intros Hs Hn1%String.eqb_neq Hn2%String.eqb_neq Hp1 Hp2 Hbit. unfold IssueAgeProof. rewrite Hn1, Hn2, Hp1, Hp2.
  unfold ageFromDOB, mbind, M_bind. cbn [time_now mret M_ret]. rewrite Hbit. unfold age_options. by rewrite Hs.
Qed.

Lemma IssueAgeProof_state {St} vc n issuer key kid vdid uuid reg compiled (w w' : World St) a :
  IssueAgeProof offset vc n issuer key kid vdid uuid reg compiled w = (a, w') → w_state w' = w_state w.
Proof.
  unfold IssueAgeProof, ageFromDOB. destruct (_ =s ""); [by intros [= _ <-]|]. destruct (parseDOB _); [|by intros [= _ <-]].
  unfold mbind, M_bind. cbn [time_now mret M_ret]. destruct (HasPrefix issuer "did:key:"); [by intros [= _ <-]|].
  match goal with |- context [Issue ?o ?u ?g ?c ?w1] =>
    destruct (Issue_run o u g c w1) as [Hs|Hs]; destruct (Issue o u g c w1) as [[x y] w2]; cbn [snd] in Hs; subst w2 end;
  intros [= _ <-]; done.
Qed.
(** The endpoint signs only for a stored credential, of the subject named in the request if
    one is named, and a threshold from 1 to 150; it changes nothing in the store. *)
Lemma age_endpoint_sound signingKey kid issuer reg (r : Request) uuid compiled (w : World Srv) body compiled' w' :
  handleIssueAgeProof offset signingKey kid issuer reg r uuid compiled w = ((JsonBody StatusCreated body, compiled'), w') →
  ∃ key req row vc res, signingKey = Some key ∧ BridgeApi.body_object r ≫= decode_age_request = Some req ∧
    (1 ≤ ar_AgeThreshold req ≤ 150)%Z ∧ credentials (srv_db (w_state w)) !! ar_DOBCredentialID req = Some row ∧
    json_unmarshal (crd_credential row) = Ok vc ∧
    (ar_SubjectDID req = "" ∨ ar_SubjectDID req = sub_ID (cred_CredentialSubject (vc_Credential vc))) ∧
    body = age_result_json res ∧ ap_AgeOver res = ar_AgeThreshold req ∧ w_state w' = w_state w.
Proof.
  unfold handleIssueAgeProof. destruct signingKey as [key|]; [|done].
  destruct (BridgeApi.body_object r ≫= decode_age_request) as [req|]; [|done].
  destruct (_ =s ""); [done|]. case_match eqn:En; [done|]. apply orb_false_iff in En as [En1 En2].
  destruct w as [clk nc rnd nr flt nf [d rev evs]]. intros Hrun. refine (wp_run _ (λ a w', a = (JsonBody StatusCreated body, compiled') → _) _ _ _ Hrun _ eq_refl). clear Hrun.
  unfold GetCredential. apply wp_bind, wp_bind, wp_query; [intros e He; by apply wp_ret, wp_ret|]. intros Hnf. cbn [w_state srv_db].
  unfold select. destruct (credentials d !! ar_DOBCredentialID req) as [row|] eqn:Er; [|by apply wp_ret, wp_ret].
  cbn [of_option]. apply wp_ret. destruct (json_unmarshal (crd_credential row)) as [vc|] eqn:Ej; [|by apply wp_ret].
  case_match eqn:Es; [by apply wp_ret|]. apply wp_bind, wp_intro. intros [res c1] w1 HI. apply wp_ret.
  intros [= E <-]. destruct res as [res|]; [|done]. injection E as <-.
  pose proof (IssueAgeProof_state _ _ _ _ _ _ _ _ _ _ _ _ HI) as Hst. cbn [w_state] in Hst.
  assert (ap_AgeOver res = ar_AgeThreshold req) as Ha.
  { apply (f_equal fst) in HI. by apply IssueAgeProof_inv in HI as (? & _ & ? & _). }
  apply Z.leb_gt in En1. apply Z.ltb_ge in En2.
  exists key, req, row, vc, res. split_and!; try done; [lia..|].
  destruct (String.eqb_spec (ar_SubjectDID req) ""); [by left|]. right.
  destruct (String.eqb_spec (sub_ID (cred_CredentialSubject (vc_Credential vc))) (ar_SubjectDID req)); [done|]. done.
Qed.
End Proofs.

(** ** Instances *)

Section Witnesses.
Import VcProofs.Sample.

Definition zone_nz : Z → Z := λ _, 46800%Z.
(** Somebody born on 29 February 2004, as a credential without a proof says. *)
Definition leapling (dob : string) : VerifiableCredential :=
  mkVerifiableCredential (mkCredential [] "urn:dob" [] "did:web:anyone" 0 None
    (mkCredentialSubject "did:web:alice" {["date_of_birth" := dob]}) None None) None.
(** Noon of 28 February 2022 in Greenwich, which is 1 March in New Zealand. *)
Definition eve : World unit := mkWorld (λ n, (1646049600 + Z.of_nat n) * second)%Z 0 (λ _, None) 0 (λ _, None) 0 tt.
Definition noon : World unit := mkWorld (λ _, 1646049601 * second)%Z 0 (λ _, None) 0 (λ _, None) 0 tt.
Definition eve_result : result AgeProofResult * Validate.Cache :=
  fst (IssueAgeProof zone_nz (leapling "2004-02-29") 18 "did:web:issuer.example" (replicate 64 x2a)
    "did:web:issuer.example#key-1" "did:web:bar" "u9" CoreSchemas.core_registry ∅ eve).
Definition eve_proof : AgeProofResult :=
  match fst eve_result with Ok r => r | Err _ => mkAgeProofResult (leapling "") 0 false end.
Lemma eve_ok : eve_result = (Ok eve_proof, snd eve_result).
Proof. vm_compute. reflexivity. Qed.
Lemma age_proof_correct_witness :
  (ap_Result eve_proof = true ↔ reached 18 (2004, 2, 29)%Z (2022, 3, 1)%Z) ∧ fst (Verify verifier (ap_Credential eve_proof) noon) = Ok tt.
Proof.
  destruct (age_proof_correct zone_nz (leapling "2004-02-29") 2004 2 29 18 "did:web:issuer.example" (replicate 64 x2a)
    "did:web:issuer.example#key-1" "did:web:bar" "u9" CoreSchemas.core_registry ∅ eve eve_proof (snd eve_result) verifier
    (doc "did:web:issuer.example") noon)
    as (Hage & _ & _ & _ & _ & Hverify).
  - lia.
  - split; vm_compute; split; discriminate.
  - lia.
  - vm_compute. reflexivity.
  - exact eve_ok.
  - split.
    + exact Hage.
    + apply Hverify; [reflexivity|intros w; reflexivity|apply (doc_key "did:web:issuer.example")|by vm_compute|by vm_compute].
Defined.
Lemma age_proof_reveals_bit_witness :
  IssueAgeProof zone_nz (leapling "2004-02-29") 18 "did:web:issuer.example" [] "k" "" "u9" CoreSchemas.core_registry ∅ eve =
  IssueAgeProof zone_nz (leapling "1970") 18 "did:web:issuer.example" [] "k" "" "u9" CoreSchemas.core_registry ∅ eve.
Proof.
  apply (age_proof_reveals_bit zone_nz (leapling "2004-02-29") (leapling "1970") (date_instant 2004 2 29) (date_instant 1970 1 1));
    [reflexivity|discriminate|discriminate|vm_compute; reflexivity|vm_compute; reflexivity|vm_compute; reflexivity].
Defined.
End Witnesses.
End Zkp.
