(* ===== verification/Credentials.v ===== *)
(** * Credentials over HTTP (api/credentials.go, api/batch.go, api/sdjwt.go, api/status.go,
    api/identity.go)

    Issuing, verifying, listing and deleting credentials, one by one and in batches;
    selective-disclosure tokens; the status list; new identities.  The cache of compiled
    schemas, a global of the schema package, is threaded through the handlers that
    validate; identifiers that [uuid.NewString] returns are arguments.

    [handleCredentialFreshness] is left out: it indexes the subject, a struct, by name and
    does not compile. *)

From S2P Require Import Prelude GoStd World Sha Base64 Json JsonValue Http Consent Schema Validate.
From S2P Require Import StoreTypes Store Logic Events AuditLog Jwt GoTime Crypto Did.
From S2P Require Import Vc VcJson DidJson SdJwt Didcomm Keystore Bridge BridgeApi Pe Consents.
Import JsonValue Http Types Store Vc VcJson DidJson.

Module Credentials.

Record issueCredentialRequest := mkIssueCredentialRequest {
  ic_IssuerDID : string; ic_SubjectDID : string; ic_SchemaID : string; ic_Claims : gmap string string;
  ic_ValidFor : string; ic_StatusListCredential : string; ic_StatusListIndex : Z }.
Definition decode_issue (l : list (string * json)) : option issueCredentialRequest :=
  iss ← Jwt.str_field "issuer_did" l; su ← Jwt.str_field "subject_did" l; sc ← Jwt.str_field "schema_id" l;
  cl ← GoTime.strmap_field "claims" l; vf ← Jwt.str_field "valid_for" l;
  sl ← Jwt.str_field "status_list_credential" l; si ← Jwt.int_field "status_list_index" l;
  Some (mkIssueCredentialRequest iss su sc cl vf sl si).

Record issueSDJWTRequest := mkIssueSDJWTRequest {
  is_IssuerDID : string; is_SubjectDID : string; is_SchemaID : string; is_SelectiveClaims : list (string * json);
  is_AlwaysVisibleClaims : list (string * json); is_ValidFor : string; is_ReturnFormat : string }.
Record verifySDJWTRequest := mkVerifySDJWTRequest {
  vs_Token : string; vs_ExpectedNonce : string; vs_ExpectedAudience : string }.
Definition decode_verify_sdjwt (l : list (string * json)) : option verifySDJWTRequest :=
  t ← Jwt.str_field "token" l; n ← Jwt.str_field "expected_nonce" l; a ← Jwt.str_field "expected_audience" l;
  Some (mkVerifySDJWTRequest t n a).
Record createIdentityRequest := mkCreateIdentityRequest { ci_Method : string; ci_Domain : string; ci_Passphrase : string }.
Definition decode_identity (l : list (string * json)) : option createIdentityRequest :=
  m ← Jwt.str_field "method" l; d ← Jwt.str_field "domain" l; p ← Jwt.str_field "passphrase" l;
  Some (mkCreateIdentityRequest m d p).

(** The lifetime asked for; none when the text is empty. *)
Definition valid_for (text : string) : result Z := if text =s "" then Ok 0%Z else GoDuration.ParseDuration text.
Definition bad_json : Response := HttpError StatusBadRequest "bad request".

Section Handlers.
Context `{Ed25519, Float64, JsonSchema, Multibase}.
Context (signingKey : option (list byte)) (signingKeyID issuer : string) (reg : Schema.Registry)
        (resolve : string → M Srv (result Document)).
Definition no_key : Response := HttpError Consents.StatusServiceUnavailable "platform signing key not configured".

(** ** Credentials *)

Definition issue_options (key : list byte) (req : issueCredentialRequest) (validFor : Z) : IssueOptions :=
  mkIssueOptions (if ic_IssuerDID req =s "" then issuer else ic_IssuerDID req) key signingKeyID
    (ic_SubjectDID req) (ic_SchemaID req) (ic_Claims req) validFor (ic_StatusListCredential req) (ic_StatusListIndex req).

Definition handleIssueCredential (r : Request) (uuid : string) (compiled : Validate.Cache)
    : M Srv (Response * Validate.Cache) :=
  match signingKey with
  | None => mret (no_key, compiled)
  | Some key =>
  match BridgeApi.body_object r ≫= decode_issue with
  | None => mret (bad_json, compiled)
  | Some req =>
  match valid_for (ic_ValidFor req) with
  | Err e => mret (HttpError StatusBadRequest ("invalid valid_for duration: " +s error_string e), compiled)
  | Ok validFor =>
      let opts := issue_options key req validFor in
      issued ← Issue opts uuid reg compiled;
      let '(cred, compiled') := issued in
      match cred with
      | Err e => mret (HttpError StatusBadRequest ("issue: " +s error_string e), compiled')
      | Ok cred =>
          saved ← SaveCredential cred;
          match saved with
          | Err e => mret (HttpError StatusInternalServerError ("save credential: " +s error_string e), compiled')
          | Ok _ =>
              _ ← Events.Publish BridgeApi.server_bus "credential.issued"
                    (Some (JObj [("id", JStr (cred_ID (vc_Credential cred))); ("issuer_did", JStr (io_IssuerDID opts));
                                 ("schema_id", JStr (ic_SchemaID req));
                                 ("subject", JStr (sub_ID (cred_CredentialSubject (vc_Credential cred))))]));
              mret (JsonBody StatusCreated (vc_json cred), compiled')
          end
      end
  end end end.

(** The verifier has no revocation check. *)
Definition handleVerifyCredential (r : Request) : M Srv Response :=
  match BridgeApi.body_object r ≫= decode_vc with
  | None => mret bad_json
  | Some cred =>
      res ← Verify (mkVerifier resolve None) cred;
      mret (match res with
            | Err e => JsonResp Pe.StatusUnprocessableEntity [("error", JStr (error_string e)); ("valid", JStr "false")]
            | Ok _ => JsonResp StatusOK [("valid", JStr "true")]
            end)
  end.

(** The body and the X-Total-Count header. *)
Definition handleListCredentials (r : Request) : M Srv (Response * option string) :=
  let subjectDID := Query r "subject" in
  if subjectDID =s "" then mret (HttpError StatusBadRequest "subject query parameter required", None) else
  creds ← ListCredentials subjectDID;
  match creds with
  | Err e => mret (HttpError StatusInternalServerError ("list: " +s error_string e), None)
  | Ok l =>
      let '(limit, offset) := AuditLog.parsePagination r 100 500 in
      mret (JsonBody StatusOK (match l with
                               | [] => Some JNull
                               | _ => JArr <$> mapM vc_json (Consents.page limit offset l)
                               end), Some (Itoa (Z.of_nat (length l))))
  end.

Definition handleDeleteCredential (r : Request) : M Srv Response :=
  res ← DeleteCredential (PathValue r "id");
  match res with
  | Err e => mret (HttpError StatusInternalServerError ("delete: " +s error_string e))
  | Ok _ => mret NoContent
  end.

(** ** Batches *)

Inductive batch_result := BatchCredential (v : VerifiableCredential) | BatchError (msg : string).
Definition batch_result_json (b : batch_result) : option json :=
  match b with
  | BatchCredential v => j ← vc_json v; Some (JObj [("credential", j)])
  | BatchError msg => Some (JObj (Jwt.opt_field "error" msg))
  end.
Definition decode_batch (r : Request) : option (list issueCredentialRequest) :=
  match rq_body r with
  | Some (JArr vs) => mapM (λ v, GoTime.elem_members v ≫= decode_issue) vs
  | Some JNull => Some []
  | _ => None
  end.
Definition maxBatch : nat := 10.
Definition issue_one (key : list byte) (req : issueCredentialRequest) (uuid : string) (compiled : Validate.Cache)
    : M Srv (batch_result * Validate.Cache) :=
  match valid_for (ic_ValidFor req) with
  | Err e => mret (BatchError ("invalid valid_for: " +s error_string e), compiled)
  | Ok validFor =>
      issued ← Issue (issue_options key req validFor) uuid reg compiled;
      let '(cred, compiled') := issued in
      match cred with
      | Err e => mret (BatchError (error_string e), compiled')
      | Ok cred =>
          saved ← SaveCredential cred;
          mret (match saved with
                | Err e => BatchError ("store error: " +s error_string e)
                | Ok _ => BatchCredential cred
                end, compiled')
      end
  end.
(** [uuids i] is the identifier drawn for the item [i]. *)
Fixpoint issue_batch (key : list byte) (i : nat) (reqs : list issueCredentialRequest) (uuids : nat → string)
    (compiled : Validate.Cache) : M Srv (list batch_result * Validate.Cache) :=
  match reqs with
  | [] => mret ([], compiled)
  | req :: reqs' =>
      x ← issue_one key req (uuids i) compiled;
      let '(b, compiled1) := x in
      y ← issue_batch key (S i) reqs' uuids compiled1;
      let '(bs, compiled2) := y in
      mret (b :: bs, compiled2)
  end.
Definition handleBatchIssueCredentials (r : Request) (uuids : nat → string) (compiled : Validate.Cache)
    : M Srv (Response * Validate.Cache) :=
  match signingKey with
  | None => mret (BridgeApi.writeJSONError Consents.StatusServiceUnavailable "not_configured" "platform signing key not configured", compiled)
  | Some key =>
  match decode_batch r with
  | None => mret (BridgeApi.writeJSONError StatusBadRequest "invalid_request" "expected JSON array of credential requests", compiled)
  | Some requests =>
      if Nat.eqb (length requests) 0
      then mret (BridgeApi.writeJSONError StatusBadRequest "invalid_request" "empty batch", compiled)
      else if Nat.ltb maxBatch (length requests)
      then mret (BridgeApi.writeJSONError StatusBadRequest "invalid_request" "batch size exceeds maximum of 10", compiled)
      else
        x ← issue_batch key 0 requests uuids compiled;
        let '(results, compiled') := x in
        mret (JsonBody StatusOK (JArr <$> mapM batch_result_json results), compiled')
  end end.

(** ** Credentials for new identities (api/bridge.go) *)

(** The text of a date, [Format("2006-01-02")]. *)
Definition date_text (t : Z) : string := str_of (take 10 (bytes_of (Events.rfc3339 t))).
Definition claim_of (m : gmap string string) (k : string) : string := default "" (m !! k).
Definition year_hours : Z := 8760 * hour.
Definition has_schema (schemaID : string) (c : VerifiableCredential) : bool :=
  match cred_CredentialSchema (vc_Credential c) with Some s => csch_ID s =s schemaID | None => false end.
Definition bootstrap_options (key : list byte) (subjectDID schemaID : string) (claims : gmap string string) : IssueOptions :=
  mkIssueOptions issuer key signingKeyID subjectDID schemaID claims year_hours "" 0.
Definition maybeIssueBootstrapVC (key : list byte) (subjectDID schemaID : string) (claims : option (gmap string string))
    (uuid : string) (compiled : Validate.Cache) : M Srv Validate.Cache :=
  match claims with
  | None => mret compiled
  | Some claims =>
      existing ← ListCredentials subjectDID;
      if match existing with Ok l => existsb (has_schema schemaID) l | Err _ => false end then mret compiled
      else
        issued ← Issue (bootstrap_options key subjectDID schemaID claims) uuid reg compiled;
        let '(cred, compiled') := issued in
        match cred with
        | Err _ => mret compiled'
        | Ok cred =>
            saved ← SaveCredential cred;
            match saved with
            | Err _ => mret compiled'
            | Ok _ =>
                _ ← Events.Publish BridgeApi.server_bus "credential.issued"
                      (Some (JObj [("id", JStr (cred_ID (vc_Credential cred))); ("issuer_did", JStr issuer);
                                   ("schema_id", JStr schemaID); ("source", JStr "bootstrap"); ("subject", JStr subjectDID)]));
                mret compiled'
            end
        end
  end.
(** The two credentials, one after the other; the code runs them in a goroutine, and only
    when there is a signing key. *)
Definition bootstrapCredentials (key : list byte) (subjectDID : string) (ext : Bridge.ExternalIdentity) (uuid1 uuid2 : string)
    (compiled : Validate.Cache) : M Srv Validate.Cache :=
  let email := claim_of (Bridge.ext_Claims ext) "email" in
  contact ← (if email =s "" then mret None
             else now ← time_now;
                  mret (Some {["contactType" := "email"; "value" := email; "verifiedDate" := date_text now]}));
  compiled ← maybeIssueBootstrapVC key subjectDID "social.verified-contacts" contact uuid1 compiled;
  let given := claim_of (Bridge.ext_Claims ext) "given_name" in
  let family := claim_of (Bridge.ext_Claims ext) "family_name" in
  maybeIssueBootstrapVC key subjectDID "identity.legal-name"
    (if (given =s "") || (family =s "") then None else Some {["givenNames" := given; "familyName" := family]}) uuid2 compiled.

(** ** Selective-disclosure tokens *)

Definition decode_issue_sdjwt (l : list (string * json)) : option issueSDJWTRequest :=
  iss ← Jwt.str_field "issuer_did" l; su ← Jwt.str_field "subject_did" l; sc ← Jwt.str_field "schema_id" l;
  sel ← Didcomm.any_map_field "selective_claims" l; al ← Didcomm.any_map_field "always_visible_claims" l;
  vf ← Jwt.str_field "valid_for" l; rf ← Jwt.str_field "return_format" l;
  Some (mkIssueSDJWTRequest iss su sc sel al vf rf).
Definition disclosure_view (d : SdJwt.Disclosure) : json :=
  JObj [("key", JStr (SdJwt.d_Key d)); ("encoded", JStr (SdJwt.Encode d))].
Definition handleIssueSDJWT (r : Request) : M Srv Response :=
  match signingKey with
  | None => mret no_key
  | Some key =>
  match BridgeApi.body_object r ≫= decode_issue_sdjwt with
  | None => mret bad_json
  | Some req =>
  if is_SubjectDID req =s "" then mret (HttpError StatusBadRequest "subject_did required") else
  match valid_for (is_ValidFor req) with
  | Err e => mret (HttpError StatusBadRequest ("invalid valid_for duration: " +s error_string e))
  | Ok validFor =>
      let validFor := if (validFor <=? 0)%Z then (24 * hour)%Z else validFor in
      token ← SdJwt.IssueSDJWT reg (SdJwt.mkSDJWTIssueOptions (if is_IssuerDID req =s "" then issuer else is_IssuerDID req)
                key signingKeyID (is_SubjectDID req) (is_SchemaID req) (is_SelectiveClaims req) (is_AlwaysVisibleClaims req) validFor);
      mret (match token with
            | Err e => HttpError StatusBadRequest ("issue sd-jwt: " +s error_string e)
            | Ok token =>
                JsonResp StatusCreated
                  ([("jwt", JStr (SdJwt.t_JWT token)); ("disclosures", JArr (disclosure_view <$> SdJwt.t_Disclosures token))] ++
                   Jwt.opt_field "serialized" (if is_ReturnFormat req =s "serialized" then SdJwt.Serialize token else ""))
            end)
  end end end.

Definition any_map_member (k : string) (l : list (string * json)) : list (string * json) :=
  match l with [] => [] | _ => [(k, JObj l)] end.
Definition verify_sdjwt_json (res : SdJwt.SDJWTVerifyResult) : option json :=
  iat ← DidJson.time_member "issued_at" (SdJwt.r_IssuedAt res); exp ← DidJson.time_member "expires_at" (SdJwt.r_ExpiresAt res);
  Some (JObj ([("valid", JBool true)] ++ Jwt.opt_field "issuer_did" (SdJwt.r_IssuerDID res) ++
    Jwt.opt_field "subject_did" (SdJwt.r_SubjectDID res) ++ Jwt.opt_field "schema_id" (SdJwt.r_SchemaID res) ++
    any_map_member "disclosed_claims" (SdJwt.r_DisclosedClaims res) ++ any_map_member "always_claims" (SdJwt.r_AlwaysClaims res) ++
    iat ++ exp ++ [("key_binding_verified", JBool (SdJwt.r_KeyBindingVerified res))])).
Definition handleVerifySDJWT (r : Request) : M Srv Response :=
  match BridgeApi.body_object r ≫= decode_verify_sdjwt with
  | None => mret bad_json
  | Some req =>
      if vs_Token req =s "" then mret (HttpError StatusBadRequest "token required")
      else
        res ← SdJwt.Verify resolve (vs_Token req) (vs_ExpectedNonce req) (vs_ExpectedAudience req);
        mret (match res with
              | Err e => JsonResp Pe.StatusUnprocessableEntity
                           ([("valid", JBool false); ("key_binding_verified", JBool false)] ++ Jwt.opt_field "error" (error_string e))
              | Ok res => JsonBody StatusOK (verify_sdjwt_json res)
              end)
  end.

(** ** The status list *)

(** [tls] and [host] are what the connection says. *)
Definition handleStatusList (r : Request) (tls : bool) (host : string) : M Srv Response :=
  let listID := PathValue r "listId" in
  if listID =s "" then mret (HttpError StatusBadRequest "missing listId")
  else
    let scheme := if tls then "https" else "http" in
    let credID := scheme +s "://" +s host +s "/api/v1/status/" +s listID in
    cred ← GetCredential credID;
    mret (match cred with
          | Err _ => HttpError StatusNotFound "status list not found"
          | Ok cred => JsonBody StatusOK (vc_json cred)
          end).

(** ** Identities *)

Context `{Ed25519Seed, X25519}.
(** [docs] are the peer documents of this process; the passphrase is not used and the key
    pairs are not kept. *)
Definition handleCreateIdentity (r : Request) (docs : gmap string Document) : M Srv (Response * gmap string Document) :=
  match BridgeApi.body_object r ≫= decode_identity with
  | None => mret (bad_json, docs)
  | Some req =>
      ks ← Keystore.Generate;
      match ks with
      | Err e => mret (HttpError StatusInternalServerError ("keygen failed: " +s error_string e), docs)
      | Ok ks =>
          created ← (if ci_Method req =s "web" then time_now else mret 0%Z);
          let '(res, docs') := Did.Create (ci_Method req)
            (Did.mkCreateOptions (ci_Domain req) (Keystore.ks_SigningPub ks) (Keystore.ks_EncPub ks)) created docs in
          match res with
          | Err e => mret (HttpError StatusBadRequest ("create DID: " +s error_string e), docs')
          | Ok (id, doc) =>
              now ← time_now;
              saved ← SaveIdentity (mkIdentity id (ci_Method req) "" "" "" "" now now);
              match saved with
              | Err e => mret (HttpError StatusInternalServerError ("save identity: " +s error_string e), docs')
              | Ok _ =>
                  saved ← SaveDocument doc;
                  mret (match saved with
                        | Err e => HttpError StatusInternalServerError ("save document: " +s error_string e)
                        | Ok _ => JsonBody StatusCreated (j ← document_json doc; Some (JObj [("did", JStr id); ("document", j)]))
                        end, docs')
              end
          end
      end
  end.
Definition handleGetIdentity (r : Request) : M Srv Response :=
  doc ← resolve (PathValue r "did");
  mret (match doc with
        | Err e => HttpError StatusNotFound ("resolve: " +s error_string e)
        | Ok doc => JsonBody StatusOK (document_json doc)
        end).
End Handlers.
End Credentials.
