(* ===== verification/CredentialsProofs.v ===== *)
(** * Credentials over HTTP: what is issued verifies, what is stored is found
    (api/credentials.go, api/batch.go, api/status.go) *)

From S2P Require Import Prelude GoStd World Sha Base64 Json JsonValue Http Consent Schema Validate.
From S2P Require Import StoreTypes Store Logic Events AuditLog Jwt GoTime Crypto Did.
From S2P Require Import Vc VcJson DidJson VcProofs SdJwt Didcomm Keystore Bridge BridgeApi Pe Consents Credentials.
Import JsonValue Http Types Store Vc VcJson DidJson VcProofs Credentials.

Module CredentialsProofs.

(** The branch answers something else. *)
Ltac other_answer := apply wp_ret; cbv beta; let E := fresh in intros E; discriminate E.

Section Credentials.
Context `{Ed25519Ok, Float64, JsonSchema, Multibase}.
Context (signingKey : option (list byte)) (signingKeyID issuer : string) (reg : Schema.Registry)
        (resolve : string → M Srv (result Document)).

(** ** Saving *)

Definition row_of (v : VerifiableCredential) (text : string) (now : Z) : CredentialRow :=
  mkCredentialRow (cred_ID (vc_Credential v)) (sub_ID (cred_CredentialSubject (vc_Credential v))) (cred_Issuer (vc_Credential v))
    (match cred_CredentialSchema (vc_Credential v) with Some s => csch_ID s | None => "" end)
    (cred_ValidFrom (vc_Credential v)) (cred_ValidUntil (vc_Credential v)) text now.
Lemma wp_SaveCredential v clk nc rnd nr flt nf d rev evs (Q : result unit → World Srv → Prop) :
  (∀ e nc' nf', Q (Err e) (mkWorld clk nc' rnd nr flt nf' (mkSrv d rev evs))) →
  (∀ j, vc_json v = Some j → credentials d !! cred_ID (vc_Credential v) = None →
     Q (Ok tt) (mkWorld clk (S nc) rnd nr flt (S nf)
       (mkSrv (set_credentials (<[cred_ID (vc_Credential v) := row_of v (str_of (marshal j)) (clk nc)]> (credentials d)) d) rev evs))) →
  wp (SaveCredential v) Q (mkWorld clk nc rnd nr flt nf (mkSrv d rev evs)).
Proof.
  intros HE HO. unfold SaveCredential. cbn [json_marshal vc_codec]. destruct (vc_json v) as [j|] eqn:Ej; cbn [fmap option_fmap option_map of_option].
  2: { apply wp_ret. apply HE. }
  wp_step. wp_step. apply wp_exec_insert; [intros; apply HE|intros; apply HE|]. intros _ Hnone. by apply HO.
Qed.

(** ** Issuing *)

Lemma issue_answer r uuid compiled (w : World Srv) body compiled' w' :
  handleIssueCredential signingKey signingKeyID issuer reg r uuid compiled w = ((JsonBody StatusCreated body, compiled'), w') →
  ∃ key req validFor cred j at_, signingKey = Some key ∧ BridgeApi.body_object r ≫= decode_issue = Some req ∧
    valid_for (ic_ValidFor req) = Ok validFor ∧
    fst (Issue (issue_options signingKeyID issuer key req validFor) uuid reg compiled w) = (Ok cred, compiled') ∧
    body = Some j ∧ vc_json cred = Some j ∧ credentials (srv_db (w_state w)) !! cred_ID (vc_Credential cred) = None ∧
    srv_db (w_state w') = set_credentials (<[cred_ID (vc_Credential cred) := row_of cred (str_of (marshal j)) at_]>
      (credentials (srv_db (w_state w)))) (srv_db (w_state w)).
Proof.
  unfold handleIssueCredential. destruct signingKey as [key|]; [|done].
  destruct (BridgeApi.body_object r ≫= decode_issue) as [req|]; [|done].
  destruct (valid_for (ic_ValidFor req)) as [validFor|] eqn:Ev; [|done]. cbv zeta.
  intros Hrun. refine (wp_run _ (λ a w', a = (JsonBody StatusCreated body, compiled') → _) _ _ _ Hrun _ eq_refl). clear Hrun w'.
  apply wp_bind, wp_intro. intros [cred c1] w1 HI.
  pose proof (Issue_run (issue_options signingKeyID issuer key req validFor) uuid reg compiled w) as Hw. rewrite HI in Hw. cbn [snd] in Hw.
  apply (f_equal fst) in HI. cbn [fst] in HI. destruct cred as [cred|]; [|other_answer].
  assert (w_state w1 = w_state w) as Hst by (destruct Hw as [->| ->]; reflexivity).
  clear Hw. destruct w1 as [clk nc rnd nr flt nf [d rev evs]]. cbn [w_state] in Hst. rewrite <-Hst. cbn [srv_db].
  apply wp_bind, wp_SaveCredential; [intros; other_answer|]. intros j Hj Hnone.
  apply wp_bind, Events.wp_Publish_plain. intros. apply wp_ret. intros [= <- <-].
  exists key, req, validFor, cred, j, (clk nc). by split_and!.
Qed.

(** A request that carries a value in its body, as its bytes are parsed. *)
Definition carries (r : Request) (j : json) : Prop := rq_body r = parse (marshal j).

(** C29: What the platform issues, the platform calls valid: the credential in the answer of the
    issuing endpoint, posted to the verifying endpoint, is answered "true" from the instant
    of issuance until the end of the lifetime asked for, when the issuer's document holds
    the platform's key.  No revocation is consulted, whatever status list it names. *)
Theorem issue_then_verify key req validFor r uuid compiled (w : World Srv) j compiled' w' r2 doc wv :
  signingKey = Some key → length key = 64 → BridgeApi.body_object r ≫= decode_issue = Some req →
  valid_for (ic_ValidFor req) = Ok validFor →
  handleIssueCredential signingKey signingKeyID issuer reg r uuid compiled w = ((JsonBody StatusCreated (Some j), compiled'), w') →
  wf j → carries r2 j →
  (∀ w, fst (resolve (if ic_IssuerDID req =s "" then issuer else ic_IssuerDID req) w) = Ok doc) →
  extractEd25519Key doc signingKeyID = Ok (ed_public key) →
  let issuedAt := w_clock w (w_nclock w) in
  (issuedAt ≤ w_clock wv (w_nclock wv))%Z → validFor = 0%Z ∨ (w_clock wv (S (w_nclock wv)) ≤ issuedAt + validFor)%Z →
  fst (handleVerifyCredential resolve r2 wv) = JsonResp StatusOK [("valid", JStr "true")].
Proof.
  intros Hkey Hlen Hr Hvf Hrun Hwf Hc Hres Hext issuedAt Hfrom Huntil.
  apply issue_answer in Hrun as (key' & req' & validFor' & cred & j' & at_ & Hk & Hreq & Hv & HI & Ej & Hj & _ & _).
  assert (key' = key) as -> by congruence. assert (req' = req) as -> by congruence.
  assert (validFor' = validFor) as -> by congruence. assert (j' = j) as -> by congruence.
  destruct (decode_vc_json cred j Hj) as (l & -> & Hd). unfold carries in Hc. rewrite parse_marshal in Hc by done.
  unfold handleVerifyCredential, BridgeApi.body_object. rewrite Hc. cbn [mbind option_bind]. rewrite Hd.
  assert (fst (Verify (mkVerifier resolve None) cred wv) = Ok tt) as HV.
  { eapply (issued_verifies (mkVerifier resolve None) (issue_options signingKeyID issuer key req validFor) uuid reg compiled w);
      [exact Hlen|exact HI|exact Hres|exact Hext| |exact Hfrom|exact Huntil].
    unfold check_status. by destruct (cred_CredentialStatus _). }
  unfold mbind, M_bind. destruct (Verify _ cred wv) as [res w2]. cbn [fst] in HV. by subst res.
Qed.

(** The credential in the answer is the credential in the store, and it was not there
    before. *)
Theorem issued_is_stored r uuid compiled (w : World Srv) body compiled' w' :
  handleIssueCredential signingKey signingKeyID issuer reg r uuid compiled w = ((JsonBody StatusCreated body, compiled'), w') →
  ∃ cred, body = vc_json cred ∧ credentials (srv_db (w_state w)) !! cred_ID (vc_Credential cred) = None ∧
    (vc_ok cred → ∀ wg, srv_db (w_state wg) = srv_db (w_state w') → no_faults wg →
       fst (GetCredential (cred_ID (vc_Credential cred)) wg) = Ok cred).
Proof.
  intros Hrun. apply issue_answer in Hrun as (key & req & validFor & cred & j & at_ & _ & _ & _ & _ & -> & Hj & Hnone & Hdb).
  exists cred. split; [done|]. split; [done|]. intros Hok wg Hg Hnf.
  destruct wg as [clk nc rnd nr flt nf [d rev evs]]. cbn [w_state srv_db] in Hg. subst d. rewrite Hdb. clear Hdb.
  unfold GetCredential, mbind, M_bind, query, on_db, db_call. cbn [w_fault w_nfault w_state srv_db]. rewrite (Hnf nf : flt nf = None).
  cbn [credentials set_credentials]. unfold select. rewrite lookup_insert_eq. cbn [of_option mret M_ret fst].
  destruct (json_roundtrip cred Hok) as (t & Ht & _ & Hu). cbn [json_marshal vc_codec] in Ht. rewrite Hj in Ht.
  cbn [fmap option_fmap option_map of_option] in Ht. injection Ht as <-. exact Hu.
Qed.

(** ** Nothing but issued credentials *)

Definition issued_ids (s : Srv) : Prop :=
  ∀ id row, credentials (srv_db s) !! id = Some row → HasPrefix id "urn:uuid:" = true.
Lemma issued_ids_save v : HasPrefix (cred_ID (vc_Credential v)) "urn:uuid:" = true → keeps issued_ids (SaveCredential v).
Proof.
  intros Hv [clk nc rnd nr flt nf [d rev evs]] Hw.
  refine (_ : wp (SaveCredential v) (λ _ w', issued_ids (w_state w')) _). apply wp_SaveCredential; [done|].
  intros j _ _ id row. cbn [w_state srv_db credentials set_credentials].
  intros [[<- _]|[_ Hl]]%lookup_insert_Some; [done|by eapply Hw].
Qed.
Lemma Issue_keeps (I : Srv → Prop) opts uuid compiled : keeps I (Issue opts uuid reg compiled).
Proof. intros w Hw. by destruct (Issue_run opts uuid reg compiled w) as [->| ->]. Qed.
Lemma issued_prefix opts uuid compiled (w : World Srv) v c :
  fst (Issue opts uuid reg compiled w) = (Ok v, c) → HasPrefix (cred_ID (vc_Credential v)) "urn:uuid:" = true.
Proof.
  intros HI. apply Issue_inv in HI as (s & h & -> & _). cbn [vc_Credential issued_credential cred_ID].
  unfold HasPrefix. rewrite bytes_of_append. apply bprefix_app.
Qed.
(** Saving what was just issued, whatever follows. *)
Lemma keeps_issue_save {A} opts uuid compiled (f : result VerifiableCredential * Validate.Cache → M Srv A) :
  (∀ v c, HasPrefix (cred_ID (vc_Credential v)) "urn:uuid:" = true → keeps issued_ids (f (Ok v, c))) →
  (∀ e c, keeps issued_ids (f (Err e, c))) → keeps issued_ids (Issue opts uuid reg compiled ≫= f).
Proof.
  intros Hok Herr w Hw. unfold mbind, M_bind. pose proof (Issue_keeps issued_ids opts uuid compiled w Hw) as Hw1.
  pose proof (issued_prefix opts uuid compiled w) as Hp.
  destruct (Issue opts uuid reg compiled w) as [[[v|e] c] w1]; cbn [fst snd] in *; [|by apply Herr].
  by apply Hok; [eapply Hp|].
Qed.
Lemma Publish_issued t p : keeps issued_ids (Events.Publish BridgeApi.server_bus t p).
Proof.
  intros w Hw. destruct (Events.Publish_plain t p w) as [Hd _]. intros id row. unfold BridgeApi.server_bus. rewrite Hd. apply Hw.
Qed.
#[local] Hint Resolve Publish_issued : go.
Ltac ids_tac := keeps_tac; try by apply issued_ids_save.

Lemma issue_keeps_ids r uuid compiled : keeps issued_ids (handleIssueCredential signingKey signingKeyID issuer reg r uuid compiled).
Proof.
  unfold handleIssueCredential. destruct signingKey; [|keeps_tac]. destruct (_ ≫= _); [|keeps_tac].
  destruct (valid_for _); [|keeps_tac]. cbv zeta. apply keeps_issue_save; intros; ids_tac.
Qed.
Lemma issue_one_keeps_ids key req uuid compiled : keeps issued_ids (issue_one signingKeyID issuer reg key req uuid compiled).
Proof. unfold issue_one. destruct (valid_for _); [|keeps_tac]. apply keeps_issue_save; intros; ids_tac. Qed.
Lemma issue_batch_keeps_ids key i reqs uuids compiled : keeps issued_ids (issue_batch signingKeyID issuer reg key i reqs uuids compiled).
Proof.
  revert i compiled. induction reqs as [|req reqs IH]; intros i compiled; cbn [issue_batch]; [keeps_tac|].
  apply keeps_bind; [apply issue_one_keeps_ids|]. intros [b c]. apply keeps_bind; [apply IH|]. intros [bs c']. keeps_tac.
Qed.
Lemma batch_keeps_ids r uuids compiled : keeps issued_ids (handleBatchIssueCredentials signingKey signingKeyID issuer reg r uuids compiled).
Proof.
  unfold handleBatchIssueCredentials. destruct signingKey; [|keeps_tac]. destruct (decode_batch r); [|keeps_tac].
  do 2 (case_match; [keeps_tac|]). apply keeps_bind; [apply issue_batch_keeps_ids|]. intros [? ?]. keeps_tac.
Qed.
Lemma delete_keeps_ids r : keeps issued_ids (handleDeleteCredential r).
Proof.
  unfold handleDeleteCredential, DeleteCredential. apply keeps_bind; [|intros ?; keeps_tac]. apply keeps_exec.
  intros d rev evs Hd id row. cbn [srv_db credentials set_credentials]. intros [_ Hl]%lookup_delete_Some. by eapply Hd.
Qed.
Lemma maybe_keeps_ids key subject schemaID claims uuid compiled :
  keeps issued_ids (maybeIssueBootstrapVC signingKeyID issuer reg key subject schemaID claims uuid compiled).
Proof.
  unfold maybeIssueBootstrapVC. destruct claims; [|keeps_tac]. apply keeps_bind; [unfold ListCredentials; keeps_tac|]. intros existing.
  case_match; [keeps_tac|]. apply keeps_issue_save; intros; ids_tac.
Qed.
Lemma bootstrap_keeps_ids key subject ext u1 u2 compiled :
  keeps issued_ids (bootstrapCredentials signingKeyID issuer reg key subject ext u1 u2 compiled).
Proof.
  unfold bootstrapCredentials. cbv zeta. apply keeps_bind; [keeps_tac|]. intros contact.
  apply keeps_bind; [apply maybe_keeps_ids|]. intros c. apply maybe_keeps_ids.
Qed.

(** Every way the server writes the credentials table. *)
Inductive credential_op :=
| OpIssue (r : Request) (uuid : string) (compiled : Validate.Cache)
| OpBatch (r : Request) (uuids : nat → string) (compiled : Validate.Cache)
| OpDelete (r : Request)
| OpBootstrap (key : list byte) (subject : string) (ext : Bridge.ExternalIdentity) (u1 u2 : string) (compiled : Validate.Cache).
Definition run_credential_op (o : credential_op) : M Srv unit :=
  match o with
  | OpIssue r uuid c => _ ← handleIssueCredential signingKey signingKeyID issuer reg r uuid c; mret tt
  | OpBatch r uuids c => _ ← handleBatchIssueCredentials signingKey signingKeyID issuer reg r uuids c; mret tt
  | OpDelete r => _ ← handleDeleteCredential r; mret tt
  | OpBootstrap key subject ext u1 u2 c => _ ← bootstrapCredentials signingKeyID issuer reg key subject ext u1 u2 c; mret tt
  end.
Fixpoint run_credential_ops (l : list credential_op) : M Srv unit :=
  match l with [] => mret tt | o :: l' => _ ← run_credential_op o; run_credential_ops l' end.
Lemma ops_keep_ids l : keeps issued_ids (run_credential_ops l).
Proof.
  induction l as [|o l IH]; cbn [run_credential_ops]; [keeps_tac|]. apply keeps_bind; [|by intros ?].
  destruct o; cbn [run_credential_op]; (apply keeps_bind; [|intros ?; keeps_tac]);
    [apply issue_keeps_ids|apply batch_keeps_ids|apply delete_keeps_ids|apply bootstrap_keeps_ids].
Qed.

(** C38: The status list is never served: whatever was issued, deleted or bootstrapped since the
    credentials table was empty, the endpoint answers 404 for every list that a request can
    name (and 400 for an empty name); it looks for a credential under a URL, and every
    credential in the store is under a "urn:uuid:" name. *)
Theorem status_list_never_served ops (w : World Srv) r tls host :
  credentials (srv_db (w_state w)) = ∅ →
  fst (handleStatusList r tls host (snd (run_credential_ops ops w))) =
    if PathValue r "listId" =s "" then HttpError StatusBadRequest "missing listId"
    else HttpError StatusNotFound "status list not found".
Proof.
  intros He. assert (issued_ids (w_state (snd (run_credential_ops ops w)))) as Hids.
  { apply ops_keep_ids. intros id row. rewrite He. by rewrite lookup_empty. }
  destruct (snd (run_credential_ops ops w)) as [clk nc rnd nr flt nf [d rev evs]]. cbn [w_state] in Hids.
  unfold handleStatusList. destruct (_ =s ""); [done|]. unfold GetCredential, mbind, M_bind, query, on_db, db_call.
  cbn [w_fault w_nfault w_state srv_db]. destruct (flt nf); [done|]. unfold select.
  match goal with |- context [credentials d !! ?id] => destruct (credentials d !! id) as [row|] eqn:El end; [|done].
  apply Hids in El. by destruct tls.
Qed.

(** ** Batches *)

Definition is_credential (b : batch_result) : bool := match b with BatchCredential _ => true | BatchError _ => false end.
Definition issued_count (l : list batch_result) : nat := length (filter (λ b, is_credential b = true) l).
Lemma issue_one_count key req uuid compiled (w : World Srv) b c w' :
  issue_one signingKeyID issuer reg key req uuid compiled w = ((b, c), w') →
  base.size (credentials (srv_db (w_state w'))) = base.size (credentials (srv_db (w_state w))) + issued_count [b].
Proof.
  unfold issue_one. destruct (valid_for _) as [vf|]; [|intros [= <- _ <-]; apply plus_n_O]. intros Hrun.
  refine (wp_run _ (λ a w', _ = _ + issued_count [a.1]) _ _ _ Hrun _). clear Hrun b c w'.
  apply wp_bind, wp_intro. intros [cred c1] w1 HI.
  pose proof (Issue_run (issue_options signingKeyID issuer key req vf) uuid reg compiled w) as Hw. rewrite HI in Hw. cbn [snd] in Hw.
  assert (w_state w1 = w_state w) as <- by (destruct Hw as [->| ->]; reflexivity). clear Hw HI.
  destruct cred as [cred|]; [|apply wp_ret, plus_n_O]. destruct w1 as [clk nc rnd nr flt nf [d rev evs]].
  apply wp_bind, wp_SaveCredential; [intros; apply wp_ret, plus_n_O|]. intros j _ Hnone. apply wp_ret.
  cbn [w_state srv_db credentials set_credentials fst]. rewrite map_size_insert_None by done. change (issued_count [BatchCredential cred]) with 1. lia.
Qed.
Lemma issue_batch_count key i reqs uuids compiled (w : World Srv) bs c w' :
  issue_batch signingKeyID issuer reg key i reqs uuids compiled w = ((bs, c), w') →
  length bs = length reqs ∧
  base.size (credentials (srv_db (w_state w'))) = base.size (credentials (srv_db (w_state w))) + issued_count bs.
Proof.
  revert i compiled w bs c w'. induction reqs as [|req reqs IH]; intros i compiled w bs c w'; cbn [issue_batch].
  { intros [= <- _ <-]. split; [done|apply plus_n_O]. }
  unfold mbind, M_bind. destruct (issue_one signingKeyID issuer reg key req (uuids i) compiled w) as [[b c1] w1] eqn:E1.
  apply issue_one_count in E1. destruct (issue_batch signingKeyID issuer reg key (S i) reqs uuids c1 w1) as [[bs' c2] w2] eqn:E2.
  apply IH in E2 as [Hl Hs]. cbn [mret M_ret]. intros [= <- _ <-]. split; [cbn; lia|].
  rewrite Hs, E1. unfold issued_count. change (b :: bs') with ([b] ++ bs'). rewrite filter_app, length_app. lia.
Qed.
(** A batch is answered item by item: at most ten requests, as many results in their order,
    and the store grows by exactly the credentials among the results. *)
Theorem batch_accounts r uuids compiled (w : World Srv) body compiled' w' :
  handleBatchIssueCredentials signingKey signingKeyID issuer reg r uuids compiled w = ((JsonBody StatusOK body, compiled'), w') →
  ∃ reqs results, decode_batch r = Some reqs ∧ 1 ≤ length reqs ≤ maxBatch ∧ length results = length reqs ∧
    body = JArr <$> mapM batch_result_json results ∧
    base.size (credentials (srv_db (w_state w'))) = base.size (credentials (srv_db (w_state w))) + issued_count results.
Proof.
  unfold handleBatchIssueCredentials. destruct signingKey as [key|]; [|done]. destruct (decode_batch r) as [reqs|]; [|done].
  destruct (Nat.eqb_spec (length reqs) 0); [done|]. destruct (Nat.ltb_spec maxBatch (length reqs)); [done|].
  unfold mbind, M_bind. destruct (issue_batch _ _ _ _ _ _ _ _ w) as [[bs c] w1] eqn:E. apply issue_batch_count in E as [Hl Hs].
  cbn [mret M_ret]. intros [= <- _ <-]. exists reqs, bs. by split_and!; [|lia..| | |].
Qed.

(** ** Bootstrapping again issues again *)

Definition named_schemas : Prop := ∀ id s, Schema.schemas reg !! id = Some s → Schema.sch_ID s ≠ "" ∧ (Schema.sch_Version s < 2 ^ 63)%Z.
(** The check for a credential already issued compares the versioned identifier that
    credentials carry with the plain one: no credential the platform issued is ever found. *)
Theorem bootstrap_check_never_holds opts uuid compiled (w : World Srv) c compiled' schemaID :
  named_schemas → Schema.BaseID schemaID = schemaID →
  fst (Issue opts uuid reg compiled w) = (Ok c, compiled') → has_schema schemaID c = false.
Proof.
  intros Hn Hb HI. assert (∃ s now, Schema.GetSchema reg (io_SchemaID opts) = Ok s ∧
    vc_Credential c = issued_credential opts uuid (Schema.VersionedID s) now) as (s & now & Hs & Ec).
  { revert HI. unfold Issue. destruct (HasPrefix _ _); [done|]. destruct (Validate.Validate _ _ _ _) as [[[]|] c1]; [|done].
    destruct (Schema.GetSchema reg (io_SchemaID opts)) as [s|]; [|done]. unfold mbind, M_bind, time_now. cbn [fst mret M_ret].
    destruct (integrity_hash _ _); [|done]. intros [= <- _]. by eexists s, _. }
  unfold has_schema. rewrite Ec. cbn [issued_credential cred_CredentialSchema csch_ID].
  apply String.eqb_neq. intros E.
  assert (Schema.sch_ID s ≠ "" ∧ (Schema.sch_Version s < 2 ^ 63)%Z) as [Hne Hv].
  { unfold Schema.GetSchema in Hs. destruct (Schema.schemas reg !! io_SchemaID opts) as [s'|] eqn:El; [injection Hs as <-; by eapply Hn|].
    destruct (Schema.BaseID (io_SchemaID opts) =s io_SchemaID opts); [done|].
    destruct (Schema.schemas reg !! Schema.BaseID (io_SchemaID opts)) as [s'|] eqn:El'; [|done]. injection Hs as <-. by eapply Hn. }
  pose proof (Schema.BaseID_VersionedID s Hne Hv) as HB. rewrite E, Hb, <-E in HB.
  apply (f_equal (length ∘ bytes_of)) in HB. unfold Schema.VersionedID, compose in HB. rewrite !bytes_of_append, !length_app in HB.
  change (length (bytes_of "-v")) with 2 in HB. lia.
Qed.
End Credentials.

(** ** Instances *)

Section Witnesses.
Import VcProofs.Sample.

Definition api_world : World Srv := mkWorld (λ n, (1000 + Z.of_nat n) * second)%Z 0 (λ _, None) 0 (λ _, None) 0 init_srv.
Definition later_world : World Srv := mkWorld (λ _, 2000 * second)%Z 0 (λ _, None) 0 (λ _, None) 0 init_srv.
Definition api_doc (did : string) : M Srv (result Document) := mret (Ok (doc did)).
Definition issue_body : json :=
  JObj [("subject_did", JStr "did:web:alice"); ("schema_id", JStr "identity.legal-name");
        ("claims", JObj [("givenNames", JStr "Alice")]); ("valid_for", JStr "1h30m");
        ("status_list_credential", JStr "https://issuer.example/api/v1/status/1")].
Definition post (j : json) : Request := mkRequest [] None [] None [] "" (parse (marshal j)).
Definition sample_issue : Response * Validate.Cache * World Srv :=
  handleIssueCredential (Some (replicate 64 x2a)) "did:web:issuer.example#key-1" "did:web:issuer.example" registry
    (post issue_body) "u1" ∅ api_world.
Definition issued_json : json := match fst (fst sample_issue) with JsonBody _ (Some j) => j | _ => JNull end.
Lemma sample_issued : sample_issue = ((JsonBody StatusCreated (Some issued_json), snd (fst sample_issue)), snd sample_issue).
Proof. vm_compute. reflexivity. Qed.

Definition issue_req : issueCredentialRequest :=
  mkIssueCredentialRequest "" "did:web:alice" "identity.legal-name" {["givenNames" := "Alice"]} "1h30m"
    "https://issuer.example/api/v1/status/1" 0.
Lemma issued_json_wf : wf issued_json.
Proof. vm_compute. repeat match goal with |- _ ∧ _ => split end; first [exact I | reflexivity | discriminate]. Qed.
Lemma issue_then_verify_witness :
  fst (handleVerifyCredential api_doc (post issued_json) later_world) = JsonResp StatusOK [("valid", JStr "true")].
Proof.
  apply (issue_then_verify (Some (replicate 64 x2a)) "did:web:issuer.example#key-1" "did:web:issuer.example" registry api_doc
    (replicate 64 x2a) issue_req (90 * minute) (post issue_body) "u1" ∅ api_world issued_json (snd (fst sample_issue))
    (snd sample_issue) (post issued_json) (doc "did:web:issuer.example") later_world).
  - reflexivity.
  - reflexivity.
  - vm_compute. reflexivity.
  - vm_compute. reflexivity.
  - exact sample_issued.
  - exact issued_json_wf.
  - reflexivity.
  - intros w. reflexivity.
  - apply (doc_key "did:web:issuer.example").
  - vm_compute. discriminate.
  - right. vm_compute. discriminate.
Defined.
Lemma issued_is_stored_witness :
  ∃ cred, Some issued_json = vc_json cred ∧ credentials (srv_db (w_state api_world)) !! cred_ID (vc_Credential cred) = None ∧
    (vc_ok cred → ∀ wg, srv_db (w_state wg) = srv_db (w_state (snd sample_issue)) → no_faults wg →
       fst (GetCredential (cred_ID (vc_Credential cred)) wg) = Ok cred).
Proof.
  exact (issued_is_stored (Some (replicate 64 x2a)) "did:web:issuer.example#key-1" "did:web:issuer.example" registry
    (post issue_body) "u1" ∅ api_world (Some issued_json) (snd (fst sample_issue)) (snd sample_issue) sample_issued).
Defined.
Lemma status_list_never_served_witness :
  fst (handleStatusList (mkRequest [] None [] None [("listId", "1")] "" None) true "issuer.example"
    (snd (run_credential_ops (Some (replicate 64 x2a)) "did:web:issuer.example#key-1" "did:web:issuer.example" registry
      [OpIssue (post issue_body) "u1" ∅] api_world))) = HttpError StatusNotFound "status list not found".
Proof.
  apply (status_list_never_served (Some (replicate 64 x2a)) "did:web:issuer.example#key-1" "did:web:issuer.example" registry
    [OpIssue (post issue_body) "u1" ∅] api_world (mkRequest [] None [] None [("listId", "1")] "" None)). reflexivity.
Defined.

(** Two requests, the second for a schema that is not there. *)
Definition batch_body : json := JArr [issue_body; JObj [("schema_id", JStr "no.such")]].
Definition sample_batch : Response * Validate.Cache * World Srv :=
  handleBatchIssueCredentials (Some (replicate 64 x2a)) "did:web:issuer.example#key-1" "did:web:issuer.example" registry
    (post batch_body) (λ i, if Nat.eqb i 0 then "u1" else "u2") ∅ api_world.
Definition batch_json : option json := match fst (fst sample_batch) with JsonBody _ b => b | _ => None end.
Lemma sample_batched : sample_batch = ((JsonBody StatusOK batch_json, snd (fst sample_batch)), snd sample_batch).
Proof. vm_compute. reflexivity. Qed.
Lemma batch_accounts_witness :
  ∃ reqs results, decode_batch (post batch_body) = Some reqs ∧ 1 ≤ length reqs ≤ maxBatch ∧ length results = length reqs ∧
    batch_json = JArr <$> mapM batch_result_json results ∧
    base.size (credentials (srv_db (w_state (snd sample_batch)))) = base.size (credentials (srv_db (w_state api_world))) + issued_count results.
Proof.
  exact (batch_accounts (Some (replicate 64 x2a)) "did:web:issuer.example#key-1" "did:web:issuer.example" registry
    (post batch_body) (λ i, if Nat.eqb i 0 then "u1" else "u2") ∅ api_world batch_json (snd (fst sample_batch)) (snd sample_batch) sample_batched).
Defined.

Lemma registry_named : named_schemas registry.
Proof.
  intros k s Hs. assert (Schema.schemas registry = {["identity.legal-name" :=
    Schema.mkSchema "identity.legal-name" "identity" "Legal name" "" 1 false [] Schema.SourceCore]}) as E by reflexivity.
  rewrite E in Hs. apply lookup_singleton_Some in Hs as [_ <-]. split; [discriminate|]. cbn [Schema.sch_Version]. lia.
Qed.
Lemma bootstrap_check_never_holds_witness :
  has_schema "identity.legal-name" credential = false.
Proof.
  apply (bootstrap_check_never_holds registry opts "u1" ∅ api_world credential (snd (fst (Issue opts "u1" registry ∅ world))) "identity.legal-name").
  - exact registry_named.
  - vm_compute. reflexivity.
  - vm_compute. reflexivity.
Defined.
End Witnesses.
End CredentialsProofs.
