(* ===== verification/WebhooksProofs.v ===== *)
(** * Webhook registration over HTTP (api/webhooks.go)

    Registration with its check of the target's addresses, listing, deletion and the
    test ping, composed with the store and the event bus; and what a registrant can
    rely on afterwards. *)

From S2P Require Import Prelude GoStd World Sha Json JsonValue Http Consent StoreTypes Store StoreAuth Logic StoreInv.
From S2P Require Import Events GoTime AuditLog Jwt Vc Did GoNet BridgeApi Consents.
Import JsonValue Http Types Store StoreAuth StoreInv Jwt.

Module Webhooks.

Record registerWebhookRequest := mkRegisterWebhookRequest { rw_URL : string; rw_EventTypes : list string }.
Definition decode_register (l : list (string * json)) : option registerWebhookRequest :=
  u ← str_field "url" l; ts ← strs_field "event_types" l; Some (mkRegisterWebhookRequest u ts).

(** ** The filter on targets *)

Definition webhookPrivateRanges : list (Did.IP * N) :=
  omap GoNet.ParseCIDR ["10.0.0.0/8"; "172.16.0.0/12"; "192.168.0.0/16"; "127.0.0.0/8"; "::1/128"; "fc00::/7";
    "169.254.0.0/16"; "fe80::/10"; "100.64.0.0/10"; "198.18.0.0/15"; "0.0.0.0/8"].
Definition webhookIsPrivateIP (ip : Did.IP) : bool :=
  Did.IsLoopback ip || Did.IsLinkLocalUnicast ip || Did.IsLinkLocalMulticast ip ||
  existsb (λ block, Did.Contains block ip) webhookPrivateRanges.

Section Webhooks.
(** The resolver: the addresses of a host, as text. *)
Context (LookupHost : string → result (list string)).

Definition validateWebhookURL (rawURL : string) : result unit :=
  match GoNet.ParseRequestURI rawURL with
  | None => Err (ErrMsg "malformed URL")
  | Some u =>
      if negb (GoNet.u_Scheme u =s "https") && negb (GoNet.u_Scheme u =s "http")
      then Err (ErrMsg "scheme must be http or https")
      else match LookupHost (GoNet.Hostname u) with
      | Err e => Err (ErrWrap "cannot resolve host" e)
      | Ok ips =>
          if existsb (λ ipStr, match GoNet.ParseIP ipStr with Some ip => webhookIsPrivateIP ip | None => false end) ips
          then Err (ErrMsg "host resolves to a private/loopback address") else Ok tt
      end
  end.

(** ** Handlers *)

Definition randomWebhookSecret : M Srv (result string) :=
  b ← rand_read 32; mret ((λ b, "whsec_" +s Sha.hex b) <$> b).
Definition sha256WebhookSecret (s : string) : string := Sha.hex (Sha.Sum256 (bytes_of s)).
Definition randomWebhookID : M Srv (result string) :=
  b ← rand_read 8; mret ((λ b, "wh_" +s Sha.hex b) <$> b).

Definition registered_body (sub : WebhookSubscription) (secret : string) : list (string * json) :=
  [("id", JStr (wh_ID sub)); ("url", JStr (wh_URL sub)); ("event_types", Vc.strs_json (wh_EventTypes sub));
   ("signing_secret", JStr secret); ("created_at", JStr (Events.rfc3339 (wh_CreatedAt sub)))].

Definition handleRegisterWebhook (r : Request) : M Srv Response :=
  match BridgeApi.body_object r ≫= decode_register with
  | None => mret (HttpError StatusBadRequest "invalid request")
  | Some req =>
  if rw_URL req =s "" then mret (HttpError StatusBadRequest "url required") else
  match validateWebhookURL (rw_URL req) with
  | Err e => mret (HttpError StatusBadRequest ("invalid url: " +s error_string e))
  | Ok _ =>
  let eventTypes := match rw_EventTypes req with [] => ["*"] | l => l end in
  secret ← randomWebhookSecret;
  match secret with
  | Err _ => mret (HttpError StatusInternalServerError "internal error")
  | Ok rawSecret =>
  let secretHash := sha256WebhookSecret rawSecret in
  id ← randomWebhookID;
  match id with
  | Err _ => mret (HttpError StatusInternalServerError "internal error")
  | Ok id =>
  now ← time_now;
  let sub := mkWebhookSubscription id (rw_URL req) eventTypes secretHash "" now in
  saved ← SaveWebhookSubscription sub;
  match saved with
  | Err _ => mret (HttpError StatusInternalServerError "internal error")
  | Ok _ => mret (JsonResp StatusCreated (registered_body sub rawSecret))
  end end end end end.

Definition handleDeleteWebhook (r : Request) : M Srv Response :=
  res ← DeleteWebhookSubscription (PathValue r "id");
  match res with
  | Err _ => mret (HttpError StatusNotFound "not found")
  | Ok _ => mret NoContent
  end.

(** The secret's hash is not sent. *)
Definition webhook_json (s : WebhookSubscription) : option json :=
  at_ ← Vc.time_value (wh_CreatedAt s);
  Some (JObj ([("id", JStr (wh_ID s)); ("url", JStr (wh_URL s)); ("eventTypes", Vc.strs_json (wh_EventTypes s))] ++
              opt_field "tenantId" (wh_TenantID s) ++ [("createdAt", at_)])).
Definition handleListWebhooks : M Srv Response :=
  subs ← ListWebhookSubscriptions "";
  match subs with
  | Err _ => mret (HttpError StatusInternalServerError "internal error")
  | Ok l => mret (JsonBody StatusOK (Consents.slice_json webhook_json l))
  end.

(** The event is dropped when its time does not encode. *)
Definition handleTestWebhook (r : Request) : M Srv Response :=
  let id := PathValue r "id" in
  sub ← GetWebhookSubscription id;
  match sub with
  | Err _ => mret (BridgeApi.writeJSONError StatusNotFound "not_found" "webhook subscription not found")
  | Ok sub =>
      now ← time_now;
      _ ← Events.Publish BridgeApi.server_bus "webhook.ping"
            (at_ ← Vc.time_value now;
             Some (JObj [("message", JStr "Test delivery from tpt-identity. If you receive this, your webhook is configured correctly.");
                         ("sent_at", at_); ("webhook_id", JStr id)]));
      mret (JsonResp StatusOK [("message", JStr "Test event published. Check your webhook endpoint for delivery.");
                               ("status", JStr "ping_sent"); ("url", JStr (wh_URL sub)); ("webhook_id", JStr (wh_ID sub))])
  end.

(** ** Registration *)

Lemma registered r w resp w' :
  handleRegisterWebhook r w = (resp, w') → status_of resp = StatusCreated →
  ∃ req f g, BridgeApi.body_object r ≫= decode_register = Some req ∧ validateWebhookURL (rw_URL req) = Ok tt ∧
    w_rand w (w_nrand w) = Some f ∧ w_rand w (S (w_nrand w)) = Some g ∧ w_fault w' = w_fault w ∧
    let secret := "whsec_" +s Sha.hex (f <$> seq 0 32) in
    let sub := mkWebhookSubscription ("wh_" +s Sha.hex (g <$> seq 0 8)) (rw_URL req)
                 (match rw_EventTypes req with [] => ["*"] | l => l end) (sha256WebhookSecret secret) ""
                 (w_clock w (w_nclock w)) in
    resp = JsonResp StatusCreated (registered_body sub secret) ∧
    srv_db (w_state w') = set_webhook_subscriptions (upsert webhook_merge (wh_ID sub)
      (mkWebhookRow (wh_ID sub) (wh_URL sub) (marshal_or_empty (wh_EventTypes sub)) (wh_SecretHash sub) "" (wh_CreatedAt sub))
      (webhook_subscriptions (srv_db (w_state w)))) (srv_db (w_state w)).
Proof.
  destruct w as [clk nc rnd nr flt nf [d rev evs]]. intros Hrun.
  refine (wp_run _ (λ resp w', status_of resp = StatusCreated → _) _ _ _ Hrun _).
  unfold handleRegisterWebhook, randomWebhookSecret, randomWebhookID, SaveWebhookSubscription.
  destruct (_ ≫= _) as [req|] eqn:Hreq; [|by apply wp_ret]. destruct (rw_URL req =s ""); [by apply wp_ret|].
  destruct (validateWebhookURL (rw_URL req)) as [[]|e] eqn:Hv; [|by apply wp_ret]. cbn zeta.
  repeat (wp_step; try done). intros _. exists req, f, f0. done.
Qed.
End Webhooks.
End Webhooks.

Import Webhooks.
(** * What a registrant can rely on *)

Module WebhooksProofs.

(** ** The target *)

Lemma webhook_ranges :
  webhookPrivateRanges =
  [(Did.quad 10 0 0 0, 8); (Did.quad 172 16 0 0, 12); (Did.quad 192 168 0 0, 16); (Did.quad 127 0 0 0, 8);
   (Did.V6 1, 128); (Did.V6 (N.shiftl 252 120), 7); (Did.quad 169 254 0 0, 16); (Did.V6 (N.shiftl 65152 112), 10);
   (Did.quad 100 64 0 0, 10); (Did.quad 198 18 0 0, 15); (Did.quad 0 0 0 0, 8)]%N.
Proof. vm_compute. reflexivity. Qed.
(** The filter on webhooks is that on did:web documents but for one block. *)
Lemma filters_agree ip :
  Did.isPrivateIP ip = webhookIsPrivateIP ip || Did.Contains (Did.quad 203 0 113 0, 24%N) ip.
Proof.
  unfold Did.isPrivateIP, webhookIsPrivateIP. rewrite webhook_ranges. unfold Did.privateRanges. cbn [existsb].
  generalize (Did.Contains (Did.quad 203 0 113 0, 24%N) ip), (Did.Contains (Did.quad 0 0 0 0, 8%N) ip).
  intros a b. repeat match goal with |- context [Did.Contains ?x ip] => generalize (Did.Contains x ip); intros ? end.
  generalize (Did.IsLoopback ip), (Did.IsLinkLocalUnicast ip), (Did.IsLinkLocalMulticast ip). intros.
  rewrite !orb_false_r, <-!orb_assoc. do 13 f_equal. apply orb_comm.
Qed.

Section Webhooks.
Context (LookupHost : string → result (list string)).

(** A webhook is registered only for a public target: an answer of 201 means that the
    URL is an http or https one whose host resolved, and that no address it resolved to
    is one the did:web client would refuse, but for those of the block 203.0.113.0/24. *)
Theorem webhook_target_public r w resp w' :
  handleRegisterWebhook LookupHost r w = (resp, w') → status_of resp = StatusCreated →
  ∃ req u ips, BridgeApi.body_object r ≫= decode_register = Some req ∧
    GoNet.ParseRequestURI (rw_URL req) = Some u ∧ (GoNet.u_Scheme u = "https" ∨ GoNet.u_Scheme u = "http") ∧
    LookupHost (GoNet.Hostname u) = Ok ips ∧
    ∀ t ip, t ∈ ips → GoNet.ParseIP t = Some ip →
      Did.isPrivateIP ip = Did.Contains (Did.quad 203 0 113 0, 24%N) ip.
Proof.
  intros Hrun Hok. destruct (registered _ _ _ _ _ Hrun Hok) as (req & _ & _ & Hreq & Hv & _). clear Hrun.
  unfold validateWebhookURL in Hv. destruct (GoNet.ParseRequestURI (rw_URL req)) as [u|] eqn:Hu; [|done].
  destruct (_ && _) eqn:Hs; [done|]. destruct (LookupHost (GoNet.Hostname u)) as [ips|] eqn:Hl; [|done].
  destruct (existsb _ ips) eqn:Hx; [done|].
  exists req, u, ips. split_and!; try done.
  - rewrite andb_false_iff, !negb_false_iff, !String.eqb_eq in Hs. done.
  - intros t ip Ht Hip. rewrite filters_agree.
    assert (webhookIsPrivateIP ip = false) as ->; [|done]. apply not_true_iff_false. intros Hp.
    apply not_true_iff_false in Hx. apply Hx. apply existsb_exists. exists t. rewrite Hip.
    split; [by apply list_elem_of_In|done].
Qed.

(** ** Delivery *)

(** Publishing queues the event for every subscription that matches its type. *)
Lemma publish_outbox ty j w :
  no_faults w →
  let w' := snd (Events.Publish BridgeApi.server_bus ty (Some j) w) in
  ∃ body, srv_outbox (w_state w') =
    srv_outbox (w_state w) ++ ((λ sub, (sub, body)) <$> Events.matching ty (srv_db (w_state w))).
Proof.
  destruct w as [clk nc rnd nr flt nf [d rev evs]]. intros Hnf w'.
  enough (wp (Events.Publish BridgeApi.server_bus ty (Some j)) (λ _ w', ∃ body,
    srv_outbox (w_state w') = evs ++ ((λ sub, (sub, body)) <$> Events.matching ty d))
    (mkWorld clk nc rnd nr flt nf (mkSrv d rev evs))) as H by exact H.
  apply Events.wp_Publish_sent; [exact Hnf|by eexists].
Qed.

Lemma deliver_loop_posts url_ok answer hooked n attempt backoff sub body sig url sg eid b :
  Events.Post url sg eid b ∈ Events.deliver_loop url_ok answer hooked n attempt backoff sub body sig →
  url = wh_URL sub ∧ b = body ∧ sg = "sha256=" +s sig.
Proof.
  revert attempt backoff. induction n as [|n IH]; intros attempt backoff; cbn [Events.deliver_loop].
  { destruct hooked; [intros [=]%list_elem_of_singleton|intros ?%not_elem_of_nil; done]. }
  rewrite elem_of_app. intros [Hin|Hin].
  { destruct (Nat.ltb 0 attempt); [by apply list_elem_of_singleton in Hin|by apply not_elem_of_nil in Hin]. }
  destruct (negb (url_ok (wh_URL sub))); [by apply not_elem_of_nil in Hin|].
  apply elem_of_cons in Hin as [[= -> -> _ ->]|Hin]; [done|].
  destruct (answer attempt) as [st|]; [|by eapply IH]. destruct (Events.is_2xx st); [|by eapply IH].
  destruct hooked; [by apply list_elem_of_singleton in Hin|by apply not_elem_of_nil in Hin].
Qed.
Lemma deliver_posts_first url_ok answer hooked sub body :
  url_ok (wh_URL sub) = true → ∃ sig eid, Events.Post (wh_URL sub) sig eid body ∈ Events.deliver url_ok answer hooked sub body.
Proof.
  intros Hu. unfold Events.deliver. cbn [Events.deliver_loop]. rewrite Hu. cbn [negb]. eexists _, _.
  change (Nat.ltb 0 0) with false. cbn [app]. left.
Qed.
(** The verifier that the README gives to receivers, section Webhook verification: it
    keys the MAC with the signing secret itself. *)
Definition verifyWebhook (signingSecret body sig : string) : bool :=
  sig =s "sha256=" +s Sha.hex (Sha.hmac Sha.Sum256 (bytes_of signingSecret) (bytes_of body)).
(** Event types survive the column they are stored in. *)
Lemma unmarshal_marshal_or_empty l : Forall Json.valid_utf8 l → unmarshalField (marshal_or_empty l) = l.
Proof.
  intros Hl. destruct (json_roundtrip l Hl) as (t & Hm & Hne & Hu). unfold marshal_or_empty, unmarshalField.
  rewrite Hm. apply String.eqb_neq in Hne. by rewrite Hne, Hu.
Qed.

Lemma posted_as_signed url_ok answer hooked sub body secret url sig eid b :
  Events.Post url sig eid b ∈ Events.deliver url_ok answer hooked sub body →
  wh_SecretHash sub = sha256WebhookSecret secret →
  url = wh_URL sub ∧ b = body ∧ sig = "sha256=" +s Events.computeHMAC body (sha256WebhookSecret secret) ∧
  (verifyWebhook secret b sig = true ↔
   Events.computeHMAC body secret = Events.computeHMAC body (sha256WebhookSecret secret)).
Proof.
  intros (-> & -> & ->)%deliver_loop_posts ->. split_and!; [done..|]. unfold verifyWebhook.
  rewrite String.eqb_eq. fold (Events.computeHMAC body secret).
  split; [intros ?%append_inj_r; done|by intros ->].
Qed.

(** C26: What a registrant is promised: after an answer of 201 for an unused identifier, each
    event of a type it asked for (or of any type, if it named none) is queued for its URL;
    the delivery posts it there if the URL parses, and every post is signed under the hash
    of the secret that the answer contained, which the store does not hold.  The key is the
    hash and not the secret, so the verifier that the README documents accepts a post only
    if the two keys give one MAC. *)
Theorem registered_webhook_is_called r w resp w' ty j url_ok answer hooked :
  handleRegisterWebhook LookupHost r w = (resp, w') → status_of resp = StatusCreated → no_faults w' →
  (∀ g, w_rand w (S (w_nrand w)) = Some g →
     webhook_subscriptions (srv_db (w_state w)) !! ("wh_" +s Sha.hex (g <$> seq 0 8)) = None) →
  (∀ req, BridgeApi.body_object r ≫= decode_register = Some req →
     Forall Json.valid_utf8 (rw_EventTypes req) ∧ (rw_EventTypes req = [] ∨ ty ∈ rw_EventTypes req)) →
  ∃ sub secret body, resp = JsonResp StatusCreated (registered_body sub secret) ∧
    (sub, body) ∈ srv_outbox (w_state (snd (Events.Publish BridgeApi.server_bus ty (Some j) w'))) ∧
    wh_SecretHash sub = sha256WebhookSecret secret ∧
    (url_ok (wh_URL sub) = true →
      ∃ sig eid, Events.Post (wh_URL sub) sig eid body ∈ Events.deliver url_ok answer hooked sub body) ∧
    ∀ url sig eid b, Events.Post url sig eid b ∈ Events.deliver url_ok answer hooked sub body →
      url = wh_URL sub ∧ b = body ∧ sig = "sha256=" +s Events.computeHMAC body (sha256WebhookSecret secret) ∧
      (verifyWebhook secret b sig = true ↔
       Events.computeHMAC body secret = Events.computeHMAC body (sha256WebhookSecret secret)).
Proof.
  intros Hrun Hok Hnf Hnew Hreq.
  destruct (registered _ _ _ _ _ Hrun Hok) as (req & f & g & Hd & _ & _ & Hg & _ & Hresp & Hdb).
  destruct (Hreq _ Hd) as [Hutf Hty]. set (types := match rw_EventTypes req with [] => ["*"] | l => l end) in *.
  assert (Forall Json.valid_utf8 types) as Htypes by (subst types; destruct (rw_EventTypes req); [by repeat constructor|done]).
  destruct (publish_outbox ty j w' Hnf) as [body Hout]. cbn zeta in Hresp, Hdb, Hout.
  eexists _, _, body. split; [exact Hresp|].
  split; [|split; [done|split; [apply deliver_posts_first|intros url sig eid b Hpost; by eapply posted_as_signed]]].
  rewrite Hout, elem_of_app, list_elem_of_fmap. right. eexists. split; [reflexivity|].
  unfold Events.matching. rewrite list_elem_of_filter, list_elem_of_fmap. split.
  - unfold webhook_matches. cbn [wh_EventTypes]. rewrite orb_true_iff. right. apply existsb_exists.
    subst types. destruct Hty as [->|Hty]; [exists "*"; split; [apply in_eq|done]|].
    exists ty. rewrite String.eqb_refl, orb_true_r. split; [|done].
    apply list_elem_of_In. destruct (rw_EventTypes req); [by apply not_elem_of_nil in Hty|done].
  - rewrite Hdb. cbn [webhook_subscriptions set_webhook_subscriptions wh_ID].
    eexists (mkWebhookRow _ _ _ _ _ _). split; [|apply elem_of_rows; split; [done|]; eexists; by apply lookup_upsert_new, Hnew].
    unfold scanWebhookSub.
    cbn [whr_ID whr_URL whr_EventTypes whr_SecretHash whr_TenantID whr_CreatedAt wh_EventTypes wh_ID wh_URL wh_SecretHash wh_CreatedAt].
    by rewrite unmarshal_marshal_or_empty.
Qed.

(** ** The test ping *)

(** The test of a webhook tests the subscribers of one event type: it answers that the
    ping was sent whenever the subscription exists, and queues it for exactly the
    subscriptions that ask for that type or for all, among which the one tested need not be. *)
Theorem test_ping_by_type r w resp w' :
  no_faults w → handleTestWebhook r w = (resp, w') → status_of resp = StatusOK →
  is_Some (Vc.time_value (w_clock w (w_nclock w))) →
  ∃ body, srv_outbox (w_state w') = srv_outbox (w_state w) ++ ((λ sub, (sub, body)) <$>
    filter (λ s, webhook_matches "webhook.ping" s = true)
      (scanWebhookSub <$> rows (λ _, true) (webhook_subscriptions (srv_db (w_state w))))).
Proof.
  intros Hnf Hrun Hok [at_ Ht].
  destruct w as [clk nc rnd nr flt nf [d rev evs]]. cbn [w_clock w_nclock] in Ht.
  refine (wp_run _ (λ resp w', status_of resp = StatusOK → ∃ body, srv_outbox (w_state w') = _) _ _ _ Hrun _ Hok).
  unfold handleTestWebhook, GetWebhookSubscription.
  apply wp_bind, wp_bind, wp_query; [intros ? Hx; by rewrite Hnf in Hx|intros _]. apply wp_ret.
  destruct (select _ _) as [row|e]; cbn [wrap_err fmap result_fmap]; [|by apply wp_ret].
  apply wp_bind, wp_time. rewrite Ht. cbn [mbind option_bind]. apply wp_bind, wp_intro. intros [] w'' Hpub. apply wp_ret.
  intros _. match type of Hpub with Events.Publish _ ?t (Some ?p) ?w0 = _ => destruct (publish_outbox t p w0) as [body Hb] end.
  - intros n. apply (Hnf n).
  - rewrite Hpub in Hb. by exists body.
Qed.
End Webhooks.

(** ** Instances *)

Definition one_host (h : string) : result (list string) :=
  if h =s "hooks.example" then Ok ["93.184.216.34"; "2606:2800:220:1::1"] else Err (ErrMsg "no such host").
Definition hook_request : Request :=
  mkRequest [] None [] None [("id", "wh_1")] ""
    (Some (JObj [("url", JStr "https://hooks.example:8443/in?x=1"); ("event_types", JArr [JStr "session.revoked"])])).
Definition hook_world (d : DB) : World Srv :=
  mkWorld (λ n, (1000 + Z.of_nat n) * second)%Z 0 (λ n, Some (λ i, byte_of_N (N.of_nat (i + 32 * n)))) 0
    (λ _, None) 0 (mkSrv d ∅ []).
Lemma hook_created :
  status_of (fst (handleRegisterWebhook one_host hook_request (hook_world (empty_db true)))) = StatusCreated.
Proof. vm_compute. reflexivity. Qed.
Lemma webhook_target_public_witness : ∃ req u ips,
  BridgeApi.body_object hook_request ≫= decode_register = Some req ∧ GoNet.ParseRequestURI (rw_URL req) = Some u ∧
  one_host (GoNet.Hostname u) = Ok ips.
Proof.
  destruct (webhook_target_public one_host hook_request (hook_world (empty_db true)) _ _ (surjective_pairing _) hook_created)
    as (req & u & ips & Hr & Hu & _ & Hi & _). by exists req, u, ips.
Defined.
Lemma registered_webhook_is_called_witness : ∃ sub body,
  wh_URL sub = "https://hooks.example:8443/in?x=1" ∧
  (sub, body) ∈ srv_outbox (w_state (snd (Events.Publish BridgeApi.server_bus "session.revoked" (Some JNull)
    (snd (handleRegisterWebhook one_host hook_request (hook_world (empty_db true))))))).
Proof.
  destruct (registered_webhook_is_called one_host hook_request (hook_world (empty_db true)) _ _ "session.revoked" JNull
    (λ _, true) (λ _, Some 200%Z) true (surjective_pairing _) hook_created) as (sub & secret & body & Hr & Hin & _).
  - intros n. vm_compute. reflexivity.
  - intros g _. apply lookup_empty.
  - intros req [= <-]. split; [repeat constructor|by right; left].
  - exists sub, body. split; [|done]. apply (f_equal (λ r, match r with JsonResp _ l => aget "url" l | _ => None end)) in Hr.
    vm_compute in Hr. by injection Hr.
Defined.

Definition quiet_db : DB :=
  set_webhook_subscriptions {[ "wh_1" := mkWebhookRow "wh_1" "https://hooks.example/" (marshal_or_empty ["session.revoked"]) "h" "" 0 ]}
    (empty_db true).
Lemma test_ping_by_type_witness : ∃ body : string,
  srv_outbox (w_state (snd (handleTestWebhook hook_request (hook_world quiet_db)))) = (λ sub, (sub, body)) <$> [].
Proof.
  destruct (test_ping_by_type hook_request (hook_world quiet_db) _ _ (λ _, eq_refl) (surjective_pairing _))
    as [body Hb]; [vm_compute; reflexivity|by eexists|]. exists body. rewrite Hb. vm_compute. reflexivity.
Defined.
End WebhooksProofs.
