(* ===== verification/Accounts.v ===== *)
(** * Accounts over HTTP (api/sessions.go, api/me.go, api/admin.go, api/privacy.go)

    A subject's own sessions, profile, export and disclosure record, and the
    administration of identities, clients and lockouts.  [randomHex], which the package
    does not define, is read as the function of that name in package oidc. *)

From S2P Require Import Prelude GoStd World Json JsonValue Http Consent StoreTypes Store StoreAuth Logic.
From S2P Require Import Events GoTime AuditLog Jwt Vc Provider Did Bridge BridgeApi Consents.
From stdpp Require Import sorting.
Import JsonValue Http Types Store StoreAuth Jwt Provider.

Module Accounts.

(** ** JSON forms *)

Definition identity_json (i : Identity) : option json :=
  c ← Vc.time_value (i_CreatedAt i); u ← Vc.time_value (i_UpdatedAt i);
  Some (JObj ([("did", JStr (i_DID i)); ("method", JStr (i_Method i))] ++ opt_field "signingKeyPath" (i_SigningKeyPath i) ++
              opt_field "encKeyPath" (i_EncKeyPath i) ++ [("role", JStr (i_Role i))] ++ opt_field "tenantId" (i_TenantID i) ++
              [("createdAt", c); ("updatedAt", u)])).
(** The secret's hash is not sent. *)
Definition client_json (c : OIDCClient) : option json :=
  at_ ← Vc.time_value (c_CreatedAt c);
  Some (JObj ([("clientId", JStr (c_ClientID c)); ("clientName", JStr (c_ClientName c));
               ("redirectUris", Vc.strs_json (c_RedirectURIs c));
               ("tokenEndpointAuthMethod", JStr (c_TokenEndpointAuthMethod c));
               ("grantTypes", Vc.strs_json (c_GrantTypes c)); ("responseTypes", Vc.strs_json (c_ResponseTypes c))] ++
              opt_field "scope" (c_Scope c) ++ opt_field "tenantId" (c_TenantID c) ++
              opt_field "backchannelLogoutUri" (c_BackchannelLogoutURI c) ++
              match c_PostLogoutRedirectURIs c with [] => [] | l => [("postLogoutRedirectUris", JArr (JStr <$> l))] end ++
              [("createdAt", at_)])).
Definition session_json (s : OIDCSession) : option json :=
  lu ← Consents.time_member "lastUsedAt" (s_LastUsedAt s); c ← Vc.time_value (s_CreatedAt s); e ← Vc.time_value (s_ExpiresAt s);
  Some (JObj ([("id", JStr (s_ID s)); ("subjectDid", JStr (s_SubjectDID s)); ("clientId", JStr (s_ClientID s));
               ("redirectUri", JStr (s_RedirectURI s)); ("scope", JStr (s_Scope s))] ++ opt_field "nonce" (s_Nonce s) ++
              opt_field "state" (s_State s) ++ opt_field "code" (s_Code s) ++ opt_field "codeChallenge" (s_CodeChallenge s) ++
              opt_field "codeChallengeMethod" (s_CodeChallengeMethod s) ++ opt_field "accessToken" (s_AccessToken s) ++
              opt_field "refreshTokenHash" (s_RefreshTokenHash s) ++ opt_field "userAgent" (s_UserAgent s) ++
              opt_field "ipAddress" (s_IPAddress s) ++ lu ++ [("createdAt", c); ("expiresAt", e)])).
Definition disclosure_json (d : PrivacyDisclosure) : option json :=
  at_ ← Vc.time_value (pd_DisclosedAt d);
  Some (JObj [("id", JStr (pd_ID d)); ("subject_did", JStr (pd_SubjectDID d)); ("schema_id", JStr (pd_SchemaID d));
              ("verifier_did", JStr (pd_VerifierDID d)); ("field_names", Vc.strs_json (pd_FieldNames d));
              ("disclosed_at", at_)]).
Definition link_value (l : ExternalProviderLink) : option json := Some (BridgeApi.link_json l).

(** The view of a session that its subject gets.  A nil pointer in a field of type
    [any] is not empty: it is sent as null. *)
Definition session_view (s : OIDCSession) : option json :=
  lu ← match s_LastUsedAt s with None => Some JNull | Some t => Vc.time_value t end;
  c ← Vc.time_value (s_CreatedAt s); e ← Vc.time_value (s_ExpiresAt s);
  Some (JObj ([("id", JStr (s_ID s)); ("client_id", JStr (s_ClientID s))] ++ opt_field "user_agent" (s_UserAgent s) ++
              opt_field "ip_address" (s_IPAddress s) ++ [("last_used_at", lu); ("created_at", c); ("expires_at", e)])).

(** What a store call that failed counts for: nothing. *)
Definition or_nil {A} (r : result (list A)) : list A := match r with Ok l => l | Err _ => [] end.

Section Handlers.
Context `{Ed25519} `{JsonCodec VerifiableCredential}.
Context (s : BridgeApi.Server).

Definition not_signed_in (e : error) : Response := BridgeApi.writeJSONError StatusUnauthorized "unauthorized" (error_string e).
Definition no_identity : Response := BridgeApi.writeJSONError StatusNotFound "not_found" "identity not found".

(** ** Sessions of the subject *)

(** The body and the X-Total-Count header. *)
Definition handleListMySessions (r : Request) : M Srv (Response * option string) :=
  subject ← BridgeApi.subject_of s r;
  match subject with
  | Err _ => mret (BridgeApi.unauthorized, None)
  | Ok subjectDID =>
      sessions ← ListSessionsBySubject subjectDID;
      match sessions with
      | Err _ => mret (internalError, None)
      | Ok l =>
          let '(limit, offset) := AuditLog.parsePagination r 100 500 in
          mret (JsonBody StatusOK (JArr <$> mapM session_view (Consents.page limit offset l)),
                Some (Itoa (Z.of_nat (length l))))
      end
  end.

Definition handleRevokeMySession (r : Request) : M Srv Response :=
  subject ← BridgeApi.subject_of s r;
  match subject with
  | Err _ => mret BridgeApi.unauthorized
  | Ok subjectDID =>
  let sessionID := PathValue r "id" in
  if sessionID =s "" then mret (HttpError StatusBadRequest "session id required") else
  sess ← GetSession sessionID;
  match sess with
  | Err _ => mret (HttpError StatusNotFound "session not found")
  | Ok sess =>
  if negb (s_SubjectDID sess =s subjectDID) then mret (HttpError StatusForbidden "forbidden") else
  deleted ← DeleteSession sessionID;
  match deleted with
  | Err _ => mret internalError
  | Ok _ =>
      _ ← Events.Publish BridgeApi.server_bus "session.revoked"
            (Some (JObj [("session_id", JStr sessionID); ("subject_did", JStr subjectDID)]));
      mret NoContent
  end end end.

(** ** The subject's profile and export *)

(** The goroutine's queries and the identity's run concurrently; none of them writes.
    They are taken here in one of their orders. *)
Definition handleGetMe (r : Request) : M Srv Response :=
  subject ← BridgeApi.subject_of s r;
  match subject with
  | Err e => mret (not_signed_in e)
  | Ok subjectDID =>
      ident ← GetIdentity subjectDID;
      sessions ← ListSessionsBySubject subjectDID;
      links ← ListExternalLinks subjectDID;
      creds ← ListCredentials subjectDID;
      grants ← ListGrants subjectDID;
      totp ← GetTOTPCredential subjectDID;
      passkeys ← ListWebAuthnCredentials subjectDID;
      duress ← GetDuressHash subjectDID;
      match ident with
      | Err _ => mret no_identity
      | Ok ident =>
          let count {A} (l : result (list A)) := JInt (Z.of_nat (length (or_nil l))) in
          let has {A} (x : result A) := JBool match x with Ok _ => true | Err _ => false end in
          mret (JsonBody StatusOK (
            c ← Vc.time_value (i_CreatedAt ident);
            Some (JObj [("created_at", c); ("did", JStr subjectDID); ("method", JStr (i_Method ident));
                        ("mfa", JObj [("duress", has duress); ("passkey", JBool (0 <? length (or_nil passkeys))%nat);
                                      ("totp", has totp)]);
                        ("role", JStr (i_Role ident));
                        ("summary", JObj [("active_sessions", count sessions); ("consent_grants", count grants);
                                          ("credentials", count creds); ("linked_providers", count links)])])))
      end
  end.

Definition handleExportMe (r : Request) : M Srv Response :=
  subject ← BridgeApi.subject_of s r;
  match subject with
  | Err e => mret (not_signed_in e)
  | Ok subjectDID =>
  ident ← GetIdentity subjectDID;
  match ident with
  | Err _ => mret no_identity
  | Ok ident =>
      creds ← ListCredentials subjectDID;
      grants ← ListGrants subjectDID;
      receipts ← ListReceipts subjectDID;
      links ← ListExternalLinks subjectDID;
      sessions ← ListSessionsBySubject subjectDID;
      disclosures ← ListDisclosures subjectDID "";
      now ← time_now;
      mret (JsonBody StatusOK (
        gs ← Consents.slice_json Consents.grant_json (or_nil grants);
        rs ← Consents.slice_json Consents.receipt_json (or_nil receipts);
        cs ← Consents.slice_json Vc.vc_json (or_nil creds);
        at_ ← Vc.time_value now; c ← Vc.time_value (i_CreatedAt ident);
        ls ← Consents.slice_json link_value (or_nil links);
        ds ← Consents.slice_json disclosure_json (or_nil disclosures);
        ss ← Consents.slice_json session_json (or_nil sessions);
        Some (JObj [("consent_grants", gs); ("consent_receipts", rs); ("credentials", cs); ("export_timestamp", at_);
                    ("identity", JObj [("created_at", c); ("did", JStr (i_DID ident));
                                       ("method", JStr (i_Method ident)); ("role", JStr (i_Role ident))]);
                    ("linked_providers", ls); ("privacy_disclosures", ds); ("sessions", ss);
                    ("subject_did", JStr subjectDID)])))
  end end.

(** ** Administration *)

(** The body and the X-Total-Count header. *)
Definition handleAdminListIdentities (r : Request) : M Srv (Response * option string) :=
  let '(limit, offset) := AuditLog.parsePagination r 100 500 in
  res ← ListIdentities limit offset;
  match res with
  | Err e => mret (HttpError StatusInternalServerError ("list identities: " +s error_string e), None)
  | Ok (ids, total) =>
      let role := Query r "role" in
      let shown := if role =s "" then ids else filter (λ i, i_Role i = role) ids in
      mret (JsonBody StatusOK (match ids with [] => Some JNull | _ => JArr <$> mapM identity_json shown end),
            Some (Itoa total))
  end.

Definition with_role (role : string) (now : Z) (i : Identity) : Identity :=
  mkIdentity (i_DID i) (i_Method i) (i_SigningKeyPath i) (i_EncKeyPath i) role (i_TenantID i) (i_CreatedAt i) now.
Definition update_role (f : string → string) (r : Request) : M Srv Response :=
  found ← GetIdentity (PathValue r "did");
  match found with
  | Err e => mret (HttpError StatusNotFound ("identity not found: " +s error_string e))
  | Ok i =>
      now ← time_now;
      let i := with_role (f (i_Role i)) now i in
      updated ← UpdateIdentity i;
      match updated with
      | Err e => mret (HttpError StatusInternalServerError ("update identity: " +s error_string e))
      | Ok _ => mret (JsonBody StatusOK (identity_json i))
      end
  end.
Definition handleAdminSuspendIdentity : Request → M Srv Response := update_role (λ _, "suspended").
Definition handleAdminUnsuspendIdentity : Request → M Srv Response :=
  update_role (λ role, if role =s "suspended" then "user" else role).

(** Deletions in a loop, their errors dropped. *)
Fixpoint delete_each {A} (del : A → M Srv (result unit)) (l : list A) : M Srv unit :=
  match l with
  | [] => mret tt
  | a :: l' => _ ← del a; delete_each del l'
  end.
Definition handleAdminDeleteIdentity (r : Request) : M Srv Response :=
  let did := PathValue r "did" in
  found ← GetIdentity did;
  match found with
  | Err e => mret (HttpError StatusNotFound ("identity not found: " +s error_string e))
  | Ok _ =>
      creds ← ListCredentials did;
      _ ← delete_each (λ c, DeleteCredential (cred_ID (vc_Credential c))) (or_nil creds);
      sessions ← ListSessionsBySubject did;
      _ ← delete_each (λ sess, DeleteSession (s_ID sess)) (or_nil sessions);
      now ← time_now;
      updated ← UpdateIdentity (mkIdentity did "" "" "" "deleted" "" GoTime.zero_time now);
      match updated with
      | Err e => mret (HttpError StatusInternalServerError ("update identity: " +s error_string e))
      | Ok _ => mret NoContent
      end
  end.

Definition handleAdminListClients : M Srv (Response * option string) :=
  clients ← ListClients;
  match clients with
  | Err e => mret (HttpError StatusInternalServerError ("list clients: " +s error_string e), None)
  | Ok l => mret (JsonBody StatusOK (Consents.slice_json client_json l), Some (Itoa (Z.of_nat (length l))))
  end.
Definition handleAdminDeleteClient (r : Request) : M Srv Response :=
  res ← DeleteClient (PathValue r "id");
  match res with
  | Err e => mret (HttpError StatusInternalServerError ("delete client: " +s error_string e))
  | Ok _ => mret NoContent
  end.
Definition handleAdminClearLockout (r : Request) : M Srv Response :=
  res ← ClearAuthFailures (PathValue r "subject");
  match res with
  | Err e => mret (HttpError StatusInternalServerError ("clear lockout: " +s error_string e))
  | Ok _ => mret NoContent
  end.
Definition handleAdminStats : M Srv Response :=
  res ← ListIdentities 0 0;
  match res with
  | Err e => mret (HttpError StatusInternalServerError ("stats: " +s error_string e))
  | Ok (_, identityTotal) =>
      clients ← ListClients;
      mret (JsonResp StatusOK [("client_count", JInt (Z.of_nat (length (or_nil clients))));
                               ("identity_count", JInt identityTotal)])
  end.

(** ** The privacy budget *)

Record schemaStats := mkSchemaStats {
  st_TotalShares : Z; st_LastSharedAt : option Z; st_VerifierCounts : gmap string Z }.
(** The statistics and, per schema, the set of verifiers. *)
Definition Stats : Type := gmap string schemaStats * gmap string (gset string).
Definition record_share (acc : Stats) (d : PrivacyDisclosure) : Stats :=
  let '(statsMap, verifierSets) := acc in
  let st := default (mkSchemaStats 0 None ∅) (statsMap !! pd_SchemaID d) in
  let seen := default ∅ (verifierSets !! pd_SchemaID d) in
  let t := pd_DisclosedAt d in
  let last := match st_LastSharedAt st with
              | Some l => if (l <? t)%Z then Some t else Some l
              | None => Some t
              end in
  (<[pd_SchemaID d := mkSchemaStats (st_TotalShares st + 1) last
       (<[pd_VerifierDID d := (default 0 (st_VerifierCounts st !! pd_VerifierDID d) + 1)%Z]> (st_VerifierCounts st))]> statsMap,
   <[pd_SchemaID d := {[pd_VerifierDID d]} ∪ seen]> verifierSets).
Definition schema_stats (disclosures : list PrivacyDisclosure) : Stats := foldl record_share (∅, ∅) disclosures.
Definition unique_verifiers (st : Stats) (sid : string) : nat := base.size (default ∅ (snd st !! sid)).

Definition stats_json (st : Stats) (kv : string * schemaStats) : option json :=
  let '(sid, x) := kv in
  last ← Consents.time_member "last_shared_at" (st_LastSharedAt x);
  Some (JObj ([("schema_id", JStr sid); ("total_shares", JInt (st_TotalShares x));
               ("unique_verifiers", JInt (Z.of_nat (unique_verifiers st sid)))] ++ last ++
              [("verifier_counts", JObj (@merge_sort _ Vc.key_le Vc.key_le_dec ((λ kv, (kv.1, JInt kv.2)) <$> map_to_list (st_VerifierCounts x))))])).
Definition handleGetPrivacyBudget (r : Request) : M Srv Response :=
  subject ← BridgeApi.subject_of s r;
  match subject with
  | Err e => mret (not_signed_in e)
  | Ok subjectDID =>
      disclosures ← ListDisclosures subjectDID "";
      match disclosures with
      | Err e => mret (BridgeApi.writeJSONError StatusInternalServerError "internal_error" (error_string e))
      | Ok l =>
          let st := schema_stats l in
          mret (JsonBody StatusOK (
            out ← mapM (stats_json st) (map_to_list (fst st));
            Some (JObj [("schema_budgets", JArr out); ("subject_did", JStr subjectDID);
                        ("total_shares", JInt (Z.of_nat (length l)))])))
      end
  end.

Definition extractBearer (r : Request) : string :=
  let auth := Header r "Authorization" in
  if (7 <? length (bytes_of auth))%nat && HasPrefix auth "Bearer "
  then str_of (drop 7 (bytes_of auth)) else "".
Definition handleRecordDisclosure (r : Request) : M Srv Response :=
  subject ← BridgeApi.subject_of s r;
  let authed := match subject with
                | Ok subjectDID => Some subjectDID
                | Err _ => if (BridgeApi.sv_apiKey s =s "") || negb (extractBearer r =s BridgeApi.sv_apiKey s)
                           then None else Some ""
                end in
  match authed with
  | None => mret (BridgeApi.writeJSONError StatusUnauthorized "unauthorized" "bearer token or api_key required")
  | Some subjectDID =>
  match (l ← BridgeApi.body_object r; su ← str_field "subject_did" l; sc ← str_field "schema_id" l;
         ve ← str_field "verifier_did" l; fs ← strs_field "field_names" l; Some (su, sc, ve, fs)) with
  | None => mret (BridgeApi.writeJSONError StatusBadRequest "invalid_request" "invalid JSON body")
  | Some (bodySubject, schemaID, verifierDID, fieldNames) =>
  let subjectDID := if subjectDID =s "" then bodySubject else subjectDID in
  if (subjectDID =s "") || (schemaID =s "") || (verifierDID =s "")
  then mret (BridgeApi.writeJSONError StatusBadRequest "invalid_request" "subject_did, schema_id, and verifier_did required") else
  id ← randomHex 16;
  now ← time_now;
  let d := mkPrivacyDisclosure (match id with Ok i => i | Err _ => "" end) subjectDID schemaID verifierDID fieldNames now in
  saved ← RecordDisclosure d;
  match saved with
  | Err e => mret (BridgeApi.writeJSONError StatusInternalServerError "internal_error" (error_string e))
  | Ok _ => mret (JsonBody StatusCreated (disclosure_json d))
  end end end.
End Handlers.
End Accounts.
