(* ===== verification/AccountsProofs.v ===== *)
(** * Properties of the account endpoints *)

From S2P Require Import Prelude GoStd World Json JsonValue Http Consent StoreTypes Store StoreAuth Logic StoreInv.
From S2P Require Import Events GoTime AuditLog Jwt Vc Provider ProviderProofs Did Bridge BridgeApi BridgeApiProofs Consents Accounts.
Import JsonValue Http Types Store StoreAuth StoreInv Jwt Provider ProviderProofs Accounts.

Module AccountsProofs.

(** ** Handlers that never look at the identities *)

(** The world with another table of identities. *)
Definition map_identities (f : gmap string Identity → gmap string Identity) (w : World Srv) : World Srv :=
  mkWorld (w_clock w) (w_nclock w) (w_rand w) (w_nrand w) (w_fault w) (w_nfault w)
    (mkSrv (set_identities (f (identities (srv_db (w_state w)))) (srv_db (w_state w)))
       (srv_revoked (w_state w)) (srv_outbox (w_state w))).
(** The computation neither reads nor writes them. *)
Definition blind {A} (m : M Srv A) : Prop :=
  ∀ w f, m (map_identities f w) = (fst (m w), map_identities f (snd (m w))).

Lemma blind_ret {A} (a : A) : blind (mret a).
Proof. by intros w f. Qed.
Lemma blind_bind {A B} (m : M Srv A) (k : A → M Srv B) : blind m → (∀ a, blind (k a)) → blind (m ≫= k).
Proof.
  intros Hm Hk w f. unfold mbind, M_bind. rewrite (Hm w f). destruct (m w) as [a w']. cbn [fst snd]. apply Hk.
Qed.
Lemma blind_time : blind time_now.
Proof. by intros w f. Qed.
Lemma blind_rand n : blind (rand_read n).
Proof. by intros w f. Qed.
Lemma blind_on_db {A} (g : DB → result A * DB) :
  (∀ d i, g (set_identities i d) = (fst (g d), set_identities i (snd (g d))) ∧ identities (snd (g d)) = identities d) →
  blind (on_db g).
Proof.
  intros Hg [clk nc rnd nr flt nf [d rev evs]] f. unfold on_db, db_call, map_identities. cbn.
  destruct (flt nf); [done|]. destruct (Hg d (f (identities d))) as [E1 E2]. rewrite E1.
  destruct (g d) as [res d']. cbn in *. by rewrite E2.
Qed.
Lemma blind_query {A} (g : DB → result A) : (∀ d i, g (set_identities i d) = g d) → blind (query g).
Proof. intros Hg. apply blind_on_db. intros d i. cbn. by rewrite Hg. Qed.
Lemma blind_exec (g : DB → DB) :
  (∀ d i, g (set_identities i d) = set_identities i (g d) ∧ identities (g d) = identities d) → blind (exec g).
Proof. intros Hg. apply blind_on_db. intros d i. cbn. destruct (Hg d i) as [-> ->]. done. Qed.
Lemma blind_exec_insert {K V} `{Countable K} (get : DB → gmap K V) set k v :
  (∀ d i, get (set_identities i d) = get d) →
  (∀ m d i, set m (set_identities i d) = set_identities i (set m d) ∧ identities (set m d) = identities d) →
  blind (exec_insert get set k v).
Proof.
  intros Hget Hset. apply blind_on_db. intros d i. rewrite Hget. destruct (insert_new k v (get d)) as [m|e]; [|done].
  cbn. destruct (Hset m d i) as [-> ->]. done.
Qed.
Create HintDb blind discriminated.
#[export] Hint Constants Opaque : blind.
#[export] Hint Resolve blind_ret blind_time blind_rand : blind.

Ltac blind_step :=
  match goal with
  | |- blind (_ ≫= _) => apply blind_bind; [|intros ?]
  | |- blind (if ?b then _ else _) => destruct b
  | |- blind (match ?x with _ => _ end) => destruct x
  | |- blind (query _) => apply blind_query; by intros [] ?
  | |- blind (exec _) => apply blind_exec; by intros [] ?
  | |- blind (exec_insert _ _ _ _) => apply blind_exec_insert; by intros; repeat match goal with d : DB |- _ => destruct d end
  | |- blind _ => solve [auto 1 with blind nocore]
  end.
Ltac blind_tac := repeat blind_step.

Section Tokens.
Context `{Ed25519} (p : Provider).
Lemma blind_Verify token pub : blind (Jwt.Verify token pub).
Proof. unfold Jwt.Verify. by blind_tac. Qed.
Lemma blind_randomHex n : blind (randomHex n).
Proof. unfold randomHex. by blind_tac. Qed.
Lemma blind_GetClient c : blind (GetClient c).
Proof. unfold GetClient. by blind_tac. Qed.
#[local] Hint Resolve blind_Verify blind_randomHex blind_GetClient : blind.
Lemma blind_authorize_with r q : blind (authorize_with r q).
Proof. unfold authorize_with, randomID, SaveSession. by blind_tac. Qed.
Lemma blind_validateClientAuth r c : blind (validateClientAuth r c).
Proof. unfold validateClientAuth, GetClient. by blind_tac. Qed.
Lemma blind_access_token i s a t k kid : blind (IssueAccessToken (St := Srv) i s a t k kid).
Proof. unfold IssueAccessToken. by blind_tac. Qed.
Lemma blind_id_token i s a n t k kid l : blind (IssueIDToken (St := Srv) i s a n t k kid l).
Proof. unfold IssueIDToken. by blind_tac. Qed.
#[local] Hint Resolve blind_authorize_with blind_validateClientAuth blind_access_token blind_id_token : blind.
Lemma blind_AuthorizeHandler r : blind (AuthorizeHandler r).
Proof. unfold AuthorizeHandler, resolvePARRequest, GetPARRequest, DeletePARRequest. by blind_tac. Qed.
Lemma blind_new_refresh h s c sc : blind (new_refresh h s c sc).
Proof. unfold new_refresh. by blind_tac. Qed.
Lemma blind_load {A} (e : A → Z) x : blind (load_unexpired e x).
Proof. unfold load_unexpired. by blind_tac. Qed.
Lemma blind_generateRefreshToken : blind generateRefreshToken.
Proof. unfold generateRefreshToken. by blind_tac. Qed.
#[local] Hint Resolve blind_new_refresh blind_load blind_generateRefreshToken : blind.
Lemma blind_code_exchange r : blind (handleAuthCodeExchange p r).
Proof. unfold handleAuthCodeExchange, GetSessionByCode, DeleteSession, SaveRefreshToken. by blind_tac. Qed.
Lemma blind_refresh r : blind (handleRefreshTokenGrant p r).
Proof. unfold handleRefreshTokenGrant, GetRefreshToken, SaveRefreshToken, DeleteRefreshToken. by blind_tac. Qed.
Lemma blind_userinfo r : blind (UserinfoHandler p r).
Proof. unfold UserinfoHandler. by blind_tac. Qed.

(** The endpoints that let a subject in and keep it in. *)
Definition token_endpoints : list (Request → M Srv Response) :=
  [AuthorizeHandler; handleAuthCodeExchange p; handleRefreshTokenGrant p; UserinfoHandler p].
Lemma token_endpoints_blind h r : h ∈ token_endpoints → blind (h r).
Proof.
  unfold token_endpoints. rewrite !elem_of_cons. intros [->|[->|[->|[->|[]%not_elem_of_nil]]]];
    auto using blind_AuthorizeHandler, blind_code_exchange, blind_refresh, blind_userinfo.
Qed.
End Tokens.

(** ** Suspension *)

Lemma update_role_ok f r w resp w' :
  update_role f r w = (resp, w') → status_of resp = StatusOK →
  ∃ i now, identities (srv_db (w_state w)) !! PathValue r "did" = Some i ∧
    srv_db (w_state w') = set_identities (alter (λ old,
      mkIdentity (i_DID old) (i_Method old) (i_SigningKeyPath old) (i_EncKeyPath old) (f (i_Role i)) (i_TenantID i)
        (i_CreatedAt old) now) (i_DID i) (identities (srv_db (w_state w)))) (srv_db (w_state w)).
Proof.
  destruct w as [clk nc rnd nr flt nf [d rev evs]]. intros Hrun.
  refine (wp_run _ (λ resp w', status_of resp = StatusOK → _) _ _ _ Hrun _).
  unfold update_role, GetIdentity, UpdateIdentity. repeat (wp_step; try done). intros _.
  exists a, (clk nc). split; [by apply select_Ok|]. done.
Qed.

(** Suspending an identity does not keep it out: a suspension that was answered with
    success stores the role, and the endpoints that authorize, exchange codes, refresh
    tokens and answer for a token give every request the answer they would have given
    with the identities as they were. *)
Theorem suspension_not_enforced `{Ed25519} p r w resp w' h r' :
  srv_wf (w_state w) → handleAdminSuspendIdentity r w = (resp, w') → status_of resp = StatusOK →
  h ∈ token_endpoints p →
  (∃ i, identities (srv_db (w_state w')) !! PathValue r "did" = Some i ∧ i_Role i = "suspended") ∧
  fst (h r' w') = fst (h r' (map_identities (λ _, identities (srv_db (w_state w))) w')).
Proof.
  intros Hwf Hrun Hok Hh. split.
  - destruct (update_role_ok _ _ _ _ _ Hrun Hok) as (i & now & Hi & ->). cbn [identities set_identities].
    rewrite <-(wf_identities _ Hwf _ _ Hi). rewrite lookup_alter_eq, (wf_identities _ Hwf _ _ Hi), Hi. by eexists.
  - by rewrite (token_endpoints_blind p h r' Hh w').
Qed.

(** Lifting a suspension makes a user of anyone: whatever role an identity had before
    it was suspended, it is a plain user afterwards. *)
Theorem unsuspended_is_user r w resp w1 w2 resp2 :
  srv_wf (w_state w) → handleAdminSuspendIdentity r w = (resp, w1) → status_of resp = StatusOK →
  handleAdminUnsuspendIdentity r w1 = (resp2, w2) → status_of resp2 = StatusOK →
  ∃ i i', identities (srv_db (w_state w)) !! PathValue r "did" = Some i ∧
    identities (srv_db (w_state w2)) !! PathValue r "did" = Some i' ∧
    i_Role i' = "user" ∧ i_Method i' = i_Method i ∧ i_TenantID i' = i_TenantID i ∧ i_CreatedAt i' = i_CreatedAt i.
Proof.
  intros Hwf Hrun1 Hok1 Hrun2 Hok2.
  destruct (update_role_ok _ _ _ _ _ Hrun1 Hok1) as (i & t1 & Hi & E1).
  destruct (update_role_ok _ _ _ _ _ Hrun2 Hok2) as (i1 & t2 & Hi1 & E2).
  pose proof (wf_identities _ Hwf _ _ Hi) as Hid.
  rewrite E1 in Hi1, E2. cbn [identities set_identities] in Hi1, E2. rewrite Hid, lookup_alter_eq, Hi in Hi1.
  injection Hi1 as <-. rewrite E2. cbn [identities set_identities i_DID i_Role i_TenantID].
  exists i. eexists. split; [done|]. rewrite Hid, !lookup_alter_eq, Hi. cbn. done.
Qed.

(** ** A subject's sessions *)

Section Sessions.
Context `{Ed25519} (s : BridgeApi.Server).

(** A subject revokes its own sessions and no others: whatever the answer, no row but
    the named one changes, and that one only disappears, and only when the bearer of
    the request is its subject; an answer of 204 means that it is gone. *)
Theorem revoke_only_own_session r w resp w' :
  handleRevokeMySession s r w = (resp, w') →
  let id := PathValue r "id" in
  let before := oidc_sessions (srv_db (w_state w)) in
  let after := oidc_sessions (srv_db (w_state w')) in
  (after = before ∨
   ∃ sess, before !! id = Some sess ∧ fst (BridgeApi.subject_of s r w) = Ok (s_SubjectDID sess) ∧ after = delete id before) ∧
  (resp = NoContent → after !! id = None).
Proof.
  intros Hrun. refine (wp_run _ (λ resp w',
    (oidc_sessions (srv_db (w_state w')) = oidc_sessions (srv_db (w_state w)) ∨
     ∃ sess, oidc_sessions (srv_db (w_state w)) !! PathValue r "id" = Some sess ∧
       fst (BridgeApi.subject_of s r w) = Ok (s_SubjectDID sess) ∧
       oidc_sessions (srv_db (w_state w')) = delete (PathValue r "id") (oidc_sessions (srv_db (w_state w)))) ∧
    (resp = NoContent → oidc_sessions (srv_db (w_state w')) !! PathValue r "id" = None)) _ _ _ Hrun _).
  unfold handleRevokeMySession. apply wp_bind, wp_intro. intros subject w1 Hsub.
  pose proof (BridgeApiProofs.subject_of_state s r w) as Hst. rewrite Hsub in Hst |- *. cbn [fst snd] in Hst |- *.
  rewrite <-Hst. clear Hst Hsub Hrun w w'. set (id := PathValue r "id").
  destruct w1 as [clk nc rnd nr flt nf [d rev evs]]. cbn [w_state srv_db].
  destruct subject as [subj|e]; [|apply wp_ret; split; [by left|done]].
  unfold GetSession, DeleteSession. repeat (wp_step; try (cbv beta; split; [by left|done])).
  apply wp_intro. intros [] w'' Hpub.
  match type of Hpub with Events.Publish _ ?t ?pl ?w0 = _ => destruct (Events.Publish_plain t pl w0) as [Hlog _] end. change Events.NewBus with BridgeApi.server_bus in Hlog.
  rewrite Hpub in Hlog. cbn [snd w_state srv_db] in Hlog. apply wp_ret. rewrite Hlog. cbn.
  split; [right|intros _; apply lookup_delete_eq].
  exists a. split; [by apply select_Ok|]. apply negb_false_iff, String.eqb_eq in Heqb0. by rewrite Heqb0.
Qed.
End Sessions.

(** ** Deleting an identity *)

(** Statements run in a loop, when none fails. *)
Lemma wp_delete_each {A} (g : A → DB → DB) (l : list A) clk nc rnd nr flt nf d rev evs Q :
  (∀ n, flt n = None) →
  Q tt (mkWorld clk nc rnd nr flt (length l + nf) (mkSrv (foldl (λ d a, g a d) d l) rev evs)) →
  wp (delete_each (λ a, exec (g a)) l) Q (mkWorld clk nc rnd nr flt nf (mkSrv d rev evs)).
Proof.
  intros Hnf. revert nf d. induction l as [|a l IH]; intros nf d HQ; cbn [delete_each]; [by apply wp_ret|].
  apply wp_bind, wp_exec; [intros ? Hx; by rewrite Hnf in Hx|intros _]. apply IH.
  cbn [length foldl] in HQ. by rewrite Nat.add_succ_r.
Qed.
Lemma foldl_delete {A V} (get : DB → gmap string V) (set : gmap string V → DB → DB) (key : A → string) (l : list A) d :
  (∀ m d, get (set m d) = m) → (∀ m m' d, set m (set m' d) = set m d) → (∀ d, set (get d) d = d) →
  foldl (λ d a, set (delete (key a) (get d)) d) d l =
    set (filter (λ kv, kv.1 ∉ (key <$> l)) (get d)) d.
Proof.
  intros Hg Hs Hid. revert d. induction l as [|a l IH]; intros d; cbn [foldl fmap list_fmap].
  - rewrite map_filter_id; [by rewrite Hid|]. intros k v _. cbn. apply not_elem_of_nil.
  - rewrite IH, Hg, Hs. f_equal. apply map_eq. intros k. apply option_eq. intros v.
    rewrite !map_lookup_filter_Some, lookup_delete_Some. cbn [fst]. rewrite elem_of_cons. intuition congruence.
Qed.

(** Removing the keys of the selected rows removes the selected rows. *)
Lemma filter_rows {V} (key : V → string) (P : V → bool) (Q : string * V → Prop) `{!∀ kv, Decision (Q kv)} ord (m : gmap string V) :
  keyed key m → (∀ kv, Q kv ↔ P kv.2 = false) →
  filter (λ kv, kv.1 ∉ (key <$> order_by_desc ord (rows P m))) m = filter Q m.
Proof.
  intros Hk HQ. apply map_filter_ext. intros k v Hm. cbn [fst snd]. rewrite HQ. cbn [snd].
  rewrite list_elem_of_fmap. split.
  - intros Hn. apply not_true_iff_false. intros HP. apply Hn. exists v. split; [by rewrite (Hk _ _ Hm)|].
    unfold order_by_desc. rewrite (elem_of_Permutation_proper _ _ _ (order_by_perm _ _)). apply elem_of_rows. eauto.
  - intros HP (v' & -> & Hv'). unfold order_by_desc in Hv'.
    rewrite (elem_of_Permutation_proper _ _ _ (order_by_perm _ _)) in Hv'.
    apply elem_of_rows in Hv' as [HP' [k' Hk']]. assert (k' = key v') as -> by (symmetry; by apply Hk). congruence.
Qed.

Section Deletion.
Context `{JsonCodec VerifiableCredential}.

(** The credential column of a subject's rows holds what was saved there. *)
Definition credentials_readable (did : string) (d : DB) : Prop :=
  ∀ k row, credentials d !! k = Some row → crd_subject_did row = did →
    ∃ v, json_unmarshal (crd_credential row) = Ok v ∧ cred_ID (vc_Credential v) = k.
Lemma scan_readable l :
  (∀ row, row ∈ l → ∃ v, json_unmarshal (crd_credential row) = Ok v ∧ cred_ID (vc_Credential v) = crd_id row) →
  ∃ vs, scanCredentials l = Ok vs ∧ (λ v, cred_ID (vc_Credential v)) <$> vs = crd_id <$> l.
Proof.
  induction l as [|row l IH]; intros Hl; [by exists []|]. cbn [scanCredentials].
  destruct (Hl row) as (v & -> & Hv); [apply elem_of_cons; by left|].
  destruct IH as (vs & -> & Hvs); [intros; apply Hl; apply elem_of_cons; by right|].
  exists (v :: vs). split; [done|]. cbn. by rewrite Hv, Hvs.
Qed.

(** Deleting an identity, when no statement fails and the subject's credentials can be
    read: the answer is 204, exactly the subject's credentials and unexpired sessions are
    removed, and the identity stays with the role "deleted".  Its refresh tokens, external
    links, password, second factors and consent grants stay as they were, and no endpoint
    consults the role. *)
Theorem deleted_identity_keeps_links r w i :
  srv_wf (w_state w) → no_faults w → let did := PathValue r "did" in
  identities (srv_db (w_state w)) !! did = Some i → credentials_readable did (srv_db (w_state w)) →
  let '(resp, w') := handleAdminDeleteIdentity r w in
  let d := srv_db (w_state w) in let d' := srv_db (w_state w') in
  resp = NoContent ∧
  credentials d' = filter (λ kv, crd_subject_did kv.2 ≠ did) (credentials d) ∧
  oidc_sessions d' = filter (λ kv, ¬ (s_SubjectDID kv.2 = did ∧ (w_clock w (w_nclock w) < s_ExpiresAt kv.2)%Z)) (oidc_sessions d) ∧
  i_Role <$> identities d' !! did = Some "deleted" ∧
  refresh_tokens d' = refresh_tokens d ∧ external_provider_links d' = external_provider_links d ∧
  passwords d' = passwords d ∧ totp_credentials d' = totp_credentials d ∧
  webauthn_credentials d' = webauthn_credentials d ∧ consent_grants d' = consent_grants d.
Proof.
  destruct w as [clk nc rnd nr flt nf [d rev evs]]. cbn [w_state srv_db w_clock w_nclock].
  intros Hwf Hnf Hi Hread. unfold no_faults in Hnf. cbn in Hnf. set (did := PathValue r "did") in *.
  destruct (handleAdminDeleteIdentity r _) as [resp w'] eqn:Hrun.
  set (crows := order_by_desc crd_valid_from (rows (λ row, crd_subject_did row =s did) (credentials d))).
  destruct (scan_readable crows) as (vs & Hscan & Hvs).
  { intros row Hrow. unfold crows, order_by_desc in Hrow.
    rewrite (elem_of_Permutation_proper _ _ _ (order_by_perm _ _)) in Hrow.
    apply elem_of_rows in Hrow as [Hs%String.eqb_eq [k Hk]].
    destruct (Hread _ _ Hk Hs) as (v & Hv & Hid). exists v. split; [done|]. by rewrite Hid, (wf_credentials _ Hwf _ _ Hk). }
  set (srows := order_by_desc s_CreatedAt (rows (λ s, (s_SubjectDID s =s did) && (clk nc <? s_ExpiresAt s)%Z) (oidc_sessions d))).
  assert (resp = NoContent ∧ srv_db (w_state w') =
    set_identities (alter (λ old, mkIdentity (i_DID old) (i_Method old) (i_SigningKeyPath old) (i_EncKeyPath old)
       "deleted" "" (i_CreatedAt old) (clk (S nc))) did (identities d))
      (set_oidc_sessions (filter (λ kv, kv.1 ∉ (s_ID <$> srows)) (oidc_sessions d))
      (set_credentials (filter (λ kv, kv.1 ∉ (crd_id <$> crows)) (credentials d)) d))) as [-> ->].
  { refine (wp_run _ (λ resp w', resp = NoContent ∧ srv_db (w_state w') = _) _ _ _ Hrun _).
    unfold handleAdminDeleteIdentity, GetIdentity, ListCredentials, ListSessionsBySubject, UpdateIdentity.
    apply wp_bind, wp_bind, wp_query; [intros ? Hx; by rewrite Hnf in Hx|intros _]. apply wp_ret.
    fold did. unfold select. rewrite Hi. cbn [of_option wrap_err].
    apply wp_bind, wp_bind, wp_query; [intros ? Hx; by rewrite Hnf in Hx|intros _]. apply wp_ret.
    cbn [mbind result_bind]. fold crows. rewrite Hscan. cbn [or_nil].
    apply wp_bind, wp_delete_each; [done|].
    rewrite (foldl_delete credentials set_credentials); [|done..|by intros []]. rewrite Hvs.
    apply wp_bind, wp_bind, wp_time, wp_query; [intros ? Hx; by rewrite Hnf in Hx|intros _]. cbn [or_nil].
    apply wp_bind, wp_delete_each; [done|].
    rewrite (foldl_delete oidc_sessions set_oidc_sessions); [|done..|by intros []].
    apply wp_bind, wp_time, wp_bind, wp_exec; [intros ? Hx; by rewrite Hnf in Hx|intros _]. by apply wp_ret. }
  cbn [credentials oidc_sessions identities refresh_tokens external_provider_links passwords totp_credentials
    webauthn_credentials consent_grants set_identities set_oidc_sessions set_credentials].
  split_and!; try done.
  - apply filter_rows; [apply Hwf|]. intros [k row]. cbn. by rewrite String.eqb_neq.
  - apply filter_rows; [apply Hwf|]. intros [k sess]. cbn. rewrite andb_false_iff, String.eqb_neq, Z.ltb_ge.
    split; [|by intros [?|?] [? ?]; [|lia]]. intros Hn.
    destruct (decide (s_SubjectDID sess = did)); [right; apply Z.le_ngt; tauto|by left].
  - by rewrite lookup_alter_eq, Hi.
Qed.
End Deletion.

(** ** The privacy budget *)

(** The specification: what the disclosures of one schema are, and what is counted of them. *)
Definition of_schema (sid : string) (l : list PrivacyDisclosure) : list PrivacyDisclosure :=
  filter (λ d, pd_SchemaID d = sid) l.
Definition shared_with (v : string) (l : list PrivacyDisclosure) : nat :=
  length (filter (λ d, pd_VerifierDID d = v) l).
Definition latest (l : list PrivacyDisclosure) : option Z :=
  match l with [] => None | d :: l' => Some (foldl (λ t d, Z.max t (pd_DisclosedAt d)) (pd_DisclosedAt d) l') end.
Definition stats_ok (l : list PrivacyDisclosure) (st : Stats) : Prop :=
  ∀ sid, let ds := of_schema sid l in
    match fst st !! sid with
    | None => ds = []
    | Some x => ds ≠ [] ∧ st_TotalShares x = Z.of_nat (length ds) ∧ st_LastSharedAt x = latest ds ∧
        ∀ v, st_VerifierCounts x !! v = if decide (shared_with v ds = 0) then None else Some (Z.of_nat (shared_with v ds))
    end ∧
    default ∅ (snd st !! sid) = (list_to_set (pd_VerifierDID <$> ds) : gset string).

Lemma latest_app l d : latest (l ++ [d]) = match latest l with
                                            | Some t => if (t <? pd_DisclosedAt d)%Z then Some (pd_DisclosedAt d) else Some t
                                            | None => Some (pd_DisclosedAt d)
                                            end.
Proof.
  destruct l as [|d0 l]; [done|]. cbn [latest app]. rewrite foldl_app. cbn [foldl].
  destruct (Z.ltb_spec (foldl (λ t d, Z.max t (pd_DisclosedAt d)) (pd_DisclosedAt d0) l) (pd_DisclosedAt d)); f_equal; lia.
Qed.
Lemma of_schema_app sid l d :
  of_schema sid (l ++ [d]) = of_schema sid l ++ if decide (pd_SchemaID d = sid) then [d] else [].
Proof. unfold of_schema. by rewrite filter_app. Qed.
Lemma shared_with_app v l d :
  shared_with v (l ++ [d]) = (shared_with v l + if decide (pd_VerifierDID d = v) then 1 else 0)%nat.
Proof. unfold shared_with. rewrite filter_app, length_app. f_equal. cbn. by destruct (decide _). Qed.

Lemma record_share_ok l st d : stats_ok l st → stats_ok (l ++ [d]) (record_share st d).
Proof.
  destruct st as [stats sets]. intros Hst sid. specialize (Hst sid). cbn zeta in *. rewrite of_schema_app.
  unfold record_share. cbn [fst snd] in *. destruct (decide (pd_SchemaID d = sid)) as [<-|Hne].
  - rewrite !lookup_insert_eq. destruct Hst as [Hst ->]. split.
    + set (ds := of_schema (pd_SchemaID d) l) in *. split; [by intros []%app_nil|].
      destruct (stats !! pd_SchemaID d) as [x|]; cbn.
      * destruct Hst as (_ & -> & -> & Hv). split; [rewrite length_app; cbn; lia|]. split; [by rewrite latest_app; case_match|].
        intros v. rewrite shared_with_app. destruct (decide (pd_VerifierDID d = v)) as [->|Hd].
        -- rewrite lookup_insert_eq, Hv. rewrite (decide_False (P := (_ + 1 = 0)%nat)) by lia. f_equal.
           case_decide; cbn; unfold id; lia.
        -- rewrite lookup_insert_ne, Hv by done. by rewrite Nat.add_0_r.
      * subst ds. rewrite Hst. split; [done|]. split; [done|]. intros v. cbn.
        destruct (decide (pd_VerifierDID d = v)) as [->|Hd]; [by rewrite lookup_insert_eq|].
        rewrite lookup_insert_ne by done. by rewrite lookup_empty.
    + rewrite fmap_app, list_to_set_app_L. cbn. set_solver.
  - rewrite !lookup_insert_ne by done. by rewrite app_nil_r.
Qed.
Lemma schema_stats_ok l : stats_ok l (schema_stats l).
Proof.
  induction l as [|d l IH] using rev_ind.
  - intros sid. cbn. rewrite !lookup_empty. done.
  - unfold schema_stats. rewrite foldl_app. by apply record_share_ok.
Qed.
Lemma size_list_to_set (l : list string) : base.size (list_to_set l : gset string) = length (remove_dups l).
Proof.
  rewrite <-(size_list_to_set (C := gset string) (remove_dups l)) by apply NoDup_remove_dups. f_equal.
  apply set_eq. intros x. rewrite !elem_of_list_to_set. by rewrite elem_of_remove_dups.
Qed.

(** The one-pass aggregation of the privacy budget computes what it reports: a schema
    appears exactly when something of it was disclosed; its total is the number of its
    disclosures, the latest its latest, each verifier's count the number of disclosures
    to that verifier, and the number of verifiers that of the distinct ones. *)
Theorem privacy_budget_aggregates l sid :
  let ds := of_schema sid l in
  (fst (schema_stats l) !! sid = None ↔ ds = []) ∧
  (∀ x, fst (schema_stats l) !! sid = Some x →
     st_TotalShares x = Z.of_nat (length ds) ∧ st_LastSharedAt x = latest ds ∧
     (∀ v, default 0%Z (st_VerifierCounts x !! v) = Z.of_nat (shared_with v ds)) ∧
     unique_verifiers (schema_stats l) sid = length (remove_dups (pd_VerifierDID <$> ds)) ∧
     base.size (st_VerifierCounts x) = unique_verifiers (schema_stats l) sid).
Proof.
  destruct (schema_stats_ok l sid) as [Hs Hset]. cbn zeta in *. set (ds := of_schema sid l) in *.
  assert (unique_verifiers (schema_stats l) sid = length (remove_dups (pd_VerifierDID <$> ds))) as Hu.
  { unfold unique_verifiers. by rewrite Hset, size_list_to_set. }
  destruct (fst (schema_stats l) !! sid) as [x|]; [|naive_solver].
  destruct Hs as (Hne & Ht & Hl & Hv). split; [naive_solver|]. intros ? [= <-]. split_and!; try done.
  - intros v. rewrite Hv. case_decide as Hd; cbn; unfold id; lia.
  - rewrite Hu, <-size_list_to_set, <-size_dom. f_equal. apply set_eq. intros v.
    rewrite elem_of_dom, elem_of_list_to_set, Hv, list_elem_of_fmap. unfold shared_with. case_decide as Hd.
    + split; [by intros []|]. intros (d & -> & Hin). apply nil_length_inv in Hd. exfalso.
      apply (not_elem_of_nil d). rewrite <-Hd. by apply list_elem_of_filter.
    + split; [|by eexists]. intros _. destruct (filter _ ds) as [|d0 l0] eqn:E; [done|].
      assert (d0 ∈ filter (λ d, pd_VerifierDID d = v) ds) as [Hd0 Hin]%list_elem_of_filter
        by (rewrite E; apply elem_of_cons; by left). eauto.
Qed.

(** ** Instances *)

Definition alice_id : Identity := mkIdentity "did:key:alice" "key" "" "" "admin" "t1" 0 0.
Definition alice_session : OIDCSession :=
  mkOIDCSession "sess_1" "did:key:alice" "app" "https://app/cb" "openid" "" "" "c0de" "" "" "" "" "" "" None
    (1000 * second) (1300 * second).
Definition alice_row : CredentialRow := mkCredentialRow "urn:uuid:1" "did:key:alice" "did:web:i" "s" 0 None "vc" 0.
Definition alice_db : DB :=
  set_credentials {[ "urn:uuid:1" := alice_row ]}
  (set_oidc_sessions {[ "sess_1" := alice_session ]} (set_identities {[ "did:key:alice" := alice_id ]} (empty_db true))).
Lemma alice_wf : srv_wf (w_state (sample_srv alice_db)).
Proof.
  split; cbn; try (by apply keyed_empty); try (by apply keyed_insert, keyed_empty).
  - intros ????. by rewrite lookup_empty.
  - by intros i e; rewrite lookup_nil.
Qed.
Definition did_request : Request := mkRequest [] None [] None [("did", "did:key:alice")] "" None.
#[local] Existing Instances digest_scheme digest_scheme_ok.

Lemma suspension_not_enforced_witness : ∃ i,
  identities (srv_db (w_state (snd (handleAdminSuspendIdentity did_request (sample_srv alice_db))))) !! "did:key:alice" = Some i ∧
  i_Role i = "suspended".
Proof.
  apply (suspension_not_enforced sample_provider did_request (sample_srv alice_db) _ _ (AuthorizeHandler) authorize_request
    alice_wf (surjective_pairing _)); [reflexivity|apply elem_of_cons; by left].
Defined.

Lemma unsuspended_is_user_witness :
  let w1 := snd (handleAdminSuspendIdentity did_request (sample_srv alice_db)) in
  ∃ i', identities (srv_db (w_state (snd (handleAdminUnsuspendIdentity did_request w1)))) !! "did:key:alice" = Some i' ∧
    i_Role i' = "user".
Proof.
  intros w1.
  destruct (unsuspended_is_user did_request (sample_srv alice_db) _ w1 _ _ alice_wf (surjective_pairing _) eq_refl
    (surjective_pairing _) eq_refl) as (i & i' & _ & Hi' & Hr & _). eauto.
Defined.

Definition alice_token : string :=
  signJWT (claims_payload (access_claims "https://id.example" "did:key:alice" "c" hour (1000 * second)))
    (p_signingKey sample_provider) "k".
Definition my_session_request : Request :=
  mkRequest [] None [("Authorization", "Bearer " +s alice_token)] None [("id", "sess_1")] "" None.
Lemma revoke_own_answer :
  fst (handleRevokeMySession BridgeApiProofs.sample_server my_session_request (sample_srv alice_db)) = NoContent.
Proof. vm_compute. reflexivity. Qed.
Lemma revoke_only_own_session_witness :
  oidc_sessions (srv_db (w_state (snd (handleRevokeMySession BridgeApiProofs.sample_server my_session_request
    (sample_srv alice_db))))) !! "sess_1" = None.
Proof.
  apply (revoke_only_own_session BridgeApiProofs.sample_server my_session_request (sample_srv alice_db) _ _
    (surjective_pairing _)). apply revoke_own_answer.
Defined.

#[local] Instance one_credential : JsonCodec VerifiableCredential := {|
  json_marshal _ := Ok "vc";
  json_unmarshal _ := Ok (mkVerifiableCredential (mkCredential [] "urn:uuid:1" [] "did:web:i" 0 None
    (mkCredentialSubject "did:key:alice" ∅) None None) None) |}.
Lemma deleted_identity_keeps_links_witness :
  fst (handleAdminDeleteIdentity did_request (sample_srv alice_db)) = NoContent.
Proof.
  pose proof (deleted_identity_keeps_links did_request (sample_srv alice_db) alice_id alice_wf (λ _, eq_refl) eq_refl) as H.
  destruct (handleAdminDeleteIdentity did_request (sample_srv alice_db)) as [resp w']. apply H.
  intros k row. cbn. intros [<- <-]%lookup_singleton_Some _. eexists. split; reflexivity.
Defined.
End AccountsProofs.
