(* ===== verification/Endpoints.v ===== *)
(** * The other endpoints of the OpenID provider

    Device authorization (oidc/device.go), revocation (oidc/revocation.go),
    introspection (oidc/introspect.go), token exchange (oidc/token_exchange.go),
    logout (oidc/logout.go), step-up (oidc/stepup.go), the pre-authorized code
    grant (oidc/oid4vci.go) and the dispatch of the token endpoint. *)

From S2P Require Import Prelude GoStd World Json JsonValue Base64 Sha Http Jwt StoreTypes Store StoreAuth Provider.
Import JsonValue Http Jwt Types Store StoreAuth Provider.

Module Endpoints.

(** ** Device authorization *)

Definition deviceCodeTTL : Z := 15 * minute.
Definition devicePollInterval : Z := 5.

Definition user_code_chars : list byte := bytes_of "ABCDEFGHJKLMNPQRSTUVWXYZ23456789".
(** Eight draws of [rand.Intn(32)] from math/rand, which does not fail. *)
Definition math_rand (n : nat) : M Srv (list byte) :=
  b ← rand_read n;
  mret (match b with Ok l => l | Err _ => replicate n x00 end).
Definition generateUserCode : M Srv string :=
  draws ← math_rand 8;
  let cs := (λ d, nth (N.to_nat (bval d mod 32)) user_code_chars x41) <$> draws in
  mret (str_of (take 4 cs) +s "-" +s str_of (drop 4 cs)).

Section Handlers.
Context `{Ed25519} (p : Provider).

Definition DeviceAuthorizationHandler (r : Request) : M Srv Response :=
  match rq_form r with
  | None => mret (writeError "invalid_request" "could not parse form")
  | Some _ =>
  let clientID := FormValue r "client_id" in
  if clientID =s "" then mret (writeError "invalid_client" "client_id required") else
  auth ← validateClientAuth r clientID;
  match auth with
  | Err e => mret (writeError "invalid_client" (error_string e))
  | Ok _ =>
  let scope := FormValue r "scope" in
  dev ← randomHex 32;
  match dev with
  | Err _ => mret internalError
  | Ok devCode =>
  userCode ← generateUserCode;
  t1 ← time_now; t2 ← time_now;
  saved ← SaveDeviceCode (mkDeviceCode devCode userCode clientID scope "" false false
            (t1 + deviceCodeTTL)%Z devicePollInterval t2);
  match saved with
  | Err _ => mret internalError
  | Ok _ =>
      let verificationURI := p_issuer p +s "/device" in
      mret (JsonResp StatusOK (of_pairs
        [("device_code", JStr devCode); ("user_code", JStr userCode);
         ("verification_uri", JStr verificationURI);
         ("verification_uri_complete", JStr (verificationURI +s "?user_code=" +s userCode));
         ("expires_in", JInt (seconds_of deviceCodeTTL)); ("interval", JInt devicePollInterval)]))
  end end end end.

Definition DeviceVerifyHandler (r : Request) : M Srv Response :=
  let userCode := Query r "user_code" in
  if userCode =s "" then
    mret (JsonResp StatusOK [("prompt", JStr
      "Enter the user_code shown on your device at this URL, then POST to /device/approve.")])
  else
  found ← GetDeviceCodeByUserCode (ToUpper userCode);
  live ← load_unexpired dc_ExpiresAt found;
  match live with
  | None => mret (writeError "invalid_request" "user_code not found or expired")
  | Some dc => mret (JsonResp StatusOK (of_pairs
      [("client_id", JStr (dc_ClientID dc)); ("scope", JStr (dc_Scope dc));
       ("message", JStr "Authenticate and POST to /device/approve with {user_code, subject_did} to approve.")]))
  end.

Definition DeviceApproveHandler (r : Request) : M Srv Response :=
  match rq_form r with
  | None => mret (writeError "invalid_request" "could not parse form")
  | Some _ =>
  let userCode := ToUpper (FormValue r "user_code") in
  let subjectDID := FormValue r "subject_did" in
  if (userCode =s "") || (subjectDID =s "") then
    mret (writeError "invalid_request" "user_code and subject_did required")
  else
  found ← GetDeviceCodeByUserCode userCode;
  live ← load_unexpired dc_ExpiresAt found;
  match live with
  | None => mret (writeError "invalid_request" "user_code not found or expired")
  | Some dc =>
  upd ← UpdateDeviceCode (mkDeviceCode (dc_DeviceCode dc) (dc_UserCode dc) (dc_ClientID dc)
          (dc_Scope dc) subjectDID true (dc_Denied dc) (dc_ExpiresAt dc) (dc_IntervalSecs dc)
          (dc_CreatedAt dc));
  match upd with
  | Err _ => mret internalError
  | Ok _ => mret (JsonResp StatusOK [("status", JStr "approved")])
  end end end.

Definition handleDeviceGrant (r : Request) : M Srv Response :=
  let deviceCode := FormValue r "device_code" in
  let clientID := FormValue r "client_id" in
  if deviceCode =s "" then mret (writeError "invalid_request" "device_code required") else
  found ← GetDeviceCode deviceCode;
  match found with
  | Err _ => mret (writeError "invalid_grant" "device_code not found")
  | Ok dc =>
  if negb (clientID =s "") && negb (clientID =s dc_ClientID dc) then
    mret (writeError "invalid_client" "client_id mismatch")
  else
  now ← time_now;
  if (dc_ExpiresAt dc <? now)%Z then
    _ ← DeleteDeviceCode deviceCode;
    mret (writeError "expired_token" "device_code expired")
  else if dc_Denied dc then
    _ ← DeleteDeviceCode deviceCode;
    mret (writeError "access_denied" "user denied the request")
  else if negb (dc_Approved dc) then
    mret (writeError "authorization_pending"
            "The user has not yet approved the device request; keep polling.")
  else
  accessToken ← IssueAccessToken (p_issuer p) (dc_SubjectDID dc) (dc_ClientID dc) accessTokenTTL
    (p_signingKey p) (p_keyID p);
  gen ← generateRefreshToken;
  match gen with
  | Err _ => mret internalError
  | Ok (rawRefresh, refreshHash) =>
  rt ← new_refresh refreshHash (dc_SubjectDID dc) (dc_ClientID dc) (dc_Scope dc);
  saved ← SaveRefreshToken rt;
  match saved with
  | Err _ => mret internalError
  | Ok _ =>
  _ ← DeleteDeviceCode deviceCode;
  mret (writeTokenResponse accessToken "" rawRefresh (dc_Scope dc) accessTokenTTL)
  end end end.

(** ** Revocation: the set of revoked access tokens lives in memory *)

Definition hashTokenValue (token : string) : string := Sha.hex (Sha.Sum256 (bytes_of token)).
Definition set_revoked (f : gmap string Z → gmap string Z) : M Srv unit :=
  modify (λ s, mkSrv (srv_db s) (f (srv_revoked s)) (srv_outbox s)).

Definition IsAccessTokenRevoked (token : string) : M Srv bool :=
  let h := hashTokenValue token in
  s ← get_state;
  match srv_revoked s !! h with
  | None => mret false
  | Some expiresAt =>
      now ← time_now;
      if (expiresAt <? now)%Z then _ ← set_revoked (delete h); mret false
      else mret true
  end.

Definition basic_user (r : Request) : string :=
  match rq_basic r with Some (user, _) => user | None => "" end.

Definition RevokeHandler (r : Request) : M Srv Response :=
  match rq_form r with
  | None => mret (HttpError StatusBadRequest "bad request")
  | Some _ =>
  let token := FormValue r "token" in
  if token =s "" then mret (writeError "invalid_request" "token parameter is required") else
  let hint := FormValue r "token_type_hint" in
  let formID := FormValue r "client_id" in
  let clientID := if formID =s "" then basic_user r else formID in
  auth ← (if clientID =s "" then mret (Ok tt) else validateClientAuth r clientID);
  match auth with
  | Err e => mret (writeError "invalid_client" (error_string e))
  | Ok _ =>
  revoked ← (if (hint =s "") || (hint =s "refresh_token") then
               let hash := hashToken token in
               found ← GetRefreshToken hash;
               match found with
               | Ok rt =>
                   if negb (clientID =s "") && negb (rt_ClientID rt =s clientID) then mret false
                   else _ ← DeleteRefreshToken hash; mret true
               | Err _ => mret false
               end
             else mret false);
  _ ← (if negb revoked && ((hint =s "") || (hint =s "access_token")) then
         match ParseUnverified token with
         | Ok claims =>
             let expiry := (cl_ExpiresAt claims * second)%Z in
             now ← time_now;
             if (now <? expiry)%Z then set_revoked <[hashTokenValue token := expiry]> else mret tt
         | Err _ => mret tt
         end
       else mret tt);
  mret (JsonResp StatusOK [])
  end end.

(** ** Introspection *)

Definition inactive : Response := JsonResp StatusOK [("active", JBool false)].
Definition active_response (c : Claims) : Response :=
  JsonResp StatusOK ([("active", JBool true)] ++ opt_field "sub" (cl_Subject c) ++
    opt_field "client_id" (cl_Audience c) ++
    (if (cl_IssuedAt c =? 0)%Z then [] else [("iat", JInt (cl_IssuedAt c))]) ++
    (if (cl_ExpiresAt c =? 0)%Z then [] else [("exp", JInt (cl_ExpiresAt c))]) ++
    opt_field "iss" (cl_Issuer c) ++ [("token_type", JStr "Bearer")]).

Definition IntrospectHandler (r : Request) : M Srv Response :=
  match rq_form r with
  | None => mret (HttpError StatusBadRequest "bad request")
  | Some _ =>
  let token := FormValue r "token" in
  if token =s "" then mret (writeError "invalid_request" "token parameter is required") else
  v ← Verify token (ed_public (p_signingKey p));
  match v with
  | Err _ => mret inactive
  | Ok verified =>
  revoked ← IsAccessTokenRevoked token;
  if revoked : bool then mret inactive
  else
  now ← time_now;
  if (cl_ExpiresAt verified <? unix now)%Z then mret inactive
  else mret (active_response verified)
  end end.

(** ** Token exchange *)

Definition scopeIsSubset (requested allowed : string) : bool :=
  forallb (λ s, bool_decide (s ∈ Fields allowed)) (Fields requested).

Definition ttAccessToken : string := "urn:ietf:params:oauth:token-type:access_token".

(** The claims added to the base ones: audience, scope, and the actor. *)
Definition exchange_extra (audience scope : string) (act : option string) : list (string * json) :=
  [("aud", JStr audience)] ++ (if scope =s "" then [] else [("scope", JStr scope)]) ++
  match act with Some sub => [("act", JObj [("sub", JStr sub)])] | None => [] end.

Definition handleTokenExchange (r : Request) : M Srv Response :=
  let subjectToken := FormValue r "subject_token" in
  let subjectTokenType := FormValue r "subject_token_type" in
  let requestedTokenType := FormValue r "requested_token_type" in
  let requestedScope := FormValue r "scope" in
  let actorToken := FormValue r "actor_token" in
  if subjectToken =s "" then mret (writeError "invalid_request" "subject_token required")
  else if negb (subjectTokenType =s ttAccessToken) then
    mret (writeError "invalid_request" ("subject_token_type must be " +s ttAccessToken))
  else if negb (requestedTokenType =s "") && negb (requestedTokenType =s ttAccessToken) then
    mret (writeError "invalid_request" ("requested_token_type must be " +s ttAccessToken))
  else
  v ← Verify subjectToken (ed_public (p_signingKey p));
  match v with
  | Err e => mret (writeError "invalid_request" ("subject_token invalid: " +s error_string e))
  | Ok claims =>
  let callerClientID := match rq_basic r with Some (user, _) => user | None => FormValue r "client_id" end in
  auth ← (if callerClientID =s "" then mret (Ok tt) else validateClientAuth r callerClientID);
  match auth with
  | Err e => mret (writeError "invalid_client" (error_string e))
  | Ok _ =>
  if negb (requestedScope =s "") && negb (scopeIsSubset requestedScope (cl_Scope claims)) then
    mret (writeError "invalid_scope" "requested scope exceeds subject_token scope")
  else
  let effectiveScope := if requestedScope =s "" then cl_Scope claims else requestedScope in
  let audience := if FormValue r "audience" =s "" then p_issuer p else FormValue r "audience" in
  act ← (if negb (actorToken =s "") then
           a ← Verify actorToken (ed_public (p_signingKey p));
           mret (match a with Ok ac => Some (cl_Subject ac) | Err _ => None end)
         else mret (if callerClientID =s "" then None else Some callerClientID));
  accessToken ← issueJWTWithExtra (p_issuer p) (cl_Subject claims) audience accessTokenTTL
    (p_signingKey p) (p_keyID p) (exchange_extra audience effectiveScope act);
  mret (JsonResp StatusOK (of_pairs
    [("access_token", JStr accessToken); ("issued_token_type", JStr ttAccessToken);
     ("token_type", JStr "Bearer"); ("expires_in", JInt (seconds_of accessTokenTTL));
     ("scope", JStr effectiveScope)]))
  end end.

(** ** Logout *)

Fixpoint logout_sessions (l : list OIDCSession) : M Srv unit :=
  match l with
  | [] => mret tt
  | sess :: l' =>
      _ ← (if s_RefreshTokenHash sess =s "" then mret (Ok tt)
           else DeleteRefreshToken (s_RefreshTokenHash sess));
      _ ← DeleteSession (s_ID sess);
      logout_sessions l'
  end.

Definition isRegisteredLogoutURI (uri : string) : M Srv bool :=
  clients ← ListClients;
  mret (match clients with
        | Err _ => false
        | Ok cs => existsb (λ c, existsb (λ u, u =s uri) (c_PostLogoutRedirectURIs c)) cs
        end).

Definition LogoutHandler (r : Request) : M Srv Response :=
  let idTokenHint := Query r "id_token_hint" in
  let postLogoutURI := Query r "post_logout_redirect_uri" in
  let state := Query r "state" in
  subjectDID ← (if idTokenHint =s "" then mret ""
                else v ← Verify idTokenHint (ed_public (p_signingKey p));
                     mret (match v with Ok c => cl_Subject c | Err _ => "" end));
  _ ← (if subjectDID =s "" then mret (Ok tt)
       else
         sessions ← ListSessionsBySubject subjectDID;
         _ ← match sessions with Ok l => logout_sessions l | Err _ => mret tt end;
         PurgeExpiredSessions);
  target ← (if postLogoutURI =s "" then mret (p_issuer p)
            else if subjectDID =s "" then mret (p_issuer p)
            else reg ← isRegisteredLogoutURI postLogoutURI;
                 mret (if reg : bool then postLogoutURI else p_issuer p));
  mret (Redirect (if state =s "" then target
                  else if Contains target "?" then target +s "&state=" +s state
                  else target +s "?state=" +s state)).

(** ** Step-up *)

Definition acr_level (v : string) : option Z :=
  if v =s "mfa" then Some 3%Z else if v =s "pwd" then Some 2%Z
  else if v =s "social" then Some 1%Z else if v =s "" then Some 0%Z else None.
Definition acrSatisfies (have need : string) : bool :=
  let needLevel := foldl (λ acc v, match acr_level v with
                                   | Some l => if (acc <? l)%Z then l else acc
                                   | None => acc
                                   end) 0%Z (Fields need) in
  let haveLevel := default 0%Z (acr_level have) in
  (needLevel <=? haveLevel)%Z.

Definition StepUpHandler (r : Request) : M Srv Response :=
  let qtoken := Query r "access_token" in
  let bearer := if qtoken =s "" then TrimPrefix (Header r "Authorization") "Bearer " else qtoken in
  if bearer =s "" then mret (writeError "invalid_request" "access_token required") else
  v ← Verify bearer (ed_public (p_signingKey p));
  match v with
  | Err e => mret (writeError "invalid_token" ("access_token invalid: " +s error_string e))
  | Ok cur =>
  let requiredACR := Query r "acr_values" in
  if requiredACR =s "" then mret (writeError "invalid_request" "acr_values required")
  else if acrSatisfies (cl_ACR cur) requiredACR then
    token ← issueJWTWithExtra (p_issuer p) (cl_Subject cur) (cl_Audience cur) accessTokenTTL
      (p_signingKey p) (p_keyID p) [("acr", JStr (cl_ACR cur)); ("scope", JStr (cl_Scope cur))];
    mret (JsonResp StatusOK (of_pairs
      [("access_token", JStr token); ("token_type", JStr "Bearer");
       ("expires_in", JInt (seconds_of accessTokenTTL)); ("acr", JStr (cl_ACR cur))]))
  else
    let nonce := Query r "nonce" in
    let base := p_issuer p +s "/authorize?response_type=code&acr_values=" +s requiredACR in
    let authorizeURL := if nonce =s "" then base else base +s "&nonce=" +s nonce in
    mret (JsonResp StatusUnauthorized (of_pairs
      [("error", JStr "insufficient_user_authentication");
       ("error_description", JStr ("The current authentication level does not satisfy the required ACR: "
                                    +s requiredACR));
       ("acr_values", JStr requiredACR); ("max_age", JInt 0); ("authorize_url", JStr authorizeURL)]))
  end.

(** ** Pre-authorized codes *)

Fixpoint join_spaces (l : list string) : string :=
  match l with [] => "" | [s] => s | s :: l' => s +s " " +s join_spaces l' end.
Definition mustRandomHex (n : nat) : M Srv string :=
  s ← randomHex n;
  mret (match s with Ok x => x | Err _ => "" end).

Definition handlePreAuthorizedCode (r : Request) : M Srv Response :=
  let preAuthCode := FormValue r "pre-authorized_code" in
  if preAuthCode =s "" then mret (writeError "invalid_request" "pre-authorized_code required") else
  found ← GetCredentialOffer preAuthCode;
  match found with
  | Err _ => mret (writeError "invalid_grant" "pre-authorized_code not found")
  | Ok offer =>
  if co_Used offer then mret (writeError "invalid_grant" "pre-authorized_code already used") else
  now ← time_now;
  if (co_ExpiresAt offer <? now)%Z then mret (writeError "invalid_grant" "pre-authorized_code expired")
  else
  _ ← MarkCredentialOfferUsed preAuthCode;
  let scopes := (λ sid, "credential:" +s sid) <$> co_SchemaIDs offer in
  let subject := if co_SubjectDID offer =s "" then "urn:pre-auth:" +s preAuthCode else co_SubjectDID offer in
  accessToken ← issueJWTWithExtra (p_issuer p) subject (p_issuer p) accessTokenTTL (p_signingKey p)
    (p_keyID p) [("scope", JStr (join_spaces scopes)); ("offer_id", JStr (co_ID offer));
                 ("schema_ids", JArr (JStr <$> co_SchemaIDs offer))];
  nonce ← mustRandomHex 16;
  mret (JsonResp StatusOK (of_pairs
    [("access_token", JStr accessToken); ("token_type", JStr "Bearer");
     ("expires_in", JInt (seconds_of accessTokenTTL)); ("c_nonce", JStr nonce);
     ("c_nonce_expires_in", JInt 300)]))
  end.

(** ** The token endpoint *)

Definition TokenHandler (r : Request) : M Srv Response :=
  match rq_form r with
  | None => mret (HttpError StatusBadRequest "bad request")
  | Some _ =>
  let g := FormValue r "grant_type" in
  let grantType := if g =s "" then "authorization_code" else g in
  if grantType =s "authorization_code" then handleAuthCodeExchange p r
  else if grantType =s "refresh_token" then handleRefreshTokenGrant p r
  else if grantType =s "client_credentials" then handleClientCredentialsGrant p r
  else if grantType =s "urn:ietf:params:oauth:grant-type:device_code" then handleDeviceGrant r
  else if grantType =s "urn:ietf:params:oauth:grant-type:token-exchange" then handleTokenExchange r
  else mret (writeError "unsupported_grant_type" "supported: authorization_code, refresh_token, client_credentials, urn:ietf:params:oauth:grant-type:device_code, urn:ietf:params:oauth:grant-type:token-exchange")
  end.
End Handlers.
End Endpoints.
