(* ===== verification/EndpointsProofs.v ===== *)
(** * Revocation, introspection, the device flow, token exchange, logout and step-up *)

From S2P Require Import Prelude GoStd World Json JsonValue Base64 Sha Http Jwt StoreTypes Store StoreAuth Logic StoreInv Provider ProviderProofs Endpoints.
Import JsonValue Http Jwt Types Store StoreAuth StoreInv Provider ProviderProofs Endpoints.

Module EndpointsProofs.
#[local] Opaque Sha.Sum256 Sha.hex hashToken hashTokenValue hashSecret pkce_challenge signJWT.
Abbreviation db w := (srv_db (w_state w)).
Abbreviation revoked w := (srv_revoked (w_state w)).

Section Proofs.
Context `{Ed25519} (p : Provider).

(** ** Revocation and introspection *)

Lemma wp_Verify token pub Q clk nc rnd nr flt nf (s : Srv) :
  (∀ e nc', Q (Err e) (mkWorld clk nc' rnd nr flt nf s)) →
  (∀ c, verify_signature token pub = Ok c → (unix (clk nc) ≤ cl_ExpiresAt c)%Z →
     Q (Ok c) (mkWorld clk (S nc) rnd nr flt nf s)) →
  wp (Verify token pub) Q (mkWorld clk nc rnd nr flt nf s).
Proof.
  intros HE HO. unfold Verify. destruct (verify_signature token pub) as [c|e]; [|by apply wp_ret].
  repeat wp_step. destruct (Z.ltb_spec (cl_ExpiresAt c) (unix (clk nc))); auto.
Qed.

Lemma wp_Verify_Ok token pub c Q clk nc rnd nr flt nf (s : Srv) :
  verify_signature token pub = Ok c → (unix (clk nc) ≤ cl_ExpiresAt c)%Z →
  Q (Ok c) (mkWorld clk (S nc) rnd nr flt nf s) → wp (Verify token pub) Q (mkWorld clk nc rnd nr flt nf s).
Proof. intros Hv Hx%Z.ltb_ge HQ. unfold Verify. rewrite Hv. repeat wp_step. by rewrite Hx. Qed.

(** The endpoint looks for an access token: the hint says so, or there is no
    hint and the text is not a stored refresh token. *)
Definition reaches_access_token (r : Request) (d : DB) : Prop :=
  FormValue r "token_type_hint" = "access_token" ∨
  FormValue r "token_type_hint" = "" ∧ refresh_tokens d !! hashToken (FormValue r "token") = None.

Lemma select_None {V} k (m : gmap string V) : m !! k = None → select k m = Err ErrNoRows.
Proof. unfold select. by intros ->. Qed.

(** Revoking an access token records it until its expiry. *)
Lemma revoke_records r clk nc rnd nr flt nf d rev evs claims :
  reaches_access_token r d → ParseUnverified (FormValue r "token") = Ok claims →
  (clk nc < cl_ExpiresAt claims * second)%Z →
  wp (RevokeHandler r) (λ resp w', status_of resp = StatusOK →
    revoked w' = <[hashTokenValue (FormValue r "token") := (cl_ExpiresAt claims * second)%Z]> rev ∧ db w' = d)
    (mkWorld clk nc rnd nr flt nf (mkSrv d rev evs)).
Proof.
  intros Hhint Hparse Hlt. apply Z.ltb_lt in Hlt.
  unfold RevokeHandler, set_revoked, GetRefreshToken. rewrite Hparse.
  destruct Hhint as [->|[-> Hnone%select_None]]; cbn [String.eqb Ascii.eqb Bool.eqb orb];
    repeat (wp_step; try done || congruence);
    apply wp_validateClientAuth; intros; repeat (wp_step; try done || congruence).
Qed.

(** With any other hint the endpoint answers 200 and leaves the access token
    alone: nothing is recorded. *)
Lemma other_hint_records_nothing r w :
  FormValue r "token_type_hint" ≠ "" → FormValue r "token_type_hint" ≠ "access_token" →
  revoked (snd (RevokeHandler r w)) = revoked w.
Proof.
  intros He%String.eqb_neq Ha%String.eqb_neq.
  assert (keeps (λ s, srv_revoked s = revoked w) (RevokeHandler r)) as Hk; [|by apply Hk].
  unfold RevokeHandler, DeleteRefreshToken, GetRefreshToken, validateClientAuth, GetClient.
  rewrite He, Ha. cbn [orb]. do 2 keeps_step; [by keeps_tac|].
  keeps_step; [by repeat (keeps_step || apply keeps_query)|].
  keeps_step; [|by keeps_tac].
  keeps_step; [by repeat (keeps_step || apply keeps_query || by apply keeps_exec)|].
  rewrite andb_false_r. by keeps_tac.
Qed.

(** A recorded token is inactive until its expiry instant. *)
Lemma introspect_recorded r clk nc rnd nr flt nf d rev evs exp :
  rev !! hashTokenValue (FormValue r "token") = Some exp →
  rq_form r ≠ None → FormValue r "token" ≠ "" →
  (clk (S nc) ≤ exp)%Z →
  wp (IntrospectHandler p r) (λ resp w', resp = inactive ∧ revoked w' = rev)
    (mkWorld clk nc rnd nr flt nf (mkSrv d rev evs)).
Proof.
  intros Hrev Hform Htok Hle. apply Z.ltb_ge in Hle. apply String.eqb_neq in Htok.
  unfold IntrospectHandler, IsAccessTokenRevoked. rewrite Htok.
  repeat (wp_step; try done || congruence).
  apply wp_Verify; [intros e nc'|intros c Hc Hexp]; repeat (wp_step; try done || congruence);
    cbn [srv_revoked] in *; congruence.
Qed.

Lemma verify_signature_parse token pub c :
  verify_signature token pub = Ok c → ParseUnverified token = Ok c.
Proof. unfold verify_signature. repeat case_match; naive_solver. Qed.

Lemma introspect_expired r claims clk nc rnd nr flt nf d rev evs :
  ParseUnverified (FormValue r "token") = Ok claims → rq_form r ≠ None → FormValue r "token" ≠ "" →
  (cl_ExpiresAt claims < unix (clk nc))%Z →
  wp (IntrospectHandler p r) (λ resp _, resp = inactive) (mkWorld clk nc rnd nr flt nf (mkSrv d rev evs)).
Proof.
  intros Hp Hform Htok Hlt. apply String.eqb_neq in Htok.
  unfold IntrospectHandler. rewrite Htok. repeat (wp_step; try done || congruence).
  apply wp_Verify; [by intros; repeat wp_step|]. intros c Hc%verify_signature_parse Hexp.
  assert (c = claims) as -> by congruence. lia.
Qed.

Lemma ParseUnverified_nonempty token c : ParseUnverified token = Ok c → token ≠ "".
Proof. by intros Hp ->. Qed.

(** C9: Revocation takes effect: once the revocation endpoint has answered 200 for
    an unexpired access token, with the token type hint "access_token" or with no
    hint (and a text that is not a stored refresh token), introspecting that token
    in any later world that has the same server state reports it inactive, as long
    as the clock has not passed the expiry instant, and again from the second after
    the expiry on.  With another hint nothing is revoked, see
    [other_hint_records_nothing]. *)
Theorem revocation_effective r r2 w resp w1 w2 claims :
  RevokeHandler r w = (resp, w1) → status_of resp = StatusOK →
  reaches_access_token r (db w) → ParseUnverified (FormValue r "token") = Ok claims →
  (w_clock w (w_nclock w) < cl_ExpiresAt claims * second)%Z →
  w_state w2 = w_state w1 → rq_form r2 ≠ None → FormValue r2 "token" = FormValue r "token" →
  (w_clock w2 (S (w_nclock w2)) ≤ cl_ExpiresAt claims * second ∨
   cl_ExpiresAt claims < unix (w_clock w2 (w_nclock w2)))%Z →
  fst (IntrospectHandler p r2 w2) = inactive.
Proof.
  destruct w as [clk nc rnd nr flt nf [d rev evs]], w2 as [clk2 nc2 rnd2 nr2 flt2 nf2 [d2 rev2 evs2]].
  cbn [w_clock w_nclock w_state]. intros Hrun Hok Hhint Hparse Hlt Hst Hform Htok Htime.
  pose proof (wp_run _ _ _ _ _ Hrun (revoke_records r clk nc rnd nr flt nf d rev evs claims Hhint Hparse Hlt)
    Hok) as [Hrev _]. rewrite <-Hst in Hrev. cbn [srv_revoked] in Hrev.
  pose proof (ParseUnverified_nonempty _ _ Hparse) as Hne. rewrite <-Htok in Hparse, Hne, Hrev.
  destruct Htime as [Hle|Hgt].
  - refine (proj1 (introspect_recorded r2 clk2 nc2 rnd2 nr2 flt2 nf2 d2 rev2 evs2 _ _ Hform Hne Hle)).
    by rewrite Hrev, lookup_insert_eq.
  - by apply (introspect_expired r2 claims).
Qed.

(** The revocation record is dropped too early: in the second that starts at
    the expiry instant the token still verifies, because expiry is compared in
    whole seconds, but the record counts as expired, because it is compared in
    nanoseconds; introspection then reports the revoked token as active. *)
Theorem revoked_active_in_expiry_second r w c :
  verify_signature (FormValue r "token") (ed_public (p_signingKey p)) = Ok c → rq_form r ≠ None →
  srv_revoked (w_state w) !! hashTokenValue (FormValue r "token") = Some (cl_ExpiresAt c * second)%Z →
  (∀ n, cl_ExpiresAt c * second < w_clock w n < (cl_ExpiresAt c + 1) * second)%Z →
  fst (IntrospectHandler p r w) = active_response c.
Proof.
  destruct w as [clk nc rnd nr flt nf [d rev evs]]. cbn [w_state srv_revoked w_clock].
  intros Hv Hform Hrev Hclk.
  assert (∀ n, (unix (clk n) ≤ cl_ExpiresAt c)%Z) as Hunix.
  { intros n. specialize (Hclk n). unfold unix. apply Z.lt_succ_r, Z.div_lt_upper_bound; unfold second in *; lia. }
  pose proof (ParseUnverified_nonempty _ _ (verify_signature_parse _ _ _ Hv)) as Hne%String.eqb_neq.
  change (wp (IntrospectHandler p r) (λ resp _, resp = active_response c)
    (mkWorld clk nc rnd nr flt nf (mkSrv d rev evs))).
  unfold IntrospectHandler, IsAccessTokenRevoked, Verify, set_revoked. rewrite Hne, Hv.
  repeat (wp_step; try done || congruence); cbn [srv_revoked] in *; simplify_eq;
    pose proof (Hclk (S nc)); pose proof (Hunix nc); pose proof (Hunix (S (S nc))); lia.
Qed.

(** ** The device flow *)

Inductive DeviceReq := DAuthorize (r : Request) | DVerify (r : Request) | DApprove (r : Request) | DPoll (r : Request).
Definition device_step (q : DeviceReq) : M Srv Response :=
  match q with
  | DAuthorize r => DeviceAuthorizationHandler p r
  | DVerify r => DeviceVerifyHandler r
  | DApprove r => DeviceApproveHandler r
  | DPoll r => handleDeviceGrant p r
  end.
Fixpoint device_run (l : list DeviceReq) : M Srv (list Response) :=
  match l with
  | [] => mret []
  | q :: l' => resp ← device_step q; rest ← device_run l'; mret (resp :: rest)
  end.

(** An approved code was approved by a request of the trace, for that request's subject. *)
Definition approvals (tr : list DeviceReq) (d : DB) : Prop :=
  ∀ k dc, device_codes d !! k = Some dc → dc_Approved dc = true →
    ∃ r, DApprove r ∈ tr ∧ dc_UserCode dc = ToUpper (FormValue r "user_code") ∧
      dc_SubjectDID dc = FormValue r "subject_did".
Definition device_inv (tr : list DeviceReq) (d : DB) : Prop := db_wf d ∧ approvals tr d.

Lemma approvals_mono tr tr' d : (∀ q, q ∈ tr → q ∈ tr') → approvals tr d → approvals tr' d.
Proof. intros Hin Ha k dc Hk Happ. destruct (Ha k dc Hk Happ) as (r & Hr & ?). eauto. Qed.

Lemma device_by_user_code uc d dc :
  db_wf d →
  of_option ErrNoRows (head (rows (λ r, dc_UserCode r =s uc) (device_codes d))) = Ok dc →
  device_codes d !! dc_DeviceCode dc = Some dc ∧ dc_UserCode dc = uc.
Proof.
  intros Hwf Hh. destruct (rows _ _) as [|dc' l] eqn:E; simplify_eq/=.
  assert (dc ∈ rows (λ r, dc_UserCode r =s uc) (device_codes d)) as Hin by (rewrite E; set_solver).
  apply elem_of_rows in Hin as [Hu%String.eqb_eq [k Hk]].
  pose proof (wf_devices _ Hwf _ _ Hk) as Hkey. by rewrite Hkey.
Qed.

(** The device codes of a database after each kind of write. *)
Lemma approvals_update tr r d dc dc' :
  approvals tr d → device_codes d !! dc_DeviceCode dc' = Some dc →
  dc_UserCode dc = ToUpper (FormValue r "user_code") → dc_SubjectDID dc' = FormValue r "subject_did" →
  approvals (tr ++ [DApprove r]) (set_device_codes
    (alter (λ old, device_merge old dc') (dc_DeviceCode dc') (device_codes d)) d).
Proof.
  intros Ha Hdc Hu Hs k c Hk Happ. cbn [device_codes set_device_codes] in Hk.
  destruct (decide (dc_DeviceCode dc' = k)) as [<-|Hne].
  - rewrite lookup_alter_eq, Hdc in Hk. simpl in Hk. simplify_eq. exists r.
    split; [set_solver|]. by simpl.
  - rewrite lookup_alter_ne in Hk by done. destruct (Ha k c Hk Happ) as (r' & ? & ?).
    exists r'. split; [set_solver|done].
Qed.
Lemma approvals_delete tr d k :
  approvals tr d → approvals tr (set_device_codes (delete k (device_codes d)) d).
Proof.
  intros Ha k' c Hk Happ. cbn [device_codes set_device_codes] in Hk.
  apply lookup_delete_Some in Hk as [_ Hk]. eauto.
Qed.
Lemma approvals_insert tr d k dc :
  dc_Approved dc = false → approvals tr d →
  approvals tr (set_device_codes (<[k := dc]> (device_codes d)) d).
Proof.
  intros Hn Ha k' c Hk Happ. cbn [device_codes set_device_codes] in Hk.
  apply lookup_insert_Some in Hk as [[<- <-]|[_ Hk]]; [congruence|eauto].
Qed.

Lemma approvals_snoc tr q d : approvals tr d → approvals (tr ++ [q]) d.
Proof. apply approvals_mono. set_solver. Qed.

Lemma device_authorize_inv tr r clk nc rnd nr flt nf d rev evs :
  approvals tr d →
  wp (DeviceAuthorizationHandler p r) (λ _ w', approvals (tr ++ [DAuthorize r]) (db w'))
    (mkWorld clk nc rnd nr flt nf (mkSrv d rev evs)).
Proof.
  intros Ha%(approvals_snoc _ (DAuthorize r)).
  unfold DeviceAuthorizationHandler, randomHex, generateUserCode, math_rand, SaveDeviceCode.
  repeat (wp_step; try done).
  apply wp_validateClientAuth; [intros _ _|intros e _]; repeat (wp_step; try done); repeat case_match; simpl;
    try done; by apply approvals_insert.
Qed.

Lemma device_verify_inv tr r clk nc rnd nr flt nf d rev evs :
  approvals tr d →
  wp (DeviceVerifyHandler r) (λ _ w', approvals (tr ++ [DVerify r]) (db w'))
    (mkWorld clk nc rnd nr flt nf (mkSrv d rev evs)).
Proof.
  intros Ha%(approvals_snoc _ (DVerify r)).
  unfold DeviceVerifyHandler, GetDeviceCodeByUserCode, load_unexpired. repeat (wp_step; try done).
Qed.

Lemma device_approve_inv tr r clk nc rnd nr flt nf d rev evs :
  db_wf d → approvals tr d →
  wp (DeviceApproveHandler r) (λ _ w', approvals (tr ++ [DApprove r]) (db w'))
    (mkWorld clk nc rnd nr flt nf (mkSrv d rev evs)).
Proof.
  intros Hwf Ha. pose proof (approvals_snoc _ (DApprove r) _ Ha).
  unfold DeviceApproveHandler, GetDeviceCodeByUserCode, load_unexpired, UpdateDeviceCode.
  repeat (wp_step; try done).
  apply (device_by_user_code _ _ _ Hwf) in Heqr0 as [Hk Hu].
  by apply (approvals_update tr r d a (mkDeviceCode _ _ _ _ _ true _ _ _ _)).
Qed.

Lemma device_poll_inv tr r clk nc rnd nr flt nf d rev evs :
  approvals tr d →
  wp (handleDeviceGrant p r) (λ _ w', approvals (tr ++ [DPoll r]) (db w'))
    (mkWorld clk nc rnd nr flt nf (mkSrv d rev evs)).
Proof.
  intros Ha%(approvals_snoc _ (DPoll r)).
  unfold handleDeviceGrant, GetDeviceCode, DeleteDeviceCode, IssueAccessToken, generateRefreshToken,
    randomHex, new_refresh, SaveRefreshToken.
  repeat (wp_step; try done); by apply approvals_delete.
Qed.

(** The handlers of the flow keep the store well-formed. *)
Lemma device_step_wf q : keeps srv_wf (device_step q).
Proof.
  destruct q; simpl; unfold DeviceAuthorizationHandler, DeviceVerifyHandler, DeviceApproveHandler,
    handleDeviceGrant, validateClientAuth, GetClient, GetDeviceCode, GetDeviceCodeByUserCode,
    load_unexpired, randomHex, generateUserCode, math_rand, generateRefreshToken, new_refresh,
    IssueAccessToken; keeps_tac.
Qed.

Lemma device_step_inv tr q w :
  device_inv tr (db w) → device_inv (tr ++ [q]) (db (snd (device_step q w))).
Proof.
  intros [Hwf Ha]. split; [by apply device_step_wf|].
  destruct w as [clk nc rnd nr flt nf [d rev evs]]. cbn [w_state srv_db] in *.
  destruct q; [by apply device_authorize_inv|by apply device_verify_inv|by apply device_approve_inv|
               by apply device_poll_inv].
Qed.

Lemma device_run_inv l tr w :
  device_inv tr (db w) → device_inv (tr ++ l) (db (snd (device_run l w))).
Proof.
  revert tr w. induction l as [|q l IH]; intros tr w Hi; [by rewrite app_nil_r|].
  simpl. unfold mbind, M_bind. pose proof (device_step_inv tr q w Hi) as Hq.
  destruct (device_step q w) as [resp w1]. specialize (IH _ w1 Hq).
  destruct (device_run l w1) as [rest w2]. by rewrite <-app_assoc in IH.
Qed.

(** What a successful poll implies, and what it leaves. *)
Lemma wp_device_grant r clk nc rnd nr flt nf d rev evs :
  wp (handleDeviceGrant p r) (λ resp w', status_of resp = StatusOK →
    ∃ dc raw, device_codes d !! FormValue r "device_code" = Some dc ∧ dc_Approved dc = true ∧
      dc_Denied dc = false ∧ (clk nc ≤ dc_ExpiresAt dc)%Z ∧
      (FormValue r "client_id" = "" ∨ FormValue r "client_id" = dc_ClientID dc) ∧
      resp = writeTokenResponse (issued_access p (dc_SubjectDID dc) (dc_ClientID dc) (clk (S nc))) ""
               raw (dc_Scope dc) accessTokenTTL ∧
      (flt (2 + nf) = None → device_codes (db w') = delete (FormValue r "device_code") (device_codes d)))
    (mkWorld clk nc rnd nr flt nf (mkSrv d rev evs)).
Proof.
  unfold handleDeviceGrant, GetDeviceCode, DeleteDeviceCode, IssueAccessToken, generateRefreshToken,
    randomHex, new_refresh, SaveRefreshToken.
  repeat (wp_step; try done); intros _; exists a; eexists; (split; [by apply select_Ok|]);
    (split; [by apply negb_false_iff|]); (split; [done|]); (split; [by apply Z.ltb_ge|]);
    (split; [by apply guard_mismatch|]); (split; [reflexivity|]); [|done].
  change (flt (2 + nf)) with (flt (S (S nf))). congruence.
Qed.

(** C6: The device flow: starting without device codes, after any sequence of
    device requests (authorizations, look-ups, approvals and polls) a poll that
    yields tokens redeems a stored, unexpired device code that an earlier
    approval request of the sequence approved by its user code; the tokens are
    issued for the subject of that approval and the client that started the flow;
    and when the driver does not fail the device code is gone afterwards. *)
Theorem device_tokens_need_approval l r w resp w' :
  srv_wf (w_state w) → device_codes (db w) = ∅ →
  handleDeviceGrant p r (snd (device_run l w)) = (resp, w') → status_of resp = StatusOK →
  ∃ dc ra raw t, DApprove ra ∈ l ∧
    device_codes (db (snd (device_run l w))) !! FormValue r "device_code" = Some dc ∧
    dc_UserCode dc = ToUpper (FormValue ra "user_code") ∧
    (w_clock (snd (device_run l w)) (w_nclock (snd (device_run l w))) ≤ dc_ExpiresAt dc)%Z ∧
    resp = writeTokenResponse (issued_access p (FormValue ra "subject_did") (dc_ClientID dc) t) ""
             raw (dc_Scope dc) accessTokenTTL ∧
    (no_faults (snd (device_run l w)) → device_codes (db w') !! FormValue r "device_code" = None).
Proof.
  intros Hwf Hnone Hrun Hok.
  assert (device_inv l (db (snd (device_run l w)))) as [_ Ha].
  { apply (device_run_inv l []). split; [done|]. intros k dc Hk. by rewrite Hnone, lookup_empty in Hk. }
  destruct (snd (device_run l w)) as [clk nc rnd nr flt nf [d rev evs]].
  pose proof (wp_run _ _ _ _ _ Hrun (wp_device_grant r clk nc rnd nr flt nf d rev evs) Hok)
    as (dc & raw & Hdc & Happ & _ & Hexp & _ & -> & Hdel).
  destruct (Ha _ dc Hdc Happ) as (ra & Hra & Hu & Hs).
  exists dc, ra, raw. eexists. do 4 (split; [done|]). split; [by rewrite <-Hs|].
  intros Hnf. rewrite Hdel by apply (Hnf (2 + nf)). apply lookup_delete_eq.
Qed.

(** ** Token exchange *)

Lemma scopeIsSubset_spec requested allowed :
  scopeIsSubset requested allowed = true ↔ ∀ s, s ∈ Fields requested → s ∈ Fields allowed.
Proof.
  unfold scopeIsSubset. rewrite forallb_elem_of. by setoid_rewrite bool_decide_eq_true.
Qed.

Lemma exchange_payload issuer sub aud scope act ttl now :
  let payload := foldl (λ acc kv, aset kv.1 kv.2 acc) (base_payload issuer sub aud ttl now)
                   (exchange_extra aud scope act) in
  aget "sub" payload = Some (JStr sub) ∧ aget "aud" payload = Some (JStr aud) ∧
  aget "scope" payload = if scope =s "" then None else Some (JStr scope).
Proof. unfold exchange_extra. destruct (scope =s ""), act; done. Qed.

(** The answer to a successful exchange of a token with the given claims. *)
Definition exchanged (claims : Claims) (aud : string) (resp : Response) : Prop :=
  ∃ payload scope body, resp = JsonResp StatusOK body ∧
    aget "access_token" body = Some (JStr (signJWT payload (p_signingKey p) (p_keyID p))) ∧
    aget "scope" body = Some (JStr scope) ∧ (∀ s, s ∈ Fields scope → s ∈ Fields (cl_Scope claims)) ∧
    aget "sub" payload = Some (JStr (cl_Subject claims)) ∧ aget "aud" payload = Some (JStr aud) ∧
    aget "scope" payload = (if scope =s "" then None else Some (JStr scope)).

Lemma exchanged_intro claims aud scope act now :
  (∀ s, s ∈ Fields scope → s ∈ Fields (cl_Scope claims)) →
  exchanged claims aud (JsonResp StatusOK (of_pairs
    [("access_token", JStr (signJWT (foldl (λ acc kv, aset kv.1 kv.2 acc)
        (base_payload (p_issuer p) (cl_Subject claims) aud accessTokenTTL now)
        (exchange_extra aud scope act)) (p_signingKey p) (p_keyID p)));
     ("issued_token_type", JStr ttAccessToken); ("token_type", JStr "Bearer");
     ("expires_in", JInt (seconds_of accessTokenTTL)); ("scope", JStr scope)])).
Proof.
  intros Hs. eexists _, scope, _. do 3 (split; [reflexivity|]). split; [done|]. apply exchange_payload.
Qed.

(** C18: Token exchange does not widen: a successful exchange means the subject
    token verified and had not expired; the new token is signed by the provider
    for the same subject, with the requested audience (the issuer by default),
    and every scope the answer names is a scope of the subject token; no row of
    the database changes. *)
Theorem exchange_never_widens r w resp w' :
  handleTokenExchange p r w = (resp, w') → status_of resp = StatusOK →
  ∃ claims, verify_signature (FormValue r "subject_token") (ed_public (p_signingKey p)) = Ok claims ∧
    (unix (w_clock w (w_nclock w)) ≤ cl_ExpiresAt claims)%Z ∧
    exchanged claims (if FormValue r "audience" =s "" then p_issuer p else FormValue r "audience") resp ∧
    db w' = db w.
Proof.
  destruct w as [clk nc rnd nr flt nf [d rev evs]]. cbn [w_state srv_db w_clock w_nclock].
  intros Hrun Hok. refine (wp_run _ (λ resp w', status_of resp = StatusOK → _) _ _ _ Hrun _ Hok).
  unfold handleTokenExchange. repeat (wp_step; try done).
  apply wp_Verify; [by intros; repeat wp_step|]. intros claims Hv Hexp.
  assert (negb (FormValue r "scope" =s "") && negb (scopeIsSubset (FormValue r "scope") (cl_Scope claims)) = false →
    ∀ s, s ∈ Fields (if FormValue r "scope" =s "" then cl_Scope claims else FormValue r "scope") →
         s ∈ Fields (cl_Scope claims)) as Hscope.
  { destruct (FormValue r "scope" =s ""); [done|]. simpl.
    intros Hs. by apply scopeIsSubset_spec, negb_false_iff. }
  unfold issueJWTWithExtra.
  repeat (wp_step; try done);
    repeat match goal with
    | |- wp (validateClientAuth _ _) _ _ => apply wp_validateClientAuth; [intros _ _|intros e _]
    | |- wp (Verify _ _) _ _ => apply wp_Verify; [intros e nc'|intros ac Hac Hacx]
    | _ => wp_step; try done
    end;
    intros _; exists claims; (split; [done|]); (split; [done|]); (split; [by apply exchanged_intro; auto|done]).
Qed.

Lemma Fields_empty : Fields "" = [].
Proof. done. Qed.

(** The provider's own access tokens cannot be narrowed: they are issued
    without a scope claim, so exchanging one for any non-blank scope is refused
    with invalid_scope, although the scope was granted to the client. *)
Theorem issued_tokens_cannot_be_narrowed `{!Ed25519Ok} r w sub client t s :
  FormValue r "subject_token" = issued_access p sub client t →
  claims_ok (access_claims (p_issuer p) sub client accessTokenTTL t) → length (p_signingKey p) = 64 →
  s ∈ Fields (FormValue r "scope") →
  status_of (fst (handleTokenExchange p r w)) = StatusBadRequest.
Proof.
  destruct w as [clk nc rnd nr flt nf [d rev evs]]. intros Htok Hc Hk Hs.
  assert (negb (FormValue r "scope" =s "") && negb (scopeIsSubset (FormValue r "scope") "") = true) as Hno.
  { apply andb_true_iff. split; apply negb_true_iff.
    - apply String.eqb_neq. intros E. rewrite E, Fields_empty in Hs. set_solver.
    - apply not_true_iff_false. rewrite scopeIsSubset_spec, Fields_empty. intros Hsub.
      specialize (Hsub s Hs). set_solver. }
  change (wp (handleTokenExchange p r) (λ resp _, status_of resp = StatusBadRequest)
    (mkWorld clk nc rnd nr flt nf (mkSrv d rev evs))).
  pose proof (verify_signature_signJWT _ (p_signingKey p) (p_keyID p) Hc Hk) as Hv.
  change (signJWT _ _ _) with (issued_access p sub client t) in Hv. rewrite <-Htok in Hv.
  unfold handleTokenExchange. repeat (wp_step; try done).
  apply wp_Verify; [by intros; repeat wp_step|]. intros c Hc' _.
  assert (c = access_claims (p_issuer p) sub client accessTokenTTL t) as -> by congruence.
  cbn [cl_Scope access_claims]. rewrite Hno.
  repeat match goal with
    | |- wp (validateClientAuth _ _) _ _ => apply wp_validateClientAuth; [intros _ _|intros e _]
    | _ => wp_step; try done
    end.
Qed.

(** ** Logout *)

Definition registered_logout (uri : string) (d : DB) : Prop :=
  ∃ k row, oidc_clients d !! k = Some row ∧ uri ∈ c_PostLogoutRedirectURIs (scanClient row).

Lemma order_by_elem {A} (key : A → Z) x l : x ∈ order_by_desc key l ↔ x ∈ l.
Proof. unfold order_by_desc. by rewrite order_by_perm. Qed.

(** What the loop does to the database when the driver does not fail. *)
Definition logout_one (d : DB) (s : OIDCSession) : DB :=
  set_oidc_sessions (delete (s_ID s) (oidc_sessions d))
    (if s_RefreshTokenHash s =s "" then d
     else set_refresh_tokens (delete (s_RefreshTokenHash s) (refresh_tokens d)) d).

Lemma wp_logout_sessions l clk nc rnd nr flt nf d rev evs (Q : unit → World Srv → Prop) :
  (∀ n, flt n = None) →
  (∀ nf', Q tt (mkWorld clk nc rnd nr flt nf' (mkSrv (foldl logout_one d l) rev evs))) →
  wp (logout_sessions l) Q (mkWorld clk nc rnd nr flt nf (mkSrv d rev evs)).
Proof.
  intros Hflt. revert nf d. induction l as [|s l IH]; intros nf d HQ; [by apply wp_ret|].
  simpl in *. unfold logout_one at 2 in HQ. unfold DeleteRefreshToken, DeleteSession.
  repeat (wp_step; try congruence); apply IH; intros nf'; specialize (HQ nf');
    by destruct (s_RefreshTokenHash s =s "").
Qed.

Lemma logout_fold_sessions l d k s :
  oidc_sessions (foldl logout_one d l) !! k = Some s → oidc_sessions d !! k = Some s ∧ Forall (λ x, s_ID x ≠ k) l.
Proof.
  revert d. induction l as [|x l IH]; intros d; simpl; [auto|]. intros [Hk Hl]%IH.
  assert (oidc_sessions (logout_one d x) = delete (s_ID x) (oidc_sessions d)) as E
    by (unfold logout_one; by destruct (s_RefreshTokenHash x =s "")).
  rewrite E in Hk. apply lookup_delete_Some in Hk as [Hne Hk]. by auto.
Qed.
Lemma logout_fold_refresh l d :
  Forall (λ s, s_RefreshTokenHash s = "") l → refresh_tokens (foldl logout_one d l) = refresh_tokens d.
Proof.
  intros Hl. revert d. induction Hl as [|x l Hx _ IH]; intros d; [done|]. simpl. rewrite IH.
  unfold logout_one. by rewrite Hx.
Qed.
Lemma logout_fold_clients l d : oidc_clients (foldl logout_one d l) = oidc_clients d.
Proof.
  revert d. induction l as [|x l IH]; intros d; [done|]. simpl. rewrite IH.
  unfold logout_one. by destruct (s_RefreshTokenHash x =s "").
Qed.

(** The sessions listed for a subject at [now]. *)
Definition live_sessions (sub : string) (now : Z) (d : DB) : list OIDCSession :=
  order_by_desc s_CreatedAt
    (rows (λ s, (s_SubjectDID s =s sub) && (now <? s_ExpiresAt s)%Z) (oidc_sessions d)).
Lemma elem_of_live_sessions sub now d s :
  s ∈ live_sessions sub now d ↔
  (s_SubjectDID s = sub ∧ (now < s_ExpiresAt s)%Z) ∧ ∃ k, oidc_sessions d !! k = Some s.
Proof.
  unfold live_sessions. rewrite order_by_elem, elem_of_rows, andb_true_iff, String.eqb_eq, Z.ltb_lt. done.
Qed.

(** What the handler leaves when the hint verifies for [sub] and the driver does
    not fail. *)
Lemma wp_logout r clk nc rnd nr flt nf d rev evs c :
  (∀ n, flt n = None) → Query r "id_token_hint" ≠ "" →
  verify_signature (Query r "id_token_hint") (ed_public (p_signingKey p)) = Ok c →
  (unix (clk nc) ≤ cl_ExpiresAt c)%Z → cl_Subject c ≠ "" →
  wp (LogoutHandler p r) (λ _ w',
    let d1 := foldl logout_one d (live_sessions (cl_Subject c) (clk (S nc)) d) in
    db w' = set_oidc_sessions (filter (λ '(_, s), ¬ (s_ExpiresAt s < clk (S (S nc)))%Z) (oidc_sessions d1)) d1)
    (mkWorld clk nc rnd nr flt nf (mkSrv d rev evs)).
Proof.
  intros Hflt Hhint%String.eqb_neq Hv Hexp Hsub%String.eqb_neq.
  unfold LogoutHandler, ListSessionsBySubject, PurgeExpiredSessions, isRegisteredLogoutURI, ListClients.
  rewrite Hhint. apply wp_bind, wp_bind, (wp_Verify_Ok _ _ c); [done|done|]. apply wp_ret. rewrite Hsub.
  repeat (wp_step; try congruence). apply wp_logout_sessions; [done|]. intros nf'.
  repeat (wp_step; try congruence); done.
Qed.

(** Logout ends the subject's sessions: when the id_token_hint verifies and the
    driver does not fail, every session of its subject that is left had already
    expired, and no session of anyone is created or changed; but refresh tokens
    are only removed through the hashes the sessions carry, so when the sessions
    carry none (the provider never sets one) every refresh token survives. *)
Theorem logout_ends_sessions r w c :
  srv_wf (w_state w) → no_faults w → Query r "id_token_hint" ≠ "" →
  verify_signature (Query r "id_token_hint") (ed_public (p_signingKey p)) = Ok c →
  (unix (w_clock w (w_nclock w)) ≤ cl_ExpiresAt c)%Z → cl_Subject c ≠ "" →
  (∀ k s, oidc_sessions (db (snd (LogoutHandler p r w))) !! k = Some s →
    oidc_sessions (db w) !! k = Some s ∧
    (s_SubjectDID s = cl_Subject c → s_ExpiresAt s ≤ w_clock w (S (w_nclock w)))%Z) ∧
  ((∀ k s, oidc_sessions (db w) !! k = Some s → s_RefreshTokenHash s = "") →
   refresh_tokens (db (snd (LogoutHandler p r w))) = refresh_tokens (db w)).
Proof.
  destruct w as [clk nc rnd nr flt nf [d rev evs]]. cbn [w_state srv_db w_clock w_nclock].
  intros Hwf Hnf Hhint Hv Hexp Hsub.
  pose proof (wp_logout r clk nc rnd nr flt nf d rev evs c (λ n, Hnf n) Hhint Hv Hexp Hsub) as Hw.
  unfold wp in Hw. rewrite Hw. split.
  - intros k s Hk. cbn [oidc_sessions set_oidc_sessions] in Hk.
    apply map_lookup_filter_Some in Hk as [[Hk Hl]%logout_fold_sessions _]. split; [done|]. intros Hs.
    destruct (Z.le_gt_cases (s_ExpiresAt s) (clk (S nc))) as [|Hgt]; [done|]. exfalso.
    rewrite Forall_forall in Hl. apply (Hl s); [apply elem_of_live_sessions; eauto|].
    by apply (wf_sessions _ Hwf).
  - intros Hh. cbn [refresh_tokens set_oidc_sessions]. apply logout_fold_refresh.
    apply Forall_forall. intros s [_ [k Hk]]%elem_of_live_sessions. eauto.
Qed.

(** ** Step-up *)

Definition acr_rank (v : string) : Z := default 0%Z (acr_level v).
Lemma acr_rank_nonneg v : (0 ≤ acr_rank v)%Z.
Proof. unfold acr_rank, acr_level. repeat case_match; simplify_eq/=; lia. Qed.

Lemma acr_fold l acc lim :
  (0 ≤ acc)%Z →
  (foldl (λ acc v, match acr_level v with
                   | Some l => if (acc <? l)%Z then l else acc
                   | None => acc
                   end) acc l ≤ lim)%Z ↔ (acc ≤ lim)%Z ∧ ∀ v, v ∈ l → (acr_rank v ≤ lim)%Z.
Proof.
  revert acc. induction l as [|v l IH]; intros acc Hacc; simpl; [set_solver|].
  assert (match acr_level v with Some l0 => if (acc <? l0)%Z then l0 else acc | None => acc end
          = Z.max acc (acr_rank v)) as ->.
  { unfold acr_rank. destruct (acr_level v) as [n|]; simpl; [|lia]. destruct (Z.ltb_spec acc n); lia. }
  rewrite IH by lia. setoid_rewrite elem_of_cons. split; [intros [? ?]|intros [? Hv]]; split; try lia.
  - intros x [->|?]; [lia|auto].
  - pose proof (Hv v). assert (acr_rank v ≤ lim)%Z by auto. lia.
  - auto.
Qed.

(** Step-up compares authentication levels: a token satisfies a list of
    required values exactly when its own level (mfa above pwd above social above
    none, unknown values counting as none) is at least that of each of them. *)
Theorem acrSatisfies_spec have need :
  acrSatisfies have need = true ↔ ∀ v, v ∈ Fields need → (acr_rank v ≤ acr_rank have)%Z.
Proof.
  unfold acrSatisfies. rewrite Z.leb_le. change (default 0%Z (acr_level have)) with (acr_rank have).
  rewrite acr_fold by done. pose proof (acr_rank_nonneg have). naive_solver.
Qed.
End Proofs.

(** ** A concrete deployment, where the hypotheses above hold *)

#[local] Existing Instance digest_scheme.
#[local] Existing Instance digest_scheme_ok.

Definition sample_token : string := issued_access sample_provider "did:key:alice" "app" (1000 * second).
Lemma sample_token_parses : ParseUnverified sample_token = Ok sample_claims.
Proof. apply (ParseUnverified_signJWT sample_claims sample_key "k1" sample_claims_ok). Qed.
Lemma sample_token_verifies : verify_signature sample_token (ed_public sample_key) = Ok sample_claims.
Proof. apply (verify_signature_signJWT sample_claims sample_key "k1" sample_claims_ok eq_refl). Qed.

Definition revoke_request : Request :=
  form_request [("token", sample_token); ("token_type_hint", "access_token")].
(** A world whose clock stands still at [t]. *)
Definition at_time (t : Z) (s : Srv) : World Srv :=
  mkWorld (λ _, t) 0 (λ n, Some (λ i, byte_of_N (N.of_nat (i + 32 * n)))) 0 (λ _, None) 0 s.

Lemma sample_revoke_ok : status_of (fst (RevokeHandler revoke_request (sample_srv sample_db))) = StatusOK.
Proof. vm_compute. reflexivity. Qed.

Definition revoke_unhinted : Request := form_request [("token", sample_token)].
Lemma sample_revoke_unhinted_ok : status_of (fst (RevokeHandler revoke_unhinted (sample_srv sample_db))) = StatusOK.
Proof. vm_compute. reflexivity. Qed.

Lemma revocation_effective_witness :
  fst (IntrospectHandler sample_provider revoke_request
    (at_time (2000 * second) (w_state (snd (RevokeHandler revoke_unhinted (sample_srv sample_db)))))) = inactive.
Proof.
  refine (revocation_effective sample_provider revoke_unhinted revoke_request (sample_srv sample_db) _ _ _
    sample_claims (surjective_pairing _) sample_revoke_unhinted_ok _ sample_token_parses _ _ _ _ _).
  - right. split; by vm_compute.
  - by vm_compute.
  - reflexivity.
  - done.
  - reflexivity.
  - left. by vm_compute.
Defined.

Definition last_second : World Srv :=
  at_time (4600 * second + 500000000)
    (mkSrv sample_db {[ hashTokenValue sample_token := (4600 * second)%Z ]} []).
Lemma revoked_active_in_expiry_second_witness :
  fst (IntrospectHandler sample_provider revoke_request last_second) = active_response sample_claims.
Proof.
  apply (revoked_active_in_expiry_second sample_provider revoke_request last_second sample_claims
    sample_token_verifies ltac:(done)).
  - apply (lookup_singleton_eq (hashTokenValue sample_token)).
  - intros n. by vm_compute.
Defined.

Definition device_request : Request := form_request [("client_id", "app"); ("scope", "openid")].
Definition sample_user_code : string :=
  fst (generateUserCode (mkWorld (λ _, 0%Z) 0 (λ n, Some (λ i, byte_of_N (N.of_nat (i + 32 * n)))) 1
                           (λ _, None) 0 init_srv)).
Definition approve_request : Request :=
  form_request [("user_code", sample_user_code); ("subject_did", "did:key:bob")].
Definition poll_request : Request := form_request [("device_code", sample_code)].
Definition device_trace : list DeviceReq := [DAuthorize device_request; DApprove approve_request].

Lemma sample_poll_ok :
  status_of (fst (handleDeviceGrant sample_provider poll_request
    (snd (device_run sample_provider device_trace (sample_srv sample_db))))) = StatusOK.
Proof. vm_compute. reflexivity. Qed.
Lemma device_tokens_need_approval_witness : ∃ dc,
  device_codes (db (snd (device_run sample_provider device_trace (sample_srv sample_db)))) !! sample_code = Some dc.
Proof.
  destruct (device_tokens_need_approval sample_provider device_trace poll_request (sample_srv sample_db) _ _
    sample_wf eq_refl (surjective_pairing _) sample_poll_ok)
    as (dc & _ & _ & _ & _ & Hdc & _).
  exists dc. exact Hdc.
Defined.

Definition swap_request (scope : string) : Request :=
  form_request [("subject_token", sample_token); ("subject_token_type", ttAccessToken); ("scope", scope)].
Lemma sample_swap_ok :
  status_of (fst (handleTokenExchange sample_provider (swap_request "") (sample_srv sample_db))) = StatusOK.
Proof. vm_compute. reflexivity. Qed.
Lemma exchange_never_widens_witness : ∃ claims,
  verify_signature sample_token (ed_public sample_key) = Ok claims.
Proof.
  destruct (exchange_never_widens sample_provider (swap_request "") (sample_srv sample_db) _ _
    (surjective_pairing _) sample_swap_ok) as (claims & Hc & _).
  exists claims. exact Hc.
Defined.

Lemma issued_tokens_cannot_be_narrowed_witness :
  status_of (fst (handleTokenExchange sample_provider (swap_request "openid") (sample_srv sample_db)))
    = StatusBadRequest.
Proof.
  apply (issued_tokens_cannot_be_narrowed sample_provider (swap_request "openid") (sample_srv sample_db)
    "did:key:alice" "app" (1000 * second) "openid" eq_refl sample_claims_ok eq_refl).
  change (FormValue (swap_request "openid") "scope") with "openid".
  change (Fields "openid") with ["openid"]. constructor.
Defined.

Definition logout_request : Request := mkRequest [("id_token_hint", sample_token)] None [] None [] "" None.
Lemma logout_ends_sessions_witness :
  refresh_tokens (db (snd (LogoutHandler sample_provider logout_request (sample_srv sample_db))))
    = refresh_tokens sample_db.
Proof.
  apply (logout_ends_sessions sample_provider logout_request (sample_srv sample_db) sample_claims
    sample_wf (λ _, eq_refl)); [|apply sample_token_verifies|by vm_compute|done|].
  - intros E. pose proof (ParseUnverified_nonempty _ _ sample_token_parses). done.
  - change (oidc_sessions _) with ({[ "sess_1" := sample_session ]} : gmap string OIDCSession).
    intros k s [_ <-]%lookup_singleton_Some. reflexivity.
Defined.
End EndpointsProofs.
