(* ===== verification/ApiServer.v ===== *)
(** * The HTTP server: routes, middleware and rate limiting (api/server.go)

    The route table as [routes] registers it, the dispatch of [http.ServeMux] on
    method and path, the middleware around each handler, and the per-address
    token bucket, whose rate and token counts are binary64 numbers with the rounding
    of every operation ([Binary64]).  Logging and metrics ([audit]) leave requests
    and responses alone. *)

From S2P Require Import Prelude GoStd GoTime Binary64 World Json JsonValue Http Consent StoreTypes Did GoNet.
Import JsonValue Http Types.

Module ApiServer.

(** ** Rate limiter *)

Import GoDuration (float64, float64_of, fmul).

Record bucket := mkBucket { b_tokens : float64; b_lastSeen : Z }.
Record ipRateLimiter := mkLimiter {
  l_buckets : gmap string bucket; l_rate : float64; l_capacity : Z }.
Definition newIPRateLimiter (rate : float64) (capacity : Z) : ipRateLimiter := mkLimiter ∅ rate capacity.

(** [now0] is read only for an address that has no bucket. *)
Definition Allow (ip : string) (now0 now : Z) (l : ipRateLimiter) : bool * ipRateLimiter :=
  let capacity := float64_of (l_capacity l) in
  let b := default (mkBucket capacity now0) (l_buckets l !! ip) in
  let elapsed := Binary64.Seconds (Binary64.Sub now (b_lastSeen b)) in
  let tokens := Binary64.fadd (b_tokens b) (fmul elapsed (l_rate l)) in
  let tokens := if Binary64.fltb capacity tokens then capacity else tokens in
  let allowed := negb (Binary64.fltb tokens (float64_of 1)) in
  let tokens := if allowed then Binary64.fsub tokens (float64_of 1) else tokens in
  (allowed, mkLimiter (<[ip := mkBucket tokens now]> (l_buckets l)) (l_rate l) (l_capacity l)).
Definition evict (now : Z) (l : ipRateLimiter) : ipRateLimiter :=
  let cutoff := (now - 10 * minute)%Z in
  mkLimiter (filter (λ kv, ¬ (b_lastSeen kv.2 < cutoff)%Z) (l_buckets l)) (l_rate l) (l_capacity l).

(** The limiter [NewServer] makes: fifty requests a second unless configured, and
    a burst of twice the rate, cut to a whole number. *)
Definition server_limiter (rateLimit : float64) : ipRateLimiter :=
  let rateLimit := if Binary64.feqb rateLimit (float64_of 0) then float64_of 50 else rateLimit in
  newIPRateLimiter rateLimit (Binary64.to_int (fmul rateLimit (float64_of 2))).

(** ** The server's configuration *)

Record Config := mkConfig {
  sc_apiKey : string; sc_issuer : string; sc_trustedProxies : list (Did.IP * N);
  sc_corsAllowedOrigins : list string }.

(** The trusted ranges of the configuration: an entry that does not parse is skipped. *)
Definition trusted_nets (trustedProxies : list string) : list (Did.IP * N) := omap GoNet.ParseCIDR trustedProxies.

Section Server.
Context (cfg : Config).

Definition clientIP (r : Request) : string :=
  let remoteHost := default (rq_remote r) (GoNet.SplitHost (rq_remote r)) in
  let isTrusted := match GoNet.ParseIP remoteHost with
                   | Some ip => existsb (λ cidr, Did.Contains cidr ip) (sc_trustedProxies cfg)
                   | None => false
                   end in
  if isTrusted then
    let fwd := Header r "X-Forwarded-For" in
    if fwd =s "" then remoteHost
    else match SplitN fwd x2c 2 with
         | p0 :: _ => let ip := TrimSpace p0 in if ip =s "" then remoteHost else ip
         | [] => remoteHost
         end
  else remoteHost.

(** ** Middleware *)

(** What is sent: headers set before the handler ran, and its response. *)
Record Reply := mkReply { rp_headers : list (string * string); rp_response : Response }.
Definition St : Type := Srv * ipRateLimiter.
Definition Handler : Type := string → Request → M St Reply.

(** A handler of the API touches the store and not the limiter. *)
Definition lift {A} (m : M Srv A) : M St A := λ w,
  let '(a, w') := m (mkWorld (w_clock w) (w_nclock w) (w_rand w) (w_nrand w) (w_fault w) (w_nfault w)
                       (fst (w_state w))) in
  (a, mkWorld (w_clock w') (w_nclock w') (w_rand w') (w_nrand w') (w_fault w') (w_nfault w')
        (w_state w', snd (w_state w))).
Definition plain (resp : Response) : Reply := mkReply [] resp.
Definition with_headers (hs : list (string * string)) (rp : Reply) : Reply :=
  mkReply (hs ++ rp_headers rp) (rp_response rp).

Definition rateLimit (next : Handler) : Handler := λ method r,
  let ip := clientIP r in
  l ← (λ w, (snd (w_state w), w));
  now0 ← match l_buckets l !! ip with None => time_now | Some _ => mret 0%Z end;
  now ← time_now;
  let '(ok, l') := Allow ip now0 now l in
  _ ← modify (λ s : St, (fst s, l'));
  if (ok : bool) then next method r else mret (plain (HttpError StatusTooManyRequests "rate limit exceeded")).

Definition auth (next : Handler) : Handler := λ method r,
  if negb (sc_apiKey cfg =s "") &&
     negb (TrimPrefix (Header r "Authorization") "Bearer " =s sc_apiKey cfg)
  then mret (plain (HttpError StatusUnauthorized "unauthorized"))
  else next method r.

(** The log line and the metrics read the clock. *)
Definition audit (next : Handler) : Handler := λ method r,
  _ ← time_now;
  rp ← next method r;
  _ ← time_now;
  mret rp.

Definition securityHeaders (next : Handler) : Handler := λ method r,
  rp ← next method r;
  mret (with_headers
    ([("X-Content-Type-Options", "nosniff"); ("X-Frame-Options", "DENY");
      ("Referrer-Policy", "strict-origin-when-cross-origin")] ++
     if HasPrefix (sc_issuer cfg) "https://"
     then [("Strict-Transport-Security", "max-age=63072000; includeSubDomains")] else []) rp).

Definition cors_headers (origin : string) : list (string * string) :=
  if negb (origin =s "") && existsb (λ allowed, (allowed =s "*") || (allowed =s origin)) (sc_corsAllowedOrigins cfg)
  then [("Access-Control-Allow-Origin", origin); ("Vary", "Origin");
        ("Access-Control-Allow-Methods", "GET, POST, PUT, DELETE, OPTIONS");
        ("Access-Control-Allow-Headers", "Authorization, Content-Type"); ("Access-Control-Max-Age", "600")]
  else [].
Definition cors (next : Handler) : Handler := λ method r,
  let hs := cors_headers (Header r "Origin") in
  if method =s "OPTIONS" then mret (mkReply hs NoContent)
  else rp ← next method r; mret (with_headers hs rp).

Definition wrap (h : Handler) : Handler := securityHeaders (cors h).

(** ** The handlers of the file *)

Definition handleLiveness : M Srv Response := mret (HttpError StatusOK "ok").
Definition handleDIDDocument : M Srv Response :=
  mret (HttpError StatusNotFound "not configured — set local DID in config").

(** ** Routes *)

Inductive Segment := Lit (s : string) | Wild (name : string).
Inductive Middleware := Wrap | RateLimit | AuditLogged | Auth.
Record Route := mkRoute {
  rt_method : string; rt_path : list Segment; rt_middleware : list Middleware; rt_handler : string }.
#[export] Instance Middleware_eq_dec : EqDecision Middleware.
Proof. solve_decision. Defined.

Definition routes : list Route :=
  [
   mkRoute "POST" [Lit "didcomm"] [Wrap; RateLimit; AuditLogged] "handleDIDCommReceive";
   mkRoute "GET" [Lit ".well-known"; Lit "openid-configuration"] [Wrap; AuditLogged] "oidc.DiscoveryHandler";
   mkRoute "GET" [Lit ".well-known"; Lit "jwks.json"] [Wrap; AuditLogged] "oidc.JWKSHandler";
   mkRoute "GET" [Lit ".well-known"; Lit "did.json"] [Wrap; AuditLogged] "handleDIDDocument";
   mkRoute "GET" [Lit ".well-known"; Lit "webfinger"] [Wrap; RateLimit; AuditLogged] "oidc.WebFingerHandler";
   mkRoute "GET" [Lit ".well-known"; Lit "openid-credential-issuer"] [Wrap; AuditLogged] "oidc.CredentialIssuerMetadataHandler";
   mkRoute "GET" [Lit "authorize"] [Wrap; RateLimit; AuditLogged] "oidc.AuthorizeHandler";
   mkRoute "POST" [Lit "token"] [Wrap; RateLimit; AuditLogged] "oidc.TokenHandler";
   mkRoute "GET" [Lit "userinfo"] [Wrap; RateLimit; AuditLogged] "oidc.UserinfoHandler";
   mkRoute "POST" [Lit "oidc"; Lit "register"] [Wrap; RateLimit; AuditLogged] "oidc.RegisterClientHandler";
   mkRoute "POST" [Lit "oidc"; Lit "revoke"] [Wrap; RateLimit; AuditLogged] "oidc.RevokeHandler";
   mkRoute "POST" [Lit "oauth"; Lit "introspect"] [Wrap; RateLimit; AuditLogged] "oidc.IntrospectHandler";
   mkRoute "GET" [Lit "oidc"; Lit "logout"] [Wrap; RateLimit; AuditLogged] "oidc.LogoutHandler";
   mkRoute "POST" [Lit "oidc"; Lit "par"] [Wrap; RateLimit; AuditLogged] "oidc.PARHandler";
   mkRoute "POST" [Lit "oidc"; Lit "stepup"] [Wrap; RateLimit; AuditLogged] "oidc.StepUpHandler";
   mkRoute "POST" [Lit "device_authorization"] [Wrap; RateLimit; AuditLogged] "oidc.DeviceAuthorizationHandler";
   mkRoute "GET" [Lit "device"] [Wrap; RateLimit; AuditLogged] "oidc.DeviceVerifyHandler";
   mkRoute "POST" [Lit "device"; Lit "approve"] [Wrap; RateLimit; AuditLogged] "oidc.DeviceApproveHandler";
   mkRoute "POST" [Lit "oid4vci"; Lit "offers"] [Wrap; RateLimit; AuditLogged; Auth] "oidc.CreateCredentialOfferHandler";
   mkRoute "POST" [Lit "oid4vci"; Lit "credential"] [Wrap; RateLimit; AuditLogged] "oidc.CredentialHandler";
   mkRoute "POST" [Lit "oid4vp"; Lit "requests"] [Wrap; RateLimit; AuditLogged; Auth] "oid4vp.CreateRequestHandler";
   mkRoute "GET" [Lit "oid4vp"; Lit "requests"; Wild "id"] [Wrap; RateLimit; AuditLogged] "oid4vp.GetRequestHandler";
   mkRoute "POST" [Lit "oid4vp"; Lit "responses"] [Wrap; RateLimit; AuditLogged] "oid4vp.PostResponseHandler";
   mkRoute "GET" [Lit "oid4vp"; Lit "responses"; Wild "id"] [Wrap; RateLimit; AuditLogged] "oid4vp.GetResponseHandler";
   mkRoute "GET" [Lit "healthz"] [] "handleLiveness";
   mkRoute "GET" [Lit "readyz"] [] "handleReadiness";
   mkRoute "GET" [Lit "metrics"] [Wrap; Auth] "MetricsHandler";
   mkRoute "GET" [Lit "api"; Lit "v1"; Lit "status"; Wild "listId"] [Wrap; AuditLogged] "handleStatusList";
   mkRoute "GET" [Lit "auth"; Wild "provider"] [Wrap; RateLimit; AuditLogged] "handleBridgeStart";
   mkRoute "GET" [Lit "auth"; Wild "provider"; Lit "callback"] [Wrap; RateLimit; AuditLogged] "handleBridgeCallback";
   mkRoute "GET" [Lit "auth"; Wild "provider"; Lit "metadata"] [Wrap; AuditLogged] "handleSAMLMetadata";
   mkRoute "POST" [Lit "auth"; Wild "provider"; Lit "acs"] [Wrap; RateLimit; AuditLogged] "handleSAMLACS";
   mkRoute "POST" [Lit "auth"; Lit "password"] [Wrap; RateLimit; AuditLogged] "handlePasswordAuth";
   mkRoute "POST" [Lit "auth"; Lit "magiclink"; Lit "request"] [Wrap; RateLimit; AuditLogged] "handleMagicLinkRequest";
   mkRoute "GET" [Lit "auth"; Lit "magiclink"; Lit "verify"] [Wrap; RateLimit; AuditLogged] "handleMagicLinkVerify";
   mkRoute "POST" [Lit "auth"; Lit "password"; Lit "change"] [Wrap; RateLimit; AuditLogged] "handlePasswordChange";
   mkRoute "POST" [Lit "auth"; Lit "password"; Lit "reset"; Lit "request"] [Wrap; RateLimit; AuditLogged] "handlePasswordResetRequest";
   mkRoute "POST" [Lit "auth"; Lit "password"; Lit "reset"; Lit "confirm"] [Wrap; RateLimit; AuditLogged] "handlePasswordResetConfirm";
   mkRoute "POST" [Lit "api"; Lit "v1"; Lit "identities"] [Wrap; RateLimit; AuditLogged; Auth] "handleCreateIdentity";
   mkRoute "GET" [Lit "api"; Lit "v1"; Lit "identities"; Wild "did"] [Wrap; RateLimit; AuditLogged; Auth] "handleGetIdentity";
   mkRoute "POST" [Lit "api"; Lit "v1"; Lit "credentials"] [Wrap; RateLimit; AuditLogged; Auth] "handleIssueCredential";
   mkRoute "POST" [Lit "api"; Lit "v1"; Lit "credentials"; Lit "verify"] [Wrap; RateLimit; AuditLogged; Auth] "handleVerifyCredential";
   mkRoute "GET" [Lit "api"; Lit "v1"; Lit "credentials"] [Wrap; RateLimit; AuditLogged; Auth] "handleListCredentials";
   mkRoute "DELETE" [Lit "api"; Lit "v1"; Lit "credentials"; Wild "id"] [Wrap; RateLimit; AuditLogged; Auth] "handleDeleteCredential";
   mkRoute "POST" [Lit "api"; Lit "v1"; Lit "credentials"; Lit "sd-jwt"] [Wrap; RateLimit; AuditLogged; Auth] "handleIssueSDJWT";
   mkRoute "POST" [Lit "api"; Lit "v1"; Lit "credentials"; Lit "sd-jwt"; Lit "verify"] [Wrap; RateLimit; AuditLogged; Auth] "handleVerifySDJWT";
   mkRoute "POST" [Lit "api"; Lit "v1"; Lit "credentials"; Lit "sd-jwt"; Lit "present"] [Wrap; RateLimit; AuditLogged] "handleSDJWTPresentWithWatermark";
   mkRoute "POST" [Lit "api"; Lit "v1"; Lit "credentials"; Lit "batch"] [Wrap; RateLimit; AuditLogged; Auth] "handleBatchIssueCredentials";
   mkRoute "GET" [Lit "api"; Lit "v1"; Lit "credentials"; Wild "id"; Lit "fresh"] [Wrap; RateLimit; AuditLogged] "handleCredentialFreshness";
   mkRoute "POST" [Lit "api"; Lit "v1"; Lit "credentials"; Lit "zkp"; Lit "age"] [Wrap; RateLimit; AuditLogged; Auth] "handleIssueAgeProof";
   mkRoute "GET" [Lit "api"; Lit "v1"; Lit "consents"; Lit "grants"] [Wrap; RateLimit; AuditLogged; Auth] "handleListGrants";
   mkRoute "POST" [Lit "api"; Lit "v1"; Lit "consents"; Lit "grants"] [Wrap; RateLimit; AuditLogged; Auth] "handleCreateGrant";
   mkRoute "DELETE" [Lit "api"; Lit "v1"; Lit "consents"; Lit "grants"; Wild "id"] [Wrap; RateLimit; AuditLogged; Auth] "handleRevokeGrant";
   mkRoute "GET" [Lit "api"; Lit "v1"; Lit "consents"; Lit "receipts"] [Wrap; RateLimit; AuditLogged; Auth] "handleListReceipts";
   mkRoute "POST" [Lit "api"; Lit "v1"; Lit "consents"; Lit "receipts"] [Wrap; RateLimit; AuditLogged; Auth] "handleSubmitReceipt";
   mkRoute "DELETE" [Lit "api"; Lit "v1"; Lit "sessions"; Wild "id"] [Wrap; RateLimit; AuditLogged; Auth] "handleDeleteSession";
   mkRoute "GET" [Lit "api"; Lit "v1"; Lit "schemas"] [Wrap; RateLimit; AuditLogged; Auth] "handleListSchemas";
   mkRoute "GET" [Lit "api"; Lit "v1"; Lit "me"] [Wrap; RateLimit; AuditLogged] "handleGetMe";
   mkRoute "GET" [Lit "api"; Lit "v1"; Lit "me"; Lit "export"] [Wrap; RateLimit; AuditLogged] "handleExportMe";
   mkRoute "GET" [Lit "api"; Lit "v1"; Lit "me"; Lit "sessions"] [Wrap; RateLimit; AuditLogged] "handleListMySessions";
   mkRoute "DELETE" [Lit "api"; Lit "v1"; Lit "me"; Lit "sessions"; Wild "id"] [Wrap; RateLimit; AuditLogged] "handleRevokeMySession";
   mkRoute "GET" [Lit "api"; Lit "v1"; Lit "me"; Lit "links"] [Wrap; RateLimit; AuditLogged] "handleListLinks";
   mkRoute "DELETE" [Lit "api"; Lit "v1"; Lit "me"; Lit "links"; Wild "provider"] [Wrap; RateLimit; AuditLogged] "handleUnlink";
   mkRoute "POST" [Lit "api"; Lit "v1"; Lit "me"; Lit "totp"; Lit "enrol"] [Wrap; RateLimit; AuditLogged] "handleTOTPEnrol";
   mkRoute "POST" [Lit "api"; Lit "v1"; Lit "me"; Lit "totp"; Lit "verify"] [Wrap; RateLimit; AuditLogged] "handleTOTPVerify";
   mkRoute "DELETE" [Lit "api"; Lit "v1"; Lit "me"; Lit "totp"] [Wrap; RateLimit; AuditLogged] "handleTOTPUnenrol";
   mkRoute "POST" [Lit "api"; Lit "v1"; Lit "me"; Lit "duress"; Lit "enrol"] [Wrap; RateLimit; AuditLogged] "handleDuressEnrol";
   mkRoute "DELETE" [Lit "api"; Lit "v1"; Lit "me"; Lit "duress"] [Wrap; RateLimit; AuditLogged] "handleDuressRemove";
   mkRoute "GET" [Lit "api"; Lit "v1"; Lit "me"; Lit "privacy-budget"] [Wrap; RateLimit; AuditLogged] "handleGetPrivacyBudget";
   mkRoute "POST" [Lit "api"; Lit "v1"; Lit "me"; Lit "privacy-budget"; Lit "record"] [Wrap; RateLimit; AuditLogged] "handleRecordDisclosure";
   mkRoute "POST" [Lit "api"; Lit "v1"; Lit "webhooks"] [Wrap; RateLimit; AuditLogged; Auth] "handleRegisterWebhook";
   mkRoute "GET" [Lit "api"; Lit "v1"; Lit "webhooks"] [Wrap; RateLimit; AuditLogged; Auth] "handleListWebhooks";
   mkRoute "DELETE" [Lit "api"; Lit "v1"; Lit "webhooks"; Wild "id"] [Wrap; RateLimit; AuditLogged; Auth] "handleDeleteWebhook";
   mkRoute "POST" [Lit "api"; Lit "v1"; Lit "webhooks"; Wild "id"; Lit "test"] [Wrap; RateLimit; AuditLogged; Auth] "handleTestWebhook";
   mkRoute "GET" [Lit "api"; Lit "v1"; Lit "audit-log"] [Wrap; RateLimit; AuditLogged; Auth] "handleListAuditLog";
   mkRoute "GET" [Lit "api"; Lit "v1"; Lit "audit-log"; Lit "proof"; Wild "seq"] [Wrap; RateLimit; AuditLogged; Auth] "handleAuditProof";
   mkRoute "GET" [Lit "api"; Lit "v1"; Lit "marketplace"] [Wrap; RateLimit; AuditLogged] "handleListMarketplace";
   mkRoute "POST" [Lit "api"; Lit "v1"; Lit "me"; Lit "recovery"; Lit "enrol"] [Wrap; RateLimit; AuditLogged] "handleRecoveryEnrol";
   mkRoute "GET" [Lit "api"; Lit "v1"; Lit "me"; Lit "recovery"] [Wrap; RateLimit; AuditLogged] "handleGetRecoveryConfig";
   mkRoute "POST" [Lit "api"; Lit "v1"; Lit "recovery"; Wild "id"; Lit "approve"] [Wrap; RateLimit; AuditLogged] "handleRecoveryApprove";
   mkRoute "POST" [Lit "api"; Lit "v1"; Lit "recovery"; Lit "initiate"] [Wrap; RateLimit; AuditLogged] "handleRecoveryInitiate";
   mkRoute "GET" [Lit "api"; Lit "v1"; Lit "recovery"; Wild "id"] [Wrap; RateLimit; AuditLogged] "handleGetRecovery";
   mkRoute "POST" [Lit "api"; Lit "v1"; Lit "presentations"; Lit "request"] [Wrap; RateLimit; AuditLogged; Auth] "handleCreatePresentationRequest";
   mkRoute "POST" [Lit "api"; Lit "v1"; Lit "presentations"; Lit "submit"] [Wrap; RateLimit; AuditLogged; Auth] "handleSubmitPresentation";
   mkRoute "GET" [Lit "admin"; Lit "v1"; Lit "identities"] [Wrap; RateLimit; AuditLogged; Auth] "handleAdminListIdentities";
   mkRoute "POST" [Lit "admin"; Lit "v1"; Lit "identities"; Wild "did"; Lit "suspend"] [Wrap; RateLimit; AuditLogged; Auth] "handleAdminSuspendIdentity";
   mkRoute "POST" [Lit "admin"; Lit "v1"; Lit "identities"; Wild "did"; Lit "unsuspend"] [Wrap; RateLimit; AuditLogged; Auth] "handleAdminUnsuspendIdentity";
   mkRoute "DELETE" [Lit "admin"; Lit "v1"; Lit "identities"; Wild "did"] [Wrap; RateLimit; AuditLogged; Auth] "handleAdminDeleteIdentity";
   mkRoute "GET" [Lit "admin"; Lit "v1"; Lit "clients"] [Wrap; RateLimit; AuditLogged; Auth] "handleAdminListClients";
   mkRoute "DELETE" [Lit "admin"; Lit "v1"; Lit "clients"; Wild "id"] [Wrap; RateLimit; AuditLogged; Auth] "handleAdminDeleteClient";
   mkRoute "POST" [Lit "admin"; Lit "v1"; Lit "lockout"; Wild "subject"; Lit "clear"] [Wrap; RateLimit; AuditLogged; Auth] "handleAdminClearLockout";
   mkRoute "GET" [Lit "admin"; Lit "v1"; Lit "stats"] [Wrap; RateLimit; AuditLogged; Auth] "handleAdminStats";
   mkRoute "POST" [Lit "api"; Lit "v1"; Lit "me"; Lit "webauthn"; Lit "register"; Lit "begin"] [Wrap; RateLimit; AuditLogged] "handleWebAuthnRegisterBegin";
   mkRoute "POST" [Lit "api"; Lit "v1"; Lit "me"; Lit "webauthn"; Lit "register"; Lit "finish"] [Wrap; RateLimit; AuditLogged] "handleWebAuthnRegisterFinish";
   mkRoute "POST" [Lit "api"; Lit "v1"; Lit "webauthn"; Lit "login"; Lit "begin"] [Wrap; RateLimit; AuditLogged] "handleWebAuthnLoginBegin";
   mkRoute "POST" [Lit "api"; Lit "v1"; Lit "webauthn"; Lit "login"; Lit "finish"] [Wrap; RateLimit; AuditLogged] "handleWebAuthnLoginFinish";
   mkRoute "GET" [Lit "api"; Lit "v1"; Lit "me"; Lit "webauthn"; Lit "credentials"] [Wrap; RateLimit; AuditLogged] "handleListWebAuthnCredentials";
   mkRoute "DELETE" [Lit "api"; Lit "v1"; Lit "me"; Lit "webauthn"; Lit "credentials"; Wild "id"] [Wrap; RateLimit; AuditLogged] "handleDeleteWebAuthnCredential"].

Definition apply_middleware (m : Middleware) : Handler → Handler :=
  match m with Wrap => wrap | RateLimit => rateLimit | AuditLogged => audit | Auth => auth end.
Definition serve_route (handlers : string → Request → M Srv Response) (rt : Route) : Handler :=
  foldr apply_middleware (λ _ r, resp ← lift (handlers (rt_handler rt) r); mret (plain resp)) (rt_middleware rt).

(** ** http.ServeMux *)

Definition seg_matches (s : Segment) (p : string) : bool :=
  match s with Lit l => l =s p | Wild _ => true end.
Fixpoint path_matches (pat : list Segment) (path : list string) : bool :=
  match pat, path with
  | [], [] => true
  | s :: pat', p :: path' => seg_matches s p && path_matches pat' path'
  | _, _ => false
  end.
(** A GET pattern serves HEAD too. *)
Definition method_matches (pat method : string) : bool :=
  (pat =s method) || ((pat =s "GET") && (method =s "HEAD")).
(** The more specific of two patterns that match one path: literals beat wildcards. *)
Fixpoint more_specific (p q : list Segment) : bool :=
  match p, q with
  | Lit _ :: p', _ :: q' | Wild _ :: p', Wild _ :: q' => more_specific p' q'
  | Wild _ :: _, Lit _ :: _ => false
  | _, _ => true
  end.
Definition best_match (rts : list Route) : option Route :=
  find (λ rt, forallb (λ rt', more_specific (rt_path rt) (rt_path rt')) rts) rts.
Fixpoint path_values (pat : list Segment) (path : list string) : list (string * string) :=
  match pat, path with
  | Lit _ :: pat', _ :: path' => path_values pat' path'
  | Wild n :: pat', p :: path' => (n, p) :: path_values pat' path'
  | _, _ => []
  end.
Definition set_path (vs : list (string * string)) (r : Request) : Request :=
  mkRequest (rq_query r) (rq_form r) (rq_header r) (rq_basic r) vs (rq_remote r) (rq_body r).

(** The segments of a cleaned path. *)
Definition ServeHTTP (handlers : string → Request → M Srv Response) (method : string) (path : list string)
    (r : Request) : M St Reply :=
  let here := filter (λ rt, path_matches (rt_path rt) path = true) routes in
  match best_match (filter (λ rt, method_matches (rt_method rt) method = true) here) with
  | Some rt => serve_route handlers rt method (set_path (path_values (rt_path rt) path) r)
  | None =>
      match here with
      | [] => mret (plain (HttpError StatusNotFound "404 page not found"))
      | _ => mret (plain (HttpError 405 "Method Not Allowed"))
      end
  end.
End Server.
End ApiServer.
