(* ===== verification/ApiServerProofs.v ===== *)
(** * Properties of the HTTP server

    [RateLimits]: the rate limiter never admits more than its burst plus its rate, up
    to the rounding of float64, eviction of idle buckets included.  Then the routes
    never conflict; the documented routes need the API key, those of recovery
    excepted; and which branches of the middleware no request reaches. *)

From Stdlib Require QArith Lqa.
From S2P Require Import Prelude GoStd GoTime Binary64 World Json JsonValue Base64 Sha Http Consent StoreTypes Store StoreAuth Logic StoreInv Did GoNet Jwt Provider ProviderProofs ApiServer.
Import JsonValue Http Types Store StoreAuth StoreInv Provider ProviderProofs ApiServer.

Module RateLimits.
Import QArith Lqa SpecFloat GoDuration Binary64 ApiServer.

(** What happens to a limiter: a request from an address, with the two clock
    readings of [Allow], and a run of the eviction goroutine, whose clock reading
    is taken before it holds the lock. *)
Inductive LimiterOp :=
  | OpAllow (ip : string) (now0 now : Z)
  | OpEvict (now : Z).

Definition limiter_step (op : LimiterOp) (l : ipRateLimiter) : ipRateLimiter :=
  match op with
  | OpAllow ip now0 now => snd (Allow ip now0 now l)
  | OpEvict now => evict now l
  end.
Definition limiter_run (ops : list LimiterOp) (l : ipRateLimiter) : ipRateLimiter :=
  foldl (λ l op, limiter_step op l) l ops.
(** How many requests of [ip] are let through, and how many it sends. *)
Fixpoint admitted (ip : string) (ops : list LimiterOp) (l : ipRateLimiter) : Z :=
  match ops with
  | [] => 0
  | op :: ops' =>
      (match op with
       | OpAllow ip' now0 now => if (ip' =s ip) && fst (Allow ip' now0 now l) then 1 else 0
       | OpEvict _ => 0
       end + admitted ip ops' (limiter_step op l))%Z
  end.
Fixpoint sent (ip : string) (ops : list LimiterOp) : Z :=
  match ops with
  | [] => 0
  | op :: ops' => (match op with OpAllow ip' _ _ => if ip' =s ip then 1 else 0 | OpEvict _ => 0 end + sent ip ops')%Z
  end.
(** The operations happen between [t0] and [t1], and the clock never runs backwards. *)
Fixpoint timed (t0 t1 : Z) (ops : list LimiterOp) : Prop :=
  match ops with
  | [] => (t0 ≤ t1)%Z
  | OpAllow _ now0 now :: ops' => (t0 ≤ now0 ≤ now)%Z ∧ timed now t1 ops'
  | OpEvict now :: ops' => timed (Z.max t0 now) t1 ops'
  end.

Lemma timed_le t0 t1 ops : timed t0 t1 ops → (t0 ≤ t1)%Z.
Proof.
  revert t0. induction ops as [|[ip n0 n|n] ops IH]; intros t0; simpl; [done| |].
  - intros [? ?%IH]. lia.
  - intros ?%IH. lia.
Qed.
Lemma sent_pos ip ops : (0 ≤ sent ip ops)%Z.
Proof. induction ops as [|[ip' n0 n|n] ops IH]; cbn [sent]; [done| |lia]. destruct (ip' =s ip); lia. Qed.

(** A time in nanoseconds, in seconds. *)
Definition secs (d : Z) : Q := inject_Z d / 1000000000.
Lemma secs_mono a b : (a ≤ b)%Z → secs a <= secs b.
Proof. intros H. unfold secs. rewrite Zle_Qle in H. apply Qmult_le_compat_r; [done|]. vm_compute. discriminate. Qed.
Lemma secs_add a b : secs (a + b) == secs a + secs b.
Proof. unfold secs. rewrite inject_Z_plus. field. Qed.

Lemma secs_pos d : (0 ≤ d)%Z → 0 <= secs d.
Proof. intros H%secs_mono. assert (secs 0 == 0) by reflexivity. lra. Qed.

(** ** One bucket

    The limiter's rate and capacity have the values [r] and [c], and the rate refills
    a bucket within the ten minutes of its eviction. *)
Section Bucket.
Context (rate : float64) (capacity : Z) (r c : Q).
Context (Hrate : upto rate r) (Hr : r <= p2 40).
Context (Hcap : upto (float64_of capacity) c) (Hc : c <= p2 42) (Hfill : c <= 600 * r).

(** The rate with the rounding of its product, and the rounding of one request. *)
Definition rho : Q := r * (1 + 8 * eps).
Definition slack : Q := 2 * eps * (c + 1).

Lemma rate_pos : 0 <= r.
Proof. exact (upto_pos _ _ Hrate). Qed.
Lemma cap_pos : 0 <= c.
Proof. exact (upto_pos _ _ Hcap). Qed.

(** The tokens of [d] nanoseconds. *)
Lemma product_upto d :
  (0 ≤ d < 2 ^ 63)%Z → upto (fmul (Seconds d) rate) (rnd ((secs d * (1 + 4 * eps) + 5 * tiny) * r)).
Proof.
  intros Hd. pose proof rate_pos as Hr0. pose proof tiny_eps as Ht. pose proof tiny_pos as Ht0.
  assert (secs d <= p2 40) as Hs.
  { apply Qle_trans with (secs (2 ^ 63)); [apply secs_mono; lia|]. by vm_compute. }
  assert (0 <= secs d) as Hs0 by (apply secs_pos; lia).
  pose proof (Seconds_upto d ltac:(lia)) as HS. fold (secs d) in HS.
  assert (p2 40 == 1099511627776) as E40 by reflexivity. rewrite E40 in *.
  assert (p2 100 == 1267650600228229401496703205376) as E100 by reflexivity.
  apply fmul_upto; [exact HS|exact Hrate| |]; (eapply Qle_lt_trans; [apply rnd_above|apply rnd_finite]);
    rewrite ?E100, ?eps_eq in *; nra.
Qed.
(** The refill of a bucket that was used [d] nanoseconds ago. *)
Lemma refill_upto tokens T d d' :
  upto tokens T → T <= c → (0 ≤ d ≤ d')%Z → (d < 2 ^ 63)%Z →
  upto (fadd tokens (fmul (Seconds d) rate)) (T + secs d' * rho + eps * (c + 1)).
Proof.
  intros HT HTc Hd Hd63. pose proof rate_pos as Hr0. pose proof (upto_pos _ _ HT) as HT0.
  pose proof tiny_eps as Ht. pose proof tiny_pos as Ht0.
  assert (secs d <= secs d') as Hs' by (apply secs_mono; lia).
  assert (0 <= secs d) as Hs0 by (apply secs_pos; lia).
  eapply upto_le; [apply (fadd_upto _ _ _ _ HT (product_upto d ltac:(lia)))|]. clear Hcap Hrate HT.
  set (x := secs d) in *. set (x' := secs d') in *. clearbody x x'.
  assert (p2 40 == 1099511627776) as E40 by reflexivity. rewrite E40 in *. unfold rnd, rho.
  set (s := x * (1 + 4 * eps) + 5 * tiny) in *.
  assert (s * r <= x * r * (1 + 4 * eps) + eps * eps) as Hsr by (subst s; rewrite eps_eq in *; nra).
  assert (0 <= x * r <= x' * r) as [Hxr Hxr'] by (split; nra).
  set (k := x * r) in *. set (k' := x' * r) in *.
  assert (x' * (r * (1 + 8 * eps)) == k' * (1 + 8 * eps)) as -> by (subst k'; ring).
  set (v := s * r) in *. clearbody k k' v. clear s Hs' Hs0.
  assert (T * eps <= c * eps) by (rewrite eps_eq; lra). rewrite eps_eq in *. lra.
Qed.

(** The bucket is never over its capacity, and no more than the sum. *)
Lemma clamp_upto sum q0 :
  upto sum q0 →
  let t := if fltb (float64_of capacity) sum then float64_of capacity else sum in
  upto t c ∧ ∀ q, upto sum q → upto t q.
Proof.
  intros Hs t. subst t. destruct (fltb _ sum) eqn:E.
  - split; [done|]. intros q Hq. exact (fltb_true _ _ _ _ E Hcap Hq).
  - split; [exact (fltb_false _ _ _ _ E Hcap Hs)|done].
Qed.
Lemma spend_upto t a :
  upto t a → a <= c → fltb t (float64_of 1) = false →
  upto (fsub t (float64_of 1)) (a - 1 + eps * (c + 1)) ∧ a - 1 + eps * (c + 1) <= c.
Proof.
  intros Ht Ha E. destruct one as (m & e & E1 & V1 & U1). rewrite E1 in *.
  pose proof tiny_eps as Hte. assert (p2 42 == 4398046511104) as E42 by reflexivity. rewrite E42 in Hc.
  pose proof cap_pos as Hc0. split; [|rewrite eps_eq; lra].
  eapply upto_le; [apply (fsub_upto t m e a Ht)|].
  - eapply Qle_lt_trans; [apply (rnd_above a); exact (upto_pos _ _ Ht)|apply rnd_finite].
    assert (p2 42 <= p2 100) by (by apply p2_le). lra.
  - intros q Hq. pose proof (fltb_false _ _ _ _ E Hq U1) as H1. rewrite V1.
    destruct H1 as (_ & _ & H1). lra.
  - unfold rnd. rewrite V1. rewrite eps_eq in *. lra.
Qed.

(** ** The limiter *)

Definition limiter_ok (t : Z) (l : ipRateLimiter) : Prop :=
  l_rate l = rate ∧ l_capacity l = capacity ∧
  ∀ ip b, l_buckets l !! ip = Some b → upto (b_tokens b) c ∧ (b_lastSeen b ≤ t)%Z.
(** What an address can spend at [t] is at most [L]. *)
Definition level_le (ip : string) (t : Z) (l : ipRateLimiter) (L : Q) : Prop :=
  c <= L ∨ ∃ b T, l_buckets l !! ip = Some b ∧ upto (b_tokens b) T ∧ T <= c ∧ T + secs (t - b_lastSeen b) * rho <= L.

Lemma rho_pos : 0 <= rho.
Proof. pose proof rate_pos. unfold rho. rewrite eps_eq. lra. Qed.
Lemma level_mono ip t l L L' : level_le ip t l L → L <= L' → level_le ip t l L'.
Proof. intros [H|(b & T & ? & ? & ? & ?)] HL; [left; lra|right; exists b, T; split_and!; try done; lra]. Qed.
Lemma level_later ip t t' l L :
  (t ≤ t')%Z → level_le ip t l L → level_le ip t' l (L + secs (t' - t) * rho).
Proof.
  intros Ht. pose proof rho_pos. pose proof (secs_pos (t' - t) ltac:(lia)). intros [HL|(b & T & E & HT & HTc & HL)].
  - left. nra.
  - right. exists b, T. split_and!; try done.
    replace (t' - b_lastSeen b)%Z with ((t - b_lastSeen b) + (t' - t))%Z by lia. rewrite secs_add. lra.
Qed.
Lemma level_pos ip t l L : limiter_ok t l → level_le ip t l L → 0 <= L.
Proof.
  intros (_ & _ & Hb) [HL|(b & T & E & HT & _ & HL)]; [pose proof cap_pos; lra|].
  destruct (Hb _ _ E). pose proof rho_pos. pose proof (secs_pos (t - b_lastSeen b) ltac:(lia)).
  pose proof (upto_pos _ _ HT). nra.
Qed.

Lemma slack_pos : 0 <= slack.
Proof. pose proof cap_pos. unfold slack. rewrite eps_eq. lra. Qed.

(** The bucket after a request of its address. *)
Lemma Allow_bucket b now L :
  upto (b_tokens b) c → (b_lastSeen b ≤ now)%Z →
  (c <= L ∨ ∃ T, upto (b_tokens b) T ∧ T <= c ∧ T + secs (now - b_lastSeen b) * rho <= L) →
  let sum := fadd (b_tokens b) (fmul (Seconds (Sub now (b_lastSeen b))) rate) in
  let t := if fltb (float64_of capacity) sum then float64_of capacity else sum in
  upto t c ∧ (c <= L ∨ upto t (L + eps * (c + 1))).
Proof.
  intros Hb Hle HL sum t.
  assert (0 ≤ Sub now (b_lastSeen b) ≤ now - b_lastSeen b)%Z as Hd by (unfold Sub; lia).
  assert (Sub now (b_lastSeen b) < 2 ^ 63)%Z as Hd63 by (unfold Sub; lia).
  destruct (clamp_upto sum _ (refill_upto _ _ _ _ Hb ltac:(lra) Hd Hd63)) as [Hc1 Hq].
  split; [exact Hc1|]. destruct HL as [HL|(T & HT & HTc & HL)]; [by left|right].
  apply Hq. eapply upto_le; [exact (refill_upto _ _ _ _ HT HTc Hd Hd63)|lra].
Qed.
Lemma Allow_level ip now0 now l t L :
  limiter_ok t l → (t ≤ now0 ≤ now)%Z → level_le ip now l L →
  limiter_ok now (snd (Allow ip now0 now l)) ∧
  level_le ip now (snd (Allow ip now0 now l)) (L + slack - if fst (Allow ip now0 now l) then 1 else 0).
Proof.
  intros (Er & Ec & Hb) Ht HL. unfold Allow. rewrite Er, Ec.
  set (b := default (mkBucket (float64_of capacity) now0) (l_buckets l !! ip)).
  assert (upto (b_tokens b) c ∧ (b_lastSeen b ≤ now)%Z) as [Hbc Hbl].
  { subst b. destruct (l_buckets l !! ip) as [b|] eqn:E; cbn; [destruct (Hb _ _ E); split; [done|lia]|split; [done|lia]]. }
  assert (c <= L ∨ ∃ T, upto (b_tokens b) T ∧ T <= c ∧ T + secs (now - b_lastSeen b) * rho <= L) as HL'.
  { destruct HL as [HL|(b' & T & E & HT)]; [by left|right]. exists T. subst b. rewrite E. exact HT. }
  pose proof (Allow_bucket b now L Hbc Hbl HL') as [Htc HtL]. cbn beta zeta in Htc, HtL.
  set (tk := if fltb _ _ then _ else _) in *. clearbody tk. pose proof cap_pos. clear HL' Hbc.
  assert (∃ a, upto tk a ∧ a <= c ∧ a <= L + eps * (c + 1)) as (a & Ha & Hac & HaL).
  { destruct HtL as [HtL|HtL]; [exists c; split_and!; [done|lra|rewrite eps_eq; lra]|].
    destruct (Qlt_le_dec c (L + eps * (c + 1))); [exists c; split_and!; [done|lra|lra]|].
    exists (L + eps * (c + 1)). split_and!; [done|lra|lra]. }
  assert (∀ T tk', upto tk' T → T <= c → ∀ L', T <= L' →
    limiter_ok now (mkLimiter (<[ip := mkBucket tk' now]> (l_buckets l)) rate capacity) ∧
    level_le ip now (mkLimiter (<[ip := mkBucket tk' now]> (l_buckets l)) rate capacity) L') as Hnew.
  { intros T tk' HT HTc L' HTL. split.
    - split; [done|]. split; [done|]. cbn [l_buckets]. intros ip' b'.
      destruct (decide (ip = ip')) as [<-|Hne].
      + rewrite lookup_insert_eq. intros [= <-]. cbn. split; [exact (upto_le _ _ _ HT HTc)|lia].
      + rewrite lookup_insert_ne by done. intros Hb'. destruct (Hb _ _ Hb'). split; [done|lia].
    - right. exists (mkBucket tk' now), T. cbn [l_buckets b_tokens b_lastSeen]. rewrite lookup_insert_eq, Z.sub_diag.
      split_and!; try done. assert (secs 0 == 0) as -> by reflexivity. lra. }
  destruct (fltb tk (float64_of 1)) eqn:E; cbn [negb fst snd].
  - apply (Hnew a); [done|done|]. unfold slack. rewrite eps_eq in *. lra.
  - destruct (spend_upto tk a Ha Hac E) as [Hs Hsc]. apply (Hnew _ _ Hs Hsc). unfold slack. rewrite eps_eq in *. lra.
Qed.
Lemma Allow_other ip ip' now0 now l t L :
  ip' ≠ ip → level_le ip t l L → level_le ip t (snd (Allow ip' now0 now l)) L.
Proof.
  intros Hne [HL|(b & T & E & HT)]; [by left|right]. exists b, T. split; [|done].
  cbn [Allow snd l_buckets]. by rewrite lookup_insert_ne.
Qed.

(** Eviction is invisible: the bucket it drops would have been full. *)
Lemma evict_level ip now t l L :
  level_le ip (Z.max t now) l L → level_le ip (Z.max t now) (evict now l) L.
Proof.
  intros [HL|(b & T & E & HT & HTc & HL)]; [by left|].
  destruct (decide (b_lastSeen b < now - 10 * minute)%Z) as [Hlt|Hge].
  - left. pose proof rate_pos as Hr0. pose proof (upto_pos _ _ HT).
    assert (secs (600 * 1000000000) <= secs (Z.max t now - b_lastSeen b)) as Hs.
    { apply secs_mono. unfold minute, second in *. lia. }
    assert (secs (600 * 1000000000) == 600) as E6 by reflexivity.
    assert (0 <= r * (8 * eps)) by (rewrite eps_eq; lra).
    assert (600 * rho <= secs (Z.max t now - b_lastSeen b) * rho) by (pose proof rho_pos; nra).
    unfold rho in *. lra.
  - right. exists b, T. split; [|done]. cbn [evict l_buckets]. by apply map_lookup_filter_Some.
Qed.
Lemma evict_ok now t l : limiter_ok t l → limiter_ok (Z.max t now) (evict now l).
Proof.
  intros (? & ? & Hb). split; [done|]. split; [done|]. cbn [evict l_buckets].
  intros ip b [E _]%map_lookup_filter_Some. destruct (Hb _ _ E). split; [done|lia].
Qed.

(** Over a run, what is let through was there at the start or came in. *)
Lemma admitted_level ip ops t0 t1 l L :
  limiter_ok t0 l → timed t0 t1 ops → level_le ip t0 l L →
  limiter_ok t1 (limiter_run ops l) ∧
  inject_Z (admitted ip ops l) <= L + secs (t1 - t0) * rho + inject_Z (sent ip ops) * slack.
Proof.
  revert t0 l L. induction ops as [|[ip' n0 n|n] ops IH]; intros t0 l L Hok; cbn [timed admitted sent].
  - intros Ht HL. split.
    + destruct Hok as (? & ? & Hb). split_and!; try done. intros ip' b E. destruct (Hb _ _ E). split; [done|lia].
    + pose proof (level_pos _ _ _ _ Hok HL). pose proof rho_pos. pose proof (secs_pos (t1 - t0) ltac:(lia)).
      change (inject_Z 0) with 0. nra.
  - intros [Ht Hops] HL. apply (level_later ip t0 n) in HL; [|lia].
    assert (secs (t1 - t0) == secs (n - t0) + secs (t1 - n)) as ->.
    { rewrite <-secs_add. by replace (t1 - t0)%Z with (n - t0 + (t1 - n))%Z by lia. }
    change (limiter_run (OpAllow ip' n0 n :: ops) l) with (limiter_run ops (snd (Allow ip' n0 n l))).
    cbn [limiter_step]. rewrite !inject_Z_plus. destruct (String.eqb_spec ip' ip) as [->|Hne]; cbn [andb].
    + destruct (Allow_level ip n0 n l t0 _ Hok Ht HL) as [Hok' HL'].
      destruct (IH _ _ _ Hok' Hops HL') as [Hfin Hle]. split; [exact Hfin|].
      destruct (fst (Allow ip n0 n l)); change (inject_Z 1) with 1; change (inject_Z 0) with 0; lra.
    + assert (limiter_ok n (snd (Allow ip' n0 n l))) as Hok'.
      { apply (Allow_level ip' n0 n l t0 c Hok Ht). left. lra. }
      destruct (IH _ _ _ Hok' Hops (Allow_other _ _ _ _ _ _ _ Hne HL)) as [Hfin Hle]. split; [exact Hfin|].
      change (inject_Z 0) with 0. lra.
  - intros Hops HL. apply (level_later ip t0 (Z.max t0 n)) in HL; [|lia].
    change (limiter_run (OpEvict n :: ops) l) with (limiter_run ops (evict n l)). cbn [limiter_step].
    destruct (IH _ _ _ (evict_ok n t0 l Hok) Hops (evict_level ip n t0 l _ HL)) as [Hfin Hle]. split; [exact Hfin|].
    assert (secs (t1 - t0) == secs (Z.max t0 n - t0) + secs (t1 - Z.max t0 n)) as ->.
    { rewrite <-secs_add. by replace (t1 - t0)%Z with (Z.max t0 n - t0 + (t1 - Z.max t0 n))%Z by lia. }
    rewrite !inject_Z_plus. change (inject_Z 0) with 0. lra.
Qed.
End Bucket.

(** ** The server's limiter *)

(** A rate that can be configured: none, or a positive number of requests a second up
    to 2^40; and its value, fifty when there is none. *)
Definition configured (rateLimit : float64) : Prop :=
  match rateLimit with
  | S754_zero _ => True
  | S754_finite false m e => bounded 53 1024 m e = true ∧ val (Zpos m) e <= p2 40
  | _ => False
  end.
Definition requests_per_second (rateLimit : float64) : Q :=
  match rateLimit with S754_finite false m e => val (Zpos m) e | _ => 50 end.

Lemma configured_upto rateLimit :
  configured rateLimit →
  let rate := if feqb rateLimit (float64_of 0) then float64_of 50 else rateLimit in
  upto rate (requests_per_second rateLimit) ∧ requests_per_second rateLimit <= p2 40.
Proof.
  destruct rateLimit as [s| | |[] m e]; cbn [configured requests_per_second]; try done.
  - intros _. split; [|by vm_compute]. change (feqb (S754_zero s) (float64_of 0)) with true. cbv iota.
    change (float64_of 50) with (S754_finite false 7036874417766400 (-47)).
    split; [split; [lia|split; [lia|right; lia]]|]. split; [lia|by vm_compute].
  - intros [[C%canonical_mantissa_inv E%Z.leb_le]%andb_prop H]. split; [|done].
    split; [done|]. split; [lia|lra].
Qed.
(** The burst is at most twice the rate. *)
Lemma burst_upto rate r :
  upto rate r → r <= p2 40 →
  ∃ c, upto (float64_of (to_int (fmul rate (float64_of 2)))) c ∧ c <= 2 * r * (1 + 8 * eps).
Proof.
  intros Hrate Hr. pose proof (upto_pos _ _ Hrate) as Hr0. assert (p2 40 == 1099511627776) as E40 by reflexivity.
  assert (p2 100 == 1267650600228229401496703205376) as E100 by reflexivity.
  assert (p2 63 == 9223372036854775808) as E63 by reflexivity.
  assert (upto (float64_of 2) 2) as H2.
  { change (float64_of 2) with (S754_finite false 4503599627370496 (-51)).
    split; [split; [lia|split; [lia|right; lia]]|]. split; [lia|by vm_compute]. }
  pose proof tiny_eps as Ht. pose proof tiny_pos as Ht0. rewrite E40 in Hr.
  assert (upto (fmul rate (float64_of 2)) (rnd (r * 2))) as Hm.
  { apply fmul_upto; [done|done| |]; (eapply Qle_lt_trans; [apply rnd_above|apply rnd_finite]); rewrite ?E100; lra. }
  destruct (to_int_upto _ _ Hm) as [Hz Hz'].
  { rewrite E63. unfold rnd. rewrite eps_eq in *. lra. }
  set (z := to_int _) in *. clearbody z. destruct (Z.eq_dec z 0) as [->|Hne].
  - exists 0. split; [change (float64_of 0) with (S754_zero false); cbn; lra|]. rewrite eps_eq. lra.
  - exists (rnd (inject_Z z)). split; [by apply float64_of_upto|].
    assert (1 <= inject_Z z) as H1 by (rewrite <-(Zle_Qle 1); lia).
    unfold rnd in *. rewrite eps_eq in *. lra.
Qed.
Lemma newIPRateLimiter_ok rate capacity c t : limiter_ok rate capacity c t (newIPRateLimiter rate capacity).
Proof. split; [done|]. split; [done|]. intros ip b. cbn [newIPRateLimiter l_buckets]. by rewrite lookup_empty. Qed.

(** One part in 2^49. *)
Definition rounding : Q := 1 # 562949953421312.

(** C21: The server's rate limiter holds an address to its rate, with the tokens and
    the rate in float64 and every operation rounded: whatever requests and evictions
    came [before], in any window of time the requests of an address that are let
    through number at most the burst of two seconds plus the seconds of the window,
    times the rate (fifty a second when none is configured), with the rounding of one
    part in 2^49 of that and of the rate for each request sent.  Evicting idle
    buckets gives nothing away. *)
Theorem rate_limit_bounds rateLimit ip before window t0 t1 t2 :
  configured rateLimit → timed t0 t1 before → timed t1 t2 window →
  let r := requests_per_second rateLimit in
  inject_Z (admitted ip window (limiter_run before (server_limiter rateLimit)))
    <= r * (2 + secs (t2 - t1)) * (1 + rounding) + inject_Z (sent ip window) * ((r + 1) * rounding).
Proof.
  intros Hconf Hbefore Hwindow r. destruct (configured_upto _ Hconf) as [Hrate Hr]. fold r in Hrate, Hr.
  unfold server_limiter. set (rate := if feqb _ _ then _ else _) in *. destruct (burst_upto rate r Hrate Hr) as (c & Hcap & Hc).
  set (capacity := to_int _) in *. pose proof (upto_pos _ _ Hrate) as Hr0.
  assert (p2 40 == 1099511627776) as E40 by reflexivity. assert (p2 42 == 4398046511104) as E42 by reflexivity.
  assert (c <= p2 42) as Hc42 by (rewrite E42, eps_eq in *; lra).
  assert (c <= 600 * r) as Hfill by (rewrite eps_eq in *; lra).
  pose proof (admitted_level rate capacity r c Hrate Hr Hcap Hc42 Hfill) as Hrun.
  destruct (Hrun ip before t0 t1 (newIPRateLimiter rate capacity) c (newIPRateLimiter_ok _ _ _ _) Hbefore) as [Hok _]; [left; lra|].
  destruct (Hrun ip window t1 t2 _ c Hok Hwindow) as [_ Hle]; [left; lra|].
  eapply Qle_trans; [exact Hle|].
  assert (0 <= inject_Z (sent ip window)) as Hn by (rewrite <-(Zle_Qle 0); apply sent_pos).
  assert (0 <= secs (t2 - t1)) as Hs by (apply secs_pos, Z.le_0_sub; exact (timed_le _ _ _ Hwindow)).
  assert (inject_Z (sent ip window) * slack c <= inject_Z (sent ip window) * ((r + 1) * rounding)).
  { assert (slack c <= (r + 1) * rounding); [|nra]. unfold slack, rounding. rewrite eps_eq in *. lra. }
  unfold rho, rounding in *. rewrite eps_eq in *. set (n := inject_Z _ * slack c) in *.
  set (x := secs _) in *. assert (0 <= x * r) by nra. lra.
Qed.

(** A new limiter with room for a request lets the first one through. *)
Lemma first_admitted rate capacity ip now0 now :
  upto rate (p2 40) → (1 ≤ capacity)%Z → (now0 ≤ now)%Z → fst (Allow ip now0 now (newIPRateLimiter rate capacity)) = true.
Proof.
  intros Hrate Hcap Hnow. unfold Allow. cbn [newIPRateLimiter l_buckets l_capacity l_rate]. rewrite lookup_empty.
  cbn [default b_tokens b_lastSeen fst]. apply negb_true_iff. destruct one as (m & e & E1 & V1 & C1 & He & _). rewrite E1.
  set (c := rnd (inject_Z capacity)). pose proof (float64_of_upto capacity ltac:(lia)) as Hc. fold c in Hc.
  assert (0 ≤ Sub now now0 ≤ now - now0)%Z as Hd by (unfold Sub; lia).
  pose proof (product_upto rate (p2 40) Hrate ltac:(lra) (Sub now now0) ltac:(unfold Sub; lia)) as Hp.
  assert (atleast (float64_of capacity) (val (Zpos m) e)) as Hge.
  { intros q Hq. rewrite V1. by apply (float64_of_atleast capacity). }
  destruct (fltb (float64_of capacity) _); [exact (fltb_atleast _ _ _ _ C1 Hc Hge)|].
  exact (fltb_atleast _ _ _ _ C1 (fadd_upto _ _ _ _ Hc Hp) (fadd_atleast _ _ _ _ _ _ C1 He Hc Hp Hge)).
Qed.

(** ** Instance *)

(** Two fifths of a request a second, a rate that no float64 holds exactly, has no
    burst at all; and 2.6 have one of five. *)
Definition per_second (n d : Z) : float64 := fdiv (float64_of n) (float64_of d).
Definition burst : list LimiterOp :=
  [OpAllow "10.0.0.1" 0 0; OpAllow "10.0.0.1" 0 0; OpEvict 1; OpAllow "10.0.0.1" 1 1; OpAllow "10.0.0.2" 1 2].
Lemma rate_limit_bounds_witness :
  l_capacity (server_limiter (per_second 2 5)) = 0%Z ∧ l_capacity (server_limiter (per_second 13 5)) = 5%Z ∧
  let r := requests_per_second (per_second 13 5) in
  inject_Z (admitted "10.0.0.1" burst (limiter_run [] (server_limiter (per_second 13 5))))
    <= r * (2 + secs (1000 - 0)) * (1 + rounding) + inject_Z (sent "10.0.0.1" burst) * ((r + 1) * rounding).
Proof.
  split; [by vm_compute|]. split; [by vm_compute|].
  apply (rate_limit_bounds (per_second 13 5) "10.0.0.1" [] burst 0 0 1000);
    [split; by vm_compute|by vm_compute|cbn; lia].
Defined.

End RateLimits.

Module ApiServerProofs.

(** ** Routing *)

(** Whether some path matches both patterns. *)
Fixpoint overlap (p q : list Segment) : bool :=
  match p, q with
  | [], [] => true
  | Lit a :: p', Lit b :: q' => (a =s b) && overlap p' q'
  | _ :: p', _ :: q' => overlap p' q'
  | _, _ => false
  end.
Lemma path_matches_overlap p q path :
  path_matches p path = true → path_matches q path = true → overlap p q = true.
Proof.
  revert q path. induction p as [|s p IH]; intros [|s' q] [|x path]; try done. simpl.
  rewrite !andb_true_iff. intros [Hs Hp] [Hs' Hq]. pose proof (IH _ _ Hp Hq) as Ho.
  destruct s, s'; simpl in *; try done. rewrite Ho.
  apply String.eqb_eq in Hs as ->. apply String.eqb_eq in Hs' as ->. by rewrite String.eqb_refl.
Qed.
Lemma more_specific_trans p q q' path :
  path_matches p path = true → path_matches q path = true → path_matches q' path = true →
  more_specific p q = true → more_specific q q' = true → more_specific p q' = true.
Proof.
  revert q q' path. induction p as [|s p IH]; intros [|s2 q] [|s3 q'] [|x path]; try done. simpl.
  rewrite !andb_true_iff. intros [_ Hp] [_ Hq] [_ Hq'].
  destruct s, s2, s3; try done; by apply (IH q q' path).
Qed.

(** The registered patterns: two that serve one method and match one path are
    comparable, which is what [HandleFunc] panics without. *)
Definition comparable (p q : list Segment) : bool := more_specific p q || more_specific q p.
Lemma routes_comparable rt rt' :
  rt ∈ routes → rt' ∈ routes → overlap (rt_path rt) (rt_path rt') = true →
  comparable (rt_path rt) (rt_path rt') = true.
Proof.
  assert (forallb (λ rt, forallb (λ rt', negb (overlap (rt_path rt) (rt_path rt')) ||
    comparable (rt_path rt) (rt_path rt')) routes) routes = true) as H by (vm_compute; reflexivity).
  intros Hrt Hrt' Ho. rewrite forallb_forall in H. specialize (H rt). rewrite <-list_elem_of_In in H.
  specialize (H Hrt). rewrite forallb_forall in H. specialize (H rt'). rewrite <-list_elem_of_In in H.
  specialize (H Hrt'). by rewrite Ho in H.
Qed.

(** A total preorder has a least element on every list that is not empty. *)
Lemma least_exists {A} (le : A → A → bool) (l : list A) :
  (∀ x y, x ∈ l → y ∈ l → le x y || le y x = true) →
  (∀ x y z, x ∈ l → y ∈ l → z ∈ l → le x y = true → le y z = true → le x z = true) →
  l ≠ [] → ∃ x, x ∈ l ∧ ∀ y, y ∈ l → le x y = true.
Proof.
  induction l as [|a l IH]; [done|]. intros Htot Htr _.
  assert (a ∈ a :: l) as Ha by (apply elem_of_cons; by left).
  assert (∀ x, x ∈ l → x ∈ a :: l) as Hl by (intros; apply elem_of_cons; by right).
  assert (le a a = true) as Haa by (specialize (Htot a a Ha Ha); by destruct (le a a)).
  destruct (decide (length l = 0)) as [->%nil_length_inv|Hne].
  { exists a. split; [done|]. intros y [->|[]%not_elem_of_nil]%elem_of_cons. done. }
  destruct IH as (x & Hx & Hmin); [by eauto|by eauto|by intros ->|].
  destruct (le x a) eqn:Exa.
  - exists x. split; [by auto|]. intros y [->|?]%elem_of_cons; [done|by apply Hmin].
  - exists a. split; [done|]. intros y [->|Hy]%elem_of_cons; [done|].
    apply (Htr a x y); [by auto..| |by apply Hmin].
    specialize (Htot a x Ha (Hl _ Hx)). by rewrite Exa, orb_false_r in Htot.
Qed.

(** The routes a request may be served by. *)
Definition candidates (method : string) (path : list string) : list Route :=
  filter (λ rt, method_matches (rt_method rt) method = true)
    (filter (λ rt, path_matches (rt_path rt) path = true) routes).
Lemma elem_of_candidates rt method path :
  rt ∈ candidates method path ↔
  rt ∈ routes ∧ path_matches (rt_path rt) path = true ∧ method_matches (rt_method rt) method = true.
Proof. unfold candidates. rewrite !list_elem_of_filter. tauto. Qed.

Lemma best_match_Some rts rt :
  best_match rts = Some rt → rt ∈ rts ∧ ∀ rt', rt' ∈ rts → more_specific (rt_path rt) (rt_path rt') = true.
Proof.
  unfold best_match. intros [Hin H]%find_some. rewrite forallb_forall in H.
  split; [by apply list_elem_of_In|]. intros rt' ?%list_elem_of_In. by apply H.
Qed.
Lemma best_match_exists method path :
  candidates method path ≠ [] → ∃ rt, best_match (candidates method path) = Some rt.
Proof.
  intros Hne. destruct (best_match _) as [rt|] eqn:E; [by eexists|].
  destruct (least_exists (λ rt rt', more_specific (rt_path rt) (rt_path rt')) (candidates method path))
    as (x & Hx & Hmin).
  - intros x y (Hx & Hpx & _)%elem_of_candidates (Hy & Hpy & _)%elem_of_candidates.
    apply (routes_comparable x y); [done..|by eapply path_matches_overlap].
  - intros x y z (_ & Hx & _)%elem_of_candidates (_ & Hy & _)%elem_of_candidates (_ & Hz & _)%elem_of_candidates.
    by apply (more_specific_trans _ _ _ path).
  - done.
  - eapply find_none in E; [|by apply list_elem_of_In].
    exfalso. apply not_true_iff_false in E. destruct E. rewrite forallb_forall.
    intros y ?%list_elem_of_In. by apply Hmin.
Qed.
#[export] Instance Segment_eq_dec : EqDecision Segment.
Proof. solve_decision. Defined.
#[export] Instance Route_eq_dec : EqDecision Route.
Proof. solve_decision. Defined.

(** Two routes that match one request and are as specific as each other are one route. *)
Lemma routes_antisym rt rt' :
  rt ∈ routes → rt' ∈ routes → overlap (rt_path rt) (rt_path rt') = true → rt_method rt = rt_method rt' →
  more_specific (rt_path rt) (rt_path rt') = true → more_specific (rt_path rt') (rt_path rt) = true → rt = rt'.
Proof.
  assert (forallb (λ rt, forallb (λ rt', negb (overlap (rt_path rt) (rt_path rt') && (rt_method rt =s rt_method rt')
    && more_specific (rt_path rt) (rt_path rt') && more_specific (rt_path rt') (rt_path rt)) ||
    bool_decide (rt = rt')) routes) routes = true) as H by (vm_compute; reflexivity).
  intros Hrt Hrt' Ho Hm H1 H2. rewrite forallb_forall in H. specialize (H rt). rewrite <-list_elem_of_In in H.
  specialize (H Hrt). rewrite forallb_forall in H. specialize (H rt'). rewrite <-list_elem_of_In in H.
  specialize (H Hrt'). rewrite Ho, Hm, String.eqb_refl, H1, H2 in H. by apply bool_decide_eq_true in H.
Qed.
Lemma routes_methods rt : rt ∈ routes → rt_method rt ∈ ["GET"; "POST"; "DELETE"].
Proof.
  assert (Forall (λ rt, rt_method rt ∈ ["GET"; "POST"; "DELETE"]) routes) as H
    by (apply (bool_decide_unpack _); vm_compute; exact I).
  rewrite Forall_forall in H. apply H.
Qed.
Lemma method_matches_same' m m' method :
  m ∈ ["GET"; "POST"; "DELETE"] → m' ∈ ["GET"; "POST"; "DELETE"] → method_matches m method = true →
  method_matches m' method = true → m = m'.
Proof.
  intros Hm Hm'. unfold method_matches.
  rewrite !orb_true_iff, !andb_true_iff, !String.eqb_eq.
  intros [->|[-> ->]] [->|[-> Hh]]; [done| | |done]; subst; exfalso;
    repeat (apply elem_of_cons in Hm as [?|Hm]; [done|]); repeat (apply elem_of_cons in Hm' as [?|Hm']; [done|]);
    by apply not_elem_of_nil in Hm || by apply not_elem_of_nil in Hm'.
Qed.
Lemma method_matches_same rt rt' method :
  rt ∈ routes → rt' ∈ routes → method_matches (rt_method rt) method = true →
  method_matches (rt_method rt') method = true → rt_method rt = rt_method rt'.
Proof. intros Hr%routes_methods Hr'%routes_methods. by apply method_matches_same'. Qed.

Section Serving.
Context (cfg : Config).
Context (handlers : string → Request → M Srv Response).
#[local] Notation "'serve'" := (ServeHTTP cfg handlers).

(** Dispatch is total and unambiguous: a request that some registered route
    matches is served by exactly one of them, the one that is strictly more specific
    than every other that matches, with the path's wildcards as its path values; a
    request that none matches gets 405 when another method would have matched its
    path and 404 otherwise, and changes nothing. *)
Theorem dispatch_unambiguous method path :
  (∃ rt, rt ∈ candidates method path ∧
     (∀ r, serve method path r = serve_route cfg handlers rt method (set_path (path_values (rt_path rt) path) r)) ∧
     ∀ rt', rt' ∈ candidates method path → rt' ≠ rt →
       more_specific (rt_path rt) (rt_path rt') = true ∧ more_specific (rt_path rt') (rt_path rt) = false) ∨
  (candidates method path = [] ∧ ∀ r w, ∃ rp,
     serve method path r w = (rp, w) ∧ rp_headers rp = [] ∧
     (status_of (rp_response rp) = 405%Z ↔ ∃ rt, rt ∈ routes ∧ path_matches (rt_path rt) path = true) ∧
     (status_of (rp_response rp) = 404%Z ↔ ¬ ∃ rt, rt ∈ routes ∧ path_matches (rt_path rt) path = true)).
Proof.
  destruct (decide (length (candidates method path) = 0)) as [Hnil%nil_length_inv|Hne].
  - right. split; [done|]. intros r w. unfold ServeHTTP. fold (candidates method path). rewrite Hnil. cbn [best_match find].
    set (here := filter (λ rt, path_matches (rt_path rt) path = true) routes).
    assert ((∃ rt, rt ∈ routes ∧ path_matches (rt_path rt) path = true) ↔ here ≠ []) as Hiff.
    { unfold here. split.
      - intros (rt & ? & ?) Hx. apply (not_elem_of_nil rt). rewrite <-Hx. by apply list_elem_of_filter.
      - intros Hx. destruct here as [|rt l] eqn:E; [done|]. exists rt.
        assert (rt ∈ here) as [? ?]%list_elem_of_filter by (rewrite E; apply elem_of_cons; by left). done. }
    destruct here; eexists; (split; [reflexivity|]); rewrite Hiff; cbn; split_and!; naive_solver.
  - left. destruct (best_match_exists method path) as [rt Hb]; [by intros E; rewrite E in Hne|].
    destruct (best_match_Some _ _ Hb) as [Hin Hmin]. exists rt. split; [done|]. split.
    + intros r. unfold ServeHTTP. fold (candidates method path). by rewrite Hb.
    + intros rt' Hin' Hdiff. split; [by apply Hmin|]. destruct (more_specific (rt_path rt') (rt_path rt)) eqn:E; [|done].
      destruct Hdiff. pose proof (Hmin _ Hin') as Hm.
      apply elem_of_candidates in Hin as (Hr & Hp & Hme), Hin' as (Hr' & Hp' & Hme').
      symmetry. apply routes_antisym; [done..|by eapply path_matches_overlap|by eapply method_matches_same|done|done].
Qed.
(** ** Middleware *)

(** [h] refuses: the store is as it was and the status is one of [codes]. *)
Definition refuses (codes : list Z) (h : Handler) (method : string) (r : Request) : Prop :=
  ∀ w, fst (w_state (snd (h method r w))) = fst (w_state w) ∧ status_of (rp_response (fst (h method r w))) ∈ codes.
Lemma refuses_app h method r w rp w' codes :
  refuses codes h method r → h method r w = (rp, w') →
  fst (w_state w') = fst (w_state w) ∧ status_of (rp_response rp) ∈ codes.
Proof. intros H E. specialize (H w). by rewrite E in H. Qed.

Lemma auth_refuses next method r :
  sc_apiKey cfg ≠ "" → TrimPrefix (Header r "Authorization") "Bearer " ≠ sc_apiKey cfg →
  refuses [401%Z; 429%Z] (auth cfg next) method r.
Proof.
  intros Hk%String.eqb_neq Hb%String.eqb_neq w. unfold auth. rewrite Hk, Hb. cbn. set_solver.
Qed.
Lemma audit_refuses codes next method r : refuses codes next method r → refuses codes (audit next) method r.
Proof.
  intros H [clk nc rnd nr flt nf st]. unfold audit, mbind, M_bind, time_now. cbn [w_clock w_nclock w_rand w_nrand w_fault w_nfault w_state].
  destruct (next method r _) as [rp w'] eqn:E. by apply (refuses_app _ _ _ _ _ _ _ H) in E.
Qed.
Lemma rateLimit_refuses codes next method r :
  429%Z ∈ codes → refuses codes next method r → refuses codes (rateLimit cfg next) method r.
Proof.
  intros H429 H [clk nc rnd nr flt nf [s l]]. unfold rateLimit, mbind, M_bind, time_now, modify, put_state.
  cbn [w_clock w_nclock w_rand w_nrand w_fault w_nfault w_state fst snd].
  destruct (l_buckets l !! clientIP cfg r); cbn [mret M_ret w_clock w_nclock w_rand w_nrand w_fault w_nfault w_state];
    destruct (Allow _ _ _ l) as [[] l']; cbn [w_clock w_nclock w_rand w_nrand w_fault w_nfault w_state fst snd];
    try done; destruct (next method r _) as [rp w'] eqn:E; by apply (refuses_app _ _ _ _ _ _ _ H) in E.
Qed.
Lemma wrap_refuses codes next method r :
  method ≠ "OPTIONS" → refuses codes next method r → refuses codes (wrap cfg next) method r.
Proof.
  intros Hm%String.eqb_neq H w. unfold wrap, securityHeaders, cors, mbind, M_bind. rewrite Hm.
  destruct (next method r w) as [rp w'] eqn:E. by apply (refuses_app _ _ _ _ _ _ _ H) in E.
Qed.

(** A handler behind [auth] is not reached without the key, whatever else is around it. *)
Lemma serve_route_refuses rt method r :
  Auth ∈ rt_middleware rt → method ≠ "OPTIONS" →
  sc_apiKey cfg ≠ "" → TrimPrefix (Header r "Authorization") "Bearer " ≠ sc_apiKey cfg →
  refuses [401%Z; 429%Z] (serve_route cfg handlers rt) method r.
Proof.
  intros Hin Hm Hk Hb. unfold serve_route. induction (rt_middleware rt) as [|m ms IH]; [by apply not_elem_of_nil in Hin|].
  cbn [foldr]. destruct m; cbn [apply_middleware].
  - apply elem_of_cons in Hin as [?|Hin]; [done|]. by apply wrap_refuses, IH.
  - apply elem_of_cons in Hin as [?|Hin]; [done|]. apply rateLimit_refuses; [set_solver|by apply IH].
  - apply elem_of_cons in Hin as [?|Hin]; [done|]. by apply audit_refuses, IH.
  - by apply auth_refuses.
Qed.
Lemma matched_not_options rt method :
  rt ∈ routes → method_matches (rt_method rt) method = true → method ≠ "OPTIONS".
Proof.
  intros Hr%routes_methods Hm ->. revert Hm. unfold method_matches. rewrite orb_true_iff, andb_true_iff, !String.eqb_eq.
  intros [E|[_ [=]]]. rewrite E in Hr. repeat (apply elem_of_cons in Hr as [?|Hr]; [done|]). by apply not_elem_of_nil in Hr.
Qed.

(** *** The documented access rules *)

(** The rows of the README's table of routes protected by the API key, but for those of
    recovery; a row of several methods stands for each of them, and for a resource of the
    collection where the server has one. *)
Definition api (p : list Segment) : list Segment := Lit "api" :: Lit "v1" :: p.
Definition key_rows : list (string * list Segment) :=
  [("POST", api [Lit "identities"]); ("GET", api [Lit "identities"; Wild "did"]);
   ("POST", api [Lit "credentials"]); ("POST", api [Lit "credentials"; Lit "verify"]);
   ("GET", api [Lit "credentials"]); ("DELETE", api [Lit "credentials"; Wild "id"]);
   ("POST", api [Lit "credentials"; Lit "sd-jwt"]); ("POST", api [Lit "credentials"; Lit "sd-jwt"; Lit "verify"]);
   ("GET", api [Lit "consents"; Lit "grants"]); ("POST", api [Lit "consents"; Lit "grants"]);
   ("DELETE", api [Lit "consents"; Lit "grants"]); ("DELETE", api [Lit "consents"; Lit "grants"; Wild "id"]);
   ("GET", api [Lit "consents"; Lit "receipts"]); ("GET", api [Lit "schemas"]);
   ("POST", api [Lit "webhooks"]); ("GET", api [Lit "webhooks"]);
   ("DELETE", api [Lit "webhooks"]); ("DELETE", api [Lit "webhooks"; Wild "id"]);
   ("POST", api [Lit "presentations"; Lit "request"]); ("POST", api [Lit "presentations"; Lit "submit"]);
   ("DELETE", api [Lit "sessions"; Wild "id"]);
   ("GET", api [Lit "audit-log"]); ("GET", api [Lit "audit-log"; Lit "proof"; Wild "seq"]);
   ("GET", [Lit "metrics"])].
(** Its rows of recovery. *)
Definition recovery_rows : list (string * list Segment) :=
  [("POST", api [Lit "recovery"; Wild "id"; Lit "approve"]); ("GET", api [Lit "recovery"; Wild "id"]);
   ("POST", api [Lit "recovery"; Lit "initiate"])].
Definition in_rows (rows : list (string * list Segment)) (method : string) (path : list string) : bool :=
  existsb (λ row, method_matches row.1 method && path_matches row.2 path) rows.
(** The documented set: the rows of the table and everything under /admin, of which
    server.go says that the key is required. *)
Definition key_protected (method : string) (path : list string) : bool :=
  match path with a :: _ => a =s "admin" | [] => false end || in_rows key_rows method path.

(** Every route that can serve a request of a row satisfies [f]. *)
Lemma rows_routes (f : Route → bool) rows :
  forallb (λ row : string * list Segment, bool_decide (row.1 ∈ ["GET"; "POST"; "DELETE"]) && forallb (λ rt,
    negb ((row.1 =s rt_method rt) && overlap (rt_path rt) row.2) || f rt) routes) rows = true →
  ∀ rt method path, rt ∈ routes → path_matches (rt_path rt) path = true → method_matches (rt_method rt) method = true →
    in_rows rows method path = true → f rt = true.
Proof.
  intros H rt method path Hrt Hp Hm (row & Hrow & [Hm' Hp']%andb_true_iff)%existsb_exists.
  rewrite forallb_forall in H. specialize (H row Hrow). apply andb_true_iff in H as [Hget H]. apply bool_decide_eq_true in Hget.
  rewrite forallb_forall in H. specialize (H rt). rewrite <-list_elem_of_In in H. specialize (H Hrt).
  rewrite (path_matches_overlap _ _ _ Hp Hp') in H.
  rewrite (method_matches_same' _ _ _ Hget (routes_methods _ Hrt) Hm' Hm), String.eqb_refl in H. exact H.
Qed.
Lemma key_protected_routes rt method path :
  rt ∈ routes → path_matches (rt_path rt) path = true → method_matches (rt_method rt) method = true →
  key_protected method path = true → Auth ∈ rt_middleware rt.
Proof.
  intros Hrt Hp Hm [Ha|Hr]%orb_true_iff.
  - assert (forallb (λ rt, match rt_path rt with
      | Lit a :: _ => negb (a =s "admin") || bool_decide (Auth ∈ rt_middleware rt) | _ => false end) routes = true) as H
      by (vm_compute; reflexivity).
    rewrite forallb_forall in H. specialize (H rt). rewrite <-list_elem_of_In in H. specialize (H Hrt).
    destruct path as [|a path]; [done|]. apply String.eqb_eq in Ha as ->. destruct (rt_path rt) as [|[l|] pat]; [done| |done].
    cbn [path_matches seg_matches] in Hp. apply andb_true_iff in Hp as [->%String.eqb_eq _]. by apply bool_decide_eq_true in H.
  - apply (bool_decide_eq_true (Auth ∈ rt_middleware rt)).
    refine (rows_routes (λ rt, bool_decide (Auth ∈ rt_middleware rt)) key_rows _ rt method path Hrt Hp Hm Hr). vm_compute. reflexivity.
Qed.
(** The configuration without an API key. *)
Definition no_key : Config := mkConfig "" (sc_issuer cfg) (sc_trustedProxies cfg) (sc_corsAllowedOrigins cfg).
Lemma serve_route_no_key rt :
  Auth ∉ rt_middleware rt → serve_route cfg handlers rt = serve_route no_key handlers rt.
Proof.
  unfold serve_route. induction (rt_middleware rt) as [|m ms IH]; [done|].
  intros [Hne Hms]%not_elem_of_cons. cbn [foldr]. rewrite (IH Hms). by destruct m.
Qed.

(** C20: The documented access rules, with an API key configured and a request whose bearer
    token is another.  Under /admin and for every route that the README lists as protected
    by the key, except those of recovery, the store is left alone and the answer is 401,
    404, 405 or 429, whatever the handlers do.  The recovery routes of the same list are
    not protected: they are served as if no key were configured. *)
Theorem protected_paths_need_key method path r w :
  sc_apiKey cfg ≠ "" → TrimPrefix (Header r "Authorization") "Bearer " ≠ sc_apiKey cfg →
  (key_protected method path = true →
    fst (w_state (snd (serve method path r w))) = fst (w_state w) ∧
    status_of (rp_response (fst (serve method path r w))) ∈ [401; 404; 405; 429]%Z) ∧
  (in_rows recovery_rows method path = true → serve method path r w = ServeHTTP no_key handlers method path r w).
Proof.
  intros Hk Hb. unfold ServeHTTP. fold (candidates method path).
  destruct (best_match _) as [rt|] eqn:E; [|split; [destruct (filter _ routes); cbn; set_solver|done]].
  apply best_match_Some in E as [(Hrt & Hm & Hmeth)%elem_of_candidates _]. split; intros Hp.
  - destruct (serve_route_refuses rt method (set_path (path_values (rt_path rt) path) r)
      (key_protected_routes _ _ _ Hrt Hm Hmeth Hp) (matched_not_options _ _ Hrt Hmeth) Hk Hb w) as [-> Hs].
    split; [done|]. revert Hs. rewrite !elem_of_cons. tauto.
  - rewrite serve_route_no_key; [done|]. apply (bool_decide_eq_true (Auth ∉ rt_middleware rt)).
    refine (rows_routes (λ rt, bool_decide (Auth ∉ rt_middleware rt)) recovery_rows _ rt method path Hrt Hm Hmeth Hp). vm_compute. reflexivity.
Qed.

(** No preflight is answered: every pattern is registered with a method and none
    with OPTIONS, so the mux answers an OPTIONS request itself, with 404 or 405 and
    no CORS header, and the branch of [cors] that answers 204 is never reached. *)
Theorem preflight_never_answered path r w :
  fst (serve "OPTIONS" path r w) = plain (HttpError StatusNotFound "404 page not found") ∨
  fst (serve "OPTIONS" path r w) = plain (HttpError 405 "Method Not Allowed").
Proof.
  unfold ServeHTTP. fold (candidates "OPTIONS" path). destruct (best_match _) as [rt|] eqn:E.
  - apply best_match_Some in E as [(Hrt & _ & Hmeth)%elem_of_candidates _].
    by destruct (matched_not_options _ _ Hrt Hmeth).
  - destruct (filter _ routes); [by left|by right].
Qed.

(** Only a trusted proxy speaks for another address: a peer whose address is in
    none of the trusted ranges is limited under its own, whatever it forwards. *)
Theorem clientIP_untrusted r :
  (∀ ip net, GoNet.ParseIP (default (rq_remote r) (GoNet.SplitHost (rq_remote r))) = Some ip →
     net ∈ sc_trustedProxies cfg → Did.Contains net ip = false) →
  clientIP cfg r = default (rq_remote r) (GoNet.SplitHost (rq_remote r)).
Proof.
  intros H. unfold clientIP. destruct (GoNet.ParseIP _) as [ip|]; [|done].
  assert (existsb (λ cidr, Did.Contains cidr ip) (sc_trustedProxies cfg) = false) as ->; [|done].
  apply not_true_iff_false. intros (net & Hin%list_elem_of_In & Hc)%existsb_exists.
  by rewrite (H _ _ eq_refl Hin) in Hc.
Qed.
End Serving.
(** ** Who may obtain a code *)

Lemma authorize_with_ok r q c f g clk nc rnd nr flt nf d rev evs :
  (∀ n, flt n = None) → rnd nr = Some f → rnd (S nr) = Some g →
  client_row (Get q "client_id") d = Ok c → Get q "redirect_uri" ∈ c_RedirectURIs c →
  Get q "client_id" ≠ "" → Get q "redirect_uri" ≠ "" → Header r "X-Subject-DID" ≠ "" →
  Get q "state" ≠ "" → Get q "code_challenge" ≠ "" → Get q "code_challenge_method" = "S256" →
  ∃ loc, fst (authorize_with r q (mkWorld clk nc rnd nr flt nf (mkSrv d rev evs))) = Redirect loc.
Proof.
  intros Hnf Hf Hg Hc Hu H1%String.eqb_neq H2%String.eqb_neq H3%String.eqb_neq H4%String.eqb_neq H5%String.eqb_neq H6.
  change (wp (authorize_with r q) (λ resp _, ∃ loc, resp = Redirect loc) (mkWorld clk nc rnd nr flt nf (mkSrv d rev evs))).
  unfold authorize_with, GetClient, randomID, randomHex, SaveSession. rewrite H1, H2, H3, H4, H5, H6.
  cbn [orb negb]. rewrite String.eqb_refl. cbn [negb].
  apply wp_bind, wp_bind, wp_query; [intros ? Hx; by rewrite Hnf in Hx|intros _]. apply wp_ret.
  rewrite Hc. cbn [wrap_err].
  apply containsURI_spec in Hu. rewrite Hu. cbn [negb].
  repeat (wp_step; try congruence); try (by eexists); by rewrite Hnf in *.
Qed.

Section Impersonation.
Context (cfg : Config) (handlers : string → Request → M Srv Response).
Hypothesis Hauthorize : handlers "oidc.AuthorizeHandler" = AuthorizeHandler.

(** The request of somebody who holds no key, token or cookie. *)
Definition anonymous (q : list (string * string)) (remote subject : string) : Request :=
  mkRequest q None [("X-Subject-DID", subject)] None [] remote None.

(** What GET /authorize runs. *)
Lemma serve_authorize q remote subject clk nc rnd nr flt nf srv l ok l' :
  l_buckets l = ∅ → Allow (clientIP cfg (anonymous q remote subject)) (clk nc) (clk (S nc)) l = (ok, l') → ok = true →
  let res := AuthorizeHandler (anonymous q remote subject) (mkWorld clk (3 + nc) rnd nr flt nf srv) in
  rp_response (fst (ServeHTTP cfg handlers "GET" ["authorize"] (anonymous q remote subject)
    (mkWorld clk nc rnd nr flt nf (srv, l)))) = fst res ∧
  fst (w_state (snd (ServeHTTP cfg handlers "GET" ["authorize"] (anonymous q remote subject)
    (mkWorld clk nc rnd nr flt nf (srv, l))))) = w_state (snd res).
Proof.
  intros Hl Ha ->.
  assert (ServeHTTP cfg handlers "GET" ["authorize"] (anonymous q remote subject) =
    wrap cfg (rateLimit cfg (audit (λ _ r, resp ← lift (handlers "oidc.AuthorizeHandler" r); mret (plain resp))))
      "GET" (anonymous q remote subject)) as -> by reflexivity.
  rewrite Hauthorize. unfold wrap, securityHeaders, cors, rateLimit, audit, mbind, M_bind, time_now, modify, put_state, lift.
  cbn [w_clock w_nclock w_rand w_nrand w_fault w_nfault w_state fst snd String.eqb Ascii.eqb Bool.eqb].
  rewrite Hl, lookup_empty. cbn [w_clock w_nclock w_rand w_nrand w_fault w_nfault w_state fst snd]. rewrite Ha.
  cbn [w_clock w_nclock w_rand w_nrand w_fault w_nfault w_state fst snd]. change (S (S (S nc))) with (3 + nc)%nat.
  by destruct (AuthorizeHandler _ _) as [resp w'].
Qed.

(** C36: GET /authorize hands out a code for any subject: it is public and takes the
    subject from a header of the request, so a request that holds no credential at
    all, for a registered client and one of its redirect URIs, is answered with a
    redirect, and the session whose code it carries names the subject it chose.  With
    the exchange of that code, its sender holds tokens of that subject. *)
Theorem anyone_is_authorized_as_anyone q remote subject c f g rate capacity clk nc rnd nr flt nf d rev evs :
  (∀ n, flt n = None) → rnd nr = Some f → rnd (S nr) = Some g → (1 ≤ capacity)%Z → Binary64.upto rate (Binary64.p2 40) → (clk nc ≤ clk (S nc))%Z →
  Get q "request_uri" = "" → client_row (Get q "client_id") d = Ok c → Get q "redirect_uri" ∈ c_RedirectURIs c →
  Get q "client_id" ≠ "" → Get q "redirect_uri" ≠ "" → subject ≠ "" →
  Get q "state" ≠ "" → Get q "code_challenge" ≠ "" → Get q "code_challenge_method" = "S256" →
  oidc_sessions d !! ("sess_" +s Sha.hex (g <$> seq 0 16)) = None →
  let '(rp, w') := ServeHTTP cfg handlers "GET" ["authorize"] (anonymous q remote subject)
      (mkWorld clk nc rnd nr flt nf (mkSrv d rev evs, newIPRateLimiter rate capacity)) in
  ∃ sess, rp_response rp = Redirect ((Get q "redirect_uri" +s "?code=" +s s_Code sess) +s "&state=" +s Get q "state") ∧
    oidc_sessions (srv_db (fst (w_state w'))) !! s_ID sess = Some sess ∧
    s_SubjectDID sess = subject ∧ s_CodeChallenge sess = Get q "code_challenge".
Proof.
  intros Hnf Hf Hg Hcap Hrate Hclk Hpar Hc Hu Hid Huri Hsub Hst Hch Hm Hnew.
  destruct (ServeHTTP _ _ _ _ _ _) as [rp w'] eqn:E.
  destruct (Allow (clientIP cfg (anonymous q remote subject)) (clk nc) (clk (S nc)) (newIPRateLimiter rate capacity))
    as [ok l'] eqn:Ea.
  assert (ok = true) as Hok.
  { pose proof (RateLimits.first_admitted rate capacity (clientIP cfg (anonymous q remote subject)) _ _ Hrate Hcap Hclk) as Hok.
    by rewrite Ea in Hok. }
  destruct (serve_authorize q remote subject clk nc rnd nr flt nf (mkSrv d rev evs) (newIPRateLimiter rate capacity)
    ok l' eq_refl Ea Hok) as [Hr Hs].
  rewrite E in Hr, Hs. cbn [fst snd] in Hr, Hs. rewrite Hr, Hs. clear E Hr Hs Ea.
  unfold AuthorizeHandler. change (rq_query (anonymous q remote subject)) with q. rewrite Hpar. cbn [String.eqb].
  destruct (authorize_with_ok (anonymous q remote subject) q c f g clk (3 + nc) rnd nr flt nf d rev evs) as [loc Hloc]; try done.
  destruct (authorize_with _ q _) as [resp w2] eqn:Hrun. cbn [fst] in Hloc. subst resp.
  pose proof (wp_run _ _ _ _ _ Hrun (wp_authorize_with _ q clk (3 + nc) rnd nr flt nf d rev evs) (ex_intro _ loc eq_refl))
    as (c' & f' & _ & _ & Hf' & _ & _ & _ & _ & Hresp & ->).
  rewrite Hf in Hf'. injection Hf' as <-. rewrite Hg.
  exists (new_session (anonymous q remote subject) q ("sess_" +s Sha.hex (g <$> seq 0 16)) (Sha.hex (f <$> seq 0 32))
    (clk (3 + nc)) (clk (S (3 + nc)))).
  split; [exact Hresp|]. split; [by apply lookup_upsert_new|done].
Qed.
End Impersonation.

(** ** Instances *)

Definition sample_config : Config := mkConfig "key" "https://id.example" (trusted_nets ["10.1.0.0/16"]) [].
Definition sample_handlers : string → Request → M Srv Response := λ _, AuthorizeHandler.
Definition sample_world (d : DB) : World St :=
  let w := sample_srv d in
  mkWorld (w_clock w) (w_nclock w) (w_rand w) (w_nrand w) (w_fault w) (w_nfault w) (w_state w, newIPRateLimiter (GoDuration.float64_of 50) 100).

Lemma protected_paths_need_key_witness :
  let r := anonymous [] "10.0.0.1:99" "did:key:alice" in
  fst (w_state (snd (ServeHTTP sample_config sample_handlers "GET" ["metrics"] r (sample_world sample_db)))) =
    w_state (sample_srv sample_db) ∧
  ServeHTTP sample_config sample_handlers "POST" ["api"; "v1"; "recovery"; "initiate"] r (sample_world sample_db) =
  ServeHTTP (no_key sample_config) sample_handlers "POST" ["api"; "v1"; "recovery"; "initiate"] r (sample_world sample_db).
Proof.
  intros r. split.
  - apply (protected_paths_need_key sample_config sample_handlers "GET" ["metrics"] r (sample_world sample_db));
      [done|by vm_compute|reflexivity].
  - apply (protected_paths_need_key sample_config sample_handlers "POST" ["api"; "v1"; "recovery"; "initiate"] r (sample_world sample_db));
      [done|by vm_compute|reflexivity].
Defined.

Lemma clientIP_untrusted_witness :
  clientIP sample_config (mkRequest [] None [("X-Forwarded-For", "1.2.3.4")] None [] "10.0.0.1:99" None) = "10.0.0.1".
Proof.
  apply (clientIP_untrusted sample_config (mkRequest [] None [("X-Forwarded-For", "1.2.3.4")] None [] "10.0.0.1:99" None)).
  intros ip net. change (GoNet.ParseIP _) with (Some (Did.quad 10 0 0 1)). intros [= <-].
  change (sc_trustedProxies sample_config) with [(Did.quad 10 1 0 0, 16%N)].
  intros ->%list_elem_of_singleton. reflexivity.
Defined.

Definition mallory_query : list (string * string) :=
  [("client_id", "app"); ("redirect_uri", "https://app/cb"); ("state", "s"); ("code_challenge", "c");
   ("code_challenge_method", "S256")].
Lemma anyone_is_authorized_as_anyone_witness :
  let '(rp, w') := ServeHTTP sample_config sample_handlers "GET" ["authorize"]
      (anonymous mallory_query "10.6.6.6:1" "did:key:alice") (sample_world empty_sessions) in
  ∃ sess, rp_response rp = Redirect (("https://app/cb" +s "?code=" +s s_Code sess) +s "&state=" +s "s") ∧
    oidc_sessions (srv_db (fst (w_state w'))) !! s_ID sess = Some sess ∧
    s_SubjectDID sess = "did:key:alice" ∧ s_CodeChallenge sess = "c".
Proof.
  apply (anyone_is_authorized_as_anyone sample_config sample_handlers eq_refl mallory_query "10.6.6.6:1"
    "did:key:alice" (scanClient sample_client) (λ i, byte_of_N (N.of_nat (i + 32 * 0))) (λ i, byte_of_N (N.of_nat (i + 32 * 1)))
    (GoDuration.float64_of 50) 100); try done.
  all: try (by apply elem_of_cons; left).
  all: try (by vm_compute).
  destruct (RateLimits.configured_upto (SpecFloat.S754_zero false) I) as [Hu Hle]. exact (Binary64.upto_le _ _ _ Hu Hle).
Defined.
End ApiServerProofs.
