(* ===== verification/DiscoveryProofs.v ===== *)
(** * Registration, discovery and back-channel logout: what they guarantee *)

From S2P Require Import Prelude GoStd World Json JsonValue Base64 Sha Http Consent StoreTypes Store StoreAuth Logic Jwt Provider ProviderProofs Endpoints Did BridgeApi BridgeApiProofs WebhooksProofs ApiServer Discovery.
Import JsonValue Http Jwt Types Store StoreAuth Provider ProviderProofs Discovery.

Module DiscoveryProofs.

(** ** Registration *)

(** The row that [SaveClient] writes. *)
Definition row_of (c : OIDCClient) : ClientRow :=
  mkClientRow (c_ClientID c) (c_ClientSecretHash c) (c_ClientName c) (marshal_or_empty (c_RedirectURIs c))
    (c_TokenEndpointAuthMethod c) (marshal_or_empty (c_GrantTypes c)) (marshal_or_empty (c_ResponseTypes c)) (c_Scope c)
    (c_TenantID c) (c_BackchannelLogoutURI c) (marshal_or_empty (c_PostLogoutRedirectURIs c)) (c_CreatedAt c).
(** The client that is stored and the answer, for the identifier and the secret drawn. *)
Definition stored_client (req : RegisterClientRequest) (clientID secret : string) (now : Z) : OIDCClient :=
  registered_client req clientID (if auth_method req =s "none" then "" else hashSecret secret) (auth_method req) now.
Definition answer_of (req : RegisterClientRequest) (clientID secret : string) (now issued : Z) : Response :=
  let client := stored_client req clientID secret now in
  JsonResp StatusCreated (client_response (mkRegisterClientResponse clientID secret (rcq_ClientName req)
    (rcq_RedirectURIs req) (auth_method req) (c_GrantTypes client) (c_ResponseTypes client)
    (rcq_BackchannelLogoutURI req) (unix issued))).

(** The handler on the branch that answers 201. *)
Lemma registration_inv r w resp w' :
  RegisterClientHandler r w = (resp, w') → status_of resp = StatusCreated →
  ∃ req clientID secret, BridgeApi.body_object r ≫= decode_client = Some req ∧ rcq_RedirectURIs req ≠ [] ∧
    (if auth_method req =s "none" then secret = "" else length (bytes_of secret) = 64) ∧
    resp = answer_of req clientID secret (w_clock w (w_nclock w)) (w_clock w (S (w_nclock w))) ∧
    srv_db (w_state w') = set_oidc_clients (upsert client_merge clientID
      (row_of (stored_client req clientID secret (w_clock w (w_nclock w)))) (oidc_clients (srv_db (w_state w)))) (srv_db (w_state w)).
Proof.
  destruct w as [clk nc rnd nr flt nf [d rev evs]]. intros Hrun.
  refine (wp_run _ (λ resp w', status_of resp = StatusCreated → _) _ _ _ Hrun _).
  unfold RegisterClientHandler, randomHex, SaveClient, answer_of, stored_client.
  destruct (_ ≫= _) as [req|] eqn:Hreq; [|by apply wp_ret].
  destruct (rcq_RedirectURIs req) as [|u us] eqn:Hus; [by apply wp_ret|].
  destruct (rcq_ClientName req =s ""); [by apply wp_ret|].
  apply wp_bind, wp_bind, wp_rand; [intros _; apply wp_ret; by apply wp_ret|intros f _]. apply wp_ret.
  cbn [fmap result_fmap].
  destruct (auth_method req =s "none") eqn:Ha.
  - apply wp_bind, wp_ret. apply wp_bind, wp_time. apply wp_bind.
    apply wp_exec; [intros; by apply wp_ret|intros _]. apply wp_bind, wp_time, wp_ret. intros _.
    exists req, (Sha.hex (f <$> seq 0 16)), "". rewrite Ha, Hus. done.
  - apply wp_bind, wp_bind, wp_rand; [intros _; apply wp_ret; by apply wp_ret|intros g _]. apply wp_ret. cbn [fmap result_fmap].
    apply wp_bind, wp_time. apply wp_bind.
    apply wp_exec; [intros; by apply wp_ret|intros _]. apply wp_bind, wp_time, wp_ret. intros _.
    exists req, (Sha.hex (f <$> seq 0 16)), (Sha.hex (g <$> seq 0 32)). rewrite Ha, Hus. split_and!; [done|done| |done|done].
    unfold Sha.hex. by rewrite bytes_of_str_of, length_hex_encode, length_fmap, length_seq.
Qed.

Lemma scan_row_of c :
  Forall Json.valid_utf8 (c_RedirectURIs c) → Forall Json.valid_utf8 (c_GrantTypes c) →
  Forall Json.valid_utf8 (c_ResponseTypes c) → Forall Json.valid_utf8 (c_PostLogoutRedirectURIs c) → scanClient (row_of c) = c.
Proof.
  intros H1 H2 H3 H4. destruct c as [id hash name uris method grants types scope tenant back post created].
  unfold scanClient. f_equal; by apply WebhooksProofs.unmarshal_marshal_or_empty.
Qed.
Lemma default_utf8 l d : Forall Json.valid_utf8 l → Forall Json.valid_utf8 d → Forall Json.valid_utf8 (or_default l d).
Proof. by destruct l. Qed.

Lemma upserted (id : string) (row : ClientRow) m :
  upsert client_merge id row m !! id = Some (match m !! id with Some old => client_merge old row | None => row end).
Proof. unfold upsert. destruct (m !! id); apply lookup_insert_eq. Qed.
Lemma GetClient_row id row (w : World Srv) :
  oidc_clients (srv_db (w_state w)) !! id = Some row → w_fault w (w_nfault w) = None →
  fst (GetClient id w) = Ok (scanClient row).
Proof.
  destruct w as [clk nc rnd nr flt nf [d rev evs]]. cbn [w_state srv_db w_fault w_nfault]. intros Hr Hf.
  change (wp (GetClient id) (λ a _, a = Ok (scanClient row)) (mkWorld clk nc rnd nr flt nf (mkSrv d rev evs))).
  unfold GetClient. apply wp_bind, wp_query; [intros ? E; by rewrite Hf in E|intros _]. apply wp_ret.
  unfold client_row, select. by rewrite Hr.
Qed.
Lemma validateClientAuth_row r id row (w : World Srv) :
  oidc_clients (srv_db (w_state w)) !! id = Some row → w_fault w (w_nfault w) = None →
  fst (validateClientAuth r id w) = client_auth r id (scanClient row).
Proof.
  intros Hr Hf. pose proof (GetClient_row id row w Hr Hf) as Hg. unfold validateClientAuth, mbind, M_bind.
  destruct (GetClient id w) as [res w1]. cbn [fst] in Hg. by rewrite Hg.
Qed.

(** C27: A client that registers is a client: the provider answers 201 with an identifier
    and, unless the client is public, a secret, under which a request authenticates
    exactly when it gives the secret or another text of the same digest; a public client
    needs none.  Under an identifier that was free the provider finds exactly the client
    that was registered, redirect URIs included. *)
Theorem registered_client_authenticates r w resp w' :
  RegisterClientHandler r w = (resp, w') → status_of resp = StatusCreated →
  ∃ req clientID secret now issued, BridgeApi.body_object r ≫= decode_client = Some req ∧
    resp = answer_of req clientID secret now issued ∧
    (if auth_method req =s "none" then secret = "" else length (bytes_of secret) = 64) ∧
    (∀ r2 w2, srv_db (w_state w2) = srv_db (w_state w') → w_fault w2 (w_nfault w2) = None →
      fst (validateClientAuth r2 clientID w2) = Ok tt ↔
      auth_method req = "none" ∨
      provided_secret r2 clientID ≠ "" ∧ hashSecret (provided_secret r2 clientID) = hashSecret secret) ∧
    (∀ w2, oidc_clients (srv_db (w_state w)) !! clientID = None →
      Forall Json.valid_utf8 (rcq_RedirectURIs req ++ rcq_GrantTypes req ++ rcq_ResponseTypes req) →
      srv_db (w_state w2) = srv_db (w_state w') → w_fault w2 (w_nfault w2) = None →
      fst (GetClient clientID w2) = Ok (stored_client req clientID secret now)).
Proof.
  intros Hrun Hst. destruct (registration_inv r w resp w' Hrun Hst) as (req & id & secret & Hreq & Hus & Hsec & -> & Hdb).
  exists req, id, secret, (w_clock w (w_nclock w)), (w_clock w (S (w_nclock w))). do 3 (split; [done|]).
  set (now := w_clock w (w_nclock w)) in *. set (c := stored_client req id secret now) in *. split.
  - intros r2 w2 E Hf. rewrite <-E in Hdb.
    assert (∃ row, oidc_clients (srv_db (w_state w2)) !! id = Some row ∧
      cr_TokenEndpointAuthMethod row = auth_method req ∧ cr_ClientSecretHash row = c_ClientSecretHash c) as (row & Hrow & Hm & Hh).
    { eexists. split; [rewrite Hdb; apply upserted|by destruct (oidc_clients (srv_db (w_state w)) !! id)]. }
    rewrite (validateClientAuth_row r2 id row) by done. rewrite client_auth_Ok.
    cbn [scanClient c_TokenEndpointAuthMethod c_ClientSecretHash]. rewrite Hm, Hh.
    unfold c, stored_client. cbn [registered_client c_ClientSecretHash].
    destruct (String.eqb_spec (auth_method req) "none"); tauto.
  - intros w2 Hfree Hu E Hf. rewrite <-E in Hdb. rewrite (GetClient_row id (row_of c)); [f_equal| |done].
    + apply Forall_app in Hu as [Hu1 [Hu2 Hu3]%Forall_app].
      apply scan_row_of; [done|by apply default_utf8; [|repeat constructor]..|constructor].
    + rewrite Hdb. etrans; [apply upserted|by rewrite Hfree].
Qed.
(** ** Discovery *)

(** The path of a URL under the issuer, in segments. *)
Definition path_segments (path : string) : list string := drop 1 (Split path x2f).
Definition served (path : string) : bool :=
  existsb (λ rt, ApiServer.path_matches (ApiServer.rt_path rt) (path_segments path)) ApiServer.routes.
Definition unsupported (r : Response) : bool :=
  match r with JsonResp _ (("error", JStr e) :: _) => e =s "unsupported_grant_type" | _ => false end.
Definition token_request (g : string) : Request := mkRequest [] (Some [("grant_type", g)]) [] None [] "" None.

(** What the discovery document advertises: every endpoint it names is a path the server
    has a route for.  Of the grants it names, the token endpoint refuses the
    pre-authorized code, in every request and state; the document claims back-channel
    logout, which no handler performs. *)
Theorem advertised_endpoints_served `{Ed25519} p :
  (∀ name url, ("issuer", JStr (p_issuer p)) ∈ DiscoveryDocument (p_issuer p) ∧
     ((name, JStr url) ∈ DiscoveryDocument (p_issuer p) → name ≠ "issuer" → ∃ path, url = p_issuer p +s path ∧ served path = true)) ∧
  "urn:ietf:params:oauth:grant-type:pre-authorized_code" ∈ grant_types_supported ∧
  (∀ r w, is_Some (rq_form r) → FormValue r "grant_type" = "urn:ietf:params:oauth:grant-type:pre-authorized_code" →
     unsupported (fst (Endpoints.TokenHandler p r w)) = true ∧ snd (Endpoints.TokenHandler p r w) = w) ∧
  ("backchannel_logout_supported", JBool true) ∈ DiscoveryDocument (p_issuer p).
Proof.
  split_and!.
  - intros name url. split; [by left|]. intros Hin Hn. unfold DiscoveryDocument in Hin.
    assert (∃ path, url = p_issuer p +s path ∧ path ∈ "/.well-known/openid-credential-issuer" :: (snd <$> endpoint_members)) as (path & -> & Hp).
    { cbn [app fmap list_fmap endpoint_members fst snd] in *.
      repeat (apply elem_of_cons in Hin as [E|Hin]; [first [discriminate E|injection E as -> ->;
        first [done|eexists; split; [reflexivity|repeat first [by left|right]]]]|]).
      by apply not_elem_of_nil in Hin. }
    exists path. split; [done|]. revert Hp. generalize path. clear. apply Forall_forall. vm_compute. by repeat constructor.
  - unfold grant_types_supported. set_solver.
  - intros r w [f Hf] Hg. unfold Endpoints.TokenHandler. rewrite Hf, Hg. done.
  - unfold DiscoveryDocument, endpoint_members. cbn [app fmap list_fmap]. set_solver.
Qed.

(** ** Published keys *)

(** The keys published suffice to verify the provider's tokens: each names the algorithm
    and decodes to a key under which every token the provider signs is accepted with its
    claims until the second of its expiry. *)
Theorem published_keys_verify `{Ed25519Ok} {St} p c (w : World St) :
  claims_ok c → length (p_signingKey p) = 64 → (unix (w_clock w (w_nclock w)) ≤ cl_ExpiresAt c)%Z →
  publicJWKS p ≠ [] ∧
  ∀ k, k ∈ publicJWKS p → jwk_Kid k = p_keyID p ∧
    ∃ pub, Base64.DecodeString (jwk_X k) = Some pub ∧
      fst (Verify (signJWT (claims_payload c) (p_signingKey p) (p_keyID p)) pub w) = Ok c.
Proof.
  intros Hc Hk Ht. split; [done|]. intros k Hin. apply list_elem_of_singleton in Hin as ->. split; [done|].
  exists (ed_public (p_signingKey p)). split; [apply Base64.DecodeString_EncodeToString|].
  rewrite Verify_signed by done. case_match; [lia|done].
Qed.

(** ** Back-channel logout *)

Section Backchannel.
Context (url_ok : string → bool) (answer : nat → result Z).
Definition accepted (i : nat) : bool := match answer i with Ok st => (st <? 300)%Z | Err _ => false end.

Lemma logout_attempts_spec n attempt uri e0 : url_ok uri = true →
  let '(k, e) := logout_attempts url_ok answer n attempt uri e0 in
  k ≤ n ∧ (e = Ok tt ↔ n = 0 ∧ e0 = Ok tt ∨ existsb accepted (seq attempt k) = true) ∧
  (∀ i, i < pred k → accepted (attempt + i) = false) ∧ (existsb accepted (seq attempt k) = false → k = n).
Proof.
  intros Hu. revert attempt e0. induction n as [|n IH]; intros attempt e0; cbn [logout_attempts].
  { split_and!; [lia| |intros; lia|done]. cbn. naive_solver. }
  rewrite Hu. cbn [negb]. destruct (answer attempt) as [st|err] eqn:Ea.
  - destruct (st <? 300)%Z eqn:Es.
    + assert (accepted attempt = true) as Hacc by (unfold accepted; by rewrite Ea).
      split_and!; [lia| |intros; lia|]; cbn [seq existsb]; rewrite Hacc; [|done]. naive_solver.
    + assert (accepted attempt = false) as Hacc by (unfold accepted; by rewrite Ea).
      specialize (IH (S attempt) (Err (ErrMsg ("backchannel: server returned HTTP " +s Itoa st)))).
      destruct (logout_attempts _ _ _ _ _ _) as [k e]. destruct IH as (Hk & He & Hi & Hf). cbn [seq existsb]. rewrite Hacc. cbn [orb].
      split_and!; [lia|rewrite He; naive_solver| |intros; f_equal; auto].
      intros [|i] Hlt; [by rewrite Nat.add_0_r|]. cbn in Hlt. rewrite <-Nat.add_succ_comm. apply Hi. lia.
  - assert (accepted attempt = false) as Hacc by (unfold accepted; by rewrite Ea).
    specialize (IH (S attempt) (Err err)).
    destruct (logout_attempts _ _ _ _ _ _) as [k e]. destruct IH as (Hk & He & Hi & Hf). cbn [seq existsb]. rewrite Hacc. cbn [orb].
    split_and!; [lia|rewrite He; naive_solver| |intros; f_equal; auto].
    intros [|i] Hlt; [by rewrite Nat.add_0_r|]. cbn in Hlt. rewrite <-Nat.add_succ_comm. apply Hi. lia.
Qed.

(** The outcome of a delivery to [uri]: what was sent and the error returned. *)
Definition delivered `{Ed25519} p clientID subjectDID uri now (a : option (string * string * nat) * result unit) : Prop :=
  match fst a with
  | None => uri = "" ∧ snd a = Ok tt
  | Some (target, token, posts) => target = uri ∧ posts ≤ 3 ∧
      (∃ jti, token = signJWT (logout_claims p clientID subjectDID jti now) (p_signingKey p) (p_keyID p)) ∧
      (snd a = Ok tt ↔ ∃ i, i < posts ∧ accepted i = true) ∧ (∀ i, S i < posts → accepted i = false) ∧
      (snd a ≠ Ok tt → posts = 3)
  end.

(** Back-channel logout ends: a client without a logout URI is left alone; to one with a
    well-formed URI at most three posts of one signed token for the subject are made, none
    after one that was answered below 300, and the outcome is success exactly when there
    was such an answer. *)
Theorem backchannel_logout_bounded `{Ed25519} p clientID subjectDID row (w : World Srv) :
  no_faults w → rand_ok w → oidc_clients (srv_db (w_state w)) !! clientID = Some row →
  let uri := cr_BackchannelLogoutURI row in
  uri = "" ∨ url_ok uri = true →
  delivered p clientID subjectDID uri (w_clock w (w_nclock w))
    (fst (SendBackChannelLogout p url_ok answer clientID subjectDID w)).
Proof.
  intros Hnf Hrand Hrow uri Hurl. destruct w as [clk nc rnd nr flt nf [d rev evs]]. cbn [w_state srv_db w_clock w_nclock] in *.
  match goal with |- ?P (fst (?m ?w)) => change (wp m (λ a _, P a) w) end.
  unfold SendBackChannelLogout, GetClient, randomHex, client_row, select.
  apply wp_bind, wp_bind, wp_query; [intros ? E; specialize (Hnf nf); cbn in Hnf; congruence|intros _]. rewrite Hrow. apply wp_ret.
  cbn [of_option fmap result_fmap wrap_err scanClient c_BackchannelLogoutURI]. fold uri.
  destruct (String.eqb_spec uri "") as [E|Hne]; [by apply wp_ret|].
  destruct Hurl as [?|Hurl]; [done|].
  apply wp_bind, wp_bind, wp_rand; [intros E; destruct (Hrand nr) as [x Hx]; cbn in Hx; congruence|intros f _].
  apply wp_ret. cbn [fmap result_fmap]. apply wp_bind, wp_time.
  pose proof (logout_attempts_spec 3 0 uri (Ok tt) Hurl) as Hs.
  destruct (logout_attempts url_ok answer 3 0 uri (Ok tt)) as [k e]. apply wp_ret.
  destruct Hs as (Hk & He & Hi & Hf). unfold delivered. cbn [fst snd].
  assert (existsb accepted (seq 0 k) = true ↔ ∃ i, i < k ∧ accepted i = true) as Hex.
  { rewrite existsb_exists. split; intros (i & Hin & Ha); exists i; (split; [|done]);
      [apply in_seq in Hin; lia|apply in_seq; lia]. }
  split_and!; [done|done|by eexists| | |].
  - rewrite He, Hex. naive_solver.
  - intros i Hlt. apply (Hi i). lia.
  - intros Hno. apply Hf. destruct (existsb _ _); [|done]. naive_solver.
Qed.
End Backchannel.

(** ** WebFinger *)

Lemma bprefix_inv a s : bprefix a s = true → ∃ r, s = a ++ r.
Proof.
  revert s. induction a as [|c a IH]; intros s; [by exists s|]. destruct s as [|c' s]; [done|]. cbn [bprefix].
  intros [E Hp]%andb_true_iff. destruct (beqb_spec c c') as [->|]; [|done]. destruct (IH s Hp) as [r ->]. by exists r.
Qed.
Lemma HasPrefix_inv s a : HasPrefix s a = true → ∃ r, s = a +s r.
Proof.
  intros [r E]%bprefix_inv. exists (str_of r). apply bytes_of_inj. by rewrite bytes_of_append, bytes_of_str_of.
Qed.
Lemma bsplit_two_left sep cur s a b : sep ∉ cur → bsplit_n sep 2 cur s = [a; b] → sep ∉ a.
Proof.
  revert cur. induction s as [|c s IH]; intros cur Hc; simpl; [done|].
  destruct (beqb_spec c sep) as [->|Hn].
  - rewrite BridgeApiProofs.bsplit_n_one. intros [= <- _]. by rewrite list_elem_of_In, <-in_rev, <-list_elem_of_In.
  - apply IH. set_solver.
Qed.
(** The slash ends the host: what is before it in [h ++ t] when [h] has none. *)
Lemma before_slash_app h t : x2f ∉ bytes_of h → before_slash (h +s t) = h +s before_slash t.
Proof.
  intros Hh. apply bytes_of_inj. rewrite bytes_of_append. unfold before_slash. rewrite bytes_of_append.
  assert (bindex [x2f] (bytes_of h ++ bytes_of t) = Nat.add (length (bytes_of h)) <$> bindex [x2f] (bytes_of t)) as ->.
  { induction (bytes_of h) as [|c l IH]; [by destruct (bindex _ _)|]. cbn [app bindex bprefix length].
    destruct (beqb_spec x2f c) as [<-|]; [set_solver|]. cbn [andb]. rewrite IH by set_solver. by destruct (bindex _ (bytes_of t)). }
  destruct (bindex [x2f] (bytes_of t)) as [i|]; cbn [fmap option_fmap option_map].
  - rewrite !bytes_of_str_of. rewrite take_app_add. done.
  - by rewrite bytes_of_append.
Qed.
Lemma TrimPrefix_no s a : HasPrefix s a = false → TrimPrefix s a = s.
Proof. unfold TrimPrefix. by intros ->. Qed.
(** A text that [h ++ t] starts with is [h] and more, unless [h] starts it. *)
Lemma HasPrefix_long a h t : x2f ∉ bytes_of h → HasPrefix (h +s t) (a +s "//") = true → HasPrefix a h = true.
Proof.
  unfold HasPrefix. rewrite !bytes_of_append. change (bytes_of "//") with [x2f; x2f].
  generalize (bytes_of h) (bytes_of a) (bytes_of t). clear. intros h a t Hh [r E]%bprefix_inv.
  revert a E. induction h as [|c h IH]; intros a E; [done|]. destruct a as [|c' a]; cbn [app] in E; injection E as Ec E.
  - exfalso. apply Hh. rewrite Ec. by left.
  - rewrite Ec. cbn [bprefix]. rewrite beqb_refl. apply IH; [set_solver|exact E].
Qed.
Lemma url_host_issuer scheme h t : scheme = "https://" ∨ scheme = "http://" → x2f ∉ bytes_of h → HasPrefix "http:" h = false →
  url_host (scheme +s h +s t) = h +s before_slash t.
Proof.
  intros Hs Hh Hp. unfold url_host. rewrite <-before_slash_app by done. f_equal.
  assert (HasPrefix (h +s t) "http://" = false) as Hn.
  { destruct (HasPrefix (h +s t) "http://") eqn:E; [|done]. apply (HasPrefix_long "http:") in E; [congruence|done]. }
  destruct Hs as [->| ->].
  - rewrite (proj1 (Did.TrimPrefix_append "https://" _)). by apply TrimPrefix_no.
  - rewrite (TrimPrefix_no _ "https://") by done. apply (proj1 (Did.TrimPrefix_append "http://" _)).
Qed.
Lemma length_ToLower s : length (bytes_of (ToLower s)) = length (bytes_of s).
Proof. unfold ToLower. by rewrite bytes_of_str_of, length_fmap. Qed.
Lemma before_slash_empty t : before_slash t = "" → t = "" ∨ ∃ r, t = "/" +s r.
Proof.
  unfold before_slash. destruct (bytes_of t) as [|c l] eqn:E.
  { intros _. left. by apply (bytes_of_inj t ""). }
  cbn [bindex bprefix]. destruct (beqb_spec x2f c) as [<-|Hn]; cbn [andb].
  - intros _. right. exists (str_of l). apply bytes_of_inj. rewrite bytes_of_append, bytes_of_str_of. by rewrite E.
  - destruct (bindex [x2f] l) as [i|]; cbn [fmap option_fmap option_map take]; [done|intros ->; done].
Qed.

(** WebFinger speaks for this issuer only: whatever is asked, an answer refers to the
    provider's issuer, and the resource is an account at the issuer's host, in any case of
    its letters, the issuer itself, or a URL below it. *)
Theorem webfinger_only_issuer p r (w : World Srv) scheme h :
  p_issuer p = scheme +s h → scheme = "https://" ∨ scheme = "http://" → x2f ∉ bytes_of h → HasPrefix "http:" h = false →
  status_of (fst (WebFingerHandler p r w)) = StatusOK →
  let resource := Query r "resource" in
  fst (WebFingerHandler p r w) = JsonResp StatusOK
    [("links", JArr [JObj [("href", JStr (p_issuer p)); ("rel", JStr "http://openid.net/specs/connect/1.0/issuer")]]);
     ("subject", JStr resource)] ∧
  ((∃ user host, resource = "acct:" +s user +s "@" +s host ∧ ToLower host = ToLower h ∧ x40 ∉ bytes_of user) ∨
   resource = p_issuer p ∨ ∃ rest, resource = p_issuer p +s "/" +s rest).
Proof.
  intros Hiss Hs Hh Hp Hok resource. unfold WebFingerHandler in *. fold resource in Hok |- *.
  assert (url_host (p_issuer p) = h) as Hih.
  { rewrite Hiss. pose proof (url_host_issuer scheme h "" Hs Hh Hp) as E. apply bytes_of_inj.
    apply (f_equal bytes_of) in E. rewrite bytes_of_append in E. change (bytes_of (before_slash "")) with (@nil byte) in E.
    rewrite app_nil_r in E. rewrite <-E. do 2 f_equal. apply bytes_of_inj. rewrite !bytes_of_append. by rewrite app_nil_r. }
  destruct (resource =s ""); [done|].
  destruct (HasPrefix resource "acct:") eqn:Ha.
  - destruct (HasPrefix_inv _ _ Ha) as [t Ht]. rewrite Ht in Hok |- *. rewrite (proj1 (Did.TrimPrefix_append "acct:" t)) in Hok |- *.
    unfold SplitN in *. destruct (bsplit_n x40 2 [] (bytes_of t)) as [|user [|host [|]]] eqn:Esp; try done.
    cbn [fmap list_fmap] in *. destruct (EqualFold (str_of host) _) eqn:Ef; [|done]. split; [done|]. left.
    exists (str_of user), (str_of host). rewrite bytes_of_str_of. split_and!.
    + f_equal. apply bytes_of_inj. rewrite !bytes_of_append, !bytes_of_str_of. by apply BridgeApiProofs.bsplit_n_two in Esp.
    + rewrite Hih in Ef. by apply String.eqb_eq in Ef.
    + eapply bsplit_two_left; [|exact Esp]. set_solver.
  - destruct (_ || _); [|done]. destruct (HasPrefix resource (p_issuer p)) eqn:Hi; [|done]. cbn [negb] in *.
    destruct (EqualFold (url_host resource) _) eqn:Ef; [|done]. split; [done|]. right.
    destruct (HasPrefix_inv _ _ Hi) as [t Ht]. rewrite Hih in Ef. apply String.eqb_eq in Ef.
    assert (before_slash t = "") as Hb.
    { rewrite Ht, Hiss in Ef. replace ((scheme +s h) +s t) with (scheme +s h +s t) in Ef
        by (apply bytes_of_inj; by rewrite !bytes_of_append, <-app_assoc).
      rewrite url_host_issuer in Ef by done. apply (f_equal (λ s, length (bytes_of s))) in Ef.
      rewrite !length_ToLower, bytes_of_append, length_app in Ef. apply (bytes_of_inj _ ""), nil_length_inv. lia. }
    destruct (before_slash_empty t Hb) as [->|[rest ->]].
    + left. rewrite Ht. apply bytes_of_inj. by rewrite bytes_of_append, app_nil_r.
    + right. by exists rest.
Qed.

(** ** Readiness *)

(** The readiness probe reflects the database: the answer is 200 exactly when the driver
    answered the query, with a row or without, or failed with a text that speaks of
    missing rows; and the probe changes nothing. *)
Theorem readiness_reflects_store r (w : World Srv) :
  let healthy := match w_fault w (w_nfault w) with
                 | None => true
                 | Some msg => let m := "get identity: " +s msg in Contains m "not found" || Contains m "no rows"
                 end in
  status_of (fst (handleReadiness r w)) = (if healthy then StatusOK else 503%Z) ∧
  w_state (snd (handleReadiness r w)) = w_state w.
Proof.
  destruct w as [clk nc rnd nr flt nf [d rev evs]]. cbv zeta. cbn [w_fault w_nfault w_state].
  match goal with |- status_of (fst (?m ?w)) = ?b ∧ _ => change (wp m (λ a w', status_of a = b ∧ w_state w' = mkSrv d rev evs) w) end.
  unfold handleReadiness, pingStore, GetIdentity.
  apply wp_bind, wp_bind, wp_bind, wp_query; [intros msg Hf|intros Hf]; rewrite Hf; apply wp_ret.
  - cbn [wrap_err error_string]. apply wp_ret. change (String.append "get identity" (String.append ": " msg)) with ("get identity: " +s msg).
    destruct (_ || _); by apply wp_ret.
  - destruct (select _ _) as [i|e] eqn:Es; cbn [wrap_err error_string]; apply wp_ret; [by apply wp_ret|].
    unfold select in Es. destruct (identities d !! _); [done|]. injection Es as <-. by apply wp_ret.
Qed.

(** ** Instances *)

#[local] Existing Instance digest_scheme.
#[local] Existing Instance digest_scheme_ok.

Definition registration_request : Request :=
  mkRequest [] None [] None [] "" (Some (JObj [("client_name", JStr "App"); ("redirect_uris", JArr [JStr "https://app.example/cb"])])).
Lemma registration_created :
  status_of (fst (RegisterClientHandler registration_request (sample_srv (empty_db true)))) = StatusCreated.
Proof. vm_compute. reflexivity. Qed.
Lemma registered_client_authenticates_witness : ∃ req clientID secret,
  BridgeApi.body_object registration_request ≫= decode_client = Some req ∧
  auth_method req = "client_secret_basic" ∧
  fst (validateClientAuth (mkRequest [] (Some [("client_secret", secret)]) [] None [] "" None) clientID
         (snd (RegisterClientHandler registration_request (sample_srv (empty_db true))))) = Ok tt.
Proof.
  destruct (registered_client_authenticates registration_request (sample_srv (empty_db true)) _ _
    (surjective_pairing _) registration_created) as (req & id & secret & now & issued & Hreq & _ & Hsec & Hauth & _).
  exists req, id, secret. split; [done|]. vm_compute in Hreq. injection Hreq as <-. split; [reflexivity|].
  apply Hauth; [reflexivity|reflexivity|]. right. split; [|reflexivity].
  intros E. cbn in E. by rewrite E in Hsec.
Defined.

Lemma published_keys_verify_witness :
  ∀ k, k ∈ publicJWKS sample_provider → ∃ pub, Base64.DecodeString (jwk_X k) = Some pub ∧
    fst (Verify (signJWT (claims_payload sample_claims) (p_signingKey sample_provider) "k1") pub sample_world) = Ok sample_claims.
Proof.
  apply (published_keys_verify sample_provider sample_claims sample_world sample_claims_ok eq_refl).
  vm_compute. discriminate.
Defined.

Definition logout_row : ClientRow :=
  mkClientRow "app" "" "App" "" "none" "" "" "" "" "https://app.example/logout" "" 0.
Definition logout_world : World Srv := sample_srv (set_oidc_clients {[ "app" := logout_row ]} (empty_db true)).
Definition third_time (n : nat) : result Z := if Nat.eqb n 2 then Ok 200%Z else Err (ErrMsg "connection refused").
Lemma backchannel_logout_bounded_witness :
  delivered third_time sample_provider "app" "did:key:alice" "https://app.example/logout" (1001 * second)
    (fst (SendBackChannelLogout sample_provider (λ _, true) third_time "app" "did:key:alice" logout_world)).
Proof.
  apply (backchannel_logout_bounded (λ _, true) third_time sample_provider "app" "did:key:alice" logout_row logout_world).
  - intros n. reflexivity.
  - intros n. by eexists.
  - apply lookup_singleton_eq.
  - by right.
Defined.

Definition finger_request : Request := mkRequest [("resource", "acct:alice@ID.example")] None [] None [] "" None.
Lemma webfinger_only_issuer_witness : ∃ user host, "acct:alice@ID.example" = "acct:" +s user +s "@" +s host ∧ ToLower host = "id.example".
Proof.
  destruct (webfinger_only_issuer sample_provider finger_request (sample_srv (empty_db true)) "https://" "id.example" eq_refl
    (or_introl eq_refl)) as [_ H]; [vm_compute; set_solver|reflexivity|reflexivity|].
  cbv zeta in H. change (Query finger_request "resource") with "acct:alice@ID.example" in H.
  destruct H as [(user & host & E & Hl & _)|[H|[rest H]]]; [by exists user, host|discriminate H|discriminate H].
Defined.
End DiscoveryProofs.
