(* ===== verification/Oid4vp.v ===== *)
(** * Presentations over OpenID (oidc/oid4vp.go) and credential offers (oidc/oid4vci.go)

    The verifier's requests and the wallets' responses live in two maps in memory, which
    the handlers read and write and a timer sweeps; the lock makes each access atomic.
    Credential offers live in the database.  A moment is rendered in UTC. *)

From S2P Require Import Prelude GoStd World Json JsonValue Sha Http Crypto Consent StoreTypes Store StoreAuth Jwt Provider Schema Vc BridgeApi Didcomm Discovery.
Import JsonValue Http Jwt Types Store StoreAuth Provider.

Module Oid4vp.

(** ** Requests and responses *)

(** A definition of type [any] that is not nil. *)
Record OID4VPRequest := mkOID4VPRequest {
  vp_ID : string; vp_ClientID : string; vp_ResponseType : string; vp_ResponseMode : string; vp_ResponseURI : string;
  vp_Nonce : string; vp_PresentationDefinition : json; vp_State : string; vp_ExpiresAt : Z; vp_CreatedAt : Z }.
Record OID4VPResponse := mkOID4VPResponse {
  vs_RequestID : string; vs_VPToken : string; vs_State : string; vs_ReceivedAt : Z; vs_Error : string }.
Record OID4VPStore := mkOID4VPStore {
  requests : gmap string OID4VPRequest; responses : gmap string OID4VPResponse }.
Definition newOID4VPStore : OID4VPStore := mkOID4VPStore ∅ ∅.

(** One pass over the requests; a deletion during the pass affects no other entry. *)
Definition evict_at (now : Z) (s : OID4VPStore) : OID4VPStore :=
  let expired id := match requests s !! id with Some req => bool_decide (vp_ExpiresAt req < now)%Z | None => false end in
  mkOID4VPStore (filter (λ kv, expired kv.1 = false) (requests s)) (filter (λ kv, expired kv.1 = false) (responses s)).
Definition evict : M OID4VPStore unit :=
  now ← time_now;
  modify (evict_at now).

(** [time.Duration(n) * time.Second], an int64. *)
Definition int64 (z : Z) : Z := ((z + 2 ^ 63) mod 2 ^ 64 - 2 ^ 63)%Z.
Definition seconds (n : Z) : Z := int64 (n * second).
Definition ttl_or (n d : Z) : Z := let ttl := seconds n in if (ttl <=? 0)%Z then d else ttl.
(** [id, _ := randomHex(n)]. *)
Definition hex_or_empty {St} (n : nat) : M St string :=
  b ← rand_read n;
  mret (match b with Ok l => Sha.hex l | Err _ => "" end).

Section Handlers.
Context `{Ed25519, Float64} (p : Provider).

Record createRequest := mkCreateRequest {
  cq_ClientID : string; cq_PresentationDefinition : option json; cq_ExpiresIn : Z; cq_ResponseMode : string }.
Definition decode_create (l : list (string * json)) : option createRequest :=
  c ← str_field "client_id" l; d ← Didcomm.any_field "presentation_definition" l; e ← int_field "expires_in" l;
  m ← str_field "response_mode" l; Some (mkCreateRequest c d e m).
Definition request_uri (id : string) : string := p_issuer p +s "/oid4vp/requests/" +s id.
Definition deep_link (id clientID : string) : string :=
  "openid4vp://?request_uri=" +s request_uri id +s "&client_id=" +s clientID.

Definition CreateRequestHandler (r : Request) : M OID4VPStore Response :=
  match BridgeApi.body_object r ≫= decode_create with
  | None => mret (writeError "invalid_request" "invalid JSON body")
  | Some req =>
  match cq_PresentationDefinition req with
  | None => mret (writeError "invalid_request" "presentation_definition required")
  | Some def =>
  let ttl := ttl_or (cq_ExpiresIn req) (5 * minute) in
  let mode := if cq_ResponseMode req =s "" then "direct_post" else cq_ResponseMode req in
  id ← hex_or_empty 16;
  nonce ← hex_or_empty 16;
  t1 ← time_now; t2 ← time_now;
  let pReq := mkOID4VPRequest id (cq_ClientID req) "vp_token" mode (p_issuer p +s "/oid4vp/responses") nonce def ""
                (t1 + ttl)%Z t2 in
  _ ← modify (λ s, mkOID4VPStore (<[id := pReq]> (requests s)) (responses s));
  let link := deep_link id (cq_ClientID req) in
  mret (JsonBody StatusOK (at_ ← Vc.time_value (vp_ExpiresAt pReq);
    Some (JObj (of_pairs [("request_id", JStr id); ("request_uri", JStr (request_uri id)); ("deep_link", JStr link);
      ("qr_data", JStr link); ("nonce", JStr nonce); ("expires_at", at_)]))))
  end end.

Definition request_object (q : OID4VPRequest) : list (string * json) :=
  [("response_type", JStr (vp_ResponseType q)); ("response_mode", JStr (vp_ResponseMode q));
   ("response_uri", JStr (vp_ResponseURI q)); ("client_id", JStr (vp_ClientID q)); ("nonce", JStr (vp_Nonce q));
   ("presentation_definition", vp_PresentationDefinition q); ("state", JStr (vp_ID q))].
Definition GetRequestHandler (r : Request) : M OID4VPStore Response :=
  s ← get_state;
  match requests s !! PathValue r "id" with
  | None => mret (HttpError StatusNotFound "request not found")
  | Some pReq =>
  now ← time_now;
  if (vp_ExpiresAt pReq <? now)%Z then mret (HttpError 410 "request expired") else
  t ← time_now;
  reqJWT ← issueJWTWithExtra (p_issuer p) (vp_ClientID pReq) (p_issuer p) (vp_ExpiresAt pReq - t)%Z
             (p_signingKey p) (p_keyID p) (request_object pReq);
  mret (HttpError StatusOK reqJWT)
  end.

Definition PostResponseHandler (r : Request) : M OID4VPStore Response :=
  match rq_form r with
  | None => mret (writeError "invalid_request" "could not parse form")
  | Some _ =>
  let vpToken := FormValue r "vp_token" in
  let state := FormValue r "state" in
  if vpToken =s "" then mret (writeError "invalid_request" "vp_token required") else
  now ← time_now;
  _ ← modify (λ s, mkOID4VPStore (requests s) (<[state := mkOID4VPResponse state vpToken state now ""]> (responses s)));
  mret (JsonResp StatusOK [("redirect_uri", JStr (p_issuer p +s "/oid4vp/responses/" +s state +s "/result"))])
  end.

Definition GetResponseHandler (r : Request) : M OID4VPStore Response :=
  s ← get_state;
  match responses s !! PathValue r "id" with
  | None => mret (JsonResp 202 [("message", JStr "Waiting for wallet to submit presentation."); ("status", JStr "pending")])
  | Some resp => mret (JsonBody StatusOK (at_ ← Vc.time_value (vs_ReceivedAt resp);
      Some (JObj [("received_at", at_); ("status", JStr "complete"); ("vp_token", JStr (vs_VPToken resp))])))
  end.

(** ** Credential offers *)

Definition config_of (s : Schema.Schema) : json :=
  JObj [("credential_definition", JObj [("type", JArr [JStr "VerifiableCredential"; JStr (Schema.sch_Name s)])]);
        ("display", JArr [JObj [("locale", JStr "en-NZ"); ("name", JStr (Schema.sch_Name s))]]);
        ("format", JStr "jwt_vc_json"); ("scope", JStr ("credential:" +s Schema.sch_ID s));
        ("vct", JStr (Schema.sch_ID s))].
Definition CredentialIssuerMetadataHandler {St} (reg : Schema.Registry) (r : Request) : M St Response :=
  mret (JsonResp StatusOK (of_pairs
    [("credential_issuer", JStr (p_issuer p)); ("authorization_servers", JArr [JStr (p_issuer p)]);
     ("credential_endpoint", JStr (p_issuer p +s "/oid4vci/credential"));
     ("deferred_credential_endpoint", JStr (p_issuer p +s "/oid4vci/deferred"));
     ("notification_endpoint", JStr (p_issuer p +s "/oid4vci/notification"));
     ("credential_response_encryption_alg_values_supported", JArr [JStr "ECDH-ES"]);
     ("credential_configurations_supported",
        JObj (of_pairs ((λ s, (Schema.sch_ID s, config_of s)) <$> Schema.AllSchemas reg)));
     ("batch_credential_issuance", JObj [("batch_size", JInt 10)])])).

Record offerRequest := mkOfferRequest {
  oq_SchemaIDs : list string; oq_SubjectDID : string; oq_ClientID : string; oq_ExpiresIn : Z }.
Definition decode_offer (l : list (string * json)) : option offerRequest :=
  ss ← strs_field "schema_ids" l; s ← str_field "subject_did" l; c ← str_field "client_id" l;
  e ← int_field "expires_in" l; Some (mkOfferRequest ss s c e).
Definition offer_json (schemaIDs : list string) (id : string) : json :=
  JObj [("credential_configuration_ids", JArr (JStr <$> schemaIDs)); ("credential_issuer", JStr (p_issuer p));
        ("grants", JObj [("urn:ietf:params:oauth:grant-type:pre-authorized_code",
          JObj [("pre-authorized_code", JStr id);
                ("tx_code", JObj [("description", JStr "Enter the PIN shown on your issuer portal");
                                  ("input_mode", JStr "numeric"); ("length", JInt 6)])])])].
(** [strings.ReplaceAll(s, " ", "")]. *)
Definition without_spaces (s : list byte) : list byte := filter (λ c, c ≠ x20) s.
Definition CreateCredentialOfferHandler (r : Request) : M Srv Response :=
  match BridgeApi.body_object r ≫= decode_offer with
  | None => mret (writeError "invalid_request" "invalid JSON body")
  | Some req =>
  match oq_SchemaIDs req with
  | [] => mret (writeError "invalid_request" "schema_ids required")
  | _ =>
  let ttl := ttl_or (oq_ExpiresIn req) (10 * minute) in
  rid ← randomHex 16;
  match rid with
  | Err _ => mret internalError
  | Ok id =>
  t1 ← time_now; t2 ← time_now;
  let offer := mkCredentialOffer id (oq_ClientID req) (oq_SchemaIDs req) (p_issuer p) (oq_SubjectDID req)
                 (t1 + ttl)%Z false t2 in
  saved ← SaveCredentialOffer offer;
  match saved with
  | Err _ => mret internalError
  | Ok _ =>
  let link := "openid-credential-offer://?credential_offer=" +s
                str_of (without_spaces (marshal (offer_json (oq_SchemaIDs req) id))) in
  mret (JsonBody StatusOK (at_ ← Vc.time_value (co_ExpiresAt offer);
    Some (JObj (of_pairs [("offer_id", JStr id); ("deep_link", JStr link); ("qr_data", JStr link); ("expires_at", at_)]))))
  end end end end.
End Handlers.
End Oid4vp.
