(* ===== verification/Oid4vpProofs.v ===== *)
(** * Presentations over OpenID and credential offers: what they guarantee

    The two maps implement one slot per identifier, with the expiry of the request and
    the token last posted; the request object is signed; an offer yields one token. *)

From S2P Require Import Prelude GoStd World Json JsonValue Base64 Sha Http Crypto Consent StoreTypes Store StoreAuth Logic Jwt Provider ProviderProofs Endpoints Vc VcProofs BridgeApi WebhooksProofs Didcomm Canonical Discovery DiscoveryProofs Oid4vp.
Import JsonValue Http Jwt Types Store StoreAuth Provider ProviderProofs Oid4vp.

Module Oid4vpProofs.

(** ** The abstract machine

    One slot per identifier and the instant at which an operation begins; which answer is
    given, and what becomes of every slot, is determined by these and the request, up to
    the identifier and the nonce drawn for a new request. *)

(** What a verifier asked for. *)
Record Asked := mkAsked {
  as_ID : string; as_ClientID : string; as_Mode : string; as_Nonce : string; as_Definition : json; as_Expires : Z }.
(** The request of an identifier, and the token last posted under it with its instant. *)
Definition slot : Type := option Asked * option (string * Z).
Inductive Op := Create (r : Request) | Fetch (r : Request) | Respond (r : Request) | Poll (r : Request) | Sweep.

(** What a poll answers: that it waits, or the token and when it came.  A moment that JSON
    cannot render leaves the body empty. *)
Definition reports (tok : option (string * Z)) (resp : Response) : Prop :=
  match tok with
  | None => status_of resp = 202%Z
  | Some (t, at_) => ∃ body, resp = JsonBody StatusOK body ∧ (body = None ↔ Vc.time_value at_ = None) ∧
      ∀ j, body = Some j → ∃ l, j = JObj l ∧ aget "status" l = Some (JStr "complete") ∧ aget "vp_token" l = Some (JStr t) ∧
        aget "received_at" l = Vc.time_value at_
  end.
(** What the creation of a request answers. *)
Definition names (resp : Response) (q : Asked) : Prop :=
  ∃ body, resp = JsonBody StatusOK body ∧ (body = None ↔ Vc.time_value (as_Expires q) = None) ∧
    ∀ j, body = Some j → ∃ l, j = JObj l ∧ aget "request_id" l = Some (JStr (as_ID q)) ∧
      aget "nonce" l = Some (JStr (as_Nonce q)) ∧ aget "expires_at" l = Vc.time_value (as_Expires q).
(** A request object for what was asked, signed by the provider. *)
Definition carries `{Ed25519} (p : Provider) (token : string) (q : Asked) : Prop :=
  ∃ payload, token = signJWT payload (p_signingKey p) (p_keyID p) ∧
    aget "state" payload = Some (JStr (as_ID q)) ∧ aget "client_id" payload = Some (JStr (as_ClientID q)) ∧
    aget "response_mode" payload = Some (JStr (as_Mode q)) ∧ aget "nonce" payload = Some (JStr (as_Nonce q)) ∧
    aget "presentation_definition" payload = Some (as_Definition q).
Definition swept (now : Z) (s : slot) : slot :=
  match s with (Some q, tok) => if (as_Expires q <? now)%Z then (None, None) else s | _ => s end.
(** The body of a creation, if it is acceptable: it decodes and has a definition. *)
Definition acceptable `{Float64} (r : Request) : option (createRequest * json) :=
  req ← BridgeApi.body_object r ≫= decode_create; def ← cq_PresentationDefinition req; Some (req, def).

Section Machine.
Context `{Ed25519, Float64} (p : Provider).
Inductive spec (a : string → slot) (t : Z) : Op → option Response → (string → slot) → Prop :=
| spec_create r req def id nonce resp a' :
    acceptable r = Some (req, def) →
    let q := mkAsked id (cq_ClientID req) (if cq_ResponseMode req =s "" then "direct_post" else cq_ResponseMode req)
               nonce def (t + ttl_or (cq_ExpiresIn req) (5 * minute))%Z in
    names resp q → a' id = (Some q, snd (a id)) → (∀ i, i ≠ id → a' i = a i) →
    spec a t (Create r) (Some resp) a'
| spec_refuse r resp a' :
    acceptable r = None → status_of resp = StatusBadRequest → (∀ i, a' i = a i) → spec a t (Create r) (Some resp) a'
| spec_unknown r resp a' :
    fst (a (PathValue r "id")) = None → status_of resp = StatusNotFound → (∀ i, a' i = a i) →
    spec a t (Fetch r) (Some resp) a'
| spec_gone r q resp a' :
    fst (a (PathValue r "id")) = Some q → (as_Expires q < t)%Z → status_of resp = 410%Z → (∀ i, a' i = a i) →
    spec a t (Fetch r) (Some resp) a'
| spec_fetch r q token a' :
    fst (a (PathValue r "id")) = Some q → (t ≤ as_Expires q)%Z → carries p token q → (∀ i, a' i = a i) →
    spec a t (Fetch r) (Some (HttpError StatusOK token)) a'
| spec_respond r resp a' : let id := FormValue r "state" in
    is_Some (rq_form r) → FormValue r "vp_token" ≠ "" → status_of resp = StatusOK →
    a' id = (fst (a id), Some (FormValue r "vp_token", t)) → (∀ i, i ≠ id → a' i = a i) →
    spec a t (Respond r) (Some resp) a'
| spec_reject r resp a' :
    rq_form r = None ∨ FormValue r "vp_token" = "" → status_of resp = StatusBadRequest → (∀ i, a' i = a i) →
    spec a t (Respond r) (Some resp) a'
| spec_poll r resp a' :
    reports (snd (a (PathValue r "id"))) resp → (∀ i, a' i = a i) → spec a t (Poll r) (Some resp) a'
| spec_sweep a' :
    (∀ i, a' i = swept t (a i)) → spec a t Sweep None a'.
(** A run, with the instants at which its operations begin. *)
Inductive spec_run (a : string → slot) : list Z → list Op → list (option Response) → (string → slot) → Prop :=
| run_nil : spec_run a [] [] [] a
| run_cons t ts op ops resp resps a1 a2 :
    spec a t op resp a1 → spec_run a1 ts ops resps a2 → spec_run a (t :: ts) (op :: ops) (resp :: resps) a2.
End Machine.

(** ** The simulation *)

Definition asked_of (q : OID4VPRequest) : Asked :=
  mkAsked (vp_ID q) (vp_ClientID q) (vp_ResponseMode q) (vp_Nonce q) (vp_PresentationDefinition q) (vp_ExpiresAt q).
Definition view (s : OID4VPStore) (id : string) : slot :=
  (asked_of <$> requests s !! id, (λ x, (vs_VPToken x, vs_ReceivedAt x)) <$> responses s !! id).

Section Refinement.
Context `{Ed25519, Float64} (p : Provider).
Definition serve (op : Op) : M OID4VPStore (option Response) :=
  match op with
  | Create r => resp ← CreateRequestHandler p r; mret (Some resp)
  | Fetch r => resp ← GetRequestHandler p r; mret (Some resp)
  | Respond r => resp ← PostResponseHandler p r; mret (Some resp)
  | Poll r => resp ← GetResponseHandler r; mret (Some resp)
  | Sweep => _ ← evict; mret None
  end.
Fixpoint serve_all (ops : list Op) : M OID4VPStore (list (option Response)) :=
  match ops with
  | [] => mret []
  | op :: ops => resp ← serve op; resps ← serve_all ops; mret (resp :: resps)
  end.
(** What the clock reads next when an operation begins. *)
Definition instant (w : World OID4VPStore) : Z := w_clock w (w_nclock w).
Fixpoint instants (ops : list Op) (w : World OID4VPStore) : list Z :=
  match ops with [] => [] | op :: ops => instant w :: instants ops (snd (serve op w)) end.

Lemma view_evict now s id : view (evict_at now s) id = swept now (view s id).
Proof.
  unfold view, evict_at. cbn [requests responses]. rewrite !map_lookup_filter.
  destruct (requests s !! id) as [q|] eqn:Eq; cbn [fmap option_fmap option_map mbind option_bind swept asked_of as_Expires].
  - destruct (Z.ltb_spec (vp_ExpiresAt q) now) as [Hlt|Hge].
    + destruct (responses s !! id) as [x|]; cbn [mbind option_bind].
      all: rewrite ?option_guard_False by (cbn; rewrite Eq, bool_decide_true by done; done); done.
    + destruct (responses s !! id) as [x|]; cbn [mbind option_bind];
        rewrite ?option_guard_True by (cbn; rewrite Eq, bool_decide_false by lia; done); done.
  - destruct (responses s !! id) as [x|]; cbn [mbind option_bind]; [|done].
    rewrite option_guard_True by (cbn; by rewrite Eq). done.
Qed.
Lemma created_members id uri link nonce at_ :
  let l := of_pairs [("request_id", JStr id); ("request_uri", uri); ("deep_link", link); ("qr_data", link);
    ("nonce", nonce); ("expires_at", at_)] in
  aget "request_id" l = Some (JStr id) ∧ aget "nonce" l = Some nonce ∧ aget "expires_at" l = Some at_.
Proof. done. Qed.
Lemma request_object_carries q base :
  carries p (signJWT (foldl (λ acc kv, aset kv.1 kv.2 acc) base (request_object q)) (p_signingKey p) (p_keyID p)) (asked_of q).
Proof.
  eexists. split; [reflexivity|]. unfold request_object. cbn [foldl fst snd asked_of as_ID as_ClientID as_Mode as_Nonce as_Definition].
  split_and!; rewrite ?aget_aset_ne by done; by rewrite ?aget_aset_eq.
Qed.

Lemma create_step r (w : World OID4VPStore) resp w' :
  CreateRequestHandler p r w = (resp, w') → spec p (view (w_state w)) (instant w) (Create r) (Some resp) (view (w_state w')).
Proof.
  unfold CreateRequestHandler. destruct (BridgeApi.body_object r ≫= decode_create) as [req|] eqn:Er.
  2:{ intros [= <- <-]. apply spec_refuse; [unfold acceptable; by rewrite Er|done..]. }
  destruct (cq_PresentationDefinition req) as [def|] eqn:Edef.
  2:{ intros [= <- <-]. apply spec_refuse; [|done..]. unfold acceptable. rewrite Er. cbn. by rewrite Edef. }
  unfold hex_or_empty, mbind, M_bind, time_now, modify, get_state, put_state.
  destruct (rand_read 16 w) as [b1 w1] eqn:E1. cbn [mret M_ret]. destruct (rand_read 16 w1) as [b2 w2] eqn:E2. cbn [mret M_ret w_state].
  assert (w_state w2 = w_state w ∧ w_clock w2 (w_nclock w2) = instant w) as [Hst Hclk].
  { unfold rand_read in E1, E2. injection E1 as <- <-. injection E2 as <- <-. done. }
  intros [= <- <-]. cbn [w_state w_clock w_nclock]. rewrite Hst, Hclk.
  eapply spec_create.
  - unfold acceptable. rewrite Er. cbn [mbind option_bind]. by rewrite Edef.
  - eexists. split; [reflexivity|]. cbn [vp_ExpiresAt as_Expires as_ID as_Nonce].
    destruct (Vc.time_value _) as [at_|]; cbn [mbind option_bind]; [|done]. split; [done|]. intros j Hj.
    apply (inj Some) in Hj. subst j. eexists. split; [reflexivity|]. apply created_members.
  - unfold view. cbn [requests responses snd]. by rewrite lookup_insert_eq.
  - intros i Hi. unfold view. cbn [requests responses]. by rewrite lookup_insert_ne by done.
Qed.
Lemma respond_step r (w : World OID4VPStore) resp w' :
  PostResponseHandler p r w = (resp, w') → spec p (view (w_state w)) (instant w) (Respond r) (Some resp) (view (w_state w')).
Proof.
  unfold PostResponseHandler. destruct (rq_form r) eqn:Ef; [|intros [= <- <-]; apply spec_reject; [by left|done..]].
  destruct (String.eqb_spec (FormValue r "vp_token") "") as [|Hne]; [intros [= <- <-]; apply spec_reject; [by right|done..]|].
  unfold mbind, M_bind, time_now, modify, get_state, put_state. cbn [mret M_ret w_state]. intros [= <- <-]. cbn [w_state].
  apply spec_respond; [by rewrite Ef|done|done|..]; unfold view; cbn [requests responses fst].
  - by rewrite lookup_insert_eq.
  - intros i Hi. by rewrite lookup_insert_ne by done.
Qed.
Lemma issue_run iss sub cl ttl key kid extra (w : World OID4VPStore) :
  issueJWTWithExtra iss sub cl ttl key kid extra w =
  (signJWT (foldl (λ acc kv, aset kv.1 kv.2 acc) (base_payload iss sub cl ttl (w_clock w (w_nclock w))) extra) key kid, snd (time_now w)).
Proof. reflexivity. Qed.
Lemma fetch_step r (w : World OID4VPStore) resp w' :
  GetRequestHandler p r w = (resp, w') → spec p (view (w_state w)) (instant w) (Fetch r) (Some resp) (view (w_state w')).
Proof.
  unfold GetRequestHandler, mbind, M_bind, get_state. cbn [fst snd]. destruct (requests (w_state w) !! _) as [q|] eqn:Eq.
  2:{ intros [= <- <-]. apply spec_unknown; [|done..]. cbn [view fst]. by rewrite Eq. }
  assert (fst (view (w_state w) (PathValue r "id")) = Some (asked_of q)) as Hv by (cbn [view fst]; by rewrite Eq).
  unfold time_now at 1. destruct (Z.ltb_spec (vp_ExpiresAt q) (w_clock w (w_nclock w))) as [Hlt|Hge].
  { intros [= <- <-]. by apply (spec_gone _ _ _ _ (asked_of q)). }
  unfold time_now at 1. cbn [w_clock w_nclock w_rand w_nrand w_fault w_nfault w_state]. rewrite issue_run.
  pose proof (request_object_carries q (base_payload (p_issuer p) (vp_ClientID q) (p_issuer p)
    (vp_ExpiresAt q - w_clock w (S (w_nclock w))) (w_clock w (S (S (w_nclock w)))))) as Hc.
  revert Hc. cbn [w_clock w_nclock mret M_ret]. generalize (signJWT (foldl (λ acc kv, aset kv.1 kv.2 acc)
    (base_payload (p_issuer p) (vp_ClientID q) (p_issuer p)
    (vp_ExpiresAt q - w_clock w (S (w_nclock w))) (w_clock w (S (S (w_nclock w))))) (request_object q)) (p_signingKey p) (p_keyID p)).
  intros token Hc [= <- <-]. exact (spec_fetch p _ _ r (asked_of q) token _ Hv Hge Hc (λ i, eq_refl)).
Qed.
Lemma poll_step r (w : World OID4VPStore) resp w' :
  GetResponseHandler r w = (resp, w') → spec p (view (w_state w)) (instant w) (Poll r) (Some resp) (view (w_state w')).
Proof.
  unfold GetResponseHandler, mbind, M_bind, get_state. cbn [fst snd].
  destruct (responses (w_state w) !! _) as [x|] eqn:Eq; intros [= <- <-]; apply spec_poll; try done;
    cbn [view snd]; rewrite Eq; [|done].
  eexists. split; [reflexivity|]. cbn [fst snd]. destruct (Vc.time_value _) as [at_|]; cbn [mbind option_bind]; [|done].
  split; [done|]. intros j Hj. apply (inj Some) in Hj. subst j. by eexists.
Qed.
Lemma sweep_step (w : World OID4VPStore) :
  spec p (view (w_state w)) (instant w) Sweep None (view (w_state (snd (evict w)))).
Proof. apply spec_sweep. intros i. apply view_evict. Qed.

Lemma oid4vp_run ops (w : World OID4VPStore) resps w' :
  serve_all ops w = (resps, w') →
  ∃ a', spec_run p (view (w_state w)) (instants ops w) ops resps a' ∧ ∀ id, a' id = view (w_state w') id.
Proof.
  revert w resps. induction ops as [|op ops IH]; intros w resps; cbn [serve_all instants].
  { intros [= <- <-]. eexists. split; [constructor|done]. }
  unfold mbind, M_bind. destruct (serve op w) as [resp w1] eqn:E1. destruct (serve_all ops w1) as [rs w2] eqn:E2.
  intros [= <- <-]. cbn [snd]. destruct (IH _ _ E2) as (a' & Hrun & Ha). exists a'. split; [|done]. econstructor; [|exact Hrun].
  destruct op; cbn [serve] in E1; unfold mbind, M_bind in E1.
  - destruct (CreateRequestHandler p r w) as [x w0] eqn:E. injection E1 as <- <-. by apply create_step.
  - destruct (GetRequestHandler p r w) as [x w0] eqn:E. injection E1 as <- <-. by apply fetch_step.
  - destruct (PostResponseHandler p r w) as [x w0] eqn:E. injection E1 as <- <-. by apply respond_step.
  - destruct (GetResponseHandler r w) as [x w0] eqn:E. injection E1 as <- <-. by apply poll_step.
  - pose proof (sweep_step w) as Hs. destruct (evict w) as [x w0] eqn:E. injection E1 as <- <-. exact Hs.
Qed.

(** C28: The handlers of oid4vp.go implement one slot per identifier: whatever requests are
    created and fetched, whatever is posted and polled, and whenever the timer sweeps, the
    answers are those of the abstract machine run at the instants at which the operations
    begin.  A creation is refused exactly if its body does not decode or has no
    definition, and else expires after the lifetime asked for, or five minutes; a fetch
    answers 404 without a request, 410 after its expiry, and else the signed request; a
    post is refused exactly without a form or a token; a poll reports the token last
    posted under its identifier and when, whether or not a request with that identifier
    exists or has expired; only a sweep after the expiry of an existing request forgets
    one. *)
Theorem oid4vp_refines_slots ops (w : World OID4VPStore) resps w' :
  serve_all ops w = (resps, w') →
  ∃ a', spec_run p (view (w_state w)) (instants ops w) ops resps a' ∧ ∀ id, a' id = view (w_state w') id.
Proof.
  apply oid4vp_run.
Qed.

(** Operations that neither create nor post. *)
Definition quiet (op : Op) : bool := match op with Fetch _ | Poll _ | Sweep => true | _ => false end.
Lemma quiet_keeps ops (w : World OID4VPStore) id (t : string * Z) :
  forallb quiet ops = true → view (w_state w) id = (None, Some t) → view (w_state (snd (serve_all ops w))) id = (None, Some t).
Proof.
  intros Hq Hv. destruct (serve_all ops w) as [rs w'] eqn:E. cbn [snd].
  destruct (oid4vp_run ops w rs w' E) as (a' & Hrun & Ha). rewrite <-Ha. clear E Ha.
  revert Hv Hq. induction Hrun as [a|a t0 ts op ops resp resps a1 a2 Hstep Hrun IH]; [done|].
  intros Hv [Hq Hqs]%andb_true_iff. apply IH; [|done].
  destruct Hstep; cbn [quiet] in Hq; try done; try (match goal with H : ∀ i, _ = _ |- _ => rewrite H end; by rewrite ?Hv).
Qed.

(** Nobody has to be asked: a token posted under an identifier for which no request exists
    is reported as the completed response, and no sweep ever forgets it. *)
Theorem unrequested_response_reported r mid r2 (w : World OID4VPStore) :
  let id := FormValue r "state" in
  is_Some (rq_form r) → FormValue r "vp_token" ≠ "" → requests (w_state w) !! id = None →
  forallb quiet mid = true → PathValue r2 "id" = id →
  reports (Some (FormValue r "vp_token", instant w))
    (fst (GetResponseHandler r2 (snd (serve_all mid (snd (PostResponseHandler p r w)))))).
Proof.
  intros id [f Hf] Ht Hnone Hq Hid. set (w1 := snd (PostResponseHandler p r w)).
  assert (view (w_state w1) id = (None, Some (FormValue r "vp_token", instant w))) as Hv.
  { subst w1. unfold PostResponseHandler. rewrite Hf. apply String.eqb_neq in Ht. rewrite Ht.
    unfold mbind, M_bind, time_now, modify, put_state. unfold view. cbn [mret M_ret snd w_state requests responses].
    fold id. rewrite Hnone. f_equal. etrans; [apply (f_equal (fmap _)), lookup_insert_eq|done]. }
  pose proof (quiet_keeps mid w1 id _ Hq Hv) as Hv2. set (w2 := snd (serve_all mid w1)) in *.
  destruct (GetResponseHandler r2 w2) as [resp w3] eqn:E. cbn [fst].
  pose proof (poll_step r2 w2 resp w3 E) as Hs. inversion Hs as [| | | | | | |? ? ? Hrep Hsame|]; subst.
  rewrite Hid, Hv2 in Hrep. exact Hrep.
Qed.
End Refinement.

(** ** The request object *)

(** What a wallet reads of a token that verifies under a key: the members of its payload. *)
Definition wallet_reads `{Ed25519} (token : string) (pub : list byte) : option (list (string * json)) :=
  match SplitN token x2e 3 with
  | [p0; p1; p2] =>
      sig ← Base64.DecodeString p2; payload ← Base64.DecodeString p1;
      if ed_verify pub (bytes_of (p0 +s "." +s p1)) sig
      then match parse payload with Some (JObj l) => Some l | _ => None end else None
  | _ => None
  end.
Lemma wallet_reads_signed `{Ed25519Ok} payload key kid : wf (JObj payload) → length key = 64 →
  wallet_reads (signJWT payload key kid) (ed_public key) = Some payload.
Proof.
  intros Hwf Hk. unfold wallet_reads. rewrite signJWT_segments. cbv zeta. rewrite SplitN_segments.
  rewrite !Base64.DecodeString_EncodeToString. cbn [mbind option_bind]. rewrite ed_verify_sign by done.
  by rewrite parse_marshal.
Qed.
Lemma wf_members l : wf (JObj l) ↔ Forall (λ kv, Json.valid_utf8 kv.1 ∧ wf kv.2) l.
Proof. cbn [wf]. induction l as [|kv l IH]; cbn [foldr]; [done|]. rewrite IH. by rewrite Forall_cons. Qed.

Definition request_ok (p : Provider) (q : OID4VPRequest) : Prop :=
  Forall Json.valid_utf8 [p_issuer p; vp_ID q; vp_ClientID q; vp_ResponseType q; vp_ResponseMode q; vp_ResponseURI q; vp_Nonce q] ∧
  wf (vp_PresentationDefinition q).

(** The request object a wallet fetches is the verifier's: until it expires, the endpoint
    answers with a token that verifies under the provider's key and carries the nonce, the
    definition, the client and the identifier of the request, as they were created. *)
Theorem request_object_signed `{Ed25519Ok, Float64} p r q (w : World OID4VPStore) :
  length (p_signingKey p) = 64 → request_ok p q → requests (w_state w) !! PathValue r "id" = Some q →
  (∀ n, 0 ≤ w_clock w n ∧ w_clock w n ≤ vp_ExpiresAt q < 2 ^ 63)%Z →
  ∃ token l, fst (GetRequestHandler p r w) = HttpError StatusOK token ∧
    wallet_reads token (ed_public (p_signingKey p)) = Some l ∧
    aget "nonce" l = Some (JStr (vp_Nonce q)) ∧ aget "state" l = Some (JStr (vp_ID q)) ∧
    aget "client_id" l = Some (JStr (vp_ClientID q)) ∧ aget "iss" l = Some (JStr (p_issuer p)) ∧
    aget "presentation_definition" l = Some (vp_PresentationDefinition q) ∧
    aget "response_uri" l = Some (JStr (vp_ResponseURI q)).
Proof.
  intros Hk [Hq Hd] Hreq Ht. unfold GetRequestHandler, mbind, M_bind, get_state, time_now, issueJWTWithExtra. cbn [w_state fst snd].
  rewrite Hreq. pose proof (Ht (w_nclock w)) as Ht0. pose proof (Ht (S (w_nclock w))) as Ht1. pose proof (Ht (S (S (w_nclock w)))) as Ht2.
  destruct (Z.ltb_spec (vp_ExpiresAt q) (w_clock w (w_nclock w))) as [|_]; [lia|].
  unfold mbind, M_bind, time_now. cbn [w_clock w_nclock mret M_ret fst snd].
  eexists _, _. split; [reflexivity|]. split; [apply wallet_reads_signed; [|done]|].
  - apply wf_members. unfold unix, second in *. repeat (apply Forall_cons in Hq as [? Hq]). clear Hq.
    apply Canonical.Forall_foldl_aset.
    + unfold request_object. repeat constructor; done.
    + unfold base_payload, of_pairs. apply Canonical.Forall_foldl_aset; [|constructor].
      repeat constructor; cbn [fst snd wf]; try done; unfold unix, second; try apply Z.div_pos; try apply Z.div_lt_upper_bound; lia.
  - unfold request_object. cbn [foldl fst snd].
    split_and!; rewrite ?aget_aset_ne by done; rewrite ?aget_aset_eq; try done.
Qed.

(** ** Credential offers *)


Section Offers.
Context `{Ed25519Ok} (p : Provider).






End Offers.

(** ** Instances *)

#[local] Existing Instance digest_scheme.
#[local] Existing Instance digest_scheme_ok.
#[local] Existing Instance VcProofs.Sample.plain_float.

Definition vp_world (s : OID4VPStore) : World OID4VPStore :=
  mkWorld (λ n, (1000 + Z.of_nat n) * second)%Z 0 (λ n, Some (λ i, byte_of_N (N.of_nat (i + 32 * n)))) 0 (λ _, None) 0 s.
Definition create_body : Request :=
  mkRequest [] None [] None [] "" (Some (JObj [("client_id", JStr "did:web:shop.example");
    ("presentation_definition", JObj [("id", JStr "age")])])).
Definition wallet_post (state token : string) : Request :=
  mkRequest [] (Some [("state", state); ("vp_token", token)]) [] None [] "" None.
Definition poll (id : string) : Request := mkRequest [] None [] None [("id", id)] "" None.
Lemma oid4vp_refines_slots_witness : ∃ a',
  spec_run sample_provider (view newOID4VPStore) [1000 * second; 1002 * second; 1003 * second; 1003 * second]%Z
    [Create create_body; Respond (wallet_post "x" "vp"); Poll (poll "x"); Sweep]
    (fst (serve_all sample_provider [Create create_body; Respond (wallet_post "x" "vp"); Poll (poll "x"); Sweep] (vp_world newOID4VPStore))) a' ∧
  a' "x" = (None, Some ("vp", 1002 * second)%Z).
Proof.
  destruct (oid4vp_refines_slots sample_provider
    [Create create_body; Respond (wallet_post "x" "vp"); Poll (poll "x"); Sweep] (vp_world newOID4VPStore) _ _ (surjective_pairing _))
    as (a' & Hrun & Ha). exists a'. split; [exact Hrun|]. rewrite Ha. vm_compute. reflexivity.
Defined.
Lemma unrequested_response_reported_witness :
  reports (Some ("vp", 1000 * second)%Z) (fst (GetResponseHandler (poll "nobody-asked")
    (snd (serve_all sample_provider [Sweep; Fetch (poll "nobody-asked"); Sweep]
       (snd (PostResponseHandler sample_provider (wallet_post "nobody-asked" "vp") (vp_world newOID4VPStore))))))).
Proof.
  apply (unrequested_response_reported sample_provider (wallet_post "nobody-asked" "vp") _ _ (vp_world newOID4VPStore));
    [by eexists|done|reflexivity|reflexivity|reflexivity].
Defined.

Definition sample_request : OID4VPRequest :=
  mkOID4VPRequest "r1" "did:web:shop.example" "vp_token" "direct_post" "https://id.example/oid4vp/responses" "n0nce"
    (JObj [("id", JStr "age")]) "" (10000 * second) 0.
Definition still_world (s : OID4VPStore) : World OID4VPStore :=
  mkWorld (λ _, 1000 * second)%Z 0 (λ _, None) 0 (λ _, None) 0 s.
Lemma request_object_signed_witness : ∃ token l,
  fst (GetRequestHandler sample_provider (poll "r1") (still_world (mkOID4VPStore {[ "r1" := sample_request ]} ∅))) = HttpError StatusOK token ∧
  wallet_reads token (ed_public sample_key) = Some l ∧ aget "nonce" l = Some (JStr "n0nce").
Proof.
  destruct (request_object_signed sample_provider (poll "r1") sample_request (still_world (mkOID4VPStore {[ "r1" := sample_request ]} ∅)))
    as (token & l & Ht & Hl & Hn & _).
  - reflexivity.
  - split; [repeat constructor|]. repeat constructor.
  - apply lookup_singleton_eq.
  - intros n. vm_compute. split; [done|split; done].
  - exists token, l. split; [exact Ht|]. split; [exact Hl|exact Hn].
Defined.

End Oid4vpProofs.
