(* ===== verification/WebAuthn.v ===== *)
(** * WebAuthn ceremonies (api/webauthn.go)

    Registration and sign-in with passkeys.  The ceremonies themselves are those of the
    package go-webauthn, which is a parameter; the transient sessions between begin and
    finish are a map that the handlers take and return.  A cookie is read as net/http
    reads it. *)

From S2P Require Import Prelude GoStd World Json JsonValue Base64 Sha Http Consent StoreTypes Store StoreAuth Logic Jwt Provider Did Vc DidJson Events BridgeApi.
Import JsonValue Http Jwt Types Store StoreAuth Provider DidJson.

Module WebAuthn.

(** ** The library *)

(** What the handlers read and build of a credential of the library. *)
Record LibCredential := mkLibCredential {
  lc_ID : list byte; lc_PublicKey : list byte; lc_AttestationType : string; lc_AAGUID : list byte;
  lc_SignCount : Z; lc_Transport : list string }.
Record waUser := mkWaUser { u_subjectDID : string; u_creds : list WebAuthnCredential }.
Definition WebAuthnID (u : waUser) : list byte := bytes_of (u_subjectDID u).
Definition WebAuthnName (u : waUser) : string := u_subjectDID u.
Definition WebAuthnDisplayName (u : waUser) : string := u_subjectDID u.
Definition WebAuthnIcon (u : waUser) : string := "".
(** The stored identifier of a credential is the encoding of its bytes; one that does not
    decode, which no handler stores, gives no bytes here. *)
Definition WebAuthnCredentials (u : waUser) : list LibCredential :=
  (λ c, mkLibCredential (default [] (Base64.DecodeString (wa_CredentialID c))) (wa_PublicKeyCBOR c) "" []
          (wa_SignCount c) (wa_Transports c)) <$> u_creds u.

(** Begin draws a challenge and may fail; finish reads the request's body.  A passkey
    login calls the handler with the identifiers that the authenticator sent. *)
Class WebAuthnLib := {
  SessionData : Type;
  BeginRegistration : waUser → M Srv (result (json * SessionData));
  FinishRegistration : waUser → SessionData → Request → result LibCredential;
  BeginDiscoverableLogin : M Srv (result (json * SessionData));
  FinishPasskeyLogin : (list byte → list byte → M Srv (result waUser)) → SessionData → Request →
    M Srv (result (waUser * LibCredential)) }.
(** A successful passkey login is one of the user the handler answered with, by one of
    that user's credentials; the library has no other effect on the server. *)
Class WebAuthnLibOk `{WebAuthnLib} := {
  passkey_login_user h s r w u c w' : FinishPasskeyLogin h s r w = (Ok (u, c), w') →
    ∃ rawID userHandle w0 w1, w_state w0 = w_state w ∧ same_oracles w w0 ∧ h rawID userHandle w0 = (Ok u, w1) ∧
      w_state w' = w_state w1 ∧ lc_ID c ∈ lc_ID <$> WebAuthnCredentials u;
  passkey_login_state h s r w : (∀ a b w0, w_state (snd (h a b w0)) = w_state w0) →
    w_state (snd (FinishPasskeyLogin h s r w)) = w_state w }.

(** ** Cookies *)

Definition cookie_value_byte (c : byte) : bool :=
  let v := bval c in ((32 <=? v) && (v <? 127) && negb (v =? 34) && negb (v =? 59) && negb (v =? 92))%N.
(** A value may be quoted. *)
Definition parse_cookie_value (v : list byte) : option (list byte) :=
  let inner := match v with
    | x22 :: r => match last r with Some x22 => take (length r - 1) r | _ => v end
    | _ => v
    end in
  if forallb cookie_value_byte inner then Some inner else None.
Definition read_cookie (name part : string) : option string :=
  let part := TrimSpace part in
  match SplitN part x3d 2 with
  | n :: rest =>
      if TrimSpace n =s name
      then str_of <$> parse_cookie_value (match rest with v :: _ => bytes_of v | [] => [] end)
      else None
  | [] => None
  end.
(** [r.Cookie(name)]: the first cookie of that name on any Cookie line. *)
Definition Cookie (r : Request) (name : string) : option string :=
  head (omap (read_cookie name) (concat ((λ kv : string * string, Split (snd kv) x3b) <$>
    filter (λ kv : string * string, fst kv = "Cookie") (rq_header r)))).

Section Handlers.
Context `{WebAuthnLib, Ed25519} (p : Provider).

Record waSessionEntry := mkWaSessionEntry { se_session : SessionData; se_expiresAt : Z }.
Definition Sessions : Type := gmap string waSessionEntry.
(** A response, the cookie it sets, and the sessions left. *)
Definition Answer : Type := Response * option (string * string) * Sessions.
Definition plain (resp : Response) (ss : Sessions) : Answer := (resp, None, ss).

(** The error of the random source is dropped: the bytes are then zero. *)
Definition waRandomID : M Srv string :=
  b ← rand_read 16;
  mret (Sha.hex (match b with Ok l => l | Err _ => replicate 16 x00 end)).
Definition waSessionTTL : Z := 5 * minute.

(** [None] for a server without WebAuthn. *)
Definition unauthorized : Response := HttpError StatusUnauthorized "unauthorized".
Definition not_configured : Response := HttpError 501 "webauthn not configured".

Definition handleWebAuthnRegisterBegin (enabled : bool) (r : Request) (ss : Sessions) : M Srv Answer :=
  if negb enabled then mret (plain not_configured ss) else
  sub ← SubjectFromBearer p (Header r "Authorization");
  match sub with
  | Err _ => mret (plain unauthorized ss)
  | Ok subjectDID =>
  found ← ListWebAuthnCredentials subjectDID;
  match found with
  | Err _ => mret (plain (HttpError StatusInternalServerError "internal error") ss)
  | Ok creds =>
  began ← BeginRegistration (mkWaUser subjectDID creds);
  match began with
  | Err e => mret (plain (HttpError StatusInternalServerError ("begin registration failed: " +s error_string e)) ss)
  | Ok (creation, session) =>
  sessionID ← waRandomID;
  now ← time_now;
  mret (JsonBody StatusOK (Some creation), Some ("wa_reg_session", sessionID),
        <[sessionID := mkWaSessionEntry session (now + waSessionTTL)%Z]> ss)
  end end end.

(** [uuid.UUID(b).String()]. *)
Definition uuid_string (b : list byte) : string :=
  let h := hex_encode b in
  str_of (take 8 h) +s "-" +s str_of (take 4 (drop 8 h)) +s "-" +s str_of (take 4 (drop 12 h)) +s "-" +s
  str_of (take 4 (drop 16 h)) +s "-" +s str_of (drop 20 h).

(** The first eight bytes of the credential's identifier name the key in the document. *)
Definition anchor_id (subjectDID credID : string) : string :=
  subjectDID +s "#webauthn-" +s str_of (take 8 (bytes_of credID)).
Definition anchored (subjectDID credID : string) (pubKey : list byte) (doc : Document) : Document :=
  let vmID := anchor_id subjectDID credID in
  mkDocument (doc_Context doc) (doc_ID doc) (doc_Controller doc)
    (doc_VerificationMethod doc ++ [mkVerificationMethod vmID "WebAuthnPublicKey2023" subjectDID
       (Some ("u" +s Base64.EncodeToString pubKey)) false None])
    (doc_Authentication doc ++ [vmID]) (doc_KeyAgreement doc) (doc_AssertionMethod doc) (doc_Service doc)
    (doc_Created doc) (doc_Updated doc).
Definition minimal_document (subjectDID : string) : Document :=
  mkDocument Did.DefaultContext subjectDID "" [] [] [] [] [] None None.
Definition anchorWebAuthnKey (subjectDID credID : string) (pubKey : list byte) : M Srv unit :=
  found ← GetDocument subjectDID;
  let doc := match found with Ok doc => doc | Err _ => minimal_document subjectDID end in
  let vmID := anchor_id subjectDID credID in
  if existsb (λ vm, vm_ID vm =s vmID) (doc_VerificationMethod doc) then mret tt
  else _ ← SaveDocument (anchored subjectDID credID pubKey doc); mret tt.

(** The session of a cookie, taken out of the map; nothing when it is missing or over. *)
Definition take_session (ss : Sessions) (id : string) : M Srv (option waSessionEntry * Sessions) :=
  match ss !! id with
  | None => mret (None, ss)
  | Some entry =>
      now ← time_now;
      mret (if (se_expiresAt entry <? now)%Z then None else Some entry, delete id ss)
  end.

(** The sweep every five minutes of both maps: the sessions over at its instant go. *)
Definition sweep_sessions (now : Z) (ss : Sessions) : Sessions :=
  filter (λ kv : string * waSessionEntry, ¬ (se_expiresAt kv.2 < now)%Z) ss.

Definition handleWebAuthnRegisterFinish (enabled : bool) (r : Request) (ss : Sessions) : M Srv Answer :=
  if negb enabled then mret (plain not_configured ss) else
  sub ← SubjectFromBearer p (Header r "Authorization");
  match sub with
  | Err _ => mret (plain unauthorized ss)
  | Ok subjectDID =>
  match Cookie r "wa_reg_session" with
  | None => mret (plain (HttpError StatusBadRequest "registration session not found — call begin first") ss)
  | Some cookie =>
  taken ← take_session ss cookie;
  let '(live, ss) := taken in
  match live with
  | None => mret (plain (HttpError StatusBadRequest "registration session expired") ss)
  | Some entry =>
  found ← ListWebAuthnCredentials subjectDID;
  match found with
  | Err _ => mret (plain (HttpError StatusInternalServerError "internal error") ss)
  | Ok creds =>
  match FinishRegistration (mkWaUser subjectDID creds) (se_session entry) r with
  | Err e => mret (plain (HttpError StatusBadRequest ("registration failed: " +s error_string e)) ss)
  | Ok credential =>
  let credIDStr := Base64.EncodeToString (lc_ID credential) in
  let aaguidStr := if Nat.eqb (length (lc_AAGUID credential)) 16 then uuid_string (lc_AAGUID credential) else "" in
  now ← time_now;
  saved ← SaveWebAuthnCredential (mkWebAuthnCredential credIDStr subjectDID (lc_PublicKey credential)
            (lc_AttestationType credential) aaguidStr (lc_SignCount credential) "" (lc_Transport credential) now None);
  match saved with
  | Err e => mret (plain (HttpError StatusInternalServerError ("save credential: " +s error_string e)) ss)
  | Ok _ =>
  _ ← anchorWebAuthnKey subjectDID credIDStr (lc_PublicKey credential);
  mret (plain (JsonResp StatusCreated [("credential_id", JStr credIDStr); ("status", JStr "registered");
                                       ("subject_did", JStr subjectDID)]) ss)
  end end end end end end.

Definition handleWebAuthnLoginBegin (enabled : bool) (r : Request) (ss : Sessions) : M Srv Answer :=
  if negb enabled then mret (plain not_configured ss) else
  began ← BeginDiscoverableLogin;
  match began with
  | Err e => mret (plain (HttpError StatusInternalServerError ("begin login failed: " +s error_string e)) ss)
  | Ok (assertion, session) =>
  sessionID ← waRandomID;
  now ← time_now;
  mret (JsonBody StatusOK (Some assertion), Some ("wa_auth_session", sessionID),
        <[sessionID := mkWaSessionEntry session (now + waSessionTTL)%Z]> ss)
  end.

(** The user of a handle: whoever it names, with the passkeys stored for it. *)
Definition login_user (rawID userHandle : list byte) : M Srv (result waUser) :=
  let subjectDID := str_of userHandle in
  found ← ListWebAuthnCredentials subjectDID;
  mret (mkWaUser subjectDID <$> found).
Definition update_sign_count (credIDStr : string) (credential : LibCredential) : M Srv unit :=
  found ← GetWebAuthnCredential credIDStr;
  match found with
  | Err _ => mret tt
  | Ok c =>
      now ← time_now;
      _ ← UpdateWebAuthnCredential (mkWebAuthnCredential (wa_CredentialID c) (wa_SubjectDID c) (wa_PublicKeyCBOR c)
            (wa_AttestationType c) (wa_AAGUID c) (lc_SignCount credential) (wa_Name c) (wa_Transports c)
            (wa_CreatedAt c) (Some now));
      mret tt
  end.
Definition handleWebAuthnLoginFinish (enabled : bool) (r : Request) (ss : Sessions) : M Srv Answer :=
  if negb enabled then mret (plain not_configured ss) else
  match Cookie r "wa_auth_session" with
  | None => mret (plain (HttpError StatusBadRequest "login session not found — call begin first") ss)
  | Some cookie =>
  taken ← take_session ss cookie;
  let '(live, ss) := taken in
  match live with
  | None => mret (plain (HttpError StatusUnauthorized "login session expired") ss)
  | Some entry =>
  res ← FinishPasskeyLogin login_user (se_session entry) r;
  match res with
  | Err e => mret (plain (HttpError StatusUnauthorized ("login failed: " +s error_string e)) ss)
  | Ok (user, credential) =>
  _ ← update_sign_count (Base64.EncodeToString (lc_ID credential)) credential;
  let subjectDID := u_subjectDID user in
  _ ← Events.Publish BridgeApi.server_bus "session.created"
        (Some (JObj [("method", JStr "webauthn"); ("subject_did", JStr subjectDID)]));
  mret (plain (JsonResp StatusOK [("status", JStr "authenticated"); ("subject_did", JStr subjectDID)]) ss)
  end end end.

(** ** Credential management *)

Definition credential_view (c : WebAuthnCredential) : option json :=
  at_ ← Vc.time_value (wa_CreatedAt c);
  lu ← match wa_LastUsedAt c with None => Some [] | Some t => v ← Vc.time_value t; Some [("last_used_at", v)] end;
  Some (JObj ([("credential_id", JStr (wa_CredentialID c))] ++ opt_field "name" (wa_Name c) ++
    match wa_Transports c with [] => [] | ts => [("transports", JArr (JStr <$> ts))] end ++
    opt_field "attestation_type" (wa_AttestationType c) ++ [("created_at", at_)] ++ lu)).
Definition handleListWebAuthnCredentials (r : Request) : M Srv Response :=
  sub ← SubjectFromBearer p (Header r "Authorization");
  match sub with
  | Err _ => mret unauthorized
  | Ok subjectDID =>
  found ← ListWebAuthnCredentials subjectDID;
  match found with
  | Err _ => mret (HttpError StatusInternalServerError "internal error")
  | Ok creds => mret (JsonBody StatusOK (JArr <$> mapM credential_view creds))
  end end.
Definition handleDeleteWebAuthnCredential (r : Request) : M Srv Response :=
  sub ← SubjectFromBearer p (Header r "Authorization");
  match sub with
  | Err _ => mret unauthorized
  | Ok subjectDID =>
  let credID := PathValue r "id" in
  if credID =s "" then mret (HttpError StatusBadRequest "credential id required") else
  found ← GetWebAuthnCredential credID;
  match found with
  | Err _ => mret (HttpError StatusNotFound "credential not found")
  | Ok existing =>
  if negb (wa_SubjectDID existing =s subjectDID) then mret (HttpError StatusForbidden "forbidden") else
  deleted ← DeleteWebAuthnCredential credID;
  match deleted with
  | Err _ => mret (HttpError StatusInternalServerError "internal error")
  | Ok _ => mret NoContent
  end end end.
End Handlers.
End WebAuthn.
