(* ===== verification/WebAuthnProofs.v ===== *)
(** * WebAuthn ceremonies: what they guarantee *)

From S2P Require Import Prelude GoStd World Json JsonValue Base64 Sha Http Consent StoreTypes Store StoreAuth Logic StoreInv Jwt Provider ProviderProofs EndpointsProofs Did Vc DidJson Events BridgeApi WebAuthn.
Import JsonValue Http Jwt Types Store StoreAuth Provider ProviderProofs DidJson WebAuthn.

Module WebAuthnProofs.

Section Login.
Context `{WebAuthnLibOk, Ed25519} (p : Provider).

Lemma login_user_state a b w0 : w_state (snd (login_user a b w0)) = w_state w0.
Proof.
  destruct w0 as [clk nc rnd nr flt nf [d rev evs]].
  change (wp (login_user a b) (λ _ w', w_state w' = mkSrv d rev evs) (mkWorld clk nc rnd nr flt nf (mkSrv d rev evs))).
  unfold login_user, ListWebAuthnCredentials. apply wp_bind, wp_query; intros; by apply wp_ret.
Qed.
(** The user of a handle holds the passkeys whose rows name it. *)
Lemma login_user_creds a b w0 u w1 c :
  login_user a b w0 = (Ok u, w1) → c ∈ WebAuthnCredentials u →
  ∃ id row, webauthn_credentials (srv_db (w_state w0)) !! id = Some row ∧ war_SubjectDID row = u_subjectDID u ∧
    lc_ID c = default [] (Base64.DecodeString (war_CredentialID row)).
Proof.
  destruct w0 as [clk nc rnd nr flt nf [d rev evs]]. intros Hrun Hc.
  refine (wp_run _ (λ a _, a = Ok u → _) _ _ _ Hrun _ eq_refl). cbn [w_state srv_db].
  unfold login_user, ListWebAuthnCredentials. apply wp_bind, wp_query; intros; apply wp_ret; [done|].
  cbn [fmap result_fmap]. intros [= <-]. cbn [u_subjectDID].
  apply list_elem_of_fmap in Hc as (c0 & -> & Hc0). cbn [u_creds] in Hc0.
  apply list_elem_of_fmap in Hc0 as (row & -> & Hrow). unfold order_by_desc in Hrow.
  rewrite order_by_perm in Hrow. apply StoreInv.elem_of_rows in Hrow as [Hs [id Hid]].
  apply String.eqb_eq in Hs. exists id, row. split; [done|]. by split.
Qed.

(** A sign-in with a passkey is by its owner, once: when the finish answers 200, the
    cookie named a live session, which is gone, the subject reported is the one the
    authenticator named, and it holds a stored passkey whose identifier the library
    accepted; any later finish under the same cookie is refused. *)
Theorem passkey_login_owner enabled r ss (w : World Srv) resp ck ss' w' :
  handleWebAuthnLoginFinish enabled r ss w = (resp, ck, ss', w') → status_of resp = StatusOK →
  ∃ sid entry subject id row, Cookie r "wa_auth_session" = Some sid ∧ ss !! sid = Some entry ∧
    (w_clock w (w_nclock w) ≤ se_expiresAt entry)%Z ∧ ss' = delete sid ss ∧
    resp = JsonResp StatusOK [("status", JStr "authenticated"); ("subject_did", JStr subject)] ∧
    webauthn_credentials (srv_db (w_state w)) !! id = Some row ∧ war_SubjectDID row = subject ∧
    ∀ r2 w2, Cookie r2 "wa_auth_session" = Some sid →
      fst (handleWebAuthnLoginFinish true r2 ss' w2) = plain (HttpError StatusUnauthorized "login session expired") ss'.
Proof.
  intros Hrun Hok. unfold handleWebAuthnLoginFinish in Hrun. destruct enabled; [|by injection Hrun as <- <- <- <-]. cbn [negb] in Hrun.
  destruct (Cookie r "wa_auth_session") as [sid|] eqn:Hck; [|by injection Hrun as <- <- <- <-].
  unfold take_session in Hrun. destruct (ss !! sid) as [entry|] eqn:Hss; [|by injection Hrun as <- <- <- <-].
  unfold mbind, M_bind, time_now in Hrun. cbn [mret M_ret] in Hrun.
  destruct (Z.ltb_spec (se_expiresAt entry) (w_clock w (w_nclock w))) as [|Hlive]; [by injection Hrun as <- <- <- <-|].
  match type of Hrun with context [FinishPasskeyLogin ?h ?s ?r ?w0] =>
    destruct (FinishPasskeyLogin h s r w0) as [[[u c]|e] w1] eqn:Efin end; [|by injection Hrun as <- <- <- <-].
  destruct (passkey_login_user _ _ _ _ _ _ _ Efin) as (raw & handle & w2 & w3 & Hst & _ & Hu & _ & Hin). cbn [w_state] in Hst.
  apply list_elem_of_fmap in Hin as (c' & _ & Hc').
  destruct (login_user_creds _ _ _ _ _ _ Hu Hc') as (id & row & Hrow & Hsub & _). rewrite Hst in Hrow.
  destruct (update_sign_count _ c w1) as [[] w4]. destruct (Events.Publish _ _ _ w4) as [[] w5]. injection Hrun as <- <- <- <-.
  exists sid, entry, (u_subjectDID u), id, row. split_and!; try done.
  intros r2 w6 Hr2. unfold handleWebAuthnLoginFinish, take_session. cbn [negb]. rewrite Hr2.
  match goal with |- context [match ?x with None => _ | Some _ => _ end] => replace x with (@None waSessionEntry); [done|] end.
  symmetry. exact (lookup_delete_eq (M := gmap string) ss sid).
Qed.

Lemma sweep_lookup_Some now ss id e : sweep_sessions now ss !! id = Some e → ss !! id = Some e ∧ ¬ (se_expiresAt e < now)%Z.
Proof. intros E. by apply (map_lookup_filter_Some (M := gmap string)) in E. Qed.
Lemma sweep_lookup_None now ss id e : sweep_sessions now ss !! id = None → ss !! id = Some e → (se_expiresAt e < now)%Z.
Proof.
  intros E E'. destruct (decide (se_expiresAt e < now)%Z); [done|].
  assert (sweep_sessions now ss !! id = Some e) by (by apply (map_lookup_filter_Some (M := gmap string))). congruence.
Qed.
(** The sweep does not show: a session that a finished ceremony finds after a sweep is the
    one it would have found without it, as long as the clock did not go back. *)
Theorem sweep_invisible ss id now (w : World Srv) : (now ≤ w_clock w (w_nclock w))%Z →
  fst (fst (take_session (sweep_sessions now ss) id w)) = fst (fst (take_session ss id w)).
Proof.
  intros Ht. unfold take_session, mbind, M_bind, time_now.
  destruct (sweep_sessions now ss !! id) as [e|] eqn:E; [apply sweep_lookup_Some in E as [-> _]; done|].
  destruct (ss !! id) as [e|] eqn:E'; [|done]. pose proof (sweep_lookup_None _ _ _ _ E E'). cbn.
  destruct (Z.ltb_spec (se_expiresAt e) (w_clock w (w_nclock w))); [done|lia].
Qed.
End Login.

(** ** The keys of the DID document *)

Section Anchor.

(** Two identifiers that agree on their first eight characters name the same key. *)
Definition same_prefix (a c : string) : Prop := take 8 (bytes_of a) = take 8 (bytes_of c).
Lemma anchor_id_prefix s a c : same_prefix a c → anchor_id s a = anchor_id s c.
Proof. unfold anchor_id. by intros ->. Qed.

Definition stored_document (s : string) (w : World Srv) : Document :=
  match did_documents (srv_db (w_state w)) !! s with
  | Some (raw, _) => match json_unmarshal raw with Ok d => d | Err _ => minimal_document s end
  | None => minimal_document s
  end.
Definition has_key (id : string) (doc : Document) : bool := existsb (λ vm, vm_ID vm =s id) (doc_VerificationMethod doc).

Lemma anchored_has_key s c k doc : has_key (anchor_id s c) (anchored s c k doc) = true.
Proof.
  unfold has_key, anchored. cbn [doc_VerificationMethod]. rewrite existsb_app. cbn [existsb vm_ID].
  by rewrite String.eqb_refl, !orb_true_r.
Qed.

Lemma anchor_effect s c k (w : World Srv) :
  no_faults w → let doc := stored_document s w in
  let w' := snd (anchorWebAuthnKey s c k w) in
  doc_ID doc = s → (has_key (anchor_id s c) doc = false → document_ok (anchored s c k doc)) →
  stored_document s w' = (if has_key (anchor_id s c) doc then doc else anchored s c k doc) ∧ no_faults w'.
Proof.
  intros Hnf doc w' Hid Hdoc. destruct w as [clk nc rnd nr flt nf [d rev evs]].
  assert (∀ n, flt n = None) as Hflt by (intros n; apply (Hnf n)).
  subst w'. match goal with |- stored_document s (snd (?m ?w)) = ?v ∧ _ => change (wp m (λ _ w', stored_document s w' = v ∧ no_faults w') w) end.
  unfold anchorWebAuthnKey, GetDocument, SaveDocument.
  assert (wp (GetDocument s) (λ a w', match a with Ok x => x | Err _ => minimal_document s end = doc ∧
    ∃ nf', w' = mkWorld clk nc rnd nr flt nf' (mkSrv d rev evs)) (mkWorld clk nc rnd nr flt nf (mkSrv d rev evs))) as Hget.
  { unfold GetDocument. apply wp_bind, wp_query; [intros ? E; congruence|intros _]. unfold doc, stored_document, select. cbn [w_state srv_db].
    destruct (did_documents d !! s) as [[raw t]|]; cbn [of_option]; apply wp_ret; split; eauto. }
  apply wp_bind. eapply wp_mono; [exact Hget|]. clear Hget. intros a w1 [Ha [nf' ->]]. cbv beta zeta. rewrite Ha. fold (has_key (anchor_id s c) doc).
  destruct (has_key (anchor_id s c) doc) eqn:Hk; [apply wp_ret; split; [done|exact Hflt]|].
  destruct (json_roundtrip _ (Hdoc eq_refl)) as (t & Hm & _ & Hu). rewrite Hm. apply wp_bind, wp_bind, wp_time.
  apply wp_exec; [intros ? E; congruence|intros _]. apply wp_ret. split; [|exact Hflt].
  unfold stored_document. cbn [w_state srv_db set_did_documents did_documents].
  change (doc_ID (anchored s c k doc)) with (doc_ID doc). rewrite Hid.
  match goal with |- context [match ?x with Some _ => _ | None => _ end] => replace x with (Some (t, clk nc)) end; [by rewrite Hu|].
  symmetry. apply lookup_insert_eq.
Qed.

(** Registering a passkey puts its key into the subject's DID document under the first
    eight characters of its identifier, and under nothing else: a second passkey whose
    identifier starts the same is stored, but its key never gets into the document. *)
Theorem colliding_passkey_not_anchored s c1 k1 c2 k2 (w : World Srv) :
  no_faults w → same_prefix c1 c2 →
  let doc := stored_document s w in
  doc_ID doc = s → has_key (anchor_id s c1) doc = false → document_ok (anchored s c1 k1 doc) →
  let w1 := snd (anchorWebAuthnKey s c1 k1 w) in
  let w2 := snd (anchorWebAuthnKey s c2 k2 w1) in
  stored_document s w1 = anchored s c1 k1 doc ∧ stored_document s w2 = stored_document s w1.
Proof.
  intros Hnf Hp doc Hid Hno Hok w1 w2.
  destruct (anchor_effect s c1 k1 w Hnf Hid (λ _, Hok)) as [H1 Hnf1]. fold doc in H1. rewrite Hno in H1. fold w1 in H1, Hnf1.
  assert (has_key (anchor_id s c2) (stored_document s w1) = true) as Hk.
  { rewrite H1, <-(anchor_id_prefix s c1 c2 Hp). apply anchored_has_key. }
  destruct (anchor_effect s c2 k2 w1 Hnf1) as [H2 _]; [by rewrite H1|congruence|]. rewrite Hk in H2. done.
Qed.
End Anchor.

(** ** Deletion *)

Section Delete.
Context `{Ed25519} (p : Provider).

(** Only the owner deletes a passkey, and only the row goes: when the endpoint answers
    204, the bearer's token verified for the subject of the row, the row is gone and
    nothing else of the database has changed; so the key stays in the DID document. *)
Theorem delete_own_passkey r (w : World Srv) w' :
  handleDeleteWebAuthnCredential p r w = (NoContent, w') →
  ∃ row claims, webauthn_credentials (srv_db (w_state w)) !! PathValue r "id" = Some row ∧
    verify_signature (TrimPrefix (Header r "Authorization") "Bearer ") (ed_public (p_signingKey p)) = Ok claims ∧
    war_SubjectDID row = cl_Subject claims ∧
    srv_db (w_state w') = set_webauthn_credentials (delete (PathValue r "id") (webauthn_credentials (srv_db (w_state w)))) (srv_db (w_state w)) ∧
    did_documents (srv_db (w_state w')) = did_documents (srv_db (w_state w)).
Proof.
  destruct w as [clk nc rnd nr flt nf [d rev evs]]. intros Hrun.
  refine (wp_run _ (λ a w', a = NoContent → _) _ _ _ Hrun _ eq_refl).
  unfold handleDeleteWebAuthnCredential, SubjectFromBearer, GetWebAuthnCredential, DeleteWebAuthnCredential.
  apply wp_bind. destruct (TrimPrefix _ _ =s ""); [apply wp_ret, wp_ret; intros E; discriminate E|].
  apply wp_bind, EndpointsProofs.wp_Verify; [intros; apply wp_ret, wp_ret; intros E; discriminate E|].
  intros c Hv _. apply wp_ret. cbn [fmap result_fmap].
  destruct (PathValue r "id" =s ""); [apply wp_ret; intros E; discriminate E|].
  apply wp_bind, wp_bind, wp_query; [intros; apply wp_ret, wp_ret; intros E; discriminate E|intros _]. apply wp_ret.
  unfold select. destruct (webauthn_credentials d !! PathValue r "id") as [row|] eqn:Hrow; cbn [of_option wrap_err fmap result_fmap];
    [|apply wp_ret; intros E; discriminate E].
  cbn [scanWebAuthn wa_SubjectDID]. destruct (String.eqb_spec (war_SubjectDID row) (cl_Subject c)) as [Hs|];
    [|apply wp_ret; intros E; discriminate E]. cbn [negb].
  apply wp_bind, wp_exec; [intros; apply wp_ret; intros E; discriminate E|intros _]. apply wp_ret. intros _.
  exists row, c. split_and!; done.
Qed.
End Delete.

(** ** Instances *)

#[local] Existing Instance digest_scheme.
#[local] Existing Instance digest_scheme_ok.

(** A library that takes the user handle from a header and accepts the first passkey. *)
#[local] Instance header_lib : WebAuthnLib := {|
  SessionData := string;
  BeginRegistration u := mret (Ok (JNull, u_subjectDID u));
  FinishRegistration u s r := Err (ErrMsg "not supported");
  BeginDiscoverableLogin := mret (Ok (JNull, ""));
  FinishPasskeyLogin h s r :=
    res ← h [] (bytes_of (Header r "User-Handle"));
    mret (match res with
          | Ok u => match WebAuthnCredentials u with c :: _ => Ok (u, c) | [] => Err (ErrMsg "no credential") end
          | Err e => Err e
          end) |}.
#[local] Instance header_lib_ok : WebAuthnLibOk.
Proof.
  split.
  - intros h s r w u c w'. cbn [FinishPasskeyLogin header_lib]. unfold mbind, M_bind.
    destruct (h [] (bytes_of (Header r "User-Handle")) w) as [[u0|e] w1] eqn:E; [|done].
    cbn [mret M_ret]. destruct (WebAuthnCredentials u0) as [|c0 cs] eqn:Ec; intros E2; [discriminate E2|].
    injection E2 as -> -> ->. eexists _, _, w, w'. split_and!; try done. rewrite Ec. by left.
  - intros h s r w Hh. cbn [FinishPasskeyLogin header_lib]. unfold mbind, M_bind.
    specialize (Hh [] (bytes_of (Header r "User-Handle")) w). by destruct (h [] _ w) as [res w1].
Qed.

Definition passkey : WebAuthnRow := mkWebAuthnRow "Y3JlZA" "did:key:alice" [x01] "none" "" 0 "" "" 0 None.
Definition passkey_world : World Srv := sample_srv (set_webauthn_credentials {[ "Y3JlZA" := passkey ]} (empty_db true)).
Definition login_request : Request :=
  mkRequest [] None [("Cookie", "a=b; wa_auth_session=s1"); ("User-Handle", "did:key:alice")] None [] "" None.
Definition login_sessions : Sessions := {[ "s1" := mkWaSessionEntry "" (2000 * second)%Z ]}.
Lemma login_finishes : status_of (fst (fst (fst (handleWebAuthnLoginFinish true login_request login_sessions passkey_world)))) = StatusOK.
Proof. vm_compute. reflexivity. Qed.
Lemma passkey_login_owner_witness : ∃ row : WebAuthnRow,
  webauthn_credentials (srv_db (w_state passkey_world)) !! "Y3JlZA" = Some row ∧
  ∃ resp ck ss' w', handleWebAuthnLoginFinish true login_request login_sessions passkey_world = (resp, ck, ss', w') ∧
    resp = JsonResp StatusOK [("status", JStr "authenticated"); ("subject_did", JStr (war_SubjectDID row))].
Proof.
  pose proof login_finishes as Hok.
  destruct (handleWebAuthnLoginFinish true login_request login_sessions passkey_world) as [[[resp ck] ss'] w'] eqn:E.
  cbn [fst] in Hok.
  destruct (passkey_login_owner true login_request login_sessions passkey_world resp ck ss' w' E Hok)
    as (sid & entry & subject & id & row & _ & _ & _ & _ & -> & Hrow & Hs & _).
  change (webauthn_credentials (srv_db (w_state passkey_world))) with ({[ "Y3JlZA" := passkey ]} : gmap string WebAuthnRow) in Hrow.
  apply lookup_singleton_Some in Hrow as [<- <-]. exists passkey. split; [apply lookup_singleton_eq|].
  eexists _, _, _, _. split; [reflexivity|]. by rewrite Hs.
Defined.

Lemma colliding_passkey_not_anchored_witness :
  let w1 := snd (anchorWebAuthnKey "did:key:alice" "AAAAAAAAone" [x01] (sample_srv (empty_db true))) in
  stored_document "did:key:alice" (snd (anchorWebAuthnKey "did:key:alice" "AAAAAAAAtwo" [x02] w1)) = stored_document "did:key:alice" w1.
Proof.
  apply (colliding_passkey_not_anchored "did:key:alice" "AAAAAAAAone" [x01] "AAAAAAAAtwo" [x02] (sample_srv (empty_db true)));
    [intros n; reflexivity|reflexivity|reflexivity|reflexivity|].
  unfold document_ok. vm_compute document_json. repeat constructor; vm_compute; done.
Defined.

Definition delete_request : Request :=
  mkRequest [] None [("Authorization", "Bearer " +s signJWT (claims_payload sample_claims) sample_key "k1")] None [("id", "Y3JlZA")] "" None.
Lemma delete_answered : fst (handleDeleteWebAuthnCredential sample_provider delete_request passkey_world) = NoContent.
Proof. vm_compute. reflexivity. Qed.
Lemma delete_own_passkey_witness : ∃ row, webauthn_credentials (srv_db (w_state passkey_world)) !! "Y3JlZA" = Some row.
Proof.
  destruct (delete_own_passkey sample_provider delete_request passkey_world
    (snd (handleDeleteWebAuthnCredential sample_provider delete_request passkey_world))) as (row & c & Hrow & _).
  - rewrite <-delete_answered. apply surjective_pairing.
  - by exists row.
Defined.
Lemma sweep_invisible_witness :
  se_expiresAt <$> fst (fst (take_session (sweep_sessions (900 * second) login_sessions) "s1" passkey_world)) = Some (2000 * second)%Z.
Proof. rewrite (sweep_invisible login_sessions "s1" (900 * second) passkey_world); [reflexivity|vm_compute; discriminate]. Defined.
End WebAuthnProofs.
