(* ===== verification/Migrations.v ===== *)
(** * Database migrations (internal/store/migrations/migrate.go)

    The runner over an SQL engine: what a script does to the schema is a parameter, and any
    statement may fail.  A transaction that is not committed leaves no trace. *)

From Stdlib Require Import Sorted.
From S2P Require Import Prelude GoStd World StoreTypes Store.
Import Store.

Module Migrations.

Record Migration := mkMigration { mg_Version : Z; mg_Name : string; mg_SQL : string }.
(** A file of the embedded directory. *)
Record Entry := mkEntry { en_name : string; en_dir : bool; en_content : string }.

Definition HasSuffix (s suf : string) : bool := bprefix (rev (bytes_of suf)) (rev (bytes_of s)).
Definition TrimSuffix (s suf : string) : string :=
  if HasSuffix s suf then str_of (take (length (bytes_of s) - length (bytes_of suf)) (bytes_of s)) else s.

Definition parseName (filename : string) : result (Z * string) :=
  let base := TrimSuffix filename ".sql" in
  match bindex [x5f] (bytes_of base) with
  | None => Err (ErrMsg ("migrations: invalid filename (expected NNN_name.sql): " +s filename))
  | Some idx =>
      match Atoi (str_of (take idx (bytes_of base))) with
      | None => Err (ErrMsg ("migrations: invalid version in " +s filename))
      | Some v => Ok (v, str_of (drop (S idx) (bytes_of base)))
      end
  end.

Fixpoint load_entries (es : list Entry) : result (list Migration) :=
  match es with
  | [] => Ok []
  | e :: es' =>
      if en_dir e || negb (HasSuffix (en_name e) ".sql") then load_entries es' else
      match parseName (en_name e) with
      | Err err => Err err
      | Ok (version, name) =>
          (λ l, mkMigration version name (en_content e) :: l) <$> load_entries es'
      end
  end.
(** Files of one version may come in any order; here in that of the directory. *)
Definition Load (files : list Entry) : result (list Migration) := order_by mg_Version <$> load_entries files.

Lemma place_sorted (m : Migration) l :
  Sorted Z.le (mg_Version <$> l) → Sorted Z.le (mg_Version <$> place mg_Version m l).
Proof.
  induction l as [|x l IH]; intros Hl; [by repeat constructor|]. cbn [place].
  destruct (Z.leb_spec (mg_Version m) (mg_Version x)) as [Hle|Hgt]; [by constructor; [|constructor]|].
  cbn [fmap list_fmap] in *. apply Sorted_inv in Hl as [Hl Hhd]. constructor; [by apply IH|].
  destruct l as [|y l]; cbn [place fmap list_fmap]; [constructor; lia|].
  inversion Hhd; subst. destruct (_ <=? _)%Z; constructor; lia.
Qed.
Lemma order_by_sorted (l : list Migration) : Sorted Z.le (mg_Version <$> order_by mg_Version l).
Proof. unfold order_by. induction l as [|m l IH]; cbn [foldr]; [constructor|]. by apply place_sorted. Qed.

Section Runner.
Context {T : Type} (exec_sql : string → T → result T).

(** The version table, once it was created, with the time of each version, and the rest of
    the database. *)
Record MigDB := mkMigDB { md_versions : option (gmap Z Z); md_schema : T }.
Definition no_table : error := ErrDriver "no such table: schema_migrations".

Definition ensureTable : M MigDB (result unit) :=
  db_call (λ s, (Ok tt, mkMigDB (Some (default ∅ (md_versions s))) (md_schema s))).
(** The query, then the end of its rows. *)
Definition appliedVersions : M MigDB (result (gset Z)) :=
  q ← db_call (λ s, (dom <$> of_option no_table (md_versions s), s));
  match q with
  | Err e => mret (Err (ErrWrap "migrations: query applied" e))
  | Ok m =>
      done_ ← db_call (λ s, (Ok tt, s));
      mret ((λ _, m) <$> done_)
  end.

Definition run_script (m : Migration) (s : MigDB) : result unit * MigDB :=
  match exec_sql (mg_SQL m) (md_schema s) with
  | Err e => (Err e, s)
  | Ok t => (Ok tt, mkMigDB (md_versions s) t)
  end.
Definition record_version (v now : Z) (s : MigDB) : result unit * MigDB :=
  match md_versions s with
  | None => (Err no_table, s)
  | Some vs => match vs !! v with
               | Some _ => (Err (ErrConstraint "UNIQUE constraint failed: schema_migrations.version"), s)
               | None => (Ok tt, mkMigDB (Some (<[v := now]> vs)) (md_schema s))
               end
  end.
(** On every error the deferred rollback restores the state of before. *)
Definition apply (m : Migration) : M MigDB (result unit) :=
  begun ← db_call (λ s, (Ok tt, s));
  match begun with
  | Err e => mret (Err e)
  | Ok _ =>
  s0 ← get_state;
  ran ← db_call (run_script m);
  match ran with
  | Err e => _ ← put_state s0; mret (Err (ErrWrap "exec" e))
  | Ok _ =>
  now ← time_now;
  recorded ← db_call (record_version (mg_Version m) now);
  match recorded with
  | Err e => _ ← put_state s0; mret (Err (ErrWrap "record version" e))
  | Ok _ =>
  committed ← db_call (λ s, (Ok tt, s));
  match committed with
  | Err e => _ ← put_state s0; mret (Err e)
  | Ok _ => mret (Ok tt)
  end end end end.

(** [%03d]. *)
Definition pad3 (z : Z) : string :=
  let d := bytes_of (Itoa z) in str_of (replicate (3 - length d) x30 ++ d).
Fixpoint apply_pending (applied : gset Z) (l : list Migration) : M MigDB (result unit) :=
  match l with
  | [] => mret (Ok tt)
  | m :: l' =>
      if bool_decide (mg_Version m ∈ applied) then apply_pending applied l' else
      r ← apply m;
      match r with
      | Err e => mret (Err (ErrWrap ("migrations: apply v" +s pad3 (mg_Version m) +s " " +s mg_Name m) e))
      | Ok _ => apply_pending applied l'
      end
  end.

Definition Up (files : list Entry) : M MigDB (result unit) :=
  t ← ensureTable;
  match t with
  | Err e => mret (Err e)
  | Ok _ =>
  q ← appliedVersions;
  match q with
  | Err e => mret (Err e)
  | Ok applied =>
  match Load files with
  | Err e => mret (Err e)
  | Ok l => apply_pending applied l
  end end end.

(** The greatest version, if any. *)
Definition latest (vs : gmap Z Z) : option Z :=
  map_fold (λ v _ acc, Some (match acc with Some x => Z.max v x | None => v end)) None vs.
Definition Down : M MigDB (result unit) :=
  t ← ensureTable;
  match t with
  | Err e => mret (Err e)
  | Ok _ =>
  q ← db_call (λ s, (of_option no_table (md_versions s) ≫= λ vs, of_option ErrNoRows (latest vs), s));
  match q with
  | Err ErrNoRows => mret (Err (ErrMsg "migrations: nothing to roll back"))
  | Err e => mret (Err (ErrWrap "migrations: query latest version" e))
  | Ok v =>
  d ← db_call (λ s, (Ok tt, mkMigDB (delete v <$> md_versions s) (md_schema s)));
  match d with
  | Err e => mret (Err (ErrWrap ("migrations: remove version record " +s Itoa v) e))
  | Ok _ => mret (Ok tt)
  end end end.
(** [return v, row.Scan(&v)], read as the compiler does: the call, then the variable. *)
Definition Version : M MigDB (result Z) :=
  t ← ensureTable;
  match t with
  | Err e => mret (Err e)
  | Ok _ => db_call (λ s, ((λ vs, default 0%Z (latest vs)) <$> of_option no_table (md_versions s), s))
  end.

(** ** What the runs of [Up] leave *)

(** The scripts of a list, one after the other. *)
Fixpoint replay (l : list Migration) (t : T) : result T :=
  match l with
  | [] => Ok t
  | m :: l' => exec_sql (mg_SQL m) t ≫= replay l'
  end.
Lemma replay_app l1 l2 t : replay (l1 ++ l2) t = replay l1 t ≫= replay l2.
Proof. revert t. induction l1 as [|m l1 IH]; intros t; cbn; [done|]. destruct (exec_sql _ t); cbn; [apply IH|done]. Qed.

(** The first [k] scripts ran, once each, and exactly their versions are recorded. *)
Definition after (l : list Migration) (t0 : T) (k : nat) (s : MigDB) : Prop :=
  k ≤ length l ∧ replay (take k l) t0 = Ok (md_schema s) ∧
  dom (default ∅ (md_versions s)) = list_to_set (C := gset Z) (mg_Version <$> take k l).

Lemma db_call_cases {A} (f : MigDB → result A * MigDB) w :
  (∃ msg, fst (db_call f w) = Err (ErrDriver msg) ∧ w_state (snd (db_call f w)) = w_state w) ∨
  (fst (db_call f w) = fst (f (w_state w)) ∧ w_state (snd (db_call f w)) = snd (f (w_state w))).
Proof.
  unfold db_call. destruct (w_fault w (w_nfault w)) as [msg|]; [by left; exists msg|].
  right. by destruct (f (w_state w)).
Qed.

(** A migration is applied whole or not at all. *)
Lemma apply_atomic m w r w' : apply m w = (r, w') →
  match r with
  | Err _ => w_state w' = w_state w
  | Ok _ => ∃ t vs now, exec_sql (mg_SQL m) (md_schema (w_state w)) = Ok t ∧ md_versions (w_state w) = Some vs ∧
              w_state w' = mkMigDB (Some (<[mg_Version m := now]> vs)) t
  end.
Proof.
  unfold apply, mbind, M_bind. intros Hrun.
  destruct (db_call (λ s, (Ok tt, s)) w) as [b w1] eqn:E1. pose proof (db_call_cases (λ s, (Ok tt, s)) w) as C1. rewrite E1 in C1. cbn [fst snd] in C1.
  assert (w_state w1 = w_state w) as Hs1 by naive_solver. clear C1 E1.
  destruct b as [[]|e]; [|by injection Hrun as <- <-]. unfold get_state in Hrun.
  destruct (db_call (run_script m) w1) as [x w2] eqn:E2. pose proof (db_call_cases (run_script m) w1) as C2. rewrite E2 in C2. cbn [fst snd] in C2.
  destruct x as [[]|e]; [|injection Hrun as <- <-; exact Hs1].
  assert (∃ t, exec_sql (mg_SQL m) (md_schema (w_state w)) = Ok t ∧ w_state w2 = mkMigDB (md_versions (w_state w)) t) as (t & Ht & Hs2).
  { destruct C2 as [(? & ? & _)|[C2 ->]]; [done|]. unfold run_script in *. rewrite Hs1 in *.
    destruct (exec_sql _ _) as [t|]; [by exists t|done]. }
  clear C2 E2. unfold time_now in Hrun.
  match type of Hrun with context [db_call (record_version ?v ?now) ?w3] =>
    pose proof (db_call_cases (record_version v now) w3) as C3; destruct (db_call (record_version v now) w3) as [y w4] eqn:E3; set (now0 := now) in * end.
  cbn [fst snd w_state] in C3. destruct y as [[]|e]; [|injection Hrun as <- <-; exact Hs1].
  assert (∃ vs, md_versions (w_state w) = Some vs ∧ w_state w4 = mkMigDB (Some (<[mg_Version m := now0]> vs)) t) as (vs & Hvs & Hs4).
  { destruct C3 as [(? & ? & _)|[C3 ->]]; [done|]. unfold record_version in *. rewrite Hs2 in *. cbn [md_versions md_schema] in *.
    destruct (md_versions (w_state w)) as [vs|]; [|done]. destruct (vs !! _); [done|]. by exists vs. }
  clear C3 E3. destruct (db_call (λ s, (Ok tt, s)) w4) as [z w5] eqn:E4. pose proof (db_call_cases (λ s, (Ok tt, s)) w4) as C4. rewrite E4 in C4. cbn [fst snd] in C4.
  assert (w_state w5 = w_state w4) as Hs5 by naive_solver.
  destruct z as [[]|e]; injection Hrun as <- <-; [|exact Hs1]. exists t, vs, now0. split_and!; [done|done|congruence].
Qed.

Lemma pending_skip applied l1 l2 :
  Forall (λ m, mg_Version m ∈ applied) l1 → apply_pending applied (l1 ++ l2) = apply_pending applied l2.
Proof. induction 1 as [|m l1 Hm _ IH]; [done|]. cbn [app apply_pending]. by rewrite bool_decide_true. Qed.

(** From a prefix on, the pending scripts extend the prefix. *)
Lemma pending_extends applied l t0 k (w : World MigDB) r w' :
  NoDup (mg_Version <$> l) → Forall (λ m, mg_Version m ∉ applied) (drop k l) → is_Some (md_versions (w_state w)) →
  after l t0 k (w_state w) → apply_pending applied (drop k l) w = (r, w') →
  ∃ k', k ≤ k' ∧ after l t0 k' (w_state w') ∧ (r = Ok tt → k' = length l).
Proof.
  intros Hnd. remember (drop k l) as rest eqn:Hrest. revert k w Hrest.
  induction rest as [|m rest IH]; intros k w Hrest Hnew Hsome Haf Hrun.
  { injection Hrun as <- <-. exists k. split; [done|]. split; [done|]. intros _.
    apply (f_equal length) in Hrest. rewrite length_drop in Hrest. cbn in Hrest. destruct Haf as [Hk _]. lia. }
  cbn [apply_pending] in Hrun. apply Forall_cons in Hnew as [Hm Hnew]. rewrite bool_decide_false in Hrun by done.
  unfold mbind, M_bind in Hrun. destruct (apply m w) as [x w1] eqn:Ea. pose proof (apply_atomic m w x w1 Ea) as Hat.
  destruct x as [[]|e].
  2:{ injection Hrun as <- <-. rewrite Hat. exists k. split; [done|]. by split. }
  destruct Hat as (t & vs & now & Ht & Hvs & Hs1).
  assert (l !! k = Some m) as Hlk by (rewrite <-(Nat.add_0_r k), <-lookup_drop, <-Hrest; done).
  destruct Haf as (Hk & Hrep & Hdom). rewrite Hvs in Hdom. cbn [from_option] in Hdom.
  apply (IH (S k) w1) in Hrun as (k' & Hle & Haf' & Hok); [exists k'; split; [lia|done]| |done|by rewrite Hs1|].
  - replace (S k) with (k + 1) by lia. by rewrite <-drop_drop, <-Hrest.
  - rewrite Hs1. split; [apply lookup_lt_Some in Hlk; lia|]. rewrite (take_S_r _ _ _ Hlk). split.
    + rewrite replay_app, Hrep. cbn. rewrite Ht. done.
    + cbn [md_versions from_option]. etrans; [apply dom_insert_L|]. change (id vs) with vs in Hdom. rewrite Hdom, fmap_app, list_to_set_app_L. cbn. set_solver.
Qed.

(** Runs of [Up], whatever errors interrupt them. *)
Fixpoint Ups (files : list Entry) (n : nat) : M MigDB (result unit) :=
  match n with
  | O => mret (Ok tt)
  | S n' => _ ← Ups files n'; Up files
  end.
Lemma Up_extends files l t0 k (w : World MigDB) r w' :
  Load files = Ok l → NoDup (mg_Version <$> l) → after l t0 k (w_state w) → Up files w = (r, w') →
  ∃ k', k ≤ k' ∧ after l t0 k' (w_state w') ∧ (r = Ok tt → k' = length l).
Proof.
  intros Hload Hnd Haf. unfold Up, mbind, M_bind. destruct (ensureTable w) as [t w1] eqn:E1.
  pose proof (db_call_cases (λ s, (Ok tt, mkMigDB (Some (default ∅ (md_versions s))) (md_schema s))) w) as C1.
  change (db_call _ w) with (ensureTable w) in C1. rewrite E1 in C1. cbn [fst snd] in C1.
  destruct t as [[]|e]; [|intros [= <- <-]; exists k; destruct C1 as [(? & _ & ->)|[? ?]]; done].
  destruct C1 as [(? & ? & _)|[_ Hs1]]; [done|].
  assert (after l t0 k (w_state w1)) as Haf1 by (rewrite Hs1; exact Haf).
  unfold appliedVersions, mbind, M_bind. 
  match goal with |- context [db_call ?f w1] => pose proof (db_call_cases f w1) as C2; destruct (db_call f w1) as [q w2] eqn:E2 end.
  cbn [fst snd] in C2. assert (w_state w2 = w_state w1) as Hs2 by naive_solver.
  destruct q as [applied|e]; cbn [mret M_ret]; [|intros [= <- <-]; exists k; by rewrite Hs2].
  destruct C2 as [(? & ? & _)|[C2 _]]; [done|]. rewrite Hs1 in C2. injection C2 as Happ.
  match goal with |- context [db_call ?f w2] => pose proof (db_call_cases f w2) as C3; destruct (db_call f w2) as [z w3] eqn:E3 end.
  cbn [fst snd] in C3. assert (w_state w3 = w_state w1) as Hs3 by (destruct C3 as [(? & _ & ->)|[_ ->]]; exact Hs2).
  destruct z as [[]|e]; cbn [fmap result_fmap mret M_ret]; [|intros [= <- <-]; exists k; by rewrite Hs3].
  rewrite Hload. destruct Haf as (Hk & Hrep & Hdom).
  assert (applied = list_to_set (C := gset Z) (mg_Version <$> take k l)) as -> by (rewrite <-Hdom; exact Happ).
  set (seen := list_to_set (mg_Version <$> take k l)).
  assert (apply_pending seen l = apply_pending seen (drop k l)) as ->.
  { rewrite <-(take_drop k l) at 1. apply pending_skip, Forall_forall. intros m Hm. apply elem_of_list_to_set. by apply list_elem_of_fmap_2. }
  intros Hrun. eapply pending_extends; [done| | | |exact Hrun].
  - apply Forall_forall. intros m Hm Hin. apply elem_of_list_to_set, list_elem_of_fmap in Hin as (m' & E & Hm').
    rewrite <-(take_drop k l), fmap_app in Hnd. apply NoDup_app in Hnd as (_ & Hnd & _).
    apply (Hnd (mg_Version m)); [rewrite E; by apply list_elem_of_fmap_2|by apply list_elem_of_fmap_2].
  - rewrite Hs3, Hs1. by eexists.
  - by rewrite Hs3.
Qed.

(** C32: Migrations are applied in order and once: however often [Up] is run on a new database
    and whatever statements fail in between, the database is that of some prefix of the
    scripts, in the order of their versions, each run exactly once, with exactly their
    versions recorded; and when the last run succeeded, it is that of all. *)
Theorem migrations_prefix files l t0 n clk rnd flt r w' :
  Load files = Ok l → NoDup (mg_Version <$> l) →
  Ups files n (mkWorld clk 0 rnd 0 flt 0 (mkMigDB None t0)) = (r, w') →
  Sorted Z.le (mg_Version <$> l) ∧
  ∃ k, after l t0 k (w_state w') ∧ (0 < n → r = Ok tt → k = length l).
Proof.
  intros Hload Hnd Hrun. split.
  { unfold Load in Hload. destruct (load_entries files) as [l0|]; [|done]. injection Hload as <-. apply order_by_sorted. }
  revert r w' Hrun. induction n as [|n IH]; intros r w'; cbn [Ups].
  { intros [= <- <-]. exists 0. split; [|lia]. split; [lia|]. done. }
  unfold mbind, M_bind. destruct (Ups files n _) as [r0 w0]. destruct (IH r0 w0 eq_refl) as (k & Haf & _).
  intros Hup. destruct (Up_extends files l t0 k w0 r w' Hload Hnd Haf Hup) as (k' & _ & Haf' & Hok).
  exists k'. split; [done|]. intros _. exact Hok.
Qed.

Lemma no_fault_call {A} (f : MigDB → result A * MigDB) w : no_faults w →
  ∃ w', db_call f w = (fst (f (w_state w)), w') ∧ w_state w' = snd (f (w_state w)) ∧ no_faults w'.
Proof.
  intros Hnf. unfold db_call. rewrite (Hnf (w_nfault w)). destruct (f (w_state w)) as [x s]. eexists. split; [reflexivity|]. by split.
Qed.
Lemma apply_succeeds m (w : World MigDB) t vs : no_faults w →
  exec_sql (mg_SQL m) (md_schema (w_state w)) = Ok t → md_versions (w_state w) = Some vs → vs !! mg_Version m = None →
  ∃ w' now, apply m w = (Ok tt, w') ∧ no_faults w' ∧ w_state w' = mkMigDB (Some (<[mg_Version m := now]> vs)) t.
Proof.
  intros Hnf Ht Hvs Hnew. unfold apply, mbind, M_bind.
  destruct (no_fault_call (λ s, (Ok tt, s)) w Hnf) as (w1 & -> & Hs1 & Hnf1). cbn [fst snd] in *. unfold get_state.
  destruct (no_fault_call (run_script m) w1 Hnf1) as (w2 & -> & Hs2 & Hnf2). unfold run_script in *. rewrite Hs1, Ht in *. cbn [fst snd] in *.
  unfold time_now. match goal with |- context [db_call (record_version ?v ?now) ?w3] =>
    destruct (no_fault_call (record_version v now) w3) as (w4 & -> & Hs4 & Hnf4); [exact Hnf2|]; set (now0 := now) in * end.
  unfold record_version in *. cbn [w_state] in *. rewrite Hs2 in *. cbn [md_versions md_schema] in *. rewrite Hvs, Hnew in *. cbn [fst snd] in *.
  destruct (no_fault_call (λ s, (Ok tt, s)) w4 Hnf4) as (w5 & -> & Hs5 & Hnf5). cbn [fst snd mret M_ret] in *.
  exists w5, now0. split; [done|]. split; [done|]. congruence.
Qed.
Lemma pending_succeeds applied l (w : World MigDB) t vs : no_faults w → NoDup (mg_Version <$> l) →
  Forall (λ m, (mg_Version m ∉ applied) ∧ vs !! mg_Version m = None) l → md_versions (w_state w) = Some vs →
  replay l (md_schema (w_state w)) = Ok t →
  ∃ w', apply_pending applied l w = (Ok tt, w') ∧ md_schema (w_state w') = t.
Proof.
  revert w vs. induction l as [|m l IH]; intros w vs Hnf Hnd Hnew Hvs Hrep.
  { exists w. split; [done|]. by injection Hrep. }
  apply Forall_cons in Hnew as [[Hm Hfree] Hnew]. apply NoDup_cons in Hnd as [Hni Hnd]. cbn [apply_pending replay] in *.
  rewrite bool_decide_false by done. destruct (exec_sql (mg_SQL m) _) as [t1|] eqn:Et; [|done]. cbn in Hrep.
  destruct (apply_succeeds m w t1 vs Hnf Et Hvs Hfree) as (w1 & now & Ha & Hnf1 & Hs1).
  unfold mbind, M_bind. rewrite Ha. apply (IH w1 (<[mg_Version m := now]> vs)); [done|done| |by rewrite Hs1|by rewrite Hs1].
  apply Forall_forall. intros m' Hm'. destruct (proj1 (Forall_forall _ _) Hnew m' Hm') as [H1 H2]. split; [done|].
  rewrite lookup_insert_ne; [done|]. intros E. apply Hni. rewrite E. by apply list_elem_of_fmap_2.
Qed.

(** Migrations complete: on a new database, when no statement fails and the scripts run
    one after the other, one run of [Up] succeeds and leaves what the scripts leave. *)
Theorem Up_completes files l t0 t (w : World MigDB) :
  Load files = Ok l → NoDup (mg_Version <$> l) → replay l t0 = Ok t →
  no_faults w → w_state w = mkMigDB None t0 →
  ∃ w', Up files w = (Ok tt, w') ∧ md_schema (w_state w') = t.
Proof.
  intros Hload Hnd Hrep Hnf Hs. unfold Up, mbind, M_bind, ensureTable.
  match goal with |- context [db_call ?f w] => destruct (no_fault_call f w Hnf) as (w1 & -> & Hs1 & Hnf1) end. rewrite Hs in Hs1. cbn [fst snd] in *.
  unfold appliedVersions, mbind, M_bind.
  match goal with |- context [db_call ?f w1] => destruct (no_fault_call f w1 Hnf1) as (w2 & -> & Hs2 & Hnf2) end.
  rewrite Hs1 in *. cbn [fst snd md_versions of_option fmap result_fmap from_option] in *.
  match goal with |- context [db_call ?f w2] => destruct (no_fault_call f w2 Hnf2) as (w3 & -> & Hs3 & Hnf3) end.
  cbn [fst snd fmap result_fmap mret M_ret] in *. rewrite Hload.
  eapply pending_succeeds; [done|done| |rewrite Hs3, Hs2; reflexivity|by rewrite Hs3, Hs2].
  apply Forall_forall. intros m _. split; [|done]. change (@from_option _ _ id ∅ None) with (∅ : gmap Z Z). rewrite dom_empty_L. set_solver.
Qed.
End Runner.

(** ** Instances *)

(** The repository's files over an engine that logs the scripts. *)
Definition repo_files : list Entry :=
  [mkEntry "001_initial.sql" false "initial"; mkEntry "002_new_features.sql" false "features";
   mkEntry "003_protocol_extensions.sql" false "protocol"; mkEntry "migrate.go" false ""].
Definition log_sql (sql : string) (log : list string) : result (list string) := Ok (log ++ [sql]).
Definition repo_migrations : list Migration :=
  [mkMigration 1 "initial" "initial"; mkMigration 2 "new_features" "features"; mkMigration 3 "protocol_extensions" "protocol"].
Lemma repo_load : Load repo_files = Ok repo_migrations.
Proof. vm_compute. reflexivity. Qed.
Lemma repo_distinct : NoDup (mg_Version <$> repo_migrations).
Proof. vm_compute. repeat constructor; set_solver. Qed.
(** The commit of the second script of the first run fails. *)
Definition flaky (n : nat) : option string := if Nat.eqb n 10 then Some "disk I/O error" else None.
Lemma migrations_prefix_witness : ∃ k,
  after log_sql repo_migrations [] k
    (w_state (snd (Ups log_sql repo_files 1 (mkWorld (λ _, 0%Z) 0 (λ _, None) 0 flaky 0 (mkMigDB None []))))) ∧ k < 3.
Proof.
  destruct (migrations_prefix log_sql repo_files repo_migrations [] 1 (λ _, 0%Z) (λ _, None) flaky _ _
    repo_load repo_distinct (surjective_pairing _)) as (_ & k & Haf & _).
  exists k. split; [exact Haf|]. destruct Haf as (Hk & Hrep & _). vm_compute in Hrep.
  destruct k as [|[|[|k]]]; [lia..|]. cbn in Hk. destruct k; [|lia]. vm_compute in Hrep. discriminate Hrep.
Defined.
Lemma Up_completes_witness : ∃ w',
  Up log_sql repo_files (mkWorld (λ _, 0%Z) 0 (λ _, None) 0 (λ _, None) 0 (mkMigDB None [])) = (Ok tt, w') ∧
  md_schema (w_state w') = ["initial"; "features"; "protocol"].
Proof.
  apply (Up_completes log_sql repo_files repo_migrations [] _ _ repo_load repo_distinct); [reflexivity|intros n; reflexivity|reflexivity].
Defined.
End Migrations.
