(* ===== verification/OidcRp.v ===== *)
(** * Sign-in at an upstream OpenID provider (internal/bridge/providers/oidc_rp.go)

    The HTTP client is a parameter that may answer differently at every call; RSA and
    ECDSA verification are parameters.  A computation that panics is [None]: sending a
    request whose URL could not be parsed, slicing past the end of a signature, and
    verifying under an Ed25519 key of the wrong length. *)

From S2P Require Import Prelude GoStd World Json JsonValue Base64 Sha Http Crypto Consent StoreTypes Jwt GoTime GoNet Bridge BridgeApi.
Import JsonValue Http Crypto Jwt Bridge.

Module OidcRp.

(** ** The HTTP client *)

Record HttpCall := mkHttpCall { hc_method : string; hc_url : string; hc_header : list (string * string);
                                hc_form : list (string * string) }.
(** The status and the first JSON value of the body, if there is one. *)
Record HttpAnswer := mkHttpAnswer { ha_status : Z; ha_json : option json }.
(** What [Decode] into a struct leaves of it. *)
Definition answer_object (a : HttpAnswer) : option (list (string * json)) :=
  match ha_json a with Some (JObj l) => Some l | Some JNull => Some [] | _ => None end.
Definition decode_error : error := ErrMsg "json: cannot unmarshal".

(** [strings.TrimRight(s, "/")] and [url.Values.Encode], the keys in order. *)
Fixpoint drop_slashes (l : list byte) : list byte :=
  match l with c :: l' => if beqb c x2f then drop_slashes l' else l | [] => [] end.
Definition TrimRightSlash (s : string) : string := str_of (rev (drop_slashes (rev (bytes_of s)))).
Fixpoint join_params (l : list (string * string)) : string :=
  match l with
  | [] => ""
  | [(k, v)] => BridgeApi.QueryEscape k +s "=" +s BridgeApi.QueryEscape v
  | (k, v) :: l' => BridgeApi.QueryEscape k +s "=" +s BridgeApi.QueryEscape v +s "&" +s join_params l'
  end.
Definition values_Encode (l : list (string * string)) : string := join_params (of_pairs l).
Fixpoint Join (l : list string) (sep : string) : string :=
  match l with [] => "" | [s] => s | s :: l' => s +s sep +s Join l' sep end.

(** A text under %q, exact unless it has characters to escape. *)
Definition quoted (s : string) : string := str_of [x22] +s s +s str_of [x22].

(** ** Signatures *)

(** crypto.SHA384: SHA-512 from other initial values, cut to 48 bytes. *)
Definition H384 : list N := Eval vm_compute in Sha512.frac_bits 2 <$> take 8 (drop 8 Sha512.primes).
Definition Sum384 (l : list byte) : list byte :=
  let p := Sha512.pad l in
  take 48 (mjoin (Sha512.bytes_of_word64 <$> foldl Sha512.compress H384 (Sha512.blocks (length p) p))).
Example sha384_abc :
  Sha.hex (Sum384 (bytes_of "abc")) =
  "cb00753f45a35e8bb5a03d699ac65007272c32ab0eded1631a8b605a43ff5bed8086072ba1e7cc2358baeca134c825a7".
Proof. vm_compute. reflexivity. Qed.

Inductive Hash := SHA256 | SHA384 | SHA512.
Definition digest (h : Hash) (msg : list byte) : list byte :=
  match h with SHA256 => Sha.Sum256 msg | SHA384 => Sum384 msg | SHA512 => Sha512.Sum512 msg end.
Inductive Curve := P256 | P384 | P521.
Definition BitSize (c : Curve) : nat := match c with P256 => 256 | P384 => 384 | P521 => 521 end.
Inductive PublicKey :=
| RSAKey (n : N) (e : Z)
| ECKey (c : Curve) (x y : N)
| EdKey (k : list byte).

Class RsaEcdsa := {
  VerifyPKCS1v15 : N → Z → Hash → list byte → list byte → result unit;
  VerifyPSS : N → Z → Hash → list byte → list byte → result unit;
  ecdsa_Verify : Curve → N → N → list byte → N → N → bool }.

(** [new(big.Int).SetBytes]. *)
Definition big_bytes (l : list byte) : N := foldl (λ acc b, acc * 256 + bval b)%N 0%N l.

Record jwkKey := mkJwkKey {
  jk_Kty : string; jk_Kid : string; jk_Alg : string; jk_Use : string; jk_N : string; jk_E : string;
  jk_Crv : string; jk_X : string; jk_Y : string }.
Definition decode_jwkKey (l : list (string * json)) : option jwkKey :=
  kty ← str_field "kty" l; kid ← str_field "kid" l; alg ← str_field "alg" l; use ← str_field "use" l;
  n ← str_field "n" l; e ← str_field "e" l; crv ← str_field "crv" l; x ← str_field "x" l; y ← str_field "y" l;
  Some (mkJwkKey kty kid alg use n e crv x y).

Definition base64_error : error := ErrMsg "illegal base64 data".
(** [e = e<<8 | int(b)], in 64 bits. *)
Definition int64 (z : Z) : Z := ((z + 2 ^ 63) mod 2 ^ 64 - 2 ^ 63)%Z.
Definition exponent (l : list byte) : Z :=
  foldl (λ e b, Z.lor (int64 (Z.shiftl e 8)) (Z.of_N (bval b))) 0%Z l.
Definition curve_of (crv : string) : option Curve :=
  if crv =s "P-256" then Some P256 else if crv =s "P-384" then Some P384 else if crv =s "P-521" then Some P521 else None.
Definition jwkToPublicKey (k : jwkKey) : result PublicKey :=
  if jk_Kty k =s "RSA" then
    nb ← of_option base64_error (Base64.DecodeString (jk_N k));
    eb ← of_option base64_error (Base64.DecodeString (jk_E k));
    Ok (RSAKey (big_bytes nb) (exponent eb))
  else if jk_Kty k =s "EC" then
    xb ← of_option base64_error (Base64.DecodeString (jk_X k));
    yb ← of_option base64_error (Base64.DecodeString (jk_Y k));
    c ← of_option (ErrMsg ("unsupported EC curve: " +s jk_Crv k)) (curve_of (jk_Crv k));
    Ok (ECKey c (big_bytes xb) (big_bytes yb))
  else if jk_Kty k =s "OKP" then
    xb ← of_option base64_error (Base64.DecodeString (jk_X k));
    Ok (EdKey xb)
  else Err (ErrMsg ("unsupported key type: " +s jk_Kty k)).

(** [s[a:b]]: the bytes, or a panic past the end. *)
Definition slice (a b : nat) (s : list byte) : option (list byte) :=
  if (a <=? b) && (b <=? length s) then Some (take (b - a) (drop a s)) else None.
Definition parseDERSignature (der : list byte) : option (result (N * N)) :=
  match der with
  | x30 :: _ :: inner =>
      match inner with
      | x02 :: rl :: _ =>
          let rLen := N.to_nat (bval rl) in
          r ← slice 2 (2 + rLen) inner;
          match drop (2 + rLen) inner with
          | (x02 :: sl :: _) as inner2 =>
              let sLen := N.to_nat (bval sl) in
              s ← slice 2 (2 + sLen) inner2;
              Some (Ok (big_bytes r, big_bytes s))
          | _ => Some (Err (ErrMsg "expected second integer"))
          end
      | _ => Some (Err (ErrMsg "expected integer"))
      end
  | _ => Some (Err (ErrMsg "not a DER sequence"))
  end.

Section Verify.
Context `{Ed25519, RsaEcdsa, Float64}.

Definition rsa_hash (alg : string) : option Hash :=
  if (alg =s "RS256") || (alg =s "PS256") then Some SHA256
  else if (alg =s "RS384") || (alg =s "PS384") then Some SHA384
  else if (alg =s "RS512") || (alg =s "PS512") then Some SHA512 else None.
Definition verifyRSA (n : N) (e : Z) (alg : string) (msg sig : list byte) : result unit :=
  match rsa_hash alg with
  | None => Err (ErrMsg ("unsupported RSA alg: " +s alg))
  | Some hash =>
      if HasPrefix alg "PS" then VerifyPSS n e hash (digest hash msg) sig
      else VerifyPKCS1v15 n e hash (digest hash msg) sig
  end.

Definition ec_hash (alg : string) : option Hash :=
  if alg =s "ES256" then Some SHA256 else if alg =s "ES384" then Some SHA384
  else if alg =s "ES512" then Some SHA512 else None.
Definition ec_check (c : Curve) (x y : N) (d : list byte) (r s : N) : result unit :=
  if ecdsa_Verify c x y d r s then Ok tt else Err (ErrMsg "invalid ecdsa signature").
Definition verifyECDSA (c : Curve) (x y : N) (alg : string) (msg sig : list byte) : option (result unit) :=
  match ec_hash alg with
  | None => Some (Err (ErrMsg ("unsupported ECDSA alg: " +s alg)))
  | Some hash =>
  let d := digest hash msg in
  let keySize := (BitSize c + 7) / 8 in
  if length sig =? 2 * keySize then Some (ec_check c x y d (big_bytes (take keySize sig)) (big_bytes (drop keySize sig)))
  else
    parsed ← parseDERSignature sig;
    Some (match parsed with
          | Err e => Err (ErrWrap "parse ecdsa sig" e)
          | Ok (r, s) => ec_check c x y d r s
          end)
  end.

(** The header as [json.Unmarshal] into a map leaves it, its error dropped: a member that
    is not a string is the empty one.  A segment that does not decode has been refused by
    [ParseHeader] before; here it has no algorithm. *)
Definition header_members (l : list (string * json)) : list (string * string) :=
  (λ kv : string * json, (fst kv, match snd kv with JStr s => s | _ => "" end)) <$> l.
Definition header_alg (part : string) : string :=
  match Base64.DecodeString part with
  | None => ""
  | Some raw => match parse raw with
                | Some (JObj l) => default "" (aget "alg" (of_pairs (header_members l)))
                | _ => ""
                end
  end.
Definition verifyJWTSignature (token : string) (pub : PublicKey) : option (result unit) :=
  match SplitN token x2e 3 with
  | [p0; p1; p2] =>
      let sigInput := bytes_of (p0 +s "." +s p1) in
      match Base64.DecodeString p2 with
      | None => Some (Err base64_error)
      | Some sig =>
          let alg := header_alg p0 in
          match pub with
          | RSAKey n e => Some (verifyRSA n e alg sigInput sig)
          | ECKey c x y => verifyECDSA c x y alg sigInput sig
          | EdKey k =>
              if negb (length k =? 32) then None
              else Some (if ed_verify k sigInput sig then Ok tt else Err (ErrMsg "invalid ed25519 signature"))
          end
      end
  | _ => Some (Err (ErrMsg "malformed jwt"))
  end.

(** [json.Unmarshal] into a map[string]any, whose numbers are float64. *)
Definition parseRawClaims (token : string) : result (list (string * json)) :=
  match SplitN token x2e 3 with
  | [_; p1; _] =>
      match Base64.DecodeString p1 with
      | None => Err base64_error
      | Some raw => match unmarshal_any raw with
                    | Ok (JObj l) => Ok l
                    | Ok JNull => Ok []
                    | Ok _ => Err decode_error
                    | Err e => Err e
                    end
      end
  | _ => Err (ErrMsg "malformed jwt")
  end.
Definition raw_string (k : string) (l : list (string * json)) : option string :=
  match aget k l with Some (JStr s) => Some s | _ => None end.
End Verify.

(** ** The provider *)

Record OIDCRPConfig := mkOIDCRPConfig {
  rp_Name : string; rp_Issuer : string; rp_ClientID : string; rp_ClientSecret : string;
  rp_Scopes : list string; rp_RedirectBaseURL : string }.
Record oidcDiscovery := mkOidcDiscovery {
  di_AuthorizationEndpoint : string; di_TokenEndpoint : string; di_JwksURI : string }.
Definition decode_discovery (l : list (string * json)) : option oidcDiscovery :=
  a ← str_field "authorization_endpoint" l; t ← str_field "token_endpoint" l; j ← str_field "jwks_uri" l;
  Some (mkOidcDiscovery a t j).
(** The document found last and when. *)
Record OIDCRPBridge := mkOIDCRPBridge { rb_cfg : OIDCRPConfig; rb_discovered : option (oidcDiscovery * Z) }.
Definition NewOIDCRP (cfg : OIDCRPConfig) : OIDCRPBridge :=
  let scopes := match rp_Scopes cfg with [] => ["openid"; "email"; "profile"] | l => l end in
  mkOIDCRPBridge (mkOIDCRPConfig (rp_Name cfg) (rp_Issuer cfg) (rp_ClientID cfg) (rp_ClientSecret cfg) scopes
                    (rp_RedirectBaseURL cfg)) None.

Section Provider.
Context {St : Type} `{Ed25519, RsaEcdsa, Float64} (http_do : HttpCall → M St (result HttpAnswer)).

Definition callbackURL (b : OIDCRPBridge) : string :=
  TrimRightSlash (rp_RedirectBaseURL (rb_cfg b)) +s "/auth/" +s rp_Name (rb_cfg b) +s "/callback".

(** [http.NewRequestWithContext], its error dropped, and [Do] of what it returned. *)
Definition get (u : string) : M St (option (result HttpAnswer)) :=
  if GoNet.Parse_ok u then r ← http_do (mkHttpCall "GET" u [] []); mret (Some r) else mret None.

Definition fetch_discovery (b : OIDCRPBridge) : M St (option (result oidcDiscovery) * OIDCRPBridge) :=
  let discURL := TrimRightSlash (rp_Issuer (rb_cfg b)) +s "/.well-known/openid-configuration" in
  resp ← get discURL;
  match resp with
  | None => mret (None, b)
  | Some (Err e) => mret (Some (Err (ErrWrap "oidc_rp: discovery fetch" e)), b)
  | Some (Ok a) =>
      match answer_object a ≫= decode_discovery with
      | None => mret (Some (Err (ErrWrap "oidc_rp: discovery decode" decode_error)), b)
      | Some disc => now ← time_now; mret (Some (Ok disc), mkOIDCRPBridge (rb_cfg b) (Some (disc, now)))
      end
  end.
Definition discover (b : OIDCRPBridge) : M St (option (result oidcDiscovery) * OIDCRPBridge) :=
  match rb_discovered b with
  | None => fetch_discovery b
  | Some (d, at_) =>
      now ← time_now;
      if (now - at_ <? hour)%Z then mret (Some (Ok d), b) else fetch_discovery b
  end.

Definition AuthorizationURL (b : OIDCRPBridge) (state : string) : M St (option (result string) * OIDCRPBridge) :=
  res ← discover b;
  let '(disc, b) := res in
  mret (match disc with
        | None => None
        | Some (Err e) => Some (Err e)
        | Some (Ok disc) =>
            Some (Ok (di_AuthorizationEndpoint disc +s "?" +s
              values_Encode [("response_type", "code"); ("client_id", rp_ClientID (rb_cfg b)); ("redirect_uri", callbackURL b);
                      ("scope", Join (rp_Scopes (rb_cfg b)) " "); ("state", state)]))
        end, b).

Definition fetchJWKS (uri : string) : M St (option (result (list jwkKey))) :=
  resp ← get uri;
  mret (match resp with
        | None => None
        | Some resp => Some (a ← resp; of_option decode_error (l ← answer_object a; ks ← GoTime.structs_field "keys" l;
                                                               mapM decode_jwkKey ks))
        end).
(** The first key of the identifier that can be read; any key when the token names none. *)
Fixpoint find_key (kid : string) (keys : list jwkKey) : option PublicKey :=
  match keys with
  | [] => None
  | k :: keys' =>
      if (kid =s "") || (jk_Kid k =s kid)
      then match jwkToPublicKey k with Ok pk => Some pk | Err _ => find_key kid keys' end
      else find_key kid keys'
  end.
Definition extra_fields : list string := ["email"; "given_name"; "family_name"; "name"; "picture"].
Definition copy_fields (fields : list string) (raw : list (string * json)) (m : gmap string string) : gmap string string :=
  foldl (λ m f, match raw_string f raw with Some v => <[f := v]> m | None => m end) m fields.
(** The outcome, or a panic. *)
Definition verifyIDToken (b : OIDCRPBridge) (disc : oidcDiscovery) (idToken : string) : M St (option (result ExternalIdentity)) :=
  match ParseHeader idToken with
  | Err e => mret (Some (Err (ErrWrap "oidc_rp: parse token header" e)))
  | Ok header =>
  let kid := default "" (aget "kid" (of_pairs header)) in
  let alg := default "" (aget "alg" (of_pairs header)) in
  keys ← fetchJWKS (di_JwksURI disc);
  match keys with
  | None => mret None
  | Some (Err e) => mret (Some (Err (ErrWrap "oidc_rp: fetch jwks" e)))
  | Some (Ok keys) =>
  match find_key kid keys with
  | None => mret (Some (Err (ErrMsg ("oidc_rp: no matching key for kid=" +s quoted kid +s " alg=" +s quoted alg))))
  | Some pubKey =>
  match verifyJWTSignature idToken pubKey with
  | None => mret None
  | Some (Err e) => mret (Some (Err (ErrWrap "oidc_rp: verify signature" e)))
  | Some (Ok _) =>
  match ParseUnverified idToken with
  | Err e => mret (Some (Err (ErrWrap "oidc_rp: parse claims" e)))
  | Ok claims =>
  now ← time_now;
  if (cl_ExpiresAt claims <? unix now)%Z then mret (Some (Err (ErrMsg "oidc_rp: id_token expired")))
  else if cl_Subject claims =s "" then mret (Some (Err (ErrMsg "oidc_rp: missing sub claim")))
  else
    let base : gmap string string := {[ "iss" := cl_Issuer claims ]} in
    let all := match parseRawClaims idToken with Ok raw => copy_fields extra_fields raw base | Err _ => base end in
    mret (Some (Ok (mkExternalIdentity (rp_Name (rb_cfg b)) (cl_Subject claims) all false)))
  end end end end end.

(** The code for a token at the token endpoint, as both OAuth providers ask for it. *)
Definition token_call (endpoint code callback clientID secret : string) : HttpCall :=
  mkHttpCall "POST" endpoint [] [("grant_type", "authorization_code"); ("code", code); ("redirect_uri", callback);
                                 ("client_id", clientID); ("client_secret", secret)].
Definition ExchangeCode (b : OIDCRPBridge) (code : string) : M St (option (result ExternalIdentity) * OIDCRPBridge) :=
  res ← discover b;
  let '(disc, b) := res in
  match disc with
  | None => mret (None, b)
  | Some (Err e) => mret (Some (Err e), b)
  | Some (Ok disc) =>
  resp ← http_do (token_call (di_TokenEndpoint disc) code (callbackURL b) (rp_ClientID (rb_cfg b)) (rp_ClientSecret (rb_cfg b)));
  match resp with
  | Err e => mret (Some (Err (ErrWrap "oidc_rp: token exchange" e)), b)
  | Ok a =>
  if negb (ha_status a =? StatusOK)%Z
  then mret (Some (Err (ErrMsg ("oidc_rp: token endpoint returned " +s Itoa (ha_status a)))), b) else
  match answer_object a ≫= str_field "id_token" with
  | None => mret (Some (Err (ErrWrap "oidc_rp: decode token response" decode_error)), b)
  | Some idToken =>
  if idToken =s "" then mret (Some (Err (ErrMsg "oidc_rp: no id_token in response")), b) else
  ext ← verifyIDToken b disc idToken;
  mret (ext, b)
  end end end.
End Provider.
End OidcRp.
