(* ===== verification/OidcRpProofs.v ===== *)
(** * Sign-in at an upstream OpenID provider: what it guarantees *)

From S2P Require Import Prelude GoStd World Json JsonValue Base64 Sha Http Crypto Consent StoreTypes Jwt GoTime VcProofs Bridge BridgeApi OidcRp.
Import JsonValue Http Crypto Jwt Bridge OidcRp.

Module OidcRpProofs.

Section Accept.
Context {St : Type} `{Ed25519, RsaEcdsa, Float64} (http_do : HttpCall → M St (result HttpAnswer)).

Lemma find_key_in kid keys pk : find_key kid keys = Some pk →
  ∃ k, k ∈ keys ∧ (kid = "" ∨ jk_Kid k = kid) ∧ jwkToPublicKey k = Ok pk.
Proof.
  induction keys as [|k keys IH]; cbn [find_key]; [done|].
  destruct ((kid =s "") || (jk_Kid k =s kid)) eqn:E.
  - destruct (jwkToPublicKey k) as [pk0|] eqn:Ek.
    + intros [= ->]. exists k. split; [by left|]. split; [|done]. apply orb_true_iff in E as [E|E]; apply String.eqb_eq in E; auto.
    + intros Hf. destruct (IH Hf) as (k' & Hin & ?). exists k'. split; [by right|done].
  - intros Hf. destruct (IH Hf) as (k' & Hin & ?). exists k'. split; [by right|done].
Qed.

(** *** What a signature is *)

(** The two numbers of an ECDSA signature: of the curve's width side by side, or as the two
    integers of a DER sequence. *)
Inductive ec_encoded (c : Curve) (r s sig : list byte) : Prop :=
| ec_raw : sig = r ++ s → length r = (BitSize c + 7) / 8 → length s = (BitSize c + 7) / 8 → ec_encoded c r s sig
| ec_der l rl sl rest :
    sig = x30 :: l :: x02 :: rl :: r ++ x02 :: sl :: s ++ rest →
    N.to_nat (bval rl) = length r → N.to_nat (bval sl) = length s → ec_encoded c r s sig.
(** Which key, algorithm and signature of a message go together, by key type. *)
Inductive signed_under (alg : string) (msg sig : list byte) : PublicKey → Prop :=
| signed_rsa n e h :
    (alg, h) ∈ [("RS256", SHA256); ("RS384", SHA384); ("RS512", SHA512)] →
    VerifyPKCS1v15 n e h (digest h msg) sig = Ok tt → signed_under alg msg sig (RSAKey n e)
| signed_pss n e h :
    (alg, h) ∈ [("PS256", SHA256); ("PS384", SHA384); ("PS512", SHA512)] →
    VerifyPSS n e h (digest h msg) sig = Ok tt → signed_under alg msg sig (RSAKey n e)
| signed_ecdsa c x y h r s :
    (alg, h) ∈ [("ES256", SHA256); ("ES384", SHA384); ("ES512", SHA512)] → ec_encoded c r s sig →
    ecdsa_Verify c x y (digest h msg) (big_bytes r) (big_bytes s) = true → signed_under alg msg sig (ECKey c x y)
| signed_ed25519 k : length k = 32 → ed_verify k msg sig = true → signed_under alg msg sig (EdKey k).

Lemma rsa_hash_in alg h : rsa_hash alg = Some h →
  (HasPrefix alg "PS" = false ∧ (alg, h) ∈ [("RS256", SHA256); ("RS384", SHA384); ("RS512", SHA512)]) ∨
  (HasPrefix alg "PS" = true ∧ (alg, h) ∈ [("PS256", SHA256); ("PS384", SHA384); ("PS512", SHA512)]).
Proof.
  unfold rsa_hash. rewrite !list_elem_of_In. cbn [In].
  destruct (String.eqb_spec alg "RS256") as [->|_]; [intros [= <-]; left; auto|].
  destruct (String.eqb_spec alg "PS256") as [->|_]; [intros [= <-]; right; auto|].
  destruct (String.eqb_spec alg "RS384") as [->|_]; [intros [= <-]; left; auto|].
  destruct (String.eqb_spec alg "PS384") as [->|_]; [intros [= <-]; right; auto|].
  destruct (String.eqb_spec alg "RS512") as [->|_]; [intros [= <-]; left; auto|].
  destruct (String.eqb_spec alg "PS512") as [->|_]; [intros [= <-]; right; auto|done].
Qed.
Lemma ec_hash_in alg h : ec_hash alg = Some h → (alg, h) ∈ [("ES256", SHA256); ("ES384", SHA384); ("ES512", SHA512)].
Proof.
  unfold ec_hash. rewrite list_elem_of_In. cbn [In].
  destruct (String.eqb_spec alg "ES256") as [->|_]; [intros [= <-]; auto|].
  destruct (String.eqb_spec alg "ES384") as [->|_]; [intros [= <-]; auto|].
  destruct (String.eqb_spec alg "ES512") as [->|_]; [intros [= <-]; auto|done].
Qed.
Lemma rsa_signed n e alg msg sig : verifyRSA n e alg msg sig = Ok tt → signed_under alg msg sig (RSAKey n e).
Proof.
  unfold verifyRSA. destruct (rsa_hash alg) as [h|] eqn:Eh; [|done].
  apply rsa_hash_in in Eh as [[-> Hin]|[-> Hin]]; [by apply signed_rsa|by apply signed_pss].
Qed.
Lemma slice_inv a b l x : slice a b l = Some x → length x = b - a ∧ drop a l = x ++ drop b l.
Proof.
  unfold slice. destruct (Nat.leb_spec a b), (Nat.leb_spec b (length l)); cbn [andb]; try done. intros [= <-].
  split; [rewrite length_take, length_drop; lia|].
  rewrite <-(take_drop (b - a) (drop a l)) at 1. f_equal. rewrite drop_drop. f_equal. lia.
Qed.
Lemma der_encoded c sig r s : parseDERSignature sig = Some (Ok (r, s)) →
  ∃ rb sb, ec_encoded c rb sb sig ∧ r = big_bytes rb ∧ s = big_bytes sb.
Proof.
  destruct sig as [|c0 [|l inner]]; [done|by destruct c0|]. unfold parseDERSignature.
  destruct c0; try done. destruct inner as [|c1 [|rl inner]]; [done|by destruct c1|]. destruct c1; try done.
  cbn zeta. set (rLen := N.to_nat (bval rl)). destruct (slice 2 (2 + rLen) _) as [rb|] eqn:Er; [|done].
  apply slice_inv in Er as [Hrl Hr]. change (drop 2 (x02 :: rl :: inner)) with (drop 0 inner) in Hr. rewrite drop_0 in Hr.
  cbn [mbind option_bind]. destruct (drop (2 + rLen) (x02 :: rl :: inner)) as [|c2 [|sl inner2]] eqn:Ed; [done|by destruct c2|].
  destruct c2; try done. cbn zeta. set (sLen := N.to_nat (bval sl)).
  destruct (slice 2 (2 + sLen) _) as [sb|] eqn:Es; [|done]. apply slice_inv in Es as [Hsl Hs].
  change (drop 2 (x02 :: sl :: inner2)) with (drop 0 inner2) in Hs. rewrite drop_0 in Hs.
  cbn [mbind option_bind]. intros [= <- <-]. exists rb, sb. split; [|done].
  apply (ec_der _ _ _ _ l rl sl (drop (2 + sLen) (x02 :: sl :: inner2))); [|lia..]. by rewrite Hr, <-Hs.
Qed.
Lemma ecdsa_signed c x y alg msg sig :
  verifyECDSA c x y alg msg sig = Some (Ok tt) → signed_under alg msg sig (ECKey c x y).
Proof.
  unfold verifyECDSA. destruct (ec_hash alg) as [h|] eqn:Eh; [|done].
  pose proof (ec_hash_in _ _ Eh) as Hin.
  unfold ec_check. destruct (Nat.eqb_spec (length sig) (2 * ((BitSize c + 7) / 8))) as [Hl|_].
  - destruct (ecdsa_Verify _ _ _ _ _ _) eqn:Ev; [|done]. intros _. eapply signed_ecdsa; [exact Hin| |exact Ev].
    apply ec_raw; [by rewrite take_drop|rewrite length_take; lia|rewrite length_drop; lia].
  - destruct (parseDERSignature sig) as [[[r s]|]|] eqn:Ep; [|done..]. cbn [mbind option_bind].
    destruct (ecdsa_Verify c x y _ r s) eqn:Ev; [|done]. intros _.
    destruct (der_encoded c _ _ _ Ep) as (rb & sb & Henc & -> & ->). by eapply signed_ecdsa.
Qed.

(** The segments of a token. *)
Fixpoint join_bytes (sep : byte) (l : list (list byte)) : list byte :=
  match l with [] => [] | [x] => x | x :: l' => x ++ sep :: join_bytes sep l' end.
Lemma join_bsplit sep n cur s : join_bytes sep (bsplit_n sep n cur s) = rev cur ++ s.
Proof.
  revert n cur. induction s as [|c s IH]; intros n cur; cbn [bsplit_n]; [by rewrite app_nil_r|].
  destruct (beqb_spec c sep) as [->|_].
  - destruct n as [|[|n]]; [done..|]. specialize (IH (S n) []). cbn [join_bytes].
    destruct (bsplit_n sep (S n) [] s) eqn:E; [by destruct s as [|c s]; [|revert E; cbn; case_match]|].
    by rewrite IH.
  - rewrite IH. cbn [rev]. by rewrite <-app_assoc.
Qed.
Lemma segments_of token p0 p1 p2 : SplitN token x2e 3 = [p0; p1; p2] → token = p0 +s "." +s p1 +s "." +s p2.
Proof.
  unfold SplitN. destruct (bsplit_n x2e 3 [] (bytes_of token)) as [|a [|b [|c [|]]]] eqn:E; try done. intros [= <- <- <-].
  pose proof (join_bsplit x2e 3 [] (bytes_of token)) as Hj. rewrite E in Hj. cbn [join_bytes rev app] in Hj.
  apply bytes_of_inj. by rewrite !bytes_of_append, !bytes_of_str_of, <-Hj.
Qed.
Lemma signature_checked token pk :
  verifyJWTSignature token pk = Some (Ok tt) →
  ∃ p0 p1 p2 sig, SplitN token x2e 3 = [p0; p1; p2] ∧ token = p0 +s "." +s p1 +s "." +s p2 ∧
    Base64.DecodeString p2 = Some sig ∧ signed_under (header_alg p0) (bytes_of (p0 +s "." +s p1)) sig pk.
Proof.
  unfold verifyJWTSignature. destruct (SplitN token x2e 3) as [|p0 [|p1 [|p2 [|]]]] eqn:Es; try done.
  destruct (Base64.DecodeString p2) as [sig|] eqn:Ed; [|done]. intros Hv. exists p0, p1, p2, sig.
  split_and!; [done|by apply segments_of|done|].
  destruct pk as [n e|c x y|k]; [by injection Hv as Hv; apply rsa_signed|by apply ecdsa_signed|].
  destruct (Nat.eqb_spec (length k) 32) as [Hl|]; [|done]. cbn [negb] in Hv.
  destruct (ed_verify k _ sig) eqn:E; [|done]. by constructor.
Qed.

(** C33: An upstream identity is backed by a signature: when the exchange of a code yields an
    identity, the token has three segments, the keys fetched from the upstream provider
    contain one, of the identifier the token names if it names one, under which the decoded
    third segment is a signature of the first two with the dot between them (RSA, RSA-PSS,
    ECDSA or Ed25519, by the type of the key and the algorithm of the header); the claims
    are those of the second segment, the token had not expired, and the identity is its
    subject at this provider. *)
Theorem upstream_identity_signed b disc idToken (w : World St) ext w' :
  verifyIDToken http_do b disc idToken w = (Some (Ok ext), w') →
  ∃ header keys k pk p0 p1 p2 sig payload claims w1, ParseHeader idToken = Ok header ∧
    fetchJWKS http_do (di_JwksURI disc) w = (Some (Ok keys), w1) ∧ k ∈ keys ∧
    (default "" (aget "kid" (of_pairs header)) = "" ∨ jk_Kid k = default "" (aget "kid" (of_pairs header))) ∧
    jwkToPublicKey k = Ok pk ∧ idToken = p0 +s "." +s p1 +s "." +s p2 ∧ Base64.DecodeString p2 = Some sig ∧
    signed_under (header_alg p0) (bytes_of (p0 +s "." +s p1)) sig pk ∧
    Base64.DecodeString p1 = Some payload ∧ unmarshal_claims payload = Ok claims ∧
    (unix (w_clock w1 (w_nclock w1)) ≤ cl_ExpiresAt claims)%Z ∧ cl_Subject claims ≠ "" ∧
    ext_ExternalID ext = cl_Subject claims ∧ ext_Provider ext = rp_Name (rb_cfg b) ∧ ext_Claims ext !! "iss" = Some (cl_Issuer claims).
Proof.
  unfold verifyIDToken. destruct (ParseHeader idToken) as [header|] eqn:Eh; [|done]. unfold mbind, M_bind.
  destruct (fetchJWKS http_do (di_JwksURI disc) w) as [[[keys|]|] w1] eqn:Ef; [|done..].
  set (kid := default "" (aget "kid" (of_pairs header))).
  destruct (find_key kid keys) as [pk|] eqn:Ek; [|done].
  destruct (verifyJWTSignature idToken pk) as [[[]|]|] eqn:Ev; [|done..].
  destruct (ParseUnverified idToken) as [claims|] eqn:Ec; [|done]. unfold time_now.
  destruct (Z.ltb_spec (cl_ExpiresAt claims) (unix (w_clock w1 (w_nclock w1)))) as [|Hexp]; [done|].
  destruct (String.eqb_spec (cl_Subject claims) "") as [|Hs]; [done|]. cbn [mret M_ret]. intros E. injection E as <- <-.
  destruct (find_key_in kid keys pk Ek) as (k & Hin & Hkid & Hpk).
  destruct (signature_checked _ _ Ev) as (p0 & p1 & p2 & sig & Hsplit & Htok & Hsig & Hsigned).
  unfold ParseUnverified in Ec. rewrite Hsplit in Ec. destruct (Base64.DecodeString p1) as [payload|] eqn:Ep; [|done].
  destruct (unmarshal_claims payload) as [c|] eqn:Eu; [|done]. cbn in Ec. injection Ec as ->.
  exists header, keys, k, pk, p0, p1, p2, sig, payload, claims, w1. split_and!; try done. cbn [ext_Claims].
  destruct (parseRawClaims idToken) as [raw|]; [|apply lookup_singleton_eq].
  unfold copy_fields, extra_fields. cbn [foldl].
  repeat (destruct (raw_string _ raw); rewrite ?lookup_insert_ne by done); apply lookup_singleton_eq.
Qed.

(** ** The discovery cache *)

(** Within an hour of a discovery that succeeded no other is made: the next call answers
    with the same document whatever the network does, and only reads the clock. *)
Theorem discovery_cached b (w : World St) disc b' w' :
  rb_discovered b = None → discover http_do b w = ((Some (Ok disc), b'), w') →
  ∃ at_, ∀ (http' : HttpCall → M St (result HttpAnswer)) w2, (w_clock w2 (w_nclock w2) - at_ < hour)%Z →
    discover http' b' w2 = ((Some (Ok disc), b'), snd (time_now w2)).
Proof.
  intros Hb Hrun. unfold discover in Hrun. rewrite Hb in Hrun. unfold fetch_discovery, mbind, M_bind in Hrun.
  destruct (get http_do _ w) as [[[a|]|] w1]; [|done..]. destruct (option_bind _ _ _ _) as [d|]; [|done]. unfold time_now in Hrun. cbn [mret M_ret] in Hrun.
  injection Hrun as <- <- <-. exists (w_clock w1 (w_nclock w1)). intros http' w2 Ht. unfold discover. cbn [rb_discovered].
  unfold mbind, M_bind, time_now. destruct (Z.ltb_spec (w_clock w2 (w_nclock w2) - w_clock w1 (w_nclock w1)) hour); [done|lia].
Qed.
End Accept.

(** ** What is not checked *)

Section Foreign.
Context {St : Type} `{Ed25519Ok, RsaEcdsa, Float64} (http_do : HttpCall → M St (result HttpAnswer)).

Lemma ParseHeader_signJWT payload key kid : Json.valid_utf8 kid →
  ParseHeader (signJWT payload key kid) = Ok [("alg", "EdDSA"); ("kid", kid); ("typ", "JWT")].
Proof.
  intros Hk. unfold ParseHeader. rewrite signJWT_segments. cbv zeta. rewrite SplitN_segments, Base64.DecodeString_EncodeToString.
  unfold header_json. rewrite parse_marshal; [done|]. by repeat constructor.
Qed.
Lemma verify_okp payload key kid : length key = 64 → length (ed_public key) = 32 →
  verifyJWTSignature (signJWT payload key kid) (EdKey (ed_public key)) = Some (Ok tt).
Proof.
  intros Hk Hp. unfold verifyJWTSignature. rewrite signJWT_segments. cbv zeta. rewrite SplitN_segments, Base64.DecodeString_EncodeToString.
  by rewrite Hp, ed_verify_sign.
Qed.

(** A token for anyone will do: whatever audience and issuer it names, a token of a key
    that the upstream provider publishes, unexpired and with a subject, signs its subject
    in at this provider; neither the client's identifier nor the configured issuer is
    compared with it. *)
Theorem foreign_token_accepted b disc c key kid k (w : World St) keys w1 :
  claims_ok c → length key = 64 → length (ed_public key) = 32 → Json.valid_utf8 kid →
  fetchJWKS http_do (di_JwksURI disc) w = (Some (Ok keys), w1) → find (λ k, (kid =s "") || (jk_Kid k =s kid)) keys = Some k →
  jk_Kty k = "OKP" → jk_X k = Base64.EncodeToString (ed_public key) →
  cl_Subject c ≠ "" → (unix (w_clock w1 (w_nclock w1)) ≤ cl_ExpiresAt c)%Z →
  ∃ ext, fst (verifyIDToken http_do b disc (signJWT (claims_payload c) key kid) w) = Some (Ok ext) ∧
    ext_Provider ext = rp_Name (rb_cfg b) ∧ ext_ExternalID ext = cl_Subject c.
Proof.
  intros Hc Hk Hp Hu Hf Hfind Hkty Hx Hs Hexp.
  assert (find_key kid keys = Some (EdKey (ed_public key))) as Hkey.
  { clear Hf. induction keys as [|k0 keys IH]; [done|]. cbn [find find_key] in *. destruct (_ || _); [|by apply IH].
    injection Hfind as ->. unfold jwkToPublicKey. rewrite Hkty, Hx, Base64.DecodeString_EncodeToString. done. }
  unfold verifyIDToken. rewrite ParseHeader_signJWT by done. change (default "" (aget "kid" (of_pairs _))) with kid.
  unfold mbind, M_bind. rewrite Hf, Hkey, verify_okp, ParseUnverified_signJWT by done. unfold time_now.
  destruct (Z.ltb_spec (cl_ExpiresAt c) (unix (w_clock w1 (w_nclock w1)))); [lia|]. apply String.eqb_neq in Hs. rewrite Hs.
  eexists. split; [reflexivity|]. by split.
Qed.

(** ** Malformed signatures *)

(** A signature can stop the process: under an elliptic-curve key, one that starts a DER
    integer longer than what follows makes the reader slice past its end. *)
Theorem short_der_panics p0 p1 c x y tag rl rest :
  header_alg p0 = "ES256" → x2e ∉ bytes_of p0 → x2e ∉ bytes_of p1 →
  let sig := x30 :: tag :: x02 :: rl :: rest in
  length rest < N.to_nat (bval rl) → length sig ≠ 2 * ((BitSize c + 7) / 8) →
  verifyJWTSignature (p0 +s "." +s p1 +s "." +s Base64.EncodeToString sig) (ECKey c x y) = None.
Proof.
  intros Ha Hp0 Hp1 sig Hlen Hsize. unfold verifyJWTSignature.
  assert (SplitN (p0 +s "." +s p1 +s "." +s Base64.EncodeToString sig) x2e 3 = [p0; p1; Base64.EncodeToString sig]) as ->.
  { unfold SplitN, Base64.EncodeToString. rewrite !bytes_of_append, !bytes_of_str_of. change (bytes_of ".") with [x2e]. cbn [app].
    assert (∀ s, x2e ∉ bytes_of s → Forall (λ c, beqb c x2e = false) (bytes_of s)) as Hno.
    { intros s Hs. apply Forall_forall. intros ch Hch. destruct (beqb_spec ch x2e) as [->|]; done. }
    rewrite !bsplit_n_plain, bsplit_n_last by (first [apply Hno; done|apply encode_no_dot]). cbn [fmap list_fmap rev app]. by rewrite !str_of_bytes_of. }
  rewrite Base64.DecodeString_EncodeToString, Ha. unfold verifyECDSA. cbn [ec_hash]. change (ec_hash "ES256") with (Some SHA256). cbv iota.
  apply Nat.eqb_neq in Hsize. fold sig. rewrite Hsize. unfold sig at 1. cbn [parseDERSignature]. unfold slice.
  cbn [length]. destruct (Nat.leb_spec (2 + N.to_nat (bval rl)) (S (S (length rest)))); [lia|].
  by rewrite andb_false_r.
Qed.
End Foreign.

(** ** Instances *)

#[local] Existing Instance VcProofs.Sample.suffix_scheme.
#[local] Existing Instance VcProofs.Sample.suffix_scheme_ok.
#[local] Existing Instance VcProofs.Sample.plain_float.
#[local] Instance no_rsa : RsaEcdsa := {|
  VerifyPKCS1v15 _ _ _ _ _ := Err (ErrMsg "no"); VerifyPSS _ _ _ _ _ := Err (ErrMsg "no"); ecdsa_Verify _ _ _ _ _ _ := false |}.

Definition up_jwk : json :=
  JObj [("kty", JStr "OKP"); ("kid", JStr "k1"); ("x", JStr (Base64.EncodeToString (ed_public sample_key)))].
(** An upstream provider that publishes one key and its endpoints. *)
Definition upstream (call : HttpCall) : M unit (result HttpAnswer) :=
  mret (Ok (mkHttpAnswer 200 (Some (JObj [("keys", JArr [up_jwk]); ("jwks_uri", JStr "https://up.example/keys");
    ("token_endpoint", JStr "https://up.example/token")])))).
Definition sample_bridge : OIDCRPBridge :=
  NewOIDCRP (mkOIDCRPConfig "corp" "https://up.example" "our-client" "s" [] "https://id.example/").
Definition sample_disc : oidcDiscovery := mkOidcDiscovery "" "https://up.example/token" "https://up.example/keys".
Definition up_keys : list jwkKey := [mkJwkKey "OKP" "k1" "" "" "" "" "" (Base64.EncodeToString (ed_public sample_key)) ""].
Lemma up_fetch w : fetchJWKS upstream "https://up.example/keys" w = (Some (Ok up_keys), w).
Proof. vm_compute. reflexivity. Qed.
(** The sample token is for the audience app, not for our-client. *)
Lemma foreign_token_accepted_witness : ∃ ext,
  fst (verifyIDToken upstream sample_bridge sample_disc (signJWT (claims_payload sample_claims) sample_key "k1") sample_world) = Some (Ok ext) ∧
  ext_ExternalID ext = "did:key:alice" ∧ cl_Audience sample_claims ≠ rp_ClientID (rb_cfg sample_bridge).
Proof.
  destruct (foreign_token_accepted upstream sample_bridge sample_disc sample_claims sample_key "k1"
    (mkJwkKey "OKP" "k1" "" "" "" "" "" (Base64.EncodeToString (ed_public sample_key)) "") sample_world up_keys sample_world
    sample_claims_ok) as (ext & He & _ & Hx); try reflexivity; [done|vm_compute; discriminate|]. exists ext. split; [exact He|]. split; [exact Hx|discriminate].
Defined.
Lemma upstream_identity_signed_witness : ∃ pk p0 p1 p2 sig,
  signJWT (claims_payload sample_claims) sample_key "k1" = p0 +s "." +s p1 +s "." +s p2 ∧
  Base64.DecodeString p2 = Some sig ∧ signed_under (header_alg p0) (bytes_of (p0 +s "." +s p1)) sig pk.
Proof.
  destruct (verifyIDToken upstream sample_bridge sample_disc (signJWT (claims_payload sample_claims) sample_key "k1") sample_world)
    as [x w'] eqn:E.
  assert (∃ ext, x = Some (Ok ext)) as [ext ->] by (apply (f_equal fst) in E; vm_compute in E; rewrite <-E; eexists; reflexivity).
  destruct (upstream_identity_signed upstream _ _ _ _ _ _ E)
    as (header & keys & k & pk & p0 & p1 & p2 & sig & payload & claims & w1 & _ & _ & _ & _ & _ & Ht & Hd & Hs & _).
  exists pk, p0, p1, p2, sig. split; [exact Ht|]. by split.
Defined.
Lemma discovery_cached_witness : ∃ at_ : Z,
  (w_clock sample_world 0 - at_ < hour)%Z → fst (fst (discover upstream (snd (fst (discover upstream sample_bridge sample_world))) sample_world))
    = Some (Ok sample_disc).
Proof.
  destruct (discover upstream sample_bridge sample_world) as [[d b'] w'] eqn:E. cbn [fst snd].
  assert (d = Some (Ok sample_disc)) as -> by (apply (f_equal (fst ∘ fst)) in E; cbn in E; rewrite <-E; vm_compute; reflexivity).
  destruct (discovery_cached upstream sample_bridge sample_world sample_disc b' w' eq_refl E) as [at_ H].
  exists at_. intros Ht. by rewrite (H upstream sample_world Ht).
Defined.
Lemma short_der_panics_witness :
  verifyJWTSignature (Base64.EncodeToString (marshal (JObj [("alg", JStr "ES256")])) +s "." +s "e30" +s "." +s
    Base64.EncodeToString [x30; x06; x02; xff; x01]) (ECKey P256 1 2) = None.
Proof.
  apply (short_der_panics _ _ P256 1 2 x06 xff [x01]); [vm_compute; reflexivity|..]; first [apply Nat.ltb_lt; reflexivity|vm_compute; set_solver].
Defined.
End OidcRpProofs.
