(* ===== verification/Interpolation.v ===== *)
(** * Polynomials over GF(256) and the interpolation theorem

    Coefficient lists, lowest degree first, as [gfPolyEval] reads them.  The
    factor theorem gives the uniqueness of the interpolating polynomial; the
    Lagrange polynomial gives its existence, and its value at zero is what
    [gfLagrange] computes. *)

From Stdlib Require Import Ring Field.
From S2P Require Import Prelude GoStd Gf256.
Import Gf.

Declare Scope gf_scope.
Delimit Scope gf_scope with gf.
Local Notation "a ⊕ b" := (bxor a b) (at level 50, left associativity) : gf_scope.
Local Notation "a ⊗ b" := (gfMul a b) (at level 40, left associativity) : gf_scope.
Local Open Scope gf_scope.

Module Poly.

Add Field gf_field' : gf_field_theory (morphism gf_morph, constants [gf_cst]).

(** Evaluation by structural recursion; [gfPolyEval] is the loop. *)
Fixpoint peval (p : list byte) (x : byte) : byte :=
  match p with [] => x00 | c :: p' => c ⊕ x ⊗ peval p' x end.

Lemma gfPolyEval_peval p x : gfPolyEval p x = peval p x.
Proof.
  unfold gfPolyEval. induction p as [|c p IH]; [done|].
  rewrite reverse_cons, foldl_snoc, IH. simpl. ring.
Qed.

Fixpoint padd (p q : list byte) : list byte :=
  match p, q with
  | [], _ => q
  | _, [] => p
  | a :: p', b :: q' => a ⊕ b :: padd p' q'
  end.
Definition pscale (k : byte) (p : list byte) : list byte := gfMul k <$> p.
(** Multiplication by the linear factor X ⊕ a. *)
Definition pmul_lin (a : byte) (p : list byte) : list byte :=
  padd (x00 :: p) (pscale a p).
Definition pprod (l : list byte) : list byte := foldr pmul_lin [x01] l.

Lemma peval_add p q x : peval (padd p q) x = peval p x ⊕ peval q x.
Proof.
  revert q. induction p as [|a p IH]; intros [|b q]; simpl; try ring.
  rewrite IH. ring.
Qed.
Lemma peval_scale k p x : peval (pscale k p) x = k ⊗ peval p x.
Proof.
  unfold pscale. induction p as [|a p IH]; [simpl; ring|].
  rewrite fmap_cons. cbn [peval]. rewrite IH. ring.
Qed.
Lemma peval_mul_lin a p x : peval (pmul_lin a p) x = (x ⊕ a) ⊗ peval p x.
Proof. unfold pmul_lin. rewrite peval_add, peval_scale. simpl. ring. Qed.

Lemma length_padd p q : length (padd p q) = length p `max` length q.
Proof. revert q. induction p as [|a p IH]; intros [|b q]; simpl; auto. Qed.
Lemma length_pmul_lin a p : length (pmul_lin a p) = S (length p).
Proof. unfold pmul_lin, pscale. rewrite length_padd, length_fmap. simpl. lia. Qed.
Lemma length_pprod l : length (pprod l) = S (length l).
Proof. induction l as [|a l IH]; [done|]. simpl. by rewrite length_pmul_lin, IH. Qed.

(** ** The factor theorem *)

(** Synthetic division by X ⊕ a. *)
Fixpoint sdiv (a : byte) (p : list byte) : list byte :=
  match p with
  | [] => []
  | _ :: p' => match p' with [] => [] | _ => peval p' a :: sdiv a p' end
  end.

Lemma sdiv_spec a p x : peval p x = (x ⊕ a) ⊗ peval (sdiv a p) x ⊕ peval p a.
Proof.
  induction p as [|c p IH]; [simpl; ring|].
  destruct p as [|d p]; [simpl; ring|].
  change (sdiv a (c :: d :: p)) with (peval (d :: p) a :: sdiv a (d :: p)).
  cbn [peval] in *. rewrite IH. ring.
Qed.

Lemma length_sdiv a p : length (sdiv a p) = pred (length p).
Proof.
  induction p as [|c p IH]; [done|]. destruct p as [|d p]; [done|].
  change (sdiv a (c :: d :: p)) with (peval (d :: p) a :: sdiv a (d :: p)).
  simpl length in *. lia.
Qed.

Definition pzero (p : list byte) : Prop := Forall (eq x00) p.

Lemma peval_zero p x : pzero p → peval p x = x00.
Proof. induction 1 as [|c p <- _ IH]; simpl; [done|]. rewrite IH. ring. Qed.

Lemma sdiv_zero a p : pzero (sdiv a p) → peval p a = x00 → pzero p.
Proof.
  induction p as [|c p IH]; intros Hq Ha; [constructor|].
  destruct p as [|d p].
  - constructor; [|constructor]. rewrite <-Ha. simpl. ring.
  - change (sdiv a (c :: d :: p)) with (peval (d :: p) a :: sdiv a (d :: p)) in Hq.
    inversion Hq as [|?? H0 Hq']; subst. constructor; [|by apply IH].
    rewrite <-Ha. cbn [peval] in *. rewrite <-H0. ring.
Qed.

(** A polynomial with as many distinct roots as coefficients is zero. *)
Lemma roots_zero xs p :
  NoDup xs → length p ≤ length xs → (∀ x, x ∈ xs → peval p x = x00) → pzero p.
Proof.
  revert p. induction xs as [|a xs IH]; intros p Hnd Hlen Hroots.
  { destruct p; [constructor|simpl in Hlen; lia]. }
  apply NoDup_cons in Hnd as [Hna Hnd].
  apply (sdiv_zero a); [|apply Hroots; set_solver].
  apply IH; [done|rewrite length_sdiv; simpl in Hlen; lia|].
  intros x Hx. pose proof (Hroots x ltac:(set_solver)) as H0.
  rewrite (sdiv_spec a), (Hroots a ltac:(set_solver)), bxor_0_r in H0.
  apply gfMul_integral in H0 as [H0|H0]; [|done].
  apply bxor_eq_0 in H0. subst. done.
Qed.

(** Two polynomials that agree on enough points agree everywhere. *)
Lemma agree_everywhere xs p q y :
  NoDup xs → length p ≤ length xs → length q ≤ length xs →
  (∀ x, x ∈ xs → peval p x = peval q x) → peval p y = peval q y.
Proof.
  intros Hnd Hp Hq Heq. apply bxor_eq_0. rewrite <-peval_add.
  apply peval_zero, (roots_zero xs); [done|rewrite length_padd; lia|].
  intros x Hx. by rewrite peval_add, Heq, bxor_nilp.
Qed.

Lemma padd_zero_eq p q : length p = length q → pzero (padd p q) → p = q.
Proof.
  revert q. induction p as [|a p IH]; intros [|b q] Hlen Hz; try done.
  simpl in *. inversion Hz as [|?? H0 Hz']; subst.
  f_equal; [by apply bxor_eq_0|]. apply IH; [lia|done].
Qed.

(** ** The Lagrange polynomial *)

Definition bprod (l : list byte) : byte := foldr gfMul x01 l.

Lemma peval_pprod l x : peval (pprod l) x = bprod (bxor x <$> l).
Proof.
  induction l as [|a l IH]; simpl; [ring|]. by rewrite peval_mul_lin, IH.
Qed.

Lemma bprod_zero l : x00 ∈ l → bprod l = x00.
Proof.
  induction l as [|a l IH]; simpl; [set_solver|].
  intros [<-|H]%elem_of_cons; [by rewrite gfMul_0_l|]. by rewrite IH, gfMul_0_r.
Qed.
Lemma bprod_nonzero l : x00 ∉ l → bprod l ≠ x00.
Proof.
  induction l as [|a l IH]; simpl; [done|]. intros Hn H.
  apply gfMul_integral in H as [->|H]; [set_solver|]. apply IH; [set_solver|done].
Qed.

(** Term [i]: the product over the other points, scaled to take the value
    [ys !! i] at [xs !! i]. *)
Definition lterm (xs ys : list byte) (i : nat) : list byte :=
  let others := delete i xs in
  pscale (nth i ys x00 ⊗ gfInv (bprod (bxor (nth i xs x00) <$> others))) (pprod others).
Definition lpoly (xs ys : list byte) : list byte :=
  foldr padd [] (lterm xs ys <$> seq 0 (length xs)).

Lemma peval_psum ps x : peval (foldr padd [] ps) x = foldr bxor x00 (flip peval x <$> ps).
Proof. induction ps as [|p ps IH]; [done|]. simpl. by rewrite peval_add, IH. Qed.

Lemma length_lterm xs ys i : i < length xs → length (lterm xs ys i) = length xs.
Proof.
  intros Hi. unfold lterm, pscale. rewrite length_fmap, length_pprod.
  rewrite length_delete by by apply lookup_lt_is_Some_2. lia.
Qed.

Lemma length_psum ps n : Forall (λ p, length p ≤ n) ps → length (foldr padd [] ps) ≤ n.
Proof. induction 1; simpl; [lia|]. rewrite length_padd. lia. Qed.

Lemma length_lpoly xs ys : length (lpoly xs ys) ≤ length xs.
Proof.
  apply length_psum, Forall_fmap, Forall_forall. intros i Hi%elem_of_seq. simpl.
  rewrite length_lterm; lia.
Qed.

Lemma delete_not_elem (xs : list byte) k x :
  NoDup xs → xs !! k = Some x → x ∉ delete k xs.
Proof.
  intros Hnd Hk. rewrite delete_take_drop.
  rewrite <-(take_drop_middle xs k x Hk) in Hnd.
  apply NoDup_app in Hnd as (_ & Hd & Hnd). apply NoDup_cons in Hnd as [Hn _].
  rewrite elem_of_app. intros [H|H]; [|done]. apply (Hd x H). set_solver.
Qed.

Lemma delete_other_elem (xs : list byte) i k x :
  xs !! k = Some x → i ≠ k → x ∈ delete i xs.
Proof.
  intros Hk Hne. apply list_elem_of_lookup.
  destruct (decide (k < i)).
  - exists k. by rewrite list_lookup_delete_lt.
  - exists (pred k). rewrite list_lookup_delete_ge by lia.
    by replace (S (pred k)) with k by lia.
Qed.

Lemma lterm_at xs ys k x i :
  NoDup xs → xs !! k = Some x →
  peval (lterm xs ys i) x = if decide (i = k) then nth k ys x00 else x00.
Proof.
  intros Hnd Hk. unfold lterm. rewrite peval_scale, peval_pprod.
  case_decide as Hik.
  - subst i. rewrite (nth_lookup_Some _ _ _ _ Hk).
    set (l := bxor x <$> delete k xs).
    assert (bprod l ≠ x00) as Hnz.
    { apply bprod_nonzero. unfold l. intros Hin.
      apply list_elem_of_fmap in Hin as (y & Hy & Hin).
      symmetry in Hy. apply bxor_eq_0 in Hy as ->.
      by apply (delete_not_elem xs k y). }
    by field.
  - rewrite (bprod_zero (bxor x <$> delete i xs)); [ring|].
    apply list_elem_of_fmap. exists x. rewrite bxor_nilp. split; [done|].
    by eapply delete_other_elem.
Qed.

Lemma foldr_single (k : nat) (v : byte) (l : list nat) :
  NoDup l → foldr bxor x00 ((λ i, if decide (i = k) then v else x00) <$> l) =
  if decide (k ∈ l) then v else x00.
Proof.
  induction l as [|i l IH]; intros Hnd; [done|]. rewrite fmap_cons. cbn [foldr].
  apply NoDup_cons in Hnd as [Hi Hnd]. rewrite IH by done.
  destruct (decide (i = k)) as [->|].
  - rewrite decide_False by done. rewrite decide_True by set_solver. apply bxor_0_r.
  - rewrite bxor_0_l. destruct (decide (k ∈ l)).
    + rewrite decide_True; [done|by apply elem_of_cons; right].
    + rewrite decide_False; [done|by intros [->|?]%elem_of_cons].
Qed.

(** The Lagrange polynomial passes through the points. *)
Lemma lpoly_at xs ys k x :
  NoDup xs → xs !! k = Some x → peval (lpoly xs ys) x = nth k ys x00.
Proof.
  intros Hnd Hk. unfold lpoly. rewrite peval_psum, <-list_fmap_compose.
  rewrite (list_fmap_ext _ (λ i, if decide (i = k) then nth k ys x00 else x00)).
  2: { intros i j _. simpl. by apply lterm_at. }
  rewrite foldr_single by apply NoDup_seq.
  rewrite decide_True; [done|]. apply elem_of_seq. apply lookup_lt_Some in Hk. lia.
Qed.

(** ** [gfLagrange] is the Lagrange polynomial at zero *)

Lemma foldl_bxor (f : nat → byte) l acc :
  foldl (λ r i, r ⊕ f i) acc l = acc ⊕ foldr bxor x00 (f <$> l).
Proof.
  revert acc. induction l as [|i l IH]; intros acc; simpl; [by rewrite bxor_0_r|].
  by rewrite IH, bxor_assoc.
Qed.

(** The inner loop's two accumulators, over any range of positions. *)
Lemma inner_loop xs i n m num den :
  foldl (λ '(num, den) j,
    if Nat.eqb i j then (num, den)
    else (num ⊗ nth j xs x00, den ⊗ (nth i xs x00 ⊕ nth j xs x00))) (num, den) (seq n m) =
  (num ⊗ bprod ((λ j, nth j xs x00) <$> filter (λ j, i ≠ j) (seq n m)),
   den ⊗ bprod ((λ j, nth i xs x00 ⊕ nth j xs x00) <$> filter (λ j, i ≠ j) (seq n m))).
Proof.
  revert n num den. induction m as [|m IH]; intros n num den; simpl.
  { f_equal; ring. }
  rewrite filter_cons. destruct (Nat.eqb_spec i n) as [->|Hne].
  - rewrite IH, decide_False by auto. done.
  - rewrite IH, decide_True, !fmap_cons by done. unfold bprod. cbn [foldr]. f_equal; ring.
Qed.

Lemma nth_seq (f : byte → byte) (xs : list byte) s m :
  s + m ≤ length xs → (λ j, f (nth j xs x00)) <$> seq s m = f <$> take m (drop s xs).
Proof.
  revert s. induction m as [|m IH]; intros s Hs; [done|].
  destruct (lookup_lt_is_Some_2 xs s) as [x Hx]; [lia|].
  rewrite (drop_S _ _ _ Hx). cbn [seq take]. rewrite !fmap_cons, (nth_lookup_Some _ _ _ _ Hx).
  f_equal. apply IH. lia.
Qed.

(** The positions other than [i], in order, are [xs] without its [i]-th element. *)
Lemma other_positions n i : i < n →
  filter (λ j, i ≠ j) (seq 0 n) = seq 0 i ++ seq (S i) (n - S i).
Proof.
  intros Hi. replace n with (i + S (n - S i)) at 1 by lia.
  rewrite seq_app, filter_app. simpl. rewrite filter_cons, decide_False by auto.
  rewrite !filter_all; [done| |];
    apply Forall_forall; intros j Hj%elem_of_seq; lia.
Qed.

Lemma others_nth (f : byte → byte) (xs : list byte) i : i < length xs →
  (λ j, f (nth j xs x00)) <$> filter (λ j, i ≠ j) (seq 0 (length xs)) = f <$> delete i xs.
Proof.
  intros Hi. rewrite other_positions, fmap_app, delete_take_drop by done.
  rewrite !nth_seq by lia. rewrite drop_0, <-fmap_app. do 2 f_equal.
  apply take_ge. rewrite length_drop. lia.
Qed.

Lemma gfLagrange_term_lterm xs ys i : i < length xs →
  gfLagrange_term xs ys i = peval (lterm xs ys i) x00.
Proof.
  intros Hi. unfold gfLagrange_term. rewrite inner_loop.
  pose proof (others_nth id xs i Hi) as Hnum. rewrite list_fmap_id in Hnum.
  unfold id in Hnum. rewrite Hnum, (others_nth (bxor (nth i xs x00))) by done.
  unfold lterm. rewrite peval_scale, peval_pprod, !gfMul_1_l.
  rewrite (list_fmap_ext (bxor x00) id (delete i xs)), list_fmap_id;
    [ring|intros; by rewrite bxor_0_l].
Qed.

Lemma gfLagrange_lpoly xs ys : gfLagrange xs ys = peval (lpoly xs ys) x00.
Proof.
  unfold gfLagrange, lpoly. rewrite foldl_bxor, bxor_0_l, peval_psum, <-list_fmap_compose.
  f_equal. apply list_fmap_ext. intros k i Hi. simpl.
  apply gfLagrange_term_lterm. apply lookup_seq in Hi. lia.
Qed.

(** Interpolation at zero recovers the constant term of any polynomial with no
    more coefficients than points. *)
Lemma gfLagrange_correct p xs ys :
  NoDup xs → length p ≤ length xs →
  (∀ k x, xs !! k = Some x → nth k ys x00 = gfPolyEval p x) →
  gfLagrange xs ys = gfPolyEval p x00.
Proof.
  intros Hnd Hlen Hys. rewrite gfLagrange_lpoly, gfPolyEval_peval.
  apply (agree_everywhere xs); [done|apply length_lpoly|done|].
  intros x [k Hk]%list_elem_of_lookup. rewrite (lpoly_at _ _ k) by done.
  by rewrite (Hys k x), gfPolyEval_peval.
Qed.

End Poly.
