(* ===== verification/Shamir.v ===== *)
(** * Guardian key recovery: Shamir secret sharing (pkg/recovery/recovery.go)

    [Split], [Combine], the hexadecimal form of a share and the recovery token.
    The theorems: any [threshold] distinct shares reconstruct the secret; fewer
    shares are consistent with every secret; a share survives its text form. *)

From S2P Require Import Prelude GoStd World Gf256 Interpolation.
Import Gf Poly.

Module Recovery.

Record Share := mkShare { Index : byte; Value : list byte }.
#[export] Instance share_eq_dec : EqDecision Share.
Proof. solve_decision. Defined.

(** [Share.Hex]: "%02x:" of the index, then the value. *)
Definition Hex (s : Share) : string :=
  str_of (hex_byte (Index s) ++ bytes_of ":" ++ hex_encode (Value s)).

Definition ParseHex (encoded : string) : result Share :=
  let e := bytes_of encoded in
  if (length e <? 4) || negb (beqb (nth 2 e x00) x3a) then
    Err (ErrMsg "recovery: invalid share format")
  else
    match hex_decode (take 2 e) with
    | Some [idx] =>
        match hex_decode (drop 3 e) with
        | Some val => Ok (mkShare idx val)
        | None => Err (ErrWrap "recovery: invalid share value" (ErrMsg "encoding/hex"))
        end
    | _ => Err (ErrMsg "recovery: invalid share index")
    end.

(** The inner loop of [Split]: every share's byte [byteIdx] becomes the
    polynomial's value at that share's index. *)
Definition fill_byte (coefficients : list byte) (byteIdx : nat) (shares : list Share) : list Share :=
  foldl (λ acc sh,
    alter (λ s, mkShare (Index s)
                  (<[byteIdx := gfPolyEval coefficients (Index sh)]> (Value s)))
      (N.to_nat (bval (bsub (Index sh) x01))) acc) shares shares.

Fixpoint Split_loop {S} (secret : list byte) (threshold : nat) (idxs : list nat)
    (shares : list Share) : M S (result (list Share)) :=
  match idxs with
  | [] => mret (Ok shares)
  | byteIdx :: idxs' =>
      rnd ← rand_read (threshold - 1);
      match rnd with
      | Err e => mret (Err (ErrWrap "recovery: generate coefficients" e))
      | Ok rest =>
          let coefficients := nth byteIdx secret x00 :: rest in
          Split_loop secret threshold idxs' (fill_byte coefficients byteIdx shares)
      end
  end.

Definition Split {S} (secret : list byte) (threshold n : Z) : M S (result (list Share)) :=
  if Nat.eqb (length secret) 0 then
    mret (Err (ErrMsg "recovery: secret must not be empty"))
  else if ((threshold <? 2) || (n <? threshold) || (255 <? n))%Z then
    mret (Err (ErrMsg "recovery: invalid parameters"))
  else
    let shares := (λ i, mkShare (byte_of_N (N.of_nat i + 1))
                          (replicate (length secret) x00)) <$> seq 0 (Z.to_nat n) in
    Split_loop secret (Z.to_nat threshold) (seq 0 (length secret)) shares.

Definition Combine (shares : list Share) : result (list byte) :=
  match shares with
  | [] | [_] => Err (ErrMsg "recovery: need at least 2 shares")
  | s0 :: rest =>
      let len := length (Value s0) in
      if existsb (λ s, negb (Nat.eqb (length (Value s)) len)) rest then
        Err (ErrMsg "recovery: shares have inconsistent lengths")
      else
        Ok ((λ byteIdx,
              gfLagrange (Index <$> shares) ((λ s, nth byteIdx (Value s) x00) <$> shares))
            <$> seq 0 len)
  end.

Definition NewRecoveryToken {S} : M S (result (list byte)) :=
  r ← rand_read 32;
  mret (wrap_err "recovery: generate token" r).

(** ** What [Split] computes *)

(** The index of the [i]-th share, counting from zero. *)
Definition share_index (i : nat) : byte := byte_of_N (N.of_nat i + 1).

(** Shares in terms of one polynomial per secret byte. *)
Definition share_at (polys : list (list byte)) (pad i : nat) : Share :=
  mkShare (share_index i)
    (((λ p, gfPolyEval p (share_index i)) <$> polys) ++ replicate pad x00).
Definition shares_of (polys : list (list byte)) (pad n : nat) : list Share :=
  share_at polys pad <$> seq 0 n.

Lemma share_index_bval i : i < 255 → bval (share_index i) = N.of_nat (S i).
Proof. intros Hi. unfold share_index. rewrite bval_byte_of_N, N.mod_small; lia. Qed.

Lemma share_index_pos i : i < 255 → N.to_nat (bval (bsub (share_index i) x01)) = i.
Proof.
  intros Hi. unfold bsub. rewrite bval_byte_of_N, share_index_bval by done.
  change (bval x01) with 1%N.
  replace (N.of_nat (S i) + 256 - 1)%N with (N.of_nat i + 1 * 256)%N by lia.
  rewrite N.Div0.mod_add, N.mod_small; lia.
Qed.

Lemma share_index_inj i j : i < 255 → j < 255 → share_index i = share_index j → i = j.
Proof.
  intros Hi Hj H. apply (f_equal bval) in H. rewrite !share_index_bval in H by done. lia.
Qed.

(** A loop that updates position [i] at its [i]-th turn updates every position. *)
Lemma foldl_alter_seq {A} (f : nat → A → A) n (l : list A) j :
  foldl (λ acc i, alter (f i) i acc) l (seq 0 n) !! j =
  (if decide (j < n) then f j <$> l !! j else l !! j).
Proof.
  induction n as [|n IH]; [done|].
  rewrite seq_S, foldl_snoc. simpl. destruct (decide (j = n)) as [->|Hne].
  - rewrite list_lookup_alter_eq, IH, decide_False, decide_True by lia. done.
  - rewrite list_lookup_alter_ne, IH by done. repeat case_decide; (done || lia).
Qed.

Lemma foldl_ext_seq {A} (f g : A → nat → A) n l :
  (∀ acc i, i < n → f acc i = g acc i) → foldl f l (seq 0 n) = foldl g l (seq 0 n).
Proof.
  revert l. induction n as [|n IH]; intros l H; [done|].
  rewrite seq_S, !foldl_snoc, (IH l); [apply H; lia|]. intros; apply H; lia.
Qed.

Lemma shares_of_lookup polys pad n j :
  shares_of polys pad n !! j = if decide (j < n) then Some (share_at polys pad j) else None.
Proof.
  unfold shares_of. rewrite list_lookup_fmap. case_decide.
  - by rewrite lookup_seq_lt.
  - by rewrite lookup_seq_ge by lia.
Qed.

Lemma fill_byte_spec polys p pad n :
  n ≤ 255 →
  fill_byte p (length polys) (shares_of polys (S pad) n) = shares_of (polys ++ [p]) pad n.
Proof.
  intros Hn. apply list_eq. intros j. unfold fill_byte.
  change (shares_of polys (S pad) n) with (share_at polys (S pad) <$> seq 0 n) at 2.
  rewrite foldl_map.
  rewrite (foldl_ext_seq _ (λ acc i, alter (λ s, mkShare (Index s)
    (<[length polys := gfPolyEval p (share_index i)]> (Value s))) i acc)).
  2: { intros acc i Hi. simpl. by rewrite share_index_pos by lia. }
  rewrite (foldl_alter_seq (λ i s, mkShare (Index s)
    (<[length polys := gfPolyEval p (share_index i)]> (Value s)))), !shares_of_lookup.
  case_decide; [|done]. simpl. unfold share_at. f_equal. f_equal.
  rewrite insert_app_r_alt by (rewrite length_fmap; lia).
  rewrite length_fmap, Nat.sub_diag. simpl. by rewrite fmap_app, <-app_assoc.
Qed.

(** [coeffs_for secret t polys]: one polynomial of [t] coefficients per byte of
    the secret, whose constant term is that byte. *)
Definition coeffs_for (t : nat) : list byte → list (list byte) → Prop :=
  Forall2 (λ b p, ∃ rest, p = b :: rest ∧ length rest = t - 1).

Lemma Split_loop_spec {S} (secret : list byte) t n k polys (w w' : World S) r :
  n ≤ 255 → k ≤ length secret → coeffs_for t (take k secret) polys →
  Split_loop secret t (seq k (length secret - k)) (shares_of polys (length secret - k) n) w = (r, w') →
  match r with
  | Ok shares => ∃ polys', coeffs_for t secret polys' ∧ shares = shares_of polys' 0 n
  | Err _ => ∃ j, w_rand w j = None
  end.
Proof.
  remember (length secret - k) as m eqn:Hm. intros Hn Hk Hc.
  revert k polys w Hm Hk Hc. induction m as [|m IH]; intros k polys w Hm Hk Hc.
  - simpl. intros [= <- <-]. exists polys. split; [|done].
    by rewrite take_ge in Hc by lia.
  - simpl. unfold mbind, M_bind. destruct (rand_read (t - 1) w) as [rd w1] eqn:Hr.
    unfold rand_read in Hr. destruct (w_rand w (w_nrand w)) as [f|] eqn:Hw; simplify_eq.
    2: { intros [= <- <-]. eauto. }
    assert (length polys = k) as Hlp.
    { apply Forall2_length in Hc. rewrite length_take in Hc. lia. }
    subst k. rewrite fill_byte_spec by done. intros Hrun.
    eapply IH in Hrun; [done|lia|lia|].
    destruct (lookup_lt_is_Some_2 secret (length polys)) as [b Hb]; [lia|].
    rewrite (take_S_r _ _ _ Hb), (nth_lookup_Some _ _ _ _ Hb).
    apply Forall2_app; [done|]. constructor; [|constructor].
    eexists. split; [done|]. by rewrite length_fmap, length_seq.
Qed.

Lemma Split_spec {S} secret t n (w w' : World S) r :
  Split secret t n w = (r, w') →
  match r with
  | Ok shares => secret ≠ [] ∧ (2 ≤ t ≤ n ∧ n ≤ 255)%Z ∧
      ∃ polys, coeffs_for (Z.to_nat t) secret polys ∧ shares = shares_of polys 0 (Z.to_nat n)
  | Err _ => secret = [] ∨ ¬ (2 ≤ t ≤ n ∧ n ≤ 255)%Z ∨ ∃ j, w_rand w j = None
  end.
Proof.
  unfold Split. destruct (Nat.eqb_spec (length secret) 0) as [H0|H0].
  { intros [= <- <-]. left. by apply nil_length_inv. }
  destruct ((t <? 2) || (n <? t) || (255 <? n))%Z eqn:Hp.
  { intros [= <- <-]. right. left. lia. }
  intros Hrun.
  change ((λ i, mkShare (byte_of_N (N.of_nat i + 1)) (replicate (length secret) x00)) <$> seq 0 (Z.to_nat n))
    with (shares_of [] (length secret) (Z.to_nat n)) in Hrun.
  pose proof (Split_loop_spec secret (Z.to_nat t) (Z.to_nat n) 0 [] w w' r) as Hs.
  rewrite Nat.sub_0_r in Hs.
  specialize (Hs ltac:(lia) ltac:(lia) ltac:(constructor) Hrun).
  destruct r as [shares|e]; [|by auto].
  split; [by intros ->|]. split; [lia|done].
Qed.

(** ** Reconstruction *)

Lemma share_of_elem polys n s :
  s ∈ shares_of polys 0 n → ∃ i, i < n ∧ s = share_at polys 0 i.
Proof.
  unfold shares_of. intros (i & -> & Hi%elem_of_seq)%list_elem_of_fmap. exists i. split; [lia|done].
Qed.

Lemma share_at_value polys i b p :
  polys !! b = Some p → nth b (Value (share_at polys 0 i)) x00 = gfPolyEval p (share_index i).
Proof.
  intros Hp. simpl. rewrite app_nil_r. apply nth_lookup_Some. by rewrite list_lookup_fmap, Hp.
Qed.

Lemma picked_indices polys n picked :
  n ≤ 255 → NoDup picked → (∀ s, s ∈ picked → s ∈ shares_of polys 0 n) →
  NoDup (Index <$> picked).
Proof.
  intros Hn Hnd Hin. induction Hnd as [|s l Hs Hnd IH]; [constructor|].
  rewrite fmap_cons. constructor; [|apply IH; set_solver].
  intros (s' & Heq & Hs')%list_elem_of_fmap. apply Hs.
  destruct (share_of_elem polys n s) as (i & Hi & ->); [apply Hin; set_solver|].
  destruct (share_of_elem polys n s') as (j & Hj & ->); [apply Hin; set_solver|].
  simpl in Heq. apply share_index_inj in Heq as ->; [done|lia|lia].
Qed.

Lemma gfPolyEval_at_zero b rest : gfPolyEval (b :: rest) x00 = b.
Proof. rewrite gfPolyEval_peval. simpl. by rewrite gfMul_0_l, bxor_0_r. Qed.

(** One byte of the secret, from the chosen shares. *)
Lemma lagrange_byte polys n picked b c rest :
  n ≤ 255 → NoDup picked → (∀ s, s ∈ picked → s ∈ shares_of polys 0 n) →
  polys !! b = Some (c :: rest) → length (c :: rest) ≤ length picked →
  gfLagrange (Index <$> picked) ((λ s, nth b (Value s) x00) <$> picked) = c.
Proof.
  intros Hn Hnd Hin Hp Hlen. rewrite (gfLagrange_correct (c :: rest)).
  - apply gfPolyEval_at_zero.
  - by eapply picked_indices.
  - by rewrite length_fmap.
  - intros k x Hk. rewrite list_lookup_fmap in Hk.
    destruct (picked !! k) as [s|] eqn:Hs; [|done]. simpl in Hk. injection Hk as <-.
    rewrite nth_lookup, list_lookup_fmap, Hs. simpl.
    destruct (share_of_elem polys n s) as (i & _ & ->).
    { apply Hin, list_elem_of_lookup. eauto. }
    by apply share_at_value.
Qed.

Lemma Combine_shares secret t n polys picked :
  n ≤ 255 → 2 ≤ t → coeffs_for t secret polys → NoDup picked →
  (∀ s, s ∈ picked → s ∈ shares_of polys 0 n) → t ≤ length picked →
  Combine picked = Ok secret.
Proof.
  intros Hn Ht Hc Hnd Hin Hlen.
  assert (∀ s, s ∈ picked → length (Value s) = length secret) as Hlens.
  { intros s Hs. destruct (share_of_elem polys n s) as (i & _ & ->); [by apply Hin|].
    simpl. rewrite app_nil_r, length_fmap. symmetry. by eapply Forall2_length. }
  destruct picked as [|s0 [|s1 rest]] eqn:Hpk; [simpl in Hlen; lia|simpl in Hlen; lia|].
  unfold Combine. destruct (existsb _ (s1 :: rest)) eqn:Hex.
  { apply existsb_elem_of in Hex as (s & Hs & Hne).
    rewrite (Hlens s ltac:(by apply elem_of_cons; right)) in Hne.
    rewrite (Hlens s0 ltac:(by apply elem_of_cons; left)), Nat.eqb_refl in Hne. done. }
  f_equal. rewrite (Hlens s0) by set_solver. rewrite <-Hpk in *.
  apply list_eq. intros b. rewrite list_lookup_fmap.
  destruct (decide (b < length secret)) as [Hb|Hb].
  - rewrite lookup_seq_lt by done. simpl.
    destruct (lookup_lt_is_Some_2 secret b Hb) as [c Hcb].
    destruct (Forall2_lookup_l _ _ _ _ _ Hc Hcb) as (p & Hp & rest' & -> & Hl).
    rewrite Hcb. f_equal. eapply lagrange_byte; eauto. simpl. lia.
  - rewrite lookup_seq_ge, lookup_ge_None_2 by lia. done.
Qed.

(** C4: Reconstruction: whenever [Split] succeeds, [Combine] applied to any
    choice of at least [threshold] pairwise distinct shares, in any order,
    returns the secret. *)
Theorem split_combine {S} (secret : list byte) (threshold n : Z) (w w' : World S)
    (shares picked : list Share) :
  Split secret threshold n w = (Ok shares, w') →
  NoDup picked → (∀ s, s ∈ picked → s ∈ shares) →
  (threshold ≤ Z.of_nat (length picked))%Z →
  Combine picked = Ok secret.
Proof.
  intros Hs Hnd Hin Hlen. apply Split_spec in Hs as (_ & Hr & polys & Hc & ->).
  apply (Combine_shares secret (Z.to_nat threshold) (Z.to_nat n) polys); auto with lia.
Qed.

(** [Split] is total: for a non-empty secret and parameters in range it
    fails only when the random source does, and otherwise returns exactly [n]
    shares, with the distinct non-zero indices 1..n and values as long as the secret. *)
Theorem split_total {S} (secret : list byte) (threshold n : Z) (w : World S) :
  secret ≠ [] → (2 ≤ threshold ≤ n)%Z → (n ≤ 255)%Z → rand_ok w →
  ∃ shares, fst (Split secret threshold n w) = Ok shares ∧
    length shares = Z.to_nat n ∧
    (∀ i s, shares !! i = Some s → bval (Index s) = N.of_nat (1 + i)) ∧
    (∀ s, s ∈ shares → length (Value s) = length secret).
Proof.
  intros Hne Ht Hn Hrand. destruct (Split secret threshold n w) as [r w'] eqn:Hs.
  apply Split_spec in Hs. destruct r as [shares|e].
  2: { destruct Hs as [?|[?|[j Hj]]]; [done|lia|]. destruct (Hrand j). congruence. }
  destruct Hs as (_ & _ & polys & Hc & ->). exists (shares_of polys 0 (Z.to_nat n)).
  split; [done|]. split; [|split].
  - unfold shares_of. by rewrite length_fmap, length_seq.
  - intros i s. rewrite shares_of_lookup. case_decide; [|done].
    intros [= <-]. simpl. apply share_index_bval. lia.
  - intros s (i & _ & ->)%share_of_elem. simpl. rewrite app_nil_r, length_fmap.
    symmetry. by eapply Forall2_length.
Qed.

(** ** Secrecy *)

Lemma peval_app_zeros p k x : peval (p ++ replicate k x00) x = peval p x.
Proof.
  induction p as [|c p IH]; simpl; [|by rewrite IH].
  apply peval_zero, Forall_replicate_eq || (induction k as [|k IHk]; simpl; [done|]; by rewrite IHk, gfMul_0_r).
Qed.

(** A polynomial of exactly [length xs] coefficients through given points. *)
Lemma interpolate_exact xs ys :
  NoDup xs → ∃ p, length p = length xs ∧ ∀ k x, xs !! k = Some x → peval p x = nth k ys x00.
Proof.
  intros Hnd. pose proof (length_lpoly xs ys) as Hl.
  exists (lpoly xs ys ++ replicate (length xs - length (lpoly xs ys)) x00). split.
  - rewrite length_app, length_replicate. lia.
  - intros k x Hk. rewrite peval_app_zeros. by apply lpoly_at.
Qed.

(** C10: Perfect secrecy of a byte: take any [threshold - 1] distinct non-zero
    share indices and any values observed there.  For every candidate secret
    byte there is exactly one choice of the random coefficients under which
    [Split] deals those values, so the observed shares favour no secret. *)
Theorem shamir_secrecy (xs ys : list byte) (secret : byte) :
  NoDup xs → x00 ∉ xs → length ys = length xs →
  exists! rest, length rest = length xs ∧
    ∀ k x, xs !! k = Some x → gfPolyEval (secret :: rest) x = nth k ys x00.
Proof.
  intros Hnd H0 Hlen.
  assert (NoDup (x00 :: xs)) as Hnd' by (by constructor).
  destruct (interpolate_exact (x00 :: xs) (secret :: ys) Hnd') as (p & Hp & Hat).
  destruct p as [|c rest]; [done|].
  assert (c = secret) as ->.
  { specialize (Hat 0 x00 eq_refl). simpl in Hat. by rewrite gfMul_0_l, bxor_0_r in Hat. }
  exists rest. split; [split|].
  - simpl in Hp. lia.
  - intros k x Hk. rewrite gfPolyEval_peval. by apply (Hat (Datatypes.S k) x).
  - intros rest' [Hl' Hat']. assert (secret :: rest = secret :: rest') as [= ->]; [|done].
    apply padd_zero_eq; [simpl in *; lia|].
    apply (roots_zero (x00 :: xs)); [done|rewrite length_padd; simpl in *; lia|].
    intros x [->|Hx]%elem_of_cons; rewrite peval_add, <-!gfPolyEval_peval.
    + by rewrite !gfPolyEval_at_zero, bxor_nilp.
    + apply list_elem_of_lookup in Hx as [k Hk].
      rewrite (Hat' k x Hk), gfPolyEval_peval, (Hat (Datatypes.S k) x Hk). apply bxor_nilp.
Qed.

(** ** The text form of a share *)

Lemma ParseHex_Hex (s : Share) :
  ParseHex (Hex s) =
    if decide (Value s = []) then Err (ErrMsg "recovery: invalid share format") else Ok s.
Proof.
  destruct s as [idx val]. unfold ParseHex, Hex. rewrite bytes_of_str_of. simpl Index. simpl Value.
  change (bytes_of ":") with [x3a]. case_decide as Hv; [by subst|].
  assert (length val ≠ 0) as Hv' by (by destruct val).
  pose proof (hex_decode_encode val) as Hd. pose proof (length_hex_encode val) as Hl.
  revert Hd Hl. generalize (hex_encode val). intros rest Hd Hl.
  unfold hex_byte. cbn [app nth take drop]. rewrite beqb_refl.
  rewrite (proj2 (Nat.ltb_ge _ 4)) by (simpl; lia). cbn [orb negb hex_decode].
  destruct (hex_byte_decode idx) as [-> ->].
  simpl. by rewrite drop_0, Hd, <-N.div_mod', byte_of_bval.
Qed.

(** [ParseHex] inverts [Share.Hex] on every share with a non-empty value;
    a share with an empty value has a text form that [ParseHex] rejects. *)
Theorem parse_hex_roundtrip (s : Share) :
  ParseHex (Hex s) =
    if decide (Value s = []) then Err (ErrMsg "recovery: invalid share format") else Ok s.
Proof. apply ParseHex_Hex. Qed.

(** ** Witnesses *)

(** A world whose random source counts up from a different start at each read. *)
Definition demo_world : World unit :=
  mkWorld (λ n, Z.of_nat n) 0
    (λ k, Some (λ i, byte_of_N (N.of_nat (37 * k + 91 * i + 5)))) 0
    (λ _, None) 0 tt.
Definition demo_secret : list byte := [x73; x65; x63; x72].
Definition demo_shares : list Share :=
  match fst (Split demo_secret 3 5 demo_world) with Ok l => l | Err _ => [] end.
(** Shares 5, 2 and 4, in that order. *)
Definition demo_picked : list Share :=
  omap (λ i, demo_shares !! i) [4; 1; 3].

Lemma split_combine_witness : Combine demo_picked = Ok demo_secret.
Proof.
  apply (split_combine demo_secret 3 5 demo_world (snd (Split demo_secret 3 5 demo_world))
           demo_shares demo_picked).
  - vm_compute. reflexivity.
  - apply (bool_decide_unpack _). vm_compute. exact I.
  - intros s Hs. unfold demo_picked in Hs. apply list_elem_of_omap in Hs as (i & _ & Hi).
    by eapply list_elem_of_lookup_2.
  - vm_compute. discriminate.
Defined.

Lemma split_total_witness :
  ∃ shares, fst (Split demo_secret 3 5 demo_world) = Ok shares ∧ length shares = Z.to_nat 5 ∧
    (∀ i s, shares !! i = Some s → bval (Index s) = N.of_nat (1 + i)) ∧
    (∀ s, s ∈ shares → length (Value s) = length demo_secret).
Proof.
  apply (split_total demo_secret 3 5 demo_world); [done|lia|lia|].
  intros n. simpl. eauto.
Defined.

Lemma shamir_secrecy_witness :
  exists! rest, length rest = length [x02; x05] ∧
    ∀ k x, [x02; x05] !! k = Some x → gfPolyEval (x41 :: rest) x = nth k [x10; x99] x00.
Proof.
  apply (shamir_secrecy [x02; x05] [x10; x99] x41).
  - apply (bool_decide_unpack _). vm_compute. exact I.
  - apply (bool_decide_unpack _). vm_compute. exact I.
  - reflexivity.
Defined.

End Recovery.
