(* ===== verification/RecoveryApi.v ===== *)
(** * Guardian recovery over HTTP (api/recovery.go)

    Enrolment of guardians, initiation (which splits a fresh token and publishes
    one share per guardian), approvals and the two status endpoints. *)

From S2P Require Import Prelude GoStd World Sha Json JsonValue Http Consent StoreTypes Store StoreAuth.
From S2P Require Import Logic StoreInv Events AuditLog Jwt Provider Gf256 Interpolation Shamir BridgeApi.
Import JsonValue Http Types Store StoreAuth StoreInv Jwt Provider BridgeApi Recovery.

Module RecoveryApi.

Definition randomRecoveryID : M Srv (result string) :=
  b ← rand_read 16;
  mret ((λ b, "recov_" +s Sha.hex b) <$> b).

Definition enrolled_payload (subjectDID : string) (threshold count : Z) : json :=
  JObj [("guardian_count", JInt count); ("subject_did", JStr subjectDID); ("threshold", JInt threshold)].
Definition initiated_payload (reqID subjectDID guardianDID : string) (share : Share) : json :=
  JObj [("guardian_did", JStr guardianDID); ("request_id", JStr reqID); ("share", JStr (Hex share));
        ("subject_did", JStr subjectDID)].
Definition approved_payload (requestID guardianDID : string) (collected : Z) : json :=
  JObj [("guardian_did", JStr guardianDID); ("request_id", JStr requestID); ("shares_collected", JInt collected)].

(** The share, cut or padded to 32 bytes, of which the first 16 are kept. *)
Definition share_hash (share : string) : string :=
  Sha.hex (take 16 (take 32 (bytes_of share) ++ replicate 32 x00)).

Fixpoint announce (evs : list (string * option json)) : M Srv unit :=
  match evs with
  | [] => mret tt
  | (t, p) :: evs' => _ ← Events.Publish server_bus t p; announce evs'
  end.

Section Handlers.
Context `{Ed25519} (s : Server).

Definition handleRecoveryEnrol (r : Request) : M Srv Response :=
  subject ← subject_of s r;
  match subject with
  | Err _ => mret unauthorized
  | Ok subjectDID =>
  match (l ← body_object r; g ← strs_field "guardian_dids" l; t ← int_field "threshold" l; Some (g, t)) with
  | None => mret (HttpError StatusBadRequest "invalid request")
  | Some (guardians, threshold) =>
  let n := Z.of_nat (length guardians) in
  if ((n <? 2) || (threshold <? 2) || (n <? threshold))%Z
  then mret (HttpError StatusBadRequest "threshold must be 2..len(guardian_dids)") else
  now ← time_now;
  saved ← SaveRecoveryConfig (mkRecoveryConfig subjectDID threshold guardians now);
  match saved with
  | Err _ => mret (HttpError StatusInternalServerError "internal error")
  | Ok _ =>
      _ ← Events.Publish BridgeApi.server_bus "recovery.enrolled" (Some (enrolled_payload subjectDID threshold n));
      mret (JsonResp StatusOK [("guardian_count", JInt n); ("message", JStr "Recovery enrolled");
                               ("threshold", JInt threshold)])
  end end end.

Definition config_json (c : RecoveryConfig) : list (string * json) :=
  [("subject_did", JStr (rc_SubjectDID c)); ("threshold", JInt (rc_Threshold c));
   ("guardian_dids", match rc_GuardianDIDs c with [] => JNull | l => JArr (JStr <$> l) end);
   ("created_at", JStr (Events.time_json (rc_CreatedAt c)))].
Definition handleGetRecoveryConfig (r : Request) : M Srv Response :=
  subject ← subject_of s r;
  match subject with
  | Err _ => mret unauthorized
  | Ok subjectDID =>
      cfg ← GetRecoveryConfig subjectDID;
      match cfg with
      | Err _ => mret (HttpError StatusNotFound "no recovery config")
      | Ok cfg => mret (JsonResp StatusOK (config_json cfg))
      end
  end.

Definition handleRecoveryInitiate (r : Request) : M Srv Response :=
  match (l ← body_object r; str_field "subject_did" l) with
  | None | Some "" => mret (HttpError StatusBadRequest "subject_did required")
  | Some subjectDID =>
  cfg ← GetRecoveryConfig subjectDID;
  match cfg with
  | Err _ => mret (HttpError StatusNotFound "no recovery config for subject")
  | Ok cfg =>
  token ← NewRecoveryToken;
  match token with
  | Err _ => mret (HttpError StatusInternalServerError "internal error")
  | Ok token =>
  shares ← Split token (rc_Threshold cfg) (Z.of_nat (length (rc_GuardianDIDs cfg)));
  match shares with
  | Err e => mret (HttpError StatusInternalServerError ("internal error: " +s error_string e))
  | Ok shares =>
  id ← randomRecoveryID;
  let reqID := match id with Ok x => x | Err _ => "" end in
  now ← time_now;
  saved ← SaveRecoveryRequest (mkRecoveryRequest reqID subjectDID now 0 false);
  match saved with
  | Err _ => mret (HttpError StatusInternalServerError "internal error")
  | Ok _ =>
      _ ← announce (zip_with (λ g sh,
            ("recovery.initiated", Some (initiated_payload reqID subjectDID g sh))) (rc_GuardianDIDs cfg) shares);
      mret (JsonResp StatusOK [("message", JStr "Recovery initiated — guardians have been notified");
                               ("request_id", JStr reqID)])
  end end end end end.

Definition handleRecoveryApprove (r : Request) : M Srv Response :=
  guardian ← subject_of s r;
  match guardian with
  | Err _ => mret unauthorized
  | Ok guardianDID =>
  let requestID := PathValue r "id" in
  match (l ← body_object r; str_field "share" l) with
  | None | Some "" => mret (HttpError StatusBadRequest "share required")
  | Some share =>
  req ← GetRecoveryRequest requestID;
  match req with
  | Err _ => mret (HttpError StatusNotFound "recovery request not found")
  | Ok req =>
  if rr_Completed req then mret (HttpError StatusConflict "recovery already completed") else
  now ← time_now;
  saved ← SaveRecoveryShare (mkRecoveryShare requestID guardianDID (share_hash share) now);
  match saved with
  | Err _ => mret (HttpError StatusInternalServerError "internal error")
  | Ok _ =>
      let collected := (rr_SharesCollected req + 1)%Z in
      _ ← UpdateRecoveryRequest (mkRecoveryRequest (rr_ID req) (rr_SubjectDID req) (rr_StartedAt req) collected
            (rr_Completed req));
      _ ← Events.Publish BridgeApi.server_bus "recovery.approved"
            (Some (approved_payload requestID guardianDID collected));
      mret (JsonResp StatusOK [("message", JStr "Share accepted"); ("request_id", JStr requestID);
                               ("shares_collected", JInt collected)])
  end end end end.

Definition request_json (req : RecoveryRequest) : list (string * json) :=
  [("id", JStr (rr_ID req)); ("subject_did", JStr (rr_SubjectDID req));
   ("started_at", JStr (Events.time_json (rr_StartedAt req)));
   ("shares_collected", JInt (rr_SharesCollected req)); ("completed", JBool (rr_Completed req))].
Definition handleGetRecovery (r : Request) : M Srv Response :=
  req ← GetRecoveryRequest (PathValue r "id");
  match req with
  | Err _ => mret (HttpError StatusNotFound "not found")
  | Ok req => mret (JsonResp StatusOK (request_json req))
  end.
End Handlers.
End RecoveryApi.
