(* ===== verification/RecoveryApiProofs.v ===== *)
(** * Guardian recovery over HTTP: properties

    A successful initiation sends every share to every webhook that asks for the event,
    and the shares recombine to the token; approvals count requests, not guardians. *)

From S2P Require Import Prelude GoStd World Sha Json JsonValue Http Consent StoreTypes Store StoreAuth Logic.
From S2P Require Import StoreInv Events GoTime Jwt Provider ProviderProofs Gf256 Interpolation Shamir BridgeApi BridgeApiProofs RecoveryApi.
Import JsonValue Http Types Store StoreAuth StoreInv Jwt Provider BridgeApi Recovery RecoveryApi.

Module RecoveryApiProofs.
#[local] Opaque Sha.Sum256.

Abbreviation db w := (srv_db (w_state w)).

Lemma Hex_utf8 sh : Json.valid_utf8 (Hex sh).
Proof.
  apply Json.ascii_utf8. apply Forall_app. split.
  - change (hex_byte (Index sh)) with (hex_byte (Index sh) ++ []). apply (Json.hex_ascii [Index sh]).
  - apply Forall_app. split; [by repeat constructor|apply Json.hex_ascii].
Qed.

Lemma recov_id_utf8 b : Json.valid_utf8 ("recov_" +s Sha.hex b).
Proof.
  rewrite <-(str_of_bytes_of ("recov_" +s Sha.hex b)). apply Json.ascii_utf8. rewrite bytes_of_append.
  apply Forall_app. split; [by repeat constructor|]. unfold Sha.hex. rewrite bytes_of_str_of. apply Json.hex_ascii.
Qed.

(** ** The webhooks reveal the token *)

(** What the receiver of a delivery learns from its body: the share it announces. *)
Definition share_in (body : string) : option Share :=
  match parse (bytes_of body) with
  | Some (JObj e) =>
      match field "payload" e with
      | Some (JObj l) =>
          match field "share" l with
          | Some (JStr t) => match ParseHex t with Ok sh => Some sh | Err _ => None end
          | _ => None
          end
      | _ => None
      end
  | _ => None
  end.

Lemma hex_digits_ascii n z : Json.ascii (Events.hex_digits n z).
Proof.
  revert z. induction n as [|n IH]; intros z; [constructor|]. simpl. apply Forall_app. split; [apply IH|].
  constructor; [|done]. pose proof (Z.mod_pos_bound z 16 ltac:(lia)) as Hm. generalize dependent (z mod 16)%Z. intros m Hm.
  unfold hexdigit. rewrite bval_byte_of_N. case_match; rewrite N.mod_small; lia.
Qed.
Lemma event_id_utf8 z : Json.valid_utf8 ("evt_" +s Events.hex016 z).
Proof.
  apply Json.utf8_prefix; [by repeat constructor|]. apply Json.ascii_utf8.
  destruct (z <? 0)%Z; [constructor; [done|]|]; apply hex_digits_ascii.
Qed.
Lemma share_in_initiated reqID subject g sh t1 t2 :
  Json.valid_utf8 reqID → Json.valid_utf8 subject → Json.valid_utf8 g → Value sh ≠ [] →
  share_in (Events.event_text "recovery.initiated" (initiated_payload reqID subject g sh) t1 t2) = Some sh.
Proof.
  intros Hr Hs Hg Hv. unfold share_in, Events.event_text. rewrite bytes_of_str_of, parse_marshal.
  - unfold initiated_payload. simpl. rewrite ParseHex_Hex. by case_decide.
  - apply wf_JObj. apply Forall_cons; split; [split; [done|apply event_id_utf8]|].
    apply Forall_cons; split; [by split|]. apply Forall_cons; split; [split; [done|apply GoTime.rfc3339_utf8]|].
    apply Forall_cons; split; [split; [done|]|done]. apply wf_JObj.
    repeat constructor; try done; try apply Hex_utf8; apply Hex_utf8.
Qed.

(** What is queued is one body per share, each for every subscription. *)
Definition fan_out (subs : list WebhookSubscription) (bodies : list string) : list (WebhookSubscription * string) :=
  b ← bodies; (λ sub, (sub, b)) <$> subs.
Lemma announced reqID subject gs shares clk nc rnd nr flt nf d rev evs :
  Json.valid_utf8 reqID → Json.valid_utf8 subject → Forall Json.valid_utf8 gs →
  Forall (λ sh, Value sh ≠ []) shares → length gs = length shares → (∀ n, flt n = None) →
  wp (announce (zip_with (λ g sh, ("recovery.initiated", Some (initiated_payload reqID subject g sh))) gs shares))
    (λ _ w', ∃ bodies, omap share_in bodies = shares ∧ db w' = d ∧
       srv_outbox (w_state w') = evs ++ fan_out (Events.matching "recovery.initiated" d) bodies)
    (mkWorld clk nc rnd nr flt nf (mkSrv d rev evs)).
Proof.
  intros Hr Hs Hg. revert shares nc nf evs. induction Hg as [|g gs Hg _ IH]; intros [|sh shares] nc nf evs Hv Hlen Hnf; try done.
  - apply wp_ret. exists []. by rewrite app_nil_r.
  - apply Forall_cons in Hv as [Hv Hvs]. cbn [zip_with announce]. apply wp_bind, Events.wp_Publish_sent; [done|].
    eapply wp_mono; [apply IH; [done|by injection Hlen|done]|]. intros [] w' (bodies & Hb & Hd & Ho). cbn [w_state srv_outbox] in Ho.
    exists (Events.event_text "recovery.initiated" (initiated_payload reqID subject g sh) (clk nc) (clk (S nc)) :: bodies).
    cbn [omap list_omap]. rewrite share_in_initiated by done. split; [by f_equal|]. split; [done|].
    rewrite Ho, <-app_assoc. reflexivity.
Qed.

Lemma Split_world {S} secret t n (w : World S) :
  w_state (snd (Split secret t n w)) = w_state w ∧ w_fault (snd (Split secret t n w)) = w_fault w.
Proof.
  unfold Split. destruct (Nat.eqb _ _); [done|]. destruct (_ || _)%bool; [done|].
  generalize (seq 0 (length secret)) as idxs. intros idxs.
  generalize ((λ i : nat, mkShare (byte_of_N (N.of_nat i + 1)) (replicate (length secret) x00)) <$> seq 0 (Z.to_nat n)).
  revert w. induction idxs as [|i idxs IH]; intros w shares; [done|]. simpl.
  unfold mbind, M_bind, rand_read. simpl. destruct (w_rand w (w_nrand w)); [|done].
  by rewrite !(proj1 (IH _ _)), !(proj2 (IH _ _)).
Qed.

Lemma NoDup_shares polys n : n ≤ 255 → NoDup (shares_of polys 0 n).
Proof.
  intros Hn. unfold shares_of. apply NoDup_fmap_2_strong; [|apply NoDup_seq].
  intros i j Hi%elem_of_seq Hj%elem_of_seq E. apply (f_equal Index) in E. simpl in E.
  apply share_index_inj in E; lia.
Qed.

(** The stored configurations hold text. *)
Definition configs_utf8 (d : DB) : Prop := ∀ subject row,
  recovery_configs d !! subject = Some row →
  Json.valid_utf8 (rcr_subject_did row) ∧ Forall Json.valid_utf8 (unmarshalField (rcr_guardian_dids row)).

(** C40: A successful initiation of recovery sends every guardian's share to every
    webhook that asks for the event: whoever receives its deliveries recombines the
    recovery token, without any guardian. *)
Theorem webhooks_reveal_token r subject w w' resp :
  handleRecoveryInitiate r w = (resp, w') → status_of resp = StatusOK →
  no_faults w → configs_utf8 (db w) →
  (l ← body_object r; str_field "subject_did" l) = Some subject → Json.valid_utf8 subject →
  ∃ f bodies, w_rand w (w_nrand w) = Some f ∧
    srv_outbox (w_state w') = srv_outbox (w_state w) ++ fan_out (Events.matching "recovery.initiated" (db w)) bodies ∧
    Combine (omap share_in bodies) = Ok (f <$> seq 0 32).
Proof.
  intros Hrun Hst Hnf Hcfg Hbody Hsub.
  enough (wp (handleRecoveryInitiate r) (λ resp w', status_of resp = StatusOK →
    ∃ f bodies, w_rand w (w_nrand w) = Some f ∧
      srv_outbox (w_state w') = srv_outbox (w_state w) ++ fan_out (Events.matching "recovery.initiated" (db w)) bodies ∧
      Combine (omap share_in bodies) = Ok (f <$> seq 0 32)) w) as Hwp.
  { unfold wp in Hwp. rewrite Hrun in Hwp. by apply Hwp. }
  clear Hrun Hst. destruct w as [clk nc rnd nr flt nf [d rev evs]]. unfold no_faults in Hnf. cbn in Hnf, Hcfg.
  unfold handleRecoveryInitiate. rewrite Hbody. destruct subject as [|c subject]; [done|].
  set (subj := String.String c subject) in *.
  assert (∀ k msg, flt k = Some msg → False) as Hno by (intros k msg Hk; by rewrite Hnf in Hk).
  unfold GetRecoveryConfig. do 2 apply wp_bind. apply wp_query; [intros ? []%Hno|intros _]. apply wp_ret.
  unfold select. destruct (recovery_configs d !! subj) as [row|] eqn:Erow; [|done].
  cbv beta iota delta [of_option fmap result_fmap]. destruct (Hcfg subj row Erow) as [_ Hgs].
  cbn [rc_GuardianDIDs rc_Threshold]. revert Hgs. generalize (unmarshalField (rcr_guardian_dids row)). intros gs Hgs.
  unfold NewRecoveryToken. do 2 apply wp_bind. apply wp_rand; [done|intros f Hf]. apply wp_ret.
  cbv beta iota delta [wrap_err]. apply wp_bind, wp_intro. intros shares w1 Hsplit.
  pose proof (Split_world (f <$> seq 0 32) (rcr_threshold row) (Z.of_nat (length gs))
    (mkWorld clk nc rnd (S nr) flt (S nf) (mkSrv d rev evs))) as [Hst1 Hfl1].
  rewrite Hsplit in Hst1, Hfl1. cbn in Hst1, Hfl1. apply Split_spec in Hsplit.
  destruct shares as [shares|e]; [|done].
  destruct Hsplit as (Hne & Hrange & polys & Hco & Hsh).
  destruct w1 as [clk1 nc1 rnd1 nr1 flt1 nf1 st1]. cbn in Hst1, Hfl1. subst st1 flt1.
  unfold randomRecoveryID. do 2 apply wp_bind.
  set (Q := λ (x : result (list byte)) v, wp _ _ v).
  assert (∀ x nr2, Q x (mkWorld clk1 nc1 rnd1 nr2 flt nf1 (mkSrv d rev evs))) as HQ.
  2:{ apply wp_rand; [intros _|intros g _]; apply HQ. }
  intros x nr2. unfold Q. apply wp_ret.
  set (reqID := match _ with Ok _ => _ | Err _ => _ end).
  assert (Json.valid_utf8 reqID) as Hreq by (destruct x; [apply recov_id_utf8|done]).
  clearbody reqID. apply wp_bind, wp_time, wp_bind. unfold SaveRecoveryRequest, current_timestamp.
  do 2 apply wp_bind. apply wp_time, wp_ret.
  apply wp_exec_insert; [intros ? []%Hno|done|intros _ _].
  apply wp_bind. eapply wp_mono; [apply announced; [done..| | |exact Hnf]|intros [] w2 (bodies & Hb & _ & Ho)].
  3: apply wp_ret; intros _; exists f, bodies; split; [done|]; split; [exact Ho|]; rewrite Hb.
  3: subst shares; apply (Combine_shares _ (Z.to_nat (rcr_threshold row)) (Z.to_nat (Z.of_nat (length gs))) polys);
      [lia|lia|exact Hco|apply NoDup_shares; lia|done|];
    unfold shares_of; rewrite length_fmap, length_seq; lia.
  - subst shares. apply Forall_forall. intros sh Hin Hnil.
    destruct (share_of_elem polys _ _ Hin) as (i & _ & ->). simpl in Hnil.
    apply (f_equal length) in Hnil. rewrite length_app, length_fmap in Hnil.
    apply Forall2_length in Hco. simpl in *. lia.
  - subst shares. unfold shares_of. rewrite length_fmap, length_seq. lia.
Qed.

(** ** Approvals *)

Section Approvals.
Context `{Ed25519} (s : Server).

Definition bump_collected (req : RecoveryRequest) : RecoveryRequest :=
  mkRecoveryRequest (rr_ID req) (rr_SubjectDID req) (rr_StartedAt req) (rr_SharesCollected req + 1)
    (rr_Completed req).

(** One approval: the counter grows by one, and the caller's row exists. *)
Lemma approve_step r who share req w :
  no_faults w → fst (subject_of s r w) = Ok who →
  (l ← body_object r; str_field "share" l) = Some share → share ≠ "" →
  recovery_requests (db w) !! PathValue r "id" = Some req → rr_ID req = PathValue r "id" →
  rr_Completed req = false →
  let '(resp, w') := handleRecoveryApprove s r w in
  status_of resp = StatusOK ∧ no_faults w' ∧
  recovery_requests (db w') !! PathValue r "id" = Some (bump_collected req) ∧
  ∃ row, recovery_shares (db w') = upsert (λ old _, old) (PathValue r "id", who) row (recovery_shares (db w)).
Proof.
  intros Hnf Hsub Hbody Hshare Hreq Hid Hcomp.
  enough (wp (handleRecoveryApprove s r) (λ resp w', status_of resp = StatusOK ∧ no_faults w' ∧
    recovery_requests (db w') !! PathValue r "id" = Some (bump_collected req) ∧
    ∃ row, recovery_shares (db w') = upsert (λ old _, old) (PathValue r "id", who) row (recovery_shares (db w))) w) as Hwp.
  { unfold wp in Hwp. by destruct (handleRecoveryApprove s r w). }
  unfold handleRecoveryApprove. apply wp_bind, wp_intro. intros g w0 Hg.
  pose proof (BridgeApiProofs.subject_of_state s r w) as Hs0.
  pose proof (BridgeApiProofs.subject_of_fault s r w) as Hf0.
  rewrite Hg in Hs0, Hsub, Hf0. cbn in Hs0, Hsub, Hf0. subst g. rewrite Hbody.
  assert (no_faults w0) as Hnf0 by (intros n; rewrite Hf0; apply Hnf). rewrite <-Hs0 in Hreq |- *. clear Hf0 Hs0 Hg Hnf w.
  destruct share as [|c share]; [done|].
  destruct w0 as [clk nc rnd nr flt nf [d rev evs]]. unfold no_faults in Hnf0. cbn in Hnf0, Hreq.
  assert (∀ k msg, flt k = Some msg → False) as Hno by (intros k msg Hk; by rewrite Hnf0 in Hk).
  unfold GetRecoveryRequest. apply wp_bind, wp_query; [intros ? []%Hno|intros _].
  unfold select. rewrite Hreq. cbv beta iota delta [of_option]. rewrite Hcomp.
  apply wp_bind, wp_time, wp_bind. unfold SaveRecoveryShare, current_timestamp.
  do 2 apply wp_bind. apply wp_time, wp_ret, wp_exec; [intros ? []%Hno|intros _]. cbv beta iota.
  apply wp_bind. unfold UpdateRecoveryRequest. apply wp_exec; [intros ? []%Hno|intros _].
  apply wp_bind, wp_intro. intros [] w1 Hpub.
  match type of Hpub with Events.Publish _ ?t ?p ?v = _ =>
    pose proof (Events.Publish_plain t p v) as (Hlog & _ & Hf1) end.
  change Events.NewBus with server_bus in Hlog, Hf1. rewrite Hpub in Hlog, Hf1. cbn in Hlog, Hf1. apply wp_ret. split; [done|]. split; [intros n; by rewrite Hf1|].
  rewrite Hlog. cbn [recovery_requests recovery_shares set_audit_log set_recovery_requests set_recovery_shares].
  split; [|by eexists]. rewrite Hid. rewrite lookup_alter_eq. simpl. rewrite Hreq. simpl.
  unfold bump_collected. by rewrite Hcomp.
Qed.

(** approvals count calls, not guardians: any signed-in subject, guardian or
    not, who approves twice raises the counter by two while one share of theirs
    is on record, and the request is never completed. *)
Theorem approvals_count_calls r who share req w :
  let w1 := snd (handleRecoveryApprove s r w) in
  no_faults w → fst (subject_of s r w) = Ok who → fst (subject_of s r w1) = Ok who →
  (l ← body_object r; str_field "share" l) = Some share → share ≠ "" →
  recovery_requests (db w) !! PathValue r "id" = Some req → rr_ID req = PathValue r "id" →
  rr_Completed req = false →
  let w2 := snd (handleRecoveryApprove s r w1) in
  (∃ req2, recovery_requests (db w2) !! PathValue r "id" = Some req2 ∧
    rr_SharesCollected req2 = (rr_SharesCollected req + 2)%Z ∧ rr_Completed req2 = false) ∧
  recovery_shares (db w2) = recovery_shares (db w1).
Proof.
  intros w1 Hnf Hsub Hsub1 Hbody Hshare Hreq Hid Hcomp w2.
  pose proof (approve_step r who share req w Hnf Hsub Hbody Hshare Hreq Hid Hcomp) as H1.
  subst w2 w1. destruct (handleRecoveryApprove s r w) as [resp1 w1]. cbn [snd] in *. destruct H1 as (_ & Hnf1 & Hreq1 & row1 & Hsh1).
  pose proof (approve_step r who share _ w1 Hnf1 Hsub1 Hbody Hshare Hreq1 Hid Hcomp) as H2. cbn [snd].
  destruct (handleRecoveryApprove s r w1) as [resp2 w2]. destruct H2 as (_ & _ & Hreq2 & row2 & Hsh2). cbn [snd].
  split.
  - eexists. split; [exact Hreq2|]. simpl. split; [lia|done].
  - rewrite Hsh2. clear Hsh2. rewrite Hsh1. unfold upsert.
    destruct (recovery_shares (db w) !! _) as [old|] eqn:E; rewrite lookup_insert_eq.
    + by rewrite !insert_insert_eq.
    + by rewrite insert_insert_eq.
Qed.
End Approvals.

(** ** Instances *)

#[local] Existing Instance digest_scheme.
Definition guardians_db : DB :=
  set_webhook_subscriptions {["wh_1" := mkWebhookRow "wh_1" "https://hooks.example/" (marshal_or_empty ["*"]) "h" "" 0]} $
  set_recovery_configs {["did:key:eve" := mkRecoveryConfigRow "did:key:eve" 2
    (str_of (Json.marshal_strings ["did:key:g1"; "did:key:g2"; "did:key:g3"])) 0%Z]} (empty_db true).
Definition initiate_request : Request :=
  mkRequest [] None [] None [] "" (Some (JObj [("subject_did", JStr "did:key:eve")])).
Definition recovery_world (d : DB) : World Srv :=
  mkWorld (λ _, 1000 * second)%Z 0 (λ n, Some (λ i, byte_of_N (N.of_nat (7 * n + 3 * i + 1)))) 0 (λ _, None) 0
    (mkSrv d ∅ []).

Lemma initiate_succeeds :
  status_of (fst (handleRecoveryInitiate initiate_request (recovery_world guardians_db))) = StatusOK.
Proof. vm_compute. reflexivity. Qed.
Lemma guardians_utf8 : configs_utf8 guardians_db.
Proof.
  intros subject row. cbn. rewrite lookup_singleton_Some. intros [<- <-]. split; [by vm_compute|].
  vm_compute. by repeat constructor.
Qed.
Lemma webhooks_reveal_token_witness : ∃ f bodies,
  w_rand (recovery_world guardians_db) 0 = Some f ∧
  srv_outbox (w_state (snd (handleRecoveryInitiate initiate_request (recovery_world guardians_db)))) =
    [] ++ fan_out (Events.matching "recovery.initiated" guardians_db) bodies ∧
  Combine (omap share_in bodies) = Ok (f <$> seq 0 32).
Proof.
  refine (webhooks_reveal_token initiate_request "did:key:eve" (recovery_world guardians_db) _ _
    (surjective_pairing _) initiate_succeeds (λ _, eq_refl) guardians_utf8 eq_refl eq_refl).
Defined.

(** A caller who is nobody's guardian, with a token of the server's own. *)
Definition mallory_token : string :=
  signJWT (claims_payload (access_claims "https://id.example" "did:key:mallory" "c" hour (1000 * second)))
    (p_signingKey ProviderProofs.sample_provider) "k".
Definition approve_request : Request :=
  mkRequest [] None [("Authorization", "Bearer " +s mallory_token)] None [("id", "recov_1")] ""
    (Some (JObj [("share", JStr "01:ff")])).
Definition pending_db : DB :=
  set_recovery_requests {["recov_1" := mkRecoveryRequest "recov_1" "did:key:eve" 0 0 false]} guardians_db.
Lemma mallory_signed_in v :
  w_clock v = w_clock (recovery_world pending_db) →
  fst (subject_of BridgeApiProofs.sample_server approve_request v) = Ok "did:key:mallory".
Proof.
  intros Hc. unfold subject_of, SubjectFromBearer.
  assert (verify_signature (TrimPrefix (Header approve_request "Authorization") "Bearer ")
    (ed_public (p_signingKey (sv_oidc BridgeApiProofs.sample_server))) =
    Ok (access_claims "https://id.example" "did:key:mallory" "c" hour (1000 * second))) as Hv
    by (vm_compute; reflexivity).
  assert ((TrimPrefix (Header approve_request "Authorization") "Bearer " =s "") = false) as -> by (vm_compute; reflexivity).
  unfold Verify. rewrite Hv. unfold mbind, M_bind, time_now. rewrite Hc. reflexivity.
Qed.
Lemma approve_clock :
  w_clock (snd (handleRecoveryApprove BridgeApiProofs.sample_server approve_request (recovery_world pending_db)))
  = w_clock (recovery_world pending_db).
Proof. vm_compute. reflexivity. Qed.
Lemma approvals_count_calls_witness :
  let w := recovery_world pending_db in
  let w1 := snd (handleRecoveryApprove BridgeApiProofs.sample_server approve_request w) in
  let w2 := snd (handleRecoveryApprove BridgeApiProofs.sample_server approve_request w1) in
  ∃ req2, recovery_requests (db w2) !! "recov_1" = Some req2 ∧ rr_SharesCollected req2 = 2%Z.
Proof.
  intros w w1 w2.
  destruct (approvals_count_calls BridgeApiProofs.sample_server approve_request "did:key:mallory" "01:ff"
    (mkRecoveryRequest "recov_1" "did:key:eve" 0 0 false) w (λ _, eq_refl)
    (mallory_signed_in w eq_refl) (mallory_signed_in w1 approve_clock) eq_refl ltac:(discriminate) eq_refl eq_refl
    eq_refl) as [(req2 & Hr & Hc & _) _].
  exists req2. exact (conj Hr Hc).
Defined.
End RecoveryApiProofs.
