(* ===== verification/Providers.v ===== *)
(** * External sign-in: ACC, Te Whatu Ora, LDAP, SAML and RealMe
    (internal/bridge/providers: acc.go, te_whatu_ora.go, ldap.go, saml.go, realme.go)

    The HTTP client, the LDAP connection and the SAML library are parameters that may
    answer differently at every call.  The fields of the SAML library's assertion are the
    ones the code reads.  A Go map that is ranged over is the list of its pairs in the
    order of that iteration. *)

From S2P Require Import Prelude GoStd World Json JsonValue Base64 Sha Http Crypto Consent StoreTypes Jwt SdJwt GoTime GoNet Bridge OidcRp.
Import JsonValue Http Crypto Jwt Bridge OidcRp.

(** ** Requests whose URL is checked *)

Module Requests.
Section Requests.
Context {St : Type} (http_do : HttpCall → M St (result HttpAnswer)).
Definition url_error : error := ErrMsg "parse: invalid URL".
(** [http.NewRequestWithContext] and [Do], each error under its own prefix. *)
Definition send (build do_ : string) (call : HttpCall) : M St (result HttpAnswer) :=
  if GoNet.Parse_ok (hc_url call) then
    resp ← http_do call;
    mret (match resp with Err e => Err (ErrWrap do_ e) | Ok a => Ok a end)
  else mret (Err (ErrWrap build url_error)).
End Requests.
(** [map[string]any] from a body. *)
Definition answer_map `{Float64} (a : HttpAnswer) : option (list (string * json)) :=
  match ha_json a ≫= any_of with Some (JObj l) => Some l | Some JNull => Some [] | _ => None end.
End Requests.

(** ** ACC *)

Module Acc.
Record ACCConfig := mkACCConfig {
  ac_AuthEndpoint : string; ac_TokenEndpoint : string; ac_UserInfoEndpoint : string;
  ac_ClientID : string; ac_ClientSecret : string; ac_RedirectBaseURL : string; ac_Scopes : list string }.

Definition NewACC (cfg : ACCConfig) : result ACCConfig :=
  if (ac_AuthEndpoint cfg =s "") || (ac_TokenEndpoint cfg =s "")
  then Err (ErrMsg "acc: AuthEndpoint and TokenEndpoint are required")
  else
    let scopes := match ac_Scopes cfg with [] => ["openid"; "profile"] | l => l end in
    Ok (mkACCConfig (ac_AuthEndpoint cfg) (ac_TokenEndpoint cfg) (ac_UserInfoEndpoint cfg) (ac_ClientID cfg)
          (ac_ClientSecret cfg) (ac_RedirectBaseURL cfg) scopes).

Definition acc_callbackURL (b : ACCConfig) : string := TrimRightSlash (ac_RedirectBaseURL b) +s "/auth/acc/callback".
Definition acc_AuthorizationURL (b : ACCConfig) (state : string) : string :=
  ac_AuthEndpoint b +s "?" +s
  OidcRp.values_Encode [("response_type", "code"); ("client_id", ac_ClientID b); ("redirect_uri", acc_callbackURL b);
                 ("scope", OidcRp.Join (ac_Scopes b) " "); ("state", state)].

Definition nonempty_string (k : string) (raw : list (string * json)) : option string :=
  match raw_string k raw with Some v => if v =s "" then None else Some v | None => None end.
Definition copied_fields : list string := ["email"; "given_name"; "family_name"; "name"].
Definition copy_nonempty (m : gmap string string) (dst src : string) (raw : list (string * json)) : gmap string string :=
  match nonempty_string src raw with Some v => <[dst := v]> m | None => m end.
Definition mapClaims (raw : list (string * json)) : result ExternalIdentity :=
  let sub := default "" (raw_string "sub" raw) in
  if sub =s "" then Err (ErrMsg "acc: missing sub claim — cannot establish stable identifier")
  else
    let claims := foldl (λ m field, copy_nonempty m field field raw) ∅ copied_fields in
    let claims := copy_nonempty claims "acc_client_number" "acc_client_number" raw in
    let claims := if default "" (claims !! "acc_client_number") =s ""
                  then copy_nonempty claims "acc_client_number" "clientNumber" raw else claims in
    Ok (mkExternalIdentity "acc" sub claims false).

Section Acc.
Context {St : Type} `{Float64} (http_do : HttpCall → M St (result HttpAnswer)).

Definition parseTokenClaims (token : string) : M St (result ExternalIdentity) :=
  match parseRawClaims token with
  | Err e => mret (Err (ErrWrap "acc: parse token claims" e))
  | Ok raw =>
      match SdJwt.number (aget "exp" raw) with
      | Some exp =>
          now ← time_now;
          if (exp <? unix now)%Z then mret (Err (ErrMsg "acc: token expired")) else mret (mapClaims raw)
      | None => mret (mapClaims raw)
      end
  end.

Definition fetchUserInfo (b : ACCConfig) (accessToken : string) : M St (result ExternalIdentity) :=
  resp ← Requests.send http_do "acc: build userinfo request" "acc: userinfo request"
           (mkHttpCall "GET" (ac_UserInfoEndpoint b) [("Authorization", "Bearer " +s accessToken)] []);
  mret (a ← resp;
        if negb (ha_status a =? StatusOK)%Z then Err (ErrMsg ("acc: userinfo returned HTTP " +s Itoa (ha_status a)))
        else match Requests.answer_map a with
             | None => Err (ErrWrap "acc: decode userinfo" decode_error)
             | Some info => mapClaims info
             end).

(** The access token and the ID token. *)
Definition acc_decode_token (l : list (string * json)) : option (string * string) :=
  access ← str_field "access_token" l; id ← str_field "id_token" l; n ← int_field "expires_in" l;
  if (n =? OidcRp.int64 n)%Z then Some (access, id) else None.
Definition acc_ExchangeCode (b : ACCConfig) (code : string) : M St (result ExternalIdentity) :=
  resp ← http_do (token_call (ac_TokenEndpoint b) code (acc_callbackURL b) (ac_ClientID b) (ac_ClientSecret b));
  match resp with
  | Err e => mret (Err (ErrWrap "acc: token exchange" e))
  | Ok a =>
  if negb (ha_status a =? StatusOK)%Z
  then mret (Err (ErrMsg ("acc: token endpoint returned HTTP " +s Itoa (ha_status a)))) else
  match answer_object a ≫= acc_decode_token with
  | None => mret (Err (ErrWrap "acc: decode token response" decode_error))
  | Some (access, id) =>
  if access =s "" then mret (Err (ErrMsg "acc: no access_token in response"))
  else if negb (ac_UserInfoEndpoint b =s "") then fetchUserInfo b access
  else parseTokenClaims (if id =s "" then access else id)
  end end.
End Acc.
End Acc.

(** ** Te Whatu Ora *)

Module TeWhatuOra.
Definition nhiSystemURI : string := "https://standards.digital.health.nz/ns/nhi-id".
Definition hpiPersonSystemURI : string := "https://standards.digital.health.nz/ns/hpi-person-id".
Definition hpiCPNSystemURI : string := "https://standards.digital.health.nz/ns/hpi-person-cpn".

Record TeWhatuOraConfig := mkTeWhatuOraConfig {
  tw_AuthEndpoint : string; tw_TokenEndpoint : string; tw_FHIRBase : string; tw_ClientID : string;
  tw_ClientSecret : string; tw_RedirectBaseURL : string; tw_ResourceType : string }.
Definition NewTeWhatuOra (cfg : TeWhatuOraConfig) : result TeWhatuOraConfig :=
  if (tw_AuthEndpoint cfg =s "") || (tw_TokenEndpoint cfg =s "")
  then Err (ErrMsg "te-whatu-ora: AuthEndpoint and TokenEndpoint are required")
  else if tw_FHIRBase cfg =s "" then Err (ErrMsg "te-whatu-ora: FHIRBase is required")
  else
    let rt := if tw_ResourceType cfg =s "" then "Patient" else tw_ResourceType cfg in
    if negb (rt =s "Patient") && negb (rt =s "Practitioner")
    then Err (ErrMsg ("te-whatu-ora: ResourceType must be Patient or Practitioner, got " +s quoted rt))
    else Ok (mkTeWhatuOraConfig (tw_AuthEndpoint cfg) (tw_TokenEndpoint cfg) (tw_FHIRBase cfg) (tw_ClientID cfg)
               (tw_ClientSecret cfg) (tw_RedirectBaseURL cfg) rt).

Definition fhir_callbackURL (b : TeWhatuOraConfig) : string :=
  TrimRightSlash (tw_RedirectBaseURL b) +s "/auth/te-whatu-ora/callback".
Definition smartScopes (b : TeWhatuOraConfig) : string :=
  if tw_ResourceType b =s "Patient" then "openid fhirUser launch/patient patient/*.read"
  else "openid fhirUser user/Practitioner.read".
Definition fhir_AuthorizationURL (b : TeWhatuOraConfig) (state : string) : string :=
  tw_AuthEndpoint b +s "?" +s
  OidcRp.values_Encode [("response_type", "code"); ("client_id", tw_ClientID b); ("redirect_uri", fhir_callbackURL b);
                 ("scope", smartScopes b); ("state", state); ("aud", tw_FHIRBase b)].

Record fhirIdentifierEnt := mkFhirIdentifierEnt { fi_System : string; fi_Value : string }.
Record fhirHumanNameEnt := mkFhirHumanNameEnt { fn_Family : string; fn_Given : list string }.
Record fhirPatientResource := mkFhirPatientResource {
  fr_ResourceType : string; fr_ID : string; fr_Identifier : list fhirIdentifierEnt;
  fr_Name : list fhirHumanNameEnt; fr_BirthDate : string }.
Definition decode_identifier (l : list (string * json)) : option fhirIdentifierEnt :=
  s ← str_field "system" l; v ← str_field "value" l; Some (mkFhirIdentifierEnt s v).
Definition decode_name (l : list (string * json)) : option fhirHumanNameEnt :=
  f ← str_field "family" l; g ← strs_field "given" l; Some (mkFhirHumanNameEnt f g).
Definition decode_resource (l : list (string * json)) : option fhirPatientResource :=
  rt ← str_field "resourcetype" l; id ← str_field "id" l;
  ids ← GoTime.structs_field "identifier" l; ids ← mapM decode_identifier ids;
  names ← GoTime.structs_field "name" l; names ← mapM decode_name names;
  bd ← str_field "birthdate" l;
  Some (mkFhirPatientResource rt id ids names bd).

(** The loop over the identifiers: the last NHI, the first HPI that is not empty. *)
Definition number_step (acc : string * string) (id : fhirIdentifierEnt) : string * string :=
  let '(nhi, hpi) := acc in
  if fi_System id =s nhiSystemURI then (fi_Value id, hpi)
  else if (fi_System id =s hpiPersonSystemURI) || (fi_System id =s hpiCPNSystemURI)
  then (nhi, if hpi =s "" then fi_Value id else hpi)
  else (nhi, hpi).
Definition numbers (ids : list fhirIdentifierEnt) : string * string := foldl number_step ("", "") ids.
Definition put (k v : string) (m : gmap string string) : gmap string string :=
  if v =s "" then m else <[k := v]> m.
Definition name_claims (names : list fhirHumanNameEnt) (m : gmap string string) : gmap string string :=
  match names with
  | [] => m
  | n :: _ => put "given_name" (default "" (find (λ g, negb (g =s "")) (fn_Given n))) (put "family_name" (fn_Family n) m)
  end.
Definition resource_identity (b : TeWhatuOraConfig) (resourceID : string) (resource : fhirPatientResource) : ExternalIdentity :=
  let '(nhi, hpi) := numbers (fr_Identifier resource) in
  let '(externalID, idType) :=
    if negb (nhi =s "") then (nhi, "nhi") else if negb (hpi =s "") then (hpi, "hpi") else (resourceID, "fhir-id") in
  let claims : gmap string string :=
    <["id_type" := idType]> (<["fhir_resource_type" := tw_ResourceType b]> {[ "fhir_resource_id" := resourceID ]}) in
  let claims := put "hpi_number" hpi (put "nhi_number" nhi claims) in
  let claims := name_claims (fr_Name resource) claims in
  let claims := put "dob" (fr_BirthDate resource) claims in
  mkExternalIdentity "te-whatu-ora" externalID claims false.

Section TeWhatuOra.
Context {St : Type} (http_do : HttpCall → M St (result HttpAnswer)).

Definition fetchFHIRIdentity (b : TeWhatuOraConfig) (accessToken resourceID : string) : M St (result ExternalIdentity) :=
  let fhirURL := TrimRightSlash (tw_FHIRBase b) +s "/" +s tw_ResourceType b +s "/" +s resourceID in
  resp ← Requests.send http_do "te-whatu-ora: build FHIR request" "te-whatu-ora: fetch FHIR resource"
           (mkHttpCall "GET" fhirURL [("Authorization", "Bearer " +s accessToken); ("Accept", "application/fhir+json")] []);
  mret (a ← resp;
        if negb (ha_status a =? StatusOK)%Z
        then Err (ErrMsg ("te-whatu-ora: FHIR resource returned HTTP " +s Itoa (ha_status a)))
        else match answer_object a ≫= decode_resource with
             | None => Err (ErrWrap "te-whatu-ora: decode FHIR resource" decode_error)
             | Some resource => Ok (resource_identity b resourceID resource)
             end).

(** The access token and the two context members. *)
Definition fhir_decode_token (l : list (string * json)) : option (string * string * string) :=
  access ← str_field "access_token" l; p ← str_field "patient" l; u ← str_field "fhiruser" l;
  Some (access, p, u).
Definition resource_id (patient fhirUser : string) : string :=
  if (patient =s "") && negb (fhirUser =s "")
  then match SplitN fhirUser x2f 2 with [_; id] => id | _ => fhirUser end
  else patient.
Definition fhir_ExchangeCode (b : TeWhatuOraConfig) (code : string) : M St (result ExternalIdentity) :=
  resp ← http_do (token_call (tw_TokenEndpoint b) code (fhir_callbackURL b) (tw_ClientID b) (tw_ClientSecret b));
  match resp with
  | Err e => mret (Err (ErrWrap "te-whatu-ora: token exchange" e))
  | Ok a =>
  if negb (ha_status a =? StatusOK)%Z
  then mret (Err (ErrMsg ("te-whatu-ora: token endpoint returned HTTP " +s Itoa (ha_status a)))) else
  match answer_object a ≫= fhir_decode_token with
  | None => mret (Err (ErrWrap "te-whatu-ora: decode token response" decode_error))
  | Some (access, patient, fhirUser) =>
  if access =s "" then mret (Err (ErrMsg "te-whatu-ora: no access_token in response"))
  else
    let resourceID := resource_id patient fhirUser in
    if resourceID =s "" then mret (Err (ErrMsg "te-whatu-ora: no patient/fhirUser context in token response"))
    else fetchFHIRIdentity b access resourceID
  end end.
End TeWhatuOra.
End TeWhatuOra.

(** ** LDAP *)

Module Ldap.
Record LDAPConfig := mkLDAPConfig {
  ld_URL : string; ld_BindDN : string; ld_BindPassword : string; ld_UserBaseDN : string; ld_UserFilter : string;
  ld_AttributeMap : option (list (string * string)) }.
Definition default_attributes : list (string * string) :=
  [("mail", "email"); ("givenName", "given_name"); ("sn", "family_name"); ("displayName", "name"); ("memberOf", "groups")].
Definition NewLDAP (cfg : LDAPConfig) : result LDAPConfig :=
  let url := bytes_of (ld_URL cfg) in
  if length url <? 7 then Err (ErrMsg "ldap: URL too short")
  else
    let scheme := str_of (take 7 url) in
    if negb (scheme =s "ldaps://") && negb (str_of (take 5 url) =s "ldap:")
    then Err (ErrMsg "ldap: URL must start with ldaps:// or ldap://")
    else if scheme =s "ldap://"
    then Err (ErrMsg "ldap: plaintext ldap:// is not permitted; use ldaps:// or STARTTLS")
    else
      let filter := if ld_UserFilter cfg =s "" then "(sAMAccountName=%s)" else ld_UserFilter cfg in
      let attrs := default default_attributes (ld_AttributeMap cfg) in
      Ok (mkLDAPConfig (ld_URL cfg) (ld_BindDN cfg) (ld_BindPassword cfg) (ld_UserBaseDN cfg) filter (Some attrs)).

Record Entry := mkEntry { en_DN : string; en_Attributes : string → list string }.
Record SearchRequest := mkSearchRequest { sr_BaseDN : string; sr_Filter : string; sr_Attributes : list string }.
(** The library: a connection, binding as a name, searching the whole subtree without
    limits, escaping a text for a filter; and [fmt.Sprintf] of a filter with one text. *)
Class LdapLib (St : Type) := {
  Conn : Type;
  DialURL : string → M St (result Conn);
  Bind : Conn → string → string → M St (result unit);
  LdapSearch : Conn → SearchRequest → M St (result (list Entry));
  EscapeFilter : string → string;
  Sprintf1 : string → string → string }.

Section Ldap.
Context {St : Type} `{LdapLib St}.
(** Later pairs of the attribute map overwrite earlier ones of the same claim. *)
Definition entry_claims (attrs : list (string * string)) (e : Entry) : gmap string string :=
  foldl (λ m ac, match en_Attributes e ac.1 with v :: _ => <[ac.2 := v]> m | [] => m end) ∅ attrs.
Definition VerifyCredentials (b : LDAPConfig) (identifier password : string) : M St (result ExternalIdentity) :=
  let attrs := default [] (ld_AttributeMap b) in
  conn ← DialURL (ld_URL b);
  match conn with
  | Err e => mret (Err (ErrWrap "ldap: dial" e))
  | Ok conn =>
  bound ← Bind conn (ld_BindDN b) (ld_BindPassword b);
  match bound with
  | Err e => mret (Err (ErrWrap "ldap: service bind" e))
  | Ok _ =>
  entries ← LdapSearch conn (mkSearchRequest (ld_UserBaseDN b) (Sprintf1 (ld_UserFilter b) (EscapeFilter identifier))
                           ("dn" :: (fst <$> attrs)));
  match entries with
  | Err e => mret (Err (ErrWrap "ldap: search" e))
  | Ok [] =>
      _ ← Bind conn "cn=nonexistent,dc=invalid" "wrongpassword";
      mret (Err (ErrMsg "ldap: invalid credentials"))
  | Ok [entry] =>
      user ← Bind conn (en_DN entry) password;
      mret (match user with
            | Err _ => Err (ErrMsg "ldap: invalid credentials")
            | Ok _ => Ok (mkExternalIdentity "ldap" (en_DN entry) (entry_claims attrs entry) false)
            end)
  | Ok _ => mret (Err (ErrMsg "ldap: ambiguous user search result"))
  end end end.
End Ldap.
End Ldap.

(** ** SAML *)

Module Saml.
Record SAMLConfig := mkSAMLConfig {
  sc_Name : string; sc_IDPMetadataURL : string; sc_EntityID : string; sc_ACSPath : string;
  sc_MetadataPath : string; sc_CertFile : string; sc_KeyFile : string }.
(** What is read of the library's assertion. *)
Record Attribute := mkAttribute { at_Name : string; at_Values : list string }.
Record Assertion := mkAssertion { as_NameID : option string; as_Statements : list (list Attribute) }.
(** A URL is the parsed one with its path replaced. *)
Record ServiceProvider (Cert Key Meta : Type) := mkServiceProvider {
  sp_EntityID : string; sp_Key : Key; sp_Certificate : Cert; sp_IDPMetadata : Meta;
  sp_AcsURL : string * string; sp_MetadataURL : string * string }.
Arguments mkServiceProvider {_ _ _} _ _ _ _ _ _.
Arguments sp_AcsURL {_ _ _}.
Arguments sp_MetadataURL {_ _ _}.
(** The key pair's first certificate with the private key if it is an RSA one; fetching a
    page as its status and what reading its body gives; the library's operations. *)
Class SamlLib (St : Type) := {
  Cert : Type; RsaKey : Type; EntityDescriptor : Type; AuthnRequest : Type;
  LoadX509KeyPair : string → string → M St (result (list byte * option RsaKey));
  ParseCertificate : list byte → result Cert;
  fetch_page : string → M St (result (Z * result (list byte)));
  xml_Unmarshal : list byte → result EntityDescriptor;
  GetSSOBindingLocation : ServiceProvider Cert RsaKey EntityDescriptor → string;
  MakeAuthenticationRequest : ServiceProvider Cert RsaKey EntityDescriptor → string → M St (result AuthnRequest);
  ar_Redirect : AuthnRequest → result string;
  ar_ID : AuthnRequest → string;
  ParseResponse : ServiceProvider Cert RsaKey EntityDescriptor → Request → list string → M St (result Assertion) }.

(** [strings.Replace(s, old, new, 1)]. *)
Definition replace_once (s old new : string) : string :=
  match bindex (bytes_of old) (bytes_of s) with
  | Some i => str_of (take i (bytes_of s)) +s new +s str_of (drop (i + length (bytes_of old)) (bytes_of s))
  | None => s
  end.
Definition metadata_path (cfg : SAMLConfig) : string :=
  if sc_MetadataPath cfg =s "" then
    let p := replace_once (sc_ACSPath cfg) "/acs" "/metadata" in
    if p =s sc_ACSPath cfg then sc_ACSPath cfg +s "/metadata" else p
  else sc_MetadataPath cfg.

Definition microsoft_names : list (string * string) :=
  [("http://schemas.xmlsoap.org/ws/2005/05/identity/claims/emailaddress", "email");
   ("http://schemas.xmlsoap.org/ws/2005/05/identity/claims/givenname", "given_name");
   ("http://schemas.xmlsoap.org/ws/2005/05/identity/claims/surname", "family_name");
   ("http://schemas.microsoft.com/ws/2008/06/identity/claims/groups", "groups")].
Definition attribute_claim (m : gmap string string) (a : Attribute) : gmap string string :=
  match at_Values a with v :: _ => <[at_Name a := v]> m | [] => m end.
Definition friendly (m : gmap string string) (uf : string * string) : gmap string string :=
  match m !! uf.1 with Some v => <[uf.2 := v]> m | None => m end.
Definition saml_claims (a : Assertion) : gmap string string :=
  foldl friendly (foldl attribute_claim ∅ (mjoin (as_Statements a))) microsoft_names.
Definition extractIdentity (name : string) (assertion : Assertion) : result ExternalIdentity :=
  match as_NameID assertion with
  | None => Err (ErrMsg "saml: missing NameID in assertion")
  | Some nameID =>
      if nameID =s "" then Err (ErrMsg "saml: empty NameID")
      else Ok (mkExternalIdentity name nameID (saml_claims assertion) false)
  end.

Section Saml.
Context {St : Type} `{SamlLib St}.
Record SAMLBridge := mkSAMLBridge { sb_cfg : SAMLConfig; sb_sp : ServiceProvider Cert RsaKey EntityDescriptor }.

Definition fetchIDPMetadata (cfg : SAMLConfig) : M St (result EntityDescriptor) :=
  if negb (GoNet.Parse_ok (sc_IDPMetadataURL cfg))
  then mret (Err (ErrWrap "saml: build metadata request" Requests.url_error)) else
  resp ← fetch_page (sc_IDPMetadataURL cfg);
  mret (match resp with
        | Err e => Err (ErrWrap "saml: fetch IDP metadata" e)
        | Ok (status, body) =>
            if negb (status =? StatusOK)%Z then Err (ErrMsg ("saml: IDP metadata returned " +s Itoa status))
            else match body with
                 | Err e => Err (ErrWrap "saml: read IDP metadata" e)
                 | Ok data => match xml_Unmarshal data with
                              | Err e => Err (ErrWrap "saml: parse IDP metadata XML" e)
                              | Ok meta => Ok meta
                              end
                 end
        end).
Definition init (cfg : SAMLConfig) : M St (result (ServiceProvider Cert RsaKey EntityDescriptor)) :=
  pair ← LoadX509KeyPair (sc_CertFile cfg) (sc_KeyFile cfg);
  match pair with
  | Err e => mret (Err (ErrWrap "saml: load keypair" e))
  | Ok (der, key) =>
  match ParseCertificate der with
  | Err e => mret (Err (ErrWrap "saml: parse certificate" e))
  | Ok cert =>
  match key with
  | None => mret (Err (ErrMsg "saml: SP private key must be RSA (SAML 2.0 standard requirement)"))
  | Some key =>
  meta ← fetchIDPMetadata cfg;
  mret (meta ← meta;
        if negb (GoNet.Parse_ok (sc_EntityID cfg)) then Err (ErrWrap "saml: parse entity ID URL" Requests.url_error)
        else Ok (mkServiceProvider (sc_EntityID cfg) key cert meta (sc_EntityID cfg, sc_ACSPath cfg)
                   (sc_EntityID cfg, metadata_path cfg)))
  end end end.
Definition NewSAML (cfg : SAMLConfig) : M St (result SAMLBridge) :=
  sp ← init cfg; mret (mkSAMLBridge cfg <$> sp).

Definition PrepareAuth (b : SAMLBridge) : M St (result (string * string)) :=
  let ssoURL := GetSSOBindingLocation (sb_sp b) in
  if ssoURL =s "" then mret (Err (ErrMsg "saml: IDP has no SSO HTTP-Redirect binding"))
  else
    authReq ← MakeAuthenticationRequest (sb_sp b) ssoURL;
    mret (match authReq with
          | Err e => Err (ErrWrap "saml: make authn request" e)
          | Ok ar => match ar_Redirect ar with
                     | Err e => Err (ErrWrap "saml: build redirect URL" e)
                     | Ok u => Ok (u, ar_ID ar)
                     end
          end).
Definition parseResponse (b : SAMLBridge) (r : Request) (requestIDs : list string) : M St (result Assertion) :=
  ParseResponse (sb_sp b) r requestIDs.
Definition ProcessACS (b : SAMLBridge) (r : Request) (requestIDs : list string) : M St (result ExternalIdentity) :=
  assertion ← ParseResponse (sb_sp b) r requestIDs;
  mret (match assertion with
        | Err e => Err (ErrWrap "saml: parse response" e)
        | Ok a => extractIdentity (sc_Name (sb_cfg b)) a
        end).
End Saml.
End Saml.

(** ** RealMe *)

Module RealMe.
Import Saml.
Definition RealMeTier : Type := string.
Definition RealMeLogin : RealMeTier := "login".
Definition RealMeVerified : RealMeTier := "verified".
Definition realmeAttrPrefix : string := "urn:nz:govt:dia:realme:identity:attribute:".
Definition realmeLOA1 : string := "urn:nzl:govt:ict:stds:auth:as:1.0:idassurance:loa1".
Definition realmeLOA2 : string := "urn:nzl:govt:ict:stds:auth:as:1.0:idassurance:loa2".
Definition realmeLOA3 : string := "urn:nzl:govt:ict:stds:auth:as:1.0:idassurance:loa3".
Record RealMeConfig := mkRealMeConfig {
  rm_Tier : RealMeTier; rm_IDPMetadataURL : string; rm_EntityID : string; rm_ACSPath : string;
  rm_MetadataPath : string; rm_CertFile : string; rm_KeyFile : string }.

Definition loaLevel (loaURN : string) : string :=
  if loaURN =s realmeLOA1 then "1" else if loaURN =s realmeLOA2 then "2" else if loaURN =s realmeLOA3 then "3"
  else "unknown".
(** The claim an attribute fills, by its name without the prefix. *)
Definition realme_claim (key : string) : option string :=
  aget key [("familyName", "family_name"); ("givenNames", "given_name"); ("dateOfBirth", "dob");
    ("residenceAddressLine1", "address_line1"); ("residenceAddressLine2", "address_line2"); ("residenceCity", "address_city");
    ("residencePostCode", "address_postcode"); ("residenceCountry", "address_country"); ("verifiedOn", "verified_on")].
Definition realme_attribute (m : gmap string string) (a : Attribute) : gmap string string :=
  match at_Values a with
  | [] => m
  | v :: _ =>
      let key := TrimPrefix (at_Name a) realmeAttrPrefix in
      if key =s "loaAchieved" then <["loa_level" := loaLevel v]> (<["loa" := v]> m)
      else match realme_claim key with Some claim => <[claim := v]> m | None => m end
  end.
Definition mapRealMeIdentity (tier : RealMeTier) (assertion : Assertion) : result ExternalIdentity :=
  match as_NameID assertion with
  | None => Err (ErrMsg "realme: missing NameID (FLT) in assertion")
  | Some flt =>
  if flt =s "" then Err (ErrMsg "realme: empty FLT in NameID")
  else
    let claims := foldl realme_attribute {[ "flt" := flt ]} (mjoin (as_Statements assertion)) in
    let loa := default "" (claims !! "loa") in
    if (tier =s RealMeVerified) && negb ((loa =s realmeLOA2) || (loa =s realmeLOA3))
    then Err (ErrMsg ("realme: LOA2+ required for verified tier, got " +s quoted loa))
    else Ok (mkExternalIdentity "realme" flt claims false)
  end.

Section RealMe.
Context {St : Type} `{SamlLib St}.
Record RealMeBridge := mkRealMeBridge { rm_base : SAMLBridge (St := St); rm_tier : RealMeTier }.
Definition NewRealMe (cfg : RealMeConfig) : M St (result RealMeBridge) :=
  let tier := if rm_Tier cfg =s "" then RealMeLogin else rm_Tier cfg in
  base ← NewSAML (mkSAMLConfig "realme" (rm_IDPMetadataURL cfg) (rm_EntityID cfg) (rm_ACSPath cfg) (rm_MetadataPath cfg)
                    (rm_CertFile cfg) (rm_KeyFile cfg));
  mret (match base with Err e => Err (ErrWrap "realme" e) | Ok base => Ok (mkRealMeBridge base tier) end).
Definition RealMe_PrepareAuth (b : RealMeBridge) : M St (result (string * string)) := PrepareAuth (rm_base b).
Definition RealMe_ProcessACS (b : RealMeBridge) (r : Request) (requestIDs : list string) : M St (result ExternalIdentity) :=
  assertion ← parseResponse (rm_base b) r requestIDs;
  mret (match assertion with
        | Err e => Err (ErrWrap "realme: parse SAML response" e)
        | Ok a => mapRealMeIdentity (rm_tier b) a
        end).
End RealMe.
End RealMe.
