(* ===== verification/ProvidersProofs.v ===== *)
(** * External sign-in: what the providers promise *)

From S2P Require Import Prelude GoStd World Json JsonValue Base64 Sha Http Crypto Consent StoreTypes Jwt SdJwt GoTime GoNet VcProofs Bridge OidcRp Providers.
Import JsonValue Http Crypto Jwt Bridge OidcRp.

(** ** RealMe *)

Module RealMeProofs.
Import Saml RealMe.

(** The level is always that of the assurance URN beside it, and the URN is the first
    value of an attribute of the assertion. *)
Definition loa_consistent (attrs : list Attribute) (m : gmap string string) : Prop :=
  m !! "loa_level" = loaLevel <$> m !! "loa" ∧
  ∀ v, m !! "loa" = Some v → ∃ a vs, a ∈ attrs ∧ TrimPrefix (at_Name a) realmeAttrPrefix = "loaAchieved" ∧ at_Values a = v :: vs.
Lemma realme_claim_plain key claim : realme_claim key = Some claim → claim ≠ "loa" ∧ claim ≠ "loa_level".
Proof. unfold realme_claim. cbn [aget]. repeat (destruct (key =s _); [intros [= <-]; done|]). done. Qed.
Lemma realme_attribute_consistent attrs m a : loa_consistent attrs m → a ∈ attrs → loa_consistent attrs (realme_attribute m a).
Proof.
  intros [Hl Hv] Ha. unfold realme_attribute. destruct (at_Values a) as [|v vs] eqn:Ev; [done|].
  destruct (String.eqb_spec (TrimPrefix (at_Name a) realmeAttrPrefix) "loaAchieved") as [Hn|].
  - split.
    + rewrite lookup_insert_eq, lookup_insert_ne, lookup_insert_eq by done. done.
    + intros v'. rewrite lookup_insert_ne, lookup_insert_eq by done. intros [= <-]. by exists a, vs.
  - destruct (realme_claim _) as [claim|] eqn:Ec; [|done]. apply realme_claim_plain in Ec as [H1 H2].
    split; [rewrite !lookup_insert_ne by done; done|]. intros v'. rewrite lookup_insert_ne by done. apply Hv.
Qed.
Lemma realme_fold_consistent attrs l m : l ⊆ attrs → loa_consistent attrs m → loa_consistent attrs (foldl realme_attribute m l).
Proof.
  revert m. induction l as [|a l IH]; intros m Hl Hm; cbn [foldl]; [done|].
  apply IH; [set_solver|]. apply realme_attribute_consistent; [done|]. set_solver.
Qed.
Lemma start_consistent attrs flt : loa_consistent attrs {[ "flt" := flt ]}.
Proof. split; [by rewrite !lookup_singleton_ne by done|]. intros v. by rewrite lookup_singleton_ne by done. Qed.

Section Verified.
Context {St : Type} `{SamlLib St}.

(** The verified tier means what it says: an identity that RealMe's verified tier signs
    in is the name of an assertion the library validated for one of the pending requests,
    that assertion states an assurance of level two or three, and the level recorded in
    the claims is the stated one. *)
Theorem realme_verified_tier (b : RealMeBridge) r ids (w : World St) ext w' :
  rm_tier b = RealMeVerified → RealMe_ProcessACS b r ids w = (Ok ext, w') →
  ∃ assertion a loa vs, ParseResponse (sb_sp (rm_base b)) r ids w = (Ok assertion, w') ∧
    as_NameID assertion = Some (ext_ExternalID ext) ∧ ext_ExternalID ext ≠ "" ∧
    a ∈ mjoin (as_Statements assertion) ∧ TrimPrefix (at_Name a) realmeAttrPrefix = "loaAchieved" ∧ at_Values a = loa :: vs ∧
    ext_Claims ext !! "loa" = Some loa ∧
    (loa = realmeLOA2 ∧ ext_Claims ext !! "loa_level" = Some "2" ∨ loa = realmeLOA3 ∧ ext_Claims ext !! "loa_level" = Some "3").
Proof.
  intros Ht. unfold RealMe_ProcessACS, parseResponse, mbind, M_bind.
  destruct (ParseResponse _ r ids w) as [[assertion|] w1] eqn:Ep; [|done]. cbn [mret M_ret]. intros E. injection E as E <-.
  unfold mapRealMeIdentity in E. rewrite Ht in E. destruct (as_NameID assertion) as [flt|] eqn:En; [|done].
  destruct (String.eqb_spec flt "") as [|Hflt]; [done|]. cbv zeta in E.
  set (m := foldl _ _ _) in E.
  assert (loa_consistent (mjoin (as_Statements assertion)) m) as [Hlevel Hfrom] by (apply realme_fold_consistent; [done|apply start_consistent]).
  destruct (m !! "loa") as [loa|] eqn:El; cbn [default] in E; [|discriminate E].
  destruct (Hfrom loa eq_refl) as (a & vs & Hin & Hn & Hvs).
  exists assertion, a, loa, vs. change (RealMeVerified =s RealMeVerified) with true in E. cbn [andb id] in E.
  assert (loa = realmeLOA2 ∨ loa = realmeLOA3) as Hloa.
  { destruct (String.eqb_spec loa realmeLOA2); [by left|]. destruct (String.eqb_spec loa realmeLOA3); [by right|discriminate E]. }
  assert (ext = mkExternalIdentity "realme" flt m false) as -> by (destruct Hloa as [-> | ->]; by injection E).
  cbn [ext_ExternalID ext_Claims]. rewrite El, Hlevel. split_and!; auto.
  destruct Hloa as [-> | ->]; [by left|by right].
Qed.
End Verified.
End RealMeProofs.

(** ** LDAP *)

Module LdapProofs.
Import Ldap.
Section Bound.
Context {St : Type} `{LdapLib St}.

(** A directory identity knew the password: it is the name of the only entry the search
    found, and the directory accepted that name with the password presented, after the
    service account had been accepted. *)
Theorem ldap_identity_bound (b : LDAPConfig) identifier password (w : World St) ext w' :
  VerifyCredentials b identifier password w = (Ok ext, w') →
  ∃ conn entry w1 w2 w3, DialURL (ld_URL b) w = (Ok conn, w1) ∧ Bind conn (ld_BindDN b) (ld_BindPassword b) w1 = (Ok tt, w2) ∧
    LdapSearch conn (mkSearchRequest (ld_UserBaseDN b) (Sprintf1 (ld_UserFilter b) (EscapeFilter identifier))
                   ("dn" :: (fst <$> default [] (ld_AttributeMap b)))) w2 = (Ok [entry], w3) ∧
    Bind conn (en_DN entry) password w3 = (Ok tt, w') ∧ ext_ExternalID ext = en_DN entry.
Proof.
  unfold VerifyCredentials, mbind, M_bind. cbv zeta.
  destruct (DialURL (ld_URL b) w) as [[conn|] w1] eqn:Ed; [|done].
  destruct (Bind conn (ld_BindDN b) (ld_BindPassword b) w1) as [[[]|] w2] eqn:Eb; [|done].
  destruct (LdapSearch conn _ w2) as [[[|entry [|]]|] w3] eqn:Es; cbn [mret M_ret]; [by destruct (Bind conn _ _ w3)| |done..].
  destruct (Bind conn (en_DN entry) password w3) as [[[]|] w4] eqn:Eu; intros E; [|discriminate E].
  injection E as <- <-. by exists conn, entry, w1, w2, w3.
Qed.
End Bound.

Lemma bprefix_take (l u : list byte) : bprefix l u = bool_decide (take (length l) u = l).
Proof.
  revert u. induction l as [|c l IH]; intros [|d u]; cbn [bprefix length take]; try done.
  rewrite IH. destruct (beqb_spec c d) as [->|Hn]; cbn [andb].
  - apply bool_decide_ext. split; [by intros ->|by intros [=]].
  - symmetry. apply bool_decide_eq_false. by intros [= ->].
Qed.
Lemma eqb_take n p u : length (bytes_of p) = n → (str_of (take n u) =s p) = bprefix (bytes_of p) u.
Proof.
  intros <-. rewrite bprefix_take. destruct (String.eqb_spec (str_of (take (length (bytes_of p)) u)) p) as [E|Hn]; symmetry.
  - apply bool_decide_eq_true. by rewrite <-E at 2; rewrite bytes_of_str_of.
  - apply bool_decide_eq_false. intros E. apply Hn. by rewrite E, str_of_bytes_of.
Qed.
(** No secure directory can be configured: exactly the addresses that begin with ldap: but
    not with ldap:// are accepted, so every ldaps:// address is refused, since seven
    characters are compared with a prefix of eight. *)
Theorem ldap_addresses (cfg : LDAPConfig) :
  (∃ b, NewLDAP cfg = Ok b) ↔
  7 ≤ length (bytes_of (ld_URL cfg)) ∧ HasPrefix (ld_URL cfg) "ldap:" = true ∧ HasPrefix (ld_URL cfg) "ldap://" = false.
Proof.
  unfold NewLDAP, HasPrefix. set (u := bytes_of (ld_URL cfg)). cbv zeta.
  rewrite (eqb_take 5 "ldap:"), (eqb_take 7 "ldap://") by reflexivity.
  destruct (Nat.ltb_spec (length u) 7); [split; [by intros []|lia]|].
  destruct (String.eqb_spec (str_of (take 7 u)) "ldaps://") as [E|_].
  { apply (f_equal (length ∘ bytes_of)) in E. cbn [compose] in E. rewrite bytes_of_str_of, length_take in E.
    change (length (bytes_of "ldaps://")) with 8 in E. lia. }
  cbn [negb andb]. destruct (bprefix (bytes_of "ldap:") u); cbn [negb]; [|split; [by intros []|by intros (_ & ? & _)]].
  destruct (bprefix (bytes_of "ldap://") u); [split; [by intros []|by intros (_ & _ & ?)]|].
  split; [done|]. intros _. by eexists.
Qed.
(** Every ldaps:// address is refused. *)
Lemma ldaps_refused cfg host : ld_URL cfg = "ldaps://" +s host → ∃ e, NewLDAP cfg = Err e.
Proof.
  intros Hu. unfold NewLDAP. rewrite Hu, bytes_of_append. change (bytes_of "ldaps://") with [x6c; x64; x61; x70; x73; x3a; x2f; x2f].
  cbn [app length Nat.ltb Nat.leb take]. by eexists.
Qed.
End LdapProofs.

(** ** SAML *)

Module SamlProofs.
Import Saml.

Lemma friendly_other m uf k : k ≠ uf.2 → friendly m uf !! k = m !! k.
Proof. intros Hk. unfold friendly. destruct (m !! uf.1); [|done]. by rewrite lookup_insert_ne. Qed.
(** A claim of the renaming is the attribute of its long name when the assertion has it;
    any other claim is left as the attributes gave it. *)
Theorem saml_friendly_names a k :
  let m := foldl attribute_claim ∅ (mjoin (as_Statements a)) in
  saml_claims a !! k =
  match find (λ uf, uf.2 =s k) microsoft_names with
  | Some uf => match m !! uf.1 with Some v => Some v | None => m !! k end
  | None => m !! k
  end.
Proof.
  intros m. unfold saml_claims. fold m. unfold microsoft_names. cbn [foldl find snd fst].
  repeat match goal with
  | |- context [if ?c =s k then _ else _] =>
      destruct (String.eqb_spec c k) as [<-|];
      [repeat (rewrite friendly_other by done); unfold friendly at 1; repeat (rewrite friendly_other by done); cbn [fst snd];
       match goal with |- context [m !! ?u] => destruct (m !! u) end; [by rewrite lookup_insert_eq|by repeat (rewrite friendly_other by done)]|]
  end.
  by repeat (rewrite friendly_other by done).
Qed.
End SamlProofs.

(** ** ACC *)

Module AccProofs.
Import Acc.

Definition all_nonempty (m : gmap string string) : Prop := ∀ k v, m !! k = Some v → v ≠ "".
Lemma copy_nonempty_ok m dst src raw : all_nonempty m → all_nonempty (copy_nonempty m dst src raw).
Proof.
  intros Hm k v. unfold copy_nonempty, nonempty_string. destruct (raw_string src raw) as [x|]; [|apply Hm].
  destruct (String.eqb_spec x ""); [apply Hm|]. destruct (decide (k = dst)) as [->|].
  - rewrite lookup_insert_eq. by intros [= <-].
  - rewrite lookup_insert_ne by done. apply Hm.
Qed.
Lemma copy_nonempty_lookup m dst src raw :
  copy_nonempty m dst src raw !! dst = match nonempty_string src raw with Some v => Some v | None => m !! dst end.
Proof. unfold copy_nonempty. destruct (nonempty_string src raw); [apply lookup_insert_eq|done]. Qed.
(** An ACC identity has a subject and no empty claim, and its client number is the one of
    either name, the documented name first. *)
Theorem acc_identity raw ext : mapClaims raw = Ok ext →
  raw_string "sub" raw = Some (ext_ExternalID ext) ∧ ext_ExternalID ext ≠ "" ∧ all_nonempty (ext_Claims ext) ∧
  ext_Claims ext !! "acc_client_number" =
    match nonempty_string "acc_client_number" raw with Some v => Some v | None => nonempty_string "clientNumber" raw end.
Proof.
  unfold mapClaims. cbv zeta. set (m0 := foldl _ _ _).
  assert (all_nonempty m0 ∧ m0 !! "acc_client_number" = None) as [Hm0 Hn].
  { split; [unfold m0, copied_fields; cbn [foldl]; by repeat apply copy_nonempty_ok|].
    unfold m0, copied_fields. cbn [foldl]. unfold copy_nonempty.
    repeat (destruct (nonempty_string _ raw); rewrite ?lookup_insert_ne by done); done. }
  destruct (raw_string "sub" raw) as [sub|]; [|done]. cbn [default id].
  destruct (String.eqb_spec sub ""); [done|]. intros E. injection E as <-. cbn [ext_ExternalID ext_Claims].
  split; [done|]. split; [done|]. set (m1 := copy_nonempty m0 _ _ raw).
  assert (all_nonempty m1) as Hm1 by by apply copy_nonempty_ok.
  assert (m1 !! "acc_client_number" = nonempty_string "acc_client_number" raw) as Hl.
  { unfold m1. rewrite copy_nonempty_lookup, Hn. by destruct (nonempty_string _ raw). }
  rewrite Hl. destruct (nonempty_string "acc_client_number" raw) as [v|]; cbn [default id].
  - assert (v ≠ "") as Hv%String.eqb_neq by by eapply Hm1. by rewrite Hv.
  - change ("" =s "") with true. cbv iota. split; [by apply copy_nonempty_ok|].
    rewrite copy_nonempty_lookup, Hl. by destruct (nonempty_string _ raw).
Qed.

Section Tokens.
Context {St : Type} `{Float64} (http_do : HttpCall → M St (result HttpAnswer)).
(** Without a user-info endpoint the signature of the token is not read: two tokens that
    differ in their third segments give the same outcome. *)
Theorem acc_signature_ignored p0 p1 s s' (w : World St) :
  SplitN (p0 +s "." +s p1 +s "." +s s) x2e 3 = [p0; p1; s] → SplitN (p0 +s "." +s p1 +s "." +s s') x2e 3 = [p0; p1; s'] →
  parseTokenClaims (p0 +s "." +s p1 +s "." +s s) w = parseTokenClaims (p0 +s "." +s p1 +s "." +s s') w.
Proof. intros H1 H2. unfold parseTokenClaims, parseRawClaims. by rewrite H1, H2. Qed.
End Tokens.
End AccProofs.

(** ** Te Whatu Ora *)

Module TeWhatuOraProofs.
Import TeWhatuOra.

(** The numbers, without the loop. *)
Definition is_nhi (id : fhirIdentifierEnt) : bool := fi_System id =s nhiSystemURI.
Definition is_hpi (id : fhirIdentifierEnt) : bool := (fi_System id =s hpiPersonSystemURI) || (fi_System id =s hpiCPNSystemURI).
Definition last_nhi (ids : list fhirIdentifierEnt) : string := default "" (fi_Value <$> last (filter is_nhi ids)).
Definition first_hpi (ids : list fhirIdentifierEnt) : string :=
  default "" (fi_Value <$> find (λ id, is_hpi id && negb (fi_Value id =s "")) ids).
Lemma nhi_not_hpi id : is_nhi id = true → is_hpi id = false.
Proof. unfold is_nhi, is_hpi. intros E. apply String.eqb_eq in E. by rewrite E. Qed.
Lemma find_snoc {A} (f : A → bool) l x : find f (l ++ [x]) = match find f l with Some y => Some y | None => if f x then Some x else None end.
Proof. induction l as [|y l IH]; cbn [app find]; [done|]. by destruct (f y). Qed.
Lemma numbers_spec ids : numbers ids = (last_nhi ids, first_hpi ids).
Proof.
  unfold numbers. induction ids as [|e ids IH] using rev_ind; [done|]. rewrite foldl_app. cbn [foldl]. rewrite IH.
  unfold number_step. fold (is_nhi e). fold (is_hpi e). unfold last_nhi, first_hpi. rewrite filter_app, find_snoc.
  destruct (is_nhi e) eqn:En.
  - rewrite (nhi_not_hpi _ En). cbn [andb]. rewrite filter_cons_True by (by apply Is_true_eq_left). rewrite filter_nil, last_snoc.
    by destruct (find _ ids).
  - rewrite filter_cons_False by (intros Hi%Is_true_eq_true; congruence). rewrite filter_nil, app_nil_r. destruct (is_hpi e); cbn [andb].
    + destruct (find _ ids) as [y|] eqn:Ef; cbn [fmap option_fmap option_map default id].
      * apply find_some in Ef as [_ Ef]. apply andb_prop in Ef as [_ Ef]. apply negb_true_iff in Ef. by rewrite Ef.
      * change ("" =s "") with true. cbv iota. destruct (String.eqb_spec (fi_Value e) "") as [E|]; cbn [negb]; [by rewrite E|done].
    + by destruct (find _ ids).
Qed.

(** The identifier does not depend on the kind of resource: the last NHI number if there
    is one that is not empty, else the first HPI number that is not empty, else the FHIR
    resource's own name; so a practitioner who has both is the NHI number. *)
Theorem fhir_identifier b resourceID resource :
  ext_ExternalID (resource_identity b resourceID resource) =
  let ids := fr_Identifier resource in
  if negb (last_nhi ids =s "") then last_nhi ids else if negb (first_hpi ids =s "") then first_hpi ids else resourceID.
Proof.
  unfold resource_identity. rewrite numbers_spec. cbv zeta.
  by destruct (last_nhi _ =s ""), (first_hpi _ =s "").
Qed.

(** A sign-in that succeeds asked the resource server for the resource the token named,
    with the access token of the exchange. *)
Section Exchange.
Context {St : Type} (http_do : HttpCall → M St (result HttpAnswer)).
Theorem fhir_resource_of_token b code (w : World St) ext w' :
  fhir_ExchangeCode http_do b code w = (Ok ext, w') →
  ∃ a a2 access patient fhirUser w1 resource,
    http_do (token_call (tw_TokenEndpoint b) code (fhir_callbackURL b) (tw_ClientID b) (tw_ClientSecret b)) w = (Ok a, w1) ∧
    ha_status a = StatusOK ∧ (answer_object a ≫= fhir_decode_token) = Some (access, patient, fhirUser) ∧ access ≠ "" ∧
    resource_id patient fhirUser ≠ "" ∧
    http_do (mkHttpCall "GET" (TrimRightSlash (tw_FHIRBase b) +s "/" +s tw_ResourceType b +s "/" +s resource_id patient fhirUser)
               [("Authorization", "Bearer " +s access); ("Accept", "application/fhir+json")] []) w1 = (Ok a2, w') ∧
    ha_status a2 = StatusOK ∧ (answer_object a2 ≫= decode_resource) = Some resource ∧
    ext = resource_identity b (resource_id patient fhirUser) resource.
Proof.
  unfold fhir_ExchangeCode, mbind, M_bind. destruct (http_do _ w) as [[a|] w1] eqn:E1; [|done].
  destruct (Z.eqb_spec (ha_status a) StatusOK) as [Hs|]; [cbn [negb]|done].
  destruct (option_bind _ _ _ _) as [[[access patient] fhirUser]|] eqn:Et; [|done].
  destruct (String.eqb_spec access ""); [done|]. cbv zeta. destruct (String.eqb_spec (resource_id patient fhirUser) ""); [done|].
  unfold fetchFHIRIdentity, Requests.send, mbind, M_bind. cbn [hc_url].
  destruct (GoNet.Parse_ok _); [|done]. destruct (http_do _ w1) as [[a2|] w2] eqn:E2; [|done]. cbn [mret M_ret].
  intros E. injection E as E <-. unfold result_bind in E.
  destruct (Z.eqb_spec (ha_status a2) StatusOK) as [Hs2|]; [cbn [negb] in E|discriminate E].
  destruct (option_bind _ _ _ _) as [resource|] eqn:Er in E; [|discriminate E]. injection E as <-.
  by exists a, a2, access, patient, fhirUser, w1, resource.
Qed.
End Exchange.
End TeWhatuOraProofs.

(** ** Instances *)

Module ProviderSamples.
Import Saml RealMe.
#[local] Existing Instance VcProofs.Sample.plain_float.

(** A SAML library that validates one assertion, and a directory with one user. *)
Definition alice_assertion : Assertion :=
  mkAssertion (Some "FLT-1") [[mkAttribute (realmeAttrPrefix +s "loaAchieved") [realmeLOA2];
                               mkAttribute (realmeAttrPrefix +s "familyName") ["Smith"]]].
#[local] Instance one_assertion : SamlLib unit := {|
  Cert := unit; RsaKey := unit; EntityDescriptor := unit; AuthnRequest := unit;
  LoadX509KeyPair _ _ := mret (Ok ([], Some tt)); ParseCertificate _ := Ok tt; fetch_page _ := mret (Ok (200%Z, Ok []));
  xml_Unmarshal _ := Ok tt; GetSSOBindingLocation _ := "https://idp/sso"; MakeAuthenticationRequest _ _ := mret (Ok tt);
  ar_Redirect _ := Ok "https://idp/sso?SAMLRequest=x"; ar_ID _ := "id-1";
  ParseResponse _ _ ids := mret (if bool_decide (ids = ["id-1"]) then Ok alice_assertion else Err (ErrMsg "unexpected")) |}.
Definition sample_saml : SAMLBridge :=
  mkSAMLBridge (mkSAMLConfig "realme" "" "" "/auth/realme/acs" "" "" "") (mkServiceProvider "" tt tt tt ("", "") ("", "")).
Lemma realme_verified_tier_witness : ∃ a loa, a ∈ mjoin (as_Statements alice_assertion) ∧ at_Values a = [loa] ∧ loa = realmeLOA2.
Proof.
  destruct (RealMeProofs.realme_verified_tier (mkRealMeBridge sample_saml RealMeVerified) (mkRequest [] None [] None [] "" None)
    ["id-1"] Jwt.sample_world _ _ eq_refl eq_refl) as (assertion & a & loa & vs & Hp & _ & _ & Hin & _ & Hv & Hc & _).
  vm_compute in Hc. injection Hc as <-. injection Hp as <-.
  exists (mkAttribute (realmeAttrPrefix +s "loaAchieved") [realmeLOA2]), realmeLOA2. split; [left|]. by split.
Defined.

Import Ldap.
Definition alice_entry : Entry := mkEntry "CN=alice" (λ a, if a =s "mail" then ["alice@example.com"] else []).
#[local] Instance one_directory : LdapLib unit := {|
  Conn := unit; DialURL _ := mret (Ok tt);
  Bind _ dn pw := mret (if ((dn =s "CN=svc") && (pw =s "svc")) || ((dn =s "CN=alice") && (pw =s "secret")) then Ok tt else Err (ErrMsg "49"));
  LdapSearch _ _ := mret (Ok [alice_entry]); EscapeFilter s := s; Sprintf1 _ s := "(sAMAccountName=" +s s +s ")" |}.
Definition sample_ldap : LDAPConfig := mkLDAPConfig "ldap:ad" "CN=svc" "svc" "DC=x" "(sAMAccountName=%s)" (Some default_attributes).
Lemma ldap_identity_bound_witness : ∃ ext w', VerifyCredentials sample_ldap "alice" "secret" Jwt.sample_world = (Ok ext, w') ∧
  ext_ExternalID ext = "CN=alice" ∧ Bind tt "CN=alice" "secret" w' = (Ok tt, w').
Proof.
  destruct (VerifyCredentials sample_ldap "alice" "secret" Jwt.sample_world) as [[ext|] w'] eqn:E; [|discriminate E].
  destruct (LdapProofs.ldap_identity_bound _ _ _ _ _ _ E) as (conn & entry & w1 & w2 & w3 & _ & _ & Hs & _ & Hx).
  exists ext, w'. split; [done|]. injection Hs as <- _. by rewrite Hx.
Defined.

Definition acc_claims : list (string * json) := [("clientNumber", JStr "77"); ("email", JStr ""); ("sub", JStr "u1")].
Lemma acc_identity_witness : ∃ ext, Acc.mapClaims acc_claims = Ok ext ∧ ext_ExternalID ext = "u1" ∧
  ext_Claims ext !! "acc_client_number" = Some "77".
Proof.
  destruct (Acc.mapClaims acc_claims) as [ext|] eqn:E; [|discriminate E]. exists ext. split; [done|].
  destruct (AccProofs.acc_identity _ _ E) as (Hs & _ & _ & Hn). change (raw_string "sub" acc_claims) with (Some "u1") in Hs.
  split; [congruence|]. rewrite Hn. reflexivity.
Defined.
Lemma acc_signature_ignored_witness :
  Acc.parseTokenClaims "aa.bb.cc" Jwt.sample_world = Acc.parseTokenClaims "aa.bb.dd" Jwt.sample_world.
Proof. exact (AccProofs.acc_signature_ignored "aa" "bb" "cc" "dd" Jwt.sample_world eq_refl eq_refl). Defined.

Import TeWhatuOra.
(** A practitioner with both numbers. *)
Definition both_numbers : json :=
  JObj [("access_token", JStr "t"); ("patient", JStr "Z1");
        ("identifier", JArr [JObj [("system", JStr hpiPersonSystemURI); ("value", JStr "H9")];
                             JObj [("system", JStr nhiSystemURI); ("value", JStr "N7")]])].
Definition sample_fhir : TeWhatuOraConfig :=
  mkTeWhatuOraConfig "https://auth" "https://token" "https://fhir" "c" "s" "https://id.example" "Practitioner".
Lemma fhir_resource_of_token_witness : ∃ resource,
  fst (fhir_ExchangeCode (λ _, mret (Ok (mkHttpAnswer 200 (Some both_numbers)))) sample_fhir "code" Jwt.sample_world)
    = Ok (resource_identity sample_fhir "Z1" resource).
Proof.
  set (run := fhir_ExchangeCode (λ _, mret (Ok (mkHttpAnswer 200 (Some both_numbers)))) sample_fhir "code" Jwt.sample_world).
  destruct run as [[ext|] w'] eqn:E; [|vm_compute in E; discriminate E].
  destruct (TeWhatuOraProofs.fhir_resource_of_token _ _ _ _ _ _ E) as (a & a2 & access & patient & fu & w1 & resource & Ha & _ & Ht & _ & _ & _ & _ & _ & ->).
  injection Ha as <- <-. vm_compute in Ht. injection Ht as <- <- <-. by exists resource.
Defined.
(** The practitioner is signed in by the NHI number. *)
Example practitioner_by_nhi :
  ext_ExternalID <$> fst (fhir_ExchangeCode (λ _, mret (Ok (mkHttpAnswer 200 (Some both_numbers)))) sample_fhir "code" Jwt.sample_world) = Ok "N7".
Proof. vm_compute. reflexivity. Qed.
End ProviderSamples.
